(* ===== verification/_CoqProject ===== *)
-Q . S2P
Prelude.v
Decimal.v
Errors.v
Currency.v
Events.v
Money.v
MoneyFacts.v
InterestMath.v
Calendar.v
Store.v
TxRepo.v
Repos.v
AccountRepo.v
Fee.v
Processors.v
ProcMoney.v
ProcWithdraw.v
ProcMerchant.v
ProcFx.v
FxRepo.v
Fx.v
Handle.v
Frames.v
Lawful.v
Postings.v
Invariant.v
Entries.v
Engine.v
Outcome.v
FxFacts.v
FxBooks.v
Components.v
Scenarios.v
FxTheorems.v
Effects.v
Relay.v
RelaySteps.v
RelayTheorems.v
Flow.v
VendorRouting.v
PayoutRepo.v
VendorCommands.v
LedgerApi.v
LedgerService.v
PayoutFlow.v
PayoutInv.v
PayoutStatements.v
PayoutThreads.v
PayoutHandlers.v
PayoutTheorems.v
PayoutRun.v
PayinRepo.v
PayinFlow.v
PayinInv.v
PayinHandlers.v
PayinTheorems.v
Executor.v
ExecutorFacts.v
Adjustments.v
AdjustmentsSafe.v
AdjustmentsRun.v
Workflow.v
Disbursement.v
DisbursementTheorems.v
SchedulePlan.v
Schedule.v
ScheduleTheorems.v
Dispute.v
InterestRepo.v
Interest.v
InterestInv.v
InterestSafe.v
InterestThreads.v
InterestTheorems.v
Progress.v
Liveness.v
Theorems.v
DisputeTheorems.v
Properties.v
Witnesses.v
