(* ===== verification/Prelude.v ===== *)
(** * Seev: a verification library for the money path of a digital wallet

    Seev (the Go services under src/services) keeps user and merchant money in a
    double-entry ledger.  Everything that moves money ends in one call,
    [Service.Handle] of services/ledger/internal/ledger/handle/service.go; the
    payin service turns vendor callbacks into such calls, the payout service holds,
    dispatches and settles withdrawals with them, and the outbox relay carries what
    was posted to a message broker.  This library models those parts as executable
    definitions named after the code's functions, and proves what makes them
    correct under every pattern of database failures, lost acknowledgements,
    crashes and interleavings the code can meet.

    ** The program's parts and the files that model them

    The posting engine (services/ledger/internal):
    - Decimal, Errors, Currency, Events, Money: the values the engine computes with.
      shopspring/decimal and google/uuid are third-party packages and are type
      classes with the operations and documented laws the source relies on
      ([Decimal], [UuidText]); [QDecimal] and [NumUuid] instantiate them.  Money.v is
      internal/platform/money/currency/money.go (checked sums, rates as reduced
      rationals, math/big's text grammar), proved in MoneyFacts.v.
    - Store: the database (tables of services/ledger/migrations as finite maps), the
      monad of database effects with Go's outcomes value, error and panic,
      statements, savepoints, [WithTx].  Every call consumes one element of a
      schedule that decides its duration and whether it fails; a commit may succeed
      although its acknowledgement is lost.
    - TxRepo, Repos, AccountRepo, Fee: the repositories the engine calls, with the
      CHECK constraints, unique indexes and triggers that can refuse a statement.
    - Processors, ProcMoney, ProcWithdraw, ProcMerchant, ProcFx: the
      thirty-eight transaction types (processors/*.go), their validators, entry
      builders, and the default registry.
    - Handle: [Handle], [transfer], [execTransfer] and the phases of its callback.

    The engine's proofs:
    - Frames (what each operation may change), Lawful (the contract of a processor,
      a type class), Postings (the abstract step [posting]), Invariant ([wf_ledger]),
      Entries (validated commands build balanced entries), Engine (every run commits
      at most one abstract step), Outcome (what an answer says), Effects (what one
      call does to every balance), Progress and Liveness (what a healthy database
      cannot refuse), Components (the parts, the default registry among them);
    - Theorems and Properties state the results, Scenarios is a worked wallet,
      Witnesses applies every theorem to it and runs the cases where the code does
      not do what its comments say.

    The outbox relay (internal/worker/outbox_relay.go): Relay, RelaySteps ([relay_step],
    any number of workers), RelayTheorems (safety, and what a healthy broker gets).

    Handlers as programs:
    - Flow: a handler as a tree of outside calls, systems of threads, the proof rule
      [safe], running a handler with given answers, and what the services' tables
      share; VendorRouting: the routing rules and the circuit breaker
      (contracts/vendorgw).
    - LedgerApi: the class [PostingLedger] of what a ledger promises its clients, and
      the smallest ledger [SpecLedger]; LedgerService discharges it with [Handle], so
      what is proved against the interface holds of the posting engine, and is the
      way an error takes over gRPC.

    In the ledger, around the engine:
    - Foreign exchange (ledger/fx/service.go): FxRepo, Fx (quotes, conversions, their
      replay; the tables are in Store), FxFacts, FxBooks (what a quote costs, the
      invariant of the quotes and conversions), FxTheorems.  A conversion
      posts its two legs with [exec_body] inside one transaction, in the monad of Store.
    - The command executor (ledger/command): Executor (the subject gate, the policy
      check, the audit, the posting), ExecutorFacts (what any host of it may rely on).
    - Adjustments (ledger/adjustments): Adjustments, AdjustmentsSafe, AdjustmentsRun.
    - Savings interest (ledger/interest, ledger/accrual): Calendar (civil dates, zones
      and Go's Date, AddDate, Format), InterestMath (the interest of a day),
      InterestRepo (migration 000040 and
      repository/interest_repository.go), Interest (the daily run, the recovery, the
      close, corrections), InterestInv, InterestSafe, InterestThreads (every
      interleaving keeps the invariant), InterestTheorems.
    - Workflow: what every service of the ledger that posts through the executor from
      rows of its own has in common, as a class of tables with an invariant; its
      calls, threads, origin of what is posted, and runs.
    - Disbursements (ledger/disbursement): Disbursement (import, approval, the run over
      a batch), DisbursementTheorems.
    - Scheduled transactions (ledger/schedule): SchedulePlan (policy.go: which dates a
      schedule runs and skips), Schedule (durable.go and schedule.go: planning,
      executing and retrying occurrences, both runners), ScheduleTheorems.
    - Chargeback disputes (ledger/dispute): Dispute (the case record, its transitions,
      the audit trail and the announcements), DisputeTheorems.  They post nothing: the
      ledger's tables are read, and may change in between as postings change them.

    The services around the ledger:
    - Payout (services/payout/internal): PayoutRepo, VendorCommands, PayoutFlow (the
      handlers), PayoutInv (their interleavings and the invariant), PayoutStatements,
      PayoutThreads, PayoutHandlers (each statement and handler keeps it),
      PayoutTheorems, PayoutRun.
    - Payin (services/payin/internal): PayinRepo, PayinFlow, PayinInv, PayinHandlers,
      PayinTheorems, in the same order.
    A state is a record of the tables an operation reads and writes; an operation is
    the definition of the same name; the manifest's map gives its file and lines.

    ** What the theorems show

    - The ledger never lies: every call keeps [wf_ledger], conserves the total of
      each currency, is at most one step of the abstract ledger, and is atomic
      (C1-C3, [execTransfer_is_atomic], [handle_keeps_headers]).
    - Answers can be trusted: success means posted, a used key never executes again,
      an original is closed at most once, by the posting that says so, except by the
      merchant payout types, which do not close; and, without a projection writer and
      fee quotes, what can be posted is posted.
    - Each type moves exactly what it says (two-leg, fee-collecting, top-up,
      rebalancing, reversal), to usable accounts, with its event.
    - Committed events are delivered at least once, and none is beyond delivery.
    - Payout pays at most one vendor, never settles and cancels one request, keeps
      its status in step with the ledger, over any lawful ledger and over the engine
      itself.  Payin credits what an intent promised, to its owner, and its records
      agree with the ledger.
    - Conversions are exact, rates survive being stored; a currency quote is priced
      exactly, a round trip never profits, a conversion moves what its quote says
      once, within the position limits.
    - From an untrusted source nothing is posted for a user who may not move money, or
      against a policy that refuses it, and no adjustment, correction or batch of
      payments is posted on one person's word.
    - Every item of an approved batch is paid at most once, as imported; the planner
      lists every date due exactly once, in order, and plans the newest of them; each
      of the two runners pays a date of a schedule at most once, as the schedule says
      (between them they may pay it twice: [both_runners_pay_one_date]).
    - A dispute's recorded history is the path it took and what was announced of it;
      its end is final and not decided by its creator.
    - Interest is exact to the fraction, posted once a day, capitalized once a month
      as recorded; the older decimal computation agrees with it; a closed month does
      not change.
    - Fees come from the best rule, quotes are single-use; the breaker is a machine of
      three phases that lets one probe through once the cooldown is over.
    - Where the code does not do what it means to, a theorem or a run says so: the
      last lemmas of Witnesses, PayoutRun, PayinTheorems, AdjustmentsRun,
      DisbursementTheorems, SchedulePlan, ScheduleTheorems, DisputeTheorems and
      VendorRouting, and
      [a_zero_item_blocks_the_close], [a_late_failure_counts_a_day_twice].

    ** Choices and bounds

    - Integers are Z with the range or the wrap-around written out ([in_int64],
      [wrap_int64]); decimals are exact.  Times are microseconds; 0 is the zero time.
    - One writer at a time works on the ledger's tables (the rows an engine call
      touches are locked for its whole transaction), so row locks have no effect
      there; the relay and the services interleave freely.
    - [transfer] retries at most three times, the code's bound.  Money's [strip] takes
      the binary length of its argument as fuel, which the facts of MoneyFacts show
      enough.  The loop of [recoverPending] ends when no row is due; [RunDaily] takes
      any number of its rounds, and the theorems hold for each.  The planner's bound
      of 3660 dates is the code's; its theorem asks for a range it suffices for.
    - A handler's thread stops anywhere (a crash); a statement may take effect and
      report an error; a ledger call may post and report an error.  A vendor's
      verdict on one payout is stable, as contracts/vendorgw documents.  The ledger
      says ALREADY_POSTED only of a posted key.
    - The keyed hash behind idempotency digests is a parameter ([Hashing]); only the
      theorems about services over the engine need it to be free of collisions
      ([CollisionFree]), and messages shorter than 4 GiB.
    - Errors keep their wrapping and static text; formatted arguments, updated_at and
      most created_at columns, JSON encodings, logs and metrics are not kept.  The
      processors' metadata is passed by value: the code's aliasing of the map across
      retries cannot be observed.
    - DISTINCT and unordered SELECTs have an unspecified order; SKIP LOCKED skips an
      arbitrary set of rows; random jitter is an arbitrary number in its range.
    - Optional collaborators (currency validator, projection writer, fraud client)
      are options or flags of the service record, with arbitrary answers.

    ** Not modelled

    HTTP and gRPC decoding, background loops, configuration, logging and tracing
    (glue around the modelled operations); row-level security, grants and indexes;
    retention, privacy and assurance exports (read-only or deleting closed rows);
    the administration of currency pairs and rates, fee rules, routing rules and the
    intake switches; the policy engine behind the executor (an outside call with any
    answer); reconciliation; the listings of schedules; the
    balance-projection migration (its writer is an option of the service record); the
    older daily accrual loop; the gateway, auth, fraud, admin, assurance and vendor
    services; the Redis breaker; the developer tools. *)
From Stdlib Require Import QArith Lqa DecimalString DecimalZ.
From stdpp Require Import prelude gmap strings list sorting fin_maps.

Declare Scope ledger_scope.
Delimit Scope ledger_scope with ledger.
#[global] Open Scope Z_scope.

(** ** Automation shared by every file *)

(** [invert H]: inversion keeping the context tidy. *)
Ltac invert H := inversion H; subst; clear H.

(** Case on the scrutinee of a match in a hypothesis or the goal. *)
Ltac case_match_in H :=
  match type of H with
  | context [match ?x with _ => _ end] => destruct x eqn:?
  end.

Create HintDb ledger.

(** ** Machine integers: the 64-bit range of Go's [int64] and SQL's BIGINT *)
Definition min_int64 : Z := -9223372036854775808.
Definition max_int64 : Z := 9223372036854775807.
Definition in_int64 (z : Z) : bool := (min_int64 <=? z) && (z <=? max_int64).

(** Two's-complement wrap-around of [int64] arithmetic. *)
Definition wrap_int64 (z : Z) : Z :=
  (z - min_int64) mod 18446744073709551616 + min_int64.

Lemma in_int64_spec z : in_int64 z = true <-> min_int64 <= z <= max_int64.
Proof. unfold in_int64. rewrite andb_true_iff, !Z.leb_le. reflexivity. Qed.

Lemma in_int64_false z : in_int64 z = false <-> z < min_int64 \/ max_int64 < z.
Proof.
  unfold in_int64. rewrite andb_false_iff, !Z.leb_gt. reflexivity.
Qed.

Lemma wrap_int64_id z : in_int64 z = true -> wrap_int64 z = z.
Proof.
  rewrite in_int64_spec. unfold wrap_int64, min_int64, max_int64. intros H.
  rewrite Z.mod_small by lia. lia.
Qed.

Lemma wrap_int64_range z : in_int64 (wrap_int64 z) = true.
Proof.
  rewrite in_int64_spec. unfold wrap_int64, min_int64, max_int64.
  pose proof (Z.mod_pos_bound (z - -9223372036854775808) 18446744073709551616). lia.
Qed.

(** ** Decimal text of integers, and SQL's text-to-BIGINT cast *)
Definition Z_text (z : Z) : string := NilZero.string_of_int (Z.to_int z).

(** [text::BIGINT]: the digits of the text, refused outside 64 bits.  A text
    with any other character (a decimal point, say) is refused. *)
Definition bigint_of_text (s : string) : option Z :=
  match NilZero.int_of_string s with
  | Some d => let z := Z.of_int d in if in_int64 z then Some z else None
  | None => None
  end.

Lemma Z_to_int_not_nil z :
  Z.to_int z <> Decimal.Pos Decimal.Nil /\ Z.to_int z <> Decimal.Neg Decimal.Nil.
Proof.
  split; intros H.
  - assert (Hz : Z.of_int (Z.to_int z) = 0) by (rewrite H; reflexivity).
    rewrite DecimalZ.of_to in Hz. subst z. discriminate.
  - assert (Hz : Z.of_int (Z.to_int z) = 0) by (rewrite H; reflexivity).
    rewrite DecimalZ.of_to in Hz. subst z. discriminate.
Qed.

Lemma bigint_of_text_Z z :
  bigint_of_text (Z_text z) = if in_int64 z then Some z else None.
Proof.
  unfold bigint_of_text, Z_text.
  destruct (Z_to_int_not_nil z) as [Hp Hn].
  rewrite NilZero.isi by assumption. rewrite DecimalZ.of_to. reflexivity.
Qed.

Lemma Z_text_inj a b : Z_text a = Z_text b -> a = b.
Proof.
  unfold Z_text. intros H.
  assert (E : NilZero.int_of_string (NilZero.string_of_int (Z.to_int a))
              = NilZero.int_of_string (NilZero.string_of_int (Z.to_int b))) by (rewrite H; done).
  rewrite !NilZero.isi in E by apply Z_to_int_not_nil.
  injection E as E. rewrite <- (DecimalZ.of_to a), <- (DecimalZ.of_to b), E. done.
Qed.

(** ** Go's [strings.TrimSpace], [strings.ToUpper] and [strings.ToLower] (ASCII) *)
Definition is_space (c : Ascii.ascii) : bool :=
  let n := Ascii.N_of_ascii c in
  ((9 <=? n) && (n <=? 13) || (n =? 32))%N.

Fixpoint trim_left (s : string) : string :=
  match s with
  | String c s' => if is_space c then trim_left s' else s
  | EmptyString => EmptyString
  end.

Fixpoint all_space (s : string) : bool :=
  match s with
  | String c s' => is_space c && all_space s'
  | EmptyString => true
  end.

Fixpoint trim_right (s : string) : string :=
  match s with
  | String c s' => if all_space s then EmptyString else String c (trim_right s')
  | EmptyString => EmptyString
  end.

Definition TrimSpace (s : string) : string := trim_right (trim_left s).

Definition to_upper (c : Ascii.ascii) : Ascii.ascii :=
  let n := Ascii.N_of_ascii c in
  if ((97 <=? n) && (n <=? 122))%N then Ascii.ascii_of_N (n - 32) else c.

Fixpoint ToUpper (s : string) : string :=
  match s with
  | String c s' => String (to_upper c) (ToUpper s')
  | EmptyString => EmptyString
  end.

Definition to_lower (c : Ascii.ascii) : Ascii.ascii :=
  let n := Ascii.N_of_ascii c in
  if ((65 <=? n) && (n <=? 90))%N then Ascii.ascii_of_N (n + 32) else c.

Fixpoint ToLower (s : string) : string :=
  match s with
  | String c s' => String (to_lower c) (ToLower s')
  | EmptyString => EmptyString
  end.

Lemma trim_right_all_space s : all_space s = true -> trim_right s = EmptyString.
Proof. destruct s; simpl; [done|]. intros ->. done. Qed.

Lemma all_space_trim_right s : all_space (trim_right s) = all_space s.
Proof.
  induction s as [|c s IH]; [done|]. cbn [trim_right].
  destruct (all_space (String c s)) eqn:E; [done|]. simpl in *. by rewrite IH.
Qed.

(** Trimming twice is trimming once, so a trimmed value is stable. *)
Lemma trim_right_idemp s : trim_right (trim_right s) = trim_right s.
Proof.
  induction s as [|c s IH]; [done|]. cbn [trim_right].
  destruct (all_space (String c s)) eqn:E; [done|].
  cbn [trim_right]. rewrite IH.
  replace (all_space (String c (trim_right s))) with (all_space (String c s)).
  - by rewrite E.
  - simpl. by rewrite all_space_trim_right.
Qed.

(** ** Related lists stay related under related filters *)
Lemma Forall2_filter {A B} (R : A -> B -> Prop) (P : A -> Prop) (Q : B -> Prop)
    `{!forall x, Decision (P x)} `{!forall y, Decision (Q y)} l k :
  Forall2 R l k -> (forall x y, R x y -> P x <-> Q y) -> Forall2 R (filter P l) (filter Q k).
Proof.
  intros HR HPQ. induction HR as [|x y l k Hxy _ IH]; [constructor|].
  rewrite !filter_cons. specialize (HPQ x y Hxy).
  destruct (decide (P x)), (decide (Q y)); [by constructor|tauto|tauto|done].
Qed.

Lemma filter_all {A} (P : A -> Prop) `{!forall x, Decision (P x)} (l : list A) :
  (forall x, x ∈ l -> P x) -> filter P l = l.
Proof.
  induction l as [|x l IH]; intros HP; [done|]. rewrite filter_cons_True by (apply HP; left).
  f_equal. apply IH. intros y Hy. apply HP. by right.
Qed.
Lemma filter_none {A} (P : A -> Prop) `{!forall x, Decision (P x)} (l : list A) :
  (forall x, x ∈ l -> ~ P x) -> filter P l = [].
Proof.
  induction l as [|x l IH]; intros HP; [done|]. rewrite filter_cons_False by (apply HP; left).
  apply IH. intros y Hy. apply HP. by right.
Qed.

(** ** Sums of integers over lists and finite maps *)
Fixpoint sumZ {A} (f : A -> Z) (l : list A) : Z :=
  match l with
  | [] => 0
  | x :: l' => f x + sumZ f l'
  end.

Lemma sumZ_app {A} (f : A -> Z) l1 l2 : sumZ f (l1 ++ l2) = sumZ f l1 + sumZ f l2.
Proof. induction l1 as [|x l1 IH]; simpl; [done|]. rewrite IH. lia. Qed.

Lemma sumZ_perm {A} (f : A -> Z) l1 l2 : l1 ≡ₚ l2 -> sumZ f l1 = sumZ f l2.
Proof. induction 1; simpl; lia. Qed.

Lemma sumZ_ext {A} (f g : A -> Z) l : (forall x, x ∈ l -> f x = g x) -> sumZ f l = sumZ g l.
Proof.
  induction l as [|x l IH]; simpl; intros H; [done|].
  rewrite H by set_solver. rewrite IH; [done|]. set_solver.
Qed.

Lemma sumZ_add {A} (f g : A -> Z) l : sumZ (fun x => f x + g x) l = sumZ f l + sumZ g l.
Proof. induction l as [|x l IH]; simpl; lia. Qed.

Lemma sumZ_zero {A} (f : A -> Z) l : (forall x, x ∈ l -> f x = 0) -> sumZ f l = 0.
Proof.
  induction l as [|x l IH]; simpl; intros H; [done|].
  rewrite H by set_solver. rewrite IH; [done|]. set_solver.
Qed.

Lemma sumZ_filter {A} (P : A -> Prop) `{!forall x, Decision (P x)} (f : A -> Z) l :
  (forall x, x ∈ l -> ~ P x -> f x = 0) -> sumZ f (filter P l) = sumZ f l.
Proof.
  induction l as [|x l IH]; intros Hz; [done|]. rewrite filter_cons. simpl.
  case_decide; simpl; rewrite IH by set_solver; [done|]. rewrite (Hz x) by set_solver. lia.
Qed.

(** Summing an indicator over a duplicate-free list picks the one occurrence. *)
Lemma sumZ_indicator {A} `{EqDecision A} (x : A) (v : Z) l :
  NoDup l -> x ∈ l -> sumZ (fun y => if decide (x = y) then v else 0) l = v.
Proof.
  induction 1 as [|y l Hni Hnd IH]; intros Hin; [set_solver|]. simpl.
  destruct (decide (x = y)) as [->|Hne].
  - rewrite sumZ_zero; [lia|]. intros z Hz. case_decide; [subst; done|done].
  - rewrite IH; [lia|]. set_solver.
Qed.

Section map_sum.
Context {K V : Type} `{Countable K}.
Implicit Types (f : K -> V -> Z) (m : gmap K V).

(** The sum of [f k v] over the bindings of a map. *)
Definition map_sum f m : Z := sumZ (fun kv => f kv.1 kv.2) (map_to_list m).

Lemma map_sum_empty f : map_sum f ∅ = 0.
Proof. unfold map_sum. rewrite map_to_list_empty. done. Qed.

Lemma map_sum_insert_new f m k v :
  m !! k = None -> map_sum f (<[k:=v]> m) = f k v + map_sum f m.
Proof.
  intros Hk. unfold map_sum. rewrite (sumZ_perm _ _ _ (map_to_list_insert m k v Hk)). done.
Qed.

Lemma map_sum_delete f m k v :
  m !! k = Some v -> map_sum f m = f k v + map_sum f (delete k m).
Proof.
  intros Hk. rewrite <- (insert_delete_id m k v Hk) at 1.
  rewrite map_sum_insert_new; [done|]. apply lookup_delete_eq.
Qed.

Lemma map_sum_insert f m k v v' :
  m !! k = Some v -> map_sum f (<[k:=v']> m) = map_sum f m + (f k v' - f k v).
Proof.
  intros Hk. rewrite (map_sum_delete f m k v Hk).
  rewrite <- insert_delete_eq, map_sum_insert_new by apply lookup_delete_eq. lia.
Qed.

Lemma map_sum_ext f g m :
  (forall k v, m !! k = Some v -> f k v = g k v) -> map_sum f m = map_sum g m.
Proof.
  intros Hext. unfold map_sum. apply sumZ_ext. intros [k v] Hin. simpl.
  apply Hext. by apply elem_of_map_to_list.
Qed.

Lemma map_sum_add f g m : map_sum (fun k v => f k v + g k v) m = map_sum f m + map_sum g m.
Proof. unfold map_sum. apply sumZ_add. Qed.

Lemma map_sum_zero f m : (forall k v, m !! k = Some v -> f k v = 0) -> map_sum f m = 0.
Proof.
  intros Hz. unfold map_sum. apply sumZ_zero. intros [k v] Hin. apply Hz.
  by apply elem_of_map_to_list.
Qed.

Lemma map_sum_single f m k v :
  m !! k = Some v -> (forall k' v', k' <> k -> f k' v' = 0) -> map_sum f m = f k v.
Proof.
  intros Hk Hz. rewrite (map_sum_delete f m k v Hk), map_sum_zero; [lia|].
  intros k' v' [Hne _]%lookup_delete_Some. by apply Hz.
Qed.

(** Updating every value in place changes the summand only. *)
Lemma map_sum_imap f (g : K -> V -> V) m :
  map_sum f (map_imap (fun k v => Some (g k v)) m) = map_sum (fun k v => f k (g k v)) m.
Proof.
  induction m as [|k v m Hk IH] using map_ind; [by rewrite map_imap_empty, !map_sum_empty|].
  rewrite (map_imap_insert_Some _ k v m (g k v)) by done.
  rewrite !map_sum_insert_new; [by rewrite IH|done|].
  rewrite map_lookup_imap, Hk. done.
Qed.
End map_sum.
