(* ===== verification/Decimal.v ===== *)
(** * Exact decimals and UUIDs: the interfaces of two third-party packages

    The ledger computes with [decimal.Decimal] (shopspring/decimal) and
    identifies rows by [uuid.UUID] (google/uuid).  Neither package is part of
    the repository, so both are interfaces here: a type class with the
    operations the source calls and the documented behaviour it relies on.
    [QDecimal] and [NumUuid] instantiate them with concrete functions. *)
From Stdlib Require Import Ascii QArith Qabs Qround Lqa DecimalString DecimalZ.
From stdpp Require Import prelude strings countable numbers.
From S2P Require Import Prelude.

(** ** decimal.Decimal *)

(** "Decimal represents a fixed-point decimal: number = value * 10 ^ exp".
    [dec_val] is the number; every law below speaks of it only. *)
Class Decimal := {
  dec : Type;
  dec_val : dec -> Q;
  dec_of_Z : Z -> dec;                      (* NewFromInt *)
  dec_of_string : string -> option dec;     (* NewFromString *)
  dec_of_float : Z -> dec;                  (* NewFromFloat, on the IEEE bits *)
  dec_add : dec -> dec -> dec;              (* Add *)
  dec_sub : dec -> dec -> dec;              (* Sub *)
  dec_mul : dec -> dec -> dec;              (* Mul *)
  dec_div : dec -> dec -> dec;              (* Div: 16 digits after the point *)
  dec_cmp : dec -> dec -> comparison;       (* Cmp *)
  dec_truncate : dec -> dec;                (* Truncate(0) *)
  dec_is_integer : dec -> bool;             (* IsInteger *)
  dec_int_part : dec -> Z;                  (* IntPart *)
  dec_string : dec -> string;               (* String *)
  dec_of_Z_val z : (dec_val (dec_of_Z z) == inject_Z z)%Q;
  dec_add_val a b : (dec_val (dec_add a b) == dec_val a + dec_val b)%Q;
  dec_sub_val a b : (dec_val (dec_sub a b) == dec_val a - dec_val b)%Q;
  dec_mul_val a b : (dec_val (dec_mul a b) == dec_val a * dec_val b)%Q;
  (* exact whenever the quotient has at most 16 decimal digits *)
  dec_div_val a b q :
    (0 < dec_val b)%Q -> (dec_val a / dec_val b == Qmake q 10000000000000000)%Q ->
    (dec_val (dec_div a b) == dec_val a / dec_val b)%Q;
  (* otherwise rounded to them *)
  dec_div_near a b :
    (0 < dec_val b)%Q ->
    (Qabs (dec_val (dec_div a b) - dec_val a / dec_val b) <= 1 # 20000000000000000)%Q;
  dec_cmp_val a b : dec_cmp a b = (dec_val a ?= dec_val b)%Q;
  (* the fractional digits are dropped: toward zero *)
  dec_truncate_val a :
    (dec_val (dec_truncate a)
     == inject_Z (Z.quot (Qnum (dec_val a)) (Zpos (Qden (dec_val a)))))%Q;
  dec_is_integer_val a :
    dec_is_integer a = true <-> exists z, (dec_val a == inject_Z z)%Q;
  (* an int64: only specified where the integral part fits *)
  dec_int_part_val a z :
    (dec_val a == inject_Z z)%Q -> in_int64 z = true -> dec_int_part a = z;
  (* String trims trailing zeros: an integral value prints its digits, any
     other has a decimal point, so it is not the text of an integer *)
  dec_string_int a z : (dec_val a == inject_Z z)%Q -> dec_string a = Z_text z;
  dec_string_frac a :
    dec_is_integer a = false -> NilZero.int_of_string (dec_string a) = None;
  dec_of_string_int z :
    exists d, dec_of_string (Z_text z) = Some d /\ (dec_val d == inject_Z z)%Q;
}.

Section derived.
Context `{Decimal}.

Definition dec_zero : dec := dec_of_Z 0.
Definition dec_equal (a b : dec) : bool :=
  match dec_cmp a b with Eq => true | _ => false end.
Definition dec_lt (a b : dec) : bool :=           (* LessThan *)
  match dec_cmp a b with Lt => true | _ => false end.
Definition dec_gt (a b : dec) : bool :=           (* GreaterThan *)
  match dec_cmp a b with Gt => true | _ => false end.
Definition dec_ge (a b : dec) : bool :=           (* GreaterThanOrEqual *)
  match dec_cmp a b with Lt => false | _ => true end.
Definition dec_is_zero (a : dec) : bool := dec_equal a dec_zero.
Definition dec_is_positive (a : dec) : bool := dec_gt a dec_zero.
Definition dec_is_negative (a : dec) : bool := dec_lt a dec_zero.

(** Binding a decimal where the statement expects a BIGINT: the driver sends
    its text and the server casts it. *)
Definition dec_bigint (a : dec) : option Z := bigint_of_text (dec_string a).

Lemma dec_zero_val : (dec_val dec_zero == 0)%Q.
Proof. apply dec_of_Z_val. Qed.

Lemma dec_equal_val a b : dec_equal a b = true <-> (dec_val a == dec_val b)%Q.
Proof.
  unfold dec_equal. rewrite dec_cmp_val, Qeq_alt.
  destruct (_ ?= _)%Q; split; congruence.
Qed.
Lemma dec_lt_val a b : dec_lt a b = true <-> (dec_val a < dec_val b)%Q.
Proof.
  unfold dec_lt. rewrite dec_cmp_val, Qlt_alt.
  destruct (_ ?= _)%Q; split; congruence.
Qed.
Lemma dec_gt_val a b : dec_gt a b = true <-> (dec_val b < dec_val a)%Q.
Proof.
  unfold dec_gt. rewrite dec_cmp_val, Qgt_alt.
  destruct (_ ?= _)%Q; split; congruence.
Qed.
Lemma dec_ge_val a b : dec_ge a b = true <-> (dec_val b <= dec_val a)%Q.
Proof.
  unfold dec_ge. rewrite dec_cmp_val, Qge_alt.
  destruct (_ ?= _)%Q; split; congruence.
Qed.
Lemma dec_is_positive_val a : dec_is_positive a = true <-> (0 < dec_val a)%Q.
Proof. unfold dec_is_positive. rewrite dec_gt_val, dec_zero_val. done. Qed.
Lemma dec_is_negative_val a : dec_is_negative a = true <-> (dec_val a < 0)%Q.
Proof. unfold dec_is_negative. rewrite dec_lt_val, dec_zero_val. done. Qed.
Lemma dec_is_zero_val a : dec_is_zero a = true <-> (dec_val a == 0)%Q.
Proof. unfold dec_is_zero. rewrite dec_equal_val, dec_zero_val. done. Qed.

(** [d.Equal(d.Truncate(0))] is the source's other test of integrality. *)
Lemma dec_equal_truncate a :
  dec_equal a (dec_truncate a) = true <-> dec_is_integer a = true.
Proof.
  rewrite dec_equal_val, dec_is_integer_val, dec_truncate_val. split.
  - intros Hq. eauto.
  - intros [z Hz].
    replace (Z.quot (Qnum (dec_val a)) (Zpos (Qden (dec_val a)))) with z; [done|].
    unfold Qeq, inject_Z in Hz. simpl in Hz. rewrite Z.mul_1_r in Hz.
    rewrite Hz, Z.quot_mul by done. done.
Qed.

Lemma dec_bigint_spec a z :
  dec_bigint a = Some z <-> (dec_val a == inject_Z z)%Q /\ in_int64 z = true.
Proof.
  unfold dec_bigint. destruct (dec_is_integer a) eqn:E.
  - apply dec_is_integer_val in E as [y Hy].
    rewrite (dec_string_int a y Hy), bigint_of_text_Z. split.
    + destruct (in_int64 y) eqn:Ey; [|done]. intros [= ->]. done.
    + intros [Hz Hr]. rewrite Hy in Hz. apply inject_Z_injective in Hz as ->.
      by rewrite Hr.
  - unfold bigint_of_text. rewrite (dec_string_frac a E). split; [done|].
    intros [Hz _]. assert (dec_is_integer a = true) by (apply dec_is_integer_val; eauto).
    congruence.
Qed.

Lemma dec_bigint_of_Z z : in_int64 z = true -> dec_bigint (dec_of_Z z) = Some z.
Proof. intros. apply dec_bigint_spec. split; [apply dec_of_Z_val|done]. Qed.

Lemma inject_Z_inj a b : (inject_Z a == inject_Z b)%Q -> a = b.
Proof. apply inject_Z_injective. Qed.
Lemma inject_Z_le a b : (inject_Z a <= inject_Z b)%Q <-> a <= b.
Proof. by rewrite Zle_Qle. Qed.
Lemma inject_Z_lt a b : (inject_Z a < inject_Z b)%Q <-> a < b.
Proof. by rewrite Zlt_Qlt. Qed.
End derived.

#[export] Hint Rewrite @dec_of_Z_val @dec_add_val @dec_sub_val @dec_mul_val @dec_zero_val : decval.

(** Turn the boolean tests of the source into (in)equations between the
    numbers, then linear arithmetic. *)
Ltac dec_props :=
  repeat match goal with
  | H : dec_equal _ _ = true |- _ => apply dec_equal_val in H
  | H : dec_lt _ _ = true |- _ => apply dec_lt_val in H
  | H : dec_gt _ _ = true |- _ => apply dec_gt_val in H
  | H : dec_ge _ _ = true |- _ => apply dec_ge_val in H
  | H : dec_is_positive _ = true |- _ => apply dec_is_positive_val in H
  | H : dec_is_negative _ = true |- _ => apply dec_is_negative_val in H
  | H : dec_is_zero _ = true |- _ => apply dec_is_zero_val in H
  | H : dec_equal _ _ = false |- _ => rewrite <- not_true_iff_false, dec_equal_val in H
  | H : dec_lt _ _ = false |- _ => rewrite <- not_true_iff_false, dec_lt_val in H; apply Qnot_lt_le in H
  | H : dec_gt _ _ = false |- _ => rewrite <- not_true_iff_false, dec_gt_val in H; apply Qnot_lt_le in H
  | H : dec_ge _ _ = false |- _ => rewrite <- not_true_iff_false, dec_ge_val in H; apply Qnot_le_lt in H
  | H : dec_is_positive _ = false |- _ => rewrite <- not_true_iff_false, dec_is_positive_val in H; apply Qnot_lt_le in H
  | H : dec_is_negative _ = false |- _ => rewrite <- not_true_iff_false, dec_is_negative_val in H; apply Qnot_lt_le in H
  | H : negb _ = true |- _ => apply negb_true_iff in H
  | H : negb _ = false |- _ => apply negb_false_iff in H
  | H : _ && _ = true |- _ => apply andb_true_iff in H as [? ?]
  | H : _ || _ = false |- _ => apply orb_false_iff in H as [? ?]
  | H : dec_bigint _ = Some _ |- _ => apply dec_bigint_spec in H as [? ?]
  end.
Ltac dec_lra := dec_props; autorewrite with decval in *; lra.

(** *** A concrete decimal: rationals, used by the worked examples *)
Module QDecimal.
(** Split at the first decimal point. *)
Fixpoint split_point (s : string) : option (string * string) :=
  match s with
  | EmptyString => None
  | String c s' =>
      if decide (c = "."%char) then Some (EmptyString, s')
      else match split_point s' with
           | Some (a, b) => Some (String c a, b)
           | None => None
           end
  end.

Definition of_string (s : string) : option Q :=
  match NilZero.int_of_string s with
  | Some d => Some (inject_Z (Z.of_int d))
  | None =>
      match split_point s with
      | Some (a, b) =>
          match NilZero.int_of_string a, NilZero.uint_of_string b with
          | Some ia, Some ub =>
              let scale := 10 ^ Z.of_nat (String.length b) in
              let frac := Z.of_uint ub in
              let n := Z.of_int ia in
              let num := match a with
                         | String "-"%char _ => n * scale - frac
                         | _ => n * scale + frac
                         end in
              Some (Qmake num (Z.to_pos scale))
          | _, _ => None
          end
      | None => None
      end
  end.

Definition is_integer (q : Q) : bool := Z.rem (Qnum q) (Zpos (Qden q)) =? 0.
Definition trunc (q : Q) : Z := Z.quot (Qnum q) (Zpos (Qden q)).

Definition to_string (q : Q) : string :=
  if is_integer q then Z_text (trunc q)
  else String "."%char (Z_text (Qnum q) +:+ "/" +:+ Z_text (Zpos (Qden q))).

Lemma is_integer_trunc q : is_integer q = true -> (q == inject_Z (trunc q))%Q.
Proof.
  unfold is_integer, trunc, Qeq, inject_Z. simpl. intros H%Z.eqb_eq.
  pose proof (Z.quot_rem' (Qnum q) (Zpos (Qden q))). lia.
Qed.

Lemma integer_is_integer q z : (q == inject_Z z)%Q -> is_integer q = true /\ trunc q = z.
Proof.
  unfold Qeq, inject_Z. simpl. rewrite Z.mul_1_r. intros H.
  unfold is_integer, trunc. rewrite H, Z.rem_mul, Z.quot_mul by done. done.
Qed.

#[export] Program Instance decimal : Decimal := {|
  dec := Q; dec_val q := q; dec_of_Z := inject_Z; dec_of_string := of_string;
  dec_of_float := fun bits => inject_Z bits;
  dec_add := Qplus; dec_sub := Qminus; dec_mul := Qmult; dec_div := Qdiv; dec_cmp := Qcompare;
  dec_truncate := fun q => inject_Z (trunc q); dec_is_integer := is_integer;
  dec_int_part := trunc; dec_string := to_string |}.
Next Obligation. done. Qed.
Next Obligation. done. Qed.
Next Obligation. done. Qed.
Next Obligation. done. Qed.
Next Obligation. done. Qed.
Next Obligation.
  intros a b _. apply Qabs_Qle_condition. split; lra.
Qed.
Next Obligation. done. Qed.
Next Obligation. done. Qed.
Next Obligation.
  intros a. split; [intros H; eauto using is_integer_trunc|].
  intros [z Hz]. by apply (integer_is_integer a z).
Qed.
Next Obligation. intros a z Hz _. by apply integer_is_integer. Qed.
Next Obligation.
  intros a z Hz. apply integer_is_integer in Hz as [H1 H2].
  unfold to_string. by rewrite H1, H2.
Qed.
Next Obligation. intros a H. unfold to_string. simpl in H. rewrite H.
  unfold NilZero.int_of_string, NilZero.uint_of_string. simpl.
  by destruct (NilEmpty.uint_of_string _). Qed.
Next Obligation.
  intros z. exists (inject_Z z). split; [|done]. unfold of_string, Z_text.
  destruct (Z_to_int_not_nil z) as [Hp Hn].
  rewrite NilZero.isi by assumption. by rewrite DecimalZ.of_to.
Qed.
End QDecimal.

(** ** uuid.UUID: the 16 bytes, read big-endian as one number *)
Definition uuid : Type := N.
Definition uuid_Nil : uuid := 0%N.
#[export] Instance uuid_eq_dec : EqDecision uuid := N.eq_dec.
#[export] Instance uuid_countable : Countable uuid := N_countable.

(** [Parse] and [String]: only the round trip is relied on.  [NewSHA1] derives
    an identifier from a name space and a text. *)
Class UuidText := {
  uuid_parse : string -> option uuid;
  uuid_string : uuid -> string;
  uuid_new_sha1 : uuid -> string -> uuid;
  uuid_parse_string u : uuid_parse (uuid_string u) = Some u;
}.

Lemma uuid_string_inj `{UuidText} a b : uuid_string a = uuid_string b -> a = b.
Proof. intros E. apply (f_equal uuid_parse) in E. rewrite !uuid_parse_string in E. congruence. Qed.

(** *** A concrete text form for the worked examples: the number's digits *)
Module NumUuid.
#[export] Program Instance uuid_text : UuidText := {|
  uuid_parse s := match NilZero.int_of_string s with
                  | Some d => match Z.of_int d with
                              | Z0 => Some 0%N | Zpos p => Some (Npos p) | Zneg _ => None
                              end
                  | None => None
                  end;
  uuid_string u := Z_text (Z.of_N u);
  uuid_new_sha1 _ s := (1 + N.of_nat (String.length s))%N |}.
Next Obligation.
  intros u. unfold Z_text. destruct (Z_to_int_not_nil (Z.of_N u)) as [Hp Hn].
  rewrite NilZero.isi by assumption. rewrite DecimalZ.of_to. by destruct u.
Qed.
End NumUuid.
