(* ===== verification/Errors.v ===== *)
(** * Errors of the ledger: sentinels, wrapping, classification

    Go errors are values that wrap one another; the code branches on them with
    [errors.Is] / [errors.As] and never on their text.  The model keeps the
    wrapping structure and the static part of each message; formatted values
    inside a message are dropped. *)
From stdpp Require Import prelude strings.
From S2P Require Import Prelude.

(** ** Sentinels of services/ledger/internal/ledger/errors/apperror.go *)
Inductive sentinel : Set :=
  | ErrInsufficientFunds | ErrAccountSuspended | ErrAccountClosed
  | ErrSelfTransfer | ErrAmountTooSmall | ErrAmountTooLarge
  | ErrDailyLimitExceeded | ErrOriginalNotFound | ErrAlreadyReversed
  | ErrNotReversible | ErrFeeExceedsAmount | ErrPolicyLimitExceeded
  | ErrSubjectDisabled | ErrKYCRequired | ErrKYCExpired
  | ErrAlreadyClosed | ErrOriginalTypeMismatch | ErrLifecycleAmountMismatch
  | ErrSelfApproval | ErrAdjustmentAlreadyDecided | ErrReconItemAlreadyResolved
  | ErrScreeningBlocked | ErrQuoteExpired | ErrQuoteMismatch
  | ErrUnknownKycTier | ErrCurrencyInvalid | ErrCurrencyDisabled
  | ErrCurrencyOperationDisabled | ErrCurrencyNotEnabled | ErrCurrencyAccountMissing
  | ErrCurrencyAccountInactive | ErrCurrencySystemAccountMissing | ErrCurrencyRouteUnavailable
  | ErrCurrencyLimitExceeded | ErrCrossCurrencyTransferRequiresFX | ErrFXPairUnavailable
  | ErrFXDirectionDisabled | ErrFXRateUnavailable | ErrFXQuoteExpired
  | ErrFXQuoteAlreadyConsumed | ErrFXQuoteMismatch | ErrFXQuoteNotFound
  | ErrFXConversionNotFound | ErrFXRateNotFound | ErrFXRateApprovalConflict
  | ErrFXPositionLimitExceeded | ErrFXConversionsPaused | ErrFXTargetAmountZero
  | ErrFXRateInvalid | ErrValidation | ErrAccountNotFound
  | ErrTransactionNotFound | ErrCurrencyMismatch | ErrFXPairNotFound
  | ErrUnknownProcessor | ErrUnbalancedEntries | ErrEmptyIdempotencyKey
  | ErrStatementRangeTooLarge | ErrMoneyOverflow | ErrOutboxEventNotFound
  | ErrPendingAdjustmentNotFound | ErrReconBatchNotFound | ErrReconItemNotFound
  | ErrCSVTooManyRows | ErrScheduledTransactionNotFound | ErrScheduledTransactionNotOwned
  | ErrScheduledTransactionAlreadyTerminal | ErrDisbursementBatchNotFound | ErrSavingsConfigNotFound
  | ErrChargebackDisputeNotFound | ErrChargebackDisputeAlreadyResolved | ErrDisbursementBatchAlreadyDecided
  | ErrDisbursementBatchNotApproved | ErrAlreadyPosted | ErrPreviousFailed
  | ErrStillProcessing | ErrIdempotencyConflict.

(** The text each sentinel is created with; [NewBizErr] copies it to [Code]. *)
Definition sentinel_code (s : sentinel) : string :=
  match s with
  | ErrInsufficientFunds => "INSUFFICIENT_FUNDS"
  | ErrAccountSuspended => "ACCOUNT_SUSPENDED"
  | ErrAccountClosed => "ACCOUNT_CLOSED"
  | ErrSelfTransfer => "SELF_TRANSFER"
  | ErrAmountTooSmall => "AMOUNT_TOO_SMALL"
  | ErrAmountTooLarge => "AMOUNT_TOO_LARGE"
  | ErrDailyLimitExceeded => "DAILY_LIMIT_EXCEEDED"
  | ErrOriginalNotFound => "ORIGINAL_TX_NOT_FOUND"
  | ErrAlreadyReversed => "ALREADY_REVERSED"
  | ErrNotReversible => "NOT_REVERSIBLE"
  | ErrFeeExceedsAmount => "FEE_EXCEEDS_AMOUNT"
  | ErrPolicyLimitExceeded => "POLICY_LIMIT_EXCEEDED"
  | ErrSubjectDisabled => "SUBJECT_DISABLED"
  | ErrKYCRequired => "KYC_REQUIRED"
  | ErrKYCExpired => "KYC_EXPIRED"
  | ErrAlreadyClosed => "ALREADY_CLOSED"
  | ErrOriginalTypeMismatch => "ORIGINAL_TYPE_MISMATCH"
  | ErrLifecycleAmountMismatch => "LIFECYCLE_AMOUNT_MISMATCH"
  | ErrSelfApproval => "SELF_APPROVAL"
  | ErrAdjustmentAlreadyDecided => "ADJUSTMENT_ALREADY_DECIDED"
  | ErrReconItemAlreadyResolved => "RECON_ITEM_ALREADY_RESOLVED"
  | ErrScreeningBlocked => "SCREENING_BLOCKED"
  | ErrQuoteExpired => "QUOTE_EXPIRED"
  | ErrQuoteMismatch => "QUOTE_MISMATCH"
  | ErrUnknownKycTier => "UNKNOWN_KYC_TIER"
  | ErrCurrencyInvalid => "CURRENCY_INVALID"
  | ErrCurrencyDisabled => "CURRENCY_DISABLED"
  | ErrCurrencyOperationDisabled => "CURRENCY_OPERATION_DISABLED"
  | ErrCurrencyNotEnabled => "CURRENCY_NOT_ENABLED"
  | ErrCurrencyAccountMissing => "CURRENCY_ACCOUNT_MISSING"
  | ErrCurrencyAccountInactive => "CURRENCY_ACCOUNT_INACTIVE"
  | ErrCurrencySystemAccountMissing => "CURRENCY_SYSTEM_ACCOUNT_MISSING"
  | ErrCurrencyRouteUnavailable => "CURRENCY_ROUTE_UNAVAILABLE"
  | ErrCurrencyLimitExceeded => "CURRENCY_LIMIT_EXCEEDED"
  | ErrCrossCurrencyTransferRequiresFX => "CROSS_CURRENCY_TRANSFER_REQUIRES_FX"
  | ErrFXPairUnavailable => "FX_PAIR_UNAVAILABLE"
  | ErrFXDirectionDisabled => "FX_DIRECTION_DISABLED"
  | ErrFXRateUnavailable => "FX_RATE_UNAVAILABLE"
  | ErrFXQuoteExpired => "FX_QUOTE_EXPIRED"
  | ErrFXQuoteAlreadyConsumed => "FX_QUOTE_ALREADY_CONSUMED"
  | ErrFXQuoteMismatch => "FX_QUOTE_MISMATCH"
  | ErrFXQuoteNotFound => "FX_QUOTE_NOT_FOUND"
  | ErrFXConversionNotFound => "FX_CONVERSION_NOT_FOUND"
  | ErrFXRateNotFound => "FX_RATE_NOT_FOUND"
  | ErrFXRateApprovalConflict => "FX_RATE_APPROVAL_CONFLICT"
  | ErrFXPositionLimitExceeded => "FX_POSITION_LIMIT_EXCEEDED"
  | ErrFXConversionsPaused => "FX_CONVERSIONS_PAUSED"
  | ErrFXTargetAmountZero => "FX_TARGET_AMOUNT_ZERO"
  | ErrFXRateInvalid => "FX_RATE_INVALID"
  | ErrValidation => "VALIDATION_ERROR"
  | ErrAccountNotFound => "ACCOUNT_NOT_FOUND"
  | ErrTransactionNotFound => "TRANSACTION_NOT_FOUND"
  | ErrCurrencyMismatch => "CURRENCY_MISMATCH"
  | ErrFXPairNotFound => "FX_PAIR_NOT_FOUND"
  | ErrUnknownProcessor => "UNKNOWN_TX_TYPE"
  | ErrUnbalancedEntries => "UNBALANCED_ENTRIES"
  | ErrEmptyIdempotencyKey => "EMPTY_IDEMPOTENCY_KEY"
  | ErrStatementRangeTooLarge => "STATEMENT_RANGE_TOO_LARGE"
  | ErrMoneyOverflow => "MONEY_OVERFLOW"
  | ErrOutboxEventNotFound => "OUTBOX_EVENT_NOT_FOUND"
  | ErrPendingAdjustmentNotFound => "PENDING_ADJUSTMENT_NOT_FOUND"
  | ErrReconBatchNotFound => "RECON_BATCH_NOT_FOUND"
  | ErrReconItemNotFound => "RECON_ITEM_NOT_FOUND"
  | ErrCSVTooManyRows => "CSV_TOO_MANY_ROWS"
  | ErrScheduledTransactionNotFound => "SCHEDULED_TRANSACTION_NOT_FOUND"
  | ErrScheduledTransactionNotOwned => "SCHEDULED_TRANSACTION_NOT_OWNED"
  | ErrScheduledTransactionAlreadyTerminal => "SCHEDULED_TRANSACTION_ALREADY_TERMINAL"
  | ErrDisbursementBatchNotFound => "DISBURSEMENT_BATCH_NOT_FOUND"
  | ErrSavingsConfigNotFound => "SAVINGS_CONFIG_NOT_FOUND"
  | ErrChargebackDisputeNotFound => "CHARGEBACK_DISPUTE_NOT_FOUND"
  | ErrChargebackDisputeAlreadyResolved => "CHARGEBACK_DISPUTE_ALREADY_RESOLVED"
  | ErrDisbursementBatchAlreadyDecided => "DISBURSEMENT_BATCH_ALREADY_DECIDED"
  | ErrDisbursementBatchNotApproved => "DISBURSEMENT_BATCH_NOT_APPROVED"
  | ErrAlreadyPosted => "ALREADY_POSTED"
  | ErrPreviousFailed => "PREVIOUS_ATTEMPT_FAILED"
  | ErrStillProcessing => "STILL_PROCESSING"
  | ErrIdempotencyConflict => "IDEMPOTENCY_CONFLICT"
  end.

Scheme Equality for sentinel.
#[export] Instance sentinel_eq_decision : EqDecision sentinel := sentinel_eq_dec.

(** ** Error values *)
Inductive error : Type :=
  | Sentinel (s : sentinel)              (* an errors.New value of the package *)
  | LedgerError (s : sentinel) (msg : string)   (* *LedgerError from NewBizErr *)
  | Wrap (ctx : string) (e : error)      (* fmt.Errorf("ctx: %w", e) *)
  | Wrap2 (s : sentinel) (e : error)     (* fmt.Errorf("%w: %w", s, e) *)
  | Plain (msg : string)                 (* an error that wraps nothing *)
  | PgError (code : string) (msg : string)      (* *pgconn.PgError *)
  | DriverError                          (* connection lost and the like *)
  | ErrNoRows                            (* sql.ErrNoRows *)
  | ErrQuoteExpired_                     (* feepolicy.ErrQuoteExpired *)
  | ErrQuoteMismatch_                    (* feepolicy.ErrQuoteMismatch *)
  | ContextErr.                          (* ctx.Err() *)

Definition NewBizErr (s : sentinel) (msg : string) : error := LedgerError s msg.

(** [fmt.Errorf("%w: ...", sentinel)] *)
Definition wrapf (s : sentinel) (msg : string) : error := Wrap msg (Sentinel s).

(** [errors.Is(err, sentinel)]: some error of the chain is the sentinel. *)
Fixpoint errors_is (e : error) (s : sentinel) : bool :=
  match e with
  | Sentinel s' | LedgerError s' _ => bool_decide (s = s')
  | Wrap _ e' => errors_is e' s
  | Wrap2 s' e' => bool_decide (s = s') || errors_is e' s
  | _ => false
  end.

(** [errors.Is] against the other three sentinels the code tests for. *)
Fixpoint is_no_rows (e : error) : bool :=
  match e with
  | ErrNoRows => true
  | Wrap _ e' | Wrap2 _ e' => is_no_rows e'
  | _ => false
  end.
Fixpoint is_fee_quote_expired (e : error) : bool :=
  match e with
  | ErrQuoteExpired_ => true
  | Wrap _ e' | Wrap2 _ e' => is_fee_quote_expired e'
  | _ => false
  end.
Fixpoint is_fee_quote_mismatch (e : error) : bool :=
  match e with
  | ErrQuoteMismatch_ => true
  | Wrap _ e' | Wrap2 _ e' => is_fee_quote_mismatch e'
  | _ => false
  end.

(** [errors.As(err, &pgErr)]: the first Postgres error of the chain. *)
Fixpoint as_pg_error (e : error) : option (string * string) :=
  match e with
  | PgError c m => Some (c, m)
  | Wrap _ e' | Wrap2 _ e' => as_pg_error e'
  | _ => None
  end.

(** ** internal/platform/errors *)
Definition IsDuplicateKey (e : error) : bool :=
  match as_pg_error e with
  | Some (c, _) => bool_decide (c = "23505")
  | None => false
  end.

Definition IsRetryable (e : error) : bool :=
  match as_pg_error e with
  | Some (c, _) => bool_decide (c = "40001") || bool_decide (c = "40P01")
  | None => false
  end.

(** ** Business rejections *)
Definition businessRejectionSentinels : list sentinel :=
  [ ErrValidation; ErrEmptyIdempotencyKey; ErrUnknownProcessor;
    ErrSelfTransfer; ErrStatementRangeTooLarge; ErrCSVTooManyRows;
    ErrSelfApproval; ErrAccountNotFound; ErrTransactionNotFound;
    ErrOriginalNotFound; ErrOutboxEventNotFound; ErrPendingAdjustmentNotFound;
    ErrReconBatchNotFound; ErrReconItemNotFound; ErrInsufficientFunds;
    ErrAccountSuspended; ErrAccountClosed; ErrCurrencyMismatch;
    ErrAmountTooSmall; ErrAmountTooLarge; ErrDailyLimitExceeded;
    ErrFeeExceedsAmount; ErrAlreadyReversed; ErrNotReversible;
    ErrAlreadyClosed; ErrOriginalTypeMismatch; ErrLifecycleAmountMismatch;
    ErrUnbalancedEntries; ErrScreeningBlocked; ErrPolicyLimitExceeded;
    ErrSubjectDisabled; ErrKYCRequired; ErrKYCExpired;
    ErrQuoteExpired; ErrQuoteMismatch; ErrStillProcessing;
    ErrPreviousFailed; ErrAdjustmentAlreadyDecided; ErrReconItemAlreadyResolved;
    ErrIdempotencyConflict; ErrChargebackDisputeNotFound; ErrChargebackDisputeAlreadyResolved;
    ErrDisbursementBatchAlreadyDecided; ErrDisbursementBatchNotApproved; ErrCurrencyInvalid;
    ErrCurrencyDisabled; ErrCurrencyOperationDisabled; ErrCurrencyNotEnabled;
    ErrCurrencyAccountMissing; ErrCurrencyAccountInactive; ErrCurrencySystemAccountMissing;
    ErrCurrencyRouteUnavailable; ErrCurrencyLimitExceeded; ErrCrossCurrencyTransferRequiresFX;
    ErrFXPairUnavailable; ErrFXDirectionDisabled; ErrFXRateUnavailable;
    ErrFXQuoteExpired; ErrFXQuoteAlreadyConsumed; ErrFXQuoteMismatch;
    ErrFXQuoteNotFound; ErrFXConversionNotFound; ErrFXRateNotFound;
    ErrFXConversionsPaused; ErrFXTargetAmountZero; ErrFXRateInvalid;
    ErrFXRateNotFound; ErrFXRateApprovalConflict; ErrFXPositionLimitExceeded;
    ErrMoneyOverflow ].

Definition IsBusinessRejection (e : error) : bool :=
  existsb (errors_is e) businessRejectionSentinels.

(** ** Facts *)
Lemma errors_is_wrap ctx e s : errors_is (Wrap ctx e) s = errors_is e s.
Proof. done. Qed.

Lemma IsBusinessRejection_wrap ctx e :
  IsBusinessRejection (Wrap ctx e) = IsBusinessRejection e.
Proof. done. Qed.

Lemma IsBusinessRejection_pg c m : IsBusinessRejection (PgError c m) = false.
Proof. reflexivity. Qed.

Lemma IsRetryable_biz s m : IsRetryable (LedgerError s m) = false.
Proof. done. Qed.
