(* ===== verification/Currency.v ===== *)
(** * The currency registry: internal/platform/money/currency/currency.go

    The registry is process-wide state replaced as a whole by [Load]; the model
    passes it as a map. *)
From Stdlib Require Import Ascii QArith.
From stdpp Require Import prelude gmap strings.
From S2P Require Import Prelude Decimal Errors.

Record Currency := MkCurrency {
  cur_Code : string;
  cur_MinorUnit : Z;                        (* int16 *)
  cur_Status : string;
  cur_Operations : option (gmap string bool);   (* None: nil map *)
}.

(** The package's own sentinels. *)
Definition ErrInvalidCurrency : error := Plain "invalid currency".
Definition ErrUnknownCurrency : error := Plain "unknown currency".
Definition ErrInvalidAmount : error := Plain "invalid minor-unit amount".

Notation registry := (gmap string Currency).

Definition Load (l : list Currency) : registry :=
  foldl (fun m c =>
    let code := ToUpper (TrimSpace (cur_Code c)) in
    let status := if bool_decide (cur_Status c = EmptyString) then "active" else cur_Status c in
    <[code := MkCurrency code (cur_MinorUnit c) status (cur_Operations c)]> m) ∅ l.

(** The registry every process starts with. *)
Definition init_registry : registry := Load [MkCurrency "IDR" 0 "active" None].

Definition is_upper_letter (c : ascii) : bool :=
  let n := N_of_ascii c in ((65 <=? n) && (n <=? 90))%N.
(** The pattern [^[A-Z]{3}$]. *)
Definition codePattern (s : string) : bool :=
  match s with
  | String a (String b (String c EmptyString)) =>
      is_upper_letter a && is_upper_letter b && is_upper_letter c
  | _ => false
  end.

Definition ValidateCode (code : string) : option error :=
  if codePattern code then None
  else Some (Wrap "code must contain exactly three uppercase ASCII letters" ErrInvalidCurrency).

Definition lookup_currency (reg : registry) (code : string) : option Currency := reg !! code.
Definition IsValid (reg : registry) (code : string) : bool :=
  bool_decide (is_Some (lookup_currency reg code)).

Definition Normalize (reg : registry) (code : string) : error + string :=
  match ValidateCode code with
  | Some e => inl e
  | None => if IsValid reg code then inr code else inl (Wrap "unknown" ErrUnknownCurrency)
  end.

Definition IsEnabled (reg : registry) (code : string) : bool :=
  match lookup_currency reg code with
  | Some c => bool_decide (cur_Status c = EmptyString) || bool_decide (cur_Status c = "active")
  | None => false
  end.

Definition Allows (reg : registry) (code operation : string) : bool :=
  match lookup_currency reg code with
  | Some c =>
      if negb (IsEnabled reg code) then false
      else match cur_Operations c with
           | None => true
           | Some ops => if bool_decide (size ops = 0%nat) then true
                         else default false (ops !! operation)
           end
  | None => false
  end.

Definition MinorUnit (reg : registry) (code : string) : Z * bool :=
  match lookup_currency reg code with
  | Some c => (cur_MinorUnit c, true)
  | None => (0, false)
  end.

Definition ValidatePositiveMinorAmount `{Decimal} (amount : dec) : option error :=
  if negb (dec_is_positive amount) || negb (dec_equal amount (dec_truncate amount)) then
    Some (Wrap "amount must be a positive integer minor-unit value" ErrInvalidAmount)
  else if dec_gt amount (dec_of_Z max_int64) then
    Some (Wrap "amount exceeds signed 64-bit minor-unit range" ErrInvalidAmount)
  else None.

Lemma Normalize_inr reg code c : Normalize reg code = inr c -> c = code /\ codePattern code = true.
Proof.
  unfold Normalize, ValidateCode. destruct (codePattern code); [|done].
  destruct (IsValid reg code); [|done]. by intros [= ->].
Qed.

Lemma ValidatePositiveMinorAmount_spec `{Decimal} amount :
  ValidatePositiveMinorAmount amount = None <->
  exists z, dec_bigint amount = Some z /\ 0 < z.
Proof.
  unfold ValidatePositiveMinorAmount. split.
  - destruct (dec_is_positive amount) eqn:Ep; [|done].
    destruct (dec_equal amount (dec_truncate amount)) eqn:Et; [|done]. simpl.
    destruct (dec_gt amount (dec_of_Z max_int64)) eqn:Eg; [done|]. intros _.
    apply dec_equal_truncate, dec_is_integer_val in Et as [z Hz].
    dec_props. rewrite dec_of_Z_val, Hz in Eg. rewrite Hz in Ep.
    change 0%Q with (inject_Z 0) in Ep. rewrite <- Zlt_Qlt in Ep. rewrite <- Zle_Qle in Eg.
    exists z. split; [|done]. apply dec_bigint_spec. split; [done|].
    apply in_int64_spec. unfold min_int64. lia.
  - intros (z & Hb & Hz). apply dec_bigint_spec in Hb as [Hv Hr].
    assert (dec_is_positive amount = true) as ->.
    { apply dec_is_positive_val. rewrite Hv. change 0%Q with (inject_Z 0). by rewrite <- Zlt_Qlt. }
    assert (dec_equal amount (dec_truncate amount) = true) as ->.
    { apply dec_equal_truncate, dec_is_integer_val. eauto. }
    simpl. destruct (dec_gt amount (dec_of_Z max_int64)) eqn:Eg; [|done].
    dec_props. rewrite dec_of_Z_val, Hv in Eg. rewrite <- Zlt_Qlt in Eg.
    apply in_int64_spec in Hr. lia.
Qed.
