(* ===== verification/Events.v ===== *)
(** * Domain events of the ledger: contracts/events/ledger/events.go

    The two events the posting path emits, with the checks a consumer runs
    ([Validate]) before it applies one.  The JSON encoding of the structs is
    not modelled: the outbox keeps the struct. *)
From Stdlib Require Import Ascii DecimalString.
From stdpp Require Import prelude gmap strings list.
From S2P Require Import Prelude Decimal Errors Currency.

(** constants: Debit and Credit, the text of a direction. *)
Inductive Direction := Debit | Credit.
#[export] Instance Direction_eq_dec : EqDecision Direction.
Proof. solve_decision. Defined.
Definition direction_text (d : Direction) : string :=
  match d with Debit => "debit" | Credit => "credit" end.

Definition TypeTransactionPosted : string := "ledger.transaction.posted.v1".
Definition TypeTransactionReversed : string := "ledger.transaction.reversed.v1".

Record EntrySummary := MkEntrySummary {
  es_AccountID : uuid;
  es_Direction : string;
  es_Amount : string;
}.

Record TransactionPosted := {
  tp_SchemaVersion : Z;
  tp_EventID : option uuid;
  tp_TxID : uuid;
  tp_TransactionType : string;
  tp_Amount : string;
  tp_Currency : string;
  tp_MinorUnit : Z;
  tp_SourceAccountID : option uuid;
  tp_DestinationAccountID : option uuid;
  tp_Entries : list EntrySummary;
  tp_ExternalRef : string;
  tp_OccurredAt : Z;
  tp_UserID : option uuid;
  tp_TargetUserID : option uuid;
  tp_MerchantTenantID : option uuid;
  tp_RequestID : string;
  tp_FeeAmount : string;
  tp_TotalDebit : string;
  tp_FeeGateway : string;
  tp_FeeApplication : string;
  tp_FeeQuoteID : option uuid;
  tp_PayinID : option uuid;
}.

Record TransactionReversed := {
  tr_SchemaVersion : Z;
  tr_EventID : option uuid;
  tr_ReversalTxID : uuid;
  tr_OriginalTxID : uuid;
  tr_Amount : string;
  tr_Currency : string;
  tr_OccurredAt : Z;
}.

(** One atomic conversion: amounts and rate as exact text. *)
Record FXConversionPosted := {
  fe_SchemaVersion : Z;
  fe_EventID : option uuid;
  fe_ConversionID : uuid;
  fe_QuoteID : uuid;
  fe_UserID : uuid;
  fe_SourceTransactionID : uuid;
  fe_SourceCurrency : string;
  fe_SourceMinorUnit : Z;
  fe_SourceAmount : string;
  fe_TargetTransactionID : uuid;
  fe_TargetCurrency : string;
  fe_TargetMinorUnit : Z;
  fe_TargetAmount : string;
  fe_PairID : uuid;
  fe_DirectionID : uuid;
  fe_RateVersionID : uuid;
  fe_ClientRate : string;
  fe_RateConvention : string;
  fe_PairPolicyVersion : Z;
  fe_SpreadBasisPoints : Z;
  fe_RoundingMode : string;
  fe_RoundingRemainder : string;
  fe_PostedAt : Z;
}.
Definition TypeFXConversionPosted : string := "ledger.fx_conversion.posted.v1".

Inductive payload := PPosted (e : TransactionPosted) | PReversed (e : TransactionReversed)
  | PConverted (e : FXConversionPosted).

Definition is_digit (c : ascii) : bool :=
  let n := N_of_ascii c in ((48 <=? n) && (n <=? 57))%N.
Fixpoint all_digits (s : string) : bool :=
  match s with String c s' => is_digit c && all_digits s' | EmptyString => true end.
(** [^[0-9]+$] *)
Definition minorAmountPattern (s : string) : bool :=
  negb (bool_decide (s = EmptyString)) && all_digits s.

(** [new(big.Int).SetString(s, 10)] on a text that matched the pattern. *)
Definition big_of_digits (s : string) : option Z := Z.of_int <$> NilZero.int_of_string s.

Definition empty (s : string) : bool := bool_decide (s = EmptyString).

Definition entry_summary_valid (e : EntrySummary) : bool :=
  negb (bool_decide (es_AccountID e = uuid_Nil))
  && (bool_decide (es_Direction e = "debit") || bool_decide (es_Direction e = "credit"))
  && minorAmountPattern (es_Amount e).

Definition TransactionPosted_Validate (e : TransactionPosted) : option error :=
  if negb (tp_SchemaVersion e =? 1) then
    Some (Plain "transaction posted: unsupported schema_version")
  else if bool_decide (tp_TxID e = uuid_Nil) || empty (tp_TransactionType e)
       || negb (minorAmountPattern (tp_Amount e)) || negb (codePattern (tp_Currency e))
       || (tp_MinorUnit e <? 0) || (tp_OccurredAt e =? 0) then
    Some (Plain "transaction posted: required fields are invalid")
  else if (negb (empty (tp_FeeAmount e)) && negb (minorAmountPattern (tp_FeeAmount e)))
       || (negb (empty (tp_TotalDebit e)) && negb (minorAmountPattern (tp_TotalDebit e))) then
    Some (Plain "transaction posted: fee amounts are invalid")
  else if negb (eqb (empty (tp_FeeAmount e)) (empty (tp_TotalDebit e))) then
    Some (Plain "transaction posted: fee_amount and total_debit must be supplied together")
  else
    let fee_check :=
      if empty (tp_FeeAmount e) then None
      else match big_of_digits (tp_Amount e), big_of_digits (tp_FeeAmount e),
                 big_of_digits (tp_TotalDebit e) with
           | Some amount, Some fee, Some total =>
               if amount + fee =? total then None
               else Some (Plain "transaction posted: total_debit must equal amount plus fee_amount")
           | _, _, _ => Some (Plain "transaction posted: fee amounts are invalid")
           end in
    match fee_check with
    | Some err => Some err
    | None => if forallb entry_summary_valid (tp_Entries e) then None
              else Some (Plain "transaction posted: invalid entry")
    end.

Definition TransactionReversed_Validate (e : TransactionReversed) : option error :=
  if negb (tr_SchemaVersion e =? 1) || bool_decide (tr_ReversalTxID e = uuid_Nil)
     || bool_decide (tr_OriginalTxID e = uuid_Nil) || negb (minorAmountPattern (tr_Amount e))
     || negb (codePattern (tr_Currency e)) || (tr_OccurredAt e =? 0) then
    Some (Plain "transaction reversed: required fields are invalid")
  else None.

Section events.
Context `{UT : !UuidText}.

Definition logicalEventID (eventType identity : string) : option uuid :=
  Some (uuid_new_sha1 uuid_Nil (eventType +:+ ":" +:+ identity)).

Definition NewTransactionPosted (reg : registry) (txID : uuid)
    (transactionType amount currency : string) (source destination : option uuid)
    (entries : list EntrySummary) (externalRef : string) (occurredAt : Z)
    (userID targetUserID : option uuid) (requestID : string)
    (merchantTenantID : option uuid) : TransactionPosted :=
  let minorUnit := match MinorUnit reg currency with
                   | (registeredMinorUnit, true) => registeredMinorUnit
                   | _ => 0
                   end in
  {| tp_SchemaVersion := 1;
     tp_EventID := logicalEventID TypeTransactionPosted (uuid_string txID);
     tp_TxID := txID; tp_TransactionType := transactionType; tp_Amount := amount;
     tp_Currency := currency; tp_MinorUnit := minorUnit;
     tp_SourceAccountID := source; tp_DestinationAccountID := destination;
     tp_Entries := entries; tp_ExternalRef := externalRef; tp_OccurredAt := occurredAt;
     tp_UserID := userID; tp_TargetUserID := targetUserID;
     tp_MerchantTenantID := merchantTenantID; tp_RequestID := requestID;
     tp_FeeAmount := EmptyString; tp_TotalDebit := EmptyString; tp_FeeGateway := EmptyString;
     tp_FeeApplication := EmptyString; tp_FeeQuoteID := None; tp_PayinID := None |}.

Definition NewTransactionReversed (reversalTxID originalTxID : uuid)
    (amount currency : string) (occurredAt : Z) : TransactionReversed :=
  {| tr_SchemaVersion := 1;
     tr_EventID := logicalEventID TypeTransactionReversed
                     (uuid_string reversalTxID +:+ ":" +:+ uuid_string originalTxID);
     tr_ReversalTxID := reversalTxID; tr_OriginalTxID := originalTxID;
     tr_Amount := amount; tr_Currency := currency; tr_OccurredAt := occurredAt |}.

Definition NewFXConversionPosted (conversionID quoteID userID sourceTransactionID : uuid)
    (sourceCurrency : string) (sourceMinorUnit : Z) (sourceAmount : string)
    (targetTransactionID : uuid) (targetCurrency : string) (targetMinorUnit : Z)
    (targetAmount : string) (pairID directionID rateVersionID : uuid)
    (clientRate rateConvention : string) (pairPolicyVersion spreadBasisPoints : Z)
    (roundingMode roundingRemainder : string) (postedAt : Z) : FXConversionPosted :=
  {| fe_SchemaVersion := 1;
     fe_EventID := logicalEventID TypeFXConversionPosted (uuid_string conversionID);
     fe_ConversionID := conversionID; fe_QuoteID := quoteID; fe_UserID := userID;
     fe_SourceTransactionID := sourceTransactionID; fe_SourceCurrency := sourceCurrency;
     fe_SourceMinorUnit := sourceMinorUnit; fe_SourceAmount := sourceAmount;
     fe_TargetTransactionID := targetTransactionID; fe_TargetCurrency := targetCurrency;
     fe_TargetMinorUnit := targetMinorUnit; fe_TargetAmount := targetAmount;
     fe_PairID := pairID; fe_DirectionID := directionID; fe_RateVersionID := rateVersionID;
     fe_ClientRate := clientRate; fe_RateConvention := rateConvention;
     fe_PairPolicyVersion := pairPolicyVersion; fe_SpreadBasisPoints := spreadBasisPoints;
     fe_RoundingMode := roundingMode; fe_RoundingRemainder := roundingRemainder;
     fe_PostedAt := postedAt |}.
End events.
