(* ===== verification/Money.v ===== *)
(** * Exact money and rates: internal/platform/money/currency/money.go

    Minor-unit amounts as int64 with their overflow checks, rates as exact
    rationals (a *big.Rat is a rational in lowest terms), parsing, printing and
    the conversion behind FX quotes.  [Rat_SetString] is math/big's grammar for
    the texts [ParseRate] hands it. *)
From Stdlib Require Import Ascii String QArith Qreduction DecimalString.
From stdpp Require Import prelude gmap strings.
From S2P Require Import Prelude Decimal Errors Currency Events.
Open Scope Z_scope.

Record Money := MkMoney { m_Currency : string; m_Minor : Z }.
(** The rational, or nil. *)
Record Rate := MkRate { r_Value : option Q }.
Record Remainder := MkRemainder { rm_Numerator : string; rm_Denominator : string }.

(** The package's sentinels. *)
Definition MoneyErrCurrencyMismatch : error := Plain "currency mismatch".
Definition ErrOverflow : error := Plain "money overflow".
Definition ErrNonPositive : error := Plain "amount must be positive".
Definition ErrZeroTarget : error := Plain "converted target amount is zero".

Section money.
Context (reg : registry).

Definition NewMoney (code : string) (minor : Z) : error + Money :=
  match Normalize reg code with
  | inl err => inl err
  | inr canonical => inr (MkMoney canonical minor)
  end.

(** strconv.ParseInt(raw, 10, 64) of a text of digits. *)
Definition ParseInt_digits (raw : string) : option Z :=
  match NilZero.uint_of_string raw with
  | Some u => let z := Z.of_uint u in if z <=? max_int64 then Some z else None
  | None => None
  end.

Definition ParseMinor (code raw : string) : error + Money :=
  if bool_decide (raw = "") || String.prefix "-" raw || negb (bool_decide (TrimSpace raw = raw)) then
    inl (Wrap "amount must be an unsigned decimal string" ErrInvalidAmount)
  else if negb (all_digits raw) then
    inl (Wrap "amount must contain only digits" ErrInvalidAmount)
  else match ParseInt_digits raw with
       | None => inl (Wrap "value out of range" ErrInvalidAmount)
       | Some value => NewMoney code value
       end.

Definition Add (m other : Money) : error + Money :=
  if negb (bool_decide (m_Currency m = m_Currency other)) then inl MoneyErrCurrencyMismatch
  else if ((0 <? m_Minor other) && (max_int64 - m_Minor other <? m_Minor m))
       || ((m_Minor other <? 0) && (m_Minor m <? min_int64 - m_Minor other)) then inl ErrOverflow
  else inr (MkMoney (m_Currency m) (wrap_int64 (m_Minor m + m_Minor other))).

Definition Sub (m other : Money) : error + Money :=
  if negb (bool_decide (m_Currency m = m_Currency other)) then inl MoneyErrCurrencyMismatch
  else if ((0 <? m_Minor other) && (m_Minor m <? min_int64 + m_Minor other))
       || ((m_Minor other <? 0) && (max_int64 + m_Minor other <? m_Minor m)) then inl ErrOverflow
  else inr (MkMoney (m_Currency m) (wrap_int64 (m_Minor m - m_Minor other))).

(** ** math/big: scanning numbers *)

(** The value of a character as a digit; 36 when it is none. *)
Definition digit_value (c : ascii) : Z :=
  let n := Z.of_N (N_of_ascii c) in
  if (48 <=? n) && (n <=? 57) then n - 48
  else if (97 <=? n) && (n <=? 122) then n - 87
  else if (65 <=? n) && (n <=? 90) then n - 55
  else 36.

(** The character before: a digit, an underscore, anything else. *)
Inductive prev_char := PDigit | PSep | POther.
Definition is_sep (p : prev_char) : bool := match p with PSep => true | _ => false end.
Definition is_dig (p : prev_char) : bool := match p with PDigit => true | _ => false end.

Record scanned := MkScanned {
  sc_value : Z;
  sc_count : Z;              (* digits *)
  sc_point : option Z;       (* digits before the radix point *)
  sc_invalid : bool;         (* a misplaced underscore *)
  sc_rest : string;
}.

(** The loop of nat.scan with base 0 and fracOk. *)
Fixpoint scan_digits (b : Z) (fracOk : bool) (s : string) (acc count : Z) (dp : option Z)
    (prev : prev_char) (invalid : bool) : scanned :=
  match s with
  | EmptyString => MkScanned acc count dp (invalid || is_sep prev) EmptyString
  | String c s' =>
      if bool_decide (c = "."%char) && fracOk then
        scan_digits b false s' acc count (Some count) POther (invalid || is_sep prev)
      else if bool_decide (c = "_"%char) then
        scan_digits b fracOk s' acc count dp PSep (invalid || negb (is_dig prev))
      else if digit_value c <? b then
        scan_digits b fracOk s' (acc * b + digit_value c) (count + 1) dp PDigit invalid
      else MkScanned acc count dp (invalid || is_sep prev) s
  end.

(** nat.scan: the mantissa with its optional base prefix.  Value, base, digits
    after the point, rest. *)
Definition prefix_base (c : ascii) : option Z :=
  if bool_decide (c = "b"%char) || bool_decide (c = "B"%char) then Some 2
  else if bool_decide (c = "o"%char) || bool_decide (c = "O"%char) then Some 8
  else if bool_decide (c = "x"%char) || bool_decide (c = "X"%char) then Some 16
  else None.

Definition nat_scan (s : string) : option (Z * Z * Z * string) :=
  let '(b, r) :=
    match s with
    | String c s' =>
        if bool_decide (c = "0"%char) then
          match s' with
          | String x s'' =>
              match prefix_base x with
              | Some b => (b, scan_digits b true s'' 0 0 None PDigit false)
              | None => (10, scan_digits 10 true s' 0 1 None PDigit false)
              end
          | EmptyString => (10, scan_digits 10 true s' 0 1 None PDigit false)
          end
        else (10, scan_digits 10 true s 0 0 None POther false)
    | EmptyString => (10, scan_digits 10 true s 0 0 None POther false)
    end in
  if (sc_count r =? 0) || sc_invalid r then None
  else Some (sc_value r, b, match sc_point r with Some dp => sc_count r - dp | None => 0 end,
             sc_rest r).

(** scanExponent: value and base of an optional exponent; the text must end
    there.  Signs and digits, with underscores between digits. *)
Fixpoint exponent_digits (s : string) (acc : Z) (prev : prev_char) : option Z :=
  match s with
  | EmptyString => if is_dig prev then Some acc else None
  | String c s' =>
      if is_digit c then exponent_digits s' (acc * 10 + digit_value c) PDigit
      else if bool_decide (c = "_"%char) && is_dig prev then exponent_digits s' acc PSep
      else None
  end.
Definition exponent_value (s : string) : option Z :=
  let v := match s with
           | String "+"%char s' => exponent_digits s' 0 POther
           | String "-"%char s' => Z.opp <$> exponent_digits s' 0 POther
           | _ => exponent_digits s 0 POther
           end in
  match v with Some z => if in_int64 z then Some z else None | None => None end.
Definition scan_exponent (s : string) : option (Z * Z) :=
  match s with
  | EmptyString => Some (0, 10)
  | String c s' =>
      if bool_decide (c = "e"%char) || bool_decide (c = "E"%char) then
        (fun z => (z, 10)) <$> exponent_value s'
      else if bool_decide (c = "p"%char) || bool_decide (c = "P"%char) then
        (fun z => (z, 2)) <$> exponent_value s'
      else None
  end.

(** mantissa * 2^exp2 * 5^exp5 in lowest terms *)
Definition scale_rat (mant exp2 exp5 : Z) : Q :=
  Qred (Qmake (mant * 2 ^ Z.max 0 exp2 * 5 ^ Z.max 0 exp5)
              (Z.to_pos (2 ^ Z.max 0 (- exp2) * 5 ^ Z.max 0 (- exp5)))).

(** Rat.SetString on a text without a fraction bar. *)
Definition Rat_SetString (s : string) : option Q :=
  let '(neg, digits) := match s with
                        | String "-"%char s' => (true, s')
                        | String "+"%char s' => (false, s')
                        | _ => (false, s)
                        end in
  match nat_scan digits with
  | None => None
  | Some (mant, base, fcount, rest) =>
      match scan_exponent rest with
      | None => None
      | Some (exp, ebase) =>
          if mant =? 0 then Some 0%Q
          else
            let exp5 := (if base =? 10 then - fcount else 0) + (if ebase =? 10 then exp else 0) in
            let exp2 := (if (base =? 10) || (base =? 2) then - fcount
                         else if base =? 8 then - fcount * 3 else - fcount * 4) + exp in
            if (1000000 <? Z.abs exp5) || (10000000 <? Z.abs exp2) then None
            else Some (scale_rat (if neg : bool then - mant else mant) exp2 exp5)
      end
  end.

(** new(big.Int).SetString(s, 10) *)
Definition Int_SetString (s : string) : option Z :=
  let digits d := match d with EmptyString => None
                  | _ => if all_digits d then Z.of_uint <$> NilZero.uint_of_string d else None end in
  match s with
  | String "-"%char s' => Z.opp <$> digits s'
  | String "+"%char s' => digits s'
  | _ => digits s
  end.

(** ** Rates *)
Fixpoint contains_any (chars s : string) : bool :=
  match s with
  | EmptyString => false
  | String c s' => match String.index 0 (String c EmptyString) chars with
                   | Some _ => true | None => contains_any chars s' end
  end.
Fixpoint count_char (x : ascii) (s : string) : Z :=
  match s with
  | EmptyString => 0
  | String c s' => (if bool_decide (c = x) then 1 else 0) + count_char x s'
  end.
(** The text before and after the first occurrence. *)
Fixpoint split_at (x : ascii) (s : string) : string * string :=
  match s with
  | EmptyString => (EmptyString, EmptyString)
  | String c s' => if bool_decide (c = x) then (EmptyString, s')
                   else let '(a, b) := split_at x s' in (String c a, b)
  end.

Definition invalid_rate (msg : string) : error := Wrap msg ErrInvalidAmount.

Definition ParseRate (raw : string) : error + Rate :=
  if negb (bool_decide (TrimSpace raw = raw)) || bool_decide (raw = "") then
    inl (invalid_rate "rate must be an exact decimal string")
  else if contains_any "eE+" raw then
    inl (invalid_rate "exponent and signed rate notation are not accepted")
  else
    let rat : error + Q :=
      if count_char "/" raw =? 1 then
        let '(a, b) := split_at "/" raw in
        match Int_SetString a with
        | None => inl (invalid_rate "invalid rate numerator")
        | Some numerator =>
            match Int_SetString b with
            | None => inl (invalid_rate "invalid rate denominator")
            | Some denominator =>
                if denominator <=? 0 then inl (invalid_rate "invalid rate denominator")
                else inr (Qred (Qmake numerator (Z.to_pos denominator)))
            end
        end
      else if count_char "/" raw =? 0 then
        match Rat_SetString raw with
        | Some q => inr q | None => inl (invalid_rate "invalid rate") end
      else (* Rat.SetString leaves the second bar unread *) inl (invalid_rate "invalid rate") in
    match rat with
    | inl err => inl err
    | inr q => if Qnum q <=? 0 then inl (Wrap "rate must be positive" ErrNonPositive)
               else inr (MkRate (Some q))
    end.

(** [for d mod p = 0 { d /= p; count++ }] *)
Fixpoint strip_factor (fuel : nat) (p d count : Z) : Z * Z :=
  match fuel with
  | O => (d, count)
  | S fuel' => if d mod p =? 0 then strip_factor fuel' p (d / p) (count + 1) else (d, count)
  end.
(** Each division at least halves the number. *)
Definition strip (p d : Z) : Z * Z := strip_factor (S (Z.to_nat (Z.log2 d))) p d 0.

(** [for len(digits) <= scale { digits = "0" + digits }] *)
Fixpoint zeros (n : nat) : string := match n with O => "" | S n' => String "0" (zeros n') end.
Definition pad_digits (digits : string) (scale : Z) : string :=
  zeros (S (Z.to_nat scale) - String.length digits) +:+ digits.

Definition DecimalString (r : Rate) (maxScale : Z) : error + string :=
  match r_Value r with
  | None => inl (invalid_rate "rate is not a positive rational")
  | Some v =>
      if (Qnum v <=? 0) || (maxScale <? 0) then
        inl (invalid_rate "rate is not a positive rational")
      else
        let q := Qred v in
        let '(d2, twoCount) := strip 2 (Zpos (Qden q)) in
        let '(d5, fiveCount) := strip 5 d2 in
        if negb (d5 =? 1) then inl (invalid_rate "rate denominator is non-terminating in base 10")
        else
          let scale := Z.max fiveCount twoCount in
          if maxScale <? scale then inl (invalid_rate "rate scale exceeds decimal places")
          else
            let numerator := Qnum q * (if twoCount <? scale then 2 ^ (scale - twoCount) else 1)
                             * (if fiveCount <? scale then 5 ^ (scale - fiveCount) else 1) in
            let digits := Z_text numerator in
            if scale =? 0 then inr digits
            else
              let digits := pad_digits digits scale in
              let point := (String.length digits - Z.to_nat scale)%nat in
              inr (String.substring 0 point digits +:+ "."
                   +:+ String.substring point (Z.to_nat scale) digits)
  end.

Definition fraction_text (v : Q) : string :=
  Z_text (Qnum (Qred v)) +:+ "/" +:+ Z_text (Zpos (Qden (Qred v))).

Definition Rate_String (r : Rate) : string :=
  match r_Value r with
  | None => ""
  | Some v => match DecimalString r 18 with inr exact => exact | inl _ => fraction_text v end
  end.

Definition ExactString (r : Rate) : error + string :=
  match r_Value r with
  | None => inl (invalid_rate "rate is not a positive rational")
  | Some v => if Qnum v <=? 0 then inl (invalid_rate "rate is not a positive rational")
              else match DecimalString r 18 with
                   | inr exact => inr exact | inl _ => inr (fraction_text v) end
  end.

(** ** Conversion *)
Definition wrap_int16 (z : Z) : Z := (z + 32768) mod 65536 - 32768.
(** [new(big.Int).Exp(10, exp, nil)] is 1 for an exponent that is not positive. *)
Definition pow10 (exp : Z) : Z := if exp <=? 0 then 1 else 10 ^ exp.

Definition convertWithMinorUnits (source : Money) (targetCode : string) (sourceExp targetExp : Z)
    (rate : Rate) (spreadBasisPoints : Z) : error + (Money * Remainder) :=
  if m_Minor source <=? 0 then inl ErrNonPositive
  else
    match r_Value rate with
    | None => inl (invalid_rate "invalid conversion rate or spread")
    | Some v =>
        if (Qnum v <=? 0) || (spreadBasisPoints <? 0) || (10000 <=? spreadBasisPoints) then
          inl (invalid_rate "invalid conversion rate or spread")
        else
          let spread := Qred (Qmake (10000 - spreadBasisPoints) 10000) in
          let clientRate := Qred (v * spread) in
          let numerator := m_Minor source * Qnum clientRate in
          let denominator := Zpos (Qden clientRate) in
          let numerator := if sourceExp <? targetExp
                           then numerator * pow10 (wrap_int16 (targetExp - sourceExp))
                           else numerator in
          let denominator := if targetExp <? sourceExp
                             then denominator * pow10 (wrap_int16 (sourceExp - targetExp))
                             else denominator in
          let quotient := Z.quot numerator denominator in
          let remainder := Z.rem numerator denominator in
          if quotient <=? 0 then inl ErrZeroTarget
          else if negb (in_int64 quotient) then inl ErrOverflow
          else inr (MkMoney targetCode quotient,
                    MkRemainder (Z_text remainder) (Z_text denominator))
    end.

Definition Convert (source : Money) (targetCode : string) (rate : Rate) (spreadBasisPoints : Z)
    : error + (Money * Remainder) :=
  match Normalize reg (m_Currency source) with
  | inl err => inl err
  | inr sourceCode =>
      match Normalize reg targetCode with
      | inl err => inl err
      | inr target =>
          if bool_decide (sourceCode = target) then inl MoneyErrCurrencyMismatch
          else convertWithMinorUnits source target (MinorUnit reg sourceCode).1
                 (MinorUnit reg target).1 rate spreadBasisPoints
      end
  end.

Definition ConvertWithMinorUnits (source : Money) (targetCode : string)
    (sourceMinorUnit targetMinorUnit : Z) (rate : Rate) (spreadBasisPoints : Z)
    : error + (Money * Remainder) :=
  match ValidateCode (m_Currency source), ValidateCode targetCode with
  | Some err, _ | _, Some err => inl err
  | None, None =>
      if bool_decide (m_Currency source = targetCode) then inl MoneyErrCurrencyMismatch
      else if (sourceMinorUnit <? 0) || (targetMinorUnit <? 0) then
        inl (invalid_rate "minor-unit exponent cannot be negative")
      else convertWithMinorUnits source targetCode sourceMinorUnit targetMinorUnit rate
             spreadBasisPoints
  end.
End money.
