(* ===== verification/MoneyFacts.v ===== *)
(** * Money, rates and conversion: what they compute

    The overflow checks are exact, the printed rate parses back to the same
    rational, and a conversion is the exact value rounded toward zero with the
    discarded fraction returned. *)
From Stdlib Require Import Ascii String QArith Qreduction Qround DecimalString.
From stdpp Require Import prelude gmap strings.
From S2P Require Import Prelude Decimal Errors Currency Events Money.
Open Scope Z_scope.

(** ** Texts of digits *)
Fixpoint forall_chars (P : ascii -> bool) (s : string) : bool :=
  match s with EmptyString => true | String c s' => P c && forall_chars P s' end.

Lemma forall_chars_app P a b : forall_chars P (a +:+ b) = forall_chars P a && forall_chars P b.
Proof. induction a as [|c a IH]; [done|]. simpl. by rewrite IH, andb_assoc. Qed.
Lemma forall_chars_mono (P Q : ascii -> bool) s :
  (forall c, P c = true -> Q c = true) -> forall_chars P s = true -> forall_chars Q s = true.
Proof.
  intros H. induction s as [|c s IH]; [done|]. cbn. rewrite !andb_true_iff. intros [? ?]. auto.
Qed.
Lemma all_digits_chars s : all_digits s = forall_chars is_digit s.
Proof. induction s as [|c s IH]; [done|]. cbn. by rewrite IH. Qed.

Lemma append_empty_r s : s +:+ EmptyString = s.
Proof.
  induction s as [|c s IH]; [done|]. change (String c (s +:+ EmptyString) = String c s). by rewrite IH.
Qed.

(** The value of a text of digits after the digits of [acc]. *)
Fixpoint dval (acc : Z) (s : string) : Z :=
  match s with EmptyString => acc | String c s' => dval (acc * 10 + digit_value c) s' end.
Lemma dval_app acc a b : dval acc (a +:+ b) = dval (dval acc a) b.
Proof. revert acc. induction a as [|c a IH]; intros acc; [done|]. apply IH. Qed.

(** Evaluate the digit of a literal character. *)
Ltac eval_digit :=
  repeat match goal with
  | |- context [digit_value ?c] => let v := eval vm_compute in (digit_value c) in change (digit_value c) with v
  end.

Lemma dval_of_uint_acc u acc :
  dval (Zpos acc) (NilEmpty.string_of_uint u) = Zpos (Pos.of_uint_acc u acc).
Proof.
  revert acc. induction u as [|u IH|u IH|u IH|u IH|u IH|u IH|u IH|u IH|u IH|u IH]; intros acc;
    [done|..]; cbn [NilEmpty.string_of_uint dval Pos.of_uint_acc]; rewrite <- IH; f_equal;
    eval_digit; lia.
Qed.
Lemma dval_of_uint u : dval 0 (NilEmpty.string_of_uint u) = Z.of_uint u.
Proof.
  induction u as [|u IH|u IH|u IH|u IH|u IH|u IH|u IH|u IH|u IH|u IH]; [done|exact IH|..];
    cbn [NilEmpty.string_of_uint dval]; eval_digit; apply dval_of_uint_acc.
Qed.

(** The text of a natural number, as the digits of a [uint]. *)
Lemma Z_text_uint z : 0 <= z ->
  exists u, Z_text z = NilEmpty.string_of_uint u /\ Z_text z = NilZero.string_of_uint u
            /\ Z.of_uint u = z /\ u <> Decimal.Nil.
Proof.
  intros Hz. unfold Z_text. pose proof (DecimalZ.of_to z) as Hof.
  destruct (Z_to_int_not_nil z) as [Hp Hn].
  destruct (Z.to_int z) as [u|u] eqn:E.
  - exists u. simpl in *. assert (u <> Decimal.Nil) by congruence. by destruct u.
  - exfalso. destruct z; simpl in E; [done| |lia]. unfold Z.to_int in E. by destruct (Pos.to_uint p).
Qed.

Lemma digits_of_uint u : forall_chars is_digit (NilEmpty.string_of_uint u) = true.
Proof. induction u; cbn; done. Qed.

Lemma Z_text_digits z : 0 <= z -> forall_chars is_digit (Z_text z) = true.
Proof. intros (u & -> & _)%Z_text_uint. apply digits_of_uint. Qed.
Lemma Z_text_dval z : 0 <= z -> dval 0 (Z_text z) = z.
Proof. intros (u & -> & _ & Hu & _)%Z_text_uint. by rewrite dval_of_uint. Qed.
Lemma Z_text_nonempty z : 0 <= z -> Z_text z <> EmptyString.
Proof. intros (u & -> & _ & _ & Hu)%Z_text_uint. by destruct u. Qed.
Lemma Int_SetString_Z z : 0 <= z -> Int_SetString (Z_text z) = Some z.
Proof.
  intros Hz. pose proof (Z_text_digits z Hz) as Hd. rewrite <- all_digits_chars in Hd.
  pose proof (Z_text_nonempty z Hz) as Hne.
  destruct (Z_text_uint z Hz) as (u & _ & Eu & Hv & Hu).
  assert (Hparse : NilZero.uint_of_string (Z_text z) = Some u) by (rewrite Eu; by apply NilZero.usu).
  unfold Int_SetString. destruct (Z_text z) as [|c s] eqn:E; [done|].
  assert (Hc : is_digit c = true) by (cbn in Hd; by apply andb_true_iff in Hd as [? _]).
  destruct c as [[] [] [] [] [] [] [] []]; try discriminate Hc; rewrite Hd, Hparse; cbn; by rewrite Hv.
Qed.

(** ** Stripping the factors of the denominator *)
Lemma strip_factor_spec fuel p d c :
  1 < p -> 0 < d -> d < 2 ^ Z.of_nat fuel ->
  let '(d', k) := strip_factor fuel p d c in
  c <= k /\ d = d' * p ^ (k - c) /\ 0 < d' /\ d' mod p <> 0.
Proof.
  intros Hp. revert d c. induction fuel as [|fuel IH]; intros d c Hd Hf; [simpl in Hf; lia|].
  cbn [strip_factor]. destruct (d mod p =? 0) eqn:E.
  - apply Z.eqb_eq in E. pose proof (Z.div_mod d p ltac:(lia)) as Hdm.
    rewrite E, Z.add_0_r in Hdm. assert (Hq : 0 < d / p) by nia.
    assert (d / p < 2 ^ Z.of_nat fuel).
    { rewrite Nat2Z.inj_succ, Z.pow_succ_r in Hf by lia. nia. }
    specialize (IH (d / p) (c + 1) Hq H). destruct (strip_factor fuel p (d / p) (c + 1)) as [d' k].
    destruct IH as (Hk & Heq & Hpos & Hm). split_and!; [lia| |done|done].
    replace (k - c) with (Z.succ (k - (c + 1))) by lia. rewrite Z.pow_succ_r by lia. nia.
  - apply Z.eqb_neq in E. rewrite Z.sub_diag. split_and!; [lia|simpl; lia|done|done].
Qed.

Lemma strip_spec p d :
  1 < p -> 0 < d ->
  let '(d', k) := strip p d in 0 <= k /\ d = d' * p ^ k /\ 0 < d' /\ d' mod p <> 0.
Proof.
  intros Hp Hd. unfold strip.
  pose proof (strip_factor_spec (S (Z.to_nat (Z.log2 d))) p d 0 Hp Hd) as H.
  destruct (strip_factor _ p d 0) as [d' k]. rewrite Z.sub_0_r in H. apply H.
  rewrite Nat2Z.inj_succ, Z2Nat.id by apply Z.log2_nonneg. apply Z.log2_spec. done.
Qed.

(** The value of a decimal text: the digits, over a power of ten. *)
Lemma decimal_value (q : Q) two five :
  0 <= two -> 0 <= five -> Zpos (Qden q) = 2 ^ two * 5 ^ five ->
  let scale := Z.max five two in
  let numerator := Qnum q * (if two <? scale then 2 ^ (scale - two) else 1)
                   * (if five <? scale then 5 ^ (scale - five) else 1) in
  numerator * Zpos (Qden q) = Qnum q * 10 ^ scale.
Proof.
  intros H2 H5 Hden. cbv zeta. set (scale := Z.max five two). rewrite Hden.
  assert (E2 : (if two <? scale then 2 ^ (scale - two) else 1) = 2 ^ (scale - two)).
  { destruct (two <? scale) eqn:E; [done|]. apply Z.ltb_ge in E.
    replace (scale - two) with 0 by lia. done. }
  assert (E5 : (if five <? scale then 5 ^ (scale - five) else 1) = 5 ^ (scale - five)).
  { destruct (five <? scale) eqn:E; [done|]. apply Z.ltb_ge in E.
    replace (scale - five) with 0 by lia. done. }
  rewrite E2, E5. change 10 with (2 * 5). rewrite Z.pow_mul_l.
  replace (2 ^ scale) with (2 ^ (scale - two) * 2 ^ two) by (rewrite <- Z.pow_add_r by lia; f_equal; lia).
  replace (5 ^ scale) with (5 ^ (scale - five) * 5 ^ five) by (rewrite <- Z.pow_add_r by lia; f_equal; lia).
  ring.
Qed.

(** *** Padding and splitting *)
Lemma length_append a b : String.length (a +:+ b) = (String.length a + String.length b)%nat.
Proof. induction a as [|c a IH]; [done|]. simpl. by rewrite IH. Qed.
Lemma zeros_facts n : String.length (zeros n) = n /\ forall_chars is_digit (zeros n) = true
  /\ forall s, dval 0 (zeros n +:+ s) = dval 0 s.
Proof. induction n as [|n (H1 & H2 & H3)]; [done|]. cbn. split_and!; [by f_equal|done|done]. Qed.

Lemma substring_all (s : string) : String.substring 0 (String.length s) s = s.
Proof. induction s as [|c s IH]; [done|]. cbn. by rewrite IH. Qed.

Lemma substring_split (s : string) (p k : nat) :
  String.length s = (p + k)%nat ->
  String.substring 0 p s +:+ String.substring p k s = s /\
  String.length (String.substring 0 p s) = p /\ String.length (String.substring p k s) = k.
Proof.
  revert s. induction p as [|p IH]; intros s Hlen.
  - simpl in Hlen. subst k. rewrite substring_all. by destruct s.
  - destruct s as [|c s]; [done|]. simpl in Hlen. destruct (IH s) as (E & E1 & E2); [lia|].
    split_and!.
    + change (String c (String.substring 0 p s +:+ String.substring p k s) = String c s). by rewrite E.
    + change (S (String.length (String.substring 0 p s)) = S p). by rewrite E1.
    + exact E2.
Qed.

(** ** Scanning the printed text *)
Definition decimal_char (c : ascii) : bool :=
  is_digit c || bool_decide (c = "."%char) || bool_decide (c = "/"%char).

Lemma decimal_char_plain c : decimal_char c = true ->
  is_space c = false /\ String.index 0 (String c EmptyString) "eE+" = None.
Proof. destruct c as [[] [] [] [] [] [] [] []]; vm_compute; (discriminate || by split). Qed.
Lemma digit_decimal c : is_digit c = true -> decimal_char c = true.
Proof. unfold decimal_char. by intros ->. Qed.
Lemma digit_facts c : is_digit c = true ->
  bool_decide (c = "."%char) = false /\ bool_decide (c = "_"%char) = false /\
  (digit_value c <? 10) = true /\ prefix_base c = None /\ bool_decide (c = "/"%char) = false /\
  c <> "-"%char /\ c <> "+"%char.
Proof.
  destruct c as [[] [] [] [] [] [] [] []]; vm_compute; intros H; try discriminate H;
    repeat split; discriminate.
Qed.

Lemma plain_trimmed s : forall_chars decimal_char s = true -> TrimSpace s = s.
Proof.
  intros H. unfold TrimSpace.
  assert (Hl : trim_left s = s).
  { destruct s as [|c s]; [done|]. cbn in *. apply andb_true_iff in H as [Hc _].
    by destruct (decimal_char_plain c Hc) as [-> _]. }
  rewrite Hl. clear Hl. induction s as [|c s IH]; [done|]. cbn in H.
  apply andb_true_iff in H as [Hc H]. cbn [trim_right all_space].
  destruct (decimal_char_plain c Hc) as [-> _]. cbn. by rewrite IH.
Qed.
Lemma plain_contains s : forall_chars decimal_char s = true -> contains_any "eE+" s = false.
Proof.
  induction s as [|c s IH]; [done|]. cbn [forall_chars contains_any]. intros [Hc H]%andb_true_iff.
  destruct (decimal_char_plain c Hc) as [_ ->]. auto.
Qed.

Lemma scan_digits_run ds : forall fo rest acc cnt dp prev inv,
  forall_chars is_digit ds = true -> ds <> EmptyString ->
  scan_digits 10 fo (ds +:+ rest) acc cnt dp prev inv
  = scan_digits 10 fo rest (dval acc ds) (cnt + Z.of_nat (String.length ds)) dp PDigit inv.
Proof.
  induction ds as [|c ds IH]; intros fo rest acc cnt dp prev inv Hd Hne; [done|].
  cbn [forall_chars] in Hd. apply andb_true_iff in Hd as [Hc Hd].
  destruct (digit_facts c Hc) as (E1 & E2 & E3 & _).
  change (String c ds +:+ rest) with (String c (ds +:+ rest)). cbn [scan_digits].
  rewrite E1, E2, E3. cbn [andb dval]. destruct ds as [|x ds].
  - cbn. f_equal; lia.
  - rewrite IH by done. f_equal. cbn [String.length]. lia.
Qed.

(** A prefix that is no base prefix changes nothing. *)
Lemma nat_scan_decimal ip rest :
  forall_chars is_digit ip = true -> ip <> EmptyString ->
  match rest with EmptyString => True | String c _ => c = "."%char end ->
  nat_scan (ip +:+ rest) =
  let r := scan_digits 10 true (ip +:+ rest) 0 0 None POther false in
  if (sc_count r =? 0) || sc_invalid r then None
  else Some (sc_value r, 10, match sc_point r with Some dp => sc_count r - dp | None => 0 end,
             sc_rest r).
Proof.
  intros Hd Hne Hrest. destruct ip as [|c ip]; [done|]. cbn [forall_chars] in Hd.
  apply andb_true_iff in Hd as [Hc Hd].
  change (String c ip +:+ rest) with (String c (ip +:+ rest)). unfold nat_scan.
  destruct (bool_decide (c = "0"%char)) eqn:E0; [|done]. apply bool_decide_eq_true in E0 as ->.
  assert (Hx : match ip +:+ rest with String x _ => prefix_base x = None | EmptyString => True end).
  { destruct ip as [|x ip]; cbn.
    - destruct rest as [|x rest]; [done|]. subst x. reflexivity.
    - cbn [forall_chars] in Hd. apply andb_true_iff in Hd as [Hxd _]. by apply digit_facts. }
  destruct (ip +:+ rest) as [|x s]; [done|]. rewrite Hx. done.
Qed.

Lemma nat_scan_integer ds :
  forall_chars is_digit ds = true -> ds <> EmptyString ->
  nat_scan ds = Some (dval 0 ds, 10, 0, EmptyString).
Proof.
  intros Hd Hne. pose proof (nat_scan_decimal ds EmptyString Hd Hne I) as H.
  rewrite scan_digits_run in H by done. cbn in H.
  pose proof (append_empty_r ds) as Happ.
  rewrite Happ in H. rewrite H. destruct ds; [done|]. done.
Qed.

Lemma nat_scan_point ip fp :
  forall_chars is_digit ip = true -> ip <> EmptyString ->
  forall_chars is_digit fp = true -> fp <> EmptyString ->
  nat_scan (ip +:+ String "."%char fp)
  = Some (dval 0 (ip +:+ fp), 10, Z.of_nat (String.length fp), EmptyString).
Proof.
  intros Hi Hine Hf Hfne. rewrite nat_scan_decimal by done. cbv zeta.
  rewrite scan_digits_run by done. cbn [scan_digits].
  rewrite bool_decide_true by done. cbn [andb is_sep orb].
  match goal with |- context [scan_digits 10 false fp ?a ?c ?d ?p ?i] =>
    pose proof (scan_digits_run fp false EmptyString a c d p i Hf Hfne) as E end.
  rewrite append_empty_r in E. rewrite E. cbn [scan_digits].
  cbn [sc_count sc_invalid sc_point sc_value sc_rest is_sep orb].
  rewrite dval_app. assert (0 < String.length fp)%nat by (destruct fp; [done|simpl; lia]).
  rewrite (proj2 (Z.eqb_neq _ _)) by lia. cbn [orb]. do 3 f_equal. lia.
Qed.

Lemma digits_no_bar s : forall_chars is_digit s = true -> count_char "/" s = 0.
Proof.
  induction s as [|c s IH]; [done|]. cbn [forall_chars count_char]. intros [Hc H]%andb_true_iff.
  destruct (digit_facts c Hc) as (_ & _ & _ & _ & E & _). rewrite E, IH by done. done.
Qed.
Lemma count_char_app x a b : count_char x (a +:+ b) = count_char x a + count_char x b.
Proof.
  induction a as [|c a IH]; [done|]. change (String c a +:+ b) with (String c (a +:+ b)).
  cbn [count_char]. rewrite IH. ring.
Qed.
Lemma split_at_digits a b : forall_chars is_digit a = true ->
  split_at "/" (a +:+ String "/"%char b) = (a, b).
Proof.
  induction a as [|c a IH]; [done|]. cbn [forall_chars]. intros [Hc H]%andb_true_iff.
  destruct (digit_facts c Hc) as (_ & _ & _ & _ & E & _).
  change (String c a +:+ String "/" b) with (String c (a +:+ String "/" b)). cbn [split_at].
  by rewrite E, IH.
Qed.

(** ** The round trip of rates *)
Definition first_digit (s : string) : bool :=
  match s with String c _ => is_digit c | EmptyString => false end.

Lemma scale_rat_down mant f : 0 <= f -> scale_rat mant (- f) (- f) = Qred (Qmake mant (Z.to_pos (10 ^ f))).
Proof.
  intros Hf. unfold scale_rat. rewrite Z.opp_involutive, (Z.max_l 0 (- f)), (Z.max_r 0 f) by lia.
  rewrite !Z.mul_1_r. rewrite <- Z.pow_mul_l. done.
Qed.

Lemma Rat_SetString_scan s mant f :
  first_digit s = true -> nat_scan s = Some (mant, 10, f, EmptyString) -> 0 < mant ->
  0 <= f <= 1000000 -> Rat_SetString s = Some (Qred (Qmake mant (Z.to_pos (10 ^ f)))).
Proof.
  intros Hc Hs Hm Hf. rewrite <- scale_rat_down by lia. unfold Rat_SetString.
  destruct s as [|c s]; [done|]. cbn [first_digit] in Hc.
  assert (E : (match String c s with
     | String "-"%char s' => (true, s') | String "+"%char s' => (false, s')
     | _ => (false, String c s) end) = (false, String c s)).
  { by destruct c as [[] [] [] [] [] [] [] []]. }
  rewrite E, Hs. cbn [scan_exponent]. rewrite (proj2 (Z.eqb_neq _ _)) by lia. cbn [Z.eqb Pos.eqb orb].
  rewrite !Z.add_0_r. rewrite !(proj2 (Z.ltb_ge _ _)) by lia. done.
Qed.

Lemma ParseRate_decimal s q :
  forall_chars decimal_char s = true -> s <> EmptyString -> count_char "/" s = 0 ->
  Rat_SetString s = Some q -> 0 < Qnum q -> ParseRate s = inr (MkRate (Some q)).
Proof.
  intros Hp Hne Hb Hs Hq. unfold ParseRate.
  rewrite plain_trimmed, bool_decide_true, bool_decide_false, plain_contains, Hb by done.
  cbn [negb orb Z.eqb]. rewrite Hs. by rewrite (proj2 (Z.leb_gt _ _)).
Qed.

Lemma Qred_positive n d : 0 < n -> 0 < Qnum (Qred (Qmake n d)).
Proof.
  intros Hn. assert (H : (0 < Qred (Qmake n d))%Q) by (rewrite Qred_correct; unfold Qlt; simpl; lia).
  unfold Qlt in H. simpl in H. lia.
Qed.

(** A text that scans to [mant] with [f] decimals parses to mant / 10^f. *)
Lemma ParseRate_scanned s mant f :
  forall_chars decimal_char s = true -> first_digit s = true -> count_char "/" s = 0 ->
  nat_scan s = Some (mant, 10, f, EmptyString) -> 0 < mant -> 0 <= f <= 1000000 ->
  ParseRate s = inr (MkRate (Some (Qred (Qmake mant (Z.to_pos (10 ^ f)))))).
Proof.
  intros Hp Hd Hb Hs Hm Hf. apply ParseRate_decimal; [done|by destruct s|done| |by apply Qred_positive].
  by apply Rat_SetString_scan.
Qed.

Lemma first_digit_of s : forall_chars is_digit s = true -> s <> EmptyString -> first_digit s = true.
Proof. destruct s; [done|]. cbn. by intros [? _]%andb_true_iff. Qed.

(** The decimal texts the printer produces. *)
Lemma ParseRate_integer n : 0 < n -> ParseRate (Z_text n) = inr (MkRate (Some (Qred (Qmake n 1)))).
Proof.
  intros Hn. pose proof (Z_text_digits n ltac:(lia)) as Hd.
  pose proof (Z_text_nonempty n ltac:(lia)) as Hne.
  apply (ParseRate_scanned _ n 0); try done.
  - eapply forall_chars_mono; [apply digit_decimal|exact Hd].
  - by apply first_digit_of.
  - by apply digits_no_bar.
  - by rewrite nat_scan_integer, Z_text_dval by (done || lia).
Qed.

Lemma ParseRate_point n scale :
  0 < n -> 0 < scale <= 1000000 ->
  let digits := pad_digits (Z_text n) scale in
  let point := (String.length digits - Z.to_nat scale)%nat in
  ParseRate (String.substring 0 point digits +:+ "."
             +:+ String.substring point (Z.to_nat scale) digits)
  = inr (MkRate (Some (Qred (Qmake n (Z.to_pos (10 ^ scale)))))).
Proof.
  intros Hn Hs digits point.
  destruct (zeros_facts (S (Z.to_nat scale) - String.length (Z_text n))) as (Hzl & Hzd & Hzv).
  assert (Hd : forall_chars is_digit digits = true).
  { unfold digits, pad_digits. rewrite forall_chars_app, Hzd. apply Z_text_digits. lia. }
  assert (Hlen : (Z.to_nat scale < String.length digits)%nat).
  { unfold digits, pad_digits. rewrite length_append, Hzl. lia. }
  destruct (substring_split digits point (Z.to_nat scale)) as (E & L1 & L2); [unfold point; lia|].
  set (ip := String.substring 0 point digits) in *.
  set (fp := String.substring point (Z.to_nat scale) digits) in *.
  assert (Hip : forall_chars is_digit ip = true /\ forall_chars is_digit fp = true).
  { apply andb_true_iff. by rewrite <- forall_chars_app, E. }
  destruct Hip as [Hip Hfp].
  assert (Hine : ip <> EmptyString) by (intros H; rewrite H in L1; simpl in L1; unfold point in L1; lia).
  assert (Hfne : fp <> EmptyString) by (intros H; rewrite H in L2; simpl in L2; lia).
  change ("." +:+ fp) with (String "."%char fp).
  apply (ParseRate_scanned _ n scale); try done.
  - rewrite forall_chars_app. cbn [forall_chars].
    rewrite !(forall_chars_mono _ _ _ digit_decimal) by done. done.
  - destruct ip as [|c ip']; [done|]. cbn in Hip |- *. by apply andb_true_iff in Hip as [? _].
  - rewrite count_char_app. cbn [count_char]. by rewrite !digits_no_bar.
  - rewrite nat_scan_point, E, L2, Z2Nat.id by (done || lia). do 4 f_equal.
    unfold digits, pad_digits. by rewrite Hzv, Z_text_dval by lia.
  - lia.
Qed.

Lemma ParseRate_fraction n d :
  0 < n -> ParseRate (Z_text n +:+ "/" +:+ Z_text (Zpos d)) = inr (MkRate (Some (Qred (Qmake n d)))).
Proof.
  intros Hn. change ("/" +:+ ?x) with (String "/"%char x).
  pose proof (Z_text_digits n ltac:(lia)) as Hnd. pose proof (Z_text_digits (Zpos d) ltac:(lia)) as Hdd.
  pose proof (Z_text_nonempty n ltac:(lia)) as Hne.
  assert (Hp : forall_chars decimal_char (Z_text n +:+ String "/"%char (Z_text (Zpos d))) = true).
  { rewrite forall_chars_app. cbn [forall_chars].
    rewrite !(forall_chars_mono _ _ _ digit_decimal) by done. done. }
  unfold ParseRate. rewrite plain_trimmed, bool_decide_true by done.
  rewrite bool_decide_false by (destruct (Z_text n); [done|discriminate]).
  rewrite plain_contains, count_char_app by done. cbn [count_char].
  rewrite !digits_no_bar, bool_decide_true by done. cbn [negb orb Z.add Z.eqb Pos.eqb].
  rewrite split_at_digits, !Int_SetString_Z by (done || lia).
  rewrite (proj2 (Z.leb_gt (Zpos d) 0)) by lia. pose proof (Qred_positive n d Hn).
  cbn [Z.to_pos]. set (r := Qred _) in *. change (0 + (1 + 0) =? 1) with true. cbv beta iota.
  by rewrite (proj2 (Z.leb_gt (Qnum r) 0)).
Qed.

(** What [ExactString] prints, [ParseRate] reads back. *)
Lemma DecimalString_parses v text :
  DecimalString (MkRate (Some v)) 18 = inr text -> ParseRate text = inr (MkRate (Some (Qred v))).
Proof.
  unfold DecimalString. cbn [r_Value]. destruct ((Qnum v <=? 0) || (18 <? 0)) eqn:E0; [done|].
  apply orb_false_iff in E0 as [Hv%Z.leb_gt _]. set (q := Qred v).
  assert (Hq : 0 < Qnum q) by (unfold q; destruct v; by apply Qred_positive).
  pose proof (strip_spec 2 (Zpos (Qden q)) ltac:(lia) ltac:(lia)) as H2.
  destruct (strip 2 _) as [d2 two]. destruct H2 as (Htwo & Ed2 & Hd2 & _).
  pose proof (strip_spec 5 d2 ltac:(lia) Hd2) as H5.
  destruct (strip 5 d2) as [d5 five]. destruct H5 as (Hfive & Ed5 & Hd5 & _).
  destruct (d5 =? 1) eqn:E1; [|done]. apply Z.eqb_eq in E1 as ->. cbn [negb].
  destruct (18 <? Z.max five two) eqn:Es; [done|]. apply Z.ltb_ge in Es.
  assert (Hden : Zpos (Qden q) = 2 ^ two * 5 ^ five) by (rewrite Ed2, Ed5; ring).
  pose proof (decimal_value q two five Htwo Hfive Hden) as Hval. cbv zeta in Hval |- *.
  set (scale := Z.max five two) in *.
  set (n := Qnum q * _ * _) in *.
  assert (Hpow : 0 < 10 ^ scale) by (apply Z.pow_pos_nonneg; lia).
  assert (Hn : 0 < n) by nia.
  assert (Hqn : (Qmake n (Z.to_pos (10 ^ scale)) == v)%Q).
  { rewrite <- (Qred_correct v). fold q. unfold Qeq. simpl. by rewrite Z2Pos.id. }
  destruct (scale =? 0) eqn:E2; intros [= <-].
  - apply Z.eqb_eq in E2. rewrite ParseRate_integer by done. do 3 f_equal. apply Qred_complete.
    rewrite <- Hqn, E2. done.
  - apply Z.eqb_neq in E2. rewrite ParseRate_point by (unfold scale in *; lia).
    do 3 f_equal. by apply Qred_complete.
Qed.

Lemma ExactString_parses v :
  0 < Qnum v -> exists text, ExactString (MkRate (Some v)) = inr text /\
    ParseRate text = inr (MkRate (Some (Qred v))).
Proof.
  intros Hv. unfold ExactString. cbn [r_Value]. rewrite (proj2 (Z.leb_gt _ _) Hv).
  destruct (DecimalString (MkRate (Some v)) 18) as [e|text] eqn:E.
  - eexists. split; [done|]. unfold fraction_text.
    rewrite ParseRate_fraction by (destruct v; by apply Qred_positive).
    do 3 f_equal. apply Qred_complete. destruct (Qred v) eqn:Eq. simpl. rewrite <- Eq. apply Qred_correct.
  - exists text. split; [done|]. by apply DecimalString_parses.
Qed.

(** ** Conversion *)

(** The exact target value in minor units. *)
Definition exact_conversion (minor : Z) (v : Q) (spread sourceExp targetExp : Z) : Q :=
  (inject_Z minor * v * Qmake (10000 - spread) 10000
   * Qmake (10 ^ Z.max 0 (targetExp - sourceExp)) (Z.to_pos (10 ^ Z.max 0 (sourceExp - targetExp))))%Q.

Lemma scaling_up s t : 0 <= s <= 32767 -> 0 <= t <= 32767 ->
  (if s <? t then pow10 (wrap_int16 (t - s)) else 1) = 10 ^ Z.max 0 (t - s).
Proof.
  intros Hs Ht. destruct (s <? t) eqn:E; [apply Z.ltb_lt in E|apply Z.ltb_ge in E].
  - unfold pow10, wrap_int16. rewrite Z.mod_small by lia.
    replace (t - s + 32768 - 32768) with (t - s) by lia.
    rewrite (proj2 (Z.leb_gt _ _)) by lia. f_equal. lia.
  - replace (Z.max 0 (t - s)) with 0 by lia. done.
Qed.

Lemma convert_fraction (minor : Z) (c : Q) s t :
  0 <= s <= 32767 -> 0 <= t <= 32767 ->
  (if s <? t then minor * Qnum c * pow10 (wrap_int16 (t - s)) else minor * Qnum c)
    = minor * Qnum c * 10 ^ Z.max 0 (t - s) /\
  (if t <? s then Zpos (Qden c) * pow10 (wrap_int16 (s - t)) else Zpos (Qden c))
    = Zpos (Qden c) * 10 ^ Z.max 0 (s - t).
Proof.
  intros Hs Ht. rewrite <- (scaling_up s t), <- (scaling_up t s) by done.
  split; [destruct (s <? t)|destruct (t <? s)]; lia.
Qed.

Lemma fraction_floor N D :
  0 <= N -> 0 < D -> Z.quot N D = Qfloor (Qmake N (Z.to_pos D)) /\ 0 <= Z.rem N D < D /\
  (Qmake N (Z.to_pos D) == inject_Z (Qfloor (Qmake N (Z.to_pos D))) + Qmake (Z.rem N D) (Z.to_pos D))%Q.
Proof.
  intros HN HD. unfold Qfloor. rewrite Z2Pos.id by done.
  rewrite Z.quot_div_nonneg, Z.rem_mod_nonneg by lia.
  split; [done|]. split; [apply Z.mod_pos_bound; lia|].
  unfold Qeq, Qplus, inject_Z. simpl. rewrite Z2Pos.id by done.
  pose proof (Z.div_mod N D ltac:(lia)) as H. nia.
Qed.

Lemma convert_exact source target s t v spread :
  0 < m_Minor source -> 0 < Qnum v -> 0 <= spread < 10000 -> 0 <= s <= 32767 -> 0 <= t <= 32767 ->
  let x := exact_conversion (m_Minor source) v spread s t in
  exists n d, 0 <= n < d /\ (x == inject_Z (Qfloor x) + Qmake n (Z.to_pos d))%Q /\
    convertWithMinorUnits source target s t (MkRate (Some v)) spread
    = if Qfloor x <=? 0 then inl ErrZeroTarget
      else if max_int64 <? Qfloor x then inl ErrOverflow
      else inr (MkMoney target (Qfloor x), MkRemainder (Z_text n) (Z_text d)).
Proof.
  intros Hm Hv Hsp Hs Ht x. unfold convertWithMinorUnits. cbn [r_Value].
  rewrite !(proj2 (Z.leb_gt _ _)), (proj2 (Z.ltb_ge _ _)) by lia. cbn [orb]. cbv zeta.
  set (c := Qred (v * _)).
  destruct (convert_fraction (m_Minor source) c s t Hs Ht) as [-> ->].
  set (up := 10 ^ Z.max 0 (t - s)). set (down := 10 ^ Z.max 0 (s - t)).
  assert (Hup : 0 < up) by (apply Z.pow_pos_nonneg; lia).
  assert (Hdown : 0 < down) by (apply Z.pow_pos_nonneg; lia).
  assert (Hc : 0 < Qnum c).
  { assert (H : (0 < c)%Q).
    { unfold c. rewrite !Qred_correct. unfold Qlt, Qmult. simpl. nia. }
    unfold Qlt in H. simpl in H. lia. }
  set (N := m_Minor source * Qnum c * up). set (D := Zpos (Qden c) * down).
  assert (HN : 0 < N) by (unfold N; apply Z.mul_pos_pos; [by apply Z.mul_pos_pos|done]).
  assert (HD : 0 < D) by (unfold D; lia).
  assert (Ex : (x == Qmake N (Z.to_pos D))%Q).
  { transitivity (inject_Z (m_Minor source) * c * Qmake up (Z.to_pos down))%Q.
    - unfold x, exact_conversion, c. fold up down. rewrite !Qred_correct. ring.
    - unfold Qeq, Qmult, inject_Z. simpl. rewrite Pos2Z.inj_mul, !Z2Pos.id by done.
      unfold N, D. by rewrite Pos.mul_1_l. }
  destruct (fraction_floor N D) as (Hq & Hr & Hx); [lia|done|].
  assert (Ef : Qfloor x = Qfloor (Qmake N (Z.to_pos D))) by (by apply Qfloor_comp).
  exists (Z.rem N D), D. split; [done|]. rewrite Ef. split; [by rewrite Ex at 1|].
  rewrite Hq. set (q := Qfloor _). destruct (q <=? 0) eqn:E; [done|]. apply Z.leb_gt in E.
  unfold in_int64. rewrite (proj2 (Z.leb_le min_int64 q)) by (unfold min_int64; lia). cbn [andb].
  rewrite Z.leb_antisym. by destruct (max_int64 <? q).
Qed.

(** ** Sums and differences *)
Definition money_ok (m : Money) : Prop := in_int64 (m_Minor m) = true.

Lemma Add_spec m other : money_ok m -> money_ok other ->
  Add m other =
  if bool_decide (m_Currency m = m_Currency other) then
    if in_int64 (m_Minor m + m_Minor other)
    then inr (MkMoney (m_Currency m) (m_Minor m + m_Minor other)) else inl ErrOverflow
  else inl MoneyErrCurrencyMismatch.
Proof.
  unfold money_ok, Add. rewrite !in_int64_spec. intros Hm Ho.
  case_bool_decide; cbn [negb]; [|done]. destruct (in_int64 (m_Minor m + m_Minor other)) eqn:E.
  - rewrite (wrap_int64_id _ E). rewrite in_int64_spec in E.
    destruct (_ || _) eqn:Eo; [|done]. exfalso.
    apply orb_true_iff in Eo as [[H1 H2]%andb_true_iff|[H1 H2]%andb_true_iff]; lia.
  - apply in_int64_false in E. destruct (_ || _) eqn:Eo; [done|]. exfalso.
    apply orb_false_iff in Eo as [H1%andb_false_iff H2%andb_false_iff].
    rewrite !Z.ltb_ge in H1, H2. lia.
Qed.
Lemma Sub_spec m other : money_ok m -> money_ok other ->
  Sub m other =
  if bool_decide (m_Currency m = m_Currency other) then
    if in_int64 (m_Minor m - m_Minor other)
    then inr (MkMoney (m_Currency m) (m_Minor m - m_Minor other)) else inl ErrOverflow
  else inl MoneyErrCurrencyMismatch.
Proof.
  unfold money_ok, Sub. rewrite !in_int64_spec. intros Hm Ho.
  case_bool_decide; cbn [negb]; [|done]. destruct (in_int64 (m_Minor m - m_Minor other)) eqn:E.
  - rewrite (wrap_int64_id _ E). rewrite in_int64_spec in E.
    destruct (_ || _) eqn:Eo; [|done]. exfalso.
    apply orb_true_iff in Eo as [[H1 H2]%andb_true_iff|[H1 H2]%andb_true_iff]; lia.
  - apply in_int64_false in E. destruct (_ || _) eqn:Eo; [done|]. exfalso.
    apply orb_false_iff in Eo as [H1%andb_false_iff H2%andb_false_iff].
    rewrite !Z.ltb_ge in H1, H2. lia.
Qed.

(** ** Parsing gives positive rates in lowest terms *)
Lemma Qred_idem q : Qred (Qred q) = Qred q.
Proof. apply Qred_complete, Qred_correct. Qed.
Lemma Rat_SetString_reduced s q : Rat_SetString s = Some q -> Qred q = q.
Proof.
  unfold Rat_SetString. repeat case_match; intros [= <-]; try done; apply Qred_idem.
Qed.
Lemma ParseRate_reduced raw r :
  ParseRate raw = inr r -> exists v, r = MkRate (Some v) /\ 0 < Qnum v /\ Qred v = v.
Proof.
  unfold ParseRate. destruct (_ || _); [done|]. destruct (contains_any _ _); [done|].
  match goal with |- match ?x with _ => _ end = _ -> _ => destruct x as [e|q] eqn:E; [done|] end.
  destruct (Qnum q <=? 0) eqn:Eq; [done|]. apply Z.leb_gt in Eq. intros [= <-].
  exists q. split_and!; [done..|].
  repeat case_match; try discriminate; injection E as E; subst;
    first [apply Qred_idem | by eapply Rat_SetString_reduced].
Qed.

(** An FX conversion is exact.  For a positive amount of minor units, a
    positive rate and a spread in basis points, the target amount is the floor of
    the rational amount x rate x (1 - spread) scaled by the two currencies'
    minor-unit exponents, and the returned remainder is precisely the fraction cut
    off; a result of zero is refused, and so is one beyond int64. *)
Theorem conversion_is_exact source target s t v spread :
  0 < m_Minor source -> 0 < Qnum v -> 0 <= spread < 10000 -> 0 <= s <= 32767 -> 0 <= t <= 32767 ->
  let x := exact_conversion (m_Minor source) v spread s t in
  exists n d, 0 <= n < d /\ (x == inject_Z (Qfloor x) + Qmake n (Z.to_pos d))%Q /\
    convertWithMinorUnits source target s t (MkRate (Some v)) spread
    = if Qfloor x <=? 0 then inl ErrZeroTarget
      else if max_int64 <? Qfloor x then inl ErrOverflow
      else inr (MkMoney target (Qfloor x), MkRemainder (Z_text n) (Z_text d)).
Proof. apply convert_exact. Qed.

(** C29: Rates survive being stored as text: whatever text ParseRate accepts, the
    rate it yields has an exact text (a terminating decimal, or a fraction when the
    decimal does not terminate), and parsing that text gives the same rate back. *)
Theorem rate_text_round_trip raw r :
  ParseRate raw = inr r -> exists text, ExactString r = inr text /\ ParseRate text = inr r.
Proof.
  intros (v & -> & Hv & Hr)%ParseRate_reduced. destruct (ExactString_parses v Hv) as (text & H1 & H2).
  exists text. split; [done|]. by rewrite H2, Hr.
Qed.

Lemma conversion_is_exact_witness :
  exists n d, 0 <= n < d /\
    convertWithMinorUnits (MkMoney "USD" 1234) "IDR" 2 0 (MkRate (Some (16000125 # 1000)%Q)) 50
    = inr (MkMoney "IDR" 196454, MkRemainder (Z_text n) (Z_text d)).
Proof.
  destruct (conversion_is_exact (MkMoney "USD" 1234) "IDR" 2 0 (16000125 # 1000)%Q 50)
    as (n & d & Hn & _ & E); [done..|]. exists n, d. split; [exact Hn|]. exact E.
Defined.

Lemma rate_text_round_trip_witness :
  exists text, ExactString (MkRate (Some (32000 # 3)%Q)) = inr text /\
    ParseRate text = inr (MkRate (Some (32000 # 3)%Q)).
Proof. apply (rate_text_round_trip "64000/6"). vm_compute. reflexivity. Defined.
