(* ===== verification/InterestMath.v ===== *)
(** * Daily interest: interest/math.go and accrual/accrual.go

    The two ways the ledger computes a day's interest: in whole minor units with
    the fraction carried to the next day ([CalculateDaily], big integers), and the
    older one that drops the fraction ([DailyInterest], decimals).  Nothing is
    lost or created by the carry, and the two agree on one day. *)
From Stdlib Require Import QArith Qround Qabs Lqa.
From stdpp Require Import prelude gmap strings list.
From S2P Require Import Prelude Decimal Errors Money MoneyFacts.
Open Scope Z_scope.

(** ** math.go *)
Definition BasisPointsDenominator : Z := 10000.
Definition ACT365FDaysPerYear : Z := 365.
Definition DailyDenominator : Z := BasisPointsDenominator * ACT365FDaysPerYear.
Definition ErrInvalidCarry : error := Plain "interest: carry must be non-negative and less than denominator".

Record DailyCalculation := MkDaily {
  dc_ExactNumerator : Z; dc_Denominator : Z; dc_OpeningCarryNumerator : Z;
  dc_RecognizedMinor : Z; dc_ClosingCarryNumerator : Z }.
Definition earning (balanceMinor annualRateBps : Z) : bool := (0 <? balanceMinor) && (0 <? annualRateBps).
(** A nil carry is zero. *)
Definition CalculateDaily (balanceMinor annualRateBps : Z) (openingCarry : option Z) : error + DailyCalculation :=
  let denominator := DailyDenominator in
  let carry := default 0 openingCarry in
  if (carry <? 0) || (denominator <=? carry) then inl ErrInvalidCarry
  else
    let numerator := if earning balanceMinor annualRateBps then balanceMinor * annualRateBps else 0 in
    let available := carry + numerator in
    let '(recognized, closingCarry) :=
      if earning balanceMinor annualRateBps then (Z.quot available denominator, Z.rem available denominator)
      else (0, carry) in
    inr (MkDaily numerator denominator carry recognized closingCarry).
(** The carry as the NUMERIC column's text. *)
Definition CalculateDailyFromStrings (balanceMinor annualRateBps : Z) (openingCarry : string)
    : error + DailyCalculation :=
  if bool_decide (openingCarry = EmptyString) then CalculateDaily balanceMinor annualRateBps (Some 0)
  else match Int_SetString openingCarry with
       | None => inl (Plain "interest: invalid carry numerator")
       | Some carry => CalculateDaily balanceMinor annualRateBps (Some carry)
       end.
Definition BigIntString (value : option Z) : string :=
  match value with None => "0" | Some z => Z_text z end.

(** ** accrual.go *)
Section accrual.
Context `{DEC : !Decimal}.
Definition bpsDenominator : Z := 10000.
Definition daysPerYear : Z := 365.
Definition DailyInterest (balance : dec) (annualRateBps : Z) : dec :=
  if negb (dec_is_positive balance) || (annualRateBps <=? 0) then dec_zero
  else dec_truncate (dec_div (dec_div (dec_mul balance (dec_of_Z annualRateBps)) (dec_of_Z bpsDenominator))
                             (dec_of_Z daysPerYear)).
End accrual.

(** ** One day *)
(** What a calculation satisfies, whoever made it. *)
Record exact_day (balance rate : Z) (c : DailyCalculation) : Prop := {
  ed_denominator : dc_Denominator c = DailyDenominator;
  ed_numerator : dc_ExactNumerator c = if earning balance rate then balance * rate else 0;
  ed_opening : 0 <= dc_OpeningCarryNumerator c < DailyDenominator;
  ed_closing : 0 <= dc_ClosingCarryNumerator c < DailyDenominator;
  ed_recognized : 0 <= dc_RecognizedMinor c;
  ed_exact : dc_OpeningCarryNumerator c + dc_ExactNumerator c
             = dc_RecognizedMinor c * DailyDenominator + dc_ClosingCarryNumerator c;
}.
Lemma CalculateDaily_inr balance rate carry c :
  CalculateDaily balance rate carry = inr c ->
  exact_day balance rate c /\ dc_OpeningCarryNumerator c = default 0 carry.
Proof.
  unfold CalculateDaily. cbv zeta. destruct (_ || _) eqn:E; [done|].
  apply orb_false_iff in E as [E1%Z.ltb_ge E2%Z.leb_gt]. unfold earning.
  destruct (0 <? balance) eqn:Eb, (0 <? rate) eqn:Er; simpl; intros [= <-]; (split; [|done]);
    (split; simpl; [done|unfold earning; by rewrite Eb, Er|lia| | |]); try lia; try (by rewrite ?Z.add_0_r).
  all: apply Z.ltb_lt in Eb, Er; assert (Hn : 0 <= default 0 carry + balance * rate) by nia;
    assert (Hd : 0 < DailyDenominator) by done.
  - rewrite Z.rem_mod_nonneg by done. by apply Z.mod_pos_bound.
  - by apply Z.quot_pos.
  - pose proof (Z.quot_rem' (default 0 carry + balance * rate) DailyDenominator). lia.
Qed.
Lemma CalculateDaily_total balance rate c : 0 <= c < DailyDenominator ->
  exists r, CalculateDaily balance rate (Some c) = inr r.
Proof.
  intros Hc. unfold CalculateDaily. cbv zeta. simpl. rewrite (proj2 (Z.ltb_ge _ _)), (proj2 (Z.leb_gt _ _)) by lia.
  cbn [orb]. destruct (earning balance rate); eauto.
Qed.

(** ** Many days *)
(** The days of an enrollment: each opens with the carry the day before closed with. *)
Fixpoint calculate_days (days : list (Z * Z)) (carry : Z) : error + (Z * Z) :=
  match days with
  | [] => inr (0, carry)
  | (balance, rate) :: rest =>
      match CalculateDaily balance rate (Some carry) with
      | inl e => inl e
      | inr c => match calculate_days rest (dc_ClosingCarryNumerator c) with
                 | inl e => inl e
                 | inr (paid, closing) => inr (dc_RecognizedMinor c + paid, closing)
                 end
      end
  end.
Definition day_numerator (day : Z * Z) : Z := if earning day.1 day.2 then day.1 * day.2 else 0.
Lemma calculate_days_exact days carry :
  0 <= carry < DailyDenominator ->
  exists paid closing, calculate_days days carry = inr (paid, closing) /\
    0 <= closing < DailyDenominator /\ carry + sumZ day_numerator days = paid * DailyDenominator + closing.
Proof.
  revert carry. induction days as [|[b r] days IH]; intros carry Hc.
  { exists 0, carry. split_and!; [done|lia|lia|]. cbn. lia. }
  destruct (CalculateDaily_total b r carry Hc) as [c Ec].
  pose proof (CalculateDaily_inr _ _ _ _ Ec) as [[_ En _ Hcl _ Ex] Eo]. simpl in Eo.
  destruct (IH _ Hcl) as (paid & closing & Ed & Hcl' & Ex').
  exists (dc_RecognizedMinor c + paid), closing. cbn [calculate_days]. rewrite Ec, Ed. split; [done|]. split; [done|].
  assert (Eh : sumZ day_numerator ((b, r) :: days) = dc_ExactNumerator c + sumZ day_numerator days).
  { rewrite En. done. }
  rewrite Eh. lia.
Qed.

(** C22: Carried interest is exact.  Over any run of days, whatever the balances
    and rates, the whole minor units recognised are the floor of the exact interest
    of the period: the opening carry plus the sum of balance x rate over the days
    that earn, divided by 10,000 x 365; what the closing carry holds is exactly the
    fraction not yet recognised. *)
Theorem carried_interest_is_exact days carry :
  0 <= carry < DailyDenominator ->
  exists paid closing, calculate_days days carry = inr (paid, closing) /\
    paid = Qfloor (Qmake (carry + sumZ day_numerator days) (Z.to_pos DailyDenominator)) /\
    (Qmake (carry + sumZ day_numerator days) (Z.to_pos DailyDenominator)
     == inject_Z paid + Qmake closing (Z.to_pos DailyDenominator))%Q /\
    0 <= closing < DailyDenominator.
Proof.
  intros Hc. destruct (calculate_days_exact days carry Hc) as (paid & closing & E & Hcl & Ex).
  exists paid, closing. rewrite Ex. split; [done|]. split; [|split; [|exact Hcl]].
  - unfold Qfloor. change (Zpos (Z.to_pos DailyDenominator)) with DailyDenominator.
    rewrite Z.add_comm, Z.div_add, Z.div_small by done. lia.
  - unfold Qeq, Qplus, inject_Z. cbn [Qnum Qden]. rewrite Pos.mul_1_l.
    change (Zpos (Z.to_pos DailyDenominator)) with DailyDenominator. lia.
Qed.

(** ** The two computations agree *)
Section agree.
Context `{DEC : !Decimal}.

(** Rounding to sixteen digits does not reach the next integer. *)
Lemma floor_near (x y : Q) (n : Z) :
  (x == Qmake n 3650000)%Q -> 0 <= n -> (Qabs (y - x) <= 1 # 20000000000000000)%Q -> n mod 3650000 <> 0 ->
  (0 <= y)%Q /\ Qfloor y = Qfloor x.
Proof.
  intros Ex Hn Hy Hm. apply Qabs_Qle_condition in Hy as [H1 H2].
  pose proof (Z.div_mod n 3650000 ltac:(done)) as Hd. pose proof (Z.mod_pos_bound n 3650000 ltac:(done)) as Hb.
  set (k := n / 3650000) in *. set (m := n mod 3650000) in *.
  assert (Hk : 0 <= k) by (apply Z.div_pos; lia).
  assert (Exk : (x == inject_Z k + Qmake m 3650000)%Q).
  { rewrite Ex. unfold Qeq, Qplus, inject_Z. cbn [Qnum Qden]. clearbody k m. lia. }
  assert (L1 : (Qmake 1 3650000 <= Qmake m 3650000)%Q) by (unfold Qle; simpl; lia).
  assert (L2 : (Qmake m 3650000 <= Qmake 3649999 3650000)%Q) by (unfold Qle; simpl; lia).
  assert (S1 : (1 # 20000000000000000 <= 1 # 3650000)%Q) by done.
  assert (S2 : ((3649999 # 3650000) + (1 # 20000000000000000) < 1)%Q) by done.
  assert (Y1 : (inject_Z k <= y)%Q) by (rewrite Exk in H1; lra).
  assert (Y2 : (y < inject_Z (k + 1))%Q) by (rewrite inject_Z_plus; change (inject_Z 1) with 1%Q; rewrite Exk in H2; lra).
  assert (K0 : (0 <= inject_Z k)%Q) by (change 0%Q with (inject_Z 0); by rewrite <- Zle_Qle).
  split; [lra|]. assert (Fx : Qfloor x = k).
  { rewrite (Qfloor_comp x (Qmake n 3650000) Ex). done. }
  rewrite Fx. pose proof (Qfloor_le y) as F1. pose proof (Qlt_floor y) as F2.
  assert (A1 : (inject_Z k < inject_Z (Qfloor y + 1))%Q) by lra. rewrite <- Zlt_Qlt in A1.
  assert (A2 : (inject_Z (Qfloor y) < inject_Z (k + 1))%Q) by lra. rewrite <- Zlt_Qlt in A2. lia.
Qed.
Lemma quot_floor q : (0 <= q)%Q -> Z.quot (Qnum q) (Zpos (Qden q)) = Qfloor q.
Proof.
  intros Hq. unfold Qfloor. destruct q as [a b]. unfold Qle in Hq. simpl in *. apply Z.quot_div_nonneg; lia.
Qed.

(** C38: The two computations of a day's interest agree: for an integral balance and
    any rate, the daily interest computed in decimals, with its two rounded
    divisions, is the whole number of minor units the integer computation
    recognises when nothing is carried in. *)
Theorem decimal_interest_agrees balance b rate c :
  (dec_val balance == inject_Z b)%Q -> CalculateDaily b rate None = inr c ->
  (dec_val (DailyInterest balance rate) == inject_Z (dc_RecognizedMinor c))%Q.
Proof.
  intros Eb Hc. apply CalculateDaily_inr in Hc as [[_ En _ Hcl _ Ex] Eo]. simpl in Eo. rewrite Eo, En in Ex.
  unfold DailyInterest, earning in *. assert (Hpos : dec_is_positive balance = (0 <? b)).
  { apply eq_true_iff_eq. rewrite dec_is_positive_val, Eb, Z.ltb_lt, (Zlt_Qlt 0 b). done. }
  rewrite Hpos. destruct (0 <? b) eqn:E1; [|simpl; rewrite dec_zero_val; replace (dc_RecognizedMinor c) with 0; [done|
    unfold DailyDenominator, BasisPointsDenominator, ACT365FDaysPerYear in *; simpl in Ex; lia]].
  destruct (rate <=? 0) eqn:E2.
  { rewrite (proj2 (Z.ltb_ge 0 rate)) in Ex by (apply Z.leb_le; done).
    simpl; rewrite dec_zero_val; replace (dc_RecognizedMinor c) with 0; [done|].
    unfold DailyDenominator, BasisPointsDenominator, ACT365FDaysPerYear in *; simpl in Ex; lia. }
  apply Z.ltb_lt in E1. apply Z.leb_gt in E2. rewrite (proj2 (Z.ltb_lt 0 rate)) in Ex by done. cbn [negb orb andb] in *.
  rewrite dec_truncate_val. set (n := b * rate) in *.
  assert (Hn : 0 < n) by (unfold n; nia).
  assert (Em : (dec_val (dec_mul balance (dec_of_Z rate)) == inject_Z n)%Q).
  { rewrite dec_mul_val, dec_of_Z_val, Eb. by rewrite <- inject_Z_mult. }
  assert (Ed : (dec_val (dec_div (dec_mul balance (dec_of_Z rate)) (dec_of_Z bpsDenominator)) == Qmake n 10000)%Q).
  { rewrite (dec_div_val _ _ (n * 1000000000000)).
    - rewrite Em, dec_of_Z_val. unfold Qeq, Qdiv, Qmult, Qinv, inject_Z. simpl. lia.
    - rewrite dec_of_Z_val. done.
    - rewrite Em, dec_of_Z_val. unfold Qeq, Qdiv, Qmult, Qinv, inject_Z. simpl. lia. }
  set (y := dec_val (dec_div _ (dec_of_Z daysPerYear))).
  assert (Eq : (dec_val (dec_div (dec_mul balance (dec_of_Z rate)) (dec_of_Z bpsDenominator))
                / dec_val (dec_of_Z daysPerYear) == Qmake n 3650000)%Q).
  { rewrite Ed, dec_of_Z_val. unfold Qeq, Qdiv, Qmult, Qinv, inject_Z. simpl. lia. }
  assert (Efl : dc_RecognizedMinor c = Qfloor (Qmake n 3650000)).
  { unfold Qfloor. change DailyDenominator with 3650000 in *. rewrite Z.add_0_l in Ex.
    rewrite Ex, Z.add_comm, Z.div_add, Z.div_small by lia. lia. }
  assert (Hdays : (0 < dec_val (dec_of_Z daysPerYear))%Q) by (rewrite dec_of_Z_val; done).
  destruct (decide (n mod 3650000 = 0)) as [Hm|Hm].
  - assert (Ey : (y == inject_Z (dc_RecognizedMinor c))%Q).
    { pose proof (Z.div_mod n 3650000 ltac:(done)) as Hd. rewrite Hm, Z.add_0_r in Hd.
      unfold y. rewrite (dec_div_val _ _ (n / 3650000 * 10000000000000000)); [|exact Hdays|].
      - rewrite Eq, Efl. rewrite Hd at 1. unfold Qeq, Qfloor, inject_Z. simpl. lia.
      - rewrite Eq. rewrite Hd at 1. unfold Qeq. simpl. lia. }
    rewrite quot_floor by (rewrite Ey; change 0%Q with (inject_Z 0); rewrite <- Zle_Qle, Efl; apply Z.div_pos; lia).
    by rewrite (Qfloor_comp _ _ Ey), Qfloor_Z.
  - pose proof (dec_div_near (dec_div (dec_mul balance (dec_of_Z rate)) (dec_of_Z bpsDenominator)) _ Hdays) as Hnear. fold y in Hnear.
    rewrite Eq in Hnear. destruct (floor_near (Qmake n 3650000) y n (Qeq_refl _) ltac:(lia) Hnear Hm) as [Hy Ey].
    rewrite quot_floor by done. by rewrite Ey, Efl.
Qed.
End agree.

(** ** Witnesses *)
(** A savings balance of 1,000,000 at 4% for three days, the middle one empty. *)
Lemma carried_interest_is_exact_witness :
  calculate_days [(1000000, 400); (0, 400); (2500000, 400)] 2600000 = inr (384, 1000000) /\
  384 = Qfloor (Qmake (2600000 + sumZ day_numerator [(1000000, 400); (0, 400); (2500000, 400)])
                      (Z.to_pos DailyDenominator)).
Proof.
  destruct (carried_interest_is_exact [(1000000, 400); (0, 400); (2500000, 400)] 2600000) as (p & c & E & F & _ & _);
    [by unfold DailyDenominator|].
  vm_compute in E. injection E as <- <-. split; [reflexivity|exact F].
Defined.
(** One day of 1,234,567 at 6.5%: 219.85 minor units, 219 of them recognised. *)
Lemma decimal_interest_agrees_witness :
  (exists c, CalculateDaily 1234567 650 None = inr c /\ dc_RecognizedMinor c = 219) /\
  (dec_val (DailyInterest (DEC := QDecimal.decimal) (dec_of_Z 1234567) 650) == 219)%Q.
Proof.
  split; [eexists; split; [vm_compute; reflexivity|reflexivity]|].
  assert (Eb : (dec_val (Decimal := QDecimal.decimal) (dec_of_Z 1234567) == inject_Z 1234567)%Q) by apply dec_of_Z_val.
  exact (decimal_interest_agrees (DEC := QDecimal.decimal) (dec_of_Z 1234567) 1234567 650
           (MkDaily 802468550 3650000 0 219 3118550) Eb ltac:(vm_compute; reflexivity)).
Defined.
