(* ===== verification/Calendar.v ===== *)
(** * Civil dates and locations: what the source uses of package time

    Days and dates of the proleptic Gregorian calendar, the text of a date, and
    instants read in a location.  An instant is in microseconds; a location is its
    offset from UTC at each instant. *)
From Stdlib Require Import Ascii String.
From stdpp Require Import prelude strings.
From S2P Require Import Prelude Decimal Errors Currency Events Money MoneyFacts.
Open Scope Z_scope.

Definition Second : Z := 1000000.
Definition Minute : Z := 60 * Second.
Definition Hour : Z := 60 * Minute.
Definition Day : Z := 24 * Hour.

(** ** Days and dates *)
Record date := MkDate { d_year : Z; d_month : Z; d_day : Z }.
(** Years start on 1 March, so that the leap day is the last; 400 years are 146097 days. *)
Definition date_of_day (z : Z) : date :=
  let z := z + 719468 in
  let era := z / 146097 in
  let doe := z mod 146097 in
  let yoe := (doe - doe / 1460 + doe / 36524 - doe / 146096) / 365 in
  let doy := doe - (365 * yoe + yoe / 4 - yoe / 100) in
  let mp := (5 * doy + 2) / 153 in
  let m := if mp <? 10 then mp + 3 else mp - 9 in
  MkDate (yoe + era * 400 + (if m <=? 2 then 1 else 0)) m (doy - (153 * mp + 2) / 5 + 1).
(** A month outside 1..12 carries into the year, a day outside the month into its
    neighbours: time.Date normalizes. *)
Definition day_of_date (y m d : Z) : Z :=
  let y := y + (m - 1) / 12 in
  let m := (m - 1) mod 12 + 1 in
  let y := if m <=? 2 then y - 1 else y in
  let era := y / 400 in
  let yoe := y mod 400 in
  let mp := (m + 9) mod 12 in
  let doe := yoe * 365 + yoe / 4 - yoe / 100 + (153 * mp + 2) / 5 + d - 1 in
  era * 146097 + doe - 719468.

Lemma year_of_era doe : 0 <= doe < 146097 ->
  let yoe := (doe - doe / 1460 + doe / 36524 - doe / 146096) / 365 in
  0 <= yoe < 400 /\ 0 <= doe - (365 * yoe + yoe / 4 - yoe / 100) <= 365.
Proof. intros H yoe. unfold yoe. Z.to_euclidean_division_equations. lia. Qed.
Lemma month_of_year doy : 0 <= doy <= 365 -> 0 <= (5 * doy + 2) / 153 < 12.
Proof. intros H. Z.to_euclidean_division_equations. lia. Qed.
Lemma month_back mp (m := if mp <? 10 then mp + 3 else mp - 9) :
  0 <= mp < 12 -> 1 <= m <= 12 /\ (m - 1) / 12 = 0 /\ (m - 1) mod 12 + 1 = m /\ (m + 9) mod 12 = mp.
Proof.
  intros H. assert (Hm : 1 <= m <= 12) by (unfold m; destruct (Z.ltb_spec mp 10); lia).
  split; [done|]. rewrite Z.div_small, Z.mod_small by lia. split; [done|]. split; [lia|].
  unfold m. destruct (Z.ltb_spec mp 10).
  - replace (mp + 3 + 9) with (mp + 1 * 12) by lia. rewrite Z.mod_add, Z.mod_small by lia. done.
  - rewrite Z.mod_small by lia. lia.
Qed.
(** Every day is the day of its date. *)
Lemma day_of_date_of_day z (c := date_of_day z) : day_of_date (d_year c) (d_month c) (d_day c) = z.
Proof.
  unfold c, date_of_day, day_of_date. cbv zeta. cbn [d_year d_month d_day].
  pose proof (Z.mod_pos_bound (z + 719468) 146097 ltac:(lia)) as Hdoe.
  pose proof (Z.div_mod (z + 719468) 146097 ltac:(lia)) as Hera.
  set (doe := (z + 719468) mod 146097) in *. set (era := (z + 719468) / 146097) in *.
  destruct (year_of_era doe Hdoe) as [Hy Hd]. set (yoe := (doe - doe / 1460 + _ - _) / 365) in *.
  set (doy := doe - (365 * yoe + yoe / 4 - yoe / 100)) in *. pose proof (month_of_year doy Hd) as Hm. set (mp := (5 * doy + 2) / 153) in *.
  destruct (month_back mp Hm) as (_ & -> & -> & Hb). set (m := if mp <? 10 then mp + 3 else mp - 9) in *.
  rewrite Hb. clear Hb.
  assert (Hyear : (if m <=? 2 then yoe + era * 400 + (if m <=? 2 then 1 else 0) + 0 - 1
                   else yoe + era * 400 + (if m <=? 2 then 1 else 0) + 0) = yoe + era * 400)
    by (destruct (m <=? 2); lia).
  rewrite Hyear, Z.div_add, Z.mod_add, Z.div_small, Z.mod_small by lia. unfold doy. lia.
Qed.

(** ** Format("2006-01-02") *)
(** appendInt: the sign, then the digits padded to a width. *)
Definition appendInt (z : Z) (width : nat) : string :=
  let digits := Z_text (Z.abs z) in
  (if z <? 0 then "-" else EmptyString) +:+ (zeros (width - String.length digits) +:+ digits).
Definition Format_date (c : date) : string :=
  appendInt (d_year c) 4 +:+ ("-" +:+ (appendInt (d_month c) 2 +:+ ("-" +:+ appendInt (d_day c) 2))).
Definition date_text (day : Z) : string := Format_date (date_of_day day).

Lemma dval_zeros n s : dval 0 (zeros n +:+ s) = dval 0 s.
Proof. apply zeros_facts. Qed.
Lemma appendInt_nonneg z w : 0 <= z ->
  appendInt z w = zeros (w - String.length (Z_text z)) +:+ Z_text z.
Proof. intros H. unfold appendInt. by rewrite (proj2 (Z.ltb_ge z 0)), Z.abs_eq by done. Qed.
Lemma appendInt_neg z w : z < 0 ->
  appendInt z w = String "-" (zeros (w - String.length (Z_text (- z))) +:+ Z_text (- z)).
Proof. intros H. unfold appendInt. by rewrite (proj2 (Z.ltb_lt z 0)), Z.abs_neq by lia. Qed.
Lemma padded_digits z n : 0 <= z -> forall_chars is_digit (zeros n +:+ Z_text z) = true.
Proof. intros H. destruct (zeros_facts n) as (_ & Hz & _). rewrite forall_chars_app, Hz. by apply Z_text_digits. Qed.
Lemma padded_value z n : 0 <= z -> dval 0 (zeros n +:+ Z_text z) = z.
Proof. intros H. by rewrite dval_zeros, Z_text_dval. Qed.
(** A text of digits ends at the first other character. *)
Lemma digits_until (c : ascii) a a' b b' :
  is_digit c = false -> forall_chars is_digit a = true -> forall_chars is_digit a' = true ->
  a +:+ String c b = a' +:+ String c b' -> a = a' /\ b = b'.
Proof.
  intros Hc. revert a'. induction a as [|x a IH]; intros [|y a'] Ha Ha' E; simpl in Ha, Ha'.
  - by injection E.
  - injection E as -> _. by rewrite Hc in Ha'.
  - injection E as <- _. by rewrite Hc in Ha.
  - apply andb_true_iff in Ha as [_ Ha], Ha' as [_ Ha']. injection E as <- E.
    destruct (IH a' Ha Ha' E) as [-> ->]. done.
Qed.
Lemma padded_until z n z' n' b b' : 0 <= z -> 0 <= z' ->
  (zeros n +:+ Z_text z) +:+ String "-" b = (zeros n' +:+ Z_text z') +:+ String "-" b' -> z = z' /\ b = b'.
Proof.
  intros H H' E. apply digits_until in E as [E ->]; [|done|by apply padded_digits..].
  split; [|done]. apply (f_equal (dval 0)) in E. by rewrite !padded_value in E.
Qed.
Lemma padded_first z n x s : 0 <= z -> zeros n +:+ Z_text z = String x s -> is_digit x = true.
Proof.
  intros H E. pose proof (padded_digits z n H) as Hd. rewrite E in Hd. by apply andb_true_iff in Hd as [? _].
Qed.
Lemma padded_not_minus z n s t : 0 <= z -> (zeros n +:+ Z_text z) +:+ s <> String "-" t.
Proof.
  intros H E. destruct (zeros n +:+ Z_text z) as [|x u] eqn:Eu.
  - destruct n; [|done]. by destruct (Z_text_nonempty z H).
  - injection E as -> _. by apply padded_first in Eu.
Qed.
Lemma appendInt_until z w z' w' b b' :
  appendInt z w +:+ String "-" b = appendInt z' w' +:+ String "-" b' -> z = z' /\ b = b'.
Proof.
  intros E. destruct (decide (0 <= z)) as [H|H], (decide (0 <= z')) as [H'|H'].
  - rewrite (appendInt_nonneg z), (appendInt_nonneg z') in E by lia. by apply padded_until in E.
  - rewrite (appendInt_nonneg z), (appendInt_neg z') in E by lia. by destruct (padded_not_minus _ _ _ _ H E).
  - rewrite (appendInt_neg z), (appendInt_nonneg z') in E by lia.
    by destruct (padded_not_minus _ _ _ _ H' (eq_sym E)).
  - rewrite (appendInt_neg z), (appendInt_neg z') in E by lia.
    injection E as E. apply padded_until in E as [? ->]; [|lia..]. split; [lia|done].
Qed.
Lemma appendInt_inj z w z' w' : 0 <= z -> 0 <= z' -> appendInt z w = appendInt z' w' -> z = z'.
Proof.
  intros H H' E. rewrite !appendInt_nonneg in E by done.
  apply (f_equal (dval 0)) in E. by rewrite !padded_value in E.
Qed.
Lemma date_of_day_bounds z (c := date_of_day z) : 1 <= d_month c <= 12 /\ 1 <= d_day c.
Proof.
  unfold c, date_of_day. cbv zeta. cbn [d_month d_day].
  pose proof (Z.mod_pos_bound (z + 719468) 146097 ltac:(lia)) as Hdoe.
  set (doe := (z + 719468) mod 146097) in *.
  destruct (year_of_era doe Hdoe) as [Hy Hd]. set (yoe := (doe - doe / 1460 + _ - _) / 365) in *.
  set (doy := doe - (365 * yoe + yoe / 4 - yoe / 100)) in *. pose proof (month_of_year doy Hd) as Hm.
  split; [apply (month_back _ Hm)|]. Z.to_euclidean_division_equations. lia.
Qed.
(** A day is known by its text. *)
Lemma date_text_inj a b : date_text a = date_text b -> a = b.
Proof.
  intros E. unfold date_text, Format_date in E. apply appendInt_until in E as [Ey E].
  apply appendInt_until in E as [Em E]. destruct (date_of_day_bounds a), (date_of_day_bounds b).
  apply appendInt_inj in E as Ed; [|lia..].
  rewrite <- (day_of_date_of_day a), <- (day_of_date_of_day b). by rewrite Ey, Em, Ed.
Qed.

(** ** Instants in a location *)
Definition Location : Type := Z -> Z.      (* offset east of UTC, in microseconds *)
Definition UTC : Location := fun _ => 0.
Definition FixedZone (offset : Z) : Location := fun _ => offset * Second.
Definition local_day (loc : Location) (t : Z) : Z := (t + loc t) / Day.
Definition local_clock (loc : Location) (t : Z) : Z := (t + loc t) mod Day.
(** time.Date on a local time: the offset at that time taken as UTC, or, when that
    gives an instant with another offset, the offset there. *)
Definition from_local (loc : Location) (u : Z) : Z := u - loc (u - loc u).
Definition Date (y m d clock : Z) (loc : Location) : Z := from_local loc (day_of_date y m d * Day + clock).
Definition AddDate (years months days : Z) (loc : Location) (t : Z) : Z :=
  let c := date_of_day (local_day loc t) in
  Date (d_year c + years) (d_month c + months) (d_day c + days) (local_clock loc t) loc.
(** LoadLocation, and AT TIME ZONE: the tz database is not part of the source. *)
Class Zones := LoadLocation : string -> option Location.
Lemma fixed_midnight offset day : local_day (FixedZone offset) (from_local (FixedZone offset) (day * Day)) = day.
Proof. unfold local_day, from_local, FixedZone. rewrite Z.sub_add. by apply Z.div_mul. Qed.
