(* ===== verification/Store.v ===== *)
(** * The ledger database and the effects the posting code runs in

    Tables of services/ledger/migrations as finite maps of row records; a
    monad of database effects with Go's three outcomes (value, error, panic);
    statements of an open transaction, pool queries, savepoints and [WithTx].
    Every database call consumes one element of a schedule, which decides how
    long the call takes and whether it fails, so a theorem about every world is
    a theorem about every pattern of infrastructure failures.
    First the tables of foreign exchange (migration 000039): their rows, and the columns
    by which the two legs of a conversion name it; the statements over them are in FxRepo.v. *)
From stdpp Require Import prelude gmap strings list sorting.
From S2P Require Import Prelude Decimal Errors Events.
Open Scope Z_scope.
Record fx_pair_row := FxPairRow {
  fp_pair_code : string;
  fp_base_currency : string;
  fp_quote_currency : string;
  fp_status : string;
  fp_rate_source : string;
  fp_rate_convention : string;
  fp_position_qualifier : string;
  fp_pair_policy_version : Z;
  fp_quote_ttl_seconds : Z;
  fp_rounding_mode : string;
}.

Record fx_direction_row := FxDirectionRow {
  fd_pair_id : uuid;
  fd_source_currency : string;
  fd_target_currency : string;
  fd_enabled : bool;
  fd_new_quotes_paused : bool;
  fd_conversions_paused : bool;
  fd_min_source_amount : Z;
  fd_max_source_amount : Z;
  fd_spread_basis_points : Z;
}.

Record fx_rate_row := FxRateRow {
  fr_pair_id : uuid;
  fr_direction_id : uuid;
  fr_version : Z;
  fr_reference_rate : Z;            (* NUMERIC(38,18): units of 10^-18 *)
  fr_rate_source : string;
  fr_status : string;
  fr_effective_from : Z;
  fr_effective_to : option Z;
  fr_created_by : string;
  fr_submitted_by : option string;
  fr_approved_by : option string;
  fr_submitted_at : option Z;
  fr_approved_at : option Z;
  fr_retired_at : option Z;
  fr_rejection_reason : option string;
  fr_created_at : Z;
}.

Record fx_quote_row := FxQuoteRow {
  fq_user_id : uuid;
  fq_pair_id : uuid;
  fq_direction_id : uuid;
  fq_rate_version_id : uuid;
  fq_source_currency : string;
  fq_target_currency : string;
  fq_source_minor_unit : Z;
  fq_target_minor_unit : Z;
  fq_source_amount : Z;
  fq_target_amount : Z;
  fq_reference_rate : Z;            (* NUMERIC(38,18) *)
  fq_client_rate : string;
  fq_rate_convention : string;
  fq_pair_policy_version : Z;
  fq_spread_basis_points : Z;
  fq_rounding_mode : string;
  fq_remainder_numerator : Z;       (* NUMERIC(120,0) *)
  fq_remainder_denominator : Z;
  fq_request_key : string;
  fq_status : string;
  fq_expires_at : Z;
  fq_consumed_at : option Z;
  fq_consumed_by_conversion_id : option uuid;
  fq_created_at : Z;
}.

Record fx_conversion_row := FxConversionRow {
  fc_user_id : uuid;
  fc_quote_id : uuid;
  fc_idempotency_key : string;
  fc_source_currency : string;
  fc_target_currency : string;
  fc_source_amount : Z;
  fc_target_amount : Z;
  fc_status : string;
  fc_source_transaction_id : option uuid;
  fc_target_transaction_id : option uuid;
  fc_error_message : option string;
  fc_created_at : Z;
  fc_posted_at : option Z;
}.

Record fx_limit_row := FxLimitRow {
  l_minimum_balance : Z;
  l_maximum_balance : Z;
  l_warning_minimum_balance : option Z;
  l_warning_maximum_balance : option Z;
  l_critical_minimum_balance : option Z;
  l_critical_maximum_balance : option Z;
}.

(** ledger_transactions.conversion_id, fx_quote_id, fx_leg,
    counterpart_transaction_id: all four or none (ledger_transactions_fx_shape). *)
Record fx_link := FxLink {
  k_conversion_id : uuid;
  k_fx_quote_id : uuid;
  k_fx_leg : string;
  k_counterpart_transaction_id : uuid;
}.

Record fx_tables := FxTables {
  fx_pairs : gmap uuid fx_pair_row;
  fx_pair_directions : gmap uuid fx_direction_row;
  fx_rate_versions : gmap uuid fx_rate_row;
  fx_quotes : gmap uuid fx_quote_row;
  fx_conversions : gmap uuid fx_conversion_row;
  fx_position_limits : gmap (uuid * string) fx_limit_row;   (* (pair_id, currency) *)
  fx_links : gmap uuid fx_link;                              (* by transaction *)
}.
Definition no_fx : fx_tables := FxTables ∅ ∅ ∅ ∅ ∅ ∅ ∅.

Definition set_fx_quotes (t : fx_tables) q : fx_tables :=
  FxTables (fx_pairs t) (fx_pair_directions t) (fx_rate_versions t) q (fx_conversions t)
    (fx_position_limits t) (fx_links t).
Definition set_fx_conversions (t : fx_tables) c : fx_tables :=
  FxTables (fx_pairs t) (fx_pair_directions t) (fx_rate_versions t) (fx_quotes t) c
    (fx_position_limits t) (fx_links t).
Definition set_fx_links (t : fx_tables) k : fx_tables :=
  FxTables (fx_pairs t) (fx_pair_directions t) (fx_rate_versions t) (fx_quotes t)
    (fx_conversions t) (fx_position_limits t) k.
Definition set_fx_pairs (t : fx_tables) p : fx_tables :=
  FxTables p (fx_pair_directions t) (fx_rate_versions t) (fx_quotes t) (fx_conversions t)
    (fx_position_limits t) (fx_links t).
Definition set_fx_directions (t : fx_tables) d : fx_tables :=
  FxTables (fx_pairs t) d (fx_rate_versions t) (fx_quotes t) (fx_conversions t)
    (fx_position_limits t) (fx_links t).
Definition set_fx_rates (t : fx_tables) r : fx_tables :=
  FxTables (fx_pairs t) (fx_pair_directions t) r (fx_quotes t) (fx_conversions t)
    (fx_position_limits t) (fx_links t).
Definition set_fx_limits (t : fx_tables) l : fx_tables :=
  FxTables (fx_pairs t) (fx_pair_directions t) (fx_rate_versions t) (fx_quotes t)
    (fx_conversions t) l (fx_links t).

(** ** Rows (migrations 000001, 000004, 000007, 000020, 000021, 000028, 000039) *)

(** Signed effect of one entry on its account: credits add, debits subtract. *)
Definition signed (d : Direction) (amount : Z) : Z :=
  match d with Debit => - amount | Credit => amount end.

Record account_row := AccountRow {
  a_owner_type : string;
  a_owner_id : option uuid;
  a_type : string;
  a_currency : string;
  a_pocket_code : option string;
  a_system_qualifier : option string;
  a_status : string;
}.

Record balance_row := BalanceRow { b_balance : Z; b_allow_negative : bool }.

Record tx_row := TxRow {
  t_idempotency_key : option string;
  t_idempotency_scope : option string;
  t_type : string;
  t_status : string;
  t_amount : Z;
  t_currency : string;
  t_source_account_id : option uuid;
  t_destination_account_id : option uuid;
  t_error : option error;          (* error_message: the error whose text is stored *)
  t_external_ref : option string;
  t_gateway : option string;
  t_request_id : option string;
  t_key_digest : option string;
  t_key_version : option Z;
  t_fingerprint : option string;
  t_closed_by : option uuid;
  t_closed_reason : option string;
}.

Record entry_row := EntryRow {
  e_id : uuid;
  e_transaction_id : uuid;
  e_account_id : uuid;
  e_direction : Direction;
  e_amount : Z;
  e_balance_after : Z;
  e_note : string;
}.

Record outbox_row := OutboxRow {
  o_id : uuid;
  o_aggregate_type : string;
  o_aggregate_id : uuid;
  o_event_type : string;
  o_payload : payload;
}.

Record quote_row := QuoteRow {
  q_user_id : uuid;
  q_transaction_type : string;
  q_gateway : string;
  q_currency : string;
  q_amount : Z;
  q_fee_amount : Z;
  q_fee_gateway : string;
  q_expires_at : Z;
  q_consumed_at : option Z;
  q_consumed_by_ref : option string;
  q_consumed_by_type : string;
}.

Record fee_rule_row := FeeRuleRow {
  r_tx_type : string;
  r_gateway : string;
  r_currency : string;
  r_user_id : option uuid;
  r_flat_minor_units : Z;
  r_percent_basis_pts : Z;
  r_fee_gateway : string;
  r_enabled : bool;
}.

Record currency_row := CurrencyRow {
  c_minor_unit : Z;
  c_status : string;
  c_enabled : bool;
  c_operations : option (gmap string bool);   (* None: undecodable JSON *)
}.

Record database := Database {
  accounts : gmap uuid account_row;
  account_balances : gmap uuid balance_row;
  ledger_transactions : gmap uuid tx_row;
  ledger_entries : list entry_row;
  outbox_events : list outbox_row;
  fee_quotes : gmap uuid quote_row;
  fee_rules : list fee_rule_row;
  currencies : gmap string currency_row;
  fx : fx_tables;
}.

Definition with_balances (d : database) b := 
  {| accounts := accounts d; account_balances := b;
     ledger_transactions := ledger_transactions d; ledger_entries := ledger_entries d;
     outbox_events := outbox_events d; fee_quotes := fee_quotes d; fee_rules := fee_rules d;
     currencies := currencies d; fx := fx d |}.
Definition with_transactions (d : database) t := 
  {| accounts := accounts d; account_balances := account_balances d;
     ledger_transactions := t; ledger_entries := ledger_entries d;
     outbox_events := outbox_events d; fee_quotes := fee_quotes d; fee_rules := fee_rules d;
     currencies := currencies d; fx := fx d |}.
Definition with_entries (d : database) e := 
  {| accounts := accounts d; account_balances := account_balances d;
     ledger_transactions := ledger_transactions d; ledger_entries := e;
     outbox_events := outbox_events d; fee_quotes := fee_quotes d; fee_rules := fee_rules d;
     currencies := currencies d; fx := fx d |}.
Definition with_outbox (d : database) o := 
  {| accounts := accounts d; account_balances := account_balances d;
     ledger_transactions := ledger_transactions d; ledger_entries := ledger_entries d;
     outbox_events := o; fee_quotes := fee_quotes d; fee_rules := fee_rules d;
     currencies := currencies d; fx := fx d |}.
Definition with_quotes (d : database) q := 
  {| accounts := accounts d; account_balances := account_balances d;
     ledger_transactions := ledger_transactions d; ledger_entries := ledger_entries d;
     outbox_events := outbox_events d; fee_quotes := q; fee_rules := fee_rules d;
     currencies := currencies d; fx := fx d |}.

Definition with_fx (d : database) f :=
  {| accounts := accounts d; account_balances := account_balances d;
     ledger_transactions := ledger_transactions d; ledger_entries := ledger_entries d;
     outbox_events := outbox_events d; fee_quotes := fee_quotes d; fee_rules := fee_rules d;
     currencies := currencies d; fx := f |}.
Definition with_currencies (d : database) c :=
  {| accounts := accounts d; account_balances := account_balances d;
     ledger_transactions := ledger_transactions d; ledger_entries := ledger_entries d;
     outbox_events := outbox_events d; fee_quotes := fee_quotes d; fee_rules := fee_rules d;
     currencies := c; fx := fx d |}.

(** ** The world an operation runs in *)

(** How one database call ends: normally, with an error and no effect, or (a
    commit only) with an error although the server committed. *)
Inductive infra := PgFailure (code msg : string) | ConnectionLost | ContextDone.
Definition infra_error (i : infra) : error :=
  match i with
  | PgFailure code msg => PgError code msg
  | ConnectionLost => DriverError
  | ContextDone => ContextErr
  end.
Inductive fault := NoFault | Fails (i : infra) | LostAck (i : infra).
Record call := Call { delay : Z; outcome : fault }.

(** [accountRepo]'s four process-wide caches (account_repository.go:78-81). *)
Record caches := Caches {
  systemAccountCache : gmap string uuid;
  userAccountCache : gmap string uuid;
  currencyCache : gmap uuid string;
  merchantAccountCache : gmap string uuid;
}.
Definition no_caches : caches := Caches ∅ ∅ ∅ ∅.

Record world := World {
  w_db : database;
  w_calls : list call;         (* the schedule; beyond its end no call fails *)
  w_now : Z;                   (* the server's clock *)
  w_tx_now : Z;                (* now() inside the open transaction: its start *)
  w_aborted : bool;            (* the open transaction failed: every statement is refused *)
  w_savepoint : option database;
  w_ids : nat -> uuid;         (* the generator behind NewV7 *)
  w_next_id : nat;
  w_caches : caches;
}.

Definition set_db (w : world) d : world :=
  World d (w_calls w) (w_now w) (w_tx_now w) (w_aborted w) (w_savepoint w)
        (w_ids w) (w_next_id w) (w_caches w).
Definition set_aborted (w : world) b : world :=
  World (w_db w) (w_calls w) (w_now w) (w_tx_now w) b (w_savepoint w)
        (w_ids w) (w_next_id w) (w_caches w).
Definition set_savepoint (w : world) s : world :=
  World (w_db w) (w_calls w) (w_now w) (w_tx_now w) (w_aborted w) s
        (w_ids w) (w_next_id w) (w_caches w).
Definition set_caches (w : world) c : world :=
  World (w_db w) (w_calls w) (w_now w) (w_tx_now w) (w_aborted w) (w_savepoint w)
        (w_ids w) (w_next_id w) c.
Definition set_ids (w : world) n : world :=
  World (w_db w) (w_calls w) (w_now w) (w_tx_now w) (w_aborted w) (w_savepoint w)
        (w_ids w) n (w_caches w).
Definition set_begun (w : world) : world :=
  World (w_db w) (w_calls w) (w_now w) (w_now w) false None
        (w_ids w) (w_next_id w) (w_caches w).

(** The next call of the schedule. *)
Definition next_call (w : world) : fault * world :=
  match w_calls w with
  | [] => (NoFault, w)
  | c :: cs => (outcome c,
      World (w_db w) cs (w_now w + Z.max 0 (delay c)) (w_tx_now w) (w_aborted w)
            (w_savepoint w) (w_ids w) (w_next_id w) (w_caches w))
  end.

(** ** The monad *)
Inductive result (A : Type) := Ok (a : A) | Err (e : error) | Panic.
Arguments Ok {A} a.
Arguments Err {A} e.
Arguments Panic {A}.

Definition M (A : Type) : Type := world -> result A * world.

Definition ret {A} (a : A) : M A := fun w => (Ok a, w).
Definition fail {A} (e : error) : M A := fun w => (Err e, w).
Definition panic {A} : M A := fun w => (Panic, w).
Definition bind {A B} (m : M A) (f : A -> M B) : M B := fun w =>
  match m w with
  | (Ok a, w') => f a w'
  | (Err e, w') => (Err e, w')
  | (Panic, w') => (Panic, w')
  end.

Notation "'let!' x ':=' m 'in' k" := (bind m (fun x => k))
  (at level 200, x pattern, m at level 100, k at level 200, right associativity) : ledger_scope.
Notation "m ';;;' k" := (bind m (fun _ => k))
  (at level 100, k at level 200, right associativity) : ledger_scope.
#[global] Open Scope ledger_scope.

(** [if err != nil { return fmt.Errorf("ctx: %w", err) }] *)
Definition wrap {A} (ctx : string) (m : M A) : M A := fun w =>
  match m w with
  | (Err e, w') => (Err (Wrap ctx e), w')
  | r => r
  end.

(** Run [m] and look at its error instead of returning it; a panic is not an
    error and still unwinds. *)
Definition try {A} (m : M A) : M (error + A) := fun w =>
  match m w with
  | (Ok a, w') => (Ok (inr a), w')
  | (Err e, w') => (Ok (inl e), w')
  | (Panic, w') => (Panic, w')
  end.

Definition lift {A} (r : result A) : M A := fun w => (r, w).

(** A statement of the open transaction.  It sees the database and the
    transaction's start time, and either fails (with no effect, aborting the
    transaction) or answers and leaves a new database. *)
Definition in_failed_tx : error :=
  PgError "25P02" "current transaction is aborted, commands ignored until end of transaction block".

Definition stmt {A} (f : database -> Z -> error + (A * database)) : M A := fun w =>
  let '(o, w1) := next_call w in
  match o with
  | Fails i | LostAck i => (Err (infra_error i), set_aborted w1 true)
  | NoFault =>
      if w_aborted w1 then (Err in_failed_tx, w1)
      else match f (w_db w1) (w_tx_now w1) with
           | inl e => (Err e, set_aborted w1 true)
           | inr (a, d) => (Ok a, set_db w1 d)
           end
  end.

(** A read-only statement of the open transaction. *)
Definition query {A} (f : database -> Z -> A) : M A := stmt (fun d t => inr (f d t, d)).

(** A read on the connection pool, outside any transaction. *)
Definition pool_query {A} (f : database -> Z -> A) : M A := fun w =>
  let '(o, w1) := next_call w in
  match o with
  | Fails i | LostAck i => (Err (infra_error i), w1)
  | NoFault => (Ok (f (w_db w1) (w_now w1)), w1)
  end.

(** [row.Scan] on an empty result. *)
Definition scan_row {A} (m : M (option A)) : M A :=
  let! r := m in match r with Some a => ret a | None => fail ErrNoRows end.

(** SAVEPOINT / ROLLBACK TO / RELEASE. *)
Definition savepoint : M unit := fun w =>
  match stmt (fun d _ => inr (tt, d)) w with
  | (Ok tt, w') => (Ok tt, set_savepoint w' (Some (w_db w')))
  | r => r
  end.

Definition rollback_to_savepoint : M unit := fun w =>
  let '(o, w1) := next_call w in
  match o with
  | Fails i | LostAck i => (Err (infra_error i), set_aborted w1 true)
  | NoFault =>
      match w_savepoint w1 with
      | Some d => (Ok tt, set_aborted (set_db w1 d) false)
      | None => (Err (PgError "3B001" "savepoint does not exist"), set_aborted w1 true)
      end
  end.

Definition release_savepoint : M unit := fun w =>
  match stmt (fun d _ => inr (tt, d)) w with
  | (Ok tt, w') => (Ok tt, set_savepoint w' None)
  | r => r
  end.

(** [_, _ = m]: the error is dropped. *)
Definition ignore_error (m : M unit) : M unit :=
  let! _ := try m in ret tt.

(** [identifiers.NewV7]: the next identifier of the generator. *)
Definition NewV7 : M uuid := fun w =>
  (Ok (w_ids w (w_next_id w)), set_ids w (S (w_next_id w))).

(** [time.Now().UTC()]: the process and the server share one clock here. *)
Definition time_now : M Z := fun w => (Ok (w_now w), w).

(** The timer of the retry loop against [ctx.Done()]: a failing slot of the
    schedule is a context cancelled while waiting. *)
Definition wait_backoff : M unit := fun w =>
  let '(o, w1) := next_call w in
  match o with
  | NoFault => (Ok tt, w1)
  | _ => (Err (Wrap "cancelled during retry backoff" ContextErr), w1)
  end.

(** Indexing a Go slice: out of range panics. *)
Definition nth_or_panic {A} (l : list A) (i : nat) : M A :=
  match l !! i with Some a => ret a | None => panic end.

(** ** Sums over entries *)
Definition entries_of_tx (tx : uuid) (l : list entry_row) : list entry_row :=
  filter (fun e => e_transaction_id e = tx) l.
Definition entry_signed (e : entry_row) : Z := signed (e_direction e) (e_amount e).
Definition entry_delta (a : uuid) (e : entry_row) : Z :=
  if decide (e_account_id e = a) then entry_signed e else 0.
(** Credits minus debits of one account: [fn_verify_account_balance]'s
    computed balance. *)
Definition computed_balance (a : uuid) (l : list entry_row) : Z := sumZ (entry_delta a) l.
(** Credits minus debits of one transaction: zero when balanced. *)
Definition tx_net (tx : uuid) (l : list entry_row) : Z := sumZ entry_signed (entries_of_tx tx l).

(** The deferred constraint trigger of migration 000034: each inserted row has
    its transaction re-aggregated at commit. *)
Definition fn_ledger_entries_check_balanced (old new : database) : bool :=
  forallb (fun e => tx_net (e_transaction_id e) (ledger_entries new) =? 0)
          (drop (length (ledger_entries old)) (ledger_entries new)).

(** ** internal/platform/database DBSQL.WithTx *)
Definition commit {A} (before : database) (a : A) : M A := fun w =>
  let '(o, w1) := next_call w in
  let rolled_back e := (Err (Wrap "commit tx" e), set_db w1 before) in
  match o with
  | Fails i => rolled_back (infra_error i)
  | _ =>
      if w_aborted w1 then rolled_back (Plain "commit unexpectedly resulted in rollback")
      else if fn_ledger_entries_check_balanced before (w_db w1) then
        match o with
        | LostAck i => (Err (Wrap "commit tx" (infra_error i)), w1)
        | _ => (Ok a, w1)
        end
      else rolled_back (PgError "23514" "ledger_entries: transaction is not balanced")
  end.

Definition WithTx {A} (fn : M A) : M A := fun w =>
  let '(o, w1) := next_call w in
  match o with
  | Fails i | LostAck i => (Err (Wrap "begin tx" (infra_error i)), w1)
  | NoFault =>
      let w2 := set_begun w1 in
      match fn w2 with
      | (Ok a, w3) => commit (w_db w2) a w3
      | (Err e, w3) => (Err e, set_db w3 (w_db w2))
      | (Panic, w3) => (Panic, set_db w3 (w_db w2))
      end
  end.

(** ** Frames: what a computation may do to the database, whatever happens *)
Definition frames {A} (R : relation database) (m : M A) : Prop :=
  forall w r w', m w = (r, w') -> R (w_db w) (w_db w').
Notation reads := (frames eq).

Lemma next_call_db w : w_db (next_call w).2 = w_db w.
Proof. unfold next_call. by destruct (w_calls w). Qed.

Section frames_rules.
Context (R : relation database) `{!PreOrder R}.

Lemma frames_ret {A} (a : A) : frames R (ret a).
Proof. intros w r w' [= _ <-]. done. Qed.
Lemma frames_fail {A} e : frames R (fail e : M A).
Proof. intros w r w' [= _ <-]. done. Qed.
Lemma frames_panic {A} : frames R (panic : M A).
Proof. intros w r w' [= _ <-]. done. Qed.
Lemma frames_lift {A} (x : result A) : frames R (lift x).
Proof. intros w r w' [= _ <-]. done. Qed.

Lemma frames_bind {A B} (m : M A) (f : A -> M B) :
  frames R m -> (forall a, frames R (f a)) -> frames R (bind m f).
Proof.
  intros Hm Hf w r w' H. unfold bind in H. destruct (m w) as [[a|e|] w1] eqn:E.
  - etrans; [by eapply Hm|by eapply Hf].
  - injection H as <- <-. by eapply Hm.
  - injection H as <- <-. by eapply Hm.
Qed.

Lemma frames_wrap {A} c (m : M A) : frames R m -> frames R (wrap c m).
Proof.
  intros Hm w r w' H. unfold wrap in H. destruct (m w) as [[a|e|] w1] eqn:E;
    injection H as <- <-; by eapply Hm.
Qed.

Lemma frames_try {A} (m : M A) : frames R m -> frames R (try m).
Proof.
  intros Hm w r w' H. unfold try in H. destruct (m w) as [[a|e|] w1] eqn:E;
    injection H as <- <-; by eapply Hm.
Qed.

Lemma frames_stmt {A} (f : database -> Z -> error + (A * database)) :
  (forall d t a d', f d t = inr (a, d') -> R d d') -> frames R (stmt f).
Proof.
  intros Hf w r w' H. unfold stmt in H. pose proof (next_call_db w) as E.
  destruct (next_call w) as [o w1]. simpl in E. rewrite <- E.
  destruct o; [|injection H as <- <-; done..].
  destruct (w_aborted w1); [by injection H as <- <-|].
  destruct (f (w_db w1) (w_tx_now w1)) as [e|[a d]] eqn:Ef; injection H as <- <-; [done|].
  simpl. by eapply Hf.
Qed.

Lemma frames_query {A} (f : database -> Z -> A) : frames R (query f).
Proof. apply frames_stmt. intros d t a d' [= _ <-]. done. Qed.

Lemma frames_pool_query {A} (f : database -> Z -> A) : frames R (pool_query f).
Proof.
  intros w r w' H. unfold pool_query in H. pose proof (next_call_db w) as E.
  destruct (next_call w) as [o w1]. simpl in E. rewrite <- E.
  destruct o; by injection H as <- <-.
Qed.

Lemma frames_scan_row {A} (m : M (option A)) : frames R m -> frames R (scan_row m).
Proof.
  intros Hm. apply frames_bind; [done|]. intros [a|]; [apply frames_ret|apply frames_fail].
Qed.

Lemma frames_ignore_error (m : M unit) : frames R m -> frames R (ignore_error m).
Proof. intros Hm. apply frames_bind; [by apply frames_try|]. intros; apply frames_ret. Qed.

Lemma frames_NewV7 : frames R NewV7.
Proof. intros w r w' [= _ <-]. done. Qed.

Lemma frames_wait_backoff : frames R wait_backoff.
Proof.
  intros w r w' H. unfold wait_backoff in H. pose proof (next_call_db w) as E.
  destruct (next_call w) as [o w1]. simpl in E. rewrite <- E.
  destruct o; by injection H as <- <-.
Qed.

Lemma frames_time_now : frames R time_now.
Proof. intros w r w' [= _ <-]. done. Qed.

Lemma frames_nth {A} (l : list A) i : frames R (nth_or_panic l i).
Proof. unfold nth_or_panic. destruct (l !! i); [apply frames_ret|apply frames_panic]. Qed.

Lemma frames_release : frames R release_savepoint.
Proof.
  intros w r w' H. unfold release_savepoint in H.
  assert (Hq : frames R (stmt (fun d (_ : Z) => inr (tt, d)))).
  { apply frames_stmt. intros d t a d' [= _ <-]. done. }
  destruct (stmt _ w) as [[[]|e|] w1] eqn:E; injection H as <- <-;
    [change (w_db (set_savepoint w1 None)) with (w_db w1)|..]; by eapply Hq.
Qed.
End frames_rules.

#[export] Hint Resolve frames_ret frames_fail frames_panic frames_lift frames_query
  frames_pool_query frames_NewV7 frames_time_now frames_wait_backoff frames_nth
  frames_release : frame.

Lemma frames_mono {A} (R S : relation database) (m : M A) :
  (forall a b, R a b -> S a b) -> frames R m -> frames S m.
Proof. intros HRS Hm w r w' H. apply HRS. by eapply Hm. Qed.

Lemma reads_frames {A} (R : relation database) `{!Reflexive R} (m : M A) :
  reads m -> frames R m.
Proof. apply frames_mono. by intros ? ? ->. Qed.

(** Decompose a computation along its structure; what is left is for the
    hint databases [frame] (facts about named operations) or the caller. *)
Ltac frame_step :=
  match goal with
  | |- forall _, _ => intro
  | |- frames _ (bind _ _) => apply frames_bind; try typeclasses eauto
  | |- frames _ (wrap _ _) => apply frames_wrap; try typeclasses eauto
  | |- frames _ (try _) => apply frames_try; try typeclasses eauto
  | |- frames _ (scan_row _) => apply frames_scan_row; try typeclasses eauto
  | |- frames _ (ignore_error _) => apply frames_ignore_error; try typeclasses eauto
  | |- frames _ (ret _) => apply frames_ret; try typeclasses eauto
  | |- frames _ (fail _) => apply frames_fail; try typeclasses eauto
  | |- frames _ panic => apply frames_panic; try typeclasses eauto
  | |- frames _ (lift _) => apply frames_lift; try typeclasses eauto
  | |- frames _ (query _) => apply frames_query; try typeclasses eauto
  | |- frames _ (pool_query _) => apply frames_pool_query; try typeclasses eauto
  | |- frames _ NewV7 => apply frames_NewV7; try typeclasses eauto
  | |- frames _ (nth_or_panic _ _) => apply frames_nth; try typeclasses eauto
  | |- frames _ (match ?x with _ => _ end) => destruct x
  end.
Ltac frame := repeat (first [frame_step | solve [eauto with frame]]).

(** ** Inverting a successful run *)
Lemma bind_Ok {A B} (m : M A) (f : A -> M B) w b w' :
  bind m f w = (Ok b, w') -> exists a w1, m w = (Ok a, w1) /\ f a w1 = (Ok b, w').
Proof. unfold bind. destruct (m w) as [[a|e|] w1]; [eauto|done..]. Qed.

Lemma bind_Err {A B} (m : M A) (f : A -> M B) w e w' :
  bind m f w = (Err e, w') ->
  m w = (Err e, w') \/ exists a w1, m w = (Ok a, w1) /\ f a w1 = (Err e, w').
Proof.
  unfold bind. destruct (m w) as [[a|e'|] w1]; [eauto|by intros [= -> ->]; left|done].
Qed.

Lemma wrap_Ok {A} c (m : M A) w a w' : wrap c m w = (Ok a, w') -> m w = (Ok a, w').
Proof. unfold wrap. destruct (m w) as [[x|e|] w1]; by intros [= -> ->]. Qed.

Lemma stmt_Ok {A} (f : database -> Z -> error + (A * database)) w a w' :
  stmt f w = (Ok a, w') ->
  exists t, f (w_db w) t = inr (a, w_db w') /\ w_aborted w = false /\ w_aborted w' = false.
Proof.
  unfold stmt, next_call. destruct (w_calls w) as [|c cs].
  - destruct (w_aborted w) eqn:Ea; [done|].
    destruct (f _ _) as [e|[x d]] eqn:Ef; [done|]. intros [= -> <-]. simpl. eauto.
  - destruct (outcome c); [|done..]. cbn [w_aborted w_db w_tx_now].
    destruct (w_aborted w) eqn:Ea; [done|].
    destruct (f _ _) as [e|[x d]] eqn:Ef; [done|]. intros [= -> <-]. simpl. eauto.
Qed.

Lemma query_Ok {A} (f : database -> Z -> A) w a w' :
  query f w = (Ok a, w') -> exists t, a = f (w_db w) t /\ w_db w' = w_db w.
Proof. intros H. apply stmt_Ok in H as (t & H & _). injection H as <- <-. eauto. Qed.

Lemma pool_query_Ok {A} (f : database -> Z -> A) w a w' :
  pool_query f w = (Ok a, w') -> exists t, a = f (w_db w) t /\ w_db w' = w_db w.
Proof.
  unfold pool_query. pose proof (next_call_db w) as E. destruct (next_call w) as [o w1].
  simpl in E. destruct o; [|done..]. intros [= <- <-]. rewrite E. eauto.
Qed.

Lemma try_Ok {A} (m : M A) w r w' :
  try m w = (Ok r, w') ->
  (exists a, r = inr a /\ m w = (Ok a, w')) \/ (exists e, r = inl e /\ m w = (Err e, w')).
Proof. unfold try. destruct (m w) as [[a|e|] w1]; intros; simplify_eq; eauto. Qed.

Lemma scan_row_Ok {A} (m : M (option A)) w a w' :
  scan_row m w = (Ok a, w') -> m w = (Ok (Some a), w').
Proof.
  intros H. apply bind_Ok in H as ([x|] & w1 & Hm & H); [|done]. by injection H as -> ->.
Qed.

(** [inv_ok H]: invert a run that returned a value, step by step. *)
Ltac inv_ok H :=
  match type of H with
  | bind _ _ _ = (Ok _, _) =>
      let a := fresh "a" in let w := fresh "w" in
      let H1 := fresh "H" in let H2 := fresh "H" in
      apply bind_Ok in H as (a & w & H1 & H2); inv_ok H1; inv_ok H2
  | wrap _ _ _ = (Ok _, _) => apply wrap_Ok in H; inv_ok H
  | ret _ _ = (Ok _, _) => unfold ret in H; simplify_eq
  | lift _ _ = (Ok _, _) => unfold lift in H; simplify_eq
  | fail _ _ = (Ok _, _) => discriminate H
  | panic _ = (Ok _, _) => discriminate H
  | _ => idtac
  end.

(** ** Transactions: commit or leave no trace *)
Lemma WithTx_db {A} (fn : M A) w r w' :
  WithTx fn w = (r, w') ->
  (w_db w' = w_db w /\ forall a, r <> Ok a) \/
  exists a w1 w2, w_db w1 = w_db w /\ fn w1 = (Ok a, w2) /\ w_db w' = w_db w2 /\
    fn_ledger_entries_check_balanced (w_db w) (w_db w') = true /\
    (r = Ok a \/ exists i, r = Err (Wrap "commit tx" (infra_error i))).
Proof.
  unfold WithTx. pose proof (next_call_db w) as E0. destruct (next_call w) as [o w1]. simpl in E0.
  destruct o; [|intros [= <- <-]; by left..].
  destruct (fn (set_begun w1)) as [[a|e|] w3] eqn:Ef;
    [|intros [= <- <-]; left; simpl; by rewrite <- E0..].
  unfold commit. pose proof (next_call_db w3) as E3. destruct (next_call w3) as [o3 w4]. simpl in E3.
  intros H. simpl in H. rewrite <- E0.
  destruct o3; [|injection H as <- <-; by left|].
  - destruct (w_aborted w4); [injection H as <- <-; by left|].
    destruct (fn_ledger_entries_check_balanced _ _) eqn:Eb; injection H as <- <-; [|by left].
    right. exists a, (set_begun w1), w3. rewrite E3 in *. eauto 8.
  - destruct (w_aborted w4); [injection H as <- <-; by left|].
    destruct (fn_ledger_entries_check_balanced _ _) eqn:Eb; injection H as <- <-; [|by left].
    right. exists a, (set_begun w1), w3. rewrite E3 in *. eauto 8.
Qed.

(** An error of [WithTx] is one of its own, or the callback's, rolled back. *)
Lemma WithTx_Err {A} (fn : M A) w e w' :
  WithTx fn w = (Err e, w') ->
  (forall s, errors_is e s = false)
  \/ exists w1 w2, w_db w1 = w_db w /\ fn w1 = (Err e, w2) /\ w_db w' = w_db w.
Proof.
  assert (Hi : forall i s, errors_is (infra_error i) s = false) by (by intros [] ?).
  unfold WithTx. pose proof (next_call_db w) as E0. destruct (next_call w) as [o w1]. simpl in E0.
  destruct o; [|intros [= <- <-]; left; intros; simpl; apply Hi..].
  destruct (fn (set_begun w1)) as [[a|e'|] w3] eqn:Ef; [| |done].
  - unfold commit. destruct (next_call w3) as [o3 w4]. intros H. left. intros s.
    destruct o3; [|injection H as <- _; simpl; apply Hi|];
      (destruct (w_aborted w4); [by injection H as <- _|]);
      (destruct (fn_ledger_entries_check_balanced _ _); simplify_eq; simpl; try done; apply Hi).
  - intros [= <- <-]. right. exists (set_begun w1), w3. by rewrite <- E0.
Qed.
