(* ===== verification/TxRepo.v ===== *)
(** * ledger_transactions: services/ledger/internal/repository/ledger_transaction_repository.go

    The header table with its constraints (primary key, CHECK amount > 0, the
    two idempotency indexes, the currency trigger), the idempotency digest and
    conflict fingerprint, and the operations the posting path calls. *)
From Stdlib Require Import Ascii String.
From stdpp Require Import prelude gmap strings list sorting.
From S2P Require Import Prelude Decimal Errors Store.

(** ** crypto/hmac and crypto/sha256

    The functions themselves are parameters.  What the ledger relies on is
    collision resistance; theorems that need it say so as a hypothesis. *)
Class Hashing := {
  hmac_sha256 : string -> string -> string;   (* key, input *)
  sha256 : string -> string;
}.

(** internal/platform/security/crypto/digestring.go *)
Record DigestRing := MkDigestRing { ring_keys : gmap Z string; ring_current : Z }.

Definition Digest `{Hashing} (r : DigestRing) (input : string) : string * Z :=
  (hmac_sha256 (default EmptyString (ring_keys r !! ring_current r)) input, ring_current r).

(** [binary.BigEndian.PutUint32(buf, uint32(len))] *)
Definition byte_of (n : Z) : ascii := ascii_of_N (Z.to_N (n mod 256)).
Definition be32 (n : Z) : string :=
  String (byte_of (Z.shiftr n 24)) (String (byte_of (Z.shiftr n 16))
    (String (byte_of (Z.shiftr n 8)) (String (byte_of n) EmptyString))).
Definition uint32 (n : Z) : Z := n mod 4294967296.
Definition len (s : string) : Z := Z.of_nat (String.length s).
Definition length_prefixed (s : string) : string := be32 (uint32 (len s)) +:+ s.

Definition canonicalIdempotencyInput (scope : option string) (key : string) : string :=
  let s := default EmptyString scope in
  length_prefixed s +:+ length_prefixed key.

Section txrepo.
Context `{DEC : !Decimal} `{HASH : !Hashing}.

Definition conflictFingerprint (txType : string) (amount : dec) (currency : string) : string :=
  sha256 (length_prefixed txType +:+ length_prefixed (dec_string amount)
            +:+ length_prefixed currency).

(** [strings.Contains] *)
Definition strings_contains (s sub : string) : bool :=
  match String.index 0 sub s with Some _ => true | None => false end.

Definition isCurrencyConstraintError (e : error) : bool :=
  match as_pg_error e with
  | Some (c, m) => bool_decide (c = "P0001")
      && strings_contains m "account currency must match transaction currency"
  | None => false
  end.

Record InsertTransactionParams := {
  p_ID : uuid;
  p_IdempotencyKey : string;
  p_IdempotencyScope : option string;
  p_Type : string;
  p_Amount : dec;
  p_Currency : string;
  p_SourceAccountID : option uuid;
  p_DestinationAccountID : option uuid;
  p_ExternalRef : option string;
  p_Gateway : option string;
  p_RequestID : option string;
}.

(** *** The table's constraints *)

(** [fn_guard_ledger_transaction_currency] (migration 000039): a NULL side is
    not checked, a missing account counts as a mismatch. *)
Definition currency_matches (d : database) (account : option uuid) (currency : string) : bool :=
  match account with
  | None => true
  | Some a => match accounts d !! a with
              | Some row => bool_decide (a_currency row = currency)
              | None => false
              end
  end.

(** The unique indexes of 000001 (key, COALESCE(scope, '')) and 000028 (digest). *)
Definition same_identity (key : string) (scope : option string) (t : tx_row) : bool :=
  bool_decide (t_idempotency_key t = Some key)
  && bool_decide (default EmptyString (t_idempotency_scope t) = default EmptyString scope).
Definition same_digest (digest : string) (t : tx_row) : bool :=
  bool_decide (t_key_digest t = Some digest).
Definition any_tx (P : tx_row -> bool) (d : database) : bool :=
  existsb (fun kt => P kt.2) (map_to_list (ledger_transactions d)).

(** Casting the decimal's text to BIGINT. *)
Definition sql_bigint (a : dec) : error + Z :=
  match dec_bigint a with
  | Some z => inr z
  | None => inl (if dec_is_integer a then PgError "22003" "bigint out of range"
                 else PgError "22P02" "invalid input syntax for type bigint")
  end.

Definition new_tx_row (p : InsertTransactionParams) (amount : Z)
    (digest : string) (version : Z) (fingerprint : string) : tx_row :=
  {| t_idempotency_key := Some (p_IdempotencyKey p);
     t_idempotency_scope := p_IdempotencyScope p;
     t_type := p_Type p; t_status := "pending"; t_amount := amount;
     t_currency := p_Currency p;
     t_source_account_id := p_SourceAccountID p;
     t_destination_account_id := p_DestinationAccountID p;
     t_error := None; t_external_ref := p_ExternalRef p; t_gateway := p_Gateway p;
     t_request_id := p_RequestID p; t_key_digest := Some digest;
     t_key_version := Some version; t_fingerprint := Some fingerprint;
     t_closed_by := None; t_closed_reason := None |}.

Definition sql_insert_transaction (p : InsertTransactionParams)
    (digest : string) (version : Z) (fingerprint : string)
    (d : database) (_ : Z) : error + (unit * database) :=
  match sql_bigint (p_Amount p) with
  | inl e => inl e
  | inr amount =>
      if 3 <? len (p_Currency p) then inl (PgError "22001" "value too long for type character(3)")
      else if negb (currency_matches d (p_SourceAccountID p) (p_Currency p)) then
        inl (PgError "P0001" "source account currency must match transaction currency")
      else if negb (currency_matches d (p_DestinationAccountID p) (p_Currency p)) then
        inl (PgError "P0001" "destination account currency must match transaction currency")
      else if amount <=? 0 then
        inl (PgError "23514" "violates check constraint ledger_transactions_amount_check")
      else if bool_decide (is_Some (ledger_transactions d !! p_ID p))
           || any_tx (same_identity (p_IdempotencyKey p) (p_IdempotencyScope p)) d
           || any_tx (same_digest digest) d then
        inl (PgError "23505" "duplicate key value violates unique constraint")
      else inr (tt, with_transactions d
                      (<[p_ID p := new_tx_row p amount digest version fingerprint]>
                         (ledger_transactions d)))
  end.

(** *** Operations *)
Definition TransactionRepo_Insert (ring : DigestRing) (p : InsertTransactionParams) : M unit :=
  let '(digest, version) :=
    Digest ring (canonicalIdempotencyInput (p_IdempotencyScope p) (p_IdempotencyKey p)) in
  let fingerprint := conflictFingerprint (p_Type p) (p_Amount p) (p_Currency p) in
  let! r := try (stmt (sql_insert_transaction p digest version fingerprint)) in
  match r with
  | inl err =>
      if isCurrencyConstraintError err then
        fail (wrapf ErrCurrencyMismatch "currency constraint")
      else fail err
  | inr _ => ret tt
  end.

Definition set_status (status : string) (message : option error) (t : tx_row) : tx_row :=
  {| t_idempotency_key := t_idempotency_key t; t_idempotency_scope := t_idempotency_scope t;
     t_type := t_type t; t_status := status; t_amount := t_amount t;
     t_currency := t_currency t; t_source_account_id := t_source_account_id t;
     t_destination_account_id := t_destination_account_id t;
     t_error := message; t_external_ref := t_external_ref t; t_gateway := t_gateway t;
     t_request_id := t_request_id t; t_key_digest := t_key_digest t;
     t_key_version := t_key_version t; t_fingerprint := t_fingerprint t;
     t_closed_by := t_closed_by t; t_closed_reason := t_closed_reason t |}.

Definition TransactionRepo_UpdateStatus (id : uuid) (status : string)
    (errorMessage : option error) : M unit :=
  stmt (fun d _ =>
    if bool_decide (status ∈ ["pending"; "posted"; "failed"; "reversed"]) then
      inr (tt, with_transactions d
                 (alter (set_status status errorMessage) id (ledger_transactions d)))
    else inl (PgError "23514" "violates check constraint ledger_transactions_status_check")).

(** [LIMIT 1] of a filtered scan. *)
Definition first_tx (P : tx_row -> bool) (d : database) : option tx_row :=
  snd <$> list_find (fun t => P t = true) (snd <$> map_to_list (ledger_transactions d)).

Definition TransactionRepo_FindConflictOrDuplicate (ring : DigestRing) (key : string)
    (scope : option string) (txType : string) (amount : dec) (currency : string)
    : M (string * bool) :=
  let '(digest, _) := Digest ring (canonicalIdempotencyInput scope key) in
  let! byDigest := query (fun d _ => first_tx (same_digest digest) d) in
  let! found := match byDigest with
                | Some t => ret (Some t)
                | None => query (fun d _ => first_tx (fun t =>
                    bool_decide (t_idempotency_key t = Some key)
                    && bool_decide (t_idempotency_scope t = scope)) d)
                end in
  match found with
  | None => ret (EmptyString, false)
  | Some t =>
      let stored := default EmptyString (t_fingerprint t) in
      ret (t_status t,
           (0 <? len stored)
           && negb (bool_decide (stored = conflictFingerprint txType amount currency)))
  end.

Definition TransactionRepo_GetHeader (id : uuid) : M (string * string * dec * option uuid) :=
  let! r := try (scan_row (query (fun d _ => ledger_transactions d !! id))) in
  match r with
  | inl err => if is_no_rows err then fail (wrapf ErrOriginalNotFound "") 
               else fail (Wrap "get header" err)
  | inr t => ret (t_type t, t_status t, dec_of_Z (t_amount t), t_closed_by t)
  end.

(** ORDER BY id: uuid order is byte order, the order of the numbers. *)
Definition by_entry_id (a b : entry_row) : Prop := (e_id a <= e_id b)%N.
#[global] Instance by_entry_id_dec : RelDecision by_entry_id.
Proof. intros a b. unfold by_entry_id. apply _. Defined.

Definition TransactionRepo_GetEntries (id : uuid) : M (list entry_row) :=
  query (fun d _ => merge_sort by_entry_id (entries_of_tx id (ledger_entries d))).

(** SELECT DISTINCT leaves the order open; no caller depends on it. *)
Definition TransactionRepo_GetAccountIDs (id : uuid) : M (list uuid) :=
  pool_query (fun d _ => remove_dups (e_account_id <$> entries_of_tx id (ledger_entries d))).

Definition close_row (by_ : uuid) (reason : string) (t : tx_row) : tx_row :=
  let t' := set_status (if bool_decide (reason = "reversed") then "reversed" else t_status t)
                       (t_error t) t in
  {| t_idempotency_key := t_idempotency_key t'; t_idempotency_scope := t_idempotency_scope t';
     t_type := t_type t'; t_status := t_status t'; t_amount := t_amount t';
     t_currency := t_currency t'; t_source_account_id := t_source_account_id t';
     t_destination_account_id := t_destination_account_id t';
     t_error := t_error t'; t_external_ref := t_external_ref t'; t_gateway := t_gateway t';
     t_request_id := t_request_id t'; t_key_digest := t_key_digest t';
     t_key_version := t_key_version t'; t_fingerprint := t_fingerprint t';
     t_closed_by := Some by_; t_closed_reason := Some reason |}.

Definition closed_reasons : list string :=
  ["reversed"; "settled"; "cancelled"; "released"; "refunded"].

Definition TransactionRepo_CloseOriginal (originalID byTxID : uuid) (reason : string) : M Z :=
  wrap "close original" (stmt (fun d _ =>
    match ledger_transactions d !! originalID with
    | Some t =>
        match t_closed_by t with
        | Some _ => inr (0, d)                       (* closed_by_tx_id IS NULL fails *)
        | None =>
            if negb (bool_decide (reason ∈ closed_reasons)) then
              inl (PgError "23514" "violates check constraint closed_reason")
            else if any_tx (fun t => bool_decide (t_closed_by t = Some byTxID)) d then
              inl (PgError "23505" "duplicate key value violates unique constraint closed_by_tx_id")
            else if negb (bool_decide (is_Some (ledger_transactions d !! byTxID))) then
              inl (PgError "23503" "violates foreign key constraint closed_by_tx_id")
            else inr (1, with_transactions d
                           (<[originalID := close_row byTxID reason t]> (ledger_transactions d)))
        end
    | None => inr (0, d)
    end)).
End txrepo.
Arguments InsertTransactionParams {DEC}.
