(* ===== verification/Repos.v ===== *)
(** * Balances, entries and outbox: the tables a posting writes

    services/ledger/internal/repository/account_balance_repository.go,
    ledger_entry_repository.go, outbox_event_repository.go, keys.go, and the
    database functions and triggers behind them (migrations 000001, 000034,
    000039, 000049). *)
From stdpp Require Import prelude gmap strings list sorting.
From S2P Require Import Prelude Decimal Errors Events Store TxRepo.

Section repos.
Context `{DEC : !Decimal}.

(** model.AccountBalance (Version is not read by the posting path). *)
Record AccountBalance := {
  AccountID : uuid;
  ab_Currency : string;
  ab_Balance : dec;
  ab_Status : string;
  ab_Type : string;
  ab_AllowNegative : bool;
}.

(** model.EntryInstruction *)
Record EntryInstruction := {
  ei_AccountID : uuid;
  ei_Direction : Direction;
  ei_Amount : dec;
  ei_Note : string;
}.

(** model.OutboxEvent; the payload is kept as the event struct it encodes. *)
Record OutboxEvent := {
  AggregateType : string;
  AggregateID : uuid;
  EventType : string;
  Payload : payload;
}.

(** ** account_balances *)

(** account_balances JOIN accounts. *)
Definition balance_of (d : database) (id : uuid) : option AccountBalance :=
  match account_balances d !! id, accounts d !! id with
  | Some b, Some a =>
      Some {| AccountID := id; ab_Currency := a_currency a; ab_Balance := dec_of_Z (b_balance b);
              ab_Status := a_status a; ab_Type := a_type a;
              ab_AllowNegative := b_allow_negative b |}
  | _, _ => None
  end.

(** The rows WHERE account_id IN (ids), collected into a Go map. *)
Definition select_balances (d : database) (ids : list uuid) : gmap uuid AccountBalance :=
  list_to_map (omap (fun id => (id,.) <$> balance_of d id) ids).

(** FOR UPDATE: with one writer at a time the lock has no effect on the
    values read. *)
Definition BalanceRepo_LockBalances (ids : list uuid) : M (gmap uuid AccountBalance) :=
  match ids with
  | [] => ret ∅
  | _ => wrap "lock balances" (query (fun d _ => select_balances d ids))
  end.

Definition BalanceRepo_GetAccountFlags (ids : list uuid) : M (gmap uuid AccountBalance) :=
  match ids with
  | [] => ret ∅
  | _ => wrap "get account flags" (query (fun d _ => select_balances d ids))
  end.

Definition BalanceRepo_GetBalance (id : uuid) : M AccountBalance :=
  let! r := try (scan_row (pool_query (fun d _ => balance_of d id))) in
  match r with
  | inl err => if is_no_rows err then fail (wrapf ErrAccountNotFound "")
               else fail (Wrap "get balance" err)
  | inr ab => ret ab
  end.

(** keys.go: byte order of the 16 bytes is the order of the numbers. *)
Definition sortedDecimalKeys (values : gmap uuid dec) : list uuid :=
  merge_sort N.le (map_to_list values).*1.

(** CHECK (allow_negative OR balance >= 0) *)
Definition chk_balance_floor (b : balance_row) : bool := b_allow_negative b || (0 <=? b_balance b).

(** UPDATE account_balances SET balance = balance + delta RETURNING balance *)
Definition sql_add_delta (id : uuid) (delta : Z) (d : database) (_ : Z)
    : error + (option Z * database) :=
  match account_balances d !! id with
  | None => inr (None, d)
  | Some row =>
      let new := b_balance row + delta in
      let row' := {| b_balance := new; b_allow_negative := b_allow_negative row |} in
      if negb (in_int64 new) then inl (PgError "22003" "bigint out of range")
      else if negb (chk_balance_floor row') then
        inl (PgError "23514" "violates check constraint chk_balance_floor")
      else inr (Some new, with_balances d (<[id := row']> (account_balances d)))
  end.

Definition apply_system_delta (id : uuid) (delta : dec) : M dec :=
  if negb (dec_equal delta (dec_truncate delta)) then
    fail (Plain "apply system delta: internal invariant violated: non-integral delta")
  else
    let! r := try (scan_row (stmt (sql_add_delta id (dec_int_part delta)))) in
    match r with
    | inl err => if is_no_rows err then fail (wrapf ErrAccountNotFound "")
                 else fail (Wrap "apply system delta" err)
    | inr newBalance => ret (dec_of_Z newBalance)
    end.

Fixpoint apply_system_deltas_loop (ids : list uuid) (deltas : gmap uuid dec)
    (acc : gmap uuid dec) : M (gmap uuid dec) :=
  match ids with
  | [] => ret acc
  | id :: ids' =>
      let! b := apply_system_delta id (default dec_zero (deltas !! id)) in
      apply_system_deltas_loop ids' deltas (<[id := b]> acc)
  end.

Definition BalanceRepo_ApplySystemDeltas (deltas : gmap uuid dec) : M (gmap uuid dec) :=
  if bool_decide (size deltas = 0%nat) then ret ∅
  else apply_system_deltas_loop (sortedDecimalKeys deltas) deltas ∅.

(** UPDATE account_balances SET balance = CASE ... END WHERE account_id IN
    (...): the rows that exist are set, the constraint is checked on each. *)
Fixpoint sql_set_balances (new : list (uuid * Z)) (b : gmap uuid balance_row)
    : error + (Z * gmap uuid balance_row) :=
  match new with
  | [] => inr (0, b)
  | (id, z) :: new' =>
      match sql_set_balances new' b with
      | inl e => inl e
      | inr (n, b') =>
          match b' !! id with
          | None => inr (n, b')
          | Some row =>
              let row' := {| b_balance := z; b_allow_negative := b_allow_negative row |} in
              if chk_balance_floor row' then inr (n + 1, <[id := row']> b')
              else inl (PgError "23514" "violates check constraint chk_balance_floor")
          end
      end
  end.

Definition BalanceRepo_UpdateBalances (newBalances : gmap uuid dec) : M unit :=
  if bool_decide (size newBalances = 0%nat) then ret tt
  else
    let ids := sortedDecimalKeys newBalances in
    let bal id := default dec_zero (newBalances !! id) in
    if negb (forallb (fun id => dec_equal (bal id) (dec_truncate (bal id))) ids) then
      fail (Plain "update balances: internal invariant violated: non-integral balance")
    else
      let args := map (fun id => (id, dec_int_part (bal id))) ids in
      let! affected := wrap "update balances" (stmt (fun d _ =>
        match sql_set_balances args (account_balances d) with
        | inl e => inl e
        | inr (n, b) => inr (n, with_balances d b)
        end)) in
      if bool_decide (affected = Z.of_nat (length ids)) then ret tt
      else fail (Plain "balance update: expected rows").

(** ** ledger_entries *)
Definition maxEntriesBatch : nat := 50.

(** One element of the JSON array sent to the posting function. *)
Record postingEntry := {
  pe_ID : uuid;
  pe_AccountID : uuid;
  pe_Direction : Direction;
  pe_Amount : string;
  pe_BalanceAfter : string;
  pe_Note : string;
}.

Fixpoint posting_payload (entries : list EntryInstruction) (newBalances : gmap uuid dec)
    : M (list postingEntry) :=
  match entries with
  | [] => ret []
  | e :: es =>
      let! id := NewV7 in
      let! rest := posting_payload es newBalances in
      ret ({| pe_ID := id; pe_AccountID := ei_AccountID e; pe_Direction := ei_Direction e;
              pe_Amount := dec_string (ei_Amount e);
              pe_BalanceAfter := dec_string (default dec_zero (newBalances !! ei_AccountID e));
              pe_Note := ei_Note e |} :: rest)
  end.

Definition invalid_bigint : error := PgError "22P02" "invalid input syntax for type bigint".

(** The validation loop of [fn_post_ledger_entries_bulk]: casts, positive
    amounts, and the two running totals, each a BIGINT. *)
Fixpoint validate_posting (tx : uuid) (payload : list postingEntry) (v_debit v_credit : Z)
    : error + (list entry_row * Z * Z) :=
  match payload with
  | [] => inr ([], v_debit, v_credit)
  | p :: ps =>
      match bigint_of_text (pe_BalanceAfter p), bigint_of_text (pe_Amount p) with
      | Some after, Some amount =>
          if amount <=? 0 then
            inl (PgError "23514" "ledger posting: amount must be positive")
          else
            let v_debit' := match pe_Direction p with
                            | Debit => v_debit + amount | Credit => v_debit end in
            let v_credit' := match pe_Direction p with
                             | Debit => v_credit | Credit => v_credit + amount end in
            if negb (in_int64 v_debit' && in_int64 v_credit') then
              inl (PgError "22003" "bigint out of range")
            else
              match validate_posting tx ps v_debit' v_credit' with
              | inl e => inl e
              | inr (rows, vd, vc) =>
                  inr ({| e_id := pe_ID p; e_transaction_id := tx;
                          e_account_id := pe_AccountID p; e_direction := pe_Direction p;
                          e_amount := amount; e_balance_after := after;
                          e_note := pe_Note p |} :: rows, vd, vc)
              end
      | _, _ => inl invalid_bigint
      end
  end.

(** [fn_guard_ledger_entry_currency] (migration 000039). *)
Definition entry_currency_ok (d : database) (e : entry_row) : bool :=
  match ledger_transactions d !! e_transaction_id e, accounts d !! e_account_id e with
  | Some t, Some a => bool_decide (t_currency t = a_currency a)
  | _, _ => false
  end.

(** PRIMARY KEY (id) and UNIQUE (transaction_id, account_id, direction). *)
Definition entry_conflict (e e' : entry_row) : bool :=
  bool_decide (e_id e = e_id e')
  || (bool_decide (e_transaction_id e = e_transaction_id e')
      && bool_decide (e_account_id e = e_account_id e')
      && bool_decide (e_direction e = e_direction e')).

Fixpoint insert_entry_rows (rows : list entry_row) (d : database) : error + database :=
  match rows with
  | [] => inr d
  | e :: es =>
      if negb (entry_currency_ok d e) then
        inl (PgError "P0001" "ledger entry account currency must match transaction currency")
      else if existsb (entry_conflict e) (ledger_entries d) then
        inl (PgError "23505" "duplicate key value violates unique constraint")
      else insert_entry_rows es (with_entries d (ledger_entries d ++ [e]))
  end.

Definition fn_post_ledger_entries_bulk (tx : uuid) (payload : list postingEntry)
    (d : database) (_ : Z) : error + (Z * database) :=
  if bool_decide (entries_of_tx tx (ledger_entries d) <> []) then
    inl (PgError "23505" "ledger posting: transaction already has ledger entries")
  else if (length payload <? 1)%nat || (50 <? length payload)%nat then
    inl (PgError "22023" "ledger posting: entries count is outside [1,50]")
  else
    match validate_posting tx payload 0 0 with
    | inl e => inl e
    | inr (rows, v_debit, v_credit) =>
        if negb (v_debit =? v_credit) then
          inl (PgError "23514" "ledger posting: transaction is not balanced")
        else match insert_entry_rows rows d with
             | inl e => inl e
             | inr d' => inr (Z.of_nat (length payload), d')
             end
    end.

Definition EntryRepo_InsertEntries (txID : uuid) (entries : list EntryInstruction)
    (newBalances : gmap uuid dec) : M unit :=
  if bool_decide (entries = []) then ret tt
  else if (maxEntriesBatch <? length entries)%nat then fail (Plain "entries batch too large")
  else
    let! payload := posting_payload entries newBalances in
    let! inserted := wrap "post ledger entries"
                       (stmt (fn_post_ledger_entries_bulk txID payload)) in
    if bool_decide (inserted = Z.of_nat (length entries)) then ret tt
    else fail (Plain "post ledger entries: inserted entries, expected").

(** ** outbox_events *)
Definition maxOutboxBatch : nat := 50.

Fixpoint outbox_rows (events : list OutboxEvent) : M (list outbox_row) :=
  match events with
  | [] => ret []
  | e :: es =>
      let! id := NewV7 in
      let! rest := outbox_rows es in
      ret ({| o_id := id; o_aggregate_type := AggregateType e; o_aggregate_id := AggregateID e;
              o_event_type := EventType e; o_payload := Payload e |} :: rest)
  end.

Fixpoint insert_outbox_rows (rows : list outbox_row) (l : list outbox_row)
    : error + list outbox_row :=
  match rows with
  | [] => inr l
  | o :: os =>
      if existsb (fun o' => bool_decide (o_id o = o_id o')) l then
        inl (PgError "23505" "duplicate key value violates unique constraint outbox_events_pkey")
      else insert_outbox_rows os (l ++ [o])
  end.

Definition OutboxRepo_InsertEvents (events : list OutboxEvent) : M unit :=
  match events with
  | [] => ret tt
  | _ =>
      if (maxOutboxBatch <? length events)%nat then fail (Plain "outbox batch too large")
      else
        let! rows := outbox_rows events in
        wrap "batch insert outbox" (stmt (fun d _ =>
          match insert_outbox_rows rows (outbox_events d) with
          | inl e => inl e
          | inr l => inr (tt, with_outbox d l)
          end))
  end.
End repos.
Arguments AccountBalance {DEC}.
Arguments EntryInstruction {DEC}.
