(* ===== verification/AccountRepo.v ===== *)
(** * Account lookup: services/ledger/internal/repository/account_repository.go

    [AccountRepository] is the interface the processors are written against;
    its one law is that a lookup leaves the database alone.  The Go interface's
    optional currency-aware extensions (account_currency.go) are methods of the
    same class, behind a flag each.  [accountRepo] is the implementation, with
    its positive-only caches. *)
From Stdlib Require Import String.
From stdpp Require Import prelude gmap strings list.
From S2P Require Import Prelude Decimal Errors Store.

Class AccountRepository := {
  GetAccountID : uuid -> string -> M uuid;
  GetPocketAccountID : uuid -> string -> M uuid;
  GetAccountCurrency : uuid -> M string;
  GetSystemAccountID : string -> string -> string -> M uuid;
  GetMerchantAccountID : uuid -> string -> M uuid;
  (* repo.(currencyAccountRepository), repo.(currencyMerchantAccountRepository) *)
  currency_aware : bool;
  GetAccountIDByCurrency : uuid -> string -> string -> M uuid;
  GetPocketAccountIDByCurrency : uuid -> string -> string -> M uuid;
  merchant_currency_aware : bool;
  GetMerchantAccountIDByCurrency : uuid -> string -> string -> M uuid;
}.

(** The law of the interface. *)
Class ReadOnlyAccounts (repo : AccountRepository) : Prop := {
  GetAccountID_reads u t : reads (GetAccountID u t);
  GetPocketAccountID_reads u p : reads (GetPocketAccountID u p);
  GetAccountCurrency_reads a : reads (GetAccountCurrency a);
  GetSystemAccountID_reads t q c : reads (GetSystemAccountID t q c);
  GetMerchantAccountID_reads u t : reads (GetMerchantAccountID u t);
  GetAccountIDByCurrency_reads u t c : reads (GetAccountIDByCurrency u t c);
  GetPocketAccountIDByCurrency_reads u p c : reads (GetPocketAccountIDByCurrency u p c);
  GetMerchantAccountIDByCurrency_reads u t c : reads (GetMerchantAccountIDByCurrency u t c);
}.
#[export] Hint Resolve GetAccountID_reads GetPocketAccountID_reads GetAccountCurrency_reads
  GetSystemAccountID_reads GetMerchantAccountID_reads GetAccountIDByCurrency_reads
  GetPocketAccountIDByCurrency_reads GetMerchantAccountIDByCurrency_reads : frame.

(** ** Currency-aware lookups (processors/account_currency.go) *)
Section currency_aware.
Context `{REPO : AccountRepository}.

Definition userAccountID (userID : uuid) (accountType currency : string) : M uuid :=
  if bool_decide (currency <> EmptyString) then
    if currency_aware then GetAccountIDByCurrency userID accountType currency
    else fail (wrapf ErrCurrencyAccountMissing
                 "currency-aware user account resolver is unavailable")
  else GetAccountID userID accountType.

Definition userPocketAccountID (userID : uuid) (pocketCode currency : string) : M uuid :=
  if bool_decide (currency <> EmptyString) then
    if currency_aware then GetPocketAccountIDByCurrency userID pocketCode currency
    else fail (wrapf ErrCurrencyAccountMissing
                 "currency-aware pocket account resolver is unavailable")
  else GetPocketAccountID userID pocketCode.

Definition merchantAccountID (tenantID : uuid) (accountType currency : string) : M uuid :=
  if bool_decide (currency <> EmptyString) then
    if merchant_currency_aware then GetMerchantAccountIDByCurrency tenantID accountType currency
    else fail (wrapf ErrCurrencyAccountMissing
                 "currency-aware merchant account resolver is unavailable")
  else GetMerchantAccountID tenantID accountType.

Context `{!ReadOnlyAccounts REPO}.
Lemma userAccountID_reads u t c : reads (userAccountID u t c).
Proof. unfold userAccountID. frame. Qed.
Lemma userPocketAccountID_reads u p c : reads (userPocketAccountID u p c).
Proof. unfold userPocketAccountID. frame. Qed.
Lemma merchantAccountID_reads u t c : reads (merchantAccountID u t c).
Proof. unfold merchantAccountID. frame. Qed.
End currency_aware.
#[export] Hint Resolve userAccountID_reads userPocketAccountID_reads merchantAccountID_reads : frame.

(** ** accountRepo *)
Section accountRepo.
Context `{UT : UuidText}.

(** Rows of [accounts] with their ids, in an unspecified order. *)
Definition account_rows (d : database) : list (uuid * account_row) := map_to_list (accounts d).

(** ORDER BY CASE WHEN currency = 'IDR' THEN 0 ELSE 1 END, currency *)
Definition currency_key (r : account_row) : string :=
  (if bool_decide (a_currency r = "IDR") then "0" else "1") +:+ a_currency r.
Definition before (a b : uuid * account_row) : bool :=
  match String.compare (currency_key a.2) (currency_key b.2) with Gt => false | _ => true end.
Fixpoint first_by_currency (l : list (uuid * account_row)) : option (uuid * account_row) :=
  match l with
  | [] => None
  | a :: l' => match first_by_currency l' with
               | Some b => Some (if before a b then a else b)
               | None => Some a
               end
  end.

Definition owned_by (owner_type : string) (owner : uuid) (r : account_row) : bool :=
  bool_decide (a_owner_type r = owner_type) && bool_decide (a_owner_id r = Some owner).
Definition is_active (r : account_row) : bool := bool_decide (a_status r = "active").
Definition has_type (t : string) (r : account_row) : bool := bool_decide (a_type r = t).
Definition in_currency (c : string) (r : account_row) : bool := bool_decide (a_currency r = c).
Definition no_pocket (r : account_row) : bool := bool_decide (a_pocket_code r = None).
Definition in_pocket (p : string) (r : account_row) : bool :=
  bool_decide (a_pocket_code r = Some p).

Definition select_where (P : account_row -> bool) (d : database) : list (uuid * account_row) :=
  filter (fun ir => P ir.2 = true) (account_rows d).

(** The WHERE clauses. *)
Definition standard_account (owner_type : string) (owner : uuid) (t : string) r : bool :=
  owned_by owner_type owner r && has_type t r && no_pocket r && is_active r.
Definition pocket_account (owner : uuid) (p : string) r : bool :=
  owned_by "user" owner r && has_type "pocket" r && in_pocket p r && is_active r.
Definition system_account (t qualifier currency : string) r : bool :=
  bool_decide (a_owner_type r = "system") && has_type t r
  && bool_decide (default EmptyString (a_system_qualifier r) = qualifier)
  && in_currency currency r.

Definition sql_first_account (P : account_row -> bool) (d : database) (_ : Z) : option uuid :=
  fst <$> first_by_currency (select_where P d).
Definition sql_one_account (P : account_row -> bool) (d : database) (_ : Z) : option uuid :=
  fst <$> head (select_where P d).

(** sync.Map Load and Store on one of the caches. *)
Definition cached {K V : Type} (load : caches -> option V) (store : V -> caches -> caches)
    (miss : M V) : M V := fun w =>
  match load (w_caches w) with
  | Some v => (Ok v, w)
  | None => match miss w with
            | (Ok v, w') => (Ok v, set_caches w' (store v (w_caches w')))
            | r => r
            end
  end.

(** QueryRowContext(...).Scan(&id), with the not-found case of each lookup. *)
Definition lookup_id (q : database -> Z -> option uuid) (not_found what : string) : M uuid :=
  let! r := try (scan_row (pool_query q)) in
  match r with
  | inl err => if is_no_rows err then fail (wrapf ErrAccountNotFound not_found)
               else fail (Wrap what err)
  | inr id => ret id
  end.

Definition load_user k (c : caches) := userAccountCache c !! k.
Definition store_user k (id : uuid) (c : caches) : caches :=
  Caches (systemAccountCache c) (<[k := id]> (userAccountCache c))
         (currencyCache c) (merchantAccountCache c).
Definition load_system k (c : caches) := systemAccountCache c !! k.
Definition store_system k (id : uuid) (c : caches) : caches :=
  Caches (<[k := id]> (systemAccountCache c)) (userAccountCache c)
         (currencyCache c) (merchantAccountCache c).
Definition load_currency k (c : caches) := currencyCache c !! k.
Definition store_currency k (v : string) (c : caches) : caches :=
  Caches (systemAccountCache c) (userAccountCache c)
         (<[k := v]> (currencyCache c)) (merchantAccountCache c).
Definition load_merchant k (c : caches) := merchantAccountCache c !! k.
Definition store_merchant k (id : uuid) (c : caches) : caches :=
  Caches (systemAccountCache c) (userAccountCache c)
         (currencyCache c) (<[k := id]> (merchantAccountCache c)).

Definition accountRepo_GetAccountID (userID : uuid) (accountType : string) : M uuid :=
  let key := uuid_string userID +:+ ":" +:+ accountType +:+ ":" in
  cached (K:=string) (load_user key) (store_user key)
    (lookup_id (sql_first_account (standard_account "user" userID accountType))
       "user type" "get account id").

Definition accountRepo_GetAccountIDByCurrency (userID : uuid) (accountType currency : string)
    : M uuid :=
  let key := uuid_string userID +:+ ":" +:+ accountType +:+ ":" +:+ currency in
  cached (K:=string) (load_user key) (store_user key)
    (lookup_id (sql_one_account (fun r =>
         standard_account "user" userID accountType r && in_currency currency r))
       "user type currency" "get account id by currency").

Definition accountRepo_GetPocketAccountID (userID : uuid) (pocketCode : string) : M uuid :=
  let key := uuid_string userID +:+ ":pocket:" +:+ pocketCode in
  cached (K:=string) (load_user key) (store_user key)
    (lookup_id (sql_one_account (pocket_account userID pocketCode))
       "user pocket" "get pocket account id").

Definition accountRepo_GetPocketAccountIDByCurrency (userID : uuid)
    (pocketCode currency : string) : M uuid :=
  let key := uuid_string userID +:+ ":pocket:" +:+ pocketCode +:+ ":" +:+ currency in
  cached (K:=string) (load_user key) (store_user key)
    (lookup_id (sql_one_account (fun r =>
         pocket_account userID pocketCode r && in_currency currency r))
       "user pocket currency" "get pocket account id by currency").

Definition accountRepo_GetAccountCurrency (accountID : uuid) : M string :=
  cached (K:=uuid) (load_currency accountID) (store_currency accountID)
    (let! r := try (scan_row (pool_query (fun d _ => a_currency <$> accounts d !! accountID))) in
     match r with
     | inl err => if is_no_rows err then fail (wrapf ErrAccountNotFound EmptyString)
                  else fail (Wrap "get account currency" err)
     | inr c => ret c
     end).

Definition accountRepo_GetSystemAccountID (accountType qualifier currency : string) : M uuid :=
  let key := accountType +:+ ":" +:+ qualifier +:+ ":" +:+ currency in
  cached (K:=string) (load_system key) (store_system key)
    (lookup_id (sql_one_account (system_account accountType qualifier currency))
       "system account type qualifier currency" "get system account id").

Definition accountRepo_GetMerchantAccountID (tenantID : uuid) (accountType : string) : M uuid :=
  let key := uuid_string tenantID +:+ ":" +:+ accountType in
  cached (K:=string) (load_merchant key) (store_merchant key)
    (lookup_id (sql_first_account (standard_account "merchant" tenantID accountType))
       "merchant tenant type" "get merchant account id").

Definition accountRepo_GetMerchantAccountIDByCurrency (tenantID : uuid)
    (accountType currency : string) : M uuid :=
  let key := uuid_string tenantID +:+ ":" +:+ accountType +:+ ":" +:+ currency in
  cached (K:=string) (load_merchant key) (store_merchant key)
    (lookup_id (sql_one_account (fun r =>
         standard_account "merchant" tenantID accountType r && in_currency currency r))
       "merchant tenant type currency" "get merchant account id by currency").

Lemma cached_reads {K V} load (store : V -> caches -> caches) (miss : M V) :
  reads miss -> reads (cached (K:=K) load store miss).
Proof.
  intros Hm w r w' H. unfold cached in H. destruct (load (w_caches w)); [by injection H as _ <-|].
  destruct (miss w) as [[v|e|] w1] eqn:E; injection H as <- <-; by eapply Hm in E.
Qed.

Lemma lookup_id_reads q nf what : reads (lookup_id q nf what).
Proof. unfold lookup_id. frame. Qed.

#[export] Instance accountRepo : AccountRepository := {|
  GetAccountID := accountRepo_GetAccountID;
  GetPocketAccountID := accountRepo_GetPocketAccountID;
  GetAccountCurrency := accountRepo_GetAccountCurrency;
  GetSystemAccountID := accountRepo_GetSystemAccountID;
  GetMerchantAccountID := accountRepo_GetMerchantAccountID;
  currency_aware := true;
  GetAccountIDByCurrency := accountRepo_GetAccountIDByCurrency;
  GetPocketAccountIDByCurrency := accountRepo_GetPocketAccountIDByCurrency;
  merchant_currency_aware := true;
  GetMerchantAccountIDByCurrency := accountRepo_GetMerchantAccountIDByCurrency;
|}.

#[export] Instance accountRepo_read_only : ReadOnlyAccounts accountRepo.
Proof.
  split; intros; apply cached_reads; try apply lookup_id_reads. frame.
Qed.
End accountRepo.
