(* ===== verification/Fee.v ===== *)
(** * Fees: pricing rules and single-use quotes

    services/ledger/internal/feepolicy/{feepolicy,quote}.go over
    services/ledger/internal/repository/fee_repository.go. *)
From stdpp Require Import prelude gmap strings list.
From S2P Require Import Prelude Decimal Errors Store TxRepo.

Section fee.
Context `{DEC : !Decimal} `{UT : !UuidText}.

(** ** fee_repository.go *)

(** [ref LIKE 'prefix%'] *)
Definition has_prefix (p s : string) : bool := String.prefix p s.
Definition ref_type (ref : string) : string :=
  if has_prefix "payin:" ref then "payin"
  else if has_prefix "payout:" ref then "payout"
  else if has_prefix "tx:" ref then "transaction" else "legacy".

(** consumed_at IS NULL AND expires_at > now() *)
Definition quote_open (now : Z) (q : quote_row) : bool :=
  bool_decide (q_consumed_at q = None) && (now <? q_expires_at q).
Definition consumed_by (type ref : string) (q : quote_row) : bool :=
  bool_decide (q_consumed_by_type q = type) && bool_decide (q_consumed_by_ref q = Some ref).
Definition quote_matches (userID : uuid) (txType currency : string) (amount : Z)
    (q : quote_row) : bool :=
  bool_decide (q_user_id q = userID) && bool_decide (q_transaction_type q = txType)
  && bool_decide (q_currency q = currency) && (q_amount q =? amount).

Definition consume_row (now : Z) (ref : string) (q : quote_row) : quote_row :=
  {| q_user_id := q_user_id q; q_transaction_type := q_transaction_type q;
     q_gateway := q_gateway q; q_currency := q_currency q; q_amount := q_amount q;
     q_fee_amount := q_fee_amount q; q_fee_gateway := q_fee_gateway q;
     q_expires_at := q_expires_at q;
     q_consumed_at := Some (default now (q_consumed_at q));
     q_consumed_by_ref := Some ref; q_consumed_by_type := ref_type ref |}.

Definition FeeRepo_GetQuoteWithGateway (quoteID userID : uuid)
    : M (dec * dec * string * string) :=
  scan_row (pool_query (fun d now =>
    q ← fee_quotes d !! quoteID;
    if bool_decide (q_user_id q = userID) && quote_open now q then
      Some (dec_of_Z (q_amount q), dec_of_Z (q_fee_amount q), q_fee_gateway q, q_gateway q)
    else None)).

(** The UPDATE of tryConsumeFeeQuoteQuery. *)
Definition sql_consume_quote (quoteID userID : uuid) (txType currency : string) (amount : dec)
    (ref : string) (d : database) (now : Z) : error + (option (Z * string) * database) :=
  match sql_bigint amount with
  | inl e => inl e
  | inr z =>
      match fee_quotes d !! quoteID with
      | Some q =>
          if quote_matches userID txType currency z q
             && (quote_open now q || consumed_by (ref_type ref) ref q) then
            inr (Some (q_fee_amount q, q_fee_gateway q),
                 with_quotes d (<[quoteID := consume_row now ref q]> (fee_quotes d)))
          else inr (None, d)
      | None => inr (None, d)
      end
  end.

Definition FeeRepo_TryConsumeQuote (quoteID userID : uuid) (txType currency : string)
    (amount : dec) (ref : string) : M (dec * string) :=
  let! r := scan_row (stmt (sql_consume_quote quoteID userID txType currency amount ref)) in
  ret (dec_of_Z r.1, r.2).

Definition FeeRepo_QuoteExists (quoteID userID : uuid) : M bool :=
  let! r := try (scan_row (query (fun d now =>
    q ← fee_quotes d !! quoteID;
    if bool_decide (q_user_id q = userID) && quote_open now q then Some tt else None))) in
  match r with
  | inl err => if is_no_rows err then ret false else fail (Wrap "check quote exists" err)
  | inr _ => ret true
  end.

Definition FeeRepo_ValidateConsumedPayinQuote (quoteID userID : uuid)
    (txType gateway currency : string) (amount fee : dec) (feeGateway ref : string) : M unit :=
  let! r := scan_row (stmt (fun d _ =>
    match sql_bigint amount, sql_bigint fee with
    | inl e, _ | _, inl e => inl e
    | inr za, inr zf =>
        inr (q ← fee_quotes d !! quoteID;
             if quote_matches userID txType currency za q
                && bool_decide (q_gateway q = gateway) && (q_fee_amount q =? zf)
                && bool_decide (q_fee_gateway q = feeGateway)
                && bool_decide (is_Some (q_consumed_at q)) && consumed_by "payin" ref q
             then Some tt else None, d)
    end)) in ret tt.

(** resolveFeeRuleQuery: enabled rules of the type and currency, for this
    user or everyone, this gateway or any; the most specific first. *)
Definition rule_applies (txType currency : string) (userID : uuid) (gateway : string)
    (r : fee_rule_row) : bool :=
  r_enabled r && bool_decide (r_tx_type r = txType) && bool_decide (r_currency r = currency)
  && (bool_decide (r_user_id r = Some userID) || bool_decide (r_user_id r = None))
  && (bool_decide (r_gateway r = gateway) || bool_decide (r_gateway r = EmptyString)).
Definition rule_rank (r : fee_rule_row) : nat :=
  (if bool_decide (is_Some (r_user_id r)) then 2 else 0)
  + (if bool_decide (r_gateway r <> EmptyString) then 1 else 0).
Fixpoint best_rule (l : list fee_rule_row) : option fee_rule_row :=
  match l with
  | [] => None
  | r :: l' => match best_rule l' with
               | Some r' => Some (if (rule_rank r <? rule_rank r')%nat then r' else r)
               | None => Some r
               end
  end.
Definition FeeRepo_ResolveRule (txType currency : string) (userID : uuid) (gateway : string)
    : M (Z * Z * string) :=
  scan_row (pool_query (fun d _ =>
    r ← best_rule (filter (fun r => rule_applies txType currency userID gateway r = true)
                          (fee_rules d));
    Some (r_flat_minor_units r, r_percent_basis_pts r, r_fee_gateway r))).

(** ** feepolicy.go: Resolve *)
Definition Resolve (userID : uuid) (txType gateway currency : string) (amount : dec)
    : M (option (dec * string)) :=
  if bool_decide (currency = EmptyString) then ret None
  else
    let! r := try (FeeRepo_ResolveRule txType currency userID gateway) in
    match r with
    | inl _ => ret None
    | inr (flat, bps, ruleFeeGateway) =>
        let fee := dec_of_Z flat in
        let fee := if 0 <? bps then
                     dec_add fee (dec_truncate
                       (dec_div (dec_mul amount (dec_of_Z bps)) (dec_of_Z 10000)))
                   else fee in
        if negb (dec_is_positive fee) || dec_ge fee amount then ret None
        else ret (Some (fee, if bool_decide (ruleFeeGateway = EmptyString)
                             then "platform" else ruleFeeGateway))
    end.

(** ** quote.go *)
Record Quote := {
  quote_Amount : dec; quote_FeeAmount : dec; quote_FeeGateway : string; quote_Gateway : string
}.

Definition GetQuote (quoteID userID : uuid) : M Quote :=
  let! r := try (FeeRepo_GetQuoteWithGateway quoteID userID) in
  match r with
  | inl err => if is_no_rows err then fail ErrQuoteExpired_ else fail err
  | inr (amount, feeAmount, feeGateway, gateway) =>
      ret {| quote_Amount := amount; quote_FeeAmount := feeAmount;
             quote_FeeGateway := feeGateway; quote_Gateway := gateway |}
  end.

Definition ConsumeQuote (quoteID userID : uuid) (txType currency : string) (amount : dec)
    (ref : string) : M (dec * string) :=
  let! r := try (FeeRepo_TryConsumeQuote quoteID userID txType currency amount ref) in
  match r with
  | inr feeAndGateway => ret feeAndGateway
  | inl err =>
      if negb (is_no_rows err) then fail err
      else
        let! exists_ := FeeRepo_QuoteExists quoteID userID in
        if exists_ : bool then fail ErrQuoteMismatch_ else fail ErrQuoteExpired_
  end.

Definition ValidateConsumedPayinQuote (quoteID userID : uuid)
    (txType gateway currency : string) (amount fee : dec) (feeGateway ref : string) : M unit :=
  let! r := try (FeeRepo_ValidateConsumedPayinQuote quoteID userID txType gateway currency
                   amount fee feeGateway ref) in
  match r with
  | inl err => if is_no_rows err then fail ErrQuoteMismatch_ else fail err
  | inr _ => ret tt
  end.
End fee.

(** ** Currency policy: services/ledger/internal/ledger/fx/service.go *)
Section currency_policy.
(** [strings.HasSuffix] / [strings.TrimSuffix] *)
Definition HasSuffix (s suffix : string) : bool :=
  let n := String.length s in let k := String.length suffix in
  (k <=? n)%nat && bool_decide (String.substring (n - k) k s = suffix).
Definition TrimSuffix (s suffix : string) : string :=
  if HasSuffix s suffix then
    String.substring 0 (String.length s - String.length suffix) s
  else s.

Fixpoint all_upper_letters (s : string) : bool :=
  match s with
  | EmptyString => true
  | String c s' => let n := Ascii.N_of_ascii c in
                   ((65 <=? n) && (n <=? 90))%N && all_upper_letters s'
  end.

Definition canonicalCode (code : string) : result string :=
  if negb (String.length code =? 3)%nat || negb (bool_decide (code = ToUpper code)) then
    Err (wrapf ErrCurrencyInvalid "currency must be exactly three uppercase letters")
  else if negb (all_upper_letters code) then
    Err (wrapf ErrCurrencyInvalid "currency must be exactly three uppercase letters")
  else Ok code.

(** The row, with its operations JSON decoded. *)
Definition loadCurrencyPolicy (code : string) : M (currency_row * gmap string bool) :=
  let! r := try (scan_row (query (fun d _ => currencies d !! code))) in
  match r with
  | inl err => if is_no_rows err then fail (wrapf ErrCurrencyInvalid EmptyString)
               else fail (Wrap "load currency policy" err)
  | inr row => match c_operations row with
               | None => fail (Wrap "decode currency policy" (Plain "json"))
               | Some ops => ret (row, ops)
               end
  end.

Definition allowed (ops : gmap string bool) (op : string) : bool := default false (ops !! op).

Definition validateCurrencyPolicy (code operation : string) : M unit :=
  let! code := lift (canonicalCode code) in
  let! policy := loadCurrencyPolicy code in
  let status := c_status policy.1 in
  let inFlight := HasSuffix operation "_inflight" in
  let policyOperation := TrimSuffix operation "_inflight" in
  if bool_decide (policyOperation = "statement_read") then
    if bool_decide (status = "draft") then fail (wrapf ErrCurrencyDisabled "status")
    else if negb (allowed policy.2 "statement") then
      fail (wrapf ErrCurrencyOperationDisabled "operation=statement")
    else ret tt
  else if inFlight then
    if bool_decide (status ∈ ["active"; "intake_paused"; "disabled"]) then ret tt
    else fail (wrapf ErrCurrencyDisabled "status")
  else if negb (c_enabled policy.1)
          || (negb (bool_decide (status = "active"))
              && negb (bool_decide (status = "intake_paused"))) then
    fail (wrapf ErrCurrencyDisabled "status")
  else if bool_decide (status = "intake_paused")
          && (bool_decide (policyOperation = "account_enable")
              || bool_decide (policyOperation = "topup")) then
    fail (wrapf ErrCurrencyDisabled "status operation")
  else if bool_decide (policyOperation <> EmptyString)
          && negb (allowed policy.2 policyOperation) then
    fail (wrapf ErrCurrencyOperationDisabled "operation")
  else ret tt.

Definition ValidateCurrencyTx := validateCurrencyPolicy.
End currency_policy.
