(* ===== verification/Processors.v ===== *)
(** * What every transaction type shares

    services/ledger/internal/processors/processors.go and validators.go,
    services/ledger/internal/metadata/meta.go: commands, metadata, the inline
    fee, the lifecycle pre-check, the validator chain, the posted event, the
    [TxProcessor] interface and the registry. *)
From stdpp Require Import prelude gmap strings list.
From S2P Require Import Prelude Decimal Errors Currency Events Store TxRepo Repos AccountRepo.

(** ** constants *)
Definition AccountTypeCash : string := "cash".
Definition AccountTypeHold : string := "hold".
Definition AccountTypePending : string := "pending".
Definition AccountTypeFee : string := "fee".
Definition AccountTypeSettlement : string := "settlement".
Definition AccountTypeEscrow : string := "escrow".
Definition AccountTypeAdjustment : string := "adjustment".
Definition AccountTypeChargeback : string := "chargeback".
Definition AccountTypeFrozen : string := "frozen".
Definition AccountTypeConfiscated : string := "confiscated".
Definition AccountTypeSuspense : string := "suspense".
Definition AccountTypeFxConversion : string := "fx_conversion".
Definition AccountTypeInterestExpense : string := "interest_expense".
Definition AccountTypeAccruedInterestPayable : string := "accrued_interest_payable".

(** ** Metadata: map[string]any *)
Inductive meta_value :=
  | MString (s : string)
  | MFloat64 (bits : Z)
  | MInt (z : Z)
  | MInt64 (z : Z)
  | MBool (b : bool)
  | MNil
  | MOther.                 (* any other dynamic type *)
Notation metadata := (gmap string meta_value).

Section processors.
Context `{DEC : !Decimal} `{UT : !UuidText}.

Definition MetaString (meta : metadata) (key : string) : error + string :=
  match meta !! key with
  | None => inl (Plain "missing metadata key")
  | Some (MString s) => inr s
  | Some _ => inl (Plain "metadata key is not a string")
  end.

Definition MetaUUID (meta : metadata) (key : string) : error + uuid :=
  match MetaString meta key with
  | inl e => inl e
  | inr s => match uuid_parse s with
             | Some id => inr id
             | None => inl (Wrap "metadata key invalid UUID" (Plain "uuid.Parse"))
             end
  end.

Definition MetaDecimal (meta : metadata) (key : string) : error + dec :=
  match meta !! key with
  | None => inl (Plain "missing metadata key")
  | Some (MString s) =>
      match dec_of_string s with
      | Some d => inr d
      | None => inl (Wrap "metadata key invalid decimal" (Plain "NewFromString"))
      end
  | Some (MFloat64 b) => inr (dec_of_float b)
  | Some (MInt z) | Some (MInt64 z) => inr (dec_of_Z z)
  | Some _ => inl (Plain "metadata key unsupported type")
  end.

(** [s, _ := MetaString(...)]: the zero value on error. *)
Definition MetaString_ (meta : metadata) (key : string) : string :=
  match MetaString meta key with inr s => s | inl _ => EmptyString end.

(** ** Commands *)
Record Command := {
  IdempotencyKey : string;
  IdempotencyScope : string;
  Type_ : string;
  Amount : dec;
  UserID : uuid;
  TargetUserID : uuid;
  PocketCode : string;
  Currency_ : string;
  ReferenceID : uuid;
  Metadata : metadata;
  QuoteID : string;
  MerchantTenantID : uuid;
}.

Record ResolvedAccounts := {
  Ordered : list uuid;
  ra_Source : uuid;
  ra_Destination : uuid;
}.

Record ResolvedCommand := {
  rc_Command : Command;
  AccountIDs : list uuid;
  rc_Currency : string;
  rc_Source : uuid;
  rc_Destination : uuid;
}.

Definition twoLeg (source destination : uuid) (extra : list uuid) : ResolvedAccounts :=
  {| Ordered := source :: destination :: extra; ra_Source := source;
     ra_Destination := destination |}.

(** The account of one index of AccountIDs. *)
Definition account (cmd : ResolvedCommand) (i : nat) : M uuid := nth_or_panic (AccountIDs cmd) i.

(** ** Inline fee *)
Definition resolveInlineFee `{REPO : AccountRepository} (cmd : Command) (currency : string)
    : M (option (uuid * dec)) :=
  match Metadata cmd !! "fee_amount" with
  | None | Some MNil => ret None
  | Some raw =>
      match MetaDecimal (Metadata cmd) "fee_amount" with
      | inl _ => fail (wrapf ErrValidation "fee_amount is not a valid decimal")
      | inr fee =>
          if dec_is_zero fee then ret None
          else if dec_is_negative fee then fail (wrapf ErrValidation "fee_amount must be positive")
          else
            match MetaString (Metadata cmd) "fee_gateway" with
            | inr feeGateway =>
                if empty feeGateway then
                  fail (wrapf ErrValidation "fee_gateway is required when fee_amount is set")
                else
                  let! feeID := wrap "inline fee: fee"
                    (GetSystemAccountID AccountTypeFee feeGateway currency) in
                  ret (Some (feeID, fee))
            | inl _ => fail (wrapf ErrValidation "fee_gateway is required when fee_amount is set")
            end
      end
  end.

(** The processors' use of it: append the fee account unless it is Nil. *)
Definition with_inline_fee `{REPO : AccountRepository} (name : string) (cmd : Command)
    (currency : string) (resolved : ResolvedAccounts) : M (ResolvedAccounts * string) :=
  let! fee := wrap name (resolveInlineFee cmd currency) in
  match fee with
  | Some (feeID, _) =>
      if bool_decide (feeID <> uuid_Nil) then
        ret ({| Ordered := Ordered resolved ++ [feeID]; ra_Source := ra_Source resolved;
                ra_Destination := ra_Destination resolved |}, currency)
      else ret (resolved, currency)
  | None => ret (resolved, currency)
  end.

Definition requireGateway (cmd : Command) (processor : string) : M string :=
  match MetaString (Metadata cmd) "gateway" with
  | inr gw => if empty gw then fail (wrapf ErrValidation "requires metadata 'gateway'") else ret gw
  | inl _ => fail (wrapf ErrValidation "requires metadata 'gateway'")
  end.

Definition suspenseQualifier (gateway : string) : string := "suspense:" +:+ gateway.

Definition hasFee (cmd : ResolvedCommand) : option (uuid * dec) :=
  if (length (AccountIDs cmd) <? 3)%nat || bool_decide (size (Metadata (rc_Command cmd)) = 0%nat)
  then None
  else
    match Metadata (rc_Command cmd) !! "fee_amount" with
    | None | Some MNil => None
    | Some raw =>
        match MetaDecimal (Metadata (rc_Command cmd)) "fee_amount" with
        | inl _ => None
        | inr fee =>
            if dec_is_zero fee || dec_is_negative fee then None
            else match last (AccountIDs cmd) with Some feeID => Some (feeID, fee) | None => None end
        end
    end.

(** ** Lifecycle pre-checks *)
Definition validateOriginalForClose (referenceID : uuid) (requiredOriginalType : string)
    (amount : dec) : M unit :=
  let! (origType, status, origAmount, closedBy) :=
    wrap "validate original" (TransactionRepo_GetHeader referenceID) in
  if negb (bool_decide (origType = requiredOriginalType)) then
    fail (NewBizErr ErrOriginalTypeMismatch "expected original transaction of type")
  else if bool_decide (is_Some closedBy) then
    fail (NewBizErr ErrAlreadyClosed "transaction was already closed")
  else if negb (bool_decide (status = "posted")) then
    fail (NewBizErr ErrNotReversible "original status must be 'posted'")
  else if negb (dec_equal origAmount amount) then
    fail (NewBizErr ErrLifecycleAmountMismatch "amount does not match original amount")
  else ret tt.

Definition requireReferenceID (cmd : Command) (processorType : string) : M unit :=
  if bool_decide (ReferenceID cmd = uuid_Nil) then
    fail (wrapf ErrValidation "requires reference_id (the original transaction)")
  else ret tt.

(** ** The posted event *)
Definition buildEntrySummaries (entries : list EntryInstruction) : list EntrySummary :=
  map (fun e => MkEntrySummary (ei_AccountID e) (direction_text (ei_Direction e))
                               (dec_string (ei_Amount e))) entries.

Definition non_nil (u : uuid) : option uuid :=
  if bool_decide (u = uuid_Nil) then None else Some u.

Definition right {A B : Type} (r : A + B) : option B :=
  match r with inr b => Some b | inl _ => None end.

Definition with_topup_fields (meta : metadata) (ev : TransactionPosted) : TransactionPosted :=
  match MetaDecimal meta "total_debit" with
  | inl _ => ev
  | inr totalDebit =>
      let feeAmount := match MetaDecimal meta "fee_amount" with
                       | inr fee => fee | inl _ => dec_zero end in
      {| tp_SchemaVersion := tp_SchemaVersion ev; tp_EventID := tp_EventID ev;
         tp_TxID := tp_TxID ev; tp_TransactionType := tp_TransactionType ev;
         tp_Amount := tp_Amount ev; tp_Currency := tp_Currency ev;
         tp_MinorUnit := tp_MinorUnit ev; tp_SourceAccountID := tp_SourceAccountID ev;
         tp_DestinationAccountID := tp_DestinationAccountID ev; tp_Entries := tp_Entries ev;
         tp_ExternalRef := tp_ExternalRef ev; tp_OccurredAt := tp_OccurredAt ev;
         tp_UserID := tp_UserID ev; tp_TargetUserID := tp_TargetUserID ev;
         tp_MerchantTenantID := tp_MerchantTenantID ev; tp_RequestID := tp_RequestID ev;
         tp_TotalDebit := dec_string totalDebit;
         tp_FeeAmount := dec_string feeAmount;
         tp_FeeGateway := MetaString_ meta "fee_gateway";
         tp_FeeApplication := MetaString_ meta "fee_application";
         tp_FeeQuoteID := right (MetaUUID meta "fee_quote_id");
         tp_PayinID := right (MetaUUID meta "payin_id") |}
  end.

Definition newPostedEvent (reg : registry) (cmd : ResolvedCommand) (txID : uuid)
    (entries : list EntryInstruction) (now : Z) : OutboxEvent :=
  let c := rc_Command cmd in
  let ev := NewTransactionPosted reg txID (Type_ c) (dec_string (Amount c)) (rc_Currency cmd)
              (non_nil (rc_Source cmd)) (non_nil (rc_Destination cmd))
              (buildEntrySummaries entries) (MetaString_ (Metadata c) "external_ref") now
              (non_nil (UserID c)) (non_nil (TargetUserID c))
              (MetaString_ (Metadata c) "request_id") (non_nil (MerchantTenantID c)) in
  let ev := if bool_decide (Type_ c = "money_in") then with_topup_fields (Metadata c) ev
            else ev in
  {| AggregateType := "ledger_transaction"; AggregateID := txID;
     EventType := TypeTransactionPosted; Payload := PPosted ev |}.

(** ** validators.go *)
Notation balances_map := (gmap uuid AccountBalance).
Definition Validator : Type := ResolvedCommand -> balances_map -> result unit.

Fixpoint MultiValidator (vs : list Validator) (cmd : ResolvedCommand) (bal : balances_map)
    : result unit :=
  match vs with
  | [] => Ok tt
  | v :: vs' => match v cmd bal with
                | Ok _ => MultiValidator vs' cmd bal
                | r => r
                end
  end.

Definition PositiveAmountValidator : Validator := fun cmd _ =>
  if negb (dec_is_positive (Amount (rc_Command cmd))) then
    Err (NewBizErr ErrAmountTooSmall "amount must be > 0")
  else Ok tt.

Definition IntegralAmountValidator : Validator := fun cmd _ =>
  let amount := Amount (rc_Command cmd) in
  if negb (dec_equal amount (dec_truncate amount)) then
    Err (NewBizErr ErrValidation "amount must be an integer (minor units)")
  else Ok tt.

Definition MinAmountValidator (min : dec) : Validator := fun cmd _ =>
  if dec_lt (Amount (rc_Command cmd)) min then Err (NewBizErr ErrAmountTooSmall "minimum is")
  else Ok tt.

Definition MaxAmountValidator (max : dec) : Validator := fun cmd _ =>
  if dec_gt (Amount (rc_Command cmd)) max then Err (NewBizErr ErrAmountTooLarge "maximum is")
  else Ok tt.

Definition SufficientFundsValidator (accountID : uuid) : Validator := fun cmd bal =>
  match bal !! accountID with
  | None => Err (wrapf ErrAccountNotFound EmptyString)
  | Some ab => if dec_lt (ab_Balance ab) (Amount (rc_Command cmd)) then
                 Err (NewBizErr ErrInsufficientFunds "account has, needs")
               else Ok tt
  end.

Definition NotSelfTransferValidator (a b : uuid) : Validator := fun _ _ =>
  if bool_decide (a = b) && negb (bool_decide (a = uuid_Nil)) then
    Err (NewBizErr ErrSelfTransfer "both accounts are")
  else Ok tt.

Definition FeeAmountValidator : Validator := fun cmd _ =>
  match MetaDecimal (Metadata (rc_Command cmd)) "fee_amount" with
  | inl e => Err (Wrap2 ErrValidation e)
  | inr fee =>
      if negb (dec_is_positive fee) then
        Err (NewBizErr ErrValidation "fee_amount must be positive")
      else if dec_ge fee (Amount (rc_Command cmd)) then
        Err (NewBizErr ErrFeeExceedsAmount "fee >= total")
      else Ok tt
  end.

(** [if _, _, ok := hasFee(cmd); ok { v = append(v, FeeAmountValidator{}) }] *)
Definition fee_validators (cmd : ResolvedCommand) : list Validator :=
  if hasFee cmd then [FeeAmountValidator] else [].

(** ** The processor interface *)
Record TxProcessor := {
  Type__ : string;
  ResolveAccounts : Command -> M (ResolvedAccounts * string);
  Validate : ResolvedCommand -> balances_map -> M unit;
  BuildEntries : ResolvedCommand -> balances_map -> M (list EntryInstruction);
  OutboxEvents : ResolvedCommand -> uuid -> list EntryInstruction -> Z -> list OutboxEvent;
  AfterCommit : Command -> M unit;
  ValidateCommand : Command -> M unit;
  (* the optional interface BeforeBalanceLockValidator *)
  ValidateBeforeBalanceLocks : option (ResolvedCommand -> M unit);
}.

Definition no_after_commit (_ : Command) : M unit := ret tt.
Definition no_command_checks (_ : Command) : M unit := ret tt.

(** The single event of every processor but Reversal. *)
Definition posted_event (reg : registry) (cmd : ResolvedCommand) (txID : uuid)
    (entries : list EntryInstruction) (now : Z) : list OutboxEvent :=
  [newPostedEvent reg cmd txID entries now].

(** ** Registry *)
Definition ProcessorRegistry : Type := gmap string TxProcessor.

(** Panics on a duplicate type. *)
Fixpoint register (m : ProcessorRegistry) (procs : list TxProcessor) : result ProcessorRegistry :=
  match procs with
  | [] => Ok m
  | p :: ps => match m !! Type__ p with
               | Some _ => Panic
               | None => register (<[Type__ p := p]> m) ps
               end
  end.
Definition NewRegistry (procs : list TxProcessor) : result ProcessorRegistry := register ∅ procs.

Definition Registry_Get (r : ProcessorRegistry) (txType : string) : M TxProcessor :=
  match r !! txType with
  | Some p => ret p
  | None => fail (wrapf ErrUnknownProcessor EmptyString)
  end.

(** ** Shapes of entries *)

(** One debit of the whole amount, one credit. *)
Definition two_entries (debited credited : uuid) (amount : dec) (note note' : string)
    : list EntryInstruction :=
  [ {| ei_AccountID := debited; ei_Direction := Debit; ei_Amount := amount; ei_Note := note |};
    {| ei_AccountID := credited; ei_Direction := Credit; ei_Amount := amount; ei_Note := note' |} ].

(** One debit of the gross amount, a credit of the net, and the fee leg when
    the command carries one: the body nine processors repeat. *)
Definition fee_entries (cmd : ResolvedCommand) (debited credited : uuid)
    (note note' fee_note : string) : list EntryInstruction :=
  let amount := Amount (rc_Command cmd) in
  match hasFee cmd with
  | Some (feeID, fee) =>
      [ {| ei_AccountID := debited; ei_Direction := Debit; ei_Amount := amount; ei_Note := note |};
        {| ei_AccountID := credited; ei_Direction := Credit; ei_Amount := dec_sub amount fee;
           ei_Note := note' |};
        {| ei_AccountID := feeID; ei_Direction := Credit; ei_Amount := fee;
           ei_Note := fee_note |} ]
  | None => two_entries debited credited amount note note'
  end.

(** AccountIDs[0] debited, AccountIDs[1] credited, as every processor but
    TransferPocket and Reversal has them. *)
Definition two_leg_entries (cmd : ResolvedCommand) (note note' : string)
    : M (list EntryInstruction) :=
  let! source := account cmd 0 in
  let! destination := account cmd 1 in
  ret (two_entries source destination (Amount (rc_Command cmd)) note note').

Definition fee_leg_entries (cmd : ResolvedCommand) (note note' fee_note : string)
    : M (list EntryInstruction) :=
  let! source := account cmd 0 in
  let! destination := account cmd 1 in
  ret (fee_entries cmd source destination note note' fee_note).

(** The validator chain most processors start from, checking the funds of
    AccountIDs[0]; the slice is indexed before any validator runs. *)
Definition validate_amount (cmd : ResolvedCommand) (bal : balances_map) : M unit :=
  lift (MultiValidator [PositiveAmountValidator; IntegralAmountValidator] cmd bal).

Definition validate_funds (extra : list Validator) (cmd : ResolvedCommand)
    (bal : balances_map) : M unit :=
  let! source := account cmd 0 in
  lift (MultiValidator ([PositiveAmountValidator; IntegralAmountValidator;
                         SufficientFundsValidator source] ++ extra) cmd bal).

(** [if _, err := MetaString(cmd.Metadata, key); err != nil { ErrValidation }] *)
Definition require_key (cmd : Command) (key : string) : M unit :=
  match MetaString (Metadata cmd) key with
  | inl _ => fail (wrapf ErrValidation ("requires metadata " +:+ key))
  | inr _ => ret tt
  end.

(** The same, and the value must not be empty. *)
Definition require_value (cmd : Command) (key : string) : M string :=
  match MetaString (Metadata cmd) key with
  | inr v => if empty v then fail (wrapf ErrValidation ("requires metadata " +:+ key)) else ret v
  | inl _ => fail (wrapf ErrValidation ("requires metadata " +:+ key))
  end.

Fixpoint require_values (cmd : Command) (keys : list string) : M unit :=
  match keys with
  | [] => ret tt
  | k :: ks => let! _ := require_value cmd k in require_values cmd ks
  end.

Definition require_uuid (cmd : Command) (key : string) : M unit :=
  match MetaUUID (Metadata cmd) key with
  | inl _ => fail (wrapf ErrValidation ("requires metadata " +:+ key))
  | inr _ => ret tt
  end.

Definition require_tenant (cmd : Command) : M unit :=
  if bool_decide (MerchantTenantID cmd = uuid_Nil) then
    fail (wrapf ErrValidation "requires MerchantTenantID")
  else ret tt.

(** [id, err := MetaUUID(...); if err != nil { "name: %w" }] *)
Definition meta_uuid (name : string) (cmd : Command) (key : string) : M uuid :=
  wrap name (match MetaUUID (Metadata cmd) key with inl e => fail e | inr id => ret id end).
End processors.
Arguments Command {DEC}.
Arguments ResolvedCommand {DEC}.
Arguments TxProcessor {DEC}.
Arguments ProcessorRegistry {DEC}.
Arguments Validator {DEC}.
