(* ===== verification/ProcMoney.v ===== *)
(** * Money movement: top-up, payment, transfers, fees, chargebacks, payouts

    services/ledger/internal/processors/{money_in,money_out,transfer_p2p,
    transfer_pocket,fee_collect,chargeback,disbursement}.go *)
From stdpp Require Import prelude gmap strings list.
From S2P Require Import Prelude Decimal Errors Currency Events Store TxRepo Repos AccountRepo Processors.

Section money.
Context `{DEC : !Decimal} `{UT : !UuidText} `{REPO : !AccountRepository} (reg : registry).
Notation balances_map := (gmap uuid AccountBalance).

(** The user's cash account, or the pocket the command names. *)
Definition cash_or_pocket (name : string) (cmd : Command) : M uuid :=
  if negb (empty (PocketCode cmd)) then
    wrap (name +:+ ": pocket") (userPocketAccountID (UserID cmd) (PocketCode cmd) (Currency_ cmd))
  else
    wrap (name +:+ ": cash account")
      (userAccountID (UserID cmd) AccountTypeCash (Currency_ cmd)).

(** ** money_in *)
Definition MoneyIn_ResolveAccounts (cmd : Command) : M (ResolvedAccounts * string) :=
  let! gateway := requireGateway cmd "money_in" in
  let! destID := cash_or_pocket "money_in" cmd in
  let! currency := wrap "money_in: currency" (GetAccountCurrency destID) in
  let! sysID := wrap "money_in: settlement"
                  (GetSystemAccountID AccountTypeSettlement gateway currency) in
  with_inline_fee "money_in" cmd currency (twoLeg sysID destID []).

Definition MoneyIn_Validate (cmd : ResolvedCommand) (bal : balances_map) : M unit :=
  let meta := Metadata (rc_Command cmd) in
  let! _ := lift (MultiValidator ([PositiveAmountValidator; IntegralAmountValidator]
                                    ++ fee_validators cmd) cmd bal) in
  if bool_decide (MetaString_ meta "fee_application" = "added_on_top") then
    match MetaDecimal meta "total_debit" with
    | inl _ => fail (wrapf ErrValidation "money_in total_debit is invalid")
    | inr totalDebit =>
        let fee := match hasFee cmd with Some (_, fee) => fee | None => dec_zero end in
        if negb (dec_equal totalDebit (dec_add (Amount (rc_Command cmd)) fee)) then
          fail (NewBizErr ErrValidation "money_in total_debit must equal amount plus fee")
        else ret tt
    end
  else ret tt.

Definition MoneyIn_BuildEntries (cmd : ResolvedCommand) (_ : balances_map)
    : M (list EntryInstruction) :=
  let meta := Metadata (rc_Command cmd) in
  let amount := Amount (rc_Command cmd) in
  let destNote := if empty (PocketCode (rc_Command cmd)) then "cash"
                  else "pocket:" +:+ PocketCode (rc_Command cmd) in
  let '(sourceAmount, net) :=
    match hasFee cmd with
    | Some (_, fee) =>
        if bool_decide (MetaString_ meta "fee_application" = "added_on_top") then
          (match MetaDecimal meta "total_debit" with
           | inr totalDebit => totalDebit
           | inl _ => dec_add amount fee
           end, amount)
        else (amount, dec_sub amount fee)
    | None => (amount, amount)
    end in
  let! source := account cmd 0 in
  let! destination := account cmd 1 in
  ret ([ {| ei_AccountID := source; ei_Direction := Debit; ei_Amount := sourceAmount;
            ei_Note := EmptyString |};
         {| ei_AccountID := destination; ei_Direction := Credit; ei_Amount := net;
            ei_Note := "money_in → " +:+ destNote |} ]
       ++ match hasFee cmd with
          | Some (feeID, fee) =>
              [ {| ei_AccountID := feeID; ei_Direction := Credit; ei_Amount := fee;
                   ei_Note := "money_in fee" |} ]
          | None => []
          end).

Definition MoneyIn : TxProcessor :=
  {| Type__ := "money_in"; ResolveAccounts := MoneyIn_ResolveAccounts;
     Validate := MoneyIn_Validate; BuildEntries := MoneyIn_BuildEntries;
     OutboxEvents := posted_event reg; AfterCommit := no_after_commit;
     ValidateCommand := no_command_checks; ValidateBeforeBalanceLocks := None |}.

(** ** money_out *)
Definition MoneyOut_ResolveAccounts (cmd : Command) : M (ResolvedAccounts * string) :=
  let! gateway := requireGateway cmd "money_out" in
  let! srcID := cash_or_pocket "money_out" cmd in
  let! currency := wrap "money_out: currency" (GetAccountCurrency srcID) in
  let! sysID := wrap "money_out: settlement"
                  (GetSystemAccountID AccountTypeSettlement gateway currency) in
  with_inline_fee "money_out" cmd currency (twoLeg srcID sysID []).

Definition MoneyOut_Validate (cmd : ResolvedCommand) (bal : balances_map) : M unit :=
  validate_funds (fee_validators cmd) cmd bal.

Definition MoneyOut_BuildEntries (cmd : ResolvedCommand) (_ : balances_map)
    : M (list EntryInstruction) :=
  let srcNote := if empty (PocketCode (rc_Command cmd)) then "cash"
                 else "pocket:" +:+ PocketCode (rc_Command cmd) in
  fee_leg_entries cmd ("money_out ← " +:+ srcNote) EmptyString "money_out fee".

Definition MoneyOut : TxProcessor :=
  {| Type__ := "money_out"; ResolveAccounts := MoneyOut_ResolveAccounts;
     Validate := MoneyOut_Validate; BuildEntries := MoneyOut_BuildEntries;
     OutboxEvents := posted_event reg; AfterCommit := no_after_commit;
     ValidateCommand := no_command_checks; ValidateBeforeBalanceLocks := None |}.

(** ** transfer_p2p *)
Definition TransferP2P_ResolveAccounts (cmd : Command) : M (ResolvedAccounts * string) :=
  if bool_decide (TargetUserID cmd = uuid_Nil) then
    fail (Plain "transfer_p2p: TargetUserID required")
  else if bool_decide (UserID cmd = TargetUserID cmd) then
    fail (NewBizErr ErrSelfTransfer "cannot transfer to yourself")
  else
    let! senderID := wrap "transfer_p2p: sender cash"
      (userAccountID (UserID cmd) AccountTypeCash (Currency_ cmd)) in
    let! receiverID := wrap "transfer_p2p: receiver cash"
      (userAccountID (TargetUserID cmd) AccountTypeCash (Currency_ cmd)) in
    let! currency := wrap "transfer_p2p: currency" (GetAccountCurrency senderID) in
    with_inline_fee "transfer_p2p" cmd currency (twoLeg senderID receiverID []).

Definition TransferP2P_Validate (cmd : ResolvedCommand) (bal : balances_map) : M unit :=
  let! a := account cmd 0 in
  let! b := account cmd 1 in
  validate_funds (NotSelfTransferValidator a b :: fee_validators cmd) cmd bal.

Definition TransferP2P_BuildEntries (cmd : ResolvedCommand) (_ : balances_map)
    : M (list EntryInstruction) :=
  fee_leg_entries cmd EmptyString EmptyString "p2p transfer fee".

Definition TransferP2P : TxProcessor :=
  {| Type__ := "transfer_p2p"; ResolveAccounts := TransferP2P_ResolveAccounts;
     Validate := TransferP2P_Validate; BuildEntries := TransferP2P_BuildEntries;
     OutboxEvents := posted_event reg; AfterCommit := no_after_commit;
     ValidateCommand := no_command_checks; ValidateBeforeBalanceLocks := None |}.

(** ** transfer_pocket *)
Definition TransferPocket_ResolveAccounts (cmd : Command) : M (ResolvedAccounts * string) :=
  if empty (PocketCode cmd) then fail (Plain "transfer_pocket: PocketCode required")
  else
    let! cashID := wrap "transfer_pocket: cash"
      (userAccountID (UserID cmd) AccountTypeCash (Currency_ cmd)) in
    let! pocketID := wrap "transfer_pocket: pocket"
      (userPocketAccountID (UserID cmd) (PocketCode cmd) (Currency_ cmd)) in
    let! currency := wrap "transfer_pocket: currency" (GetAccountCurrency cashID) in
    ret (twoLeg cashID pocketID [], currency).

Definition TransferPocket_Validate (cmd : ResolvedCommand) (bal : balances_map) : M unit :=
  let bad := fail (wrapf ErrValidation
                     "metadata 'direction' must be 'to_pocket' or 'from_pocket'") in
  match MetaString (Metadata (rc_Command cmd)) "direction" with
  | inl _ => bad
  | inr dir =>
      if negb (bool_decide (dir = "to_pocket")) && negb (bool_decide (dir = "from_pocket"))
      then bad
      else
        let! first := account cmd 0 in
        let! sourceID := if bool_decide (dir = "from_pocket") then account cmd 1
                         else ret first in
        lift (MultiValidator [PositiveAmountValidator; IntegralAmountValidator;
                              SufficientFundsValidator sourceID] cmd bal)
  end.

Definition TransferPocket_BuildEntries (cmd : ResolvedCommand) (_ : balances_map)
    : M (list EntryInstruction) :=
  let dir := MetaString_ (Metadata (rc_Command cmd)) "direction" in
  let amount := Amount (rc_Command cmd) in
  let! cashID := account cmd 0 in
  let! pocketID := account cmd 1 in
  if bool_decide (dir = "to_pocket") then
    ret (two_entries cashID pocketID amount
           ("to pocket " +:+ PocketCode (rc_Command cmd)) EmptyString)
  else
    ret (two_entries pocketID cashID amount
           ("from pocket " +:+ PocketCode (rc_Command cmd)) EmptyString).

Definition TransferPocket : TxProcessor :=
  {| Type__ := "transfer_pocket"; ResolveAccounts := TransferPocket_ResolveAccounts;
     Validate := TransferPocket_Validate; BuildEntries := TransferPocket_BuildEntries;
     OutboxEvents := posted_event reg; AfterCommit := no_after_commit;
     ValidateCommand := no_command_checks; ValidateBeforeBalanceLocks := None |}.

(** ** fee_collect *)
Definition FeeCollect_ResolveAccounts (cmd : Command) : M (ResolvedAccounts * string) :=
  let! feeGateway := require_value cmd "fee_gateway" in
  let! userCashID := wrap "fee_collect: user cash"
    (userAccountID (UserID cmd) AccountTypeCash (Currency_ cmd)) in
  let! currency := wrap "fee_collect: currency" (GetAccountCurrency userCashID) in
  let! feeAccID := wrap "fee_collect: fee"
    (GetSystemAccountID AccountTypeFee feeGateway currency) in
  ret (twoLeg userCashID feeAccID [], currency).

Definition FeeCollect_Validate (cmd : ResolvedCommand) (bal : balances_map) : M unit :=
  validate_funds [] cmd bal.

Definition FeeCollect_BuildEntries (cmd : ResolvedCommand) (_ : balances_map)
    : M (list EntryInstruction) :=
  let reason := MetaString_ (Metadata (rc_Command cmd)) "reason" in
  two_leg_entries cmd ("fee_collect" +:+ (if empty reason then EmptyString else ": " +:+ reason))
    EmptyString.

Definition FeeCollect : TxProcessor :=
  {| Type__ := "fee_collect"; ResolveAccounts := FeeCollect_ResolveAccounts;
     Validate := FeeCollect_Validate; BuildEntries := FeeCollect_BuildEntries;
     OutboxEvents := posted_event reg; AfterCommit := no_after_commit;
     ValidateCommand := no_command_checks; ValidateBeforeBalanceLocks := None |}.

(** ** chargeback *)
Definition Chargeback_ResolveAccounts (cmd : Command) : M (ResolvedAccounts * string) :=
  let! _ := require_value cmd "dispute_ref" in
  let! cardNetwork := require_value cmd "card_network" in
  let! cashID := wrap "chargeback: user cash"
    (userAccountID (UserID cmd) AccountTypeCash (Currency_ cmd)) in
  let! currency := wrap "chargeback: currency" (GetAccountCurrency cashID) in
  let! cbID := wrap "chargeback: system chargeback"
    (GetSystemAccountID AccountTypeChargeback cardNetwork currency) in
  ret (twoLeg cashID cbID [], currency).

(** No SufficientFundsValidator, on purpose. *)
Definition Chargeback_Validate (cmd : ResolvedCommand) (bal : balances_map) : M unit :=
  validate_amount cmd bal.

Definition Chargeback_BuildEntries (cmd : ResolvedCommand) (_ : balances_map)
    : M (list EntryInstruction) :=
  two_leg_entries cmd
    ("chargeback: " +:+ MetaString_ (Metadata (rc_Command cmd)) "dispute_ref") EmptyString.

Definition Chargeback : TxProcessor :=
  {| Type__ := "chargeback"; ResolveAccounts := Chargeback_ResolveAccounts;
     Validate := Chargeback_Validate; BuildEntries := Chargeback_BuildEntries;
     OutboxEvents := posted_event reg; AfterCommit := no_after_commit;
     ValidateCommand := no_command_checks; ValidateBeforeBalanceLocks := None |}.

(** ** disbursement *)
Definition Disbursement_ResolveAccounts (cmd : Command) : M (ResolvedAccounts * string) :=
  let! cashID := wrap "disbursement: user cash"
    (userAccountID (UserID cmd) AccountTypeCash (Currency_ cmd)) in
  let! currency := wrap "disbursement: currency" (GetAccountCurrency cashID) in
  let! settlementID := wrap "disbursement: settlement[platform]"
    (GetSystemAccountID AccountTypeSettlement "platform" currency) in
  ret (twoLeg settlementID cashID [], currency).

Definition Disbursement_Validate (cmd : ResolvedCommand) (bal : balances_map) : M unit :=
  validate_amount cmd bal.

Definition Disbursement_BuildEntries (cmd : ResolvedCommand) (_ : balances_map)
    : M (list EntryInstruction) :=
  let meta := Metadata (rc_Command cmd) in
  two_leg_entries cmd ("disbursement batch=" +:+ MetaString_ meta "batch_id"
                       +:+ " item=" +:+ MetaString_ meta "item_no") EmptyString.

Definition Disbursement : TxProcessor :=
  {| Type__ := "disbursement"; ResolveAccounts := Disbursement_ResolveAccounts;
     Validate := Disbursement_Validate; BuildEntries := Disbursement_BuildEntries;
     OutboxEvents := posted_event reg; AfterCommit := no_after_commit;
     ValidateCommand := no_command_checks; ValidateBeforeBalanceLocks := None |}.
End money.
