(* ===== verification/ProcWithdraw.v ===== *)
(** * The withdrawal life cycle and the marketplace escrow

    services/ledger/internal/processors/withdraw_*.go, escrow_*.go, refund.go *)
From stdpp Require Import prelude gmap strings list.
From S2P Require Import Prelude Decimal Errors Currency Events Store TxRepo Repos AccountRepo Processors ProcMoney.

Section withdraw.
Context `{DEC : !Decimal} `{UT : !UuidText} `{REPO : !AccountRepository} (reg : registry).
Notation balances_map := (gmap uuid AccountBalance).

(** ** withdraw_initiate: user.cash|pocket -> user.hold *)
Definition WithdrawInitiate_ResolveAccounts (cmd : Command) : M (ResolvedAccounts * string) :=
  let! srcID := wrap "withdraw_initiate: source"
    (if negb (empty (PocketCode cmd)) then
       userPocketAccountID (UserID cmd) (PocketCode cmd) (Currency_ cmd)
     else userAccountID (UserID cmd) AccountTypeCash (Currency_ cmd)) in
  let! holdID := wrap "withdraw_initiate: hold"
    (userAccountID (UserID cmd) AccountTypeHold (Currency_ cmd)) in
  let! currency := wrap "withdraw_initiate: currency" (GetAccountCurrency srcID) in
  with_inline_fee "withdraw_initiate" cmd currency (twoLeg srcID holdID []).

Definition WithdrawInitiate_Validate (cmd : ResolvedCommand) (bal : balances_map) : M unit :=
  validate_funds (fee_validators cmd) cmd bal.

Definition WithdrawInitiate_BuildEntries (cmd : ResolvedCommand) (_ : balances_map)
    : M (list EntryInstruction) :=
  fee_leg_entries cmd EmptyString EmptyString "withdraw initiation fee".

Definition WithdrawInitiate : TxProcessor :=
  {| Type__ := "withdraw_initiate"; ResolveAccounts := WithdrawInitiate_ResolveAccounts;
     Validate := WithdrawInitiate_Validate; BuildEntries := WithdrawInitiate_BuildEntries;
     OutboxEvents := posted_event reg; AfterCommit := no_after_commit;
     ValidateCommand := no_command_checks; ValidateBeforeBalanceLocks := None |}.

(** ** withdraw_pending: user.hold -> user.pending *)
Definition WithdrawPending_ResolveAccounts (cmd : Command) : M (ResolvedAccounts * string) :=
  let! holdID := wrap "withdraw_pending: hold"
    (userAccountID (UserID cmd) AccountTypeHold (Currency_ cmd)) in
  let! pendingID := wrap "withdraw_pending: pending"
    (userAccountID (UserID cmd) AccountTypePending (Currency_ cmd)) in
  let! currency := wrap "withdraw_pending: currency" (GetAccountCurrency holdID) in
  ret (twoLeg holdID pendingID [], currency).

Definition WithdrawPending_Validate (cmd : ResolvedCommand) (bal : balances_map) : M unit :=
  validate_funds [] cmd bal.

Definition WithdrawPending_BuildEntries (cmd : ResolvedCommand) (_ : balances_map)
    : M (list EntryInstruction) :=
  two_leg_entries cmd "escalate to pending: SLA breach" EmptyString.

Definition WithdrawPending : TxProcessor :=
  {| Type__ := "withdraw_pending"; ResolveAccounts := WithdrawPending_ResolveAccounts;
     Validate := WithdrawPending_Validate; BuildEntries := WithdrawPending_BuildEntries;
     OutboxEvents := posted_event reg; AfterCommit := no_after_commit;
     ValidateCommand := no_command_checks; ValidateBeforeBalanceLocks := None |}.

(** ** withdraw_settle: user.hold -> settlement[gateway] *)
Definition WithdrawSettle_ResolveAccounts (cmd : Command) : M (ResolvedAccounts * string) :=
  let! gateway := requireGateway cmd "withdraw_settle" in
  let! holdID := wrap "withdraw_settle: hold"
    (userAccountID (UserID cmd) AccountTypeHold (Currency_ cmd)) in
  let! currency := wrap "withdraw_settle: currency" (GetAccountCurrency holdID) in
  let! sysID := wrap "withdraw_settle: settlement"
    (GetSystemAccountID AccountTypeSettlement gateway currency) in
  with_inline_fee "withdraw_settle" cmd currency (twoLeg holdID sysID []).

Definition WithdrawSettle_Validate (cmd : ResolvedCommand) (bal : balances_map) : M unit :=
  let! _ := validateOriginalForClose (ReferenceID (rc_Command cmd)) "withdraw_initiate"
              (Amount (rc_Command cmd)) in
  validate_funds (fee_validators cmd) cmd bal.

Definition WithdrawSettle_BuildEntries (cmd : ResolvedCommand) (_ : balances_map)
    : M (list EntryInstruction) :=
  fee_leg_entries cmd "withdraw settled" EmptyString "withdraw fee".

Definition WithdrawSettle_ValidateCommand (cmd : Command) : M unit :=
  requireReferenceID cmd "withdraw_settle".

Definition WithdrawSettle : TxProcessor :=
  {| Type__ := "withdraw_settle"; ResolveAccounts := WithdrawSettle_ResolveAccounts;
     Validate := WithdrawSettle_Validate; BuildEntries := WithdrawSettle_BuildEntries;
     OutboxEvents := posted_event reg; AfterCommit := no_after_commit;
     ValidateCommand := WithdrawSettle_ValidateCommand; ValidateBeforeBalanceLocks := None |}.

(** ** withdraw_cancel: user.hold -> user.cash *)
Definition WithdrawCancel_ResolveAccounts (cmd : Command) : M (ResolvedAccounts * string) :=
  let! holdID := wrap "withdraw_cancel: hold"
    (userAccountID (UserID cmd) AccountTypeHold (Currency_ cmd)) in
  let! cashID := wrap "withdraw_cancel: cash"
    (userAccountID (UserID cmd) AccountTypeCash (Currency_ cmd)) in
  let! currency := wrap "withdraw_cancel: currency" (GetAccountCurrency holdID) in
  ret (twoLeg holdID cashID [], currency).

Definition WithdrawCancel_Validate (cmd : ResolvedCommand) (bal : balances_map) : M unit :=
  let! _ := validateOriginalForClose (ReferenceID (rc_Command cmd)) "withdraw_initiate"
              (Amount (rc_Command cmd)) in
  validate_funds [] cmd bal.

Definition WithdrawCancel_BuildEntries (cmd : ResolvedCommand) (_ : balances_map)
    : M (list EntryInstruction) :=
  two_leg_entries cmd "withdraw cancelled" EmptyString.

Definition WithdrawCancel_ValidateCommand (cmd : Command) : M unit :=
  requireReferenceID cmd "withdraw_cancel".

Definition WithdrawCancel : TxProcessor :=
  {| Type__ := "withdraw_cancel"; ResolveAccounts := WithdrawCancel_ResolveAccounts;
     Validate := WithdrawCancel_Validate; BuildEntries := WithdrawCancel_BuildEntries;
     OutboxEvents := posted_event reg; AfterCommit := no_after_commit;
     ValidateCommand := WithdrawCancel_ValidateCommand; ValidateBeforeBalanceLocks := None |}.

(** ** withdraw_pending_settle: user.pending -> settlement[gateway] *)
Definition WithdrawPendingSettle_ResolveAccounts (cmd : Command)
    : M (ResolvedAccounts * string) :=
  let! gateway := requireGateway cmd "withdraw_pending_settle" in
  let! pendingID := wrap "withdraw_pending_settle: pending"
    (userAccountID (UserID cmd) AccountTypePending (Currency_ cmd)) in
  let! currency := wrap "withdraw_pending_settle: currency" (GetAccountCurrency pendingID) in
  let! sysID := wrap "withdraw_pending_settle: settlement"
    (GetSystemAccountID AccountTypeSettlement gateway currency) in
  ret (twoLeg pendingID sysID [], currency).

Definition WithdrawPendingSettle_Validate (cmd : ResolvedCommand) (bal : balances_map)
    : M unit :=
  let! _ := validateOriginalForClose (ReferenceID (rc_Command cmd)) "withdraw_pending"
              (Amount (rc_Command cmd)) in
  validate_funds [] cmd bal.

Definition WithdrawPendingSettle_BuildEntries (cmd : ResolvedCommand) (_ : balances_map)
    : M (list EntryInstruction) :=
  two_leg_entries cmd "pending withdraw settled (manual)" EmptyString.

Definition WithdrawPendingSettle_ValidateCommand (cmd : Command) : M unit :=
  requireReferenceID cmd "withdraw_pending_settle".

Definition WithdrawPendingSettle : TxProcessor :=
  {| Type__ := "withdraw_pending_settle";
     ResolveAccounts := WithdrawPendingSettle_ResolveAccounts;
     Validate := WithdrawPendingSettle_Validate;
     BuildEntries := WithdrawPendingSettle_BuildEntries;
     OutboxEvents := posted_event reg; AfterCommit := no_after_commit;
     ValidateCommand := WithdrawPendingSettle_ValidateCommand;
     ValidateBeforeBalanceLocks := None |}.

(** ** withdraw_pending_cancel: user.pending -> user.cash *)
Definition WithdrawPendingCancel_ResolveAccounts (cmd : Command)
    : M (ResolvedAccounts * string) :=
  let! pendingID := wrap "withdraw_pending_cancel: pending"
    (userAccountID (UserID cmd) AccountTypePending (Currency_ cmd)) in
  let! cashID := wrap "withdraw_pending_cancel: cash"
    (userAccountID (UserID cmd) AccountTypeCash (Currency_ cmd)) in
  let! currency := wrap "withdraw_pending_cancel: currency" (GetAccountCurrency pendingID) in
  ret (twoLeg pendingID cashID [], currency).

Definition WithdrawPendingCancel_Validate (cmd : ResolvedCommand) (bal : balances_map)
    : M unit :=
  let! _ := validateOriginalForClose (ReferenceID (rc_Command cmd)) "withdraw_pending"
              (Amount (rc_Command cmd)) in
  validate_funds [] cmd bal.

Definition WithdrawPendingCancel_BuildEntries (cmd : ResolvedCommand) (_ : balances_map)
    : M (list EntryInstruction) :=
  two_leg_entries cmd "pending withdraw cancelled (manual)" EmptyString.

Definition WithdrawPendingCancel_ValidateCommand (cmd : Command) : M unit :=
  requireReferenceID cmd "withdraw_pending_cancel".

Definition WithdrawPendingCancel : TxProcessor :=
  {| Type__ := "withdraw_pending_cancel";
     ResolveAccounts := WithdrawPendingCancel_ResolveAccounts;
     Validate := WithdrawPendingCancel_Validate;
     BuildEntries := WithdrawPendingCancel_BuildEntries;
     OutboxEvents := posted_event reg; AfterCommit := no_after_commit;
     ValidateCommand := WithdrawPendingCancel_ValidateCommand;
     ValidateBeforeBalanceLocks := None |}.

(** ** escrow_hold: buyer.cash -> escrow[currency] *)
Definition EscrowHold_ResolveAccounts (cmd : Command) : M (ResolvedAccounts * string) :=
  let! cashID := wrap "escrow_hold: buyer cash"
    (userAccountID (UserID cmd) AccountTypeCash (Currency_ cmd)) in
  let! currency := wrap "escrow_hold: currency" (GetAccountCurrency cashID) in
  let! escrowID := wrap "escrow_hold: escrow"
    (GetSystemAccountID AccountTypeEscrow currency currency) in
  with_inline_fee "escrow_hold" cmd currency (twoLeg cashID escrowID []).

Definition EscrowHold_Validate (cmd : ResolvedCommand) (bal : balances_map) : M unit :=
  validate_funds (fee_validators cmd) cmd bal.

Definition EscrowHold_BuildEntries (cmd : ResolvedCommand) (_ : balances_map)
    : M (list EntryInstruction) :=
  fee_leg_entries cmd "escrow hold" EmptyString "escrow booking fee".

Definition EscrowHold : TxProcessor :=
  {| Type__ := "escrow_hold"; ResolveAccounts := EscrowHold_ResolveAccounts;
     Validate := EscrowHold_Validate; BuildEntries := EscrowHold_BuildEntries;
     OutboxEvents := posted_event reg; AfterCommit := no_after_commit;
     ValidateCommand := no_command_checks; ValidateBeforeBalanceLocks := None |}.

(** ** escrow_release: escrow[currency] -> the merchant account named in the metadata *)
Definition EscrowRelease_ResolveAccounts (cmd : Command) : M (ResolvedAccounts * string) :=
  let! merchantID := meta_uuid "escrow_release" cmd "merchant_account_id" in
  let! currency := wrap "escrow_release: merchant currency" (GetAccountCurrency merchantID) in
  let! escrowID := wrap "escrow_release: escrow"
    (GetSystemAccountID AccountTypeEscrow currency currency) in
  with_inline_fee "escrow_release" cmd currency (twoLeg escrowID merchantID []).

Definition EscrowRelease_Validate (cmd : ResolvedCommand) (bal : balances_map) : M unit :=
  let! _ := validateOriginalForClose (ReferenceID (rc_Command cmd)) "escrow_hold"
              (Amount (rc_Command cmd)) in
  validate_funds (fee_validators cmd) cmd bal.

Definition EscrowRelease_BuildEntries (cmd : ResolvedCommand) (_ : balances_map)
    : M (list EntryInstruction) :=
  fee_leg_entries cmd "escrow release" EmptyString "marketplace commission".

Definition EscrowRelease_ValidateCommand (cmd : Command) : M unit :=
  requireReferenceID cmd "escrow_release".

Definition EscrowRelease : TxProcessor :=
  {| Type__ := "escrow_release"; ResolveAccounts := EscrowRelease_ResolveAccounts;
     Validate := EscrowRelease_Validate; BuildEntries := EscrowRelease_BuildEntries;
     OutboxEvents := posted_event reg; AfterCommit := no_after_commit;
     ValidateCommand := EscrowRelease_ValidateCommand; ValidateBeforeBalanceLocks := None |}.

(** ** escrow_refund: escrow[currency] -> buyer.cash *)
Definition EscrowRefund_ResolveAccounts (cmd : Command) : M (ResolvedAccounts * string) :=
  if bool_decide (TargetUserID cmd = uuid_Nil) then
    fail (Plain "escrow_refund: TargetUserID (buyer) required")
  else
    let! buyerCashID := wrap "escrow_refund: buyer cash"
      (userAccountID (TargetUserID cmd) AccountTypeCash (Currency_ cmd)) in
    let! currency := wrap "escrow_refund: currency" (GetAccountCurrency buyerCashID) in
    let! escrowID := wrap "escrow_refund: escrow"
      (GetSystemAccountID AccountTypeEscrow currency currency) in
    ret (twoLeg escrowID buyerCashID [], currency).

Definition EscrowRefund_Validate (cmd : ResolvedCommand) (bal : balances_map) : M unit :=
  let! _ := validateOriginalForClose (ReferenceID (rc_Command cmd)) "escrow_hold"
              (Amount (rc_Command cmd)) in
  validate_funds [] cmd bal.

Definition EscrowRefund_BuildEntries (cmd : ResolvedCommand) (_ : balances_map)
    : M (list EntryInstruction) :=
  two_leg_entries cmd "escrow refund to buyer" EmptyString.

Definition EscrowRefund_ValidateCommand (cmd : Command) : M unit :=
  requireReferenceID cmd "escrow_refund".

Definition EscrowRefund : TxProcessor :=
  {| Type__ := "escrow_refund"; ResolveAccounts := EscrowRefund_ResolveAccounts;
     Validate := EscrowRefund_Validate; BuildEntries := EscrowRefund_BuildEntries;
     OutboxEvents := posted_event reg; AfterCommit := no_after_commit;
     ValidateCommand := EscrowRefund_ValidateCommand; ValidateBeforeBalanceLocks := None |}.

(** ** refund: the merchant account named in the metadata -> user.cash *)
Definition Refund_ResolveAccounts (cmd : Command) : M (ResolvedAccounts * string) :=
  if bool_decide (TargetUserID cmd = uuid_Nil) then
    fail (Plain "refund: TargetUserID (refund receiver) required")
  else
    let! merchantID := meta_uuid "refund" cmd "merchant_account_id" in
    let! userCashID := wrap "refund: user cash"
      (userAccountID (TargetUserID cmd) AccountTypeCash (Currency_ cmd)) in
    let! currency := wrap "refund: currency" (GetAccountCurrency userCashID) in
    ret (twoLeg merchantID userCashID [], currency).

Definition Refund_Validate (cmd : ResolvedCommand) (bal : balances_map) : M unit :=
  let! (_, status, _, closedBy) :=
    wrap "refund: get original header" (TransactionRepo_GetHeader (ReferenceID (rc_Command cmd))) in
  if bool_decide (is_Some closedBy) then
    fail (NewBizErr ErrAlreadyClosed "transaction already closed")
  else if negb (bool_decide (status = "posted")) then
    fail (NewBizErr ErrNotReversible "original status must be 'posted'")
  else validate_funds [] cmd bal.

Definition Refund_BuildEntries (cmd : ResolvedCommand) (_ : balances_map)
    : M (list EntryInstruction) :=
  two_leg_entries cmd
    ("refund of " +:+ uuid_string (ReferenceID (rc_Command cmd)) +:+ " to user") EmptyString.

Definition Refund_ValidateCommand (cmd : Command) : M unit := requireReferenceID cmd "refund".

Definition Refund : TxProcessor :=
  {| Type__ := "refund"; ResolveAccounts := Refund_ResolveAccounts;
     Validate := Refund_Validate; BuildEntries := Refund_BuildEntries;
     OutboxEvents := posted_event reg; AfterCommit := no_after_commit;
     ValidateCommand := Refund_ValidateCommand; ValidateBeforeBalanceLocks := None |}.
End withdraw.
