(* ===== verification/ProcMerchant.v ===== *)
(** * Merchant transfers, pay-ins and payouts

    services/ledger/internal/processors/merchant_*.go
    Then the administrative processors. *)
From stdpp Require Import prelude gmap strings list.
From S2P Require Import Prelude Decimal Errors Currency Events Store TxRepo Repos AccountRepo Processors.
Section merchant.
Context `{DEC : !Decimal} `{UT : !UuidText} `{REPO : !AccountRepository} (reg : registry).
Notation balances_map := (gmap uuid AccountBalance).

(** ** merchant_transfer *)
Definition MerchantTransfer_ResolveAccounts (cmd : Command) : M (ResolvedAccounts * string) :=
  if bool_decide (MerchantTenantID cmd = uuid_Nil) then
    fail (Plain "merchant_transfer: MerchantTenantID required")
  else
    let! destinationID := meta_uuid "merchant_transfer" cmd "destination_account_id" in
    let! sourceID := wrap "merchant_transfer: source cash"
      (merchantAccountID (MerchantTenantID cmd) AccountTypeCash (Currency_ cmd)) in
    if bool_decide (sourceID = destinationID) then
      fail (NewBizErr ErrSelfTransfer "cannot transfer to own account")
    else
      let! currency := wrap "merchant_transfer: currency" (GetAccountCurrency sourceID) in
      ret (twoLeg sourceID destinationID [], currency).

Definition MerchantTransfer_Validate (cmd : ResolvedCommand) (bal : balances_map) : M unit :=
  let! a := account cmd 0 in
  let! b := account cmd 1 in
  validate_funds [NotSelfTransferValidator a b] cmd bal.

Definition MerchantTransfer_BuildEntries (cmd : ResolvedCommand) (_ : balances_map)
    : M (list EntryInstruction) :=
  two_leg_entries cmd EmptyString EmptyString.

Definition MerchantTransfer_ValidateCommand (cmd : Command) : M unit := require_tenant cmd.

Definition MerchantTransfer : TxProcessor :=
  {| Type__ := "merchant_transfer"; ResolveAccounts := MerchantTransfer_ResolveAccounts;
     Validate := MerchantTransfer_Validate; BuildEntries := MerchantTransfer_BuildEntries;
     OutboxEvents := posted_event reg; AfterCommit := no_after_commit;
     ValidateCommand := MerchantTransfer_ValidateCommand;
     ValidateBeforeBalanceLocks := None |}.

(** ** merchant_payin_credit: settlement[gateway] -> merchant.cash *)
Definition MerchantPayinCredit_ResolveAccounts (cmd : Command)
    : M (ResolvedAccounts * string) :=
  let! _ := require_tenant cmd in
  let! gateway := requireGateway cmd "merchant_payin_credit" in
  let! destID := wrap "merchant_payin_credit: merchant cash"
    (merchantAccountID (MerchantTenantID cmd) AccountTypeCash (Currency_ cmd)) in
  let! currency := wrap "merchant_payin_credit: currency" (GetAccountCurrency destID) in
  let! sysID := wrap "merchant_payin_credit: settlement"
    (GetSystemAccountID AccountTypeSettlement gateway currency) in
  with_inline_fee "merchant_payin_credit" cmd currency (twoLeg sysID destID []).

Definition MerchantPayinCredit_Validate (cmd : ResolvedCommand) (bal : balances_map) : M unit :=
  lift (MultiValidator ([PositiveAmountValidator; IntegralAmountValidator]
                          ++ fee_validators cmd) cmd bal).

Definition MerchantPayinCredit_BuildEntries (cmd : ResolvedCommand) (_ : balances_map)
    : M (list EntryInstruction) :=
  fee_leg_entries cmd EmptyString "merchant_payin_credit → cash" "merchant payin fee".

Definition MerchantPayinCredit_ValidateCommand (cmd : Command) : M unit := require_tenant cmd.

Definition MerchantPayinCredit : TxProcessor :=
  {| Type__ := "merchant_payin_credit"; ResolveAccounts := MerchantPayinCredit_ResolveAccounts;
     Validate := MerchantPayinCredit_Validate; BuildEntries := MerchantPayinCredit_BuildEntries;
     OutboxEvents := posted_event reg; AfterCommit := no_after_commit;
     ValidateCommand := MerchantPayinCredit_ValidateCommand;
     ValidateBeforeBalanceLocks := None |}.

(** ** merchant_payout_hold: merchant.cash -> merchant.hold *)
Definition MerchantPayoutHold_ResolveAccounts (cmd : Command) : M (ResolvedAccounts * string) :=
  let! _ := require_tenant cmd in
  let! srcID := wrap "merchant_payout_hold: source"
    (merchantAccountID (MerchantTenantID cmd) AccountTypeCash (Currency_ cmd)) in
  let! holdID := wrap "merchant_payout_hold: hold"
    (merchantAccountID (MerchantTenantID cmd) AccountTypeHold (Currency_ cmd)) in
  let! currency := wrap "merchant_payout_hold: currency" (GetAccountCurrency srcID) in
  with_inline_fee "merchant_payout_hold" cmd currency (twoLeg srcID holdID []).

Definition MerchantPayoutHold_Validate (cmd : ResolvedCommand) (bal : balances_map) : M unit :=
  validate_funds (fee_validators cmd) cmd bal.

Definition MerchantPayoutHold_BuildEntries (cmd : ResolvedCommand) (_ : balances_map)
    : M (list EntryInstruction) :=
  fee_leg_entries cmd EmptyString EmptyString "merchant payout initiation fee".

Definition MerchantPayoutHold_ValidateCommand (cmd : Command) : M unit := require_tenant cmd.

Definition MerchantPayoutHold : TxProcessor :=
  {| Type__ := "merchant_payout_hold"; ResolveAccounts := MerchantPayoutHold_ResolveAccounts;
     Validate := MerchantPayoutHold_Validate; BuildEntries := MerchantPayoutHold_BuildEntries;
     OutboxEvents := posted_event reg; AfterCommit := no_after_commit;
     ValidateCommand := MerchantPayoutHold_ValidateCommand;
     ValidateBeforeBalanceLocks := None |}.

(** ** merchant_payout_settle: merchant.hold -> settlement[gateway] *)
Definition MerchantPayoutSettle_ResolveAccounts (cmd : Command)
    : M (ResolvedAccounts * string) :=
  let! _ := require_tenant cmd in
  let! gateway := requireGateway cmd "merchant_payout_settle" in
  let! holdID := wrap "merchant_payout_settle: hold"
    (merchantAccountID (MerchantTenantID cmd) AccountTypeHold (Currency_ cmd)) in
  let! currency := wrap "merchant_payout_settle: currency" (GetAccountCurrency holdID) in
  let! sysID := wrap "merchant_payout_settle: settlement"
    (GetSystemAccountID AccountTypeSettlement gateway currency) in
  with_inline_fee "merchant_payout_settle" cmd currency (twoLeg holdID sysID []).

Definition MerchantPayoutSettle_Validate (cmd : ResolvedCommand) (bal : balances_map)
    : M unit :=
  let! _ := validateOriginalForClose (ReferenceID (rc_Command cmd)) "merchant_payout_hold"
              (Amount (rc_Command cmd)) in
  validate_funds (fee_validators cmd) cmd bal.

Definition MerchantPayoutSettle_BuildEntries (cmd : ResolvedCommand) (_ : balances_map)
    : M (list EntryInstruction) :=
  fee_leg_entries cmd "merchant payout settled" EmptyString "merchant payout fee".

Definition MerchantPayoutSettle_ValidateCommand (cmd : Command) : M unit :=
  let! _ := require_tenant cmd in requireReferenceID cmd "merchant_payout_settle".

Definition MerchantPayoutSettle : TxProcessor :=
  {| Type__ := "merchant_payout_settle";
     ResolveAccounts := MerchantPayoutSettle_ResolveAccounts;
     Validate := MerchantPayoutSettle_Validate;
     BuildEntries := MerchantPayoutSettle_BuildEntries;
     OutboxEvents := posted_event reg; AfterCommit := no_after_commit;
     ValidateCommand := MerchantPayoutSettle_ValidateCommand;
     ValidateBeforeBalanceLocks := None |}.

(** ** merchant_payout_cancel: merchant.hold -> merchant.cash *)
Definition MerchantPayoutCancel_ResolveAccounts (cmd : Command)
    : M (ResolvedAccounts * string) :=
  let! _ := require_tenant cmd in
  let! holdID := wrap "merchant_payout_cancel: hold"
    (merchantAccountID (MerchantTenantID cmd) AccountTypeHold (Currency_ cmd)) in
  let! cashID := wrap "merchant_payout_cancel: cash"
    (merchantAccountID (MerchantTenantID cmd) AccountTypeCash (Currency_ cmd)) in
  let! currency := wrap "merchant_payout_cancel: currency" (GetAccountCurrency holdID) in
  ret (twoLeg holdID cashID [], currency).

Definition MerchantPayoutCancel_Validate (cmd : ResolvedCommand) (bal : balances_map)
    : M unit :=
  let! _ := validateOriginalForClose (ReferenceID (rc_Command cmd)) "merchant_payout_hold"
              (Amount (rc_Command cmd)) in
  validate_funds [] cmd bal.

Definition MerchantPayoutCancel_BuildEntries (cmd : ResolvedCommand) (_ : balances_map)
    : M (list EntryInstruction) :=
  two_leg_entries cmd "merchant payout cancelled" EmptyString.

Definition MerchantPayoutCancel_ValidateCommand (cmd : Command) : M unit :=
  let! _ := require_tenant cmd in requireReferenceID cmd "merchant_payout_cancel".

Definition MerchantPayoutCancel : TxProcessor :=
  {| Type__ := "merchant_payout_cancel";
     ResolveAccounts := MerchantPayoutCancel_ResolveAccounts;
     Validate := MerchantPayoutCancel_Validate;
     BuildEntries := MerchantPayoutCancel_BuildEntries;
     OutboxEvents := posted_event reg; AfterCommit := no_after_commit;
     ValidateCommand := MerchantPayoutCancel_ValidateCommand;
     ValidateBeforeBalanceLocks := None |}.
End merchant.

Section admin.
Context `{DEC : !Decimal} `{UT : !UuidText} `{REPO : !AccountRepository} (reg : registry).
Notation balances_map := (gmap uuid AccountBalance).

(** ** freeze_initiate: user.cash -> user.frozen *)
Definition FreezeInitiate_ResolveAccounts (cmd : Command) : M (ResolvedAccounts * string) :=
  let! cashID := wrap "freeze_initiate: user cash"
    (userAccountID (UserID cmd) AccountTypeCash (Currency_ cmd)) in
  let! frozenID := wrap "freeze_initiate: frozen account"
    (userAccountID (UserID cmd) AccountTypeFrozen (Currency_ cmd)) in
  let! currency := wrap "freeze_initiate: currency" (GetAccountCurrency cashID) in
  ret (twoLeg cashID frozenID [], currency).

Definition FreezeInitiate_Validate (cmd : ResolvedCommand) (bal : balances_map) : M unit :=
  let! _ := require_key (rc_Command cmd) "case_id" in validate_funds [] cmd bal.

Definition FreezeInitiate_BuildEntries (cmd : ResolvedCommand) (_ : balances_map)
    : M (list EntryInstruction) :=
  let meta := Metadata (rc_Command cmd) in
  two_leg_entries cmd ("freeze: " +:+ MetaString_ meta "reason" +:+ " ["
                       +:+ MetaString_ meta "case_id" +:+ "]") EmptyString.

Definition FreezeInitiate : TxProcessor :=
  {| Type__ := "freeze_initiate"; ResolveAccounts := FreezeInitiate_ResolveAccounts;
     Validate := FreezeInitiate_Validate; BuildEntries := FreezeInitiate_BuildEntries;
     OutboxEvents := posted_event reg; AfterCommit := no_after_commit;
     ValidateCommand := no_command_checks; ValidateBeforeBalanceLocks := None |}.

(** ** freeze_release: user.frozen -> user.cash *)
Definition FreezeRelease_ResolveAccounts (cmd : Command) : M (ResolvedAccounts * string) :=
  let! frozenID := wrap "freeze_release: frozen account"
    (userAccountID (UserID cmd) AccountTypeFrozen (Currency_ cmd)) in
  let! cashID := wrap "freeze_release: user cash"
    (userAccountID (UserID cmd) AccountTypeCash (Currency_ cmd)) in
  let! currency := wrap "freeze_release: currency" (GetAccountCurrency frozenID) in
  ret (twoLeg frozenID cashID [], currency).

Definition FreezeRelease_Validate (cmd : ResolvedCommand) (bal : balances_map) : M unit :=
  let! _ := require_key (rc_Command cmd) "case_id" in validate_funds [] cmd bal.

Definition FreezeRelease_BuildEntries (cmd : ResolvedCommand) (_ : balances_map)
    : M (list EntryInstruction) :=
  two_leg_entries cmd
    ("freeze released [" +:+ MetaString_ (Metadata (rc_Command cmd)) "case_id" +:+ "]")
    EmptyString.

Definition FreezeRelease : TxProcessor :=
  {| Type__ := "freeze_release"; ResolveAccounts := FreezeRelease_ResolveAccounts;
     Validate := FreezeRelease_Validate; BuildEntries := FreezeRelease_BuildEntries;
     OutboxEvents := posted_event reg; AfterCommit := no_after_commit;
     ValidateCommand := no_command_checks; ValidateBeforeBalanceLocks := None |}.

(** ** freeze_confiscate: user.frozen -> system.confiscated *)
Definition FreezeConfiscate_ResolveAccounts (cmd : Command) : M (ResolvedAccounts * string) :=
  let! frozenID := wrap "freeze_confiscate: frozen account"
    (userAccountID (UserID cmd) AccountTypeFrozen (Currency_ cmd)) in
  let! currency := wrap "freeze_confiscate: currency" (GetAccountCurrency frozenID) in
  let! confiscatedID := wrap "freeze_confiscate: confiscated account"
    (GetSystemAccountID AccountTypeConfiscated EmptyString currency) in
  ret (twoLeg frozenID confiscatedID [], currency).

Definition FreezeConfiscate_Validate (cmd : ResolvedCommand) (bal : balances_map) : M unit :=
  let! _ := require_key (rc_Command cmd) "case_id" in
  let! _ := require_key (rc_Command cmd) "legal_ref" in
  validate_funds [] cmd bal.

Definition FreezeConfiscate_BuildEntries (cmd : ResolvedCommand) (_ : balances_map)
    : M (list EntryInstruction) :=
  let meta := Metadata (rc_Command cmd) in
  two_leg_entries cmd ("confiscated case=" +:+ MetaString_ meta "case_id" +:+ " legal="
                       +:+ MetaString_ meta "legal_ref") EmptyString.

Definition FreezeConfiscate : TxProcessor :=
  {| Type__ := "freeze_confiscate"; ResolveAccounts := FreezeConfiscate_ResolveAccounts;
     Validate := FreezeConfiscate_Validate; BuildEntries := FreezeConfiscate_BuildEntries;
     OutboxEvents := posted_event reg; AfterCommit := no_after_commit;
     ValidateCommand := no_command_checks; ValidateBeforeBalanceLocks := None |}.

(** ** adjustment_credit: system.adjustment -> user.cash *)
Definition AdjustmentCredit_ResolveAccounts (cmd : Command) : M (ResolvedAccounts * string) :=
  let! cashID := wrap "adjustment_credit: user cash"
    (userAccountID (UserID cmd) AccountTypeCash (Currency_ cmd)) in
  let! currency := wrap "adjustment_credit: currency" (GetAccountCurrency cashID) in
  let! adjID := wrap "adjustment_credit: adjustment account"
    (GetSystemAccountID AccountTypeAdjustment EmptyString currency) in
  ret (twoLeg adjID cashID [], currency).

Definition AdjustmentCredit_Validate (cmd : ResolvedCommand) (bal : balances_map) : M unit :=
  let! _ := require_key (rc_Command cmd) "authorized_by" in validate_amount cmd bal.

Definition AdjustmentCredit_BuildEntries (cmd : ResolvedCommand) (_ : balances_map)
    : M (list EntryInstruction) :=
  let meta := Metadata (rc_Command cmd) in
  two_leg_entries cmd ("adj credit reason=" +:+ MetaString_ meta "reason" +:+ " ref="
                       +:+ MetaString_ meta "ticket_ref") EmptyString.

Definition AdjustmentCredit : TxProcessor :=
  {| Type__ := "adjustment_credit"; ResolveAccounts := AdjustmentCredit_ResolveAccounts;
     Validate := AdjustmentCredit_Validate; BuildEntries := AdjustmentCredit_BuildEntries;
     OutboxEvents := posted_event reg; AfterCommit := no_after_commit;
     ValidateCommand := no_command_checks; ValidateBeforeBalanceLocks := None |}.

(** ** adjustment_debit: user.cash -> system.adjustment *)
Definition AdjustmentDebit_ResolveAccounts (cmd : Command) : M (ResolvedAccounts * string) :=
  let! cashID := wrap "adjustment_debit: user cash"
    (userAccountID (UserID cmd) AccountTypeCash (Currency_ cmd)) in
  let! currency := wrap "adjustment_debit: currency" (GetAccountCurrency cashID) in
  let! adjID := wrap "adjustment_debit: adjustment account"
    (GetSystemAccountID AccountTypeAdjustment EmptyString currency) in
  ret (twoLeg cashID adjID [], currency).

Definition AdjustmentDebit_Validate (cmd : ResolvedCommand) (bal : balances_map) : M unit :=
  let! _ := require_key (rc_Command cmd) "authorized_by" in validate_funds [] cmd bal.

Definition AdjustmentDebit_BuildEntries (cmd : ResolvedCommand) (_ : balances_map)
    : M (list EntryInstruction) :=
  let meta := Metadata (rc_Command cmd) in
  two_leg_entries cmd ("adj debit reason=" +:+ MetaString_ meta "reason" +:+ " ref="
                       +:+ MetaString_ meta "ticket_ref") EmptyString.

Definition AdjustmentDebit : TxProcessor :=
  {| Type__ := "adjustment_debit"; ResolveAccounts := AdjustmentDebit_ResolveAccounts;
     Validate := AdjustmentDebit_Validate; BuildEntries := AdjustmentDebit_BuildEntries;
     OutboxEvents := posted_event reg; AfterCommit := no_after_commit;
     ValidateCommand := no_command_checks; ValidateBeforeBalanceLocks := None |}.

(** ** adjustment_suspense_credit / _debit: system.adjustment <-> system.suspense *)

(** The currency of a correction that names no user account. *)
Definition suspense_currency (cmd : Command) : M string :=
  let currency := MetaString_ (Metadata cmd) "currency" in
  let currency := if empty currency then Currency_ cmd else currency in
  let currency := if empty currency then "IDR" else currency in
  if negb (empty (Currency_ cmd)) && negb (bool_decide (currency = Currency_ cmd)) then
    fail (wrapf ErrCurrencyMismatch "currency metadata does not match command currency")
  else ret currency.

Definition AdjustmentSuspenseCredit_ResolveAccounts (cmd : Command)
    : M (ResolvedAccounts * string) :=
  let! gateway := requireGateway cmd "adjustment_suspense_credit" in
  let! currency := suspense_currency cmd in
  let! adjID := wrap "adjustment_suspense_credit: adjustment account"
    (GetSystemAccountID AccountTypeAdjustment EmptyString currency) in
  let! suspenseID := wrap "adjustment_suspense_credit: suspense account"
    (GetSystemAccountID AccountTypeSuspense (suspenseQualifier gateway) currency) in
  ret (twoLeg adjID suspenseID [], currency).

Definition AdjustmentSuspenseCredit_Validate (cmd : ResolvedCommand) (bal : balances_map)
    : M unit :=
  let! _ := require_key (rc_Command cmd) "authorized_by" in validate_amount cmd bal.

Definition AdjustmentSuspenseCredit_BuildEntries (cmd : ResolvedCommand) (_ : balances_map)
    : M (list EntryInstruction) :=
  two_leg_entries cmd
    ("suspense adj credit reason=" +:+ MetaString_ (Metadata (rc_Command cmd)) "reason")
    EmptyString.

Definition AdjustmentSuspenseCredit : TxProcessor :=
  {| Type__ := "adjustment_suspense_credit";
     ResolveAccounts := AdjustmentSuspenseCredit_ResolveAccounts;
     Validate := AdjustmentSuspenseCredit_Validate;
     BuildEntries := AdjustmentSuspenseCredit_BuildEntries;
     OutboxEvents := posted_event reg; AfterCommit := no_after_commit;
     ValidateCommand := no_command_checks; ValidateBeforeBalanceLocks := None |}.

Definition AdjustmentSuspenseDebit_ResolveAccounts (cmd : Command)
    : M (ResolvedAccounts * string) :=
  let! gateway := requireGateway cmd "adjustment_suspense_debit" in
  let! currency := suspense_currency cmd in
  let! suspenseID := wrap "adjustment_suspense_debit: suspense account"
    (GetSystemAccountID AccountTypeSuspense (suspenseQualifier gateway) currency) in
  let! adjID := wrap "adjustment_suspense_debit: adjustment account"
    (GetSystemAccountID AccountTypeAdjustment EmptyString currency) in
  ret (twoLeg suspenseID adjID [], currency).

Definition AdjustmentSuspenseDebit_Validate (cmd : ResolvedCommand) (bal : balances_map)
    : M unit :=
  let! _ := require_key (rc_Command cmd) "authorized_by" in validate_amount cmd bal.

Definition AdjustmentSuspenseDebit_BuildEntries (cmd : ResolvedCommand) (_ : balances_map)
    : M (list EntryInstruction) :=
  two_leg_entries cmd
    ("suspense adj debit reason=" +:+ MetaString_ (Metadata (rc_Command cmd)) "reason")
    EmptyString.

Definition AdjustmentSuspenseDebit : TxProcessor :=
  {| Type__ := "adjustment_suspense_debit";
     ResolveAccounts := AdjustmentSuspenseDebit_ResolveAccounts;
     Validate := AdjustmentSuspenseDebit_Validate;
     BuildEntries := AdjustmentSuspenseDebit_BuildEntries;
     OutboxEvents := posted_event reg; AfterCommit := no_after_commit;
     ValidateCommand := no_command_checks; ValidateBeforeBalanceLocks := None |}.
End admin.
