(* ===== verification/ProcFx.v ===== *)
(** * FX legs, FX position rebalancing, interest, reversal; the default registry

    services/ledger/internal/processors/fx_*.go, interest_*.go, reversal.go and
    NewDefaultRegistry of processors.go *)
From stdpp Require Import prelude gmap strings list.
From S2P Require Import Prelude Decimal Errors Currency Events Store TxRepo Repos AccountRepo Processors.
From S2P Require Import ProcMoney ProcWithdraw ProcMerchant.

Section fx.
Context `{DEC : !Decimal} `{UT : !UuidText} `{REPO : !AccountRepository} (reg : registry).
Notation balances_map := (gmap uuid AccountBalance).

(** ** fx_rebalance_credit / _debit *)
Definition fxRebalanceTarget (cmd : Command) : result (string * string) :=
  match MetaString (Metadata cmd) "pair" with
  | inl _ => Err (wrapf ErrValidation "FX rebalance requires metadata 'pair'")
  | inr pair_ =>
      if empty (TrimSpace pair_) then
        Err (wrapf ErrValidation "FX rebalance requires metadata 'pair'")
      else
        match MetaString (Metadata cmd) "currency" with
        | inl _ => Err (wrapf ErrValidation "FX rebalance requires metadata 'currency'")
        | inr code =>
            if empty (TrimSpace code) then
              Err (wrapf ErrValidation "FX rebalance requires metadata 'currency'")
            else
              let code := ToUpper (TrimSpace code) in
              match ValidateCode code with
              | Some err => Err (Wrap2 ErrCurrencyInvalid err)
              | None =>
                  if negb (empty (Currency_ cmd))
                     && negb (bool_decide (ToUpper (TrimSpace (Currency_ cmd)) = code)) then
                    Err (wrapf ErrCurrencyMismatch
                           "command currency does not match rebalance currency")
                  else Ok (ToUpper (TrimSpace pair_), code)
              end
        end
  end.

(** fx_position_limits JOIN fx_pairs: the limit of a pair that is not disabled.
    UNIQUE (position_qualifier) and the key (pair, currency) leave one row at most. *)
Definition limit_of_pair (pair_ code : string) (t : fx_tables) (kl : uuid * string * fx_limit_row) : bool :=
  match fx_pairs t !! kl.1.1 with
  | Some p => bool_decide (fp_position_qualifier p = pair_)
              && negb (bool_decide (fp_status p = "disabled")) && bool_decide (kl.1.2 = code)
  | None => false
  end.
Definition position_limit (pair_ code : string) (d : database) : option (Z * Z) :=
  (fun kl => (l_minimum_balance kl.2, l_maximum_balance kl.2)) <$>
  head (filter (fun kl => limit_of_pair pair_ code (fx d) kl = true)
               (map_to_list (fx_position_limits (fx d)))).

Definition lockFXRebalancePositionLimit (cmd : ResolvedCommand) : M unit :=
  let! (pair_, code) := lift (fxRebalanceTarget (rc_Command cmd)) in
  let type := Type_ (rc_Command cmd) in
  let positionIndex := if bool_decide (type = "fx_rebalance_debit") then 0%nat else 1%nat in
  if negb (bool_decide (type = "fx_rebalance_credit"))
     && negb (bool_decide (type = "fx_rebalance_debit")) then
    fail (wrapf ErrValidation "unsupported FX rebalance type")
  else if (length (AccountIDs cmd) <=? positionIndex)%nat then
    fail (wrapf ErrValidation "FX rebalance position account is missing")
  else
    let! limit := try (scan_row (query (fun d _ => position_limit pair_ code d))) in
    match limit with
    | inl err => if is_no_rows err then fail (wrapf ErrFXPositionLimitExceeded "no FX position limit")
                 else fail (Wrap "lock FX position limit" err)
    | inr (minimum, maximum) =>
        if minimum >=? maximum then
          fail (wrapf ErrFXPositionLimitExceeded "invalid FX position limit")
        else
          let! position := account cmd positionIndex in
          let! locked := try (scan_row (query (fun d _ =>
            if bool_decide (is_Some (account_balances d !! position)) then Some position
            else None))) in
          match locked with
          | inl err => if is_no_rows err then
                         fail (wrapf ErrAccountNotFound "FX position account balance is missing")
                       else fail (Wrap "lock FX position balance" err)
          | inr positionID =>
              if negb (bool_decide (positionID = position)) then
                fail (wrapf ErrAccountNotFound "FX position account mismatch")
              else ret tt
          end
    end.

Definition validateFXRebalancePosition (cmd : ResolvedCommand) (bal : balances_map)
    (positionID : uuid) (increase : bool) : M unit :=
  let! (pair_, code) := lift (fxRebalanceTarget (rc_Command cmd)) in
  let! limit := try (scan_row (query (fun d _ => position_limit pair_ code d))) in
  match limit with
  | inl err => if is_no_rows err then fail (wrapf ErrFXPositionLimitExceeded "no FX position limit")
               else fail (Wrap "load FX position limit" err)
  | inr (minimum, maximum) =>
      match bal !! positionID with
      | None => fail (wrapf ErrAccountNotFound "FX position account")
      | Some balance =>
          if negb (dec_is_integer (ab_Balance balance)) then
            fail (wrapf ErrMoneyOverflow "FX position balance is not an integer")
          else
            let amount := Amount (rc_Command cmd) in
            let projected := if increase then dec_add (ab_Balance balance) amount
                             else dec_sub (ab_Balance balance) amount in
            if dec_lt projected (dec_of_Z minimum) || dec_gt projected (dec_of_Z maximum) then
              fail (wrapf ErrFXPositionLimitExceeded "projected balance outside")
            else ret tt
      end
  end.

Definition validate_rebalance (cmd : ResolvedCommand) (bal : balances_map) (index : nat)
    (increase : bool) : M unit :=
  if (length (AccountIDs cmd) <? 2)%nat then
    fail (wrapf ErrValidation "requires source and destination accounts")
  else
    let! _ := require_key (rc_Command cmd) "authorized_by" in
    let! _ := require_key (rc_Command cmd) "reason" in
    let! _ := validate_amount cmd ∅ in
    let! position := account cmd index in
    validateFXRebalancePosition cmd bal position increase.

Definition fxRebalance_ValidateCommand (cmd : Command) : M unit :=
  let! _ := lift (fxRebalanceTarget cmd) in ret tt.

Definition rebalance_note (kind : string) (meta : metadata) : string :=
  "FX rebalance " +:+ kind +:+ " pair=" +:+ MetaString_ meta "pair"
  +:+ " reason=" +:+ MetaString_ meta "reason".

Definition FXRebalanceCredit_ResolveAccounts (cmd : Command) : M (ResolvedAccounts * string) :=
  let! (pair_, code) := lift (fxRebalanceTarget cmd) in
  let! adjustmentID := wrap "fx_rebalance_credit: adjustment account"
    (GetSystemAccountID AccountTypeAdjustment EmptyString code) in
  let! positionID := wrap "fx_rebalance_credit: FX position account"
    (GetSystemAccountID AccountTypeFxConversion pair_ code) in
  ret (twoLeg adjustmentID positionID [], code).

Definition FXRebalanceCredit_Validate (cmd : ResolvedCommand) (bal : balances_map) : M unit :=
  validate_rebalance cmd bal 1 true.

Definition FXRebalanceCredit_BuildEntries (cmd : ResolvedCommand) (_ : balances_map)
    : M (list EntryInstruction) :=
  two_leg_entries cmd (rebalance_note "credit" (Metadata (rc_Command cmd))) EmptyString.

Definition FXRebalanceCredit : TxProcessor :=
  {| Type__ := "fx_rebalance_credit"; ResolveAccounts := FXRebalanceCredit_ResolveAccounts;
     Validate := FXRebalanceCredit_Validate; BuildEntries := FXRebalanceCredit_BuildEntries;
     OutboxEvents := posted_event reg; AfterCommit := no_after_commit;
     ValidateCommand := fxRebalance_ValidateCommand;
     ValidateBeforeBalanceLocks := Some lockFXRebalancePositionLimit |}.

Definition FXRebalanceDebit_ResolveAccounts (cmd : Command) : M (ResolvedAccounts * string) :=
  let! (pair_, code) := lift (fxRebalanceTarget cmd) in
  let! positionID := wrap "fx_rebalance_debit: FX position account"
    (GetSystemAccountID AccountTypeFxConversion pair_ code) in
  let! adjustmentID := wrap "fx_rebalance_debit: adjustment account"
    (GetSystemAccountID AccountTypeAdjustment EmptyString code) in
  ret (twoLeg positionID adjustmentID [], code).

Definition FXRebalanceDebit_Validate (cmd : ResolvedCommand) (bal : balances_map) : M unit :=
  validate_rebalance cmd bal 0 false.

Definition FXRebalanceDebit_BuildEntries (cmd : ResolvedCommand) (_ : balances_map)
    : M (list EntryInstruction) :=
  two_leg_entries cmd (rebalance_note "debit" (Metadata (rc_Command cmd))) EmptyString.

Definition FXRebalanceDebit : TxProcessor :=
  {| Type__ := "fx_rebalance_debit"; ResolveAccounts := FXRebalanceDebit_ResolveAccounts;
     Validate := FXRebalanceDebit_Validate; BuildEntries := FXRebalanceDebit_BuildEntries;
     OutboxEvents := posted_event reg; AfterCommit := no_after_commit;
     ValidateCommand := fxRebalance_ValidateCommand;
     ValidateBeforeBalanceLocks := Some lockFXRebalancePositionLimit |}.

(** ** fx_out / fx_in: user.cash <-> fx_conversion[pair] *)
Definition fx_note (kind : string) (meta : metadata) : string :=
  kind +:+ " pair=" +:+ MetaString_ meta "pair" +:+ " quote=" +:+ MetaString_ meta "quote_id"
  +:+ " rate=" +:+ MetaString_ meta "rate".

Definition FxOut_ResolveAccounts (cmd : Command) : M (ResolvedAccounts * string) :=
  let! pair_ := require_value cmd "pair" in
  let! cashID := wrap "fx_out: user cash"
    (userAccountID (UserID cmd) AccountTypeCash (Currency_ cmd)) in
  let! currency := wrap "fx_out: currency" (GetAccountCurrency cashID) in
  let! fxID := wrap "fx_out: fx_conversion"
    (GetSystemAccountID AccountTypeFxConversion pair_ currency) in
  ret (twoLeg cashID fxID [], currency).

Definition FxOut_Validate (cmd : ResolvedCommand) (bal : balances_map) : M unit :=
  validate_funds [] cmd bal.

Definition FxOut_BuildEntries (cmd : ResolvedCommand) (_ : balances_map)
    : M (list EntryInstruction) :=
  two_leg_entries cmd (fx_note "fx_out" (Metadata (rc_Command cmd))) EmptyString.

Definition FxOut_ValidateCommand (cmd : Command) : M unit :=
  require_values cmd ["quote_id"; "rate"; "pair"].

Definition FxOut : TxProcessor :=
  {| Type__ := "fx_out"; ResolveAccounts := FxOut_ResolveAccounts;
     Validate := FxOut_Validate; BuildEntries := FxOut_BuildEntries;
     OutboxEvents := posted_event reg; AfterCommit := no_after_commit;
     ValidateCommand := FxOut_ValidateCommand; ValidateBeforeBalanceLocks := None |}.

Definition FxIn_ResolveAccounts (cmd : Command) : M (ResolvedAccounts * string) :=
  let! pair_ := require_value cmd "pair" in
  let! cashID := wrap "fx_in: user cash"
    (userAccountID (UserID cmd) AccountTypeCash (Currency_ cmd)) in
  let! currency := wrap "fx_in: currency" (GetAccountCurrency cashID) in
  let! fxID := wrap "fx_in: fx_conversion"
    (GetSystemAccountID AccountTypeFxConversion pair_ currency) in
  ret (twoLeg fxID cashID [], currency).

Definition FxIn_Validate (cmd : ResolvedCommand) (bal : balances_map) : M unit :=
  validate_amount cmd bal.

Definition FxIn_BuildEntries (cmd : ResolvedCommand) (_ : balances_map)
    : M (list EntryInstruction) :=
  two_leg_entries cmd (fx_note "fx_in" (Metadata (rc_Command cmd))) EmptyString.

Definition FxIn_ValidateCommand (cmd : Command) : M unit :=
  require_values cmd ["quote_id"; "rate"; "pair"].

Definition FxIn : TxProcessor :=
  {| Type__ := "fx_in"; ResolveAccounts := FxIn_ResolveAccounts;
     Validate := FxIn_Validate; BuildEntries := FxIn_BuildEntries;
     OutboxEvents := posted_event reg; AfterCommit := no_after_commit;
     ValidateCommand := FxIn_ValidateCommand; ValidateBeforeBalanceLocks := None |}.

(** ** Interest *)
Definition interest_expense (name currency : string) : M uuid :=
  wrap name (GetSystemAccountID AccountTypeInterestExpense EmptyString currency).
Definition interest_payable (name currency : string) : M uuid :=
  wrap name (GetSystemAccountID AccountTypeAccruedInterestPayable EmptyString currency).

Definition InterestAccrue_ResolveAccounts (cmd : Command) : M (ResolvedAccounts * string) :=
  let! accountID := meta_uuid "interest_accrue" cmd "account_id" in
  let! currency := wrap "interest_accrue: currency" (GetAccountCurrency accountID) in
  let! expenseID := interest_expense "interest_accrue: interest_expense" currency in
  ret (twoLeg expenseID accountID [], currency).

Definition InterestAccrue_Validate (cmd : ResolvedCommand) (bal : balances_map) : M unit :=
  validate_amount cmd bal.

Definition InterestAccrue_BuildEntries (cmd : ResolvedCommand) (_ : balances_map)
    : M (list EntryInstruction) :=
  let meta := Metadata (rc_Command cmd) in
  two_leg_entries cmd ("interest accrual date=" +:+ MetaString_ meta "accrual_date"
                       +:+ " rate_bps=" +:+ MetaString_ meta "rate_bps") EmptyString.

Definition InterestAccrue_ValidateCommand (cmd : Command) : M unit :=
  let! _ := require_uuid cmd "account_id" in require_values cmd ["accrual_date"; "rate_bps"].

Definition InterestAccrue : TxProcessor :=
  {| Type__ := "interest_accrue"; ResolveAccounts := InterestAccrue_ResolveAccounts;
     Validate := InterestAccrue_Validate; BuildEntries := InterestAccrue_BuildEntries;
     OutboxEvents := posted_event reg; AfterCommit := no_after_commit;
     ValidateCommand := InterestAccrue_ValidateCommand; ValidateBeforeBalanceLocks := None |}.

Definition InterestLiabilityAccrue_ResolveAccounts (cmd : Command)
    : M (ResolvedAccounts * string) :=
  let! accountID := meta_uuid "interest_liability_accrue" cmd "account_id" in
  let! currency := wrap "interest_liability_accrue: currency" (GetAccountCurrency accountID) in
  let! expenseID := interest_expense "interest_liability_accrue: interest expense" currency in
  let! payableID := interest_payable "interest_liability_accrue: payable" currency in
  ret ({| Ordered := [expenseID; payableID]; ra_Source := expenseID;
          ra_Destination := payableID |}, currency).

Definition InterestLiabilityAccrue_Validate (cmd : ResolvedCommand) (bal : balances_map)
    : M unit := validate_amount cmd bal.

Definition InterestLiabilityAccrue_BuildEntries (cmd : ResolvedCommand) (_ : balances_map)
    : M (list EntryInstruction) :=
  let meta := Metadata (rc_Command cmd) in
  two_leg_entries cmd ("interest liability accrual date=" +:+ MetaString_ meta "accrual_date"
                       +:+ " rate_bps=" +:+ MetaString_ meta "rate_bps")
    "accrued interest payable".

Definition InterestLiabilityAccrue_ValidateCommand (cmd : Command) : M unit :=
  let! _ := require_uuid cmd "account_id" in
  require_values cmd ["accrual_date"; "rate_bps"; "enrollment_id"; "period_id"].

Definition InterestLiabilityAccrue : TxProcessor :=
  {| Type__ := "interest_liability_accrue";
     ResolveAccounts := InterestLiabilityAccrue_ResolveAccounts;
     Validate := InterestLiabilityAccrue_Validate;
     BuildEntries := InterestLiabilityAccrue_BuildEntries;
     OutboxEvents := posted_event reg; AfterCommit := no_after_commit;
     ValidateCommand := InterestLiabilityAccrue_ValidateCommand;
     ValidateBeforeBalanceLocks := None |}.

Definition InterestCapitalize_ResolveAccounts (cmd : Command) : M (ResolvedAccounts * string) :=
  let! accountID := meta_uuid "interest_capitalize" cmd "account_id" in
  let! currency := wrap "interest_capitalize: currency" (GetAccountCurrency accountID) in
  let! payableID := interest_payable "interest_capitalize: payable" currency in
  ret (twoLeg payableID accountID [], currency).

Definition InterestCapitalize_Validate (cmd : ResolvedCommand) (bal : balances_map) : M unit :=
  validate_amount cmd bal.

Definition InterestCapitalize_BuildEntries (cmd : ResolvedCommand) (_ : balances_map)
    : M (list EntryInstruction) :=
  two_leg_entries cmd
    ("release accrued interest payable period="
     +:+ MetaString_ (Metadata (rc_Command cmd)) "period_id")
    "monthly interest capitalization".

Definition InterestCapitalize_ValidateCommand (cmd : Command) : M unit :=
  let! _ := require_uuid cmd "account_id" in require_values cmd ["period_id"; "enrollment_id"].

Definition InterestCapitalize : TxProcessor :=
  {| Type__ := "interest_capitalize"; ResolveAccounts := InterestCapitalize_ResolveAccounts;
     Validate := InterestCapitalize_Validate; BuildEntries := InterestCapitalize_BuildEntries;
     OutboxEvents := posted_event reg; AfterCommit := no_after_commit;
     ValidateCommand := InterestCapitalize_ValidateCommand;
     ValidateBeforeBalanceLocks := None |}.

Definition correction_stage (cmd : Command) : M string :=
  match MetaString (Metadata cmd) "correction_stage" with
  | inr stage => if bool_decide (stage = "accrual") || bool_decide (stage = "capitalization")
                 then ret stage
                 else fail (wrapf ErrValidation "correction_stage must be accrual or capitalization")
  | inl _ => fail (wrapf ErrValidation "correction_stage must be accrual or capitalization")
  end.

Definition InterestAdjustment_ResolveAccounts (cmd : Command) : M (ResolvedAccounts * string) :=
  let! accountID := meta_uuid "interest_adjustment" cmd "account_id" in
  let! currency := wrap "interest_adjustment: currency" (GetAccountCurrency accountID) in
  let! expenseID := interest_expense "interest_adjustment: interest expense" currency in
  let! payableID := interest_payable "interest_adjustment: payable" currency in
  let! stage := correction_stage cmd in
  let negative := bool_decide (MetaString_ (Metadata cmd) "direction" = "negative") in
  if bool_decide (stage = "accrual") then
    if negative then ret (twoLeg payableID expenseID [], currency)
    else ret (twoLeg expenseID payableID [], currency)
  else if negative then ret (twoLeg accountID payableID [], currency)
  else ret (twoLeg payableID accountID [], currency).

Definition InterestAdjustment_Validate (cmd : ResolvedCommand) (bal : balances_map) : M unit :=
  if bool_decide (MetaString_ (Metadata (rc_Command cmd)) "direction" = "negative") then
    validate_funds [] cmd bal
  else validate_amount cmd bal.

Definition InterestAdjustment_BuildEntries (cmd : ResolvedCommand) (_ : balances_map)
    : M (list EntryInstruction) :=
  let meta := Metadata (rc_Command cmd) in
  two_leg_entries cmd ("interest adjustment id=" +:+ MetaString_ meta "adjustment_id"
                       +:+ " direction=" +:+ MetaString_ meta "direction")
    "explicit interest correction".

Definition InterestAdjustment_ValidateCommand (cmd : Command) : M unit :=
  let! _ := require_uuid cmd "account_id" in
  let! _ := require_values cmd ["adjustment_id"; "period_id"; "enrollment_id"] in
  let! _ := correction_stage cmd in
  match MetaString (Metadata cmd) "direction" with
  | inr d => if bool_decide (d = "positive") || bool_decide (d = "negative") then ret tt
             else fail (wrapf ErrValidation "direction must be positive or negative")
  | inl _ => fail (wrapf ErrValidation "direction must be positive or negative")
  end.

Definition InterestAdjustment : TxProcessor :=
  {| Type__ := "interest_adjustment"; ResolveAccounts := InterestAdjustment_ResolveAccounts;
     Validate := InterestAdjustment_Validate; BuildEntries := InterestAdjustment_BuildEntries;
     OutboxEvents := posted_event reg; AfterCommit := no_after_commit;
     ValidateCommand := InterestAdjustment_ValidateCommand;
     ValidateBeforeBalanceLocks := None |}.

(** ** reversal: every entry of the original, swapped *)
Definition Reversal_ResolveAccounts (cmd : Command) : M (ResolvedAccounts * string) :=
  if bool_decide (ReferenceID cmd = uuid_Nil) then
    fail (Plain "reversal: ReferenceID (original transaction ID) required")
  else
    let! accountIDs := wrap "reversal: get account IDs from original"
      (TransactionRepo_GetAccountIDs (ReferenceID cmd)) in
    match accountIDs with
    | [] => fail (wrapf ErrOriginalNotFound EmptyString)
    | first :: _ =>
        let! currency := wrap "reversal: currency" (GetAccountCurrency first) in
        ret ({| Ordered := accountIDs; ra_Source := uuid_Nil; ra_Destination := uuid_Nil |},
             currency)
    end.

Definition Reversal_Validate (cmd : ResolvedCommand) (_ : balances_map) : M unit :=
  let! (origType, status, _, closedBy) :=
    wrap "reversal: get original header"
      (TransactionRepo_GetHeader (ReferenceID (rc_Command cmd))) in
  if bool_decide (origType = "reversal") then
    fail (NewBizErr ErrNotReversible "cannot reverse a reversal")
  else if bool_decide (is_Some closedBy) then
    fail (NewBizErr ErrAlreadyReversed "transaction already reversed")
  else if negb (bool_decide (status = "posted")) then
    fail (NewBizErr ErrNotReversible "original status must be 'posted'")
  else ret tt.

(** A credited account must still hold what it received; an account missing
    from the map reads as the zero value. *)
Definition reversal_funds_ok (bal : balances_map) (e : entry_row) : bool :=
  match e_direction e with
  | Debit => true
  | Credit =>
      let b := match bal !! e_account_id e with
               | Some ab => ab_Balance ab | None => dec_zero end in
      negb (dec_lt b (dec_of_Z (e_amount e)))
  end.

Definition swap (d : Direction) : Direction := match d with Credit => Debit | Debit => Credit end.

Definition reverse_entry (e : entry_row) : EntryInstruction :=
  {| ei_AccountID := e_account_id e; ei_Direction := swap (e_direction e);
     ei_Amount := dec_of_Z (e_amount e);
     ei_Note := "reversal of entry " +:+ uuid_string (e_id e) |}.

Definition Reversal_BuildEntries (cmd : ResolvedCommand) (bal : balances_map)
    : M (list EntryInstruction) :=
  let! origEntries := wrap "reversal: fetch original entries"
    (TransactionRepo_GetEntries (ReferenceID (rc_Command cmd))) in
  if bool_decide (origEntries = []) then fail (wrapf ErrOriginalNotFound "no entries")
  else if negb (forallb (reversal_funds_ok bal) origEntries) then
    fail (NewBizErr ErrInsufficientFunds "reversal: account has, needs")
  else ret (map reverse_entry origEntries).

Definition Reversal_OutboxEvents (cmd : ResolvedCommand) (txID : uuid)
    (entries : list EntryInstruction) (now : Z) : list OutboxEvent :=
  let reference := ReferenceID (rc_Command cmd) in
  [ newPostedEvent reg cmd txID entries now;
    {| AggregateType := "ledger_transaction"; AggregateID := reference;
       EventType := TypeTransactionReversed;
       Payload := PReversed (NewTransactionReversed txID reference
                               (dec_string (Amount (rc_Command cmd))) (rc_Currency cmd) now) |} ].

Definition Reversal : TxProcessor :=
  {| Type__ := "reversal"; ResolveAccounts := Reversal_ResolveAccounts;
     Validate := Reversal_Validate; BuildEntries := Reversal_BuildEntries;
     OutboxEvents := Reversal_OutboxEvents; AfterCommit := no_after_commit;
     ValidateCommand := no_command_checks; ValidateBeforeBalanceLocks := None |}.

(** ** NewDefaultRegistry *)
Definition default_processors : list TxProcessor :=
  [ MoneyIn reg; MoneyOut reg;
    WithdrawInitiate reg; WithdrawPending reg; WithdrawSettle reg; WithdrawCancel reg;
    WithdrawPendingSettle reg; WithdrawPendingCancel reg;
    TransferP2P reg; TransferPocket reg;
    MerchantTransfer reg; MerchantPayinCredit reg; MerchantPayoutHold reg;
    MerchantPayoutSettle reg; MerchantPayoutCancel reg;
    Refund reg; FeeCollect reg; Chargeback reg;
    EscrowHold reg; EscrowRelease reg; EscrowRefund reg;
    FreezeInitiate reg; FreezeRelease reg; FreezeConfiscate reg;
    AdjustmentCredit reg; AdjustmentDebit reg; AdjustmentSuspenseCredit reg;
    AdjustmentSuspenseDebit reg;
    FXRebalanceCredit; FXRebalanceDebit; FxOut; FxIn;
    Disbursement reg;
    InterestAccrue; InterestLiabilityAccrue; InterestCapitalize; InterestAdjustment;
    Reversal ].

Definition NewDefaultRegistry : result ProcessorRegistry := NewRegistry default_processors.
End fx.
