(* ===== verification/FxRepo.v ===== *)
(** * Statements of foreign exchange

    The SQL of services/ledger/internal/ledger/fx/service.go over the tables of
    migration 000039, with their checks, keys and consistency triggers, and the
    structs of ledger/model/multi_currency.go the rows are scanned into.  The
    clock counts seconds. *)
From Stdlib Require Import Ascii String.
From stdpp Require Import prelude gmap strings list sorting.
From S2P Require Import Prelude Decimal Errors Currency Events Money Store TxRepo AccountRepo.
From Stdlib Require Import QArith Qround.
Open Scope Z_scope.

(** ** NUMERIC(38,18) *)
(** The text of a column: eighteen decimals. *)
Definition numeric18_text (z : Z) : string :=
  let digits := pad_digits (Z_text z) 18 in
  let point := (String.length digits - 18)%nat in
  String.substring 0 point digits +:+ "." +:+ String.substring point 18 digits.
(** The value of a decimal text bound to a column: rounded half away from zero,
    at most twenty digits before the point.  Only positive texts reach it. *)
Definition numeric18 (text : string) : error + Z :=
  match Rat_SetString text with
  | None => inl (PgError "22P02" "invalid input syntax for type numeric")
  | Some q =>
      let z := Qfloor (q * inject_Z (10 ^ 18) + (1 # 2)) in
      if 10 ^ 38 <=? z then inl (PgError "22003" "numeric field overflow") else inr z
  end.
(** NUMERIC(120,0) from the digits of a big integer. *)
Definition numeric120 (text : string) : error + Z :=
  match Int_SetString text with
  | None => inl (PgError "22P02" "invalid input syntax for type numeric")
  | Some z => if 10 ^ 120 <=? Z.abs z then inl (PgError "22003" "numeric field overflow") else inr z
  end.

(** ** model.FXQuote, model.FXConversion *)
Record FXQuote := MkFXQuote {
  xq_ID : uuid; xq_UserID : uuid; xq_PairID : uuid; xq_DirectionID : uuid; xq_RateVersionID : uuid;
  xq_SourceCurrency : string; xq_TargetCurrency : string;
  xq_SourceMinorUnit : Z; xq_TargetMinorUnit : Z; xq_SourceAmount : Z; xq_TargetAmount : Z;
  xq_ReferenceRate : string; xq_ClientRate : string; xq_RateConvention : string;
  xq_PairPolicyVersion : Z; xq_SpreadBasisPoints : Z; xq_RoundingMode : string;
  xq_RoundingRemainder : string; xq_RequestKey : string; xq_Status : string;
  xq_ExpiresAt : Z; xq_ConsumedAt : option Z; xq_ConsumedByConversion : uuid; xq_CreatedAt : Z }.
Record FXConversion := MkFXConversion {
  xv_ID : uuid; xv_UserID : uuid; xv_QuoteID : uuid; xv_IdempotencyKey : string;
  xv_SourceCurrency : string; xv_TargetCurrency : string; xv_SourceAmount : Z; xv_TargetAmount : Z;
  xv_Status : string; xv_SourceTransactionID : uuid; xv_TargetTransactionID : uuid;
  xv_ErrorMessage : string; xv_CreatedAt : Z; xv_PostedAt : option Z }.

(** quoteSelect: an active row past its expiry reads as expired. *)
Definition quote_status (now : Z) (q : fx_quote_row) : string :=
  if bool_decide (fq_status q = "active") && (fq_expires_at q <=? now) then "expired" else fq_status q.
Definition remainder_text (numerator denominator : string) : string :=
  numerator +:+ "/" +:+ denominator.
Definition scanFXQuote (now : Z) (id : uuid) (q : fx_quote_row) : FXQuote :=
  {| xq_ID := id; xq_UserID := fq_user_id q; xq_PairID := fq_pair_id q;
     xq_DirectionID := fq_direction_id q; xq_RateVersionID := fq_rate_version_id q;
     xq_SourceCurrency := TrimSpace (fq_source_currency q);
     xq_TargetCurrency := TrimSpace (fq_target_currency q);
     xq_SourceMinorUnit := fq_source_minor_unit q; xq_TargetMinorUnit := fq_target_minor_unit q;
     xq_SourceAmount := fq_source_amount q; xq_TargetAmount := fq_target_amount q;
     xq_ReferenceRate := numeric18_text (fq_reference_rate q); xq_ClientRate := fq_client_rate q;
     xq_RateConvention := fq_rate_convention q; xq_PairPolicyVersion := fq_pair_policy_version q;
     xq_SpreadBasisPoints := fq_spread_basis_points q; xq_RoundingMode := fq_rounding_mode q;
     xq_RoundingRemainder := remainder_text (Z_text (fq_remainder_numerator q))
                               (Z_text (fq_remainder_denominator q));
     xq_RequestKey := fq_request_key q; xq_Status := quote_status now q;
     xq_ExpiresAt := fq_expires_at q; xq_ConsumedAt := fq_consumed_at q;
     xq_ConsumedByConversion := default uuid_Nil (fq_consumed_by_conversion_id q);
     xq_CreatedAt := fq_created_at q |}.
Definition scanFXConversion (id : uuid) (c : fx_conversion_row) : FXConversion :=
  {| xv_ID := id; xv_UserID := fc_user_id c; xv_QuoteID := fc_quote_id c;
     xv_IdempotencyKey := fc_idempotency_key c;
     xv_SourceCurrency := TrimSpace (fc_source_currency c);
     xv_TargetCurrency := TrimSpace (fc_target_currency c);
     xv_SourceAmount := fc_source_amount c; xv_TargetAmount := fc_target_amount c;
     xv_Status := fc_status c;
     xv_SourceTransactionID := default uuid_Nil (fc_source_transaction_id c);
     xv_TargetTransactionID := default uuid_Nil (fc_target_transaction_id c);
     xv_ErrorMessage := default EmptyString (fc_error_message c);
     xv_CreatedAt := fc_created_at c; xv_PostedAt := fc_posted_at c |}.

(** The row of a table that meets a condition; a unique key leaves one at most. *)
Definition find_row {R} (P : uuid -> R -> bool) (t : gmap uuid R) : option (uuid * R) :=
  head (filter (fun kr => P kr.1 kr.2 = true) (map_to_list t)).
Definition select_quote (P : uuid -> fx_quote_row -> bool) (d : database) (now : Z) : option FXQuote :=
  (fun kr => scanFXQuote now kr.1 kr.2) <$> find_row P (fx_quotes (fx d)).
Definition select_conversion (P : uuid -> fx_conversion_row -> bool) (d : database) (_ : Z)
    : option FXConversion :=
  (fun kr => scanFXConversion kr.1 kr.2) <$> find_row P (fx_conversions (fx d)).
Definition quote_of_key (user : uuid) (key : string) (_ : uuid) (q : fx_quote_row) : bool :=
  bool_decide (fq_user_id q = user) && bool_decide (fq_request_key q = key).
Definition quote_of_id (user id : uuid) (id' : uuid) (q : fx_quote_row) : bool :=
  bool_decide (id' = id) && bool_decide (fq_user_id q = user).
Definition conversion_of_key (user : uuid) (key : string) (_ : uuid) (c : fx_conversion_row) : bool :=
  bool_decide (fc_user_id c = user) && bool_decide (fc_idempotency_key c = key).
Definition conversion_of_id (user id : uuid) (id' : uuid) (c : fx_conversion_row) : bool :=
  bool_decide (id' = id) && bool_decide (fc_user_id c = user).

(** ** INSERT INTO fx_quotes *)
Fixpoint all_chars (P : ascii -> bool) (s : string) : bool :=
  match s with EmptyString => true | String c s' => P c && all_chars P s' end.
Definition digit_text (s : string) : bool :=
  negb (bool_decide (s = EmptyString)) && all_chars is_digit s.
Definition starts_nonzero (s : string) : bool :=
  match s with String c _ => is_digit c && negb (bool_decide (c = "0"%char)) | EmptyString => false end.
(** CHECK on client_rate: a decimal or a fraction in lowest-looking form, not zero. *)
Definition client_rate_ok (s : string) : bool :=
  if count_char "/" s =? 1 then
    let '(a, b) := split_at "/" s in
    starts_nonzero a && digit_text a && starts_nonzero b && digit_text b
  else
    let '(a, b) := split_at "." s in
    digit_text a && ((count_char "." s =? 0) || ((count_char "." s =? 1) && digit_text b))
    && negb (all_chars (fun c => bool_decide (c = "0"%char)) (a +:+ b)).
Definition fx_quote_checks (q : fx_quote_row) : bool :=
  (0 <=? fq_source_minor_unit q) && (0 <=? fq_target_minor_unit q)
  && (0 <? fq_source_amount q) && (0 <? fq_target_amount q) && (0 <? fq_reference_rate q)
  && client_rate_ok (fq_client_rate q) && (0 <? fq_pair_policy_version q)
  && (0 <=? fq_spread_basis_points q) && (fq_spread_basis_points q <=? 9999)
  && bool_decide (fq_rounding_mode q = "toward_zero") && (0 <? fq_remainder_denominator q)
  && bool_decide (fq_status q ∈ ["active"; "consumed"; "expired"; "cancelled"])
  && negb (bool_decide (fq_source_currency q = fq_target_currency q)).
(** fn_guard_fx_quote_consistency *)
Definition quote_consistent (t : fx_tables) (q : fx_quote_row) : bool :=
  match fx_pair_directions t !! fq_direction_id q, fx_rate_versions t !! fq_rate_version_id q with
  | Some d, Some r =>
      bool_decide (fd_pair_id d = fq_pair_id q)
      && bool_decide (fd_source_currency d = fq_source_currency q)
      && bool_decide (fd_target_currency d = fq_target_currency q)
      && bool_decide (fr_pair_id r = fq_pair_id q)
      && bool_decide (fr_direction_id r = fq_direction_id q)
  | _, _ => false
  end.
Definition has_currency (d : database) (code : string) : bool := bool_decide (is_Some (currencies d !! code)).
Definition sql_insert_fx_quote (id : uuid) (q : fx_quote_row) (d : database) (_ : Z)
    : error + (Z * database) :=
  let t := fx d in
  if negb (quote_consistent t q) then
    inl (PgError "P0001" "FX quote pair, direction, rate, and currencies must match")
  else if negb (fx_quote_checks q) then inl (PgError "23514" "violates check constraint")
  else if bool_decide (is_Some (fx_quotes t !! id))
          || bool_decide (is_Some (find_row (quote_of_key (fq_user_id q) (fq_request_key q)) (fx_quotes t))) then
    inl (PgError "23505" "duplicate key value violates unique constraint")
  else if negb (bool_decide (is_Some (fx_pairs t !! fq_pair_id q)))
          || negb (has_currency d (fq_source_currency q)) || negb (has_currency d (fq_target_currency q)) then
    inl (PgError "23503" "violates foreign key constraint")
  else inr (fq_created_at q, with_fx d (set_fx_quotes t (<[id := q]> (fx_quotes t)))).
(** UPDATE fx_quotes SET status = 'consumed' *)
Definition consumed_row (now : Z) (conversion : uuid) (q : fx_quote_row) : fx_quote_row :=
  {| fq_user_id := fq_user_id q; fq_pair_id := fq_pair_id q; fq_direction_id := fq_direction_id q;
     fq_rate_version_id := fq_rate_version_id q; fq_source_currency := fq_source_currency q;
     fq_target_currency := fq_target_currency q; fq_source_minor_unit := fq_source_minor_unit q;
     fq_target_minor_unit := fq_target_minor_unit q; fq_source_amount := fq_source_amount q;
     fq_target_amount := fq_target_amount q; fq_reference_rate := fq_reference_rate q;
     fq_client_rate := fq_client_rate q; fq_rate_convention := fq_rate_convention q;
     fq_pair_policy_version := fq_pair_policy_version q;
     fq_spread_basis_points := fq_spread_basis_points q; fq_rounding_mode := fq_rounding_mode q;
     fq_remainder_numerator := fq_remainder_numerator q;
     fq_remainder_denominator := fq_remainder_denominator q; fq_request_key := fq_request_key q;
     fq_status := "consumed"; fq_expires_at := fq_expires_at q; fq_consumed_at := Some now;
     fq_consumed_by_conversion_id := Some conversion; fq_created_at := fq_created_at q |}.
Definition sql_consume_fx_quote (id conversion : uuid) (now : Z) (d : database) (_ : Z)
    : error + (unit * database) :=
  inr (tt, with_fx d (set_fx_quotes (fx d) (alter (consumed_row now conversion) id (fx_quotes (fx d))))).

(** ** fx_conversions *)
Definition fx_conversion_checks (c : fx_conversion_row) : bool :=
  (0 <? fc_source_amount c) && (0 <? fc_target_amount c)
  && bool_decide (fc_status c ∈ ["pending"; "posted"; "failed"]).
(** fn_guard_fx_conversion_consistency *)
Definition conversion_consistent (t : fx_tables) (c : fx_conversion_row) : bool :=
  match fx_quotes t !! fc_quote_id c with
  | Some q =>
      bool_decide (fq_user_id q = fc_user_id c)
      && bool_decide (fq_source_currency q = fc_source_currency c)
      && bool_decide (fq_target_currency q = fc_target_currency c)
      && (fq_source_amount q =? fc_source_amount c) && (fq_target_amount q =? fc_target_amount c)
  | None => false
  end.
Definition conversion_of_quote (quote : uuid) (_ : uuid) (c : fx_conversion_row) : bool :=
  bool_decide (fc_quote_id c = quote).
Definition sql_insert_fx_conversion (id : uuid) (c : fx_conversion_row) (d : database) (_ : Z)
    : error + (Z * database) :=
  let t := fx d in
  if negb (conversion_consistent t c) then inl (PgError "P0001" "FX conversion must match its quote and user")
  else if negb (fx_conversion_checks c) then inl (PgError "23514" "violates check constraint")
  else if bool_decide (is_Some (fx_conversions t !! id))
          || bool_decide (is_Some (find_row (conversion_of_key (fc_user_id c) (fc_idempotency_key c))
                                            (fx_conversions t)))
          || bool_decide (is_Some (find_row (conversion_of_quote (fc_quote_id c)) (fx_conversions t))) then
    inl (PgError "23505" "duplicate key value violates unique constraint")
  else if negb (has_currency d (fc_source_currency c)) || negb (has_currency d (fc_target_currency c)) then
    inl (PgError "23503" "violates foreign key constraint")
  else inr (fc_created_at c, with_fx d (set_fx_conversions t (<[id := c]> (fx_conversions t)))).
Definition posted_row (source target : uuid) (now : Z) (c : fx_conversion_row) : fx_conversion_row :=
  {| fc_user_id := fc_user_id c; fc_quote_id := fc_quote_id c;
     fc_idempotency_key := fc_idempotency_key c; fc_source_currency := fc_source_currency c;
     fc_target_currency := fc_target_currency c; fc_source_amount := fc_source_amount c;
     fc_target_amount := fc_target_amount c; fc_status := "posted";
     fc_source_transaction_id := Some source; fc_target_transaction_id := Some target;
     fc_error_message := fc_error_message c; fc_created_at := fc_created_at c;
     fc_posted_at := Some now |}.
Definition has_tx (d : database) (id : uuid) : bool := bool_decide (is_Some (ledger_transactions d !! id)).
Definition sql_post_fx_conversion (id source target : uuid) (now : Z) (d : database) (_ : Z)
    : error + (unit * database) :=
  if negb (has_tx d source) || negb (has_tx d target) then
    inl (PgError "23503" "violates foreign key constraint")
  else inr (tt, with_fx d (set_fx_conversions (fx d)
                  (alter (posted_row source target now) id (fx_conversions (fx d))))).

(** ** The legs' columns on ledger_transactions *)
Definition link_taken (link : fx_link) (id : uuid) (t : fx_tables) : bool :=
  existsb (fun kl => negb (bool_decide (kl.1 = id))
                     && bool_decide (k_conversion_id kl.2 = k_conversion_id link)
                     && bool_decide (k_fx_leg kl.2 = k_fx_leg link)) (map_to_list (fx_links t)).
Definition sql_link_fx (id : uuid) (link : fx_link) (d : database) (_ : Z) : error + (unit * database) :=
  let t := fx d in
  if negb (has_tx d id) then inr (tt, d)
  else if negb (bool_decide (k_fx_leg link ∈ ["source"; "target"])) then
    inl (PgError "23514" "violates check constraint")
  else if link_taken link id t then inl (PgError "23505" "duplicate key value violates unique constraint")
  else if negb (bool_decide (is_Some (fx_conversions t !! k_conversion_id link)))
          || negb (bool_decide (is_Some (fx_quotes t !! k_fx_quote_id link)))
          || negb (has_tx d (k_counterpart_transaction_id link)) then
    inl (PgError "23503" "violates foreign key constraint")
  else inr (tt, with_fx d (set_fx_links t (<[id := link]> (fx_links t)))).

(** ** Accounts of a conversion *)
Definition user_cash (user : uuid) (code : string) (a : account_row) : bool :=
  owned_by "user" user a && has_type "cash" a && in_currency code a && no_pocket a && is_active a.
Definition position_of (qualifier code : string) (a : account_row) : bool :=
  bool_decide (a_owner_type a = "system") && has_type "fx_conversion" a && in_currency code a
  && bool_decide (a_system_qualifier a = Some qualifier) && is_active a.
Definition first_id (P : account_row -> bool) (d : database) : option uuid :=
  head (select_where P d).*1.
