(* ===== verification/Fx.v ===== *)
(** * Foreign exchange: services/ledger/internal/ledger/fx/service.go

    Pricing a quote from the active rate version, and executing one: a conversion
    is two balanced transactions, one per currency, written by one serializable
    database transaction together with the quote's consumption.  Metrics are left
    out. *)
From stdpp Require Import prelude gmap strings list sorting.
From S2P Require Import Prelude Decimal Errors Currency Events Money Store TxRepo Repos AccountRepo.
From S2P Require Import Fee Processors ProcFx FxRepo.
From Stdlib Require Import QArith.
Open Scope Z_scope.

(** ** Pure parts *)
(** [errors.Is] against an error of another package, a plain value here. *)
Fixpoint wraps_plain (text : string) (err : error) : bool :=
  match err with
  | Plain t => bool_decide (t = text)
  | Wrap _ e | Wrap2 _ e => wraps_plain text e
  | _ => false
  end.
Definition is_money_error (target err : error) : bool :=
  match target with Plain text => wraps_plain text err | _ => false end.
(** The stored rate is base to quote: the bid going that way, the inverse of the
    ask coming back. *)
Definition canonicalDirectionalRates (baseCurrency quoteCurrency sourceCurrency targetCurrency : string)
    (reference : Rate) (spread : Z) : error + (Rate * Rate) :=
  match r_Value reference with
  | None => inl (wrapf ErrFXRateInvalid "invalid reference rate or spread")
  | Some v =>
      if (Qnum v <=? 0) || (spread <? 0) || (10000 <=? spread) then
        inl (wrapf ErrFXRateInvalid "invalid reference rate or spread")
      else
        let baseCurrency := TrimSpace baseCurrency in let quoteCurrency := TrimSpace quoteCurrency in
        if bool_decide (baseCurrency = EmptyString) || bool_decide (quoteCurrency = EmptyString)
           || bool_decide (baseCurrency = quoteCurrency) then
          inl (wrapf ErrFXRateInvalid "invalid FX pair currencies")
        else
          let bidFactor := Qred (Qmake (10000 - spread) 10000) in
          let askFactor := Qred (Qmake (10000 + spread) 10000) in
          if bool_decide (sourceCurrency = baseCurrency) && bool_decide (targetCurrency = quoteCurrency) then
            let bid := Qred (v * bidFactor) in inr (MkRate (Some bid), MkRate (Some bid))
          else if bool_decide (sourceCurrency = quoteCurrency) && bool_decide (targetCurrency = baseCurrency) then
            let ask := Qred (v * askFactor) in
            inr (MkRate (Some (Qred (/ ask))), MkRate (Some ask))
          else inl (wrapf ErrFXRateInvalid "direction is not supported by pair")
  end.
(** The overflow test is made before the addition. *)
Definition addInt64 (left right : Z) : error + Z :=
  if ((0 <? right) && (max_int64 - right <? left)) || ((right <? 0) && (left <? min_int64 - right))
  then inl (Sentinel ErrMoneyOverflow) else inr (left + right).
Definition validateKey (key : string) : error + string :=
  let key := TrimSpace key in
  if bool_decide (key = EmptyString) then inl (Sentinel ErrEmptyIdempotencyKey)
  else if (255 <? String.length key)%nat then inl (wrapf ErrValidation "idempotency key is too long")
  else inr key.
Definition requireFXCurrency (policy : currency_row * gmap string bool) (operation : string) : result unit :=
  if negb (c_enabled policy.1) || negb (bool_decide (c_status policy.1 = "active")) then
    Err (wrapf ErrCurrencyDisabled "status")
  else if negb (allowed policy.2 operation) then Err (wrapf ErrCurrencyOperationDisabled "operation")
  else Ok tt.
(** An issued quote stays executable when the currency stops taking new business. *)
Definition requireExistingFXCurrency (policy : currency_row * gmap string bool) : result unit :=
  if bool_decide (c_status policy.1 ∈ ["active"; "intake_paused"; "disabled"]) then Ok tt
  else Err (wrapf ErrCurrencyDisabled "status").
Definition of_sum {A} (x : error + A) : result A := match x with inl e => Err e | inr a => Ok a end.

(** ** Statements of createQuote *)
Record priced_route := MkRoute {
  ro_pair_id : uuid; ro_pair : fx_pair_row; ro_direction_id : uuid; ro_direction : fx_direction_row;
  ro_rate_id : uuid; ro_rate : fx_rate_row }.
Definition rate_in_force (now : Z) (r : fx_rate_row) : bool :=
  bool_decide (fr_status r = "active") && (fr_effective_from r <=? now)
  && match fr_effective_to r with None => true | Some until => now <? until end.
Definition routes (t : fx_tables) : list priced_route :=
  omap (fun ir => d ← fx_pair_directions t !! fr_direction_id ir.2;
                  p ← fx_pairs t !! fd_pair_id d;
                  Some (MkRoute (fd_pair_id d) p (fr_direction_id ir.2) d ir.1 ir.2))
       (map_to_list (fx_rate_versions t)).
Definition route_open (source target : string) (now : Z) (x : priced_route) : bool :=
  bool_decide (fp_status (ro_pair x) = "active")
  && bool_decide (fd_source_currency (ro_direction x) = source)
  && bool_decide (fd_target_currency (ro_direction x) = target)
  && fd_enabled (ro_direction x) && negb (fd_new_quotes_paused (ro_direction x))
  && rate_in_force now (ro_rate x).
(** ORDER BY r.version DESC LIMIT 1 *)
Definition newest_rate (x y : priced_route) : Prop := fr_version (ro_rate y) <= fr_version (ro_rate x).
#[export] Instance newest_rate_dec : RelDecision newest_rate.
Proof. intros x y. unfold newest_rate. apply _. Defined.
Definition select_route (source target : string) (now : Z) (d : database) : option priced_route :=
  head (merge_sort newest_rate (filter (fun x => route_open source target now x = true) (routes (fx d)))).
(** Why there is none: the first direction between the currencies, by pair. *)
Definition by_pair_id (x y : uuid * fx_direction_row) : Prop := (fd_pair_id x.2 <= fd_pair_id y.2)%N.
#[export] Instance by_pair_id_dec : RelDecision by_pair_id.
Proof. intros x y. unfold by_pair_id. apply _. Defined.
Definition select_availability (source target : string) (now : Z) (d : database)
    : option (string * bool * bool * bool) :=
  let t := fx d in
  let directions := filter (fun xd => fd_source_currency xd.2 = source /\ fd_target_currency xd.2 = target)
                           (map_to_list (fx_pair_directions t)) in
  '(id, dir) ← head (merge_sort by_pair_id directions);
  p ← fx_pairs t !! fd_pair_id dir;
  Some (fp_status p, fd_enabled dir, fd_new_quotes_paused dir,
        existsb (fun ir => bool_decide (fr_direction_id ir.2 = id) && rate_in_force now ir.2)
                (map_to_list (fx_rate_versions t))).

Section fx.
Context `{DEC : !Decimal} `{UT : !UuidText} `{HASH : !Hashing}.
(** The key ring of the transaction repository and the currency registry. *)
Context (ring : DigestRing) (reg : registry).

(** pg_advisory_xact_lock: a call, with no effect for one writer at a time. *)
Definition lockFXIdempotencyKey (kind : string) (userID : uuid) (key : string) : M unit :=
  wrap ("lock FX " +:+ kind +:+ " idempotency key") (query (fun _ _ => tt)).
Definition requireUserCashAccounts (userID : uuid) (source target : string) : M unit :=
  let! count := wrap "check user FX accounts" (query (fun d _ =>
    length (select_where (fun a => user_cash userID source a || user_cash userID target a) d))) in
  if (count =? 2)%nat then ret tt else fail (wrapf ErrCurrencyAccountMissing "needs active cash accounts").

(** ** createQuote *)
Definition quote_route (sourceCode targetCode : string) (now : Z) : M priced_route :=
  let! r := try (scan_row (query (fun d _ => select_route sourceCode targetCode now d))) in
  match r with
  | inr x => ret x
  | inl err =>
      if negb (is_no_rows err) then fail (Wrap "lookup FX rate" err)
      else
        let! a := try (scan_row (query (fun d _ => select_availability sourceCode targetCode now d))) in
        match a with
        | inl e => if is_no_rows e then fail (Sentinel ErrFXPairUnavailable)
                   else fail (Wrap "inspect FX quote availability" e)
        | inr (pairStatus, directionEnabled, newQuotesPaused, activeRate) =>
            if negb (bool_decide (pairStatus = "active")) then fail (Sentinel ErrFXPairUnavailable)
            else if negb (directionEnabled : bool) || newQuotesPaused then fail (Sentinel ErrFXDirectionDisabled)
            else if negb (activeRate : bool) then fail (Sentinel ErrFXRateUnavailable)
            else fail (Wrap "lookup FX rate" err)
        end
  end.
(** The price of a quote: the text of the client's rate, the target amount and the
    remainder that rounding dropped. *)
Definition price (x : priced_route) (sourceCode targetCode : string) (sourceAmount : Z)
    (sourceUnit targetUnit : Z) : error + (string * Z * Remainder) :=
  let referenceRateRaw := numeric18_text (fr_reference_rate (ro_rate x)) in
  match ParseRate referenceRateRaw with
  | inl err => inl (Wrap2 ErrFXRateInvalid err)
  | inr rate =>
      match canonicalDirectionalRates (TrimSpace (fp_base_currency (ro_pair x)))
              (TrimSpace (fp_quote_currency (ro_pair x))) sourceCode targetCode rate
              (fd_spread_basis_points (ro_direction x)) with
      | inl err => inl err
      | inr (calculationRate, clientRate) =>
          match ExactString clientRate with
          | inl err => inl (Wrap2 ErrFXRateInvalid err)
          | inr clientRateText =>
              match ConvertWithMinorUnits (MkMoney sourceCode sourceAmount) targetCode
                      sourceUnit targetUnit calculationRate 0 with
              | inl err =>
                  inl (if is_money_error ErrZeroTarget err then Sentinel ErrFXTargetAmountZero
                       else if is_money_error ErrOverflow err then Sentinel ErrMoneyOverflow
                       else Wrap "convert FX quote" err)
              | inr (target, remainder) => inr (clientRateText, m_Minor target, remainder)
              end
          end
      end
  end.
(** The row a priced quote inserts; its NUMERIC columns are bound as text. *)
Definition new_quote (userID : uuid) (requestKey : string) (x : priced_route)
    (sourceCode targetCode : string) (sourceUnit targetUnit sourceAmount targetAmount : Z)
    (referenceRate : Z) (clientRateText : string) (numerator denominator expiresAt createdAt : Z)
    : fx_quote_row :=
  {| fq_user_id := userID; fq_pair_id := ro_pair_id x; fq_direction_id := ro_direction_id x;
     fq_rate_version_id := ro_rate_id x; fq_source_currency := sourceCode;
     fq_target_currency := targetCode; fq_source_minor_unit := sourceUnit;
     fq_target_minor_unit := targetUnit; fq_source_amount := sourceAmount;
     fq_target_amount := targetAmount; fq_reference_rate := referenceRate;
     fq_client_rate := clientRateText;
     fq_rate_convention := TrimSpace (fp_rate_convention (ro_pair x));
     fq_pair_policy_version := fp_pair_policy_version (ro_pair x);
     fq_spread_basis_points := fd_spread_basis_points (ro_direction x);
     fq_rounding_mode := fp_rounding_mode (ro_pair x); fq_remainder_numerator := numerator;
     fq_remainder_denominator := denominator; fq_request_key := requestKey; fq_status := "active";
     fq_expires_at := expiresAt; fq_consumed_at := None; fq_consumed_by_conversion_id := None;
     fq_created_at := createdAt |}.
Definition insert_quote (id userID : uuid) (requestKey : string) (x : priced_route)
    (sourceCode targetCode : string) (sourceUnit targetUnit sourceAmount targetAmount : Z)
    (clientRateText : string) (remainder : Remainder) (expiresAt : Z)
    (d : database) (now : Z) : error + (Z * database) :=
  match numeric18 (numeric18_text (fr_reference_rate (ro_rate x))),
        numeric120 (rm_Numerator remainder), numeric120 (rm_Denominator remainder) with
  | inr referenceRate, inr numerator, inr denominator =>
      sql_insert_fx_quote id (new_quote userID requestKey x sourceCode targetCode sourceUnit targetUnit
        sourceAmount targetAmount referenceRate clientRateText numerator denominator expiresAt now) d now
  | inl e, _, _ | _, inl e, _ | _, _, inl e => inl e
  end.
Definition price_quote (userID : uuid) (sourceCode targetCode : string) (sourceAmount : Z)
    (requestKey : string) (now : Z) : M FXQuote :=
  let! sourcePolicy := loadCurrencyPolicy sourceCode in
  let! targetPolicy := loadCurrencyPolicy targetCode in
  let! _ := lift (requireFXCurrency sourcePolicy "fx_source") in
  let! _ := lift (requireFXCurrency targetPolicy "fx_target") in
  let! _ := requireUserCashAccounts userID sourceCode targetCode in
  let! x := quote_route sourceCode targetCode now in
  if (sourceAmount <? fd_min_source_amount (ro_direction x))
     || (fd_max_source_amount (ro_direction x) <? sourceAmount) then
    fail (wrapf ErrCurrencyLimitExceeded "source amount outside FX direction limits")
  else
    let sourceUnit := c_minor_unit sourcePolicy.1 in let targetUnit := c_minor_unit targetPolicy.1 in
    let! p := lift (of_sum (price x sourceCode targetCode sourceAmount sourceUnit targetUnit)) in
    let '(clientRateText, targetAmount, remainder) := p in
    let! quoteID := NewV7 in
    let expiresAt := now + fp_quote_ttl_seconds (ro_pair x) in
    let! createdAt := wrap "insert FX quote" (stmt (insert_quote quoteID userID requestKey x
      sourceCode targetCode sourceUnit targetUnit sourceAmount targetAmount clientRateText remainder
      expiresAt)) in
    ret {| xq_ID := quoteID; xq_UserID := userID; xq_PairID := ro_pair_id x;
           xq_DirectionID := ro_direction_id x; xq_RateVersionID := ro_rate_id x;
           xq_SourceCurrency := sourceCode; xq_TargetCurrency := targetCode;
           xq_SourceMinorUnit := sourceUnit; xq_TargetMinorUnit := targetUnit;
           xq_SourceAmount := sourceAmount; xq_TargetAmount := targetAmount;
           xq_ReferenceRate := numeric18_text (fr_reference_rate (ro_rate x));
           xq_ClientRate := clientRateText;
           xq_RateConvention := TrimSpace (fp_rate_convention (ro_pair x));
           xq_PairPolicyVersion := fp_pair_policy_version (ro_pair x);
           xq_SpreadBasisPoints := fd_spread_basis_points (ro_direction x);
           xq_RoundingMode := fp_rounding_mode (ro_pair x);
           xq_RoundingRemainder := remainder_text (rm_Numerator remainder) (rm_Denominator remainder);
           xq_RequestKey := requestKey; xq_Status := "active"; xq_ExpiresAt := expiresAt;
           xq_ConsumedAt := None; xq_ConsumedByConversion := uuid_Nil; xq_CreatedAt := createdAt |}.
Definition quote_body (userID : uuid) (sourceCode targetCode : string) (sourceAmount : Z)
    (requestKey : string) (now : Z) : M FXQuote :=
  let! _ := lockFXIdempotencyKey "quote" userID requestKey in
  let! existing := try (scan_row (query (select_quote (quote_of_key userID requestKey)))) in
  match existing with
  | inr q =>
      if negb (bool_decide (xq_SourceCurrency q = sourceCode))
         || negb (bool_decide (xq_TargetCurrency q = targetCode))
         || negb (xq_SourceAmount q =? sourceAmount) then fail (Sentinel ErrFXQuoteMismatch)
      else ret q
  | inl err =>
      if negb (is_no_rows err) then fail (Wrap "lookup FX quote idempotency key" err)
      else price_quote userID sourceCode targetCode sourceAmount requestKey now
  end.
Definition createQuote (userID : uuid) (sourceCode targetCode : string) (sourceAmount : Z)
    (requestKey : string) : M FXQuote :=
  if bool_decide (userID = uuid_Nil) then fail (wrapf ErrValidation "user id is required")
  else if sourceAmount <=? 0 then fail (wrapf ErrValidation "source amount must be positive")
  else
    let! requestKey := lift (of_sum (validateKey requestKey)) in
    let! sourceCode := lift (canonicalCode sourceCode) in
    let! targetCode := lift (canonicalCode targetCode) in
    if bool_decide (sourceCode = targetCode) then
      fail (wrapf ErrValidation "source and target currency must differ")
    else
      let! now := time_now in
      WithTx (quote_body userID sourceCode targetCode sourceAmount requestKey now).

Definition get_quote (P : uuid -> fx_quote_row -> bool) (ctx : string) : M FXQuote :=
  let! r := try (scan_row (pool_query (select_quote P))) in
  match r with
  | inr q => ret q
  | inl err => if is_no_rows err then fail (Sentinel ErrFXQuoteNotFound) else fail (Wrap ctx err)
  end.
Definition GetFXQuote (userID quoteID : uuid) : M FXQuote :=
  if bool_decide (userID = uuid_Nil) || bool_decide (quoteID = uuid_Nil) then
    fail (wrapf ErrValidation "user and quote id are required")
  else get_quote (quote_of_id userID quoteID) "get FX quote".
Definition GetQuoteForAdmin (quoteID : uuid) : M FXQuote :=
  if bool_decide (quoteID = uuid_Nil) then fail (wrapf ErrValidation "quote id is required")
  else get_quote (fun id _ => bool_decide (id = quoteID)) "get FX quote for admin".

(** ** executeConversion *)
Definition lock_direction (directionID : uuid) : M unit :=
  let! r := try (scan_row (query (fun d _ =>
    dir ← fx_pair_directions (fx d) !! directionID;
    p ← fx_pairs (fx d) !! fd_pair_id dir;
    if bool_decide (fp_status p = "active") then Some (fd_enabled dir, fd_conversions_paused dir) else None))) in
  match r with
  | inl err => if is_no_rows err then fail (Sentinel ErrFXDirectionDisabled)
               else fail (Wrap "lock FX direction" err)
  | inr (directionEnabled, conversionsPaused) =>
      if negb (directionEnabled : bool) then fail (Sentinel ErrFXDirectionDisabled)
      else if conversionsPaused : bool then fail (Sentinel ErrFXConversionsPaused)
      else ret tt
  end.
(** The quote, if it can still be executed for the amounts the client expects. *)
Definition lock_quote (userID quoteID : uuid) (expectedSource expectedTarget now : Z) : M FXQuote :=
  let! r := try (scan_row (query (select_quote (quote_of_id userID quoteID)))) in
  match r with
  | inl err => if is_no_rows err then fail (Sentinel ErrFXQuoteNotFound) else fail (Wrap "lock FX quote" err)
  | inr quote =>
      if negb (bool_decide (xq_Status quote = "active")) then
        if bool_decide (xq_Status quote = "consumed") then fail (Sentinel ErrFXQuoteAlreadyConsumed)
        else fail (Sentinel ErrFXQuoteExpired)
      else if negb (now <? xq_ExpiresAt quote) then fail (Sentinel ErrFXQuoteExpired)
      else if negb (xq_SourceAmount quote =? expectedSource)
              || negb (xq_TargetAmount quote =? expectedTarget) then fail (Sentinel ErrFXQuoteMismatch)
      else ret quote
  end.
Definition require_currencies (quote : FXQuote) : M unit :=
  let! sourcePolicy := loadCurrencyPolicy (xq_SourceCurrency quote) in
  let! targetPolicy := loadCurrencyPolicy (xq_TargetCurrency quote) in
  let! _ := lift (requireExistingFXCurrency sourcePolicy) in
  lift (requireExistingFXCurrency targetPolicy).

(** The four accounts, and the qualifier both positions carry. *)
Record fx_accounts := MkAccounts {
  fa_sourceUser : uuid; fa_targetUser : uuid; fa_sourcePosition : uuid; fa_targetPosition : uuid;
  fa_qualifier : string }.
Definition resolve_users (userID : uuid) (quote : FXQuote) : M (uuid * uuid) :=
  let! r := try (scan_row (query (fun d _ =>
    su ← first_id (user_cash userID (xq_SourceCurrency quote)) d;
    tu ← first_id (user_cash userID (xq_TargetCurrency quote)) d; Some (su, tu)))) in
  match r with
  | inr ids => ret ids
  | inl err => if is_no_rows err then
                 fail (wrapf ErrCurrencyAccountMissing "source or target user currency account is missing")
               else fail (Wrap "resolve FX user accounts" err)
  end.
Definition resolve_positions (quote : FXQuote) : M (uuid * uuid * string) :=
  let! r := try (scan_row (query (fun d _ =>
    p ← fx_pairs (fx d) !! xq_PairID quote;
    sp ← first_id (position_of (fp_position_qualifier p) (xq_SourceCurrency quote)) d;
    tp ← first_id (position_of (fp_position_qualifier p) (xq_TargetCurrency quote)) d;
    Some (sp, tp, fp_position_qualifier p)))) in
  match r with
  | inr ids => ret ids
  | inl err => if is_no_rows err then
                 fail (wrapf ErrCurrencySystemAccountMissing "source or target FX position account is missing")
               else fail (Wrap "resolve FX position accounts" err)
  end.
Definition resolve_fx_accounts (userID : uuid) (quote : FXQuote) : M fx_accounts :=
  let! users := resolve_users userID quote in
  let! positions := resolve_positions quote in
  ret (MkAccounts users.1 users.2 positions.1.1 positions.1.2 positions.2).

(** The limit rows of a pair: by currency. *)
Definition limits_of (pairID : uuid) (t : fx_tables) : list (string * fx_limit_row) :=
  (fun kl => (kl.1.2, kl.2)) <$> filter (fun kl => kl.1.1 = pairID) (map_to_list (fx_position_limits t)).
Definition lockFXPositionLimits (pairID : uuid) : M unit :=
  let! count := wrap "lock FX position limits" (query (fun d _ => length (limits_of pairID (fx d)))) in
  if (count =? 0)%nat then fail (wrapf ErrFXPositionLimitExceeded "no FX position limits for pair") else ret tt.
Definition expected_currencies (a : fx_accounts) (quote : FXQuote) : gmap uuid string :=
  <[fa_targetPosition a := xq_TargetCurrency quote]>
  (<[fa_sourcePosition a := xq_SourceCurrency quote]>
  (<[fa_targetUser a := xq_TargetCurrency quote]>
  {[fa_sourceUser a := xq_SourceCurrency quote]})).
(** The source ranges over a map, in an order of Go's choosing. *)
Fixpoint validate_fx_balances (balances : gmap uuid AccountBalance) (expected : list (uuid * string)) : result unit :=
  match expected with
  | [] => Ok tt
  | (id, code) :: rest =>
      match balances !! id with
      | None => Err (wrapf ErrAccountNotFound "FX account balance is missing")
      | Some b =>
          if bool_decide (ab_Status b = "suspended") then Err (wrapf ErrAccountSuspended EmptyString)
          else if bool_decide (ab_Status b = "closed") then Err (wrapf ErrAccountClosed EmptyString)
          else if negb (bool_decide (ab_Status b = "active")) then Err (wrapf ErrValidation "unknown status")
          else if negb (bool_decide (TrimSpace (ab_Currency b) = code)) then
            Err (wrapf ErrCurrencyMismatch "account currency")
          else validate_fx_balances balances rest
      end
  end.
Definition validateFXBalances (balances : gmap uuid AccountBalance) (expected : gmap uuid string) : result unit :=
  validate_fx_balances balances (map_to_list expected).
Definition decimalInt64 (value : dec) : error + Z :=
  if negb (dec_equal value (dec_truncate value)) then inl (wrapf ErrMoneyOverflow "balance is not an integer")
  else match dec_bigint value with
       | Some z => inr z
       | None => inl (wrapf ErrMoneyOverflow "balance is outside BIGINT range")
       end.
Definition balance_int64 (balances : gmap uuid AccountBalance) (id : uuid) : error + Z :=
  match balances !! id with Some b => decimalInt64 (ab_Balance b) | None => decimalInt64 dec_zero end.

(** The balances after the conversion, in the order of the four accounts. *)
Record fx_after := MkAfter {
  af_sourceUser : Z; af_targetUser : Z; af_sourcePosition : Z; af_targetPosition : Z }.
Definition project_balances (balances : gmap uuid AccountBalance) (a : fx_accounts) (quote : FXQuote)
    : error + fx_after :=
  match balance_int64 balances (fa_sourceUser a), balance_int64 balances (fa_targetUser a),
        balance_int64 balances (fa_sourcePosition a), balance_int64 balances (fa_targetPosition a) with
  | inr su, inr tu, inr sp, inr tp =>
      if su <? xq_SourceAmount quote then inl (Sentinel ErrInsufficientFunds)
      else match addInt64 su (- xq_SourceAmount quote), addInt64 tu (xq_TargetAmount quote),
                 addInt64 sp (xq_SourceAmount quote), addInt64 tp (- xq_TargetAmount quote) with
           | inr su', inr tu', inr sp', inr tp' => inr (MkAfter su' tu' sp' tp')
           | _, _, _, _ => inl (Sentinel ErrMoneyOverflow)
           end
  | inl e, _, _, _ | _, inl e, _, _ | _, _, inl e, _ | _, _, _, inl e => inl e
  end.
Fixpoint within_limits (limits : gmap string fx_limit_row) (projected : list (string * Z)) : result unit :=
  match projected with
  | [] => Ok tt
  | (code, balance) :: rest =>
      match limits !! code with
      | None => Err (wrapf ErrFXPositionLimitExceeded "no FX position limit")
      | Some l => if (balance <? l_minimum_balance l) || (l_maximum_balance l <? balance) then
                    Err (wrapf ErrFXPositionLimitExceeded "projected balance outside")
                  else within_limits limits rest
      end
  end.
(** sort.Strings over the projected currencies. *)
Definition by_code (x y : string * Z) : Prop := String.leb x.1 y.1 = true.
#[local] Instance by_code_dec : RelDecision by_code.
Proof. intros x y. unfold by_code. apply _. Defined.
Definition checkPositionLimits (pairID : uuid) (projected : gmap string Z) : M unit :=
  let! limits := wrap "load FX position limits" (query (fun d _ => limits_of pairID (fx d))) in
  lift (within_limits (list_to_map ((fun cl => (TrimSpace cl.1, cl.2)) <$> limits))
          (merge_sort by_code (map_to_list projected))).

Definition linkFXTransaction (id conversionID quoteID : uuid) (leg : string) (counterpartID : uuid) : M unit :=
  wrap ("link FX " +:+ leg +:+ " transaction")
    (stmt (sql_link_fx id (FxLink conversionID quoteID leg counterpartID))).

(** One leg: a command the processors of fx_out and fx_in know. *)
Definition leg_command (key txType : string) (amount : Z) (userID quoteID : uuid) (currency clientRate qualifier : string)
    (source destination : uuid) : ResolvedCommand :=
  {| rc_Command := {| IdempotencyKey := key; IdempotencyScope := "fx"; Type_ := txType;
       Amount := dec_of_Z amount; UserID := userID; TargetUserID := uuid_Nil; PocketCode := EmptyString;
       Currency_ := currency; ReferenceID := uuid_Nil;
       Metadata := list_to_map [("quote_id", MString (uuid_string quoteID)); ("rate", MString clientRate);
                                ("pair", MString qualifier)];
       QuoteID := EmptyString; MerchantTenantID := uuid_Nil |};
     AccountIDs := [source; destination]; rc_Currency := currency;
     rc_Source := source; rc_Destination := destination |}.
Definition leg_params (id : uuid) (rc : ResolvedCommand) : InsertTransactionParams :=
  {| p_ID := id; p_IdempotencyKey := IdempotencyKey (rc_Command rc); p_IdempotencyScope := Some "fx";
     p_Type := Type_ (rc_Command rc); p_Amount := Amount (rc_Command rc); p_Currency := rc_Currency rc;
     p_SourceAccountID := Some (rc_Source rc); p_DestinationAccountID := Some (rc_Destination rc);
     p_ExternalRef := None; p_Gateway := None; p_RequestID := None |}.
Definition fxAggregateOutboxEvent (quote : FXQuote) (conversionID sourceTx targetTx : uuid) (postedAt : Z)
    : OutboxEvent :=
  {| AggregateType := "fx_conversion"; AggregateID := conversionID; EventType := TypeFXConversionPosted;
     Payload := PConverted (NewFXConversionPosted conversionID (xq_ID quote) (xq_UserID quote) sourceTx
       (xq_SourceCurrency quote) (xq_SourceMinorUnit quote) (Z_text (xq_SourceAmount quote))
       targetTx (xq_TargetCurrency quote) (xq_TargetMinorUnit quote) (Z_text (xq_TargetAmount quote))
       (xq_PairID quote) (xq_DirectionID quote) (xq_RateVersionID quote) (xq_ClientRate quote)
       (xq_RateConvention quote) (xq_PairPolicyVersion quote) (xq_SpreadBasisPoints quote)
       (xq_RoundingMode quote) (xq_RoundingRemainder quote) postedAt) |}.
Definition all_new_balances (a : fx_accounts) (f : fx_after) : gmap uuid dec :=
  <[fa_targetUser a := dec_of_Z (af_targetUser f)]>
  (<[fa_targetPosition a := dec_of_Z (af_targetPosition f)]>
  (<[fa_sourcePosition a := dec_of_Z (af_sourcePosition f)]>
  {[fa_sourceUser a := dec_of_Z (af_sourceUser f)]})).
Definition leg_key (conversionID : uuid) (leg : string) : string := "fx:" +:+ uuid_string conversionID +:+ ":" +:+ leg.
Definition source_leg (conversionID userID : uuid) (quote : FXQuote) (a : fx_accounts) : ResolvedCommand :=
  leg_command (leg_key conversionID "source") "fx_out" (xq_SourceAmount quote) userID (xq_ID quote)
    (xq_SourceCurrency quote) (xq_ClientRate quote) (fa_qualifier a) (fa_sourceUser a) (fa_sourcePosition a).
Definition target_leg (conversionID userID : uuid) (quote : FXQuote) (a : fx_accounts) : ResolvedCommand :=
  leg_command (leg_key conversionID "target") "fx_in" (xq_TargetAmount quote) userID (xq_ID quote)
    (xq_TargetCurrency quote) (xq_ClientRate quote) (fa_qualifier a) (fa_targetPosition a) (fa_targetUser a).

(** The headers of both legs, and the columns that tie them together. *)
Definition open_legs (conversionID quoteID sourceTx targetTx : uuid) (source target : ResolvedCommand) : M unit :=
  let! _ := wrap "insert FX source transaction" (TransactionRepo_Insert ring (leg_params sourceTx source)) in
  let! _ := wrap "insert FX target transaction" (TransactionRepo_Insert ring (leg_params targetTx target)) in
  let! _ := linkFXTransaction sourceTx conversionID quoteID "source" targetTx in
  linkFXTransaction targetTx conversionID quoteID "target" sourceTx.
(** The entries of both legs, the four balances and both headers' status. *)
Definition post_legs (sourceTx targetTx : uuid) (source target : ResolvedCommand)
    (balances : gmap uuid AccountBalance) (allNewBalances : gmap uuid dec)
    : M (list EntryInstruction * list EntryInstruction) :=
  let! sourceEntries := wrap "build FX source entries" (BuildEntries (FxOut reg) source balances) in
  let! targetEntries := wrap "build FX target entries" (BuildEntries (FxIn reg) target balances) in
  let! _ := wrap "insert FX source entries" (EntryRepo_InsertEntries sourceTx sourceEntries allNewBalances) in
  let! _ := wrap "insert FX target entries" (EntryRepo_InsertEntries targetTx targetEntries allNewBalances) in
  let! _ := wrap "update FX balances" (BalanceRepo_UpdateBalances allNewBalances) in
  let! _ := wrap "post FX source transaction" (TransactionRepo_UpdateStatus sourceTx "posted" None) in
  let! _ := wrap "post FX target transaction" (TransactionRepo_UpdateStatus targetTx "posted" None) in
  ret (sourceEntries, targetEntries).
Definition pending_conversion (userID : uuid) (quote : FXQuote) (key : string) (createdAt : Z) : fx_conversion_row :=
  {| fc_user_id := userID; fc_quote_id := xq_ID quote; fc_idempotency_key := key;
     fc_source_currency := xq_SourceCurrency quote; fc_target_currency := xq_TargetCurrency quote;
     fc_source_amount := xq_SourceAmount quote; fc_target_amount := xq_TargetAmount quote;
     fc_status := "pending"; fc_source_transaction_id := None; fc_target_transaction_id := None;
     fc_error_message := None; fc_created_at := createdAt; fc_posted_at := None |}.
(** Everything a conversion writes. *)
Definition write_conversion (userID : uuid) (quote : FXQuote) (key : string) (a : fx_accounts)
    (balances : gmap uuid AccountBalance) (after : fx_after) (now : Z) : M FXConversion :=
  let! conversionID := NewV7 in
  let! sourceTx := NewV7 in
  let! targetTx := NewV7 in
  let! createdAt := wrap "insert pending FX conversion" (stmt (fun d t =>
    sql_insert_fx_conversion conversionID (pending_conversion userID quote key t) d t)) in
  let source := source_leg conversionID userID quote a in
  let target := target_leg conversionID userID quote a in
  let! _ := open_legs conversionID (xq_ID quote) sourceTx targetTx source target in
  let! entries := post_legs sourceTx targetTx source target balances (all_new_balances a after) in
  let! _ := wrap "post FX conversion" (stmt (sql_post_fx_conversion conversionID sourceTx targetTx now)) in
  let! _ := wrap "consume FX quote" (stmt (sql_consume_fx_quote (xq_ID quote) conversionID now)) in
  let! eventTime := time_now in
  let events := OutboxEvents (FxOut reg) source sourceTx entries.1 eventTime
                ++ OutboxEvents (FxIn reg) target targetTx entries.2 eventTime
                ++ [fxAggregateOutboxEvent quote conversionID sourceTx targetTx now] in
  let! _ := wrap "insert FX outbox events" (OutboxRepo_InsertEvents events) in
  ret {| xv_ID := conversionID; xv_UserID := userID; xv_QuoteID := xq_ID quote; xv_IdempotencyKey := key;
         xv_SourceCurrency := xq_SourceCurrency quote; xv_TargetCurrency := xq_TargetCurrency quote;
         xv_SourceAmount := xq_SourceAmount quote; xv_TargetAmount := xq_TargetAmount quote;
         xv_Status := "posted"; xv_SourceTransactionID := sourceTx; xv_TargetTransactionID := targetTx;
         xv_ErrorMessage := EmptyString; xv_CreatedAt := createdAt; xv_PostedAt := Some now |}.
(** Locks, checks and projects the balances, then writes. *)
Definition convert_quote (userID : uuid) (quote : FXQuote) (key : string) (now : Z) : M FXConversion :=
  let! _ := lock_direction (xq_DirectionID quote) in
  let! _ := require_currencies quote in
  let! a := resolve_fx_accounts userID quote in
  let! _ := lockFXPositionLimits (xq_PairID quote) in
  let! userBalances := wrap "lock FX user balances"
    (BalanceRepo_LockBalances [fa_sourceUser a; fa_targetUser a]) in
  let! positionBalances := wrap "lock FX position balances"
    (BalanceRepo_LockBalances [fa_sourcePosition a; fa_targetPosition a]) in
  let balances := positionBalances ∪ userBalances in
  let! _ := lift (validateFXBalances balances (expected_currencies a quote)) in
  let! after := lift (of_sum (project_balances balances a quote)) in
  let! _ := checkPositionLimits (xq_PairID quote)
    (<[xq_TargetCurrency quote := af_targetPosition after]>
       {[xq_SourceCurrency quote := af_sourcePosition after]}) in
  write_conversion userID quote key a balances after now.
Definition conversion_body (userID quoteID : uuid) (key : string) (expectedSource expectedTarget now : Z)
    : M FXConversion :=
  let! _ := lockFXIdempotencyKey "conversion" userID key in
  let! existing := try (scan_row (query (select_conversion (conversion_of_key userID key)))) in
  match existing with
  | inr c =>
      if negb (bool_decide (xv_QuoteID c = quoteID)) || negb (xv_SourceAmount c =? expectedSource)
         || negb (xv_TargetAmount c =? expectedTarget) then fail (Sentinel ErrIdempotencyConflict)
      else ret c
  | inl err =>
      if negb (is_no_rows err) then fail (Wrap "lookup FX conversion idempotency key" err)
      else
        let! quote := lock_quote userID quoteID expectedSource expectedTarget now in
        convert_quote userID quote key now
  end.
Definition executeConversion (userID quoteID : uuid) (idempotencyKey : string)
    (expectedSource expectedTarget : Z) : M FXConversion :=
  if bool_decide (userID = uuid_Nil) || bool_decide (quoteID = uuid_Nil) then
    fail (wrapf ErrValidation "user and quote id are required")
  else
    let! key := lift (of_sum (validateKey idempotencyKey)) in
    if (expectedSource <=? 0) || (expectedTarget <=? 0) then
      fail (wrapf ErrValidation "expected amounts must be positive")
    else
      let! now := time_now in
      WithTx (conversion_body userID quoteID key expectedSource expectedTarget now).

Definition get_conversion (P : uuid -> fx_conversion_row -> bool) (ctx : string) : M FXConversion :=
  let! r := try (scan_row (pool_query (select_conversion P))) in
  match r with
  | inr c => ret c
  | inl err => if is_no_rows err then fail (Sentinel ErrFXConversionNotFound) else fail (Wrap ctx err)
  end.
Definition GetConversion (userID conversionID : uuid) : M FXConversion :=
  if bool_decide (userID = uuid_Nil) || bool_decide (conversionID = uuid_Nil) then
    fail (wrapf ErrValidation "user and conversion id are required")
  else get_conversion (conversion_of_id userID conversionID) "get FX conversion".
Definition GetConversionForAdmin (conversionID : uuid) : M FXConversion :=
  if bool_decide (conversionID = uuid_Nil) then fail (wrapf ErrValidation "conversion id is required")
  else get_conversion (fun id _ => bool_decide (id = conversionID)) "get FX conversion for admin".
End fx.
