(* ===== verification/Handle.v ===== *)
(** * The posting service: services/ledger/internal/ledger/handle/service.go

    [Handle] validates a command and resolves its accounts, [transfer] retries,
    [execTransfer] is one database transaction: idempotency gate, currency
    policy, fee quote, locks, validation, closing of the original, entries,
    balances, status and outbox.  The phases of execTransfer's callback are
    definitions of their own, composed by [exec_body] in the code's order. *)
From stdpp Require Import prelude gmap strings list.
From S2P Require Import Prelude Decimal Errors Currency Events Store TxRepo Repos AccountRepo.
From S2P Require Import Fee Processors.

Section service.
Context `{DEC : !Decimal} `{UT : !UuidText} `{HASH : !Hashing}.
Notation balances_map := (gmap uuid AccountBalance).

(** ValidateCurrencyTx when the validator has it, ValidateCurrency otherwise. *)
Record CurrencyValidator := { ValidateCurrency : string -> string -> M unit }.

(** The optional same-transaction sink of a data migration. *)
Record ProjectionWriter := {
  SourceWriteAllowed : M bool;
  WriteForPosting : list uuid -> uuid -> M unit;
}.

Record Service := {
  digestRing : DigestRing;
  registry_ : ProcessorRegistry;
  maxAmountPerTx : dec;
  feePolicy : bool;                       (* a policy is configured, or nil *)
  currencyValidator : option CurrencyValidator;
  projectionWriter : option ProjectionWriter;
  currencies_ : registry;                 (* the process-wide currency registry *)
}.

(** ** Pure helpers (service.go, ids.go, values.go) *)
Definition lifecycleCloseReason : gmap string string :=
  list_to_map
    [ ("reversal", "reversed"); ("withdraw_settle", "settled");
      ("withdraw_cancel", "cancelled"); ("withdraw_pending_settle", "settled");
      ("withdraw_pending_cancel", "cancelled"); ("escrow_release", "released");
      ("escrow_refund", "refunded"); ("refund", "refunded") ].

Definition stringPtr (value : string) : option string :=
  if bool_decide (value = EmptyString) then None else Some value.
Definition uuidPtr (value : uuid) : option uuid :=
  if bool_decide (value = uuid_Nil) then None else Some value.

Fixpoint deduplicate_from (seen : gset uuid) (ids : list uuid) : list uuid :=
  match ids with
  | [] => []
  | id :: ids' => if bool_decide (id ∈ seen) then deduplicate_from seen ids'
                  else id :: deduplicate_from ({[id]} ∪ seen) ids'
  end.
Definition deduplicate (ids : list uuid) : list uuid := deduplicate_from ∅ ids.

Definition accountIDIn (ids : list uuid) (id : uuid) : bool := bool_decide (id ∈ ids).

Definition inflight_types : list string :=
  ["withdraw_pending"; "withdraw_pending_settle"; "withdraw_pending_cancel";
   "withdraw_settle"; "withdraw_cancel"; "merchant_payout_settle"; "merchant_payout_cancel";
   "escrow_release"; "escrow_refund"; "refund"].

Definition currencyOperation (txType : string) (meta : metadata) : string :=
  let operation :=
    if bool_decide (txType ∈ ["money_in"; "merchant_payin_credit"]) then "topup"
    else if bool_decide (txType ∈
      ["money_out"; "withdraw_initiate"; "withdraw_pending"; "withdraw_pending_settle";
       "withdraw_settle"; "withdraw_cancel"; "withdraw_pending_cancel";
       "merchant_payout_hold"; "merchant_payout_settle"; "merchant_payout_cancel"]) then "payout"
    else if bool_decide (txType ∈
      ["transfer_p2p"; "transfer_pocket"; "merchant_transfer"; "escrow_hold";
       "escrow_release"; "escrow_refund"; "refund"]) then "transfer"
    else if bool_decide (txType = "disbursement") then "payout"
    else EmptyString in
  if bool_decide (operation = EmptyString) then operation
  else
    let inflight := match meta !! "currency_inflight" with Some (MBool b) => b | _ => false end in
    let inflight := inflight || bool_decide (txType ∈ inflight_types) in
    if inflight then operation +:+ "_inflight" else operation.

Definition currencyPolicyBusinessError (err : error) : error :=
  match list_find (fun s => errors_is err s = true)
          [ErrCurrencyDisabled; ErrCurrencyOperationDisabled; ErrCurrencyNotEnabled;
           ErrCurrencyLimitExceeded] with
  | Some (_, s) => NewBizErr s "currency policy"
  | None => err
  end.

(** ** Structural validation *)
Fixpoint validate_account_ids (ids : list uuid) (currency : string) (bal : balances_map)
    : result unit :=
  match ids with
  | [] => Ok tt
  | id :: ids' =>
      match bal !! id with
      | None => Err (wrapf ErrAccountNotFound "missing account_balances row")
      | Some ab =>
          if bool_decide (ab_Status ab = "suspended") then Err (wrapf ErrAccountSuspended EmptyString)
          else if bool_decide (ab_Status ab = "closed") then Err (wrapf ErrAccountClosed EmptyString)
          else if negb (bool_decide (ab_Status ab = "active")) then
            Err (wrapf ErrValidation "unknown status")
          else if negb (bool_decide (ab_Currency ab = currency)) then
            Err (wrapf ErrCurrencyMismatch "account has, tx expects")
          else validate_account_ids ids' currency bal
      end
  end.
Definition validateAccounts (cmd : ResolvedCommand) (bal : balances_map) : result unit :=
  validate_account_ids (AccountIDs cmd) (rc_Currency cmd) bal.

(** ** Balance arithmetic *)
Definition apply_entry (m : gmap uuid dec) (e : EntryInstruction) : gmap uuid dec :=
  let old := default dec_zero (m !! ei_AccountID e) in
  <[ei_AccountID e := match ei_Direction e with
                      | Debit => dec_sub old (ei_Amount e)
                      | Credit => dec_add old (ei_Amount e)
                      end]> m.

Definition applyEntries (bal : balances_map) (entries : list EntryInstruction) : gmap uuid dec :=
  foldl apply_entry (ab_Balance <$> bal) entries.

Definition splitEntriesByAccount (entries : list EntryInstruction) (systemIDs : gset uuid)
    : list EntryInstruction * list EntryInstruction :=
  (filter (fun e => ei_AccountID e ∉ systemIDs) entries,
   filter (fun e => ei_AccountID e ∈ systemIDs) entries).

Definition computeSystemDeltas (systemEntries : list EntryInstruction) : gmap uuid dec :=
  foldl apply_entry ∅ systemEntries.

Fixpoint balanced_totals (entries : list EntryInstruction) (totalD totalC : dec)
    : result (dec * dec) :=
  match entries with
  | [] => Ok (totalD, totalC)
  | e :: es =>
      if negb (dec_is_positive (ei_Amount e)) then
        Err (wrapf ErrValidation "entry amount must be positive")
      else match ei_Direction e with
           | Debit => balanced_totals es (dec_add totalD (ei_Amount e)) totalC
           | Credit => balanced_totals es totalD (dec_add totalC (ei_Amount e))
           end
  end.
Definition validateBalanced (entries : list EntryInstruction) : result unit :=
  match balanced_totals entries dec_zero dec_zero with
  | Ok (totalD, totalC) =>
      if negb (dec_equal totalD totalC) then Err (wrapf ErrUnbalancedEntries "debit credit")
      else Ok tt
  | Err e => Err e
  | Panic => Panic
  end.

(** ** Status of the header *)
Definition markFailed (txID : uuid) (err : error) : M unit :=
  TransactionRepo_UpdateStatus txID "failed" (Some err).

Definition handleDuplicate (s : Service) (cmd : ResolvedCommand) : M (option error) :=
  let c := rc_Command cmd in
  let! (status, conflict) := wrap "lookup duplicate"
    (TransactionRepo_FindConflictOrDuplicate (digestRing s) (IdempotencyKey c)
       (stringPtr (IdempotencyScope c)) (Type_ c) (Amount c) (rc_Currency cmd)) in
  if bool_decide (status = EmptyString) then
    fail (Plain "idempotency record vanished after duplicate error (race)")
  else if conflict : bool then fail (Sentinel ErrIdempotencyConflict)
  else if bool_decide (status = "posted") then fail (Sentinel ErrAlreadyPosted)
  else if bool_decide (status = "failed") then fail (Sentinel ErrPreviousFailed)
  else fail (Sentinel ErrStillProcessing).

(** ** Phase 1: what the header row records *)
Definition insert_params (cmd : ResolvedCommand) (txID : uuid) : InsertTransactionParams :=
  let c := rc_Command cmd in
  {| p_ID := txID; p_IdempotencyKey := IdempotencyKey c;
     p_IdempotencyScope := stringPtr (IdempotencyScope c); p_Type := Type_ c;
     p_Amount := Amount c; p_Currency := rc_Currency cmd;
     p_SourceAccountID := uuidPtr (rc_Source cmd);
     p_DestinationAccountID := uuidPtr (rc_Destination cmd);
     p_ExternalRef := stringPtr (MetaString_ (Metadata c) "external_ref");
     p_Gateway := stringPtr (MetaString_ (Metadata c) "gateway");
     p_RequestID := stringPtr (MetaString_ (Metadata c) "request_id") |}.

Definition check_currency_policy (s : Service) (cmd : ResolvedCommand) : M unit :=
  match currencyValidator s with
  | None => ret tt
  | Some v =>
      let operation := currencyOperation (Type_ (rc_Command cmd)) (Metadata (rc_Command cmd)) in
      if bool_decide (operation = EmptyString) then ret tt
      else
        let! r := try (ValidateCurrency v (rc_Currency cmd) operation) in
        match r with
        | inl err => fail (currencyPolicyBusinessError err)
        | inr _ => ret tt
        end
  end.

(** ** Phase 1b: the fee quote *)
Definition with_metadata (cmd : Command) (meta : metadata) : Command :=
  {| IdempotencyKey := IdempotencyKey cmd; IdempotencyScope := IdempotencyScope cmd;
     Type_ := Type_ cmd; Amount := Amount cmd; UserID := UserID cmd;
     TargetUserID := TargetUserID cmd; PocketCode := PocketCode cmd;
     Currency_ := Currency_ cmd; ReferenceID := ReferenceID cmd; Metadata := meta;
     QuoteID := QuoteID cmd; MerchantTenantID := MerchantTenantID cmd |}.
Definition with_currency (cmd : Command) (currency : string) : Command :=
  {| IdempotencyKey := IdempotencyKey cmd; IdempotencyScope := IdempotencyScope cmd;
     Type_ := Type_ cmd; Amount := Amount cmd; UserID := UserID cmd;
     TargetUserID := TargetUserID cmd; PocketCode := PocketCode cmd;
     Currency_ := currency; ReferenceID := ReferenceID cmd; Metadata := Metadata cmd;
     QuoteID := QuoteID cmd; MerchantTenantID := MerchantTenantID cmd |}.
Definition set_fee (cmd : Command) (fee : dec) (feeGateway : string) : Command :=
  with_metadata cmd (<["fee_gateway" := MString feeGateway]>
                       (<["fee_amount" := MString (dec_string fee)]> (Metadata cmd))).
Definition set_command (rc : ResolvedCommand) (cmd : Command) : ResolvedCommand :=
  {| rc_Command := cmd; AccountIDs := AccountIDs rc; rc_Currency := rc_Currency rc;
     rc_Source := rc_Source rc; rc_Destination := rc_Destination rc |}.

Definition consume_fee_quote (s : Service) (cmd : ResolvedCommand) (txID : uuid)
    : M ResolvedCommand :=
  let c := rc_Command cmd in
  if bool_decide (QuoteID c = EmptyString) then ret cmd
  else
    match uuid_parse (QuoteID c) with
    | None => fail (NewBizErr ErrQuoteMismatch "quote_id is not a valid UUID")
    | Some quoteID =>
        (* s.feePolicy.ConsumeQuote dereferences the policy *)
        if negb (feePolicy s) then panic
        else
          let! r := try (ConsumeQuote quoteID (UserID c) (Type_ c) (rc_Currency cmd) (Amount c)
                           ("tx:" +:+ uuid_string txID)) in
          match r with
          | inl qerr =>
              if is_fee_quote_expired qerr then fail (NewBizErr ErrQuoteExpired "fee quote")
              else if is_fee_quote_mismatch qerr then
                fail (NewBizErr ErrQuoteMismatch "fee quote")
              else fail (Wrap "consume fee quote" qerr)
          | inr (fee, feeGateway) => ret (set_command cmd (set_fee c fee feeGateway))
          end
    end.

(** The snapshot of a top-up whose quote Payin consumed earlier. *)
Definition mismatch {A} (msg : string) : M A := fail (NewBizErr ErrQuoteMismatch msg).

Definition check_topup_snapshot (s : Service) (cmd : ResolvedCommand) (payinID quoteID : uuid)
    : M unit :=
  let c := rc_Command cmd in let meta := Metadata c in
  match MetaDecimal meta "fee_amount" with
  | inl _ => mismatch "top-up fee snapshot has an invalid fee amount"
  | inr fee =>
      if dec_is_negative fee || negb (dec_equal fee (dec_truncate fee)) then
        mismatch "top-up fee snapshot has an invalid fee amount"
      else if negb (bool_decide (MetaString_ meta "fee_application" = "added_on_top")) then
        mismatch "top-up fee snapshot must use added_on_top"
      else
        match MetaDecimal meta "total_debit" with
        | inl _ => mismatch "top-up total_debit does not match the quoted principal and fee"
        | inr totalDebit =>
            let feeGateway := MetaString_ meta "fee_gateway" in
            if negb (dec_equal totalDebit (dec_add (Amount c) fee)) then
              mismatch "top-up total_debit does not match the quoted principal and fee"
            else if dec_is_positive fee && empty feeGateway then
              mismatch "top-up fee snapshot has no fee gateway"
            else if negb (feePolicy s) then
              mismatch "Ledger fee quote validation is unavailable"
            else
              let! r := try (ValidateConsumedPayinQuote quoteID (UserID c) (Type_ c)
                               (MetaString_ meta "gateway") (rc_Currency cmd) (Amount c) fee
                               feeGateway ("payin:" +:+ uuid_string payinID)) in
              match r with
              | inl err =>
                  if is_fee_quote_mismatch err || is_fee_quote_expired err then
                    mismatch "top-up fee quote settlement snapshot does not match"
                  else fail (Wrap "validate consumed top-up fee quote" err)
              | inr _ => ret tt
              end
        end
  end.

Definition check_payin_snapshot (s : Service) (cmd : ResolvedCommand) : M unit :=
  let meta := Metadata (rc_Command cmd) in
  if negb (bool_decide (Type_ (rc_Command cmd) = "money_in")) then ret tt
  else
    let payinPresent := bool_decide (is_Some (meta !! "payin_id")) in
    if bool_decide (is_Some (meta !! "fee_quote_id")) then
      if negb payinPresent then mismatch "top-up fee snapshot is missing payin_id"
      else
        match MetaUUID meta "payin_id", MetaUUID meta "fee_quote_id" with
        | inr payinID, inr quoteID => check_topup_snapshot s cmd payinID quoteID
        | _, _ => mismatch "top-up fee snapshot must include valid payin_id and fee_quote_id"
        end
    else if payinPresent then
      match MetaDecimal meta "fee_amount" with
      | inr fee => if dec_is_positive fee then
                     mismatch "top-up fee snapshot is missing fee_quote_id"
                   else ret tt
      | inl _ => ret tt
      end
    else ret tt.

(** The processor's own coordination row, before any balance is locked.  [Some
    err] is a rejection recorded on the header. *)
Definition pre_lock_check (p : TxProcessor) (cmd : ResolvedCommand) (txID : uuid)
    : M (option error) :=
  match ValidateBeforeBalanceLocks p with
  | None => ret None
  | Some pre =>
      let! r := try (pre cmd) in
      match r with
      | inr _ => ret None
      | inl err =>
          if negb (IsBusinessRejection err) then fail err
          else
            let! _ := wrap "mark failed after pre-balance validation" (markFailed txID err) in
            ret (Some err)
      end
  end.

(** ** Phase 2: split and lock *)
Definition is_system (flags : balances_map) (id : uuid) : bool :=
  match flags !! id with Some ab => ab_AllowNegative ab | None => false end.
Definition is_user (flags : balances_map) (id : uuid) : bool :=
  match flags !! id with Some ab => negb (ab_AllowNegative ab) | None => false end.

Definition system_ids (flags : balances_map) (ids : list uuid) : list uuid :=
  filter (fun id => is_system flags id = true) ids.
Definition user_ids (flags : balances_map) (ids : list uuid) : list uuid :=
  filter (fun id => is_user flags id = true) ids.

(** userBalances, then the system accounts' snapshots on top. *)
Definition merge_balances (userBalances flags : balances_map) (systemIDs : list uuid)
    : balances_map :=
  foldl (fun m id => match flags !! id with Some ab => <[id := ab]> m | None => m end)
        userBalances systemIDs.

(** ** Phase 4b: close the original *)
Definition close_original (cmd : ResolvedCommand) (txID : uuid) : M (option error) :=
  match lifecycleCloseReason !! Type_ (rc_Command cmd) with
  | None => ret None
  | Some reason =>
      let! rows := wrap "close original"
        (TransactionRepo_CloseOriginal (ReferenceID (rc_Command cmd)) txID reason) in
      if rows =? 0 then
        let bizErr := NewBizErr ErrAlreadyClosed
                        "transaction was already closed by another request" in
        let! _ := wrap "mark failed after close guard" (markFailed txID bizErr) in
        ret (Some bizErr)
      else ret None
  end.

(** ** Phases 7 to 11: balances, entries, status, outbox *)
Definition check_source_write (s : Service) : M unit :=
  match projectionWriter s with
  | None => ret tt
  | Some pw =>
      let! allowed := wrap "check source write availability" (SourceWriteAllowed pw) in
      if allowed : bool then ret tt
      else fail (Plain "ledger: source writes are disabled during migration")
  end.

Definition write_projection (s : Service) (cmd : ResolvedCommand) (txID : uuid) : M unit :=
  match projectionWriter s with
  | None => ret tt
  | Some pw => wrap "write balance projection" (WriteForPosting pw (AccountIDs cmd) txID)
  end.

Definition write_postings (s : Service) (p : TxProcessor) (cmd : ResolvedCommand) (txID : uuid)
    (userBalances : balances_map) (systemIDs : list uuid) (entries : list EntryInstruction)
    : M unit :=
  let '(userEntries, systemEntries) := splitEntriesByAccount entries (list_to_set systemIDs) in
  let userNewBalances := applyEntries userBalances userEntries in
  let! _ := check_source_write s in
  let! systemNewBalances := BalanceRepo_ApplySystemDeltas (computeSystemDeltas systemEntries) in
  let allNewBalances := systemNewBalances ∪ userNewBalances in
  let! _ := EntryRepo_InsertEntries txID entries allNewBalances in
  let! _ := BalanceRepo_UpdateBalances userNewBalances in
  let! _ := write_projection s cmd txID in
  let! _ := wrap "mark posted" (TransactionRepo_UpdateStatus txID "posted" None) in
  let! now := time_now in
  OutboxRepo_InsertEvents (OutboxEvents p cmd txID entries now).

(** ** Phases 2 to 11 *)
Definition post (s : Service) (p : TxProcessor) (cmd : ResolvedCommand) (txID : uuid)
    : M (option error) :=
  let! flags := BalanceRepo_GetAccountFlags (AccountIDs cmd) in
  let systemIDs := system_ids flags (AccountIDs cmd) in
  let! userBalances := BalanceRepo_LockBalances (user_ids flags (AccountIDs cmd)) in
  let merged := merge_balances userBalances flags systemIDs in
  let! _ := lift (validateAccounts cmd merged) in
  let! v := try (Validate p cmd merged) in
  match v with
  | inl err =>
      let! _ := wrap "mark failed after validation" (markFailed txID err) in
      ret (Some err)
  | inr _ =>
      let! closed := close_original cmd txID in
      match closed with
      | Some bizErr => ret (Some bizErr)
      | None =>
          let! entries := wrap "build entries" (BuildEntries p cmd merged) in
          let! _ := lift (validateBalanced entries) in
          let! _ := write_postings s p cmd txID userBalances systemIDs entries in
          ret None
      end
  end.

(** ** The callback of WithTx.  [Some err]: commit, then return [err]. *)
Definition exec_body (s : Service) (p : TxProcessor) (cmd : ResolvedCommand)
    : M (option error) :=
  let! txID := NewV7 in
  let! _ := wrap "savepoint" savepoint in
  let! inserted := try (TransactionRepo_Insert (digestRing s) (insert_params cmd txID)) in
  match inserted with
  | inl insertErr =>
      let! _ := ignore_error rollback_to_savepoint in
      if negb (IsDuplicateKey insertErr) then fail (Wrap "insert tx header" insertErr)
      else handleDuplicate s cmd
  | inr _ =>
      let! _ := ignore_error release_savepoint in
      let! _ := check_currency_policy s cmd in
      let! cmd := consume_fee_quote s cmd txID in
      let! _ := check_payin_snapshot s cmd in
      let! pre := pre_lock_check p cmd txID in
      match pre with
      | Some err => ret (Some err)
      | None => post s p cmd txID
      end
  end.

Definition execTransfer (s : Service) (p : TxProcessor) (cmd : ResolvedCommand) : M unit :=
  let! businessErr := WithTx (exec_body s p cmd) in
  match businessErr with Some err => fail err | None => ret tt end.

(** ** The retry loop *)
Definition maxRetry : nat := 3.

Fixpoint transfer_loop (s : Service) (p : TxProcessor) (cmd : ResolvedCommand)
    (left_ attempt : nat) (lastErr : error) : M unit :=
  match left_ with
  | O => fail (Wrap "failed after 3 retries" lastErr)
  | S left' =>
      let! _ := if (0 <? attempt)%nat then wait_backoff else ret tt in
      let! r := try (execTransfer s p cmd) in
      match r with
      | inr _ => ret tt
      | inl err => if negb (IsRetryable err) then fail err
                   else transfer_loop s p cmd left' (S attempt) err
      end
  end.
Definition transfer (s : Service) (p : TxProcessor) (cmd : ResolvedCommand) : M unit :=
  transfer_loop s p cmd maxRetry 0 (Plain "nil").

(** ** Handle *)
Definition peek_quote (s : Service) (cmd : Command) : M Command :=
  if bool_decide (QuoteID cmd <> EmptyString) && feePolicy s then
    match uuid_parse (QuoteID cmd) with
    | None => ret cmd
    | Some quoteID =>
        let! r := try (GetQuote quoteID (UserID cmd)) in
        match r with
        | inr q => ret (set_fee cmd (quote_FeeAmount q) (quote_FeeGateway q))
        | inl _ => ret cmd
        end
    end
  else ret cmd.

(** The checks before any database work. *)
Definition precheck (s : Service) (cmd : Command) : result unit :=
  let amount := Amount cmd in
  if empty (TrimSpace (IdempotencyKey cmd)) then Err (Sentinel ErrEmptyIdempotencyKey)
  else
    match (if empty (Currency_ cmd) then None
           else match Normalize (currencies_ s) (Currency_ cmd) with
                | inl err => Some err | inr _ => None end) with
    | Some err => Err (Wrap2 ErrCurrencyInvalid (Wrap "currency" err))
    | None =>
        if negb (dec_is_integer amount) then
          Err (wrapf ErrValidation "amount must be an integer (minor units)")
        else if dec_gt amount (dec_of_Z max_int64) || dec_lt amount (dec_of_Z min_int64) then
          Err (wrapf ErrMoneyOverflow "amount is outside signed 64-bit minor-unit range")
        else if dec_is_positive (maxAmountPerTx s) && dec_gt amount (maxAmountPerTx s) then
          Err (wrapf ErrAmountTooLarge "amount exceeds maximum")
        else Ok tt
    end.

(** The resolved command handed to [transfer]. *)
Definition resolve_command (cmd : Command) (resolved : ResolvedAccounts) (currency : string)
    : result ResolvedCommand :=
  let requestedCurrency := TrimSpace (Currency_ cmd) in
  let currency := TrimSpace currency in
  if negb (empty requestedCurrency) && negb (bool_decide (requestedCurrency = currency)) then
    Err (wrapf ErrCurrencyMismatch "command expects, resolved accounts use")
  else if negb (bool_decide (ra_Source resolved = uuid_Nil))
          && negb (accountIDIn (Ordered resolved) (ra_Source resolved)) then
    Err (Plain "processor: resolved Source is not in Ordered accounts")
  else if negb (bool_decide (ra_Destination resolved = uuid_Nil))
          && negb (accountIDIn (Ordered resolved) (ra_Destination resolved)) then
    Err (Plain "processor: resolved Destination is not in Ordered accounts")
  else Ok {| rc_Command := with_currency cmd currency;
             AccountIDs := deduplicate (Ordered resolved); rc_Currency := currency;
             rc_Source := ra_Source resolved; rc_Destination := ra_Destination resolved |}.

Definition Handle (s : Service) (cmd : Command) : M unit :=
  let! _ := lift (precheck s cmd) in
  let! processor := Registry_Get (registry_ s) (Type_ cmd) in
  let! cmd := peek_quote s cmd in
  let! _ := wrap "validate command" (ValidateCommand processor cmd) in
  let! (resolved, currency) := wrap "resolve accounts" (ResolveAccounts processor cmd) in
  let! rc := lift (resolve_command cmd resolved currency) in
  let! r := try (transfer s processor rc) in
  match r with
  | inl err => if errors_is err ErrAlreadyPosted then ret tt else fail err
  | inr _ => ignore_error (AfterCommit processor (rc_Command rc))
  end.
End service.
Arguments Service {DEC}.
