(* ===== verification/Frames.v ===== *)
(** * What each operation may change

    Two relations between the database before and after a computation, whatever
    its outcome: [same_ledger] (accounts, balances, entries, outbox and FX tables untouched) and
    [tx_evolves own] (headers keep their identity; only the transaction [own]
    changes status freely, every other one can at most be closed, once).  The
    named operations of the repositories are registered in the database
    [frame]. *)
From stdpp Require Import prelude gmap strings list.
From S2P Require Import Prelude Decimal Errors Events Store TxRepo Repos AccountRepo Fee.

(** ** The relations *)
Definition same_ledger (d d' : database) : Prop :=
  accounts d' = accounts d /\ account_balances d' = account_balances d
  /\ ledger_entries d' = ledger_entries d /\ outbox_events d' = outbox_events d
  /\ fx d' = fx d.

#[export] Instance same_ledger_equiv : Equivalence same_ledger.
Proof.
  split; unfold same_ledger.
  - done.
  - by intros ? ? (-> & -> & -> & -> & ->).
  - by intros ? ? ? (-> & -> & -> & -> & ->) (-> & -> & -> & -> & ->).
Qed.

(** The columns of a header no statement of the code ever updates. *)
Definition same_header (t t' : tx_row) : Prop :=
  t_idempotency_key t' = t_idempotency_key t
  /\ t_idempotency_scope t' = t_idempotency_scope t
  /\ t_type t' = t_type t /\ t_amount t' = t_amount t /\ t_currency t' = t_currency t
  /\ t_source_account_id t' = t_source_account_id t
  /\ t_destination_account_id t' = t_destination_account_id t
  /\ t_external_ref t' = t_external_ref t /\ t_gateway t' = t_gateway t
  /\ t_request_id t' = t_request_id t
  /\ t_key_digest t' = t_key_digest t /\ t_key_version t' = t_key_version t
  /\ t_fingerprint t' = t_fingerprint t.

#[export] Instance same_header_preorder : PreOrder same_header.
Proof.
  split; unfold same_header; [done|].
  intros x y z Hxy Hyz. destruct_and!. repeat split; congruence.
Qed.

(** A closed header stays closed by the same transaction, with the same reason. *)
Definition closed_once (t t' : tx_row) : Prop :=
  is_Some (t_closed_by t) ->
  t_closed_by t' = t_closed_by t /\ t_closed_reason t' = t_closed_reason t.

(** What may happen to a header: [own] is the transaction being executed. *)
Definition header_evolves (own id : uuid) (t t' : tx_row) : Prop :=
  same_header t t' /\ closed_once t t'
  /\ (id <> own ->
      (t_status t' = t_status t /\ t_error t' = t_error t)
      \/ (t_closed_by t = None /\ is_Some (t_closed_by t')
          /\ t_status t' = "reversed" /\ t_error t' = t_error t)).

Lemma header_evolves_refl own id t : header_evolves own id t t.
Proof. split; [reflexivity|]. split; [by intros ?|]. by left. Qed.

Lemma header_evolves_trans own id t1 t2 t3 :
  header_evolves own id t1 t2 -> header_evolves own id t2 t3 -> header_evolves own id t1 t3.
Proof.
  intros (Hs & Hc & Ho) (Hs' & Hc' & Ho'). split; [by etrans|]. split.
  - intros H. destruct (Hc H) as [E1 E2]. destruct Hc' as [E3 E4]; [by rewrite E1|].
    split; congruence.
  - intros Hne. destruct (Ho Hne) as [[? ?]|(? & Hs2 & ? & ?)];
      destruct (Ho' Hne) as [[? ?]|(? & ? & ? & ?)].
    + left. split; congruence.
    + right. destruct (t_closed_by t1) eqn:E1; [|split_and!; congruence].
      destruct Hc as [E _]; [done|]. rewrite E1 in E. congruence.
    + right. destruct Hc' as [E _]; [done|]. split_and!; try congruence.
    + destruct Hs2. congruence.
Qed.

Record tx_evolves (own : uuid) (d d' : database) : Prop := {
  te_kept id t : ledger_transactions d !! id = Some t ->
    exists t', ledger_transactions d' !! id = Some t' /\ header_evolves own id t t';
  te_new id t' : ledger_transactions d' !! id = Some t' ->
    id = own \/ is_Some (ledger_transactions d !! id);
}.

Lemma tx_evolves_same own d d' :
  ledger_transactions d' = ledger_transactions d -> tx_evolves own d d'.
Proof. intros E. split; rewrite E; eauto using header_evolves_refl. Qed.

#[export] Instance tx_evolves_preorder own : PreOrder (tx_evolves own).
Proof.
  split.
  - intros d. by apply tx_evolves_same.
  - intros d1 d2 d3 [K1 N1] [K2 N2]. split.
    + intros id t Ht. apply K1 in Ht as (t2 & Ht2 & He). apply K2 in Ht2 as (t3 & Ht3 & He').
      exists t3. split; [done|]. by eapply header_evolves_trans.
    + intros id t' Ht. apply N2 in Ht as [->|[t2 Ht2]]; [by left|]. eauto.
Qed.

(** Both together: what every phase but the writing of the postings keeps. *)
Definition quiet (own : uuid) (d d' : database) : Prop := same_ledger d d' /\ tx_evolves own d d'.
#[export] Instance quiet_preorder own : PreOrder (quiet own).
Proof.
  split.
  - intros d. split; reflexivity.
  - intros d1 d2 d3 [S1 T1] [S2 T2]. split; [by etrans|by etrans].
Qed.

Lemma quiet_transactions own d t :
  tx_evolves own d (with_transactions d t) -> quiet own d (with_transactions d t).
Proof. intros H. by split. Qed.

(** ** Status and closing *)
Lemma header_evolves_status own s e t : header_evolves own own t (set_status s e t).
Proof. split; [by repeat split|]. split; [by intros ?|done]. Qed.

Lemma tx_evolves_alter own d f :
  (forall t, header_evolves own own t (f t)) ->
  tx_evolves own d (with_transactions d (alter f own (ledger_transactions d))).
Proof.
  intros Hf. split; simpl; intros id t Ht.
  - destruct (decide (id = own)) as [->|Hne].
    + rewrite lookup_alter_eq, Ht. simpl. eauto.
    + rewrite lookup_alter_ne by done. eauto using header_evolves_refl.
  - destruct (decide (id = own)) as [->|Hne]; [by left|].
    rewrite lookup_alter_ne in Ht by done. eauto.
Qed.

Lemma header_evolves_close own id by_ reason t :
  t_closed_by t = None -> header_evolves own id t (close_row by_ reason t).
Proof.
  intros Hc. split; [by repeat split|]. split.
  - intros [x Hx]. congruence.
  - intros _. unfold close_row. simpl. destruct (bool_decide (reason = "reversed")); [|by left].
    right. eauto.
Qed.

Section ops.
Context `{DEC : !Decimal} `{UT : !UuidText} `{HASH : !Hashing}.

Lemma UpdateStatus_quiet own s e : frames (quiet own) (TransactionRepo_UpdateStatus own s e).
Proof.
  apply frames_stmt; [apply _|]. intros d t a d'. case_bool_decide; [|done].
  intros [= _ <-]. apply quiet_transactions, tx_evolves_alter.
  intros. apply header_evolves_status.
Qed.

(** The statement of CloseOriginal, inverted. *)
Lemma CloseOriginal_quiet own id by_ reason :
  frames (quiet own) (TransactionRepo_CloseOriginal id by_ reason).
Proof.
  apply frames_wrap, frames_stmt; [apply _|]. intros d t a d'.
  destruct (ledger_transactions d !! id) as [r|] eqn:Er; [|by intros [= _ <-]].
  destruct (t_closed_by r) eqn:Ec; [by intros [= _ <-]|].
  repeat case_match; try done. intros [= _ <-].
  apply quiet_transactions. split; simpl; intros i x Hx.
  - destruct (decide (i = id)) as [->|Hne].
    + rewrite lookup_insert_eq. rewrite Er in Hx. injection Hx as <-.
      eauto using header_evolves_close.
    + rewrite lookup_insert_ne by done. eauto using header_evolves_refl.
  - right. destruct (decide (i = id)) as [->|Hne]; [by rewrite Er|].
    rewrite lookup_insert_ne in Hx by done. eauto.
Qed.

Lemma FindConflictOrDuplicate_reads ring k s t a c :
  reads (TransactionRepo_FindConflictOrDuplicate ring k s t a c).
Proof. unfold TransactionRepo_FindConflictOrDuplicate. frame. Qed.
Lemma GetHeader_reads id : reads (TransactionRepo_GetHeader id).
Proof. unfold TransactionRepo_GetHeader. frame. Qed.
Lemma GetEntries_reads id : reads (TransactionRepo_GetEntries id).
Proof. apply frames_query. apply _. Qed.
Lemma GetAccountIDs_reads id : reads (TransactionRepo_GetAccountIDs id).
Proof. apply frames_pool_query. apply _. Qed.
Lemma LockBalances_reads ids : reads (BalanceRepo_LockBalances ids).
Proof. unfold BalanceRepo_LockBalances. frame. Qed.
Lemma GetAccountFlags_reads ids : reads (BalanceRepo_GetAccountFlags ids).
Proof. unfold BalanceRepo_GetAccountFlags. frame. Qed.
Lemma GetBalance_reads id : reads (BalanceRepo_GetBalance id).
Proof. unfold BalanceRepo_GetBalance. frame. Qed.

(** *** Fees and currency policy *)
Lemma GetQuote_reads q u : reads (GetQuote q u).
Proof. unfold GetQuote, FeeRepo_GetQuoteWithGateway. frame. Qed.
Lemma QuoteExists_reads q u : reads (FeeRepo_QuoteExists q u).
Proof. unfold FeeRepo_QuoteExists. frame. Qed.
Lemma Resolve_reads u t g c a : reads (Resolve u t g c a).
Proof. unfold Resolve, FeeRepo_ResolveRule. frame. Qed.
Lemma ValidateConsumedPayinQuote_reads q u t g c a f fg r :
  reads (ValidateConsumedPayinQuote q u t g c a f fg r).
Proof.
  unfold ValidateConsumedPayinQuote, FeeRepo_ValidateConsumedPayinQuote. frame.
  apply frames_stmt; [apply _|]. intros d n x d'. repeat case_match; congruence.
Qed.
Lemma validateCurrencyPolicy_reads c o : reads (validateCurrencyPolicy c o).
Proof. unfold validateCurrencyPolicy, loadCurrencyPolicy. frame. Qed.

(** Consuming a quote touches the quotes only. *)
Definition quotes_only (d d' : database) : Prop := d' = with_quotes d (fee_quotes d').
#[export] Instance quotes_only_preorder : PreOrder quotes_only.
Proof.
  split.
  - by intros [].
  - intros [] [] []. unfold quotes_only, with_quotes. simpl. congruence.
Qed.
Lemma quotes_only_quiet own d d' : quotes_only d d' -> quiet own d d'.
Proof. intros ->. split; [done|]. by apply tx_evolves_same. Qed.

Lemma ConsumeQuote_quotes q u t c a r : frames quotes_only (ConsumeQuote q u t c a r).
Proof.
  unfold ConsumeQuote, FeeRepo_TryConsumeQuote. frame.
  - apply frames_stmt; [apply _|]. intros d n x d'. unfold sql_consume_quote.
    repeat case_match; intros; simplify_eq; try reflexivity.
  - apply reads_frames; [apply _|]. apply QuoteExists_reads.
Qed.
End ops.

#[export] Hint Resolve UpdateStatus_quiet CloseOriginal_quiet FindConflictOrDuplicate_reads
  GetHeader_reads GetEntries_reads GetAccountIDs_reads LockBalances_reads
  GetAccountFlags_reads GetBalance_reads GetQuote_reads QuoteExists_reads Resolve_reads
  ValidateConsumedPayinQuote_reads validateCurrencyPolicy_reads : frame.

Lemma UpdateStatus_Ok id s e w u w' :
  TransactionRepo_UpdateStatus id s e w = (Ok u, w') ->
  w_db w' = with_transactions (w_db w) (alter (set_status s e) id (ledger_transactions (w_db w))).
Proof. intros (t & H & _)%stmt_Ok. case_bool_decide; [|done]. by injection H as _ <-. Qed.

(** ** Honest computations

    [Handle] reports success when the error of [transfer] is [ErrAlreadyPosted];
    a computation is honest when no error of its own says so. *)
Definition honest {A} (m : M A) : Prop :=
  forall w e w', m w = (Err e, w') -> errors_is e ErrAlreadyPosted = false.

Lemma infra_honest i : errors_is (infra_error i) ErrAlreadyPosted = false.
Proof. by destruct i. Qed.

Lemma honest_ret {A} (a : A) : honest (ret a).
Proof. by intros w e w' [=]. Qed.
Lemma honest_fail {A} e : errors_is e ErrAlreadyPosted = false -> honest (fail e : M A).
Proof. by intros H w e' w' [= <- _]. Qed.
Lemma honest_panic {A} : honest (panic : M A).
Proof. by intros w e w' [=]. Qed.
Lemma honest_lift {A} (r : result A) :
  (forall e, r = Err e -> errors_is e ErrAlreadyPosted = false) -> honest (lift r).
Proof. intros H w e w' [= E _]. by apply H. Qed.
Lemma honest_bind {A B} (m : M A) (f : A -> M B) :
  honest m -> (forall a, honest (f a)) -> honest (bind m f).
Proof. intros Hm Hf w e w' [H|(a & w1 & _ & H)]%bind_Err; [by eapply Hm|by eapply Hf]. Qed.
Lemma honest_wrap {A} c (m : M A) : honest m -> honest (wrap c m).
Proof.
  intros Hm w e w' H. unfold wrap in H. destruct (m w) as [[a|e'|] w1] eqn:E; try done.
  injection H as <- <-. simpl. by eapply Hm.
Qed.
Lemma honest_try {A} (m : M A) : honest (try m).
Proof. intros w e w' H. unfold try in H. by destruct (m w) as [[a|e'|] w1]. Qed.

(** After [try], the caller may use that the caught error is honest. *)
Lemma honest_bind_try {A B} (m : M A) (f : error + A -> M B) :
  honest m ->
  (forall e, errors_is e ErrAlreadyPosted = false -> honest (f (inl e))) ->
  (forall a, honest (f (inr a))) -> honest (bind (try m) f).
Proof.
  intros Hm He Ha w e w' H. unfold bind, try in H. destruct (m w) as [[a|e'|] w1] eqn:E; try done.
  - by eapply Ha.
  - eapply He; [by eapply Hm|done].
Qed.
Lemma honest_stmt {A} (f : database -> Z -> error + (A * database)) :
  (forall d t e, f d t = inl e -> errors_is e ErrAlreadyPosted = false) -> honest (stmt f).
Proof.
  intros Hf w e w' H. unfold stmt in H. destruct (next_call w) as [o w1].
  destruct o; [|injection H as <- _; apply infra_honest..].
  destruct (w_aborted w1); [by injection H as <- _|].
  destruct (f _ _) as [e'|[a d]] eqn:E; [|done]. injection H as <- _. by eapply Hf.
Qed.
Lemma honest_query {A} (f : database -> Z -> A) : honest (query f).
Proof. by apply honest_stmt. Qed.
Lemma honest_pool_query {A} (f : database -> Z -> A) : honest (pool_query f).
Proof.
  intros w e w' H. unfold pool_query in H. destruct (next_call w) as [o w1].
  destruct o; [done|injection H as <- _; apply infra_honest..].
Qed.
Lemma honest_scan_row {A} (m : M (option A)) : honest m -> honest (scan_row m).
Proof.
  intros Hm. apply honest_bind; [done|]. intros [a|]; [apply honest_ret|by apply honest_fail].
Qed.
Lemma honest_NewV7 : honest NewV7.
Proof. by intros w e w' [=]. Qed.
Lemma honest_time_now : honest time_now.
Proof. by intros w e w' [=]. Qed.
Lemma honest_nth {A} (l : list A) i : honest (nth_or_panic l i).
Proof. unfold nth_or_panic. destruct (l !! i); [apply honest_ret|apply honest_panic]. Qed.

Create HintDb honest.
#[export] Hint Resolve honest_ret honest_panic honest_try honest_query honest_pool_query
  honest_NewV7 honest_time_now honest_nth : honest.

Ltac honest_step :=
  match goal with
  | |- forall _, _ => intro
  | |- honest (bind (try _) _) => apply honest_bind_try
  | |- honest (bind _ _) => apply honest_bind
  | |- honest (wrap _ _) => apply honest_wrap
  | |- honest (scan_row _) => apply honest_scan_row
  | |- honest (ret _) => apply honest_ret
  | |- honest (fail _) => apply honest_fail; first [reflexivity | assumption]
  | |- honest (lift (Ok _)) => apply honest_lift; discriminate
  | |- honest (match ?x with _ => _ end) => destruct x
  end.
Ltac honest := repeat (first [honest_step | solve [eauto with honest]]).
