(* ===== verification/Lawful.v ===== *)
(** * What the engine asks of a transaction type

    [LawfulProcessor] is the contract between the posting service and the
    processors of services/ledger/internal/processors: no method changes the
    database, and the entries a processor builds lie within the accounts it
    resolved.  Every processor of the default registry meets it. *)
From stdpp Require Import prelude gmap strings list sorting.
From S2P Require Import Prelude Decimal Errors Currency Events Store TxRepo Repos AccountRepo.
From S2P Require Import Fee Processors ProcMoney ProcWithdraw ProcMerchant ProcFx Frames.

Section lawful.
Context `{DEC : !Decimal} `{UT : !UuidText}.

(** A reversal posts to the accounts of the original's entries: they must be
    among the accounts resolved. *)
Definition covers (p : TxProcessor) (reference : uuid) (ids : list uuid) (d : database) : Prop :=
  Type__ p = "reversal" ->
  forall e, e ∈ entries_of_tx reference (ledger_entries d) -> e_account_id e ∈ ids.

(** The entries of a run lie within the accounts of the command. *)
Definition within (rc : ResolvedCommand) (es : list EntryInstruction) : Prop :=
  es <> [] /\ Forall (fun e => ei_AccountID e ∈ AccountIDs rc) es.

Class LawfulProcessor (p : TxProcessor) : Prop := {
  lp_ResolveAccounts cmd : reads (ResolveAccounts p cmd);
  lp_Validate rc bal : reads (Validate p rc bal);
  lp_BuildEntries rc bal : reads (BuildEntries p rc bal);
  lp_AfterCommit cmd : reads (AfterCommit p cmd);
  lp_ValidateCommand cmd : reads (ValidateCommand p cmd);
  lp_pre f rc : ValidateBeforeBalanceLocks p = Some f -> reads (f rc);
  lp_Validate_honest rc bal : honest (Validate p rc bal);
  lp_BuildEntries_honest rc bal : honest (BuildEntries p rc bal);
  lp_pre_honest f rc : ValidateBeforeBalanceLocks p = Some f -> honest (f rc);
  lp_covers cmd w ra c w' :
    ResolveAccounts p cmd w = (Ok (ra, c), w') ->
    covers p (ReferenceID cmd) (Ordered ra) (w_db w);
  lp_within rc bal w es w' :
    BuildEntries p rc bal w = (Ok es, w') ->
    covers p (ReferenceID (rc_Command rc)) (AccountIDs rc) (w_db w) -> within rc es;
}.

(** ** Helpers of the processors only read *)
Section reading.
Context `{REPO : !AccountRepository} `{!ReadOnlyAccounts REPO}.

Lemma resolveInlineFee_reads cmd c : reads (resolveInlineFee cmd c).
Proof. unfold resolveInlineFee. frame. Qed.
Hint Resolve resolveInlineFee_reads : frame.
Lemma with_inline_fee_reads n cmd c r : reads (with_inline_fee n cmd c r).
Proof. unfold with_inline_fee. frame. Qed.
Lemma cash_or_pocket_reads n cmd : reads (cash_or_pocket n cmd).
Proof. unfold cash_or_pocket. frame. Qed.
Lemma interest_expense_reads n c : reads (interest_expense n c).
Proof. unfold interest_expense. frame. Qed.
Lemma interest_payable_reads n c : reads (interest_payable n c).
Proof. unfold interest_payable. frame. Qed.
End reading.

Lemma requireGateway_reads cmd n : reads (requireGateway cmd n).
Proof. unfold requireGateway. frame. Qed.
Lemma require_key_reads cmd k : reads (require_key cmd k).
Proof. unfold require_key. frame. Qed.
Lemma require_value_reads cmd k : reads (require_value cmd k).
Proof. unfold require_value. frame. Qed.
Lemma require_values_reads cmd ks : reads (require_values cmd ks).
Proof. induction ks; simpl; frame. apply require_value_reads. Qed.
Lemma require_uuid_reads cmd k : reads (require_uuid cmd k).
Proof. unfold require_uuid. frame. Qed.
Lemma require_tenant_reads cmd : reads (require_tenant cmd).
Proof. unfold require_tenant. frame. Qed.
Lemma requireReferenceID_reads cmd t : reads (requireReferenceID cmd t).
Proof. unfold requireReferenceID. frame. Qed.
Lemma meta_uuid_reads n cmd k : reads (meta_uuid n cmd k).
Proof. unfold meta_uuid. frame. Qed.
Lemma suspense_currency_reads cmd : reads (suspense_currency cmd).
Proof. unfold suspense_currency. frame. Qed.
Lemma correction_stage_reads cmd : reads (correction_stage cmd).
Proof. unfold correction_stage. frame. Qed.
Lemma account_reads rc i : reads (account rc i).
Proof. unfold account. frame. Qed.
Lemma validateOriginalForClose_reads r t a : reads (validateOriginalForClose r t a).
Proof. unfold validateOriginalForClose. frame. Qed.
Hint Resolve account_reads require_key_reads : frame.
Lemma validate_amount_reads rc bal : reads (validate_amount rc bal).
Proof. unfold validate_amount. frame. Qed.
Lemma validate_funds_reads x rc bal : reads (validate_funds x rc bal).
Proof. unfold validate_funds. frame. Qed.
Lemma two_leg_reads rc n n' : reads (two_leg_entries rc n n').
Proof. unfold two_leg_entries. frame. Qed.
Lemma fee_leg_reads rc n n' f : reads (fee_leg_entries rc n n' f).
Proof. unfold fee_leg_entries. frame. Qed.
Hint Resolve validate_amount_reads : frame.
Lemma lockFXRebalancePositionLimit_reads rc : reads (lockFXRebalancePositionLimit rc).
Proof. unfold lockFXRebalancePositionLimit. frame. Qed.
Lemma validateFXRebalancePosition_reads rc bal i b :
  reads (validateFXRebalancePosition rc bal i b).
Proof. unfold validateFXRebalancePosition. frame. Qed.
Hint Resolve validateFXRebalancePosition_reads : frame.
Lemma validate_rebalance_reads rc bal i b : reads (validate_rebalance rc bal i b).
Proof. unfold validate_rebalance. frame. Qed.
Lemma fxRebalance_ValidateCommand_reads cmd : reads (fxRebalance_ValidateCommand cmd).
Proof. unfold fxRebalance_ValidateCommand. frame. Qed.
End lawful.

#[export] Hint Resolve resolveInlineFee_reads with_inline_fee_reads cash_or_pocket_reads
  interest_expense_reads interest_payable_reads requireGateway_reads require_key_reads
  require_value_reads require_values_reads require_uuid_reads require_tenant_reads
  requireReferenceID_reads meta_uuid_reads suspense_currency_reads correction_stage_reads
  account_reads validateOriginalForClose_reads validate_amount_reads validate_funds_reads
  two_leg_reads fee_leg_reads lockFXRebalancePositionLimit_reads
  validateFXRebalancePosition_reads validate_rebalance_reads
  fxRebalance_ValidateCommand_reads : frame.

(** ** The shapes of entries *)
Section shapes.
Context `{DEC : !Decimal} `{UT : !UuidText}.

Lemma account_Ok rc i w a w' :
  account rc i w = (Ok a, w') -> AccountIDs rc !! i = Some a /\ w' = w.
Proof.
  unfold account, nth_or_panic. destruct (AccountIDs rc !! i); [|done].
  intros [= <- <-]. done.
Qed.

Lemma hasFee_within rc id fee : hasFee rc = Some (id, fee) -> id ∈ AccountIDs rc.
Proof.
  unfold hasFee. repeat case_match; intros; simplify_eq; by apply last_Some_elem_of.
Qed.

Lemma two_entries_within rc a b amount n n' :
  a ∈ AccountIDs rc -> b ∈ AccountIDs rc -> within rc (two_entries a b amount n n').
Proof. intros. split; [done|]. by repeat constructor. Qed.

Lemma fee_entries_within rc a b n n' f :
  a ∈ AccountIDs rc -> b ∈ AccountIDs rc -> within rc (fee_entries rc a b n n' f).
Proof.
  intros. unfold fee_entries. destruct (hasFee rc) as [[id fee]|] eqn:E.
  - apply hasFee_within in E. split; [done|]. by repeat constructor.
  - by apply two_entries_within.
Qed.

(** Both legs of a two-leg processor come from the resolved accounts. *)
Lemma two_leg_Ok rc n n' w es w' :
  two_leg_entries rc n n' w = (Ok es, w') ->
  exists a b, AccountIDs rc !! 0%nat = Some a /\ AccountIDs rc !! 1%nat = Some b
              /\ es = two_entries a b (Amount (rc_Command rc)) n n' /\ w' = w.
Proof.
  intros H. apply bind_Ok in H as (a & w1 & Ha & H). apply account_Ok in Ha as [? ->].
  apply bind_Ok in H as (b & w2 & Hb & H). apply account_Ok in Hb as [? ->].
  injection H as <- <-. eauto 8.
Qed.
Lemma fee_leg_Ok rc n n' f w es w' :
  fee_leg_entries rc n n' f w = (Ok es, w') ->
  exists a b, AccountIDs rc !! 0%nat = Some a /\ AccountIDs rc !! 1%nat = Some b
              /\ es = fee_entries rc a b n n' f /\ w' = w.
Proof.
  intros H. apply bind_Ok in H as (a & w1 & Ha & H). apply account_Ok in Ha as [? ->].
  apply bind_Ok in H as (b & w2 & Hb & H). apply account_Ok in Hb as [? ->].
  injection H as <- <-. eauto 8.
Qed.

Lemma two_leg_within rc n n' w es w' :
  two_leg_entries rc n n' w = (Ok es, w') -> within rc es.
Proof.
  intros (a & b & ? & ? & -> & _)%two_leg_Ok.
  apply two_entries_within; by eapply list_elem_of_lookup_2.
Qed.
Lemma fee_leg_within rc n n' f w es w' :
  fee_leg_entries rc n n' f w = (Ok es, w') -> within rc es.
Proof.
  intros (a & b & ? & ? & -> & _)%fee_leg_Ok.
  apply fee_entries_within; by eapply list_elem_of_lookup_2.
Qed.
End shapes.

(** ** No processor claims that a key was already posted *)
Section honest.
Context `{DEC : !Decimal} `{UT : !UuidText}.

Definition honest_validator (v : Validator) : Prop :=
  forall rc bal e, v rc bal = Err e -> errors_is e ErrAlreadyPosted = false.

Lemma MetaDecimal_honest meta k e :
  MetaDecimal meta k = inl e -> errors_is e ErrAlreadyPosted = false.
Proof. unfold MetaDecimal. repeat case_match; by intros [= <-]. Qed.

Lemma PositiveAmount_honest : honest_validator PositiveAmountValidator.
Proof. intros rc bal e. unfold PositiveAmountValidator. case_match; by intros [= <-]. Qed.
Lemma IntegralAmount_honest : honest_validator IntegralAmountValidator.
Proof. intros rc bal e. unfold IntegralAmountValidator. case_match; by intros [= <-]. Qed.
Lemma SufficientFunds_honest a : honest_validator (SufficientFundsValidator a).
Proof. intros rc bal e. unfold SufficientFundsValidator. repeat case_match; by intros [= <-]. Qed.
Lemma NotSelfTransfer_honest a b : honest_validator (NotSelfTransferValidator a b).
Proof. intros rc bal e. unfold NotSelfTransferValidator. case_match; by intros [= <-]. Qed.
Lemma FeeAmount_honest : honest_validator FeeAmountValidator.
Proof.
  intros rc bal e. unfold FeeAmountValidator. destruct (MetaDecimal _ _) as [e'|fee] eqn:E.
  - intros [= <-]. simpl. by eapply MetaDecimal_honest.
  - repeat case_match; by intros [= <-].
Qed.

Lemma Multi_honest vs rc bal :
  Forall honest_validator vs -> honest (lift (MultiValidator vs rc bal)).
Proof.
  intros Hvs. apply honest_lift. induction Hvs as [|v vs Hv _ IH]; intros e; simpl; [done|].
  destruct (v rc bal) eqn:E; [apply IH| |done]. intros [= <-]. by eapply Hv.
Qed.

Lemma fee_validators_honest rc : Forall honest_validator (fee_validators rc).
Proof. unfold fee_validators. destruct (hasFee rc); repeat constructor. apply FeeAmount_honest. Qed.

Lemma account_honest rc i : honest (account rc i).
Proof. apply honest_nth. Qed.
Lemma validate_amount_honest rc bal : honest (validate_amount rc bal).
Proof.
  apply Multi_honest. repeat constructor; [apply PositiveAmount_honest|apply IntegralAmount_honest].
Qed.
Lemma validate_funds_honest x rc bal :
  Forall honest_validator x -> honest (validate_funds x rc bal).
Proof.
  intros Hx. apply honest_bind; [apply account_honest|]. intros a. apply Multi_honest.
  apply Forall_app. split; [|done].
  repeat constructor;
    [apply PositiveAmount_honest|apply IntegralAmount_honest|apply SufficientFunds_honest].
Qed.
Lemma two_leg_honest rc n n' : honest (two_leg_entries rc n n').
Proof. unfold two_leg_entries. honest; apply account_honest. Qed.
Lemma fee_leg_honest rc n n' f : honest (fee_leg_entries rc n n' f).
Proof. unfold fee_leg_entries. honest; apply account_honest. Qed.
Lemma require_key_honest cmd k : honest (require_key cmd k).
Proof. unfold require_key. honest. Qed.
Lemma GetHeader_honest id : honest (TransactionRepo_GetHeader id).
Proof. unfold TransactionRepo_GetHeader. honest. Qed.
Lemma GetEntries_honest id : honest (TransactionRepo_GetEntries id).
Proof. unfold TransactionRepo_GetEntries. honest. Qed.
Hint Resolve GetHeader_honest : honest.
Lemma validateOriginalForClose_honest r t a : honest (validateOriginalForClose r t a).
Proof. unfold validateOriginalForClose. honest. Qed.
Lemma fxRebalanceTarget_honest cmd : honest (lift (fxRebalanceTarget cmd)).
Proof.
  apply honest_lift. intros e. unfold fxRebalanceTarget, ValidateCode.
  repeat case_match; intros [= <-]; simplify_eq; reflexivity.
Qed.
Hint Resolve account_honest fxRebalanceTarget_honest require_key_honest
  validate_amount_honest : honest.
Lemma lockFXRebalancePositionLimit_honest rc : honest (lockFXRebalancePositionLimit rc).
Proof. unfold lockFXRebalancePositionLimit. honest. Qed.
Lemma validateFXRebalancePosition_honest rc bal i b :
  honest (validateFXRebalancePosition rc bal i b).
Proof. unfold validateFXRebalancePosition. honest. Qed.
Hint Resolve validateFXRebalancePosition_honest : honest.
Lemma validate_rebalance_honest rc bal i b : honest (validate_rebalance rc bal i b).
Proof. unfold validate_rebalance. honest. Qed.
End honest.
#[export] Hint Resolve Multi_honest PositiveAmount_honest IntegralAmount_honest
  SufficientFunds_honest NotSelfTransfer_honest FeeAmount_honest fee_validators_honest
  account_honest validate_amount_honest validate_funds_honest two_leg_honest fee_leg_honest
  require_key_honest GetHeader_honest GetEntries_honest validateOriginalForClose_honest
  lockFXRebalancePositionLimit_honest validate_rebalance_honest : honest.
#[export] Hint Constructors Forall : honest.

(** The laws, by decomposition of the methods the record names. *)
Ltac unfold_head t := match t with ?f _ => unfold_head f | _ => unfold t end.
Ltac unfold_method :=
  match goal with |- frames _ ?m => unfold_head m | |- honest ?m => unfold_head m end.
Ltac unfold_processor := match goal with |- LawfulProcessor ?p => unfold_head p end.
Ltac lawful_reads :=
  cbn [ResolveAccounts Validate BuildEntries AfterCommit ValidateCommand];
  first [solve [eauto with frame] | unfold_method; cbv zeta; frame].
Ltac lawful_honest :=
  cbn [Validate BuildEntries];
  first [solve [eauto with honest] | unfold_method; cbv zeta; honest; cbn [app]; eauto with honest].
Ltac lawful_pre_honest :=
  intros * H; cbn [ValidateBeforeBalanceLocks] in H; simplify_eq; eauto with honest.
Ltac lawful_pre :=
  intros * H; cbn [ValidateBeforeBalanceLocks] in H; simplify_eq; eauto with frame.
Ltac lawful_covers := intros * _; unfold covers; cbn [Type__]; discriminate.
Ltac lawful_within :=
  intros * H _; cbn [BuildEntries] in H; revert H;
  first [apply two_leg_within | apply fee_leg_within].
Ltac lawful :=
  unfold_processor; split;
  [ intros; lawful_reads | intros; lawful_reads | intros; lawful_reads | intros; lawful_reads
  | intros; lawful_reads | lawful_pre
  | intros; lawful_honest | intros; lawful_honest | lawful_pre_honest | try solve [lawful_covers] | try solve [lawful_within] ].

(** ** The processors of the default registry *)
Section instances.
Context `{DEC : !Decimal} `{UT : !UuidText}.
Context `{REPO : !AccountRepository} `{!ReadOnlyAccounts REPO} (reg : registry).

Lemma MoneyIn_within rc bal w es w' :
  MoneyIn_BuildEntries rc bal w = (Ok es, w') -> within rc es.
Proof.
  unfold MoneyIn_BuildEntries. cbv zeta. case_match eqn:Eq. clear Eq. intros H.
  apply bind_Ok in H as (a & w1 & Ha & H). apply account_Ok in Ha as [Ha ->].
  apply bind_Ok in H as (b & w2 & Hb & H). apply account_Ok in Hb as [Hb ->].
  apply list_elem_of_lookup_2 in Ha, Hb. injection H as <- <-. split; [done|].
  destruct (hasFee rc) as [[id fee]|] eqn:E; [apply hasFee_within in E|];
    by repeat constructor.
Qed.

Lemma TransferPocket_within rc bal w es w' :
  TransferPocket_BuildEntries rc bal w = (Ok es, w') -> within rc es.
Proof.
  unfold TransferPocket_BuildEntries. cbv zeta. intros H.
  apply bind_Ok in H as (a & w1 & Ha & H). apply account_Ok in Ha as [Ha ->].
  apply bind_Ok in H as (b & w2 & Hb & H). apply account_Ok in Hb as [Hb ->].
  apply list_elem_of_lookup_2 in Ha, Hb.
  case_bool_decide; injection H as <- <-; by apply two_entries_within.
Qed.

(** Reading the original's entries returns them all, each once. *)
Lemma GetEntries_Ok id w l w' :
  TransactionRepo_GetEntries id w = (Ok l, w') ->
  l ≡ₚ entries_of_tx id (ledger_entries (w_db w)) /\ w_db w' = w_db w.
Proof.
  unfold TransactionRepo_GetEntries. intros (t & -> & E)%query_Ok.
  split; [apply merge_sort_Permutation|done].
Qed.

Lemma Reversal_BuildEntries_Ok rc bal w es w' :
  Reversal_BuildEntries rc bal w = (Ok es, w') ->
  exists l, l ≡ₚ entries_of_tx (ReferenceID (rc_Command rc)) (ledger_entries (w_db w))
            /\ l <> [] /\ forallb (reversal_funds_ok bal) l = true /\ es = map reverse_entry l.
Proof.
  unfold Reversal_BuildEntries. intros H. apply bind_Ok in H as (l & w1 & Hl & H).
  apply wrap_Ok, GetEntries_Ok in Hl as [Hl _]. case_bool_decide; [done|].
  destruct (forallb _ l) eqn:Ef; [|done]. injection H as <- <-. eauto.
Qed.

Lemma Reversal_within rc bal w es w' :
  BuildEntries (Reversal reg) rc bal w = (Ok es, w') ->
  covers (Reversal reg) (ReferenceID (rc_Command rc)) (AccountIDs rc) (w_db w) -> within rc es.
Proof.
  intros (l & Hl & Hne & _ & ->)%Reversal_BuildEntries_Ok Hc. split.
  - by destruct l.
  - apply Forall_forall. intros e (r & -> & Hr)%list_elem_of_fmap. simpl.
    apply Hc; [done|]. by rewrite <- Hl.
Qed.

Lemma Reversal_covers cmd w ra c w' :
  ResolveAccounts (Reversal reg) cmd w = (Ok (ra, c), w') ->
  covers (Reversal reg) (ReferenceID cmd) (Ordered ra) (w_db w).
Proof.
  cbn [ResolveAccounts Reversal]. unfold Reversal_ResolveAccounts.
  case_bool_decide as Hnil; [done|]. intros H _. apply bind_Ok in H as (ids & w1 & Hi & H).
  apply wrap_Ok, pool_query_Ok in Hi as (t & -> & _).
  destruct (remove_dups _) as [|x l] eqn:E; [done|]. rewrite <- E in *.
  apply bind_Ok in H as (cur & w2 & _ & H). injection H as <- _ _. simpl.
  intros e He. apply elem_of_remove_dups. by apply list_elem_of_fmap_2.
Qed.

#[export] Instance MoneyIn_lawful : LawfulProcessor (MoneyIn reg).
Proof. lawful. intros * H _. exact (MoneyIn_within _ bal _ _ _ H). Qed.
#[export] Instance MoneyOut_lawful : LawfulProcessor (MoneyOut reg).
Proof. lawful. Qed.
#[export] Instance WithdrawInitiate_lawful : LawfulProcessor (WithdrawInitiate reg).
Proof. lawful. Qed.
#[export] Instance WithdrawPending_lawful : LawfulProcessor (WithdrawPending reg).
Proof. lawful. Qed.
#[export] Instance WithdrawSettle_lawful : LawfulProcessor (WithdrawSettle reg).
Proof. lawful. Qed.
#[export] Instance WithdrawCancel_lawful : LawfulProcessor (WithdrawCancel reg).
Proof. lawful. Qed.
#[export] Instance WithdrawPendingSettle_lawful : LawfulProcessor (WithdrawPendingSettle reg).
Proof. lawful. Qed.
#[export] Instance WithdrawPendingCancel_lawful : LawfulProcessor (WithdrawPendingCancel reg).
Proof. lawful. Qed.
#[export] Instance TransferP2P_lawful : LawfulProcessor (TransferP2P reg).
Proof. lawful. Qed.
#[export] Instance TransferPocket_lawful : LawfulProcessor (TransferPocket reg).
Proof. lawful. intros * H _. exact (TransferPocket_within _ bal _ _ _ H). Qed.
#[export] Instance MerchantTransfer_lawful : LawfulProcessor (MerchantTransfer reg).
Proof. lawful. Qed.
#[export] Instance MerchantPayinCredit_lawful : LawfulProcessor (MerchantPayinCredit reg).
Proof. lawful. Qed.
#[export] Instance MerchantPayoutHold_lawful : LawfulProcessor (MerchantPayoutHold reg).
Proof. lawful. Qed.
#[export] Instance MerchantPayoutSettle_lawful : LawfulProcessor (MerchantPayoutSettle reg).
Proof. lawful. Qed.
#[export] Instance MerchantPayoutCancel_lawful : LawfulProcessor (MerchantPayoutCancel reg).
Proof. lawful. Qed.
#[export] Instance Refund_lawful : LawfulProcessor (Refund reg).
Proof. lawful. Qed.
#[export] Instance FeeCollect_lawful : LawfulProcessor (FeeCollect reg).
Proof. lawful. Qed.
#[export] Instance Chargeback_lawful : LawfulProcessor (Chargeback reg).
Proof. lawful. Qed.
#[export] Instance EscrowHold_lawful : LawfulProcessor (EscrowHold reg).
Proof. lawful. Qed.
#[export] Instance EscrowRelease_lawful : LawfulProcessor (EscrowRelease reg).
Proof. lawful. Qed.
#[export] Instance EscrowRefund_lawful : LawfulProcessor (EscrowRefund reg).
Proof. lawful. Qed.
#[export] Instance FreezeInitiate_lawful : LawfulProcessor (FreezeInitiate reg).
Proof. lawful. Qed.
#[export] Instance FreezeRelease_lawful : LawfulProcessor (FreezeRelease reg).
Proof. lawful. Qed.
#[export] Instance FreezeConfiscate_lawful : LawfulProcessor (FreezeConfiscate reg).
Proof. lawful. Qed.
#[export] Instance AdjustmentCredit_lawful : LawfulProcessor (AdjustmentCredit reg).
Proof. lawful. Qed.
#[export] Instance AdjustmentDebit_lawful : LawfulProcessor (AdjustmentDebit reg).
Proof. lawful. Qed.
#[export] Instance AdjustmentSuspenseCredit_lawful : LawfulProcessor (AdjustmentSuspenseCredit reg).
Proof. lawful. Qed.
#[export] Instance AdjustmentSuspenseDebit_lawful : LawfulProcessor (AdjustmentSuspenseDebit reg).
Proof. lawful. Qed.
#[export] Instance FXRebalanceCredit_lawful : LawfulProcessor (FXRebalanceCredit reg).
Proof. lawful. Qed.
#[export] Instance FXRebalanceDebit_lawful : LawfulProcessor (FXRebalanceDebit reg).
Proof. lawful. Qed.
#[export] Instance FxOut_lawful : LawfulProcessor (FxOut reg).
Proof. lawful. Qed.
#[export] Instance FxIn_lawful : LawfulProcessor (FxIn reg).
Proof. lawful. Qed.
#[export] Instance Disbursement_lawful : LawfulProcessor (Disbursement reg).
Proof. lawful. Qed.
#[export] Instance InterestAccrue_lawful : LawfulProcessor (InterestAccrue reg).
Proof. lawful. Qed.
#[export] Instance InterestLiabilityAccrue_lawful : LawfulProcessor (InterestLiabilityAccrue reg).
Proof. lawful. Qed.
#[export] Instance InterestCapitalize_lawful : LawfulProcessor (InterestCapitalize reg).
Proof. lawful. Qed.
#[export] Instance InterestAdjustment_lawful : LawfulProcessor (InterestAdjustment reg).
Proof. lawful. Qed.
#[export] Instance Reversal_lawful : LawfulProcessor (Reversal reg).
Proof. lawful; [exact Reversal_covers|exact Reversal_within]. Qed.

Lemma default_processors_lawful : Forall LawfulProcessor (default_processors reg).
Proof. unfold default_processors. repeat (constructor; [apply _|]). constructor. Qed.
End instances.
