(* ===== verification/Postings.v ===== *)
(** * From entries to balances

    [posting d d' tx rows] is the abstract step of the ledger: the rows of one
    balanced transaction are appended and every balance moves by the signed sum
    of its rows.  The balance arithmetic of handle/service.go over exact
    decimals, the three writing operations of the repositories and
    [write_postings] are shown to refine it. *)
From stdpp Require Import prelude gmap strings list sorting.
From S2P Require Import Prelude Decimal Errors Currency Events Store TxRepo Repos AccountRepo.
From S2P Require Import Fee Processors Handle Frames Lawful.
From Stdlib Require Import QArith Lqa.
Open Scope Z_scope.

(** ** The abstract step *)
Definition debits (l : list entry_row) : Z :=
  sumZ (fun e => match e_direction e with Debit => e_amount e | Credit => 0 end) l.
Definition credits (l : list entry_row) : Z :=
  sumZ (fun e => match e_direction e with Debit => 0 | Credit => e_amount e end) l.

Record posting (d d' : database) (tx : uuid) (rows : list entry_row) : Prop := {
  po_accounts : accounts d' = accounts d;
  po_entries : ledger_entries d' = ledger_entries d ++ rows;
  po_fresh : entries_of_tx tx (ledger_entries d) = [];
  po_nonempty : rows <> [];
  po_rows r : r ∈ rows -> e_transaction_id r = tx /\ 0 < e_amount r /\ in_int64 (e_amount r) = true;
  po_balanced : debits rows = credits rows;
  po_currency : exists c, forall r, r ∈ rows ->
    exists a, accounts d !! e_account_id r = Some a /\ a_currency a = c;
  po_balances a :
    account_balances d' !! a =
    (fun b => BalanceRow (b_balance b + computed_balance a rows) (b_allow_negative b))
      <$> account_balances d !! a;
  po_touched r : r ∈ rows -> exists b, account_balances d' !! e_account_id r = Some b /\
    b_balance b = e_balance_after r /\ in_int64 (b_balance b) = true /\ chk_balance_floor b = true;
}.

Lemma signed_total l : sumZ entry_signed l = credits l - debits l.
Proof.
  unfold credits, debits. induction l as [|e l IH]; simpl; [done|]. rewrite IH.
  unfold entry_signed. destruct (e_direction e); simpl; lia.
Qed.

(** No account moves by more than the transaction's total. *)
Lemma computed_balance_bounds a l :
  (forall r, r ∈ l -> 0 < e_amount r) -> - debits l <= computed_balance a l <= credits l.
Proof.
  unfold debits, credits, computed_balance. induction l as [|e l IH]; simpl; intros H; [lia|].
  assert (0 < e_amount e) by (apply H; set_solver).
  assert (forall r, r ∈ l -> 0 < e_amount r) as Hl by (intros; apply H; set_solver).
  specialize (IH Hl).
  assert (Hd : entry_delta a e = 0 \/ entry_delta a e = entry_signed e)
    by (unfold entry_delta; case_decide; auto).
  unfold entry_signed in Hd. destruct (e_direction e); simpl in Hd; lia.
Qed.

Lemma computed_balance_absent a l :
  (forall r, r ∈ l -> e_account_id r <> a) -> computed_balance a l = 0.
Proof.
  intros H. apply sumZ_zero. intros r Hr. unfold entry_delta.
  rewrite decide_False; [done|]. by apply H.
Qed.

(** ** Entries and their rows *)
Section rows.
Context `{DEC : !Decimal} `{UT : !UuidText} `{HASH : !Hashing}.
Implicit Types (es : list EntryInstruction) (rows : list entry_row).

Record row_matches (tx : uuid) (bal : gmap uuid dec) (e : EntryInstruction) (r : entry_row)
    : Prop := {
  rm_tx : e_transaction_id r = tx;
  rm_account : e_account_id r = ei_AccountID e;
  rm_direction : e_direction r = ei_Direction e;
  rm_note : e_note r = ei_Note e;
  rm_amount : dec_bigint (ei_Amount e) = Some (e_amount r);
  rm_positive : 0 < e_amount r;
  rm_after : dec_bigint (default dec_zero (bal !! ei_AccountID e)) = Some (e_balance_after r);
}.

Lemma apply_entry_val tx bal e r m a :
  row_matches tx bal e r ->
  (dec_val (default dec_zero (apply_entry m e !! a))
   == dec_val (default dec_zero (m !! a)) + inject_Z (entry_delta a r))%Q.
Proof.
  intros Hr. destruct (proj1 (dec_bigint_spec _ _) (rm_amount _ _ _ _ Hr)) as [Hv _].
  unfold apply_entry, entry_delta, entry_signed. rewrite (rm_account _ _ _ _ Hr), (rm_direction _ _ _ _ Hr).
  destruct (decide (ei_AccountID e = a)) as [<-|Hne].
  - rewrite lookup_insert_eq. simpl. destruct (ei_Direction e); simpl;
      rewrite ?dec_sub_val, ?dec_add_val, Hv, ?inject_Z_opp; lra.
  - rewrite lookup_insert_ne by done. change (inject_Z 0) with 0%Q. lra.
Qed.

(** Applying entries adds, account by account, the signed sum of the rows. *)
Lemma foldl_apply_entry tx bal es rows :
  Forall2 (row_matches tx bal) es rows -> forall m a,
  (dec_val (default dec_zero (foldl apply_entry m es !! a))
   == dec_val (default dec_zero (m !! a)) + inject_Z (computed_balance a rows))%Q.
Proof.
  induction 1 as [|e r es rows Hr _ IH]; intros m a; simpl.
  - change (inject_Z _) with 0%Q. lra.
  - rewrite IH, (apply_entry_val tx bal e r) by done. unfold computed_balance. simpl.
    rewrite inject_Z_plus. lra.
Qed.

Lemma foldl_apply_dom es m a :
  is_Some (foldl apply_entry m es !! a) <->
  is_Some (m !! a) \/ exists e, e ∈ es /\ ei_AccountID e = a.
Proof.
  revert m. induction es as [|e es IH]; intros m; simpl.
  - split; [by left|]. intros [?|(e & He & _)]; [done|by apply not_elem_of_nil in He].
  - rewrite IH. unfold apply_entry. rewrite lookup_insert_is_Some. split.
    + intros [[<-|[_ ?]]|(x & ? & <-)]; [right; exists e|by left|right; exists x];
        rewrite elem_of_cons; auto.
    + intros [?|(x & [->|?]%elem_of_cons & <-)]; [|by left; left|right; eauto].
      left. destruct (decide (ei_AccountID e = a)); auto.
Qed.

Lemma row_matches_filter tx bal (S : gset uuid) es rows :
  Forall2 (row_matches tx bal) es rows ->
  Forall2 (row_matches tx bal) (filter (fun e => ei_AccountID e ∈ S) es)
          (filter (fun r => e_account_id r ∈ S) rows)
  /\ Forall2 (row_matches tx bal) (filter (fun e => ei_AccountID e ∉ S) es)
             (filter (fun r => e_account_id r ∉ S) rows).
Proof.
  intros H. split; apply Forall2_filter; try done; intros e r Hr;
    by rewrite (rm_account _ _ _ _ Hr).
Qed.

Lemma computed_balance_in (S : gset uuid) a rows :
  a ∈ S -> computed_balance a (filter (fun r => e_account_id r ∈ S) rows) = computed_balance a rows.
Proof.
  intros Ha. apply sumZ_filter. intros r _ Hn. unfold entry_delta.
  rewrite decide_False; [done|]. by intros <-.
Qed.
Lemma computed_balance_out (S : gset uuid) a rows :
  a ∉ S -> computed_balance a (filter (fun r => e_account_id r ∉ S) rows) = computed_balance a rows.
Proof.
  intros Ha. apply sumZ_filter. intros r _ Hn. unfold entry_delta.
  rewrite decide_False; [done|]. by intros <-.
Qed.
End rows.

(** ** The three writing operations *)
Section writes.
Context `{DEC : !Decimal} `{UT : !UuidText} `{HASH : !Hashing}.

(** *** ApplySystemDeltas: one guarded relative update per account *)
Definition moved (d : database) (id : uuid) (delta : Z) (b : balance_row) : Prop :=
  exists b0, account_balances d !! id = Some b0 /\
    b = BalanceRow (b_balance b0 + delta) (b_allow_negative b0) /\
    in_int64 (b_balance b) = true /\ chk_balance_floor b = true.

Lemma apply_system_delta_Ok id delta w x w' :
  apply_system_delta id delta w = (Ok x, w') ->
  dec_is_integer delta = true /\
  exists b, moved (w_db w) id (dec_int_part delta) b /\ x = dec_of_Z (b_balance b) /\
    w_db w' = with_balances (w_db w) (<[id := b]> (account_balances (w_db w))).
Proof.
  unfold apply_system_delta. destruct (dec_equal delta (dec_truncate delta)) eqn:Et; [|done].
  apply dec_equal_truncate in Et. intros H. apply bind_Ok in H as (r & w1 & Hr & H).
  apply try_Ok in Hr as [(n & -> & Hs)|(e & -> & _)]; [|revert H; by destruct (is_no_rows e)].
  injection H as <- <-. apply scan_row_Ok, stmt_Ok in Hs as (t & Hs & _).
  unfold sql_add_delta in Hs.
  destruct (account_balances (w_db w) !! id) as [b0|] eqn:Eb; [|done].
  destruct (in_int64 _) eqn:Ei; [|done]. destruct (chk_balance_floor _) eqn:Ef; [|done].
  injection Hs as <- <-. split; [done|].
  eexists (BalanceRow _ _). split; [|done]. by exists b0.
Qed.

Lemma apply_system_deltas_loop_Ok ids deltas acc w acc' w' :
  NoDup ids -> apply_system_deltas_loop ids deltas acc w = (Ok acc', w') ->
  w_db w' = with_balances (w_db w) (account_balances (w_db w'))
  /\ (forall id, id ∈ ids ->
       dec_is_integer (default dec_zero (deltas !! id)) = true /\
       exists b, moved (w_db w) id (dec_int_part (default dec_zero (deltas !! id))) b /\
         account_balances (w_db w') !! id = Some b /\ acc' !! id = Some (dec_of_Z (b_balance b)))
  /\ (forall id, id ∉ ids ->
       account_balances (w_db w') !! id = account_balances (w_db w) !! id /\
       acc' !! id = acc !! id).
Proof.
  intros Hnd. revert acc w. induction Hnd as [|id ids Hni Hnd IH]; intros acc w; simpl.
  - intros [= <- <-]. split; [by destruct (w_db w)|]. split; [by intros ? ?%not_elem_of_nil|done].
  - intros H. apply bind_Ok in H as (x & w1 & H1 & H2).
    apply apply_system_delta_Ok in H1 as (Hint & b & Hb & -> & E1).
    apply IH in H2 as (E2 & Hin & Hout). split; [by rewrite E2 at 1; rewrite E1|].
    destruct (Hout id Hni) as [Hd Ha].
    rewrite E1 in Hd, Hin, Hout. simpl in Hd. rewrite lookup_insert_eq in Hd.
    rewrite lookup_insert_eq in Ha. split.
    + intros i [->|Hi]%elem_of_cons; [by eauto|].
      destruct (Hin i Hi) as (? & bi & (b0 & Hb0 & ?) & ? & ?). split; [done|].
      exists bi. split; [|done]. exists b0. split; [|done]. simpl in Hb0.
      rewrite lookup_insert_ne in Hb0; [done|]. by intros <-.
    + intros i Hi. apply not_elem_of_cons in Hi as [Hne Hi].
      destruct (Hout i Hi) as [-> ->]. simpl. by rewrite !lookup_insert_ne.
Qed.

Lemma sortedDecimalKeys_spec (m : gmap uuid dec) :
  NoDup (sortedDecimalKeys m) /\ forall id, id ∈ sortedDecimalKeys m <-> is_Some (m !! id).
Proof.
  unfold sortedDecimalKeys. split.
  - rewrite merge_sort_Permutation. apply NoDup_fst_map_to_list.
  - intros id. rewrite merge_sort_Permutation, list_elem_of_fmap. split.
    + intros ([k v] & -> & Hk%elem_of_map_to_list). simpl. by exists v.
    + intros [v Hv]. exists (id, v). by rewrite elem_of_map_to_list.
Qed.

Lemma ApplySystemDeltas_Ok deltas w new w' :
  BalanceRepo_ApplySystemDeltas deltas w = (Ok new, w') ->
  w_db w' = with_balances (w_db w) (account_balances (w_db w'))
  /\ (forall id delta, deltas !! id = Some delta ->
       dec_is_integer delta = true /\
       exists b, moved (w_db w) id (dec_int_part delta) b /\
         account_balances (w_db w') !! id = Some b /\ new !! id = Some (dec_of_Z (b_balance b)))
  /\ (forall id, deltas !! id = None ->
       account_balances (w_db w') !! id = account_balances (w_db w) !! id /\ new !! id = None).
Proof.
  unfold BalanceRepo_ApplySystemDeltas. case_bool_decide as Hs.
  - intros [= <- <-]. apply map_size_empty_inv in Hs as ->.
    split; [by destruct (w_db w)|]. split; [by intros ? ?; rewrite lookup_empty|].
    intros. by rewrite lookup_empty.
  - destruct (sortedDecimalKeys_spec deltas) as [Hnd Hkeys].
    intros (E & Hin & Hout)%apply_system_deltas_loop_Ok; [|done]. split; [done|]. split.
    + intros id delta Hd. destruct (Hin id) as [Hi Hb]; [apply Hkeys; eauto|].
      rewrite Hd in Hi, Hb. done.
    + intros id Hd. destruct (Hout id) as [-> ->]; [|by rewrite lookup_empty].
      rewrite Hkeys, Hd. by intros [].
Qed.
(** *** UpdateBalances: absolute balances, all rows present *)
Definition set_to (d : database) (id : uuid) (z : Z) (b : balance_row) : Prop :=
  exists b0, account_balances d !! id = Some b0 /\ b = BalanceRow z (b_allow_negative b0) /\
    chk_balance_floor b = true.

Lemma sql_set_balances_Ok new d n b' :
  NoDup new.*1 -> sql_set_balances new (account_balances d) = inr (n, b') ->
  n <= Z.of_nat (length new)
  /\ (n = Z.of_nat (length new) -> forall id z, (id, z) ∈ new ->
       exists b, set_to d id z b /\ b' !! id = Some b)
  /\ (forall id, id ∉ new.*1 -> b' !! id = account_balances d !! id).
Proof.
  revert n b'. induction new as [|[id z] new IH]; intros n b'; simpl.
  - intros _ [= <- <-]. split; [lia|]. split; [|done]. by intros _ ? ? ?%not_elem_of_nil.
  - intros [Hni Hnd]%NoDup_cons H.
    destruct (sql_set_balances new _) as [e|[m b1]] eqn:Es; [done|].
    destruct (IH m b1 Hnd eq_refl) as (Hm & Hin & Hout).
    pose proof (Hout id Hni) as Hid.
    destruct (b1 !! id) as [row|] eqn:Er.
    + destruct (chk_balance_floor _) eqn:Ef; [|done]. injection H as <- <-.
      split; [lia|]. split.
      * intros Hn i zi [[= -> ->]|Hi]%elem_of_cons.
        { exists (BalanceRow z (b_allow_negative row)). rewrite lookup_insert_eq.
          split; [|done]. exists row. by rewrite <- Hid. }
        destruct (Hin ltac:(lia) i zi Hi) as (b & Hb & Hb'). exists b. split; [done|].
        rewrite lookup_insert_ne; [done|]. intros <-. apply Hni.
        by apply (list_elem_of_fmap_2 fst _ _ Hi).
      * intros i [Hne Hi]%not_elem_of_cons. rewrite lookup_insert_ne by done. by apply Hout.
    + injection H as <- <-. split; [lia|]. split; [lia|].
      intros i [Hne Hi]%not_elem_of_cons. by apply Hout.
Qed.

Lemma UpdateBalances_Ok new w u w' :
  BalanceRepo_UpdateBalances new w = (Ok u, w') ->
  w_db w' = with_balances (w_db w) (account_balances (w_db w'))
  /\ (forall id x, new !! id = Some x ->
       dec_is_integer x = true /\
       exists b, set_to (w_db w) id (dec_int_part x) b /\ account_balances (w_db w') !! id = Some b)
  /\ (forall id, new !! id = None ->
       account_balances (w_db w') !! id = account_balances (w_db w) !! id).
Proof.
  unfold BalanceRepo_UpdateBalances. cbv zeta. case_bool_decide as Hs.
  - intros [= _ <-]. apply map_size_empty_inv in Hs as ->.
    split; [by destruct (w_db w)|]. split; [by intros ? ?; rewrite lookup_empty|done].
  - destruct (sortedDecimalKeys_spec new) as [Hnd Hkeys].
    set (f := fun id => (id, dec_int_part (default dec_zero (new !! id)))).
    assert (Hfst : (map f (sortedDecimalKeys new)).*1 = sortedDecimalKeys new).
    { generalize (sortedDecimalKeys new). induction l as [|x l IHl]; simpl; [done|].
      f_equal. exact IHl. }
    destruct (forallb _ _) eqn:Ei; [|done]. intros H.
    apply bind_Ok in H as (n & w1 & Hn & H). apply wrap_Ok, stmt_Ok in Hn as (t & Hn & _).
    destruct (sql_set_balances _ _) as [e|[m b']] eqn:Es; [done|]. injection Hn as -> E1.
    case_bool_decide as Ha; [|done]. injection H as _ <-.
    apply sql_set_balances_Ok in Es as (_ & Hin & Hout); [|by rewrite Hfst].
    rewrite <- E1. split; [by destruct (w_db w)|]. simpl. split.
    + intros id x Hx. assert (Hid : id ∈ sortedDecimalKeys new) by (apply Hkeys; eauto).
      split.
      * rewrite forallb_forall in Ei. specialize (Ei id). rewrite Hx in Ei. simpl in Ei.
        apply dec_equal_truncate, Ei. by apply list_elem_of_In.
      * apply Hin; [by rewrite Ha, length_map|].
        apply list_elem_of_fmap. exists id. split; [|done]. unfold f. by rewrite Hx.
    + intros id Hid. apply Hout. rewrite Hfst, Hkeys, Hid. by intros [].
Qed.

(** *** InsertEntries: the posting function *)
Record payload_matches (bal : gmap uuid dec) (e : EntryInstruction) (p : postingEntry) : Prop := {
  pm_account : pe_AccountID p = ei_AccountID e;
  pm_direction : pe_Direction p = ei_Direction e;
  pm_note : pe_Note p = ei_Note e;
  pm_amount : pe_Amount p = dec_string (ei_Amount e);
  pm_after : pe_BalanceAfter p = dec_string (default dec_zero (bal !! ei_AccountID e));
}.

Lemma posting_payload_Ok es bal w pl w' :
  posting_payload es bal w = (Ok pl, w') ->
  w_db w' = w_db w /\ Forall2 (payload_matches bal) es pl.
Proof.
  revert w pl. induction es as [|e es IH]; intros w pl; simpl.
  - intros [= <- <-]. by split.
  - intros H. apply bind_Ok in H as (id & w1 & [= _ <-] & H).
    apply bind_Ok in H as (rest & w2 & Hr & [= <- <-]). apply IH in Hr as [E Hr].
    split; [done|]. constructor; [|done]. by split.
Qed.

Lemma validate_posting_Ok tx bal es pl vd vc rows vd' vc' :
  Forall2 (payload_matches bal) es pl ->
  in_int64 vd = true -> in_int64 vc = true ->
  validate_posting tx pl vd vc = inr (rows, vd', vc') ->
  Forall2 (row_matches tx bal) es rows /\ vd' = vd + debits rows /\ vc' = vc + credits rows
  /\ in_int64 vd' = true /\ in_int64 vc' = true.
Proof.
  intros Hp. revert vd vc rows. induction Hp as [|e p es pl Hp _ IH]; intros vd vc rows Hd Hc;
    simpl.
  - intros [= <- <- <-]. unfold debits, credits. simpl.
    by split_and!; [constructor|lia|lia|..].
  - destruct (bigint_of_text (pe_BalanceAfter p)) as [after|] eqn:Ea; [|done].
    destruct (bigint_of_text (pe_Amount p)) as [amount|] eqn:Em; [|done].
    destruct (amount <=? 0) eqn:Ez; [done|]. cbv zeta.
    destruct (negb _) eqn:Ei; [done|]. apply negb_false_iff, andb_true_iff in Ei as [Ei1 Ei2].
    destruct (validate_posting tx pl _ _) as [err|[[rows1 vd1] vc1]] eqn:Ev; [done|].
    intros [= <- <- <-]. apply IH in Ev as (HR & -> & -> & Hd' & Hc'); [|done|done].
    split_and!; [constructor|..]; try done.
    + destruct Hp as [Ha Hdir Hn Hm Hb]. rewrite Hm in Em. rewrite Hb in Ea.
      split; simpl; try done. apply Z.leb_gt in Ez. lia.
    + unfold debits. simpl. destruct (pe_Direction p); lia.
    + unfold credits. simpl. destruct (pe_Direction p); lia.
Qed.

Lemma insert_entry_rows_Ok rows d d' :
  insert_entry_rows rows d = inr d' ->
  d' = with_entries d (ledger_entries d ++ rows)
  /\ Forall (fun r => entry_currency_ok d r = true) rows.
Proof.
  revert d. induction rows as [|r rows IH]; intros d; simpl.
  - intros [= <-]. split; [|done]. rewrite app_nil_r. by destruct d.
  - destruct (entry_currency_ok d r) eqn:Ec; [|done]. simpl.
    destruct (existsb _ _); [done|]. intros (-> & HF)%IH. simpl. split.
    + by rewrite <- app_assoc.
    + by constructor.
Qed.

Lemma InsertEntries_Ok tx es bal w u w' :
  es <> [] -> EntryRepo_InsertEntries tx es bal w = (Ok u, w') ->
  exists rows, Forall2 (row_matches tx bal) es rows
    /\ w_db w' = with_entries (w_db w) (ledger_entries (w_db w) ++ rows)
    /\ entries_of_tx tx (ledger_entries (w_db w)) = []
    /\ debits rows = credits rows /\ in_int64 (debits rows) = true
    /\ Forall (fun r => entry_currency_ok (w_db w) r = true) rows.
Proof.
  intros Hne. unfold EntryRepo_InsertEntries. rewrite bool_decide_false by done.
  destruct (_ <? _)%nat; [done|]. intros H.
  apply bind_Ok in H as (pl & w1 & [E1 Hpl]%posting_payload_Ok & H).
  apply bind_Ok in H as (n & w2 & Hs & H). apply wrap_Ok, stmt_Ok in Hs as (t & Hs & _).
  case_bool_decide; [|done]. injection H as _ <-. rewrite E1 in Hs.
  unfold fn_post_ledger_entries_bulk in Hs. case_bool_decide as Hf; [done|].
  destruct (_ || _); [done|].
  destruct (validate_posting tx pl 0 0) as [e|[[rows vd] vc]] eqn:Ev; [done|].
  destruct (vd =? vc) eqn:Eb; [|done].
  destruct (insert_entry_rows rows (w_db w)) as [e|d'] eqn:Ei; [done|]. injection Hs as _ <-.
  apply insert_entry_rows_Ok in Ei as [-> HF].
  eapply validate_posting_Ok in Ev as (HR & -> & -> & Hd & _); [|done..].
  apply Z.eqb_eq in Eb. exists rows. split_and!; try done.
Qed.
End writes.

(** ** The outbox *)
Section outbox.
Context `{DEC : !Decimal} `{UT : !UuidText} `{HASH : !Hashing}.

Record event_row (ev : OutboxEvent) (o : outbox_row) : Prop := {
  er_type : o_event_type o = EventType ev;
  er_aggregate_type : o_aggregate_type o = AggregateType ev;
  er_aggregate : o_aggregate_id o = AggregateID ev;
  er_payload : o_payload o = Payload ev;
}.

Lemma outbox_rows_Ok evs w os w' :
  outbox_rows evs w = (Ok os, w') -> w_db w' = w_db w /\ Forall2 event_row evs os.
Proof.
  revert w os. induction evs as [|e evs IH]; intros w os; simpl.
  - intros [= <- <-]. by split.
  - intros H. apply bind_Ok in H as (id & w1 & [= _ <-] & H).
    apply bind_Ok in H as (rest & w2 & Hr & [= <- <-]). apply IH in Hr as [E Hr].
    split; [done|]. constructor; [|done]. by split.
Qed.

Lemma insert_outbox_rows_Ok os l l' : insert_outbox_rows os l = inr l' -> l' = l ++ os.
Proof.
  revert l. induction os as [|o os IH]; intros l; simpl.
  - intros [= <-]. by rewrite app_nil_r.
  - destruct (existsb _ _); [done|]. intros ->%IH. by rewrite <- app_assoc.
Qed.

Lemma InsertEvents_Ok evs w u w' :
  OutboxRepo_InsertEvents evs w = (Ok u, w') ->
  exists os, Forall2 event_row evs os
    /\ w_db w' = with_outbox (w_db w) (outbox_events (w_db w) ++ os).
Proof.
  unfold OutboxRepo_InsertEvents. destruct evs as [|e evs].
  - intros [= _ <-]. exists []. split; [constructor|]. rewrite app_nil_r. by destruct (w_db w).
  - destruct (_ <? _)%nat; [done|]. intros H.
    apply bind_Ok in H as (os & w1 & [E Hos]%outbox_rows_Ok & H).
    apply wrap_Ok, stmt_Ok in H as (t & H & _).
    destruct (insert_outbox_rows _ _) as [err|l] eqn:Ei; [done|]. injection H as _ <-.
    apply insert_outbox_rows_Ok in Ei as ->. exists os. by rewrite E.
Qed.
End outbox.

(** ** The write phase refines the abstract step *)
Section refinement.
Context `{DEC : !Decimal} `{UT : !UuidText} `{HASH : !Hashing}.

(** What the service asks of its two optional collaborators: the currency
    validator reads, and the projection writes to tables of its own. *)
Class LawfulService (s : Service) : Prop := {
  ls_validator v c o : currencyValidator s = Some v -> reads (ValidateCurrency v c o);
  ls_source pw : projectionWriter s = Some pw -> reads (SourceWriteAllowed pw);
  ls_projection pw ids tx : projectionWriter s = Some pw -> reads (WriteForPosting pw ids tx);
  ls_validator_honest v c o : currencyValidator s = Some v -> honest (ValidateCurrency v c o);
  ls_source_honest pw : projectionWriter s = Some pw -> honest (SourceWriteAllowed pw);
  ls_projection_honest pw ids tx :
    projectionWriter s = Some pw -> honest (WriteForPosting pw ids tx);
}.

Lemma check_source_write_reads s `{!LawfulService s} : reads (check_source_write s).
Proof.
  unfold check_source_write. destruct (projectionWriter s) eqn:E; frame.
  by eapply ls_source.
Qed.
Lemma write_projection_reads s rc tx `{!LawfulService s} : reads (write_projection s rc tx).
Proof.
  unfold write_projection. destruct (projectionWriter s) eqn:E; frame.
  by eapply ls_projection.
Qed.

(** One transaction's entries, the rows stored for them, and the split of the
    accounts into system accounts [S] and the locked user balances [ub]. *)
Context (tx : uuid) (all : gmap uuid dec) (es : list EntryInstruction) (rows : list entry_row)
  (S : gset uuid) (ub : gmap uuid AccountBalance).
Hypothesis Hrows : Forall2 (row_matches tx all) es rows.
Hypothesis Hcovered : forall e, e ∈ es -> ei_AccountID e ∈ S \/ is_Some (ub !! ei_AccountID e).
Hypothesis Hdisjoint : forall a, a ∈ S -> ub !! a = None.
Hypothesis Htotals : debits rows = credits rows /\ in_int64 (debits rows) = true.

Let userEntries := (splitEntriesByAccount es S).1.
Let systemEntries := (splitEntriesByAccount es S).2.
Let deltas := computeSystemDeltas systemEntries.
Let userNew := applyEntries ub userEntries.

Lemma matched_row e : e ∈ es -> exists r, r ∈ rows /\ row_matches tx all e r.
Proof.
  intros [i Hi]%list_elem_of_lookup. destruct (Forall2_lookup_l _ _ _ _ _ Hrows Hi) as (r & Hr & ?).
  exists r. split; [by eapply list_elem_of_lookup_2|done].
Qed.
Lemma matched_entry r : r ∈ rows -> exists e, e ∈ es /\ row_matches tx all e r.
Proof.
  intros [i Hi]%list_elem_of_lookup. destruct (Forall2_lookup_r _ _ _ _ _ Hrows Hi) as (e & He & ?).
  exists e. split; [by eapply list_elem_of_lookup_2|done].
Qed.

Lemma rows_positive r : r ∈ rows -> 0 < e_amount r.
Proof. intros (e & _ & Hm)%matched_entry. apply (rm_positive _ _ _ _ Hm). Qed.

Lemma row_bounds a : in_int64 (computed_balance a rows) = true.
Proof.
  destruct Htotals as [Hb Hi]. pose proof (computed_balance_bounds a rows rows_positive).
  rewrite in_int64_spec in *. unfold min_int64, max_int64 in *. lia.
Qed.

Lemma system_delta a delta :
  a ∈ S -> deltas !! a = Some delta -> dec_int_part delta = computed_balance a rows.
Proof.
  intros Ha Hd. apply dec_int_part_val; [|apply row_bounds].
  destruct (row_matches_filter _ _ S _ _ Hrows) as [Hf _].
  pose proof (foldl_apply_entry _ _ _ _ Hf ∅ a) as Hv.
  change (foldl apply_entry ∅ _) with deltas in Hv. rewrite Hd, lookup_empty in Hv. simpl in Hv.
  rewrite computed_balance_in in Hv by done.
  rewrite Hv, dec_zero_val. lra.
Qed.

Lemma system_delta_none a : deltas !! a = None -> a ∈ S -> computed_balance a rows = 0.
Proof.
  intros Hd Ha. apply computed_balance_absent. intros r (e & He & Hm)%matched_entry Hr.
  assert (is_Some (deltas !! a)) as [? ?]; [|congruence].
  apply foldl_apply_dom. right. exists e. rewrite <- Hr, (rm_account _ _ _ _ Hm). split; [|done].
  apply list_elem_of_filter. split; [|done]. by rewrite <- (rm_account _ _ _ _ Hm), Hr.
Qed.

Lemma system_deltas_in a : is_Some (deltas !! a) -> a ∈ S.
Proof.
  intros [[? H]|(e & [? ?]%list_elem_of_filter & <-)]%foldl_apply_dom; [|done].
  by rewrite lookup_empty in H.
Qed.

Lemma user_new_dom a : is_Some (userNew !! a) <-> is_Some (ub !! a).
Proof.
  unfold userNew, applyEntries. rewrite foldl_apply_dom, lookup_fmap, fmap_is_Some. split; [|by left].
  intros [?|(e & [Hn He]%list_elem_of_filter & <-)]; [done|]. by destruct (Hcovered e He).
Qed.

Lemma user_new_val a x ab z :
  userNew !! a = Some x -> ub !! a = Some ab -> ab_Balance ab = dec_of_Z z ->
  (dec_val x == inject_Z (z + computed_balance a rows))%Q.
Proof.
  intros Hx Hab Hz. destruct (row_matches_filter _ _ S _ _ Hrows) as [_ Hf].
  pose proof (foldl_apply_entry _ _ _ _ Hf (ab_Balance <$> ub) a) as Hv.
  change (foldl apply_entry (ab_Balance <$> ub) _) with userNew in Hv.
  rewrite Hx, lookup_fmap, Hab in Hv. simpl in Hv. rewrite Hz, dec_of_Z_val in Hv.
  assert (a ∉ S) as Ha by (intros Ha; apply Hdisjoint in Ha; congruence).
  rewrite computed_balance_out in Hv by done.
  rewrite Hv, inject_Z_plus. lra.
Qed.

Lemma user_absent a : a ∉ S -> ub !! a = None -> computed_balance a rows = 0.
Proof.
  intros Ha Hub. apply computed_balance_absent. intros r (e & He & Hm)%matched_entry Hr.
  destruct (Hcovered e He) as [H|[? H]]; rewrite <- (rm_account _ _ _ _ Hm), Hr in H; congruence.
Qed.
End refinement.

Section write_postings.
Context `{DEC : !Decimal} `{UT : !UuidText} `{HASH : !Hashing}.

(** The snapshot the service holds of the locked user balances. *)
Definition snapshot (d : database) (ub : gmap uuid AccountBalance) : Prop :=
  forall a ab, ub !! a = Some ab ->
    exists b, account_balances d !! a = Some b /\ ab_Balance ab = dec_of_Z (b_balance b).

Definition balances_in_range (d : database) : Prop :=
  forall a b, account_balances d !! a = Some b -> in_int64 (b_balance b) = true.

(** The rows stored for the entries, in order. *)
Definition row_of (tx : uuid) (e : EntryInstruction) (r : entry_row) : Prop :=
  exists bal, row_matches tx bal e r.

(** Everything the write phase of a transaction leaves behind. *)
Record written (d d' : database) (tx : uuid) (es : list EntryInstruction)
    (events : Z -> list OutboxEvent) (rows : list entry_row) : Prop := {
  wr_posting : posting d d' tx rows;
  wr_rows : Forall2 (row_of tx) es rows;
  wr_header : ledger_transactions d' = alter (set_status "posted" None) tx (ledger_transactions d);
  wr_quotes : fee_quotes d' = fee_quotes d;
  wr_currency t : ledger_transactions d !! tx = Some t -> forall r, r ∈ rows ->
    exists a, accounts d !! e_account_id r = Some a /\ a_currency a = t_currency t;
  wr_outbox : exists now os, outbox_events d' = outbox_events d ++ os
                             /\ Forall2 event_row (events now) os;
}.

(** The three balance-moving statements in sequence: [d] before, [d1] after
    the system deltas, [d3] after the user balances. *)
Section balances_move.
Context (d d1 d3 : database) (tx : uuid) (all sysNew : gmap uuid dec)
  (es : list EntryInstruction) (rows : list entry_row) (S : gset uuid)
  (ub : gmap uuid AccountBalance).
Let deltas := computeSystemDeltas (splitEntriesByAccount es S).2.
Let userNew := applyEntries ub (splitEntriesByAccount es S).1.
Hypothesis HR : Forall2 (row_matches tx all) es rows.
Hypothesis Hcov : forall e, e ∈ es -> ei_AccountID e ∈ S \/ is_Some (ub !! ei_AccountID e).
Hypothesis Hdis : forall a, a ∈ S -> ub !! a = None.
Hypothesis Hb : debits rows = credits rows.
Hypothesis Hi : in_int64 (debits rows) = true.
Hypothesis Hsnap : snapshot d ub.
Hypothesis Hwf : balances_in_range d.
Hypothesis Hall : all = sysNew ∪ userNew.
Hypothesis Hd1 : forall id delta, deltas !! id = Some delta ->
   exists b, moved d id (dec_int_part delta) b /\
     account_balances d1 !! id = Some b /\ sysNew !! id = Some (dec_of_Z (b_balance b)).
Hypothesis Hd0 : forall id, deltas !! id = None ->
   account_balances d1 !! id = account_balances d !! id /\ sysNew !! id = None.
Hypothesis Hu1 : forall id x, userNew !! id = Some x ->
   exists b, set_to d1 id (dec_int_part x) b /\ account_balances d3 !! id = Some b.
Hypothesis Hu0 : forall id, userNew !! id = None ->
  account_balances d3 !! id = account_balances d1 !! id.

Definition moves_by_rows (a : uuid) : Prop :=
  account_balances d3 !! a =
    (fun b => BalanceRow (b_balance b + computed_balance a rows) (b_allow_negative b))
      <$> account_balances d !! a
  /\ (forall r, r ∈ rows -> e_account_id r = a -> exists b, account_balances d3 !! a = Some b /\
        b_balance b = e_balance_after r /\ in_int64 (b_balance b) = true /\
        chk_balance_floor b = true).

(** The recorded balance_after is the value of the merged map. *)
Lemma after_value a r x :
  r ∈ rows -> e_account_id r = a -> all !! a = Some x ->
  (dec_val x == inject_Z (e_balance_after r))%Q /\ in_int64 (e_balance_after r) = true.
Proof.
  intros Hr <- Hx. destruct (matched_entry _ _ _ _ HR r Hr) as (e & _ & Hm).
  pose proof (rm_after _ _ _ _ Hm) as H. rewrite <- (rm_account _ _ _ _ Hm), Hx in H.
  by apply dec_bigint_spec in H.
Qed.

(** An account no row touches keeps its row. *)
Lemma untouched_moves a :
  account_balances d3 !! a = account_balances d !! a ->
  (forall r, r ∈ rows -> e_account_id r <> a) -> moves_by_rows a.
Proof.
  intros E Hno. split; [|by intros r Hr ?%(Hno r Hr)].
  rewrite E, computed_balance_absent by done.
  destruct (account_balances d !! a) as [[z f]|]; [|done]. simpl. by rewrite Z.add_0_r.
Qed.

Lemma system_moves a : a ∈ S -> moves_by_rows a.
Proof.
  intros Ha.
  assert (Hun : userNew !! a = None).
  { apply eq_None_not_Some. intros H%(user_new_dom es S ub Hcov).
    rewrite (Hdis a Ha) in H. by destruct H. }
  destruct (deltas !! a) as [delta|] eqn:Ed.
  - destruct (Hd1 a delta Ed) as (b & (b0 & Hb0 & -> & Hr & Hf) & Hb1 & Hs).
    rewrite (system_delta tx all es rows S HR (conj Hb Hi) a delta Ha Ed) in *.
    split; rewrite (Hu0 a Hun), Hb1; [by rewrite Hb0|]. intros r Hrr Hra.
    eexists. split; [done|]. split_and!; try done.
    edestruct (after_value a r) as [Hv _]; [done|done|..].
    { rewrite Hall. by rewrite lookup_union, Hs, Hun. }
    rewrite dec_of_Z_val in Hv. by apply inject_Z_inj in Hv.
  - apply untouched_moves; [rewrite (Hu0 a Hun); by apply Hd0|].
    intros r (e & He & Hm)%(matched_entry _ _ _ _ HR) Hra.
    assert (is_Some (deltas !! a)) as [? ?]; [|congruence]. apply foldl_apply_dom. right.
    exists e. rewrite <- Hra, (rm_account _ _ _ _ Hm). split; [|done].
    apply list_elem_of_filter. split; [|done]. by rewrite <- (rm_account _ _ _ _ Hm), Hra.
Qed.

Lemma user_moves a ab x :
  a ∉ S -> ub !! a = Some ab -> userNew !! a = Some x -> moves_by_rows a.
Proof.
  intros Ha Hab Eu.
  assert (Hdn : deltas !! a = None).
  { apply eq_None_not_Some. intros H. by apply Ha, (system_deltas_in es S). }
  destruct (Hd0 a Hdn) as [Hd1a Hsn]. destruct (Hsnap a ab Hab) as (b0 & Hb0 & Hz).
  pose proof (user_new_val tx all es rows S ub HR Hdis a x ab _ Eu Hab Hz) as Hv.
  destruct (Hu1 a x Eu) as (b & (b1 & Hb1 & -> & Hf) & Hb3).
  rewrite Hd1a, Hb0 in Hb1. injection Hb1 as <-.
  assert (Hax : all !! a = Some x) by (by rewrite Hall, lookup_union, Hsn, Eu).
  assert (Haft : forall r, r ∈ rows -> e_account_id r = a ->
    b_balance b0 + computed_balance a rows = e_balance_after r
    /\ in_int64 (e_balance_after r) = true).
  { intros r Hr Hra. destruct (after_value a r x Hr Hra Hax) as [Hv' ?].
    rewrite Hv in Hv'. split; [by apply inject_Z_inj|done]. }
  assert (Hrange : in_int64 (b_balance b0 + computed_balance a rows) = true).
  { destruct (decide (Exists (fun r => e_account_id r = a) rows)) as [Hex|Hnex].
    - apply Exists_exists in Hex as (r & Hr & Hra). by destruct (Haft r Hr Hra) as [-> ?].
    - rewrite computed_balance_absent, Z.add_0_r; [by eapply Hwf|].
      intros r Hr Hra. apply Hnex, Exists_exists. eauto. }
  rewrite (dec_int_part_val _ _ Hv Hrange) in *.
  split; rewrite Hb3; [by rewrite Hb0|].
  intros r Hr Hra. eexists. split; [done|]. split_and!; try done. by apply Haft.
Qed.

Lemma balances_move a : moves_by_rows a.
Proof.
  destruct (decide (a ∈ S)) as [Ha|Ha]; [by apply system_moves|].
  destruct (ub !! a) as [ab|] eqn:Eub.
  - destruct (proj2 (user_new_dom es S ub Hcov a)) as [x Hx]; [by rewrite Eub|].
    by eapply user_moves.
  - assert (Hun : userNew !! a = None).
    { apply eq_None_not_Some. intros H%(user_new_dom es S ub Hcov).
      rewrite Eub in H. by destruct H. }
    apply untouched_moves.
    + rewrite (Hu0 a Hun). apply Hd0. apply eq_None_not_Some.
      intros H. by apply Ha, (system_deltas_in es S).
    + intros r (e & He & Hm)%(matched_entry _ _ _ _ HR) Hra.
      destruct (Hcov e He) as [H|[? H]];
        rewrite <- (rm_account _ _ _ _ Hm), Hra in H; congruence.
Qed.
End balances_move.

(** The currency trigger, read on all rows of the transaction. *)
Lemma rows_currency d tx all es rows :
  Forall2 (row_matches tx all) es rows ->
  Forall (fun r => entry_currency_ok d r = true) rows ->
  forall r, r ∈ rows -> exists t, ledger_transactions d !! tx = Some t /\
    exists a, accounts d !! e_account_id r = Some a /\ a_currency a = t_currency t.
Proof.
  intros HR Hcur r Hr. rewrite Forall_forall in Hcur. specialize (Hcur r Hr).
  destruct (matched_entry _ _ _ _ HR r Hr) as (e & _ & Hm). unfold entry_currency_ok in Hcur.
  rewrite (rm_tx _ _ _ _ Hm) in Hcur. repeat case_match; try done.
  apply bool_decide_eq_true in Hcur. eauto 6.
Qed.

(** [write_postings] refines the abstract step. *)
Lemma write_postings_Ok s p rc tx ub sys es w u w' `{!LawfulService s} :
  es <> [] ->
  (forall e, e ∈ es -> ei_AccountID e ∈ sys \/ is_Some (ub !! ei_AccountID e)) ->
  (forall a, a ∈ sys -> ub !! a = None) ->
  snapshot (w_db w) ub -> balances_in_range (w_db w) ->
  write_postings s p rc tx ub sys es w = (Ok u, w') ->
  exists rows, written (w_db w) (w_db w') tx es (OutboxEvents p rc tx es) rows.
Proof.
  intros Hne Hcov Hdis Hsnap Hwf H. unfold write_postings in H.
  rewrite (surjective_pairing (splitEntriesByAccount _ _)) in H.
  set (S := list_to_set sys : gset uuid) in *.
  apply bind_Ok in H as (? & w1 & H1 & H). apply check_source_write_reads in H1; [|done].
  apply bind_Ok in H as (new & w2 & (Ed2 & Hd1 & Hd0)%ApplySystemDeltas_Ok & H). cbv zeta in H.
  apply bind_Ok in H as (? & w3 & Hins & H).
  apply InsertEntries_Ok in Hins as (rows & HR & Ed3 & Hfresh & Hb & Hi & Hcur); [|done].
  apply bind_Ok in H as (? & w4 & (Ed4 & Hu1 & Hu0)%UpdateBalances_Ok & H).
  apply bind_Ok in H as (? & w5 & H5 & H). apply write_projection_reads in H5; [|done].
  apply bind_Ok in H as (? & w6 & H6%wrap_Ok%UpdateStatus_Ok & H).
  apply bind_Ok in H as (now & w7 & [= <- <-] & (os & Hos & E8)%InsertEvents_Ok).
  rewrite <- H1 in *. rewrite <- H5 in *. clear H1 H5 w1 w5.
  rewrite Ed3 in Ed4, Hu1, Hu0. rewrite Ed2 in Ed3, Hfresh, Hcur. simpl in *.
  assert (Hmove : forall a, moves_by_rows (w_db w) (w_db w') rows a).
  { assert (EB : account_balances (w_db w') = account_balances (w_db w4))
      by (by rewrite E8, H6).
    unfold moves_by_rows. rewrite EB.
    apply (balances_move _ (w_db w2) _ tx (new ∪ applyEntries ub (splitEntriesByAccount es S).1)
      new es rows S ub); try done.
    - intros e He. destruct (Hcov e He); [left; by apply elem_of_list_to_set|by right].
    - intros a Ha%elem_of_list_to_set. by apply Hdis.
    - intros id delta Hd. by apply Hd1.
    - intros id y Hy. apply Hu1 in Hy as (_ & Hy). exact Hy. }
  pose proof (rows_currency _ tx _ _ _ HR Hcur) as Hcurr. simpl in Hcurr.
  exists rows. split.
  - split.
    + by rewrite E8, H6, Ed4, Ed2.
    + rewrite E8, H6, Ed4. simpl. by rewrite Ed2.
    + done.
    + intros ->. by apply Forall2_nil_inv_r in HR.
    + intros r (e & _ & Hm)%(matched_entry _ _ _ _ HR). split; [apply (rm_tx _ _ _ _ Hm)|].
      split; [apply (rm_positive _ _ _ _ Hm)|].
      by destruct (proj1 (dec_bigint_spec _ _) (rm_amount _ _ _ _ Hm)).
    + done.
    + destruct rows as [|r0 rows]; [by exists EmptyString; intros r ?%not_elem_of_nil|].
      destruct (Hcurr r0 ltac:(left)) as (t & Et & _). exists (t_currency t).
      intros r Hr. destruct (Hcurr r Hr) as (t' & Et' & Ha).
      rewrite Et in Et'. by injection Et' as <-.
    + apply Hmove.
    + intros r Hr. by apply (Hmove (e_account_id r)).
  - eapply Forall2_impl; [exact HR|]. intros. by eexists.
  - by rewrite E8, H6, Ed4, Ed2.
  - by rewrite E8, H6, Ed4, Ed2.
  - intros t Ht r Hr. destruct (Hcurr r Hr) as (t' & Et' & Ha).
    rewrite Ht in Et'. by injection Et' as <-.
  - exists (w_now w6), os. split; [|done]. by rewrite E8, H6, Ed4, Ed2.
Qed.
End write_postings.
