(* ===== verification/Invariant.v ===== *)
(** * The ledger invariant

    [wf_ledger] collects what a ledger database promises between transactions;
    the abstract step [posting] preserves it and conserves the total of every
    currency.  Nothing in this file mentions the service: the refinement of
    Postings.v and Engine.v carries these facts to the code. *)
From stdpp Require Import prelude gmap strings list.
From S2P Require Import Prelude Decimal Errors Events Store TxRepo Repos Frames Postings.

(** ** The invariant *)
Definition entries_of_account (a : uuid) (l : list entry_row) : list entry_row :=
  filter (fun e => e_account_id e = a) l.

Record wf_ledger (d : database) : Prop := {
  (* BIGINT and chk_balance_floor *)
  wf_range : balances_in_range d;
  wf_floor a b : account_balances d !! a = Some b -> chk_balance_floor b = true;
  (* the stored balance is the signed sum of the account's entries *)
  wf_computed a b : account_balances d !! a = Some b ->
    b_balance b = computed_balance a (ledger_entries d);
  (* and the one its newest entry recorded *)
  wf_running a b r : account_balances d !! a = Some b ->
    last (entries_of_account a (ledger_entries d)) = Some r -> e_balance_after r = b_balance b;
  (* every transaction balances, its entries are positive, its accounts share a currency *)
  wf_balanced tx : tx_net tx (ledger_entries d) = 0;
  wf_entries e : e ∈ ledger_entries d ->
    0 < e_amount e /\ in_int64 (e_amount e) = true /\ is_Some (account_balances d !! e_account_id e);
  wf_one_currency e e' : e ∈ ledger_entries d -> e' ∈ ledger_entries d ->
    e_transaction_id e = e_transaction_id e' ->
    a_currency <$> accounts d !! e_account_id e = a_currency <$> accounts d !! e_account_id e';
}.

(** The total of the balances held in one currency. *)
Definition in_currency_of (d : database) (c : string) (a : uuid) (z : Z) : Z :=
  if decide (a_currency <$> accounts d !! a = Some c) then z else 0.
Definition total (d : database) (c : string) : Z :=
  map_sum (fun a b => in_currency_of d c a (b_balance b)) (account_balances d).

(** ** A quiet phase keeps all of it *)
Lemma same_ledger_wf d d' : same_ledger d d' -> wf_ledger d -> wf_ledger d'.
Proof.
  intros (Ea & Eb & Ee & _) [H1 H2 H3 H4 H5 H6 H7].
  split; unfold balances_in_range in *; rewrite ?Ea, ?Eb, ?Ee; done.
Qed.

Lemma same_ledger_total d d' c : same_ledger d d' -> total d' c = total d c.
Proof. intros (Ea & Eb & Ee & _). unfold total, in_currency_of. by rewrite Ea, Eb. Qed.

(** ** Appending one transaction *)
Lemma entries_of_tx_app tx l l' : entries_of_tx tx (l ++ l') = entries_of_tx tx l ++ entries_of_tx tx l'.
Proof. apply filter_app. Qed.

Lemma computed_balance_app a l l' :
  computed_balance a (l ++ l') = computed_balance a l + computed_balance a l'.
Proof. apply sumZ_app. Qed.

Section posting.
Context (d d' : database) (tx : uuid) (rows : list entry_row) (P : posting d d' tx rows).

Lemma posting_rows_of tx' :
  entries_of_tx tx' rows = if decide (tx' = tx) then rows else [].
Proof.
  assert (H : forall r, r ∈ rows -> e_transaction_id r = tx)
    by (intros r Hr; by apply (po_rows _ _ _ _ P)).
  case_decide as E.
  - subst tx'. by apply filter_all.
  - apply filter_none. intros r Hr. rewrite (H r Hr). auto.
Qed.

Lemma posting_tx_net tx' :
  tx_net tx' (ledger_entries d') = if decide (tx' = tx) then 0 else tx_net tx' (ledger_entries d).
Proof.
  unfold tx_net. rewrite (po_entries _ _ _ _ P), entries_of_tx_app, posting_rows_of, sumZ_app.
  case_decide as E; [|simpl; lia]. subst tx'.
  rewrite (po_fresh _ _ _ _ P), (signed_total rows), (po_balanced _ _ _ _ P). simpl. lia.
Qed.

(** A balance row after the step comes from the row before it. *)
Lemma posting_balance a b' :
  account_balances d' !! a = Some b' ->
  exists b, account_balances d !! a = Some b /\
    b' = BalanceRow (b_balance b + computed_balance a rows) (b_allow_negative b).
Proof. rewrite (po_balances _ _ _ _ P). intros (b & Hb & ->)%fmap_Some. eauto. Qed.

(** Either a row of the step touches the account, or its balance is unchanged. *)
Lemma posting_cases a b' :
  account_balances d' !! a = Some b' ->
  (exists r, r ∈ rows /\ e_account_id r = a /\ b_balance b' = e_balance_after r /\
             in_int64 (b_balance b') = true /\ chk_balance_floor b' = true)
  \/ ((forall r, r ∈ rows -> e_account_id r <> a) /\ account_balances d !! a = Some b').
Proof.
  intros Hb'. destruct (decide (Exists (fun r => e_account_id r = a) rows)) as [Hex|Hnex].
  - apply Exists_exists in Hex as (r & Hr & <-). left. exists r.
    destruct (po_touched _ _ _ _ P r Hr) as (b & Hb & ? & ? & ?).
    rewrite Hb in Hb'. injection Hb' as <-. done.
  - right. assert (Hno : forall r, r ∈ rows -> e_account_id r <> a)
      by (intros r Hr E; apply Hnex, Exists_exists; eauto).
    split; [done|]. destruct (posting_balance a b' Hb') as (b & Hb & ->).
    rewrite computed_balance_absent, Z.add_0_r, Hb by done. by destruct b.
Qed.

Lemma posting_same_account_balance a r :
  r ∈ rows -> e_account_id r = a -> forall b', account_balances d' !! a = Some b' ->
  b_balance b' = e_balance_after r.
Proof.
  intros Hr <- b' Hb'. destruct (po_touched _ _ _ _ P r Hr) as (b & Hb & ? & _).
  rewrite Hb in Hb'. by injection Hb' as <-.
Qed.

Lemma posting_running a b' r :
  wf_ledger d -> account_balances d' !! a = Some b' ->
  last (entries_of_account a (ledger_entries d')) = Some r -> e_balance_after r = b_balance b'.
Proof.
  intros W Hb'. rewrite (po_entries _ _ _ _ P). unfold entries_of_account. rewrite filter_app.
  rewrite last_app. destruct (last (filter _ rows)) as [r'|] eqn:El.
  - intros [= ->]. apply last_Some_elem_of, list_elem_of_filter in El as [Ha Hr].
    symmetry. by apply (posting_same_account_balance a r Hr Ha).
  - intros Hl. apply last_None in El.
    destruct (posting_cases a b' Hb') as [(r' & Hr' & Ha & _)|[_ Hb]];
      [|by apply (wf_running d W a b' r Hb)].
    assert (r' ∈ filter (fun e => e_account_id e = a) rows)
      by (by apply list_elem_of_filter). rewrite El in H. by apply not_elem_of_nil in H.
Qed.

Lemma posting_entry e :
  wf_ledger d -> e ∈ ledger_entries d' ->
  0 < e_amount e /\ in_int64 (e_amount e) = true /\ is_Some (account_balances d' !! e_account_id e).
Proof.
  intros W. rewrite (po_entries _ _ _ _ P). intros [He|He]%elem_of_app.
  - destruct (wf_entries d W e He) as (? & ? & b & Hb). split_and!; try done.
    rewrite (po_balances _ _ _ _ P), Hb. by eexists.
  - destruct (po_rows _ _ _ _ P e He) as (_ & ? & ?).
    destruct (po_touched _ _ _ _ P e He) as (b & ? & _). eauto.
Qed.

Lemma posting_one_currency e e' :
  wf_ledger d -> e ∈ ledger_entries d' -> e' ∈ ledger_entries d' ->
  e_transaction_id e = e_transaction_id e' ->
  a_currency <$> accounts d' !! e_account_id e = a_currency <$> accounts d' !! e_account_id e'.
Proof.
  intros W. rewrite (po_entries _ _ _ _ P), (po_accounts _ _ _ _ P).
  assert (Hfresh : forall x, x ∈ ledger_entries d -> e_transaction_id x <> tx).
  { intros x Hx Hxt. assert (Hin : x ∈ entries_of_tx tx (ledger_entries d))
      by (by apply list_elem_of_filter).
    rewrite (po_fresh _ _ _ _ P) in Hin. by apply not_elem_of_nil in Hin. }
  assert (Hrow : forall x, x ∈ rows -> e_transaction_id x = tx)
    by (intros x Hx; by apply (po_rows _ _ _ _ P)).
  destruct (po_currency _ _ _ _ P) as (c & Hc).
  intros [He|He]%elem_of_app [He'|He']%elem_of_app Ht.
  - by apply (wf_one_currency d W).
  - exfalso. apply (Hfresh e He). rewrite Ht. by apply Hrow.
  - exfalso. apply (Hfresh e' He'). rewrite <- Ht. by apply Hrow.
  - destruct (Hc e He) as (x & -> & Hx), (Hc e' He') as (x' & -> & Hx'). simpl. congruence.
Qed.

(** The step preserves the invariant. *)
Lemma posting_wf_ledger : wf_ledger d -> wf_ledger d'.
Proof.
  intros W. split.
  - intros a b' Hb'. destruct (posting_cases a b' Hb') as [(r & _ & _ & _ & ? & _)|[_ Hb]];
      [done|by apply (wf_range d W a)].
  - intros a b' Hb'. destruct (posting_cases a b' Hb') as [(r & _ & _ & _ & _ & ?)|[_ Hb]];
      [done|by apply (wf_floor d W a)].
  - intros a b' (b & Hb & ->)%posting_balance. simpl.
    rewrite (po_entries _ _ _ _ P), computed_balance_app. by rewrite (wf_computed d W a b Hb).
  - intros a b r. by apply posting_running.
  - intros tx'. rewrite posting_tx_net. case_decide; [done|apply (wf_balanced d W)].
  - intros e. by apply posting_entry.
  - intros e e'. by apply posting_one_currency.
Qed.

(** *** Conservation *)
Lemma moved_total c l :
  (forall r, r ∈ l -> is_Some (account_balances d !! e_account_id r)) ->
  map_sum (fun a _ => in_currency_of d c a (computed_balance a l)) (account_balances d)
  = sumZ (fun r => in_currency_of d c (e_account_id r) (entry_signed r)) l.
Proof.
  induction l as [|r l IH]; intros Hl.
  - apply map_sum_zero. intros a b _. unfold in_currency_of. by case_decide.
  - destruct (Hl r ltac:(left)) as [b Hb]. simpl. rewrite <- IH by (intros; apply Hl; by right).
    rewrite (map_sum_ext _ (fun a _ => in_currency_of d c a (entry_delta a r)
                                       + in_currency_of d c a (computed_balance a l))).
    2: { intros a b' _. unfold in_currency_of. by case_decide. }
    rewrite map_sum_add, (map_sum_single _ _ _ b Hb).
    + unfold entry_delta. by rewrite decide_True.
    + intros a b' Hne. unfold in_currency_of, entry_delta.
      rewrite (decide_False (P := e_account_id r = a)) by auto. by case_decide.
Qed.

(** The rows of a step share a currency, so they cancel out in every one. *)
Lemma rows_cancel c : sumZ (fun r => in_currency_of d c (e_account_id r) (entry_signed r)) rows = 0.
Proof.
  destruct (po_currency _ _ _ _ P) as (c' & Hc). destruct (decide (c' = c)) as [->|Hne].
  - rewrite (sumZ_ext _ entry_signed).
    + rewrite signed_total, (po_balanced _ _ _ _ P). lia.
    + intros r Hr. destruct (Hc r Hr) as (x & Hx & Hcur). unfold in_currency_of.
      rewrite decide_True; [done|]. by rewrite Hx, <- Hcur.
  - apply sumZ_zero. intros r Hr. destruct (Hc r Hr) as (x & Hx & Hcur). unfold in_currency_of.
    rewrite decide_False; [done|]. rewrite Hx. simpl. congruence.
Qed.

Lemma posting_total c : total d' c = total d c.
Proof.
  assert (E : account_balances d' = map_imap (fun a b => Some
    (BalanceRow (b_balance b + computed_balance a rows) (b_allow_negative b))) (account_balances d)).
  { apply map_eq. intros a. rewrite (po_balances _ _ _ _ P), map_lookup_imap.
    by destruct (account_balances d !! a). }
  unfold total. rewrite E, map_sum_imap.
  rewrite (map_sum_ext _ (fun a b => in_currency_of d c a (b_balance b)
                                     + in_currency_of d c a (computed_balance a rows))).
  2: { intros a b _. unfold in_currency_of. rewrite (po_accounts _ _ _ _ P). by case_decide. }
  rewrite map_sum_add, moved_total, rows_cancel; [lia|].
  intros r Hr. destruct (po_touched _ _ _ _ P r Hr) as (b & Hb & _).
  destruct (posting_balance _ _ Hb) as (b0 & -> & _). by eexists.
Qed.
End posting.

(** A step seen from an earlier database with the same ledger. *)
Lemma posting_same d0 d d' tx rows : same_ledger d0 d -> posting d d' tx rows -> posting d0 d' tx rows.
Proof.
  intros (Ea & Eb & Ee & _) [H1 H2 H3 H4 H5 H6 H7 H8 H9].
  rewrite Ea in H1, H7. rewrite Ee in H2, H3. rewrite Eb in H8. by split.
Qed.
