(* ===== verification/Entries.v ===== *)
(** * The entries processors build are sound

    A command that passes its processor's [Validate] yields entries that pass
    [validateBalanced]: positive amounts, debits equal to credits.  Shown for
    every processor of the default registry. *)
From stdpp Require Import prelude gmap strings list sorting.
From S2P Require Import Prelude Decimal Errors Currency Events Store TxRepo Repos AccountRepo.
From S2P Require Import Fee Processors ProcMoney ProcWithdraw ProcMerchant ProcFx Handle.
From S2P Require Import Frames Lawful Postings Invariant.
From Stdlib Require Import QArith Lqa.
Open Scope Z_scope.

Section entries.
Context `{DEC : !Decimal} `{UT : !UuidText}.
Notation balances_map := (gmap uuid AccountBalance).

(** ** What validation establishes *)
Definition amount_ok (rc : ResolvedCommand) : Prop := (0 < dec_val (Amount (rc_Command rc)))%Q.
Definition fee_ok (rc : ResolvedCommand) : Prop :=
  match hasFee rc with
  | Some (_, fee) => (0 < dec_val fee)%Q /\ (dec_val fee < dec_val (Amount (rc_Command rc)))%Q
  | None => True
  end.

(** [ensures P m]: a run of [m] that returns establishes [P]. *)
Definition ensures {A} (P : Prop) (m : M A) : Prop := forall w a w', m w = (Ok a, w') -> P.

Lemma ensures_fail {A} P e : ensures P (fail e : M A).
Proof. by intros w a w' [=]. Qed.
Lemma ensures_bind {A B} P (m : M A) (f : A -> M B) :
  (forall a, ensures P (f a)) -> ensures P (bind m f).
Proof. intros Hf w b w' (a & w1 & _ & H)%bind_Ok. by eapply Hf. Qed.
Lemma ensures_first {A B} P (m : M A) (f : A -> M B) : ensures P m -> ensures P (bind m f).
Proof. intros Hm w b w' (a & w1 & H & _)%bind_Ok. by eapply Hm. Qed.
Lemma ensures_and {A} P Q (m : M A) : ensures P m -> ensures Q m -> ensures (P /\ Q) m.
Proof. intros HP HQ w a w' H. split; [by eapply HP|by eapply HQ]. Qed.
Lemma ensures_mono {A} (P Q : Prop) (m : M A) : (P -> Q) -> ensures P m -> ensures Q m.
Proof. intros HPQ HP w a w' H. by eapply HPQ, HP. Qed.

Lemma MultiValidator_Ok vs rc bal :
  MultiValidator vs rc bal = Ok tt -> Forall (fun v => exists u, v rc bal = Ok u) vs.
Proof.
  induction vs as [|v vs IH]; simpl; [constructor|].
  destruct (v rc bal) as [u|e|] eqn:E; [|done..]. intros H. constructor; [by exists u|by apply IH].
Qed.

Lemma lift_ensures P (r : result unit) : (r = Ok tt -> P) -> ensures P (lift r).
Proof. intros H w [] w' [= E _]. by apply H. Qed.

Lemma Positive_ok rc bal u : PositiveAmountValidator rc bal = Ok u -> amount_ok rc.
Proof.
  unfold PositiveAmountValidator, amount_ok. destruct (dec_is_positive _) eqn:E; [|done].
  intros _. by apply dec_is_positive_val.
Qed.

Lemma hasFee_decimal rc id fee :
  hasFee rc = Some (id, fee) -> MetaDecimal (Metadata (rc_Command rc)) "fee_amount" = inr fee.
Proof.
  unfold hasFee. destruct (_ || _); [done|].
  destruct (Metadata (rc_Command rc) !! "fee_amount") as [[]|]; try done;
    destruct (MetaDecimal _ _) as [e|f] eqn:E; try done;
    (destruct (_ || _); [done|]); destruct (last _); by intros [= _ <-].
Qed.

Lemma fee_validators_ok rc bal :
  Forall (fun v : Validator => exists u, v rc bal = Ok u) (fee_validators rc) -> fee_ok rc.
Proof.
  unfold fee_validators, fee_ok. destruct (hasFee rc) as [[id fee]|] eqn:E; [|done].
  intros H. apply Forall_inv in H as [u H]. revert H. unfold FeeAmountValidator.
  rewrite (hasFee_decimal rc id fee E).
  destruct (dec_is_positive fee) eqn:E1; [|done]. destruct (dec_ge _ _) eqn:E2; [done|].
  intros _. split; [by apply dec_is_positive_val|].
  apply not_true_iff_false in E2. rewrite dec_ge_val in E2. by apply Qnot_le_lt.
Qed.

Lemma validate_amount_ensures rc bal : ensures (amount_ok rc) (validate_amount rc bal).
Proof.
  apply lift_ensures. intros H%MultiValidator_Ok. apply Forall_inv in H as [u H].
  by eapply Positive_ok.
Qed.

Lemma validate_funds_ensures x rc bal :
  ensures (amount_ok rc /\ Forall (fun v : Validator => exists u, v rc bal = Ok u) x)
          (validate_funds x rc bal).
Proof.
  apply ensures_bind. intros a. apply lift_ensures. intros H%MultiValidator_Ok.
  apply Forall_app in H as [H Hx]. split; [|done]. apply Forall_inv in H as [u H].
  by eapply Positive_ok.
Qed.

Lemma funds_amount x rc bal : ensures (amount_ok rc) (validate_funds x rc bal).
Proof. eapply ensures_mono; [|apply validate_funds_ensures]. by intros []. Qed.
Lemma funds_fee rc bal : ensures (fee_ok rc) (validate_funds (fee_validators rc) rc bal).
Proof.
  eapply ensures_mono; [|apply validate_funds_ensures]. intros [_ H]. by eapply fee_validators_ok.
Qed.
Lemma funds_self_fee rc bal a b :
  ensures (fee_ok rc) (validate_funds (NotSelfTransferValidator a b :: fee_validators rc) rc bal).
Proof.
  eapply ensures_mono; [|apply validate_funds_ensures]. intros [_ H].
  apply Forall_cons in H as [_ H]. by eapply fee_validators_ok.
Qed.
Lemma multi_fee rc bal :
  ensures (amount_ok rc /\ fee_ok rc)
    (lift (MultiValidator ([PositiveAmountValidator; IntegralAmountValidator]
                             ++ fee_validators rc) rc bal)).
Proof.
  apply lift_ensures. intros H%MultiValidator_Ok. apply Forall_app in H as [H Hf]. split.
  - apply Forall_inv in H as [u H]. by eapply Positive_ok.
  - by eapply fee_validators_ok.
Qed.

(** ** The shapes are balanced *)
Definition ei_debit (e : EntryInstruction) : Q :=
  match ei_Direction e with Debit => dec_val (ei_Amount e) | Credit => 0%Q end.
Definition ei_credit (e : EntryInstruction) : Q :=
  match ei_Direction e with Debit => 0%Q | Credit => dec_val (ei_Amount e) end.
Fixpoint sumQ (f : EntryInstruction -> Q) (l : list EntryInstruction) : Q :=
  match l with [] => 0%Q | e :: l' => (f e + sumQ f l')%Q end.

Lemma balanced_totals_ok es x y :
  Forall (fun e => (0 < dec_val (ei_Amount e))%Q) es ->
  exists x' y', balanced_totals es x y = Ok (x', y') /\
    (dec_val x' == dec_val x + sumQ ei_debit es)%Q /\
    (dec_val y' == dec_val y + sumQ ei_credit es)%Q.
Proof.
  intros H. revert x y. induction H as [|e es He _ IH]; intros x y; simpl.
  { exists x, y. split; [done|]. split; lra. }
  apply dec_is_positive_val in He as ->. cbn [negb].
  unfold ei_debit at 1, ei_credit at 1. destruct (ei_Direction e); edestruct IH as (x' & y' & -> & Hx & Hy);
    exists x', y'; (split; [done|]); rewrite Hx, Hy, dec_add_val; split; lra.
Qed.

(** [validateBalanced] accepts exactly positive entries whose sides agree. *)
Lemma validateBalanced_ok es :
  Forall (fun e => (0 < dec_val (ei_Amount e))%Q) es ->
  (sumQ ei_debit es == sumQ ei_credit es)%Q -> validateBalanced es = Ok tt.
Proof.
  intros H Hs. unfold validateBalanced.
  destruct (balanced_totals_ok es dec_zero dec_zero H) as (x & y & -> & Hx & Hy).
  replace (dec_equal x y) with true; [done|]. symmetry. apply dec_equal_val.
  by rewrite Hx, Hy, Hs.
Qed.

Lemma two_entries_sound rc a b n n' :
  amount_ok rc -> validateBalanced (two_entries a b (Amount (rc_Command rc)) n n') = Ok tt.
Proof. intros Ha. apply validateBalanced_ok; [by repeat constructor|]. cbn. lra. Qed.

Lemma fee_entries_sound rc a b n n' f :
  amount_ok rc -> fee_ok rc -> validateBalanced (fee_entries rc a b n n' f) = Ok tt.
Proof.
  intros Ha Hf. unfold fee_entries. unfold fee_ok in Hf.
  destruct (hasFee rc) as [[id fee]|]; [|by apply two_entries_sound].
  apply validateBalanced_ok.
  - repeat constructor; simpl; [done| |apply Hf]. rewrite dec_sub_val. lra.
  - cbn. rewrite dec_sub_val. lra.
Qed.

(** ** Processors *)
Definition sound (p : TxProcessor) : Prop :=
  forall rc bal w w1 w2 es w3, wf_ledger (w_db w2) ->
    Validate p rc bal w = (Ok tt, w1) -> BuildEntries p rc bal w2 = (Ok es, w3) ->
    validateBalanced es = Ok tt.

Lemma two_leg_sound p :
  (forall rc bal, ensures (amount_ok rc) (Validate p rc bal)) ->
  (forall rc bal, exists n n', BuildEntries p rc bal = two_leg_entries rc n n') -> sound p.
Proof.
  intros Hv Hb rc bal w w1 w2 es w3 _ Hval H. destruct (Hb rc bal) as (n & n' & E).
  rewrite E in H. apply two_leg_Ok in H as (a & b & _ & _ & -> & _).
  apply two_entries_sound. by eapply Hv.
Qed.

Lemma fee_leg_sound p :
  (forall rc bal, ensures (amount_ok rc) (Validate p rc bal)) ->
  (forall rc bal, ensures (fee_ok rc) (Validate p rc bal)) ->
  (forall rc bal, exists n n' f, BuildEntries p rc bal = fee_leg_entries rc n n' f) -> sound p.
Proof.
  intros Hv Hf Hb rc bal w w1 w2 es w3 _ Hval H. destruct (Hb rc bal) as (n & n' & f & E).
  rewrite E in H. apply fee_leg_Ok in H as (a & b & _ & _ & -> & _).
  apply fee_entries_sound; [by eapply Hv|by eapply Hf].
Qed.
End entries.
#[export] Hint Resolve ensures_fail validate_amount_ensures funds_amount funds_fee funds_self_fee
  : entries.

(** Find the validator chain inside a [Validate] method. *)
Ltac ensures_step :=
  match goal with
  | |- ensures _ (bind _ (fun _ => _)) => apply ensures_bind; intros
  | |- ensures _ (match ?x with _ => _ end) => destruct x
  | |- ensures _ (let _ := _ in _) => cbv zeta
  end.
Ltac ensures :=
  cbn [Validate];
  match goal with |- ensures _ ?m => unfold_head m end;
  repeat (first [solve [eauto with entries] | ensures_step]).
Ltac sound_two :=
  match goal with |- sound ?p => unfold_head p end;
  apply two_leg_sound; [intros; ensures|intros; do 2 eexists; reflexivity].
Ltac sound_fee :=
  match goal with |- sound ?p => unfold_head p end;
  apply fee_leg_sound; [intros; ensures|intros; ensures|intros; do 3 eexists; reflexivity].

Section fx.
Context `{DEC : !Decimal} `{UT : !UuidText}.
Lemma validate_rebalance_ensures rc bal i b : ensures (amount_ok rc) (validate_rebalance rc bal i b).
Proof.
  unfold validate_rebalance. destruct (_ <? _)%nat; [apply ensures_fail|].
  do 2 (apply ensures_bind; intros). apply ensures_first. apply validate_amount_ensures.
Qed.
End fx.
#[export] Hint Resolve validate_rebalance_ensures : entries.

Section processors.
Context `{DEC : !Decimal} `{UT : !UuidText}.
Context `{REPO : !AccountRepository} (reg : registry).

Lemma MerchantPayinCredit_ensures rc bal :
  ensures (amount_ok rc /\ fee_ok rc) (MerchantPayinCredit_Validate rc bal).
Proof. apply multi_fee. Qed.

Lemma MerchantPayinCredit_sound : sound (MerchantPayinCredit reg).
Proof.
  apply fee_leg_sound; [intros; eapply ensures_mono; [|apply MerchantPayinCredit_ensures]; by intros []
                       |intros; eapply ensures_mono; [|apply MerchantPayinCredit_ensures]; by intros []
                       |intros; do 3 eexists; reflexivity].
Qed.

Lemma TransferPocket_sound : sound (TransferPocket reg).
Proof.
  intros rc bal w w1 w2 es w3 _ Hv Hb.
  assert (Ha : amount_ok rc).
  { revert Hv. cbn [Validate TransferPocket]. unfold TransferPocket_Validate. cbv zeta.
    destruct (MetaString _ _) as [e|dir]; [done|]. destruct (_ && _); [done|].
    apply ensures_bind; intros first; apply ensures_bind; intros source.
    apply lift_ensures. intros H%MultiValidator_Ok. apply Forall_inv in H as [u H].
    by eapply Positive_ok. }
  revert Hb. cbn [BuildEntries TransferPocket]. unfold TransferPocket_BuildEntries. cbv zeta.
  intros (a & w4 & _ & H)%bind_Ok. apply bind_Ok in H as (b & w5 & _ & H).
  destruct (bool_decide _); injection H as <- _; by apply two_entries_sound.
Qed.

(** A top-up: the provider's debit covers the credit to the user and the fee,
    whether the fee is inside the amount or on top of it. *)
Lemma MoneyIn_sound : sound (MoneyIn reg).
Proof.
  intros rc bal w w1 w2 es w3 _ Hv Hb. revert Hv Hb.
  cbn [Validate BuildEntries MoneyIn]. unfold MoneyIn_Validate, MoneyIn_BuildEntries. cbv zeta.
  intros (u & w4 & Hm & Hv)%bind_Ok. apply multi_fee in Hm as [Ha Hf].
  unfold fee_ok in Hf. unfold amount_ok in Ha.
  destruct (hasFee rc) as [[id fee]|] eqn:E.
  - case_bool_decide as Hon.
    + destruct (MetaDecimal _ "total_debit") as [e|total]; [done|].
      destruct (dec_equal total _) eqn:Et; [|done]. apply dec_equal_val in Et.
      rewrite dec_add_val in Et. intros H.
      apply bind_Ok in H as (a & w5 & _ & H). apply bind_Ok in H as (b & w6 & _ & [= <- _]).
      apply validateBalanced_ok.
      * repeat constructor; simpl; [rewrite Et; lra|done|apply Hf].
      * cbn. rewrite Et. lra.
    + intros H. apply bind_Ok in H as (a & w5 & _ & H).
      apply bind_Ok in H as (b & w6 & _ & [= <- _]). apply validateBalanced_ok.
      * repeat constructor; simpl; [done| |apply Hf]. rewrite dec_sub_val. lra.
      * cbn. rewrite dec_sub_val. lra.
  - intros H. apply bind_Ok in H as (a & w5 & _ & H).
    apply bind_Ok in H as (b & w6 & _ & [= <- _]). apply validateBalanced_ok.
    + by repeat constructor.
    + cbn. lra.
Qed.

Lemma reversed_totals l :
  (sumQ ei_debit (map reverse_entry l) == inject_Z (credits l))%Q /\
  (sumQ ei_credit (map reverse_entry l) == inject_Z (debits l))%Q.
Proof.
  unfold credits, debits. induction l as [|e l [IH1 IH2]]; simpl; [split; reflexivity|].
  rewrite IH1, IH2, !inject_Z_plus. unfold ei_debit, ei_credit, reverse_entry. simpl.
  destruct (e_direction e); simpl; rewrite dec_of_Z_val; split; change (inject_Z 0) with 0%Q; lra.
Qed.

Lemma Reversal_sound : sound (Reversal reg).
Proof.
  intros rc bal w w1 w2 es w3 W _ (l & Hl & _ & _ & ->)%Reversal_BuildEntries_Ok.
  assert (Hin : forall e, e ∈ l -> e ∈ ledger_entries (w_db w2)).
  { intros e He. rewrite Hl in He. by apply list_elem_of_filter in He as [_ ?]. }
  apply validateBalanced_ok.
  - apply Forall_forall. intros ei (e & -> & He)%list_elem_of_fmap. simpl. rewrite dec_of_Z_val.
    destruct (wf_entries _ W e (Hin e He)) as [Hp _]. change 0%Q with (inject_Z 0). by apply inject_Z_lt.
  - destruct (reversed_totals l) as [-> ->].
    assert (Hn : tx_net (ReferenceID (rc_Command rc)) (ledger_entries (w_db w2)) = sumZ entry_signed l)
      by (symmetry; by apply sumZ_perm).
    rewrite (wf_balanced _ W), signed_total in Hn. replace (debits l) with (credits l) by lia.
    reflexivity.
Qed.

Lemma default_processors_sound : Forall sound (default_processors reg).
Proof.
  unfold default_processors.
  repeat (apply Forall_cons; split;
          [first [exact MoneyIn_sound | exact TransferPocket_sound | exact MerchantPayinCredit_sound
                 | exact Reversal_sound | solve [sound_two] | solve [sound_fee]]|]).
  constructor.
Qed.

(** The processors that debit a gross amount, credit the net and collect a fee. *)
Definition collects_fee (p : TxProcessor) : Prop :=
  (forall rc bal, ensures (amount_ok rc) (Validate p rc bal)) /\
  (forall rc bal, ensures (fee_ok rc) (Validate p rc bal)) /\
  (forall rc bal, exists n n' f, BuildEntries p rc bal = fee_leg_entries rc n n' f).

Definition fee_processors : list TxProcessor :=
  [ MoneyOut reg; WithdrawInitiate reg; WithdrawSettle reg; TransferP2P reg; MerchantPayinCredit reg;
    MerchantPayoutHold reg; MerchantPayoutSettle reg; EscrowHold reg; EscrowRelease reg ].

Lemma fee_processors_collect : Forall collects_fee fee_processors.
Proof.
  unfold fee_processors.
  repeat (apply Forall_cons; split;
    [first [ solve [match goal with |- collects_fee ?p => unfold_head p end;
                    split_and!; [intros; ensures|intros; ensures|intros; do 3 eexists; reflexivity]]
           | split_and!;
             [intros; eapply ensures_mono; [|apply MerchantPayinCredit_ensures]; by intros []
             |intros; eapply ensures_mono; [|apply MerchantPayinCredit_ensures]; by intros []
             |intros; do 3 eexists; reflexivity]]|]).
  constructor.
Qed.

(** The processors that move the amount from their first account to their second. *)
Definition moves_amount (p : TxProcessor) : Prop :=
  (forall rc bal, ensures (amount_ok rc) (Validate p rc bal)) /\
  (forall rc bal, exists n n', BuildEntries p rc bal = two_leg_entries rc n n').

Definition two_leg_processors : list TxProcessor :=
  [ WithdrawPending reg; WithdrawCancel reg; WithdrawPendingSettle reg; WithdrawPendingCancel reg;
    MerchantTransfer reg; MerchantPayoutCancel reg; Refund reg; FeeCollect reg; Chargeback reg;
    EscrowRefund reg; FreezeInitiate reg; FreezeRelease reg; FreezeConfiscate reg;
    AdjustmentCredit reg; AdjustmentDebit reg; AdjustmentSuspenseCredit reg;
    AdjustmentSuspenseDebit reg; FXRebalanceCredit reg; FXRebalanceDebit reg; FxOut reg; FxIn reg;
    Disbursement reg; InterestAccrue reg; InterestLiabilityAccrue reg; InterestCapitalize reg;
    InterestAdjustment reg ].

Lemma two_leg_processors_move : Forall moves_amount two_leg_processors.
Proof.
  unfold two_leg_processors.
  repeat (apply Forall_cons; split;
    [match goal with |- moves_amount ?p => unfold_head p end;
     split; [intros; ensures|intros; do 2 eexists; reflexivity]|]).
  constructor.
Qed.
End processors.
