(* ===== verification/Engine.v ===== *)
(** * The posting service refines the abstract ledger

    Every run of [exec_body] that asks for a commit either appended one
    transaction ([committed] with result [None]) or recorded one rejected
    header; [execTransfer], [transfer] and [Handle] change the database by at
    most one such step, under any schedule of failures. *)
From stdpp Require Import prelude gmap strings list.
From S2P Require Import Prelude Decimal Errors Currency Events Store TxRepo Repos AccountRepo.
From S2P Require Import Fee Processors Handle Frames Lawful Postings Invariant.

(** ** Locked balances *)
Section locking.
Context `{DEC : !Decimal} `{UT : !UuidText} `{HASH : !Hashing}.

Lemma select_balances_lookup d ids a :
  select_balances d ids !! a = if decide (a ∈ ids) then balance_of d a else None.
Proof.
  unfold select_balances. induction ids as [|id ids IH]; [by simpl; rewrite lookup_empty|]. cbn [omap list_omap].
  assert (Hd : a <> id -> (if decide (a ∈ id :: ids) then balance_of d a else None)
                          = if decide (a ∈ ids) then balance_of d a else None).
  { intros Hne. apply decide_ext. rewrite elem_of_cons. naive_solver. }
  destruct (decide (a = id)) as [->|Hne].
  - rewrite (decide_True (P := id ∈ id :: ids)) by left.
    destruct (balance_of d id) as [ab|] eqn:E; simpl; [by rewrite lookup_insert_eq|].
    etrans; [exact IH|]. by case_decide.
  - rewrite Hd by done. destruct (balance_of d id); simpl; [|exact IH].
    rewrite lookup_insert_ne by done. exact IH.
Qed.

Lemma balance_of_Some d a ab :
  balance_of d a = Some ab ->
  exists b x, account_balances d !! a = Some b /\ accounts d !! a = Some x /\
    ab_Balance ab = dec_of_Z (b_balance b) /\ ab_Status ab = a_status x /\
    ab_Currency ab = a_currency x /\ ab_AllowNegative ab = b_allow_negative b /\ AccountID ab = a.
Proof.
  unfold balance_of. destruct (account_balances d !! a) as [b|]; [|done].
  destruct (accounts d !! a) as [x|]; [|done]. intros [= <-]. eauto 10.
Qed.

Lemma LockBalances_Ok ids w m w' :
  BalanceRepo_LockBalances ids w = (Ok m, w') ->
  m = select_balances (w_db w) ids /\ w_db w' = w_db w.
Proof.
  unfold BalanceRepo_LockBalances. destruct ids; [by intros [= <- <-]|].
  intros (t & -> & ->)%wrap_Ok%query_Ok. done.
Qed.
Lemma GetAccountFlags_Ok ids w m w' :
  BalanceRepo_GetAccountFlags ids w = (Ok m, w') ->
  m = select_balances (w_db w) ids /\ w_db w' = w_db w.
Proof.
  unfold BalanceRepo_GetAccountFlags. destruct ids; [by intros [= <- <-]|].
  intros (t & -> & ->)%wrap_Ok%query_Ok. done.
Qed.

(** The two halves of the split are disjoint, and the merged map holds exactly
    the accounts of the command, as the database has them. *)
Section split.
Context (d : database) (ids : list uuid).
Let flags := select_balances d ids.
Let sys := system_ids flags ids.
Let ub := select_balances d (user_ids flags ids).

Lemma flags_Some a ab : flags !! a = Some ab -> a ∈ ids /\ balance_of d a = Some ab.
Proof. unfold flags. rewrite select_balances_lookup. by case_decide. Qed.

Lemma user_Some a ab :
  ub !! a = Some ab -> a ∈ ids /\ balance_of d a = Some ab /\ is_user flags a = true.
Proof.
  unfold ub. rewrite select_balances_lookup. case_decide as H; [|done].
  apply list_elem_of_filter in H as [? ?]. done.
Qed.

Lemma split_disjoint a : a ∈ sys -> ub !! a = None.
Proof.
  intros [Hs _]%list_elem_of_filter. apply eq_None_not_Some. intros [ab Hab].
  apply user_Some in Hab as (_ & _ & Hu). unfold is_system, is_user in *.
  destruct (flags !! a) as [x|]; [|done]. by destruct (ab_AllowNegative x).
Qed.

Lemma merge_balances_Some l m a ab :
  merge_balances m flags l !! a = Some ab ->
  (a ∈ l /\ flags !! a = Some ab) \/ m !! a = Some ab.
Proof.
  revert m. induction l as [|x l IH]; intros m; simpl; [by right|].
  intros [[? ?]|H]%IH; [left; split; [by right|done]|].
  destruct (flags !! x) as [fx|] eqn:E; [|by right].
  destruct (decide (x = a)) as [->|Hne].
  - rewrite lookup_insert_eq in H. injection H as ->. left. split; [by left|done].
  - rewrite lookup_insert_ne in H by done. by right.
Qed.

Lemma merged_Some a ab :
  merge_balances ub flags sys !! a = Some ab ->
  a ∈ ids /\ balance_of d a = Some ab /\ (a ∈ sys \/ is_Some (ub !! a)).
Proof.
  intros [[Hs Hf]|Hu]%merge_balances_Some.
  - apply flags_Some in Hf as [? ?]. auto.
  - rewrite Hu. apply user_Some in Hu as (? & ? & _). eauto.
Qed.

Lemma locked_snapshot : snapshot d ub.
Proof.
  intros a ab (_ & Hb & _)%user_Some.
  destruct (balance_of_Some d a ab Hb) as (b & x & ? & _ & ? & _). eauto.
Qed.
End split.

(** Every account of the command is active and in its currency. *)
Definition accounts_usable (rc : ResolvedCommand) (d : database) : Prop :=
  forall a, a ∈ AccountIDs rc -> exists x, accounts d !! a = Some x /\
    a_status x = "active" /\ a_currency x = rc_Currency rc.

Lemma validate_account_ids_Ok ids c bal :
  validate_account_ids ids c bal = Ok tt ->
  forall a, a ∈ ids -> exists ab, bal !! a = Some ab /\ ab_Status ab = "active" /\ ab_Currency ab = c.
Proof.
  induction ids as [|id ids IH]; simpl; [by intros _ a ?%not_elem_of_nil|].
  destruct (bal !! id) as [ab|] eqn:E; [|done]. do 2 (case_bool_decide; [done|]).
  destruct (bool_decide (ab_Status ab = "active")) eqn:Ea; [|done].
  destruct (bool_decide (ab_Currency ab = c)) eqn:Ec; [|done].
  apply bool_decide_eq_true in Ea, Ec. intros Hrest a [->|Ha]%elem_of_cons; eauto.
Qed.
End locking.

(** ** A header inserted *)
Section insertion.
Context `{DEC : !Decimal} `{HASH : !Hashing}.

Lemma any_tx_false P d :
  any_tx P d = false <-> forall id t, ledger_transactions d !! id = Some t -> P t = false.
Proof.
  unfold any_tx. rewrite <- not_true_iff_false, existsb_exists. split.
  - intros H id t Ht. apply not_true_iff_false. intros HP. apply H. exists (id, t).
    split; [|done]. by apply list_elem_of_In, elem_of_map_to_list.
  - intros H ([id t] & Hin & HP). apply list_elem_of_In, elem_of_map_to_list in Hin.
    apply H in Hin. simpl in HP. congruence.
Qed.

Lemma sql_bigint_inr a z : sql_bigint a = inr z <-> dec_bigint a = Some z.
Proof. unfold sql_bigint. destruct (dec_bigint a); split; congruence. Qed.

(** The row [p] inserts: a fresh id, a key and digest no other row carries. *)
Record inserts (ring : DigestRing) (p : InsertTransactionParams) (amount : Z) (d d' : database) : Prop := {
  is_fresh : ledger_transactions d !! p_ID p = None;
  is_amount : dec_bigint (p_Amount p) = Some amount;
  is_positive : 0 < amount;
  is_key id t : ledger_transactions d !! id = Some t ->
    same_identity (p_IdempotencyKey p) (p_IdempotencyScope p) t = false;
  is_digest id t : ledger_transactions d !! id = Some t ->
    same_digest (Digest ring (canonicalIdempotencyInput (p_IdempotencyScope p) (p_IdempotencyKey p))).1 t = false;
  is_db : d' = with_transactions d (<[p_ID p := new_tx_row p amount
    (Digest ring (canonicalIdempotencyInput (p_IdempotencyScope p) (p_IdempotencyKey p))).1
    (Digest ring (canonicalIdempotencyInput (p_IdempotencyScope p) (p_IdempotencyKey p))).2
    (conflictFingerprint (p_Type p) (p_Amount p) (p_Currency p))]> (ledger_transactions d));
}.
Lemma TransactionRepo_Insert_Ok ring p w u w' :
  TransactionRepo_Insert ring p w = (Ok u, w') -> exists amount, inserts ring p amount (w_db w) (w_db w').
Proof.
  unfold TransactionRepo_Insert. rewrite (surjective_pairing (Digest _ _)). intros H.
  apply bind_Ok in H as (r & w1 & Hr & H).
  apply try_Ok in Hr as [(v & -> & Hs)|(e & -> & _)];
    [|revert H; by destruct (isCurrencyConstraintError e)].
  injection H as _ <-. apply stmt_Ok in Hs as (t & Hs & _). unfold sql_insert_transaction in Hs.
  destruct (sql_bigint _) as [e|amount] eqn:Ea; [done|]. apply sql_bigint_inr in Ea.
  destruct (3 <? _); [done|]. do 2 (destruct (currency_matches _ _ _); [|done]).
  destruct (amount <=? 0) eqn:Ez; [done|]. apply Z.leb_gt in Ez. cbn [negb] in Hs.
  destruct (_ || _ || _) eqn:Eu; [done|]. injection Hs as _ <-.
  apply orb_false_iff in Eu as [Eu Ed]. apply orb_false_iff in Eu as [Ep Ek].
  apply bool_decide_eq_false, eq_None_not_Some in Ep. rewrite any_tx_false in Ek, Ed.
  by exists amount.
Qed.
End insertion.

(** ** One execution *)
Section engine.
Context `{DEC : !Decimal} `{UT : !UuidText} `{HASH : !Hashing}.
Context (s : Service) (p : TxProcessor) `{!LawfulService s} `{!LawfulProcessor p}.

(** The header a command inserts, and the digest that identifies it. *)
Definition key_digest (rc : ResolvedCommand) : string * Z :=
  let c := rc_Command rc in
  Digest (digestRing s)
    (canonicalIdempotencyInput (stringPtr (IdempotencyScope c)) (IdempotencyKey c)).
Definition fingerprint (rc : ResolvedCommand) : string :=
  conflictFingerprint (Type_ (rc_Command rc)) (Amount (rc_Command rc)) (rc_Currency rc).
Definition header_of (rc : ResolvedCommand) (tx : uuid) (amount : Z) : tx_row :=
  new_tx_row (insert_params rc tx) amount (key_digest rc).1 (key_digest rc).2 (fingerprint rc).

(** Some header already carries the command's key: its digest, or the raw key
    and scope (rows older than the digest column). *)
Definition key_taken (rc : ResolvedCommand) (d : database) : Prop :=
  let c := rc_Command rc in
  exists id t, ledger_transactions d !! id = Some t /\
    (t_key_digest t = Some (key_digest rc).1
     \/ same_identity (IdempotencyKey c) (stringPtr (IdempotencyScope c)) t = true).

(** *** The idempotency gate *)
Record inserted (rc : ResolvedCommand) (tx : uuid) (amount : Z) (d d' : database) : Prop := {
  in_fresh : ledger_transactions d !! tx = None;
  in_unique : ~ key_taken rc d;
  in_amount : dec_bigint (Amount (rc_Command rc)) = Some amount;
  in_positive : 0 < amount;
  in_db : d' = with_transactions d (<[tx := header_of rc tx amount]> (ledger_transactions d));
}.

Lemma Insert_Ok rc tx w u w' :
  TransactionRepo_Insert (digestRing s) (insert_params rc tx) w = (Ok u, w') ->
  exists amount, inserted rc tx amount (w_db w) (w_db w').
Proof.
  intros (amount & [Hf Ha Hp Hk Hd Hdb])%TransactionRepo_Insert_Ok. exists amount.
  split; try done. intros (id & t' & Ht & [Hd'|Hk']).
  - apply Hd in Ht. unfold same_digest in Ht. apply bool_decide_eq_false in Ht. by apply Ht.
  - specialize (Hk id t' Ht). simpl in Hk. congruence.
Qed.

Lemma handleDuplicate_fails rc w r w' : handleDuplicate s rc w <> (Ok r, w').
Proof.
  unfold handleDuplicate. intros H. apply bind_Ok in H as ([status conflict] & w1 & _ & H).
  revert H. repeat case_match; discriminate.
Qed.

(** *** Rejections recorded on the header *)
Definition failed (tx : uuid) (err : error) (d : database) : Prop :=
  forall t, ledger_transactions d !! tx = Some t -> t_status t = "failed" /\ t_error t = Some err.

Lemma markFailed_Ok c tx err w u w' :
  wrap c (markFailed tx err) w = (Ok u, w') ->
  quiet tx (w_db w) (w_db w') /\ failed tx err (w_db w').
Proof.
  intros H%wrap_Ok. split; [by eapply UpdateStatus_quiet|].
  apply UpdateStatus_Ok in H as ->. intros t. simpl. rewrite lookup_alter_eq.
  intros (t0 & _ & ->)%fmap_Some. done.
Qed.

(** *** Closing the original *)
Definition closed_original (rc : ResolvedCommand) (tx : uuid) (d d' : database) : Prop :=
  match lifecycleCloseReason !! Type_ (rc_Command rc) with
  | None => d' = d
  | Some reason =>
      exists t, ledger_transactions d !! ReferenceID (rc_Command rc) = Some t /\
        t_closed_by t = None /\
        d' = with_transactions d (<[ReferenceID (rc_Command rc) := close_row tx reason t]>
                                    (ledger_transactions d))
  end.

Lemma CloseOriginal_Ok id tx reason w n w' :
  TransactionRepo_CloseOriginal id tx reason w = (Ok n, w') -> n <> 0 ->
  exists t, ledger_transactions (w_db w) !! id = Some t /\ t_closed_by t = None /\
    w_db w' = with_transactions (w_db w) (<[id := close_row tx reason t]>
                                            (ledger_transactions (w_db w))).
Proof.
  intros (t & H & _)%wrap_Ok%stmt_Ok Hn. revert H.
  destruct (ledger_transactions (w_db w) !! id) as [r|]; [|congruence].
  destruct (t_closed_by r) eqn:Ec; [congruence|]. repeat case_match; intros [= _ <-]; eauto.
Qed.

Lemma close_original_Ok rc tx w r w' :
  close_original rc tx w = (Ok r, w') ->
  quiet tx (w_db w) (w_db w') /\
  match r with
  | None => closed_original rc tx (w_db w) (w_db w')
  | Some err => failed tx err (w_db w')
  end.
Proof.
  unfold close_original, closed_original.
  destruct (lifecycleCloseReason !! _) as [reason|] eqn:El; [|by intros [= <- <-]].
  intros H. apply bind_Ok in H as (n & w1 & Hc%wrap_Ok & H).
  pose proof (CloseOriginal_quiet tx _ _ _ _ _ _ Hc) as Hq.
  destruct (n =? 0) eqn:En.
  - apply bind_Ok in H as (u & w2 & [Hq' Hf]%markFailed_Ok & [= <- <-]).
    split; [by etrans|done].
  - injection H as <- <-. split; [done|]. apply Z.eqb_neq in En. by eapply CloseOriginal_Ok.
Qed.

(** *** The posting phases *)

(** The evidence a posted transaction leaves: its entries are those the
    processor built from balances that are the database's, on usable accounts,
    and the step itself is [written]. *)
Record posted_by (rc : ResolvedCommand) (tx : uuid) (d d' : database)
    (bal : gmap uuid AccountBalance) (es : list EntryInstruction) (rows : list entry_row) : Prop := {
  pb_balances a ab : bal !! a = Some ab -> balance_of d a = Some ab;
  pb_usable : accounts_usable rc d;
  pb_valid : exists w w', same_ledger d (w_db w) /\ Validate p rc bal w = (Ok tt, w');
  pb_built : exists w w', same_ledger d (w_db w) /\ BuildEntries p rc bal w = (Ok es, w');
  pb_within : within rc es;
  pb_balanced : validateBalanced es = Ok tt;
  pb_written : exists d1 d2, quiet tx d d1 /\ closed_original rc tx d1 d2 /\ quiet tx d1 d2
                 /\ written d2 d' tx es (OutboxEvents p rc tx es) rows;
}.

Lemma same_ledger_balance_of d d' : same_ledger d d' -> balance_of d' = balance_of d.
Proof. intros (Ea & Eb & _). unfold balance_of. by rewrite Ea, Eb. Qed.

Lemma covers_same d d' r ids : same_ledger d d' -> covers p r ids d -> covers p r ids d'.
Proof. intros (_ & _ & Ee & _). unfold covers. by rewrite Ee. Qed.

Lemma post_Ok rc tx w r w' :
  covers p (ReferenceID (rc_Command rc)) (AccountIDs rc) (w_db w) ->
  balances_in_range (w_db w) ->
  post s p rc tx w = (Ok r, w') ->
  match r with
  | None => exists bal es rows, posted_by rc tx (w_db w) (w_db w') bal es rows
  | Some err => quiet tx (w_db w) (w_db w') /\ failed tx err (w_db w')
  end.
Proof.
  intros Hcov Hwf H. unfold post in H.
  apply bind_Ok in H as (flags & w1 & [-> E1]%GetAccountFlags_Ok & H). cbv zeta in H.
  apply bind_Ok in H as (ub & w2 & [-> E2]%LockBalances_Ok & H).
  apply bind_Ok in H as ([] & w3 & [= Hva <-] & H).
  rewrite E1 in H, Hva, E2. set (d := w_db w) in *.
  set (sys := system_ids _ _) in *. set (ub := select_balances d (user_ids _ _)) in *.
  set (merged := merge_balances _ _ _) in *.
  apply bind_Ok in H as (v & w4 & Hv & H).
  apply try_Ok in Hv as [(u & -> & Hv)|(err & -> & Hv)];
    pose proof (lp_Validate _ _ _ _ _ Hv) as E4; rewrite E2 in E4.
  2: { apply bind_Ok in H as (u & w5 & [Hq Hf]%markFailed_Ok & [= <- <-]).
       by rewrite <- E4 in Hq. }
  apply bind_Ok in H as (closed & w5 & Hcl & H). apply close_original_Ok in Hcl as [Hq Hcl].
  rewrite <- E4 in Hq, Hcl.
  destruct closed as [bizErr|]; [injection H as <- <-; done|].
  apply bind_Ok in H as (es & w6 & Hbe%wrap_Ok & H).
  pose proof (lp_BuildEntries _ _ _ _ _ Hbe) as E6.
  apply bind_Ok in H as ([] & w7 & [= Hvb <-] & H).
  apply bind_Ok in H as ([] & w8 & Hw & [= <- <-]).
  assert (Hs5 : same_ledger d (w_db w5)) by apply Hq.
  assert (Hwithin : within rc es) by (eapply lp_within; [done|by eapply covers_same]).
  assert (Husable : forall a, a ∈ AccountIDs rc -> exists ab, merged !! a = Some ab /\
            ab_Status ab = "active" /\ ab_Currency ab = rc_Currency rc)
    by (by apply validate_account_ids_Ok).
  eapply write_postings_Ok in Hw as (rows & Hw); [|apply _|apply Hwithin|..].
  - exists merged, es, rows. destruct u. split; try done.
    + intros a ab Ha. by apply merged_Some in Ha as (_ & ? & _).
    + intros a Ha. destruct (Husable a Ha) as (ab & Hab & Hst & Hc).
      apply merged_Some in Hab as (_ & Hab & _).
      apply balance_of_Some in Hab as (b & x & _ & Hx & _ & Es & Ec & _). exists x.
      by rewrite <- Es, <- Ec.
    + exists w2, w4. rewrite E2. done.
    + eauto.
    + exists d, (w_db w5). split_and!; [reflexivity|done|done|]. by rewrite E6.
  - intros e He. destruct Hwithin as [_ Hin]. rewrite Forall_forall in Hin.
    destruct (Husable _ (Hin e He)) as (ab & Hab & _). by apply merged_Some in Hab as (_ & _ & ?).
  - intros a. apply split_disjoint.
  - rewrite <- E6. intros a ab Hab. destruct (locked_snapshot d (AccountIDs rc) a ab Hab) as (b & ? & ?).
    exists b. split; [|done]. destruct Hs5 as (_ & -> & _). done.
  - rewrite <- E6. unfold balances_in_range. destruct Hs5 as (_ & -> & _). done.
Qed.

(** *** The fee quote *)
Definition quote_ref (tx : uuid) : string := "tx:" +:+ uuid_string tx.

Lemma ref_type_quote_ref tx : ref_type (quote_ref tx) = "transaction".
Proof. unfold quote_ref. by destruct (uuid_string tx). Qed.

(** The single-use quote a command names, consumed for this transaction and
    written into the command's metadata. *)
Definition fee_applied (rc : ResolvedCommand) (tx : uuid) (rc' : ResolvedCommand)
    (d d' : database) : Prop :=
  let c := rc_Command rc in
  if bool_decide (QuoteID c = EmptyString) then rc' = rc /\ d' = d
  else exists quoteID q now amount,
    uuid_parse (QuoteID c) = Some quoteID /\ fee_quotes d !! quoteID = Some q /\
    dec_bigint (Amount c) = Some amount /\
    quote_matches (UserID c) (Type_ c) (rc_Currency rc) amount q = true /\
    (quote_open now q = true \/ consumed_by "transaction" (quote_ref tx) q = true) /\
    rc' = set_command rc (set_fee c (dec_of_Z (q_fee_amount q)) (q_fee_gateway q)) /\
    d' = with_quotes d (<[quoteID := consume_row now (quote_ref tx) q]> (fee_quotes d)).

Lemma ConsumeQuote_Ok quoteID u t c a ref w fee gw w' :
  ConsumeQuote quoteID u t c a ref w = (Ok (fee, gw), w') ->
  exists q now amount, fee_quotes (w_db w) !! quoteID = Some q /\ dec_bigint a = Some amount /\
    quote_matches u t c amount q = true /\
    (quote_open now q = true \/ consumed_by (ref_type ref) ref q = true) /\
    fee = dec_of_Z (q_fee_amount q) /\ gw = q_fee_gateway q /\
    w_db w' = with_quotes (w_db w) (<[quoteID := consume_row now ref q]> (fee_quotes (w_db w))).
Proof.
  unfold ConsumeQuote. intros H. apply bind_Ok in H as (r & w1 & Hr & H).
  apply try_Ok in Hr as [(x & -> & Hr)|(e & -> & _)].
  - injection H as -> <-. apply bind_Ok in Hr as ([z g] & w2 & Hr & [= <- <- <-]).
    apply scan_row_Ok, stmt_Ok in Hr as (now & Hr & _). unfold sql_consume_quote in Hr.
    destruct (sql_bigint a) as [e|amount] eqn:Ea; [done|]. apply sql_bigint_inr in Ea.
    destruct (fee_quotes (w_db w) !! quoteID) as [q|] eqn:Eq; [|done].
    destruct (_ && _) eqn:Em; [|done]. apply andb_true_iff in Em as [Em Eo].
    apply orb_true_iff in Eo. injection Hr as <- <- <-. exists q, now, amount. done.
  - exfalso. destruct (is_no_rows e); [|done]. cbn [negb] in H.
    apply bind_Ok in H as ([] & w2 & _ & H); done.
Qed.

Lemma consume_fee_quote_Ok rc tx w rc' w' :
  consume_fee_quote s rc tx w = (Ok rc', w') -> fee_applied rc tx rc' (w_db w) (w_db w').
Proof.
  unfold consume_fee_quote, fee_applied. cbv zeta. case_bool_decide; [by intros [= <- <-]|].
  destruct (uuid_parse _) as [quoteID|]; [|done]. destruct (feePolicy s); [|done]. cbn [negb].
  intros Hrun. apply bind_Ok in Hrun as (r & w1 & Hr & Hrun).
  apply try_Ok in Hr as [([fee gw] & -> & Hr)|(e & -> & _)].
  - injection Hrun as <- <-.
    apply ConsumeQuote_Ok in Hr as (q & now & amount & ? & ? & ? & Ho & -> & -> & ?).
    exists quoteID, q, now, amount. split_and!; try done. by rewrite <- (ref_type_quote_ref tx).
  - revert Hrun. by repeat case_match.
Qed.

Lemma fee_applied_quotes rc tx rc' d d' : fee_applied rc tx rc' d d' -> quotes_only d d'.
Proof.
  unfold fee_applied. cbv zeta. case_bool_decide.
  - intros [_ ->]. reflexivity.
  - intros (? & ? & ? & ? & _ & _ & _ & _ & _ & _ & ->). done.
Qed.

(** The fee is all that changes in the command. *)
Definition meta_kept (m m' : metadata) : Prop :=
  forall k, k <> "fee_amount" -> k <> "fee_gateway" -> m' !! k = m !! k.

Lemma set_fee_meta c fee gw : meta_kept (Metadata c) (Metadata (set_fee c fee gw)).
Proof. intros k H1 H2. simpl. by rewrite !lookup_insert_ne by congruence. Qed.

Lemma fee_applied_command rc tx rc' d d' :
  fee_applied rc tx rc' d d' ->
  AccountIDs rc' = AccountIDs rc /\ rc_Currency rc' = rc_Currency rc /\
  ReferenceID (rc_Command rc') = ReferenceID (rc_Command rc) /\
  Type_ (rc_Command rc') = Type_ (rc_Command rc) /\ Amount (rc_Command rc') = Amount (rc_Command rc) /\
  meta_kept (Metadata (rc_Command rc)) (Metadata (rc_Command rc')).
Proof.
  unfold fee_applied. cbv zeta. case_bool_decide.
  - by intros [-> _].
  - intros (? & ? & ? & ? & _ & _ & _ & _ & _ & -> & _).
    split_and!; try done. apply set_fee_meta.
Qed.

(** *** The other checks read *)
Lemma check_currency_policy_reads rc : reads (check_currency_policy s rc).
Proof.
  unfold check_currency_policy. destruct (currencyValidator s) as [v|] eqn:E; frame.
  by apply ls_validator.
Qed.
Lemma check_payin_snapshot_reads rc : reads (check_payin_snapshot s rc).
Proof. unfold check_payin_snapshot, check_topup_snapshot, mismatch. frame. Qed.

Lemma pre_lock_check_Ok rc tx w r w' :
  pre_lock_check p rc tx w = (Ok r, w') ->
  match r with
  | None => w_db w' = w_db w
  | Some err => quiet tx (w_db w) (w_db w') /\ failed tx err (w_db w')
  end.
Proof.
  unfold pre_lock_check. destruct (ValidateBeforeBalanceLocks p) as [pre|] eqn:Ep;
    [|by intros [= <- <-]].
  intros H. apply bind_Ok in H as (v & w1 & Hv & H).
  apply try_Ok in Hv as [(u & -> & Hv)|(err & -> & Hv)];
    pose proof (lp_pre pre rc Ep _ _ _ Hv) as E1.
  - by injection H as <- <-.
  - destruct (IsBusinessRejection err); [|done]. cbn [negb] in H.
    apply bind_Ok in H as (u & w2 & Hm%markFailed_Ok & [= <- <-]). by rewrite E1.
Qed.

(** *** The whole callback *)
Record committed (rc : ResolvedCommand) (tx : uuid) (d d' : database) (res : option error) : Prop := {
  co_fresh : ledger_transactions d !! tx = None;
  co_unique : ~ key_taken rc d;
  co_evolves : tx_evolves tx d d';
  co_header : exists amount t, dec_bigint (Amount (rc_Command rc)) = Some amount /\ 0 < amount /\
    ledger_transactions d' !! tx = Some t /\ same_header (header_of rc tx amount) t /\
    match res with
    | None => t_status t = "posted"
    | Some err => t_status t = "failed" /\ t_error t = Some err
    end;
  co_effect : exists amount d1 rc1 d2,
    inserted rc tx amount d d1 /\ fee_applied rc tx rc1 d1 d2 /\
    match res with
    | None => exists bal es rows, posted_by rc1 tx d2 d' bal es rows
    | Some err => quiet tx d2 d'
    end;
}.

Lemma inserted_quiet rc tx amount d d' : inserted rc tx amount d d' -> quiet tx d d'.
Proof.
  intros [Hf _ _ _ ->]. apply quiet_transactions. split; simpl; intros id t Ht.
  - exists t. split; [|apply header_evolves_refl]. rewrite lookup_insert_ne; [done|].
    intros <-. congruence.
  - destruct (decide (id = tx)) as [->|Hne]; [by left|]. rewrite lookup_insert_ne in Ht by done. eauto.
Qed.

Lemma posted_by_evolves rc tx d d' bal es rows :
  posted_by rc tx d d' bal es rows ->
  tx_evolves tx d d' /\ forall t, ledger_transactions d' !! tx = Some t -> t_status t = "posted".
Proof.
  intros [_ _ _ _ _ _ (d1 & d2 & [_ T1] & _ & [_ T2] & W)]. pose proof (wr_header _ _ _ _ _ _ W) as Eh.
  split.
  - do 2 (etrans; [done|]). clear T1 T2. split; rewrite Eh.
    + apply (te_kept _ _ _ (tx_evolves_alter tx d2 (set_status "posted" None)
        (header_evolves_status tx "posted" None))).
    + apply (te_new _ _ _ (tx_evolves_alter tx d2 (set_status "posted" None)
        (header_evolves_status tx "posted" None))).
  - intros t. rewrite Eh, lookup_alter_eq. by intros (t0 & _ & ->)%fmap_Some.
Qed.

(** The gate of [exec_body]: a run that asks for a commit inserted its header. *)
Lemma exec_body_gate rc w r w' :
  exec_body s p rc w = (Ok r, w') ->
  exists tx amount w1, inserted rc tx amount (w_db w) (w_db w1) /\
    (let! _ := check_currency_policy s rc in
     let! rc1 := consume_fee_quote s rc tx in
     let! _ := check_payin_snapshot s rc1 in
     let! pre := pre_lock_check p rc1 tx in
     match pre with
     | Some err => ret (Some err)
     | None => post s p rc1 tx
     end) w1 = (Ok r, w').
Proof.
  intros H. unfold exec_body in H.
  apply bind_Ok in H as (tx & w1 & [= Htx <-] & H).
  apply bind_Ok in H as ([] & w2 & Hs%wrap_Ok & H).
  assert (E2 : w_db w2 = w_db w).
  { unfold savepoint in Hs. destruct (stmt _ _) as [[[]|e|] w3] eqn:Es; [|done..].
    injection Hs as <-. apply stmt_Ok in Es as (t & [= Es] & _). done. }
  apply bind_Ok in H as (ins & w3 & Hi & H).
  apply try_Ok in Hi as [(u & -> & Hi)|(e & -> & _)].
  - apply Insert_Ok in Hi as (amount & Hi). rewrite E2 in Hi.
    apply bind_Ok in H as (u' & w4 & Hrel & H). exists tx, amount, w4. split; [|done].
    assert (E4 : w_db w3 = w_db w4)
      by (by eapply (frames_ignore_error eq _ (frames_release eq))). by rewrite <- E4.
  - exfalso. apply bind_Ok in H as (u & w4 & _ & H). destruct (IsDuplicateKey e); [|done].
    by apply handleDuplicate_fails in H.
Qed.

Lemma exec_body_unique rc w r w' :
  exec_body s p rc w = (Ok r, w') -> ~ key_taken rc (w_db w).
Proof. intros (tx & amount & w1 & Hi & _)%exec_body_gate. apply (in_unique _ _ _ _ _ Hi). Qed.

(** Assembling the record from the phases. *)
Lemma committed_intro rc tx amount rc1 d d1 d2 d' res :
  inserted rc tx amount d d1 -> fee_applied rc tx rc1 d1 d2 ->
  match res with
  | None => exists bal es rows, posted_by rc1 tx d2 d' bal es rows
  | Some err => quiet tx d2 d' /\ failed tx err d'
  end -> committed rc tx d d' res.
Proof.
  intros Hi Hf Hres.
  pose proof (inserted_quiet _ _ _ _ _ Hi) as [_ T1].
  pose proof (quotes_only_quiet tx _ _ (fee_applied_quotes _ _ _ _ _ Hf)) as [_ T2].
  assert (T3 : tx_evolves tx d2 d').
  { destruct res; [apply Hres|]. destruct Hres as (bal & es & rows & Hp).
    by apply posted_by_evolves in Hp as [? _]. }
  assert (T : tx_evolves tx d1 d') by (by etrans).
  split.
  - apply (in_fresh _ _ _ _ _ Hi).
  - apply (in_unique _ _ _ _ _ Hi).
  - by etrans.
  - destruct (te_kept _ _ _ T tx (header_of rc tx amount)) as (t & Ht & Hh & _).
    { rewrite (in_db _ _ _ _ _ Hi). simpl. by rewrite lookup_insert_eq. }
    exists amount, t. split; [apply (in_amount _ _ _ _ _ Hi)|].
    split; [apply (in_positive _ _ _ _ _ Hi)|]. split; [done|]. split; [done|].
    destruct res as [err|]; [by apply Hres|]. destruct Hres as (bal & es & rows & Hp).
    apply posted_by_evolves in Hp as [_ Hp]. by apply Hp.
  - exists amount, d1, rc1, d2. split; [done|]. split; [done|]. by destruct res; [apply Hres|].
Qed.

Lemma exec_body_Ok rc w r w' :
  covers p (ReferenceID (rc_Command rc)) (AccountIDs rc) (w_db w) ->
  balances_in_range (w_db w) ->
  exec_body s p rc w = (Ok r, w') ->
  exists tx, committed rc tx (w_db w) (w_db w') r.
Proof.
  intros Hcov Hwf (tx & amount & w1 & Hi & H)%exec_body_gate. exists tx.
  apply bind_Ok in H as (u & w2 & E2%check_currency_policy_reads & H).
  apply bind_Ok in H as (rc1 & w3 & Hf%consume_fee_quote_Ok & H).
  apply bind_Ok in H as (u' & w4 & E4%check_payin_snapshot_reads & H).
  apply bind_Ok in H as (pre & w5 & Hpre%pre_lock_check_Ok & H).
  rewrite <- E2 in Hf. rewrite <- E4 in Hpre.
  pose proof (fee_applied_command _ _ _ _ _ Hf) as (Eids & _ & Eref & _).
  pose proof (inserted_quiet _ _ _ _ _ Hi) as [S1 _].
  pose proof (quotes_only_quiet tx _ _ (fee_applied_quotes _ _ _ _ _ Hf)) as [S2 _].
  assert (S3 : same_ledger (w_db w) (w_db w3)) by (by etrans).
  eapply (committed_intro _ _ _ _ _ _ (w_db w3)); [done|done|].
  destruct pre as [err|]; [by injection H as <- <-|].
  rewrite <- Hpre. apply post_Ok in H; [done|..]; rewrite Hpre.
  - rewrite Eids, Eref. by eapply covers_same.
  - unfold balances_in_range. destruct S3 as (_ & -> & _). done.
Qed.

(** *** What a commit did to the ledger *)
Lemma committed_posting rc tx d d' :
  committed rc tx d d' None -> exists rows, posting d d' tx rows.
Proof.
  intros [_ _ _ _ (amount & d1 & rc1 & d2 & Hi & Hf & bal & es & rows & Hp)].
  destruct (pb_written _ _ _ _ _ _ _ Hp) as (d3 & d4 & [S3 _] & _ & [S4 _] & W).
  exists rows. eapply posting_same; [|apply (wr_posting _ _ _ _ _ _ W)].
  pose proof (inserted_quiet _ _ _ _ _ Hi) as [S1 _].
  pose proof (quotes_only_quiet tx _ _ (fee_applied_quotes _ _ _ _ _ Hf)) as [S2 _].
  by do 3 (etrans; [done|]).
Qed.

Lemma committed_rejected rc tx d d' err : committed rc tx d d' (Some err) -> same_ledger d d'.
Proof.
  intros [_ _ _ _ (amount & d1 & rc1 & d2 & Hi & Hf & [S3 _])].
  pose proof (inserted_quiet _ _ _ _ _ Hi) as [S1 _].
  pose proof (quotes_only_quiet tx _ _ (fee_applied_quotes _ _ _ _ _ Hf)) as [S2 _].
  by do 2 (etrans; [done|]).
Qed.

Lemma committed_key_taken rc tx d d' res : committed rc tx d d' res -> key_taken rc d'.
Proof.
  intros [_ _ _ (amount & t & _ & _ & Ht & Hh & _) _]. exists tx, t. split; [done|]. left.
  destruct Hh as (_ & _ & _ & _ & _ & _ & _ & _ & _ & _ & -> & _). done.
Qed.

(** A posted transaction of a closing type found its original open, and closed it. *)
Lemma committed_closes rc tx d d' reason :
  committed rc tx d d' None -> lifecycleCloseReason !! Type_ (rc_Command rc) = Some reason ->
  ReferenceID (rc_Command rc) <> tx ->
  exists t t', ledger_transactions d !! ReferenceID (rc_Command rc) = Some t /\
    t_closed_by t = None /\
    ledger_transactions d' !! ReferenceID (rc_Command rc) = Some t' /\
    t_closed_by t' = Some tx /\ t_closed_reason t' = Some reason.
Proof.
  intros [_ _ _ _ (amount & d1 & rc1 & d2 & Hi & Hf & bal & es & rows & Hp)] Hl Hne.
  pose proof (inserted_quiet _ _ _ _ _ Hi) as [_ T1].
  pose proof (quotes_only_quiet tx _ _ (fee_applied_quotes _ _ _ _ _ Hf)) as [_ T2].
  apply fee_applied_command in Hf as (_ & _ & Eref & Ety & _).
  destruct (pb_written _ _ _ _ _ _ _ Hp) as (d3 & d4 & [_ T3] & Hcl & _ & W).
  assert (T : tx_evolves tx d d3) by (do 2 (etrans; [done|]); done).
  unfold closed_original in Hcl. rewrite Ety, Hl, Eref in Hcl. destruct Hcl as (t3 & Ht3 & Ho & ->).
  destruct (te_new _ _ _ T _ _ Ht3) as [?|[t Ht]]; [done|].
  destruct (te_kept _ _ _ T _ _ Ht) as (t3' & Ht3' & _ & Hco & _).
  rewrite Ht3 in Ht3'. injection Ht3' as <-.
  exists t, (close_row tx reason t3). split; [done|]. split.
  { destruct (t_closed_by t) eqn:E; [|done]. exfalso. unfold closed_once in Hco. rewrite E in Hco.
    destruct Hco as [Hco _]; [done|]. congruence. }
  split; [|done]. rewrite (wr_header _ _ _ _ _ _ W), lookup_alter_ne by done. simpl.
  by rewrite lookup_insert_eq.
Qed.

(** ** execTransfer and the retry loop *)
Definition verdict (res : option error) : result unit :=
  match res with None => Ok tt | Some err => Err err end.

Lemma execTransfer_db rc w r w' :
  covers p (ReferenceID (rc_Command rc)) (AccountIDs rc) (w_db w) ->
  balances_in_range (w_db w) ->
  execTransfer s p rc w = (r, w') ->
  (w_db w' = w_db w /\ r <> Ok tt)
  \/ exists tx res, committed rc tx (w_db w) (w_db w') res /\
       (r = verdict res \/ exists e, r = Err (Wrap "commit tx" e)).
Proof.
  intros Hcov Hwf H. unfold execTransfer, bind in H.
  destruct (WithTx (exec_body s p rc) w) as [r0 w1] eqn:Hw.
  destruct (WithTx_db _ _ _ _ Hw) as [[E Hno]|(a & w2 & w3 & E2 & Hb & E3 & _ & Hr)].
  - left. destruct r0 as [res|e|]; [by destruct (Hno res)|..]; injection H as <- <-; done.
  - right. rewrite <- E2 in Hcov, Hwf. apply exec_body_Ok in Hb as (tx & Hc); [|done..].
    rewrite <- E3, E2 in Hc. exists tx, a. destruct Hr as [->|[i ->]].
    + destruct a as [err|]; injection H as <- <-; auto.
    + injection H as <- <-. eauto.
Qed.

(** A key that is in the database keeps every later attempt from committing. *)
Lemma execTransfer_present rc w r w' :
  key_taken rc (w_db w) -> execTransfer s p rc w = (r, w') -> w_db w' = w_db w /\ r <> Ok tt.
Proof.
  intros Hd H. unfold execTransfer, bind in H.
  destruct (WithTx (exec_body s p rc) w) as [r0 w1] eqn:Hw.
  destruct (WithTx_db _ _ _ _ Hw) as [[E Hno]|(a & w2 & w3 & E2 & Hb & _)].
  - destruct r0 as [res|e|]; [by destruct (Hno res)|..]; injection H as <- <-; done.
  - apply exec_body_unique in Hb. by rewrite E2 in Hb.
Qed.

Lemma wait_step (b : bool) w r w' :
  (if b then wait_backoff else ret tt) w = (r, w') -> w_db w' = w_db w.
Proof.
  intros H. symmetry. revert H. destruct b; [|by intros [= _ <-]].
  apply (frames_wait_backoff eq).
Qed.

Lemma transfer_loop_present rc n k le w r w' :
  key_taken rc (w_db w) -> transfer_loop s p rc n k le w = (r, w') ->
  w_db w' = w_db w /\ r <> Ok tt.
Proof.
  revert k le w. induction n as [|n IH]; intros k le w Hd H; simpl in H.
  { by injection H as <- <-. }
  unfold bind at 1 in H. destruct ((if (0 <? k)%nat then wait_backoff else ret tt) w) as [[u|e|] w1] eqn:Ew;
    pose proof (wait_step _ _ _ _ Ew) as E1; [|by injection H as <- <-..].
  unfold bind, try in H. rewrite <- E1 in Hd.
  destruct (execTransfer s p rc w1) as [[[]|e|] w2] eqn:Ex;
    destruct (execTransfer_present rc w1 _ _ Hd Ex) as [E2 Hr]; [done| |].
  - destruct (IsRetryable e); simpl in H; [|injection H as <- <-; by rewrite E2].
    rewrite <- E2 in Hd. apply IH in H as [-> ?]; [|done]. by rewrite E2.
  - injection H as <- <-. by rewrite E2.
Qed.

(** At most one commit, whatever fails and however often it is retried. *)
Lemma transfer_loop_db rc n k le w r w' :
  covers p (ReferenceID (rc_Command rc)) (AccountIDs rc) (w_db w) ->
  balances_in_range (w_db w) ->
  transfer_loop s p rc n k le w = (r, w') ->
  (w_db w' = w_db w /\ r <> Ok tt)
  \/ exists tx res, committed rc tx (w_db w) (w_db w') res /\ (r = Ok tt -> res = None).
Proof.
  revert k le w. induction n as [|n IH]; intros k le w Hcov Hwf H; simpl in H.
  { left. by injection H as <- <-. }
  unfold bind at 1 in H. destruct ((if (0 <? k)%nat then wait_backoff else ret tt) w) as [[u|e|] w1] eqn:Ew;
    pose proof (wait_step _ _ _ _ Ew) as E1; [|left; by injection H as <- <-..].
  rewrite <- E1 in Hcov, Hwf |- *. clear E1 Ew w. unfold bind, try in H.
  destruct (execTransfer s p rc w1) as [r1 w2] eqn:Ex.
  destruct (execTransfer_db rc w1 _ _ Hcov Hwf Ex) as [[E2 Hr]|(tx & res & Hc & Hr)].
  - destruct r1 as [[]|e|]; [done| |].
    + destruct (IsRetryable e); simpl in H; [|left; by injection H as <- <-].
      rewrite <- E2 in *. by eapply IH.
    + left. by injection H as <- <-.
  - right. exists tx, res. destruct r1 as [[]|e|]; simpl in H.
    + injection H as <- <-. split; [done|]. by destruct Hr as [Hr|[e He]]; [destruct res|].
    + destruct (IsRetryable e); simpl in H.
      * apply transfer_loop_present in H as [-> ?]; [done|by eapply committed_key_taken].
      * by injection H as <- <-.
    + by destruct Hr as [Hr|[e He]]; [destruct res|].
Qed.
End engine.
