(* ===== verification/Outcome.v ===== *)
(** * What the answer of the service says about the ledger

    The error analysis of the engine: the only source of [ErrAlreadyPosted] is
    the idempotency gate, which returns it after reading a posted header of the
    same key.  With it, the theorems about [Handle]: at most one step per call,
    and success means posted. *)
From stdpp Require Import prelude gmap strings list.
From S2P Require Import Prelude Decimal Errors Currency Events Store TxRepo Repos AccountRepo.
From S2P Require Import Fee Processors Handle Frames Lawful Postings Invariant Engine.

(** ** The writing operations are honest *)
Section writes.
Context `{DEC : !Decimal} `{UT : !UuidText} `{HASH : !Hashing}.

Lemma apply_system_delta_honest id delta : honest (apply_system_delta id delta).
Proof.
  unfold apply_system_delta. honest. apply honest_stmt. intros d t e. unfold sql_add_delta.
  repeat case_match; intros; simplify_eq; done.
Qed.
Lemma apply_system_deltas_loop_honest ids deltas acc :
  honest (apply_system_deltas_loop ids deltas acc).
Proof.
  revert acc. induction ids as [|id ids IH]; intros acc; simpl; honest.
  apply apply_system_delta_honest.
Qed.
Lemma ApplySystemDeltas_honest deltas : honest (BalanceRepo_ApplySystemDeltas deltas).
Proof.
  unfold BalanceRepo_ApplySystemDeltas. honest. apply apply_system_deltas_loop_honest.
Qed.

Lemma sql_set_balances_honest new b e :
  sql_set_balances new b = inl e -> errors_is e ErrAlreadyPosted = false.
Proof.
  induction new as [|[id z] new IH]; simpl; [done|].
  destruct (sql_set_balances new b) as [e'|[n b']]; [intros [= <-]; by apply IH|].
  destruct (b' !! id) as [row|]; [|done]. destruct (chk_balance_floor _); [done|]. by intros [= <-].
Qed.
Lemma UpdateBalances_honest new : honest (BalanceRepo_UpdateBalances new).
Proof.
  unfold BalanceRepo_UpdateBalances. cbv zeta. honest. apply honest_stmt. intros d t e.
  destruct (sql_set_balances _ _) as [e'|[n b]] eqn:E; intros; simplify_eq.
  by eapply sql_set_balances_honest.
Qed.

Lemma validate_posting_honest tx pl vd vc e :
  validate_posting tx pl vd vc = inl e -> errors_is e ErrAlreadyPosted = false.
Proof.
  revert vd vc. induction pl as [|q pl IH]; intros vd vc; simpl; [done|]. cbv zeta.
  do 2 (destruct (bigint_of_text _); [|by intros [= <-]]).
  destruct (_ <=? 0); [by intros [= <-]|]. destruct (negb _); [by intros [= <-]|].
  destruct (validate_posting tx pl _ _) as [e'|[[rows vd'] vc']] eqn:E; [|done].
  intros [= <-]. by eapply IH.
Qed.
Lemma insert_entry_rows_honest rows d e :
  insert_entry_rows rows d = inl e -> errors_is e ErrAlreadyPosted = false.
Proof.
  revert d. induction rows as [|r rows IH]; intros d; simpl; [done|].
  destruct (entry_currency_ok d r); [|by intros [= <-]]. simpl.
  destruct (existsb _ _); [by intros [= <-]|apply IH].
Qed.
Lemma posting_payload_honest es bal : honest (posting_payload es bal).
Proof. induction es as [|e es IH]; simpl; honest. Qed.
Lemma InsertEntries_honest tx es bal : honest (EntryRepo_InsertEntries tx es bal).
Proof.
  unfold EntryRepo_InsertEntries. honest; [apply posting_payload_honest|].
  apply honest_stmt. intros d t e. unfold fn_post_ledger_entries_bulk.
  case_bool_decide; [by intros [= <-]|]. destruct (_ || _); [by intros [= <-]|].
  destruct (validate_posting _ _ _ _) as [e'|[[rows vd] vc]] eqn:E;
    [intros [= <-]; by eapply validate_posting_honest|].
  destruct (negb _); [by intros [= <-]|].
  destruct (insert_entry_rows _ _) as [e'|d'] eqn:E'; [|done].
  intros [= <-]. by eapply insert_entry_rows_honest.
Qed.

Lemma UpdateStatus_honest id s e : honest (TransactionRepo_UpdateStatus id s e).
Proof. apply honest_stmt. intros d t e'. case_bool_decide; [done|]. by intros [= <-]. Qed.
Lemma CloseOriginal_honest id tx r : honest (TransactionRepo_CloseOriginal id tx r).
Proof.
  apply honest_wrap, honest_stmt. intros d t e. repeat case_match; intros; by simplify_eq.
Qed.
Lemma outbox_rows_honest evs : honest (outbox_rows evs).
Proof. induction evs as [|e evs IH]; simpl; honest. Qed.
Lemma insert_outbox_rows_honest os l e :
  insert_outbox_rows os l = inl e -> errors_is e ErrAlreadyPosted = false.
Proof.
  revert l. induction os as [|o os IH]; intros l; simpl; [done|].
  destruct (existsb _ _); [by intros [= <-]|apply IH].
Qed.
Lemma InsertEvents_honest evs : honest (OutboxRepo_InsertEvents evs).
Proof.
  unfold OutboxRepo_InsertEvents. honest; [apply outbox_rows_honest|].
  apply honest_stmt. intros d t e.
  destruct (insert_outbox_rows _ _) as [e'|l] eqn:E; intros; simplify_eq.
  by eapply insert_outbox_rows_honest.
Qed.
Lemma LockBalances_honest ids : honest (BalanceRepo_LockBalances ids).
Proof. unfold BalanceRepo_LockBalances. honest. Qed.
Lemma GetAccountFlags_honest ids : honest (BalanceRepo_GetAccountFlags ids).
Proof. unfold BalanceRepo_GetAccountFlags. honest. Qed.

Lemma ConsumeQuote_honest q u t c a r : honest (ConsumeQuote q u t c a r).
Proof.
  unfold ConsumeQuote, FeeRepo_TryConsumeQuote, FeeRepo_QuoteExists. honest.
  apply honest_stmt. intros d n e. unfold sql_consume_quote, sql_bigint.
  repeat case_match; intros; by simplify_eq.
Qed.
Lemma ValidateConsumedPayinQuote_honest q u t g c a f fg r :
  honest (ValidateConsumedPayinQuote q u t g c a f fg r).
Proof.
  unfold ValidateConsumedPayinQuote, FeeRepo_ValidateConsumedPayinQuote. honest.
  apply honest_stmt. intros d n e. unfold sql_bigint. repeat case_match; intros; by simplify_eq.
Qed.
Lemma validate_account_ids_honest ids c bal e :
  validate_account_ids ids c bal = Err e -> errors_is e ErrAlreadyPosted = false.
Proof.
  induction ids as [|id ids IH]; simpl; [done|]. repeat case_match; intros; simplify_eq; try done.
  by apply IH.
Qed.
Lemma balanced_totals_honest es x y e :
  balanced_totals es x y = Err e -> errors_is e ErrAlreadyPosted = false.
Proof.
  revert x y. induction es as [|en es IH]; intros x y; simpl; [done|].
  destruct (negb _); [by intros [= <-]|]. destruct (ei_Direction en); apply IH.
Qed.
Lemma validateBalanced_honest es : honest (lift (validateBalanced es)).
Proof.
  apply honest_lift. intros e. unfold validateBalanced.
  destruct (balanced_totals _ _ _) as [[x y]|e'|] eqn:E; [| |done].
  - case_match; by intros [= <-].
  - intros [= <-]. by eapply balanced_totals_honest.
Qed.
End writes.
#[export] Hint Resolve ApplySystemDeltas_honest UpdateBalances_honest InsertEntries_honest
  UpdateStatus_honest CloseOriginal_honest InsertEvents_honest LockBalances_honest
  GetAccountFlags_honest ConsumeQuote_honest ValidateConsumedPayinQuote_honest
  validateBalanced_honest : honest.

(** ** The engine *)
Section engine.
Context `{DEC : !Decimal} `{UT : !UuidText} `{HASH : !Hashing}.
Context (s : Service) (p : TxProcessor) `{!LawfulService s} `{!LawfulProcessor p}.

(** A phase that may end with a recorded rejection: that one is honest too. *)
Definition honest_opt (m : M (option error)) : Prop :=
  honest m /\ forall w e w', m w = (Ok (Some e), w') -> errors_is e ErrAlreadyPosted = false.

Lemma honest_opt_bind {A} (m : M A) (f : A -> M (option error)) :
  honest m -> (forall a, honest_opt (f a)) -> honest_opt (bind m f).
Proof.
  intros Hm Hf. split; [apply honest_bind; [done|]; intros a; apply Hf|].
  intros w e w' (a & w1 & _ & H)%bind_Ok. by eapply Hf.
Qed.
Lemma honest_opt_bind_try {A} (m : M A) (f : error + A -> M (option error)) :
  honest m ->
  (forall e, errors_is e ErrAlreadyPosted = false -> honest_opt (f (inl e))) ->
  (forall a, honest_opt (f (inr a))) -> honest_opt (bind (try m) f).
Proof.
  intros Hm He Ha. split.
  - apply honest_bind_try; [done|intros; by apply He|intros; apply Ha].
  - intros w e w' (r & w1 & Hr & H)%bind_Ok.
    apply try_Ok in Hr as [(a & -> & _)|(e' & -> & Hr)]; [by eapply Ha|].
    eapply He; [by eapply Hm|done].
Qed.
Lemma honest_opt_ret r :
  (forall e, r = Some e -> errors_is e ErrAlreadyPosted = false) -> honest_opt (ret r).
Proof. intros Hr. split; [apply honest_ret|]. intros w e w' [= -> _]. by apply Hr. Qed.
Lemma honest_opt_fail e : errors_is e ErrAlreadyPosted = false -> honest_opt (fail e).
Proof. intros He. split; [by apply honest_fail|]. by intros w e' w' [=]. Qed.

Lemma currency_business_honest err :
  errors_is err ErrAlreadyPosted = false ->
  errors_is (currencyPolicyBusinessError err) ErrAlreadyPosted = false.
Proof.
  intros He. unfold currencyPolicyBusinessError.
  destruct (list_find _ _) as [[i x]|] eqn:E; [|done].
  apply list_find_Some in E as (Hx & _ & _). simpl. apply bool_decide_eq_false.
  intros <-. apply list_elem_of_lookup_2 in Hx. revert Hx. vm_compute. set_solver.
Qed.

Lemma check_currency_policy_honest rc : honest (check_currency_policy s rc).
Proof.
  unfold check_currency_policy. destruct (currencyValidator s) as [v|] eqn:E; honest.
  - by apply ls_validator_honest.
  - apply honest_fail. by apply currency_business_honest.
Qed.
Lemma consume_fee_quote_honest rc tx : honest (consume_fee_quote s rc tx).
Proof. unfold consume_fee_quote. cbv zeta. honest. Qed.
Lemma check_payin_snapshot_honest rc : honest (check_payin_snapshot s rc).
Proof. unfold check_payin_snapshot, check_topup_snapshot, mismatch. cbv zeta. honest. Qed.
Lemma pre_lock_check_honest rc tx : honest_opt (pre_lock_check p rc tx).
Proof.
  unfold pre_lock_check. destruct (ValidateBeforeBalanceLocks p) as [f|] eqn:E;
    [|by apply honest_opt_ret].
  apply honest_opt_bind_try; [by eapply lp_pre_honest| |intros; by apply honest_opt_ret].
  intros e He. destruct (negb _); [by apply honest_opt_fail|].
  apply honest_opt_bind; [apply honest_wrap, UpdateStatus_honest|].
  intros _. apply honest_opt_ret. by intros e' [= <-].
Qed.
Lemma close_original_honest rc tx : honest_opt (close_original rc tx).
Proof.
  unfold close_original. destruct (lifecycleCloseReason !! _); [|by apply honest_opt_ret].
  apply honest_opt_bind; [apply honest_wrap, CloseOriginal_honest|]. intros n.
  destruct (n =? 0); [|by apply honest_opt_ret].
  apply honest_opt_bind; [apply honest_wrap, UpdateStatus_honest|].
  intros _. apply honest_opt_ret. by intros e [= <-].
Qed.
Lemma write_postings_honest rc tx ub sys es : honest (write_postings s p rc tx ub sys es).
Proof.
  unfold write_postings. destruct (splitEntriesByAccount _ _).
  unfold check_source_write, write_projection.
  destruct (projectionWriter s) as [pw|] eqn:E; honest.
  - by apply ls_source_honest.
  - by apply ls_projection_honest.
Qed.
Lemma post_honest rc tx : honest_opt (post s p rc tx).
Proof.
  unfold post. apply honest_opt_bind; [honest|]. intros flags. cbv zeta.
  apply honest_opt_bind; [honest|]. intros ub.
  apply honest_opt_bind.
  { apply honest_lift. apply validate_account_ids_honest. }
  intros _. apply honest_opt_bind_try; [apply lp_Validate_honest| |].
  - intros e He. apply honest_opt_bind; [apply honest_wrap, UpdateStatus_honest|].
    intros _. apply honest_opt_ret. by intros e' [= <-].
  - intros u.
    assert (Hpost : honest_opt
      (let! es := wrap "build entries" (BuildEntries p rc (merge_balances ub flags (system_ids flags (AccountIDs rc)))) in
       let! _ := lift (validateBalanced es) in
       let! _ := write_postings s p rc tx ub (system_ids flags (AccountIDs rc)) es in ret None)).
    { apply honest_opt_bind; [apply honest_wrap, lp_BuildEntries_honest|]. intros es.
      apply honest_opt_bind; [apply validateBalanced_honest|]. intros _.
      apply honest_opt_bind; [apply write_postings_honest|]. intros _. by apply honest_opt_ret. }
    pose proof (close_original_honest rc tx) as [Hc Hs]. split.
    + apply honest_bind; [done|]. intros [b|]; [apply honest_ret|apply Hpost].
    + intros w e w' ([b|] & w1 & Hcl & H)%bind_Ok; [|by eapply Hpost].
      injection H as -> _. by eapply Hs.
Qed.

(** *** The idempotency gate's answers *)

(** A posted header of the command's key, carrying the command's fingerprint
    (or none, in rows older than the fingerprint column). *)
Definition posted_key (rc : ResolvedCommand) (d : database) : Prop :=
  let c := rc_Command rc in
  exists id t, ledger_transactions d !! id = Some t /\ t_status t = "posted" /\
    (t_key_digest t = Some (key_digest s rc).1
     \/ t_idempotency_key t = Some (IdempotencyKey c)
        /\ t_idempotency_scope t = stringPtr (IdempotencyScope c)) /\
    (default EmptyString (t_fingerprint t) = EmptyString
     \/ t_fingerprint t = Some (fingerprint rc)).

Lemma first_tx_Some P d t :
  first_tx P d = Some t -> exists id, ledger_transactions d !! id = Some t /\ P t = true.
Proof.
  unfold first_tx. intros ([i x] & H & ->)%fmap_Some. simpl.
  apply list_find_Some in H as (Hi & HP & _).
  apply list_elem_of_lookup_2, list_elem_of_fmap in Hi as ([id y] & -> & Hy).
  exists id. by rewrite elem_of_map_to_list in Hy.
Qed.

Lemma FindConflictOrDuplicate_Ok rc w status conflict w' :
  TransactionRepo_FindConflictOrDuplicate (digestRing s) (IdempotencyKey (rc_Command rc))
    (stringPtr (IdempotencyScope (rc_Command rc))) (Type_ (rc_Command rc))
    (Amount (rc_Command rc)) (rc_Currency rc) w = (Ok (status, conflict), w') ->
  status = "posted" -> conflict = false -> posted_key rc (w_db w).
Proof.
  unfold TransactionRepo_FindConflictOrDuplicate.
  rewrite (surjective_pairing (Digest _ _)). intros H -> ->.
  apply bind_Ok in H as (r1 & w1 & (t1 & -> & E1)%query_Ok & H).
  apply bind_Ok in H as (r2 & w2 & Hr & H).
  assert (Hfound : forall t, r2 = Some t -> exists id, ledger_transactions (w_db w) !! id = Some t /\
    (t_key_digest t = Some (key_digest s rc).1
     \/ t_idempotency_key t = Some (IdempotencyKey (rc_Command rc))
        /\ t_idempotency_scope t = stringPtr (IdempotencyScope (rc_Command rc)))).
  { intros t ->. destruct (first_tx (same_digest _) _) as [t0|] eqn:Ef.
    - injection Hr as <- _. apply first_tx_Some in Ef as (id & Hid & Hd).
      apply bool_decide_eq_true in Hd. eauto.
    - apply query_Ok in Hr as (t2 & Hr & _). symmetry in Hr. rewrite E1 in Hr.
      apply first_tx_Some in Hr as (id & Hid & [Hk Hs]%andb_true_iff).
      apply bool_decide_eq_true in Hk, Hs. eauto 6. }
  destruct r2 as [t|]; [|done]. destruct (Hfound t eq_refl) as (id & Hid & Hkey).
  injection H as Hst Hc _. exists id, t. split_and!; try done.
  destruct (t_fingerprint t) as [f|]; [|by left]. simpl in *.
  apply andb_false_iff in Hc as [Hc|Hc].
  - left. unfold len in Hc. destruct f; [done|]. apply Z.ltb_ge in Hc. simpl in Hc. lia.
  - right. apply negb_false_iff, bool_decide_eq_true in Hc. by rewrite Hc.
Qed.

Lemma handleDuplicate_posted rc w e w' :
  handleDuplicate s rc w = (Err e, w') -> errors_is e ErrAlreadyPosted = true ->
  e = Sentinel ErrAlreadyPosted /\ posted_key rc (w_db w).
Proof.
  unfold handleDuplicate. intros [H|([status conflict] & w1 & Hf%wrap_Ok & H)]%bind_Err Hp.
  - exfalso. revert H Hp. intros H.
    assert (Hh : honest (wrap "lookup duplicate" (TransactionRepo_FindConflictOrDuplicate
      (digestRing s) (IdempotencyKey (rc_Command rc))
      (stringPtr (IdempotencyScope (rc_Command rc))) (Type_ (rc_Command rc))
      (Amount (rc_Command rc)) (rc_Currency rc)))).
    { unfold TransactionRepo_FindConflictOrDuplicate. honest. }
    rewrite (Hh _ _ _ H). done.
  - case_bool_decide as H1; [injection H as <- _; done|].
    destruct conflict; [injection H as <- _; done|].
    case_bool_decide as H2;
      [injection H as <- _; split; [done|by eapply FindConflictOrDuplicate_Ok]|].
    case_bool_decide; injection H as <- _; done.
Qed.

(** The savepoint protects the database the gate reads. *)
Lemma Insert_Err ring q w e w' :
  TransactionRepo_Insert ring q w = (Err e, w') ->
  w_db w' = w_db w /\ w_savepoint w' = w_savepoint w.
Proof.
  unfold TransactionRepo_Insert. rewrite (surjective_pairing (Digest _ _)).
  unfold bind, try, stmt. pose proof (next_call_db w) as E.
  assert (Es : w_savepoint (next_call w).2 = w_savepoint w)
    by (unfold next_call; by destruct (w_calls w)).
  destruct (next_call w) as [o w1]. simpl in E, Es.
  destruct o; [destruct (w_aborted w1); [|destruct (sql_insert_transaction _ _ _ _ _ _) as [e1|[a d]]]|..];
    try (destruct (isCurrencyConstraintError _)); intros [= _ <-]; done.
Qed.

Lemma Insert_honest ring q : honest (TransactionRepo_Insert ring q).
Proof.
  unfold TransactionRepo_Insert. rewrite (surjective_pairing (Digest _ _)). honest.
  apply honest_stmt. intros d t e. unfold sql_insert_transaction, sql_bigint.
  repeat case_match; intros; by simplify_eq.
Qed.

Lemma rollback_restores w r w' :
  ignore_error rollback_to_savepoint w = (r, w') -> w_savepoint w = Some (w_db w) ->
  w_db w' = w_db w.
Proof.
  intros H Hs. unfold ignore_error, bind, try, rollback_to_savepoint in H.
  pose proof (next_call_db w) as E.
  assert (Es : w_savepoint (next_call w).2 = w_savepoint w)
    by (unfold next_call; by destruct (w_calls w)).
  destruct (next_call w) as [o w1]. simpl in E, Es. rewrite Es, Hs in H.
  destruct o; injection H as _ <-; done.
Qed.

Lemma ignore_error_honest m : honest (ignore_error m).
Proof. unfold ignore_error. apply honest_bind; [apply honest_try|]. intros; apply honest_ret. Qed.

Lemma savepoint_honest : honest savepoint.
Proof.
  intros w e w' H. unfold savepoint in H.
  destruct (stmt _ w) as [[[]|e1|] w1] eqn:E; [done| |done].
  injection H as <- _. by eapply (honest_stmt (fun d _ => inr (tt, d))).
Qed.

Lemma savepoint_Ok w u w' :
  savepoint w = (Ok u, w') -> w_db w' = w_db w /\ w_savepoint w' = Some (w_db w').
Proof.
  unfold savepoint. intros H. destruct (stmt _ _) as [[[]|e1|] w1] eqn:Es; [|done..].
  injection H as _ <-. apply stmt_Ok in Es as (t & [= Es] & _). done.
Qed.

(** Everything behind the gate. *)
Lemma after_gate_honest rc tx : honest_opt
  (let! _ := ignore_error release_savepoint in
   let! _ := check_currency_policy s rc in
   let! rc1 := consume_fee_quote s rc tx in
   let! _ := check_payin_snapshot s rc1 in
   let! pre := pre_lock_check p rc1 tx in
   match pre with
   | Some err => ret (Some err)
   | None => post s p rc1 tx
   end).
Proof.
  apply honest_opt_bind; [apply ignore_error_honest|]. intros _.
  apply honest_opt_bind; [apply check_currency_policy_honest|]. intros _.
  apply honest_opt_bind; [apply consume_fee_quote_honest|]. intros rc1.
  apply honest_opt_bind; [apply check_payin_snapshot_honest|]. intros _.
  pose proof (pre_lock_check_honest rc1 tx) as [Hc Hs].
  pose proof (post_honest rc1 tx) as [Hp Hq]. split.
  - apply honest_bind; [done|]. intros [b|]; [apply honest_ret|done].
  - intros w e w' ([b|] & w1 & Hcl & H)%bind_Ok; [|by eapply Hq].
    injection H as -> _. by eapply Hs.
Qed.

(** Neither an error of the callback nor a rejection it records claims
    success, unless the gate read a posted header of the key. *)
Lemma exec_body_claims rc w r e w' :
  exec_body s p rc w = (r, w') -> r = Err e \/ r = Ok (Some e) ->
  errors_is e ErrAlreadyPosted = true ->
  r = Err e /\ e = Sentinel ErrAlreadyPosted /\ posted_key rc (w_db w).
Proof.
  unfold exec_body. intros H Hr Hp. unfold bind at 1 in H. cbn [NewV7] in H.
  unfold bind at 1 in H. set (w0 := set_ids _ _) in H. change (w_db w) with (w_db w0).
  destruct (wrap _ savepoint w0) as [[u|e0|] w1] eqn:Es;
    [apply wrap_Ok, savepoint_Ok in Es as [E1 Esp]| |destruct Hr; by simplify_eq].
  2: { destruct Hr; simplify_eq. by rewrite (honest_wrap _ _ savepoint_honest _ _ _ Es) in Hp. }
  unfold bind at 1, try at 1 in H. rewrite <- E1.
  destruct (TransactionRepo_Insert _ _ w1) as [[u'|e1|] w2] eqn:Ei.
  - pose proof (after_gate_honest rc (w_ids w (w_next_id w))) as [Hh Ho].
    destruct Hr as [->| ->]; [by rewrite (Hh _ _ _ H) in Hp|by rewrite (Ho _ _ _ H) in Hp].
  - pose proof (Insert_Err _ _ _ _ _ Ei) as [E2 Es2].
    unfold bind at 1 in H. destruct (ignore_error rollback_to_savepoint w2) as [[u2|e2|] w3] eqn:Er;
      [|destruct Hr; simplify_eq; by rewrite (ignore_error_honest _ _ _ _ Er) in Hp
       |destruct Hr; by simplify_eq].
    apply rollback_restores in Er as E3; [|by rewrite Es2, E2].
    destruct (IsDuplicateKey e1); cbn [negb] in H.
    + destruct Hr as [->| ->]; [|by apply handleDuplicate_fails in H].
      split; [done|]. rewrite <- E2, <- E3. by eapply handleDuplicate_posted.
    + exfalso. destruct Hr as [->|Hr]; [|by simplify_eq]. injection H as <- _.
      simpl in Hp. by rewrite (Insert_honest _ _ _ _ _ Ei) in Hp.
  - destruct Hr; by simplify_eq.
Qed.

Lemma execTransfer_claims rc w e w' :
  execTransfer s p rc w = (Err e, w') -> errors_is e ErrAlreadyPosted = true ->
  w_db w' = w_db w /\ e = Sentinel ErrAlreadyPosted /\ posted_key rc (w_db w).
Proof.
  unfold execTransfer. intros [H|(res & w1 & Hw & H)]%bind_Err Hp.
  - apply WithTx_Err in H as [Hh|(w1 & w2 & E1 & Hb & E2)]; [by rewrite Hh in Hp|].
    split; [done|]. rewrite <- E1. eapply exec_body_claims; [done|by left|done].
  - destruct res as [err|]; [|done]. injection H as -> <-. exfalso.
    apply WithTx_db in Hw as [[_ Hno]|(a & w2 & w3 & E2 & Hb & _ & _ & [[= <-]|[i [=]]])];
      [by destruct (Hno (Some e))|].
    by destruct (exec_body_claims _ _ _ _ _ Hb (or_intror eq_refl) Hp) as [[=] _].
Qed.

Lemma wait_backoff_honest (b : bool) : honest (if b then wait_backoff else ret tt).
Proof.
  destruct b; [|apply honest_ret]. intros w e w' H. unfold wait_backoff in H.
  destruct (next_call w) as [o w1]. destruct o; by simplify_eq.
Qed.

(** The loop claims success only over a posted header, and then changed
    nothing in the attempt that claims it. *)
Lemma transfer_loop_claims rc n k le w e w' :
  errors_is le ErrAlreadyPosted = false ->
  transfer_loop s p rc n k le w = (Err e, w') -> errors_is e ErrAlreadyPosted = true ->
  posted_key rc (w_db w').
Proof.
  revert k le w. induction n as [|n IH]; intros k le w Hle H Hp; simpl in H.
  { injection H as <- _. simpl in Hp. congruence. }
  apply bind_Err in H as [H|(u & w1 & Ew & H)];
    [by rewrite (wait_backoff_honest _ _ _ _ H) in Hp|].
  apply bind_Err in H as [H|(r & w2 & Hr & H)]; [by rewrite (honest_try _ _ _ _ H) in Hp|].
  apply try_Ok in Hr as [([] & -> & _)|(e1 & -> & Hx)]; [done|].
  destruct (IsRetryable e1) eqn:Er; simpl in H.
  - destruct (errors_is e1 ErrAlreadyPosted) eqn:E1; [|by eapply IH].
    by destruct (execTransfer_claims _ _ _ _ Hx E1) as (_ & -> & _).
  - injection H as -> <-. by destruct (execTransfer_claims _ _ _ _ Hx Hp) as (-> & _ & ?).
Qed.
End engine.

(** ** Handle *)
Section handle.
Context `{DEC : !Decimal} `{UT : !UuidText} `{HASH : !Hashing}.

Lemma deduplicate_from_spec seen ids :
  NoDup (deduplicate_from seen ids) /\
  forall x, x ∈ deduplicate_from seen ids <-> x ∈ ids /\ x ∉ seen.
Proof.
  revert seen. induction ids as [|id ids IH]; intros seen; simpl.
  - split; [constructor|]. intros x. split; [by intros ?%not_elem_of_nil|].
    by intros [?%not_elem_of_nil _].
  - case_bool_decide as Hs; [destruct (IH seen) as [Hn He]|destruct (IH ({[id]} ∪ seen)) as [Hn He]].
    + split; [done|]. intros x. rewrite He, elem_of_cons. naive_solver.
    + split.
      * constructor; [|done]. rewrite He. set_solver.
      * intros x. rewrite !elem_of_cons, He, not_elem_of_union, not_elem_of_singleton.
        destruct (decide (x = id)); naive_solver.
Qed.
Lemma deduplicate_NoDup ids : NoDup (deduplicate ids).
Proof. apply deduplicate_from_spec. Qed.
Lemma elem_of_deduplicate ids x : x ∈ deduplicate ids <-> x ∈ ids.
Proof. unfold deduplicate. rewrite (proj2 (deduplicate_from_spec ∅ ids)). set_solver. Qed.

(** The contract of a service: its collaborators and every registered type. *)
Class LawfulRegistry (r : ProcessorRegistry) : Prop := {
  lr_processor t p : r !! t = Some p -> LawfulProcessor p;
  lr_type t p : r !! t = Some p -> Type__ p = t;
}.

Context (s : Service) `{!LawfulService s} `{!LawfulRegistry (registry_ s)}.

(** What the resolved command keeps of the command. *)
Record resolves (cmd : Command) (rc : ResolvedCommand) : Prop := {
  rs_key : IdempotencyKey (rc_Command rc) = IdempotencyKey cmd;
  rs_scope : IdempotencyScope (rc_Command rc) = IdempotencyScope cmd;
  rs_type : Type_ (rc_Command rc) = Type_ cmd;
  rs_amount : Amount (rc_Command rc) = Amount cmd;
  rs_user : UserID (rc_Command rc) = UserID cmd;
  rs_reference : ReferenceID (rc_Command rc) = ReferenceID cmd;
  rs_quote : QuoteID (rc_Command rc) = QuoteID cmd;
  rs_nodup : NoDup (AccountIDs rc);
  rs_meta : meta_kept (Metadata cmd) (Metadata (rc_Command rc));
}.

Lemma peek_quote_Ok cmd w cmd' w' :
  peek_quote s cmd w = (Ok cmd', w') ->
  w_db w' = w_db w /\ (cmd' = cmd \/ exists fee gw, cmd' = set_fee cmd fee gw).
Proof.
  unfold peek_quote. destruct (_ && _); [|intros [= <- <-]; auto].
  destruct (uuid_parse _); [|intros [= <- <-]; auto].
  intros (r & w1 & Hr & H)%bind_Ok.
  assert (E : w_db w = w_db w1) by (by eapply (frames_try eq _ (GetQuote_reads _ _))).
  destruct r; injection H as <- <-; rewrite E; eauto.
Qed.
Lemma peek_quote_reads cmd : reads (peek_quote s cmd).
Proof. unfold peek_quote. frame. Qed.

Lemma resolve_command_Ok cmd ra c rc :
  resolve_command cmd ra c = Ok rc ->
  resolves cmd rc /\ AccountIDs rc = deduplicate (Ordered ra) /\ rc_Currency rc = TrimSpace c.
Proof.
  unfold resolve_command. do 3 (destruct (_ && _); [done|]). intros [= <-].
  split; [|done]. split; try done. apply deduplicate_NoDup.
Qed.

Lemma resolves_set_fee cmd fee gw rc : resolves (set_fee cmd fee gw) rc -> resolves cmd rc.
Proof.
  intros [? ? ? ? ? ? ? ? Hm]. split; try done. intros k H1 H2.
  rewrite (Hm k H1 H2). by apply set_fee_meta.
Qed.

Lemma Registry_Get_Ok t w p w' :
  Registry_Get (registry_ s) t w = (Ok p, w') -> registry_ s !! t = Some p /\ w' = w.
Proof. unfold Registry_Get. destruct (registry_ s !! t); [|done]. by intros [= -> <-]. Qed.

(** The part of [Handle] around the transfer only reads. *)
Lemma Handle_inv cmd w r w' :
  Handle s cmd w = (r, w') ->
  (w_db w' = w_db w /\ r <> Ok tt) \/
  exists p rc w1 r1 w2,
    registry_ s !! Type_ cmd = Some p /\ resolves cmd rc /\ w_db w1 = w_db w /\
    covers p (ReferenceID (rc_Command rc)) (AccountIDs rc) (w_db w1) /\
    transfer s p rc w1 = (r1, w2) /\ w_db w' = w_db w2 /\
    (r = Ok tt -> r1 = Ok tt \/ exists e, r1 = Err e /\ errors_is e ErrAlreadyPosted = true).
Proof.
  unfold Handle. intros H. unfold bind at 1, lift in H.
  destruct (precheck s cmd) as [[]|e|]; [|left; by injection H as <- <-..].
  unfold bind at 1 in H.
  destruct (Registry_Get (registry_ s) (Type_ cmd) w) as [[p|e|] w1] eqn:Eg.
  2,3: left; injection H as <- <-; unfold Registry_Get, ret, fail in Eg;
       destruct (registry_ s !! Type_ cmd); by simplify_eq.
  apply Registry_Get_Ok in Eg as [Ep ->]. pose proof (lr_processor _ _ Ep) as Lp.
  unfold bind at 1 in H.
  destruct (peek_quote s cmd w) as [[cmd'|e|] w2] eqn:Eq;
    pose proof (peek_quote_reads _ _ _ _ Eq) as E2; [|left; by injection H as <- <-..].
  unfold bind at 1 in H.
  destruct (wrap _ (ValidateCommand p cmd') w2) as [[u|e|] w3] eqn:Ev;
    pose proof (frames_wrap eq _ _ (lp_ValidateCommand cmd') _ _ _ Ev) as E3;
    [|left; injection H as <- <-; by rewrite E2, E3..].
  unfold bind at 1 in H.
  destruct (wrap _ (ResolveAccounts p cmd') w3) as [[[ra c]|e|] w4] eqn:Er;
    pose proof (frames_wrap eq _ _ (lp_ResolveAccounts cmd') _ _ _ Er) as E4;
    [|left; injection H as <- <-; by rewrite E2, E3, E4..].
  assert (E : w_db w4 = w_db w) by (by rewrite E2, E3, E4).
  unfold bind at 1 in H.
  destruct (resolve_command cmd' ra c) as [rc|e|] eqn:Erc; [|left; by injection H as <- <-..].
  unfold bind at 1, try in H. destruct (transfer s p rc w4) as [r1 w5] eqn:Et.
  right. exists p, rc, w4, r1, w5.
  apply resolve_command_Ok in Erc as (Hrc & Eids & _).
  apply peek_quote_Ok in Eq as [_ Hcmd].
  apply wrap_Ok, lp_covers in Er as Hcov. rewrite E4 in Hcov.
  split; [done|]. split.
  { destruct Hcmd as [->|(fee & gw & ->)]; [done|by eapply resolves_set_fee]. }
  split; [done|]. split.
  { intros Ht x Hx. rewrite Eids, elem_of_deduplicate. apply (Hcov Ht).
    by rewrite <- (rs_reference _ _ Hrc). }
  split; [done|]. destruct r1 as [[]|e|]; cbn in H.
  - split; [|auto].
    by rewrite (frames_ignore_error eq _ (lp_AfterCommit (rc_Command rc)) _ _ _ H).
  - destruct (errors_is e ErrAlreadyPosted) eqn:Ea; injection H as <- <-; eauto.
  - injection H as <- <-. by split.
Qed.

(** One call, at most one step. *)
Lemma Handle_step cmd w r w' :
  balances_in_range (w_db w) -> Handle s cmd w = (r, w') ->
  w_db w' = w_db w \/
  exists p rc tx res, registry_ s !! Type_ cmd = Some p /\ resolves cmd rc /\
    committed s p rc tx (w_db w) (w_db w') res /\ (r = Ok tt -> res = None \/ posted_key s rc (w_db w')).
Proof.
  intros Hwf H. apply Handle_inv in H as [[E _]|(p & rc & w1 & r1 & w2 & Ep & Hrc & E1 & Hcov & Ht & E2 & Hr)];
    [by left|].
  pose proof (lr_processor _ _ Ep) as Lp.
  assert (Hwf1 : balances_in_range (w_db w1)) by (by rewrite E1).
  destruct (transfer_loop_db s p rc _ _ _ _ _ _ Hcov Hwf1 Ht) as [[E _]|(tx & res & Hc & Hres)].
  { left. by rewrite E2, E. }
  right. exists p, rc, tx, res. rewrite E1, <- E2 in Hc. split_and!; try done.
  intros Hok. destruct (Hr Hok) as [->|(e & -> & He)]; [left; by apply Hres|right].
  rewrite E2. by eapply (transfer_loop_claims s p rc _ _ (Plain "nil")).
Qed.

(** Success means posted. *)
Lemma Handle_success cmd w w' :
  balances_in_range (w_db w) -> Handle s cmd w = (Ok tt, w') ->
  exists rc, resolves cmd rc /\ posted_key s rc (w_db w').
Proof.
  intros Hwf H. apply Handle_inv in H as [[_ []]|(p & rc & w1 & r1 & w2 & Ep & Hrc & E1 & Hcov & Ht & E2 & Hr)];
    [done|].
  pose proof (lr_processor _ _ Ep) as Lp. exists rc. split; [done|]. rewrite E2.
  destruct (Hr eq_refl) as [->|(e & -> & He)];
    [|by eapply (transfer_loop_claims s p rc _ _ (Plain "nil"))].
  assert (Hwf1 : balances_in_range (w_db w1)) by (by rewrite E1).
  destruct (transfer_loop_db s p rc _ _ _ _ _ _ Hcov Hwf1 Ht) as [[_ []]|(tx & res & Hc & Hres)];
    [done|]. rewrite Hres in Hc by done.
  destruct (co_header _ _ _ _ _ _ _ Hc) as (amount & t & _ & _ & Ht' & Hh & Hst).
  exists tx, t. destruct Hh as (_ & _ & _ & _ & _ & _ & _ & _ & _ & _ & Ed & _ & Ef).
  split_and!; [done|done|left; by rewrite Ed|right; by rewrite Ef].
Qed.
End handle.
