(* ===== verification/FxFacts.v ===== *)
(** * A conversion is two postings

    The write phase of executeConversion, inverted: the rows of each leg are one
    balanced posting in its own currency, and together they move the four balances
    by exactly the amounts of the quote. *)
From stdpp Require Import prelude gmap strings list sorting.
From S2P Require Import Prelude Decimal Errors Currency Events Money Store TxRepo Repos AccountRepo.
From S2P Require Import Fee Processors ProcFx FxRepo Fx Frames Lawful Postings Invariant Engine.
Open Scope Z_scope.

(** ** One debit and one credit *)
Section pair.
Context (tx x y : uuid) (amount : Z) (rx ry : entry_row).

(** The two rows of a movement of [amount] from [x] to [y]. *)
Record pair_rows : Prop := {
  pr_tx : e_transaction_id rx = tx /\ e_transaction_id ry = tx;
  pr_accounts : e_account_id rx = x /\ e_account_id ry = y;
  pr_directions : e_direction rx = Debit /\ e_direction ry = Credit;
  pr_amounts : e_amount rx = amount /\ e_amount ry = amount;
}.
Context (P : pair_rows) (Hne : x <> y).

Lemma pair_balance a :
  computed_balance a [rx; ry] = if decide (a = x) then - amount else if decide (a = y) then amount else 0.
Proof.
  destruct P as [_ [Ex Ey] [Dx Dy] [Ax Ay]]. unfold computed_balance, entry_delta, entry_signed. simpl.
  rewrite Ex, Ey, Dx, Dy, Ax, Ay. repeat case_decide; subst; simpl; done || lia.
Qed.

(** What a posting needs of the database when it consists of these rows. *)
Lemma pair_posting d d' c bx by_ :
  accounts d' = accounts d -> ledger_entries d' = ledger_entries d ++ [rx; ry] ->
  entries_of_tx tx (ledger_entries d) = [] -> 0 < amount -> in_int64 amount = true ->
  (forall a, a ∈ [x; y] -> exists r, accounts d !! a = Some r /\ a_currency r = c) ->
  account_balances d !! x = Some bx -> account_balances d !! y = Some by_ ->
  account_balances d' !! x = Some (BalanceRow (b_balance bx - amount) (b_allow_negative bx)) ->
  account_balances d' !! y = Some (BalanceRow (b_balance by_ + amount) (b_allow_negative by_)) ->
  (forall a, a <> x -> a <> y -> account_balances d' !! a = account_balances d !! a) ->
  e_balance_after rx = b_balance bx - amount -> e_balance_after ry = b_balance by_ + amount ->
  in_int64 (e_balance_after rx) = true -> in_int64 (e_balance_after ry) = true ->
  (forall a b, a ∈ [x; y] -> account_balances d' !! a = Some b -> chk_balance_floor b = true) ->
  posting d d' tx [rx; ry].
Proof.
  intros Eacc Eent Hfresh Hpos Hrange Hcur Hbx Hby Hbx' Hby' Hother Hax Hay Hrx Hry Hfloor.
  destruct P as [[Tx Ty] [Ex Ey] [Dx Dy] [Ax Ay]].
  split; try done.
  - intros r [->|[->|[]%elem_of_nil]%elem_of_cons]%elem_of_cons; by rewrite ?Ax, ?Ay.
  - unfold debits, credits. simpl. rewrite Dx, Dy, Ax, Ay. lia.
  - exists c. intros r [->|[->|[]%elem_of_nil]%elem_of_cons]%elem_of_cons;
      apply Hcur; rewrite ?Ex, ?Ey; set_solver.
  - intros a. rewrite pair_balance. destruct (decide (a = x)) as [->|]; [|destruct (decide (a = y)) as [->|]].
    + rewrite Hbx, Hbx'. done.
    + rewrite Hby, Hby'. done.
    + rewrite Hother by done. destruct (account_balances d !! a) as [[z ?]|]; [|done]. simpl.
      by rewrite Z.add_0_r.
  - intros r [->|[->|[]%elem_of_nil]%elem_of_cons]%elem_of_cons.
    + exists (BalanceRow (b_balance bx - amount) (b_allow_negative bx)). rewrite Ex. simpl.
      rewrite Hax in *. split_and!; try done. apply (Hfloor x); [set_solver|done].
    + exists (BalanceRow (b_balance by_ + amount) (b_allow_negative by_)). rewrite Ey. simpl.
      rewrite Hay in *. split_and!; try done. apply (Hfloor y); [set_solver|done].
Qed.
End pair.

(** ** The balances a conversion reads *)
Section legs.
Context `{DEC : !Decimal} `{UT : !UuidText} `{HASH : !Hashing}.
Context (ring : DigestRing) (reg : registry).

Lemma first_id_Some P d id :
  first_id P d = Some id -> exists r, accounts d !! id = Some r /\ P r = true.
Proof.
  unfold first_id, select_where, account_rows. intros H.
  destruct (filter _ _) as [|[i r] l] eqn:E; [done|]. injection H as ->.
  assert (Hin : (id, r) ∈ filter (fun ir : uuid * account_row => P ir.2 = true) (map_to_list (accounts d)))
    by (rewrite E; left).
  apply list_elem_of_filter in Hin as [HP Hin]. exists r. by rewrite <- elem_of_map_to_list.
Qed.

Lemma balance_int64_Ok d (bal : gmap uuid AccountBalance) id z :
  (forall ab, bal !! id = Some ab -> balance_of d id = Some ab) -> is_Some (bal !! id) ->
  balance_int64 bal id = inr z -> exists b, account_balances d !! id = Some b /\ b_balance b = z.
Proof.
  intros Hbal [ab Hab] H. unfold balance_int64 in H. rewrite Hab in H.
  destruct (balance_of_Some d id ab (Hbal _ Hab)) as (b & x & Hb & _ & Eb & _).
  unfold decimalInt64 in H. rewrite Eb in H. destruct (negb _); [done|].
  destruct (dec_bigint _) as [y|] eqn:Ey; [|done]. injection H as ->.
  exists b. split; [done|]. apply dec_bigint_spec in Ey as [Ey _]. rewrite dec_of_Z_val in Ey.
  by apply inject_Z_inj.
Qed.

Lemma addInt64_inr l r s : addInt64 l r = inr s -> s = l + r.
Proof. unfold addInt64. by destruct (_ || _); intros [=]. Qed.

(** The rows stored for the two entries of a leg. *)
Lemma two_rows tx bal x y z n n' rows :
  Forall2 (row_matches tx bal) (two_entries x y (dec_of_Z z) n n') rows ->
  exists rx ry, rows = [rx; ry] /\ pair_rows tx x y z rx ry /\ 0 < z /\ in_int64 z = true /\
    dec_bigint (default dec_zero (bal !! x)) = Some (e_balance_after rx) /\
    dec_bigint (default dec_zero (bal !! y)) = Some (e_balance_after ry).
Proof.
  intros H. inversion H as [|? rx ? l Hx Hl E1 E2]; subst. inversion Hl as [|? ry ? l' Hy Hl' E1 E2]; subst.
  inversion Hl'; subst. exists rx, ry. destruct Hx as [Tx Ax Dx _ Mx Px Bx], Hy as [Ty Ay Dy _ My _ By].
  simpl in *.
  assert (Hz : forall m, dec_bigint (dec_of_Z z) = Some m -> m = z /\ in_int64 z = true).
  { intros m [Em Hm]%dec_bigint_spec. rewrite dec_of_Z_val in Em. apply inject_Z_inj in Em. by subst m. }
  destruct (Hz _ Mx) as [Ez Hr], (Hz _ My) as [Ez' _]. rewrite Ez in Px.
  split_and!; done.
Qed.

(** A stored balance is the new balance the conversion computed for it. *)
Lemma dec_of_Z_after z m : dec_bigint (dec_of_Z z) = Some m -> m = z /\ in_int64 m = true.
Proof.
  intros [Em Hm]%dec_bigint_spec. rewrite dec_of_Z_val in Em. apply inject_Z_inj in Em. done.
Qed.

(** ** The write phase *)
Context (a : fx_accounts) (sa ta : Z) (bsu btu bsp btp : balance_row).
Let su := fa_sourceUser a.
Let tu := fa_targetUser a.
Let sp := fa_sourcePosition a.
Let tp := fa_targetPosition a.
Let after := MkAfter (b_balance bsu - sa) (b_balance btu + ta) (b_balance bsp + sa) (b_balance btp - ta).

(** What the conversion knows about its four accounts. *)
Record fx_locked (d : database) (cs ct : string) : Prop := {
  fl_distinct : NoDup [su; tu; sp; tp];
  fl_source x : x ∈ [su; sp] -> exists r, accounts d !! x = Some r /\ a_currency r = cs;
  fl_target x : x ∈ [tp; tu] -> exists r, accounts d !! x = Some r /\ a_currency r = ct;
  fl_balances : account_balances d !! su = Some bsu /\ account_balances d !! tu = Some btu /\
                account_balances d !! sp = Some bsp /\ account_balances d !! tp = Some btp;
}.

Lemma all_new_lookup (Hd : NoDup [su; tu; sp; tp]) :
  all_new_balances a after !! su = Some (dec_of_Z (b_balance bsu - sa)) /\
  all_new_balances a after !! tu = Some (dec_of_Z (b_balance btu + ta)) /\
  all_new_balances a after !! sp = Some (dec_of_Z (b_balance bsp + sa)) /\
  all_new_balances a after !! tp = Some (dec_of_Z (b_balance btp - ta)).
Proof.
  unfold all_new_balances. fold su tu sp tp. simpl.
  apply NoDup_cons in Hd as [Hsu Hd]. apply NoDup_cons in Hd as [Htu Hd].
  apply NoDup_cons in Hd as [Hsp _]. rewrite !not_elem_of_cons in *. destruct_and!.
  split_and!; rewrite ?lookup_insert_eq; try done;
    repeat (rewrite lookup_insert_ne by done); rewrite ?lookup_insert_eq; done || by simplify_map_eq.
Qed.

Lemma all_new_other x : x ∉ [su; tu; sp; tp] -> all_new_balances a after !! x = None.
Proof.
  unfold all_new_balances. fold su tu sp tp. rewrite !not_elem_of_cons. intros (? & ? & ? & ? & _).
  rewrite !lookup_insert_ne by done. by apply lookup_singleton_ne.
Qed.

(** The four rows of the two legs. *)
Record leg_rows (st tt : uuid) (rx1 ry1 rx2 ry2 : entry_row) : Prop := {
  lr_source : pair_rows st su sp sa rx1 ry1;
  lr_target : pair_rows tt tp tu ta rx2 ry2;
  lr_amounts : 0 < sa /\ in_int64 sa = true /\ 0 < ta /\ in_int64 ta = true;
  lr_after1 : e_balance_after rx1 = b_balance bsu - sa /\ e_balance_after ry1 = b_balance bsp + sa;
  lr_after2 : e_balance_after rx2 = b_balance btp - ta /\ e_balance_after ry2 = b_balance btu + ta;
  lr_range r : r ∈ [rx1; ry1; rx2; ry2] -> in_int64 (e_balance_after r) = true;
}.

(** The balances after both legs. *)
Record leg_balances (d d' : database) : Prop := {
  lb_su : account_balances d' !! su = Some (BalanceRow (b_balance bsu - sa) (b_allow_negative bsu));
  lb_tu : account_balances d' !! tu = Some (BalanceRow (b_balance btu + ta) (b_allow_negative btu));
  lb_sp : account_balances d' !! sp = Some (BalanceRow (b_balance bsp + sa) (b_allow_negative bsp));
  lb_tp : account_balances d' !! tp = Some (BalanceRow (b_balance btp - ta) (b_allow_negative btp));
  lb_other x : x ∉ [su; tu; sp; tp] -> account_balances d' !! x = account_balances d !! x;
  lb_floor x b : x ∈ [su; tu; sp; tp] -> account_balances d' !! x = Some b -> chk_balance_floor b = true;
}.

(** Both legs, one after the other. *)
Lemma two_postings d d' cs ct st tt rx1 ry1 rx2 ry2 :
  fx_locked d cs ct -> leg_rows st tt rx1 ry1 rx2 ry2 -> leg_balances d d' ->
  accounts d' = accounts d ->
  ledger_entries d' = (ledger_entries d ++ [rx1; ry1]) ++ [rx2; ry2] ->
  entries_of_tx st (ledger_entries d) = [] ->
  entries_of_tx tt (ledger_entries d ++ [rx1; ry1]) = [] ->
  exists dm, posting d dm st [rx1; ry1] /\ posting dm d' tt [rx2; ry2].
Proof.
  intros [Hd Hs Ht (Bsu & Btu & Bsp & Btp)] [Ps Pt (Sp & Sr & Tp & Tr) [A1 A1'] [A2 A2'] Hr]
    [Lsu Ltu Lsp Ltp Lo Lf] Eacc Eent Fs Ft.
  apply NoDup_cons in Hd as [Nsu Hd]. apply NoDup_cons in Hd as [Ntu Hd].
  apply NoDup_cons in Hd as [Nsp _]. rewrite !not_elem_of_cons in *. destruct_and!.
  set (m := <[sp := BalanceRow (b_balance bsp + sa) (b_allow_negative bsp)]>
           (<[su := BalanceRow (b_balance bsu - sa) (b_allow_negative bsu)]> (account_balances d))).
  assert (Msu : m !! su = account_balances d' !! su).
  { unfold m. rewrite lookup_insert_ne, lookup_insert_eq by done. by rewrite Lsu. }
  assert (Msp : m !! sp = account_balances d' !! sp) by (unfold m; by rewrite lookup_insert_eq, Lsp).
  assert (Mo : forall x, x <> su -> x <> sp -> m !! x = account_balances d !! x)
    by (intros; unfold m; by rewrite !lookup_insert_ne).
  exists (with_balances (with_entries d (ledger_entries d ++ [rx1; ry1])) m). split.
  - apply (pair_posting st su sp sa rx1 ry1 Ps ltac:(done) _ _ cs bsu bsp); try done; simpl.
    + by rewrite Msu, Lsu.
    + by rewrite Msp, Lsp.
    + apply Hr. set_solver.
    + apply Hr. set_solver.
    + intros x b [->|[->|[]%elem_of_nil]%elem_of_cons]%elem_of_cons; rewrite ?Msu, ?Msp;
        intros Hb; (eapply Lf; [|exact Hb]); set_solver.
  - apply (pair_posting tt tp tu ta rx2 ry2 Pt ltac:(done) _ _ ct btp btu); try done; simpl.
    + by rewrite Mo.
    + by rewrite Mo.
    + intros x ? ?. destruct (decide (x = su)) as [->|]; [done|].
      destruct (decide (x = sp)) as [->|]; [done|]. rewrite Mo by done. apply Lo. set_solver.
    + apply Hr. set_solver.
    + apply Hr. set_solver.
    + intros x b [->|[->|[]%elem_of_nil]%elem_of_cons]%elem_of_cons Hb; (eapply Lf; [|exact Hb]); set_solver.
Qed.

(** *** post_legs *)
Lemma leg_entries rc n n' x y z w es w' :
  AccountIDs rc = [x; y] -> Amount (rc_Command rc) = dec_of_Z z ->
  two_leg_entries rc n n' w = (Ok es, w') -> es = two_entries x y (dec_of_Z z) n n' /\ w' = w.
Proof.
  intros Ha Ez (x' & y' & Hx & Hy & -> & ->)%two_leg_Ok. rewrite Ha in Hx, Hy.
  injection Hx as <-. injection Hy as <-. by rewrite Ez.
Qed.

Lemma set_to_spec d x z b b0 :
  set_to d x z b -> account_balances d !! x = Some b0 ->
  b = BalanceRow z (b_allow_negative b0) /\ chk_balance_floor b = true.
Proof. intros (b1 & E & -> & ?) E'. rewrite E' in E. by injection E as ->. Qed.

Lemma post_legs_Ok st tt source target bal w es w' cs ct :
  AccountIDs source = [su; sp] -> Amount (rc_Command source) = dec_of_Z sa ->
  AccountIDs target = [tp; tu] -> Amount (rc_Command target) = dec_of_Z ta ->
  fx_locked (w_db w) cs ct ->
  post_legs reg st tt source target bal (all_new_balances a after) w = (Ok es, w') ->
  exists rx1 ry1 rx2 ry2, leg_rows st tt rx1 ry1 rx2 ry2 /\ leg_balances (w_db w) (w_db w')
    /\ entries_of_tx st (ledger_entries (w_db w)) = []
    /\ entries_of_tx tt (ledger_entries (w_db w) ++ [rx1; ry1]) = []
    /\ w_db w' = with_transactions (with_balances (with_entries (w_db w)
                   ((ledger_entries (w_db w) ++ [rx1; ry1]) ++ [rx2; ry2])) (account_balances (w_db w')))
                   (alter (set_status "posted" None) tt
                     (alter (set_status "posted" None) st (ledger_transactions (w_db w)))).
Proof.
  intros Has Eas Hat Eat L H. unfold post_legs in H.
  apply bind_Ok in H as (es1 & w1 & H1%wrap_Ok & H). apply bind_Ok in H as (es2 & w2 & H2%wrap_Ok & H).
  apply (leg_entries _ _ _ su sp sa) in H1 as [-> ->]; [|done..].
  apply (leg_entries _ _ _ tp tu ta) in H2 as [-> ->]; [|done..].
  apply bind_Ok in H as (u3 & w3 & H3%wrap_Ok & H). apply bind_Ok in H as (u4 & w4 & H4%wrap_Ok & H).
  apply bind_Ok in H as (u5 & w5 & H5%wrap_Ok & H). apply bind_Ok in H as (u6 & w6 & H6%wrap_Ok & H).
  apply bind_Ok in H as (u7 & w7 & H7%wrap_Ok & H). injection H as _ <-.
  apply InsertEntries_Ok in H3 as (rows1 & R1 & E3 & F1 & _ & _ & _); [|done].
  apply InsertEntries_Ok in H4 as (rows2 & R2 & E4 & F2 & _ & _ & _); [|done].
  apply two_rows in R1 as (rx1 & ry1 & -> & P1 & S1 & I1 & A1 & B1).
  apply two_rows in R2 as (rx2 & ry2 & -> & P2 & S2 & I2 & A2 & B2).
  apply UpdateBalances_Ok in H5 as (E5 & Hin & Hout).
  apply UpdateStatus_Ok in H6. apply UpdateStatus_Ok in H7.
  destruct L as [Hd Hs Ht (Bsu & Btu & Bsp & Btp)].
  destruct (all_new_lookup Hd) as (Nsu & Ntu & Nsp & Ntp).
  rewrite Nsu in A1. rewrite Nsp in B1. rewrite Ntp in A2. rewrite Ntu in B2. cbn [default] in *.
  apply dec_of_Z_after in A1 as [A1 A1'], B1 as [B1 B1'], A2 as [A2 A2'], B2 as [B2 B2'].
  assert (Ebal : account_balances (w_db w4) = account_balances (w_db w)) by (by rewrite E4, E3).
  assert (Eb7 : account_balances (w_db w7) = account_balances (w_db w5)) by (by rewrite H7, H6).
  assert (Hset : forall x z b0, all_new_balances a after !! x = Some (dec_of_Z z) -> in_int64 z = true ->
    account_balances (w_db w) !! x = Some b0 ->
    account_balances (w_db w7) !! x = Some (BalanceRow z (b_allow_negative b0)) /\
    chk_balance_floor (BalanceRow z (b_allow_negative b0)) = true).
  { intros x z b0 Hx Hz Hb0. destruct (Hin x _ Hx) as (_ & b & Hb & Hb').
    rewrite (dec_int_part_val (dec_of_Z z) z) in Hb by (done || apply dec_of_Z_val).
    apply (set_to_spec _ _ _ _ b0) in Hb as [-> Hf]; [|by rewrite Ebal].
    rewrite Eb7. done. }
  destruct (Hset su _ bsu Nsu ltac:(congruence) Bsu) as [Xsu Fsu].
  destruct (Hset tu _ btu Ntu ltac:(congruence) Btu) as [Xtu Ftu].
  destruct (Hset sp _ bsp Nsp ltac:(congruence) Bsp) as [Xsp Fsp].
  destruct (Hset tp _ btp Ntp ltac:(congruence) Btp) as [Xtp Ftp].
  exists rx1, ry1, rx2, ry2. split_and!.
  - split; try done. intros r Hr. repeat (apply elem_of_cons in Hr as [->|Hr]; [congruence|]).
    by apply elem_of_nil in Hr.
  - split; try done.
    + intros x Hx. rewrite Eb7, <- Ebal. apply Hout. by apply all_new_other.
    + intros x b Hx Hb. repeat (apply elem_of_cons in Hx as [->|Hx]; [congruence|]). by apply elem_of_nil in Hx.
  - done.
  - by rewrite E3 in F2.
  - rewrite H7, H6, E5, E4, E3. by destruct (w_db w).
Qed.

(** ** Everything a conversion writes *)
Lemma find_row_None {R} P (t : gmap uuid R) id r : find_row P t = None -> t !! id = Some r -> P id r = false.
Proof.
  unfold find_row. intros H Hr. apply not_true_iff_false. intros HP.
  destruct (filter _ _) eqn:E; [|done].
  assert (Hin : (id, r) ∈ filter (fun kr : uuid * R => P kr.1 kr.2 = true) (map_to_list t))
    by (by rewrite list_elem_of_filter, elem_of_map_to_list).
  rewrite E in Hin. by apply elem_of_nil in Hin.
Qed.
Lemma find_row_Some {R} P (t : gmap uuid R) id r : find_row P t = Some (id, r) -> t !! id = Some r /\ P id r = true.
Proof.
  unfold find_row. destruct (filter _ _) as [|x l] eqn:E; [done|]. intros [= ->].
  assert (Hin : (id, r) ∈ filter (fun kr : uuid * R => P kr.1 kr.2 = true) (map_to_list t)) by (rewrite E; left).
  by apply list_elem_of_filter in Hin as [HP Hin%elem_of_map_to_list].
Qed.

Definition leg_row (id : uuid) (rc : ResolvedCommand) (amount : Z) : tx_row :=
  let key := Digest ring (canonicalIdempotencyInput (Some "fx") (IdempotencyKey (rc_Command rc))) in
  set_status "posted" None (new_tx_row (leg_params id rc) amount key.1 key.2
    (conflictFingerprint (Type_ (rc_Command rc)) (Amount (rc_Command rc)) (rc_Currency rc))).

Record conversion_written (d d' : database) (u : uuid) (quote : FXQuote) (key : string) (now : Z)
    (v : FXConversion) (createdAt : Z) (cid st tt : uuid) : Prop := {
  cw_result : v = MkFXConversion cid u (xq_ID quote) key (xq_SourceCurrency quote) (xq_TargetCurrency quote)
                    (xq_SourceAmount quote) (xq_TargetAmount quote) "posted" st tt EmptyString createdAt (Some now);
  cw_consistent : conversion_consistent (fx d) (pending_conversion u quote key createdAt) = true;
  cw_new : fx_conversions (fx d) !! cid = None;
  cw_unique id c : fx_conversions (fx d) !! id = Some c -> fc_quote_id c <> xq_ID quote /\
    ~ (fc_user_id c = u /\ fc_idempotency_key c = key);
  cw_fx : fx d' = set_fx_quotes (set_fx_links (set_fx_conversions (fx d)
            (<[cid := posted_row st tt now (pending_conversion u quote key createdAt)]> (fx_conversions (fx d))))
            (<[tt := FxLink cid (xq_ID quote) "target" st]>
               (<[st := FxLink cid (xq_ID quote) "source" tt]> (fx_links (fx d)))))
            (alter (consumed_row now cid) (xq_ID quote) (fx_quotes (fx d)));
  cw_headers : st <> tt /\ ledger_transactions d !! st = None /\ ledger_transactions d !! tt = None /\
    ledger_transactions d' = <[tt := leg_row tt (target_leg cid u quote a) ta]>
      (<[st := leg_row st (source_leg cid u quote a) sa]> (ledger_transactions d));
  cw_postings : exists rx1 ry1 rx2 ry2 dm, leg_rows st tt rx1 ry1 rx2 ry2 /\
    posting d dm st [rx1; ry1] /\ posting dm d' tt [rx2; ry2];
  cw_kept : fee_quotes d' = fee_quotes d /\ fee_rules d' = fee_rules d /\ currencies d' = currencies d;
  cw_outbox : exists os o, outbox_events d' = outbox_events d ++ os /\ o ∈ os /\
    event_row (fxAggregateOutboxEvent quote cid st tt now) o;
}.

Lemma sql_insert_fx_conversion_Ok id c d t n d' :
  sql_insert_fx_conversion id c d t = inr (n, d') ->
  n = fc_created_at c /\ conversion_consistent (fx d) c = true /\ fx_conversions (fx d) !! id = None /\
  (forall i x, fx_conversions (fx d) !! i = Some x -> fc_quote_id x <> fc_quote_id c /\
     ~ (fc_user_id x = fc_user_id c /\ fc_idempotency_key x = fc_idempotency_key c)) /\
  d' = with_fx d (set_fx_conversions (fx d) (<[id := c]> (fx_conversions (fx d)))).
Proof.
  unfold sql_insert_fx_conversion. destruct (conversion_consistent _ _); [|done].
  destruct (fx_conversion_checks c); [|done]. cbn [negb].
  destruct (bool_decide _ || _ || _) eqn:Eu; [done|]. destruct (negb _ || _); [done|]. intros [= <- <-].
  apply orb_false_iff in Eu as [[Ei Ek]%orb_false_iff Eq].
  apply bool_decide_eq_false, eq_None_not_Some in Ei, Ek, Eq. split_and!; try done.
  intros i x Hx. pose proof (find_row_None _ _ _ _ Eq Hx) as Hf. pose proof (find_row_None _ _ _ _ Ek Hx) as Hk.
  unfold conversion_of_quote in Hf. unfold conversion_of_key in Hk. apply bool_decide_eq_false in Hf.
  split; [done|]. intros [Eu Es]. by rewrite !bool_decide_true in Hk.
Qed.

Lemma sql_link_fx_Ok id link d t u d' :
  is_Some (ledger_transactions d !! id) -> sql_link_fx id link d t = inr (u, d') ->
  d' = with_fx d (set_fx_links (fx d) (<[id := link]> (fx_links (fx d)))).
Proof.
  intros Hs. unfold sql_link_fx, has_tx. rewrite bool_decide_true by done. cbn [negb].
  destruct (negb _); [done|]. destruct (link_taken _ _ _); [done|]. destruct (_ || _ || _); [done|].
  by intros [= _ <-].
Qed.

Lemma open_legs_Ok cid qid st tt source target w u w' :
  open_legs ring cid qid st tt source target w = (Ok u, w') ->
  exists m1 m2, inserts ring (leg_params st source) m1 (w_db w)
      (with_transactions (w_db w) (<[st := new_tx_row (leg_params st source) m1
        (Digest ring (canonicalIdempotencyInput (Some "fx") (IdempotencyKey (rc_Command source)))).1
        (Digest ring (canonicalIdempotencyInput (Some "fx") (IdempotencyKey (rc_Command source)))).2
        (conflictFingerprint (Type_ (rc_Command source)) (Amount (rc_Command source)) (rc_Currency source))]>
          (ledger_transactions (w_db w))))
    /\ st <> tt /\ ledger_transactions (w_db w) !! tt = None
    /\ dec_bigint (Amount (rc_Command target)) = Some m2 /\ 0 < m2
    /\ w_db w' = with_fx (with_transactions (w_db w)
         (<[tt := new_tx_row (leg_params tt target) m2
           (Digest ring (canonicalIdempotencyInput (Some "fx") (IdempotencyKey (rc_Command target)))).1
           (Digest ring (canonicalIdempotencyInput (Some "fx") (IdempotencyKey (rc_Command target)))).2
           (conflictFingerprint (Type_ (rc_Command target)) (Amount (rc_Command target)) (rc_Currency target))]>
          (<[st := new_tx_row (leg_params st source) m1
           (Digest ring (canonicalIdempotencyInput (Some "fx") (IdempotencyKey (rc_Command source)))).1
           (Digest ring (canonicalIdempotencyInput (Some "fx") (IdempotencyKey (rc_Command source)))).2
           (conflictFingerprint (Type_ (rc_Command source)) (Amount (rc_Command source)) (rc_Currency source))]>
             (ledger_transactions (w_db w)))))
       (set_fx_links (fx (w_db w)) (<[tt := FxLink cid qid "target" st]>
          (<[st := FxLink cid qid "source" tt]> (fx_links (fx (w_db w)))))).
Proof.
  intros H. unfold open_legs in H.
  apply bind_Ok in H as (u1 & w1 & H1%wrap_Ok & H). apply bind_Ok in H as (u2 & w2 & H2%wrap_Ok & H).
  apply bind_Ok in H as (u3 & w3 & H3%wrap_Ok & H). apply wrap_Ok in H.
  apply TransactionRepo_Insert_Ok in H1 as (m1 & I1), H2 as (m2 & I2).
  apply stmt_Ok in H3 as (t3 & H3 & _), H as (t4 & H4 & _).
  pose proof (is_db _ _ _ _ _ I1) as E1. pose proof (is_db _ _ _ _ _ I2) as E2. cbn [leg_params p_ID p_IdempotencyKey
    p_IdempotencyScope p_Type p_Amount p_Currency] in E1, E2.
  pose proof (is_fresh _ _ _ _ _ I2) as Ft. rewrite E1 in Ft. cbn in Ft.
  apply lookup_insert_None in Ft as [Ft Hne].
  apply sql_link_fx_Ok in H3; [|rewrite E2, E1; simpl; rewrite lookup_insert_ne by done; rewrite lookup_insert_eq; eauto].
  apply sql_link_fx_Ok in H4; [|rewrite H3, E2; simpl; rewrite lookup_insert_eq; eauto].
  exists m1, m2. rewrite E1 in I1. split; [exact I1|]. split; [done|]. split; [done|].
  split; [apply (is_amount _ _ _ _ _ I2)|]. split; [apply (is_positive _ _ _ _ _ I2)|].
  rewrite H4, H3, E2, E1. done.
Qed.

Lemma fx_locked_same d d' cs ct :
  accounts d' = accounts d -> account_balances d' = account_balances d -> fx_locked d cs ct -> fx_locked d' cs ct.
Proof. intros Ea Eb [H1 H2 H3 H4]. split; rewrite ?Ea, ?Eb; done. Qed.
Lemma leg_balances_same d d' e e' :
  account_balances e = account_balances d -> account_balances e' = account_balances d' ->
  leg_balances d d' -> leg_balances e e'.
Proof. intros E E' [H1 H2 H3 H4 H5 H6]. split; rewrite ?E, ?E'; done. Qed.

Lemma dec_bigint_amount z m : dec_bigint (dec_of_Z z) = Some m -> m = z.
Proof. by intros [? _]%dec_of_Z_after. Qed.

Lemma InsertEvents_last evs ev w u w' :
  OutboxRepo_InsertEvents (evs ++ [ev]) w = (Ok u, w') ->
  exists os o, w_db w' = with_outbox (w_db w) (outbox_events (w_db w) ++ os) /\ o ∈ os /\ event_row ev o.
Proof.
  intros (os & HF & E)%InsertEvents_Ok. apply Forall2_app_inv_l in HF as (os1 & os2 & _ & H2 & ->).
  inversion H2 as [|? o ? l Ho Hl]; subst. exists (os1 ++ o :: l), o. split; [done|]. split; [set_solver|done].
Qed.

Lemma write_conversion_Ok u quote key bal now w v w' :
  xq_SourceAmount quote = sa -> xq_TargetAmount quote = ta ->
  fx_locked (w_db w) (xq_SourceCurrency quote) (xq_TargetCurrency quote) ->
  write_conversion ring reg u quote key a bal after now w = (Ok v, w') ->
  exists createdAt cid st tt,
    conversion_written (w_db w) (w_db w') u quote key now v createdAt cid st tt.
Proof.
  intros Esa Eta L H. unfold write_conversion in H.
  apply bind_Ok in H as (cid & w1 & [= <- E1] & H). apply bind_Ok in H as (st & w2 & [= <- E2] & H).
  apply bind_Ok in H as (tt & w3 & [= <- E3] & H). cbv zeta in H.
  set (cid := w_ids _ _) in *. set (st := w_ids w1 _) in *. set (tt := w_ids w2 _) in *.
  assert (Ed : w_db w3 = w_db w) by (by subst).
  clear E1 E2 E3. set (d := w_db w) in *.
  apply bind_Ok in H as (created & w4 & H4%wrap_Ok & H). apply stmt_Ok in H4 as (t4 & H4 & _).
  rewrite Ed in H4. apply sql_insert_fx_conversion_Ok in H4 as (-> & Hcons & Hnew & Huniq & E4).
  apply bind_Ok in H as (u5 & w5 & H5 & H).
  apply open_legs_Ok in H5 as (m1 & m2 & I1 & Hne & Ft & M2 & _ & E5).
  pose proof (is_fresh _ _ _ _ _ I1) as Fs. pose proof (is_amount _ _ _ _ _ I1) as M1. clear I1.
  apply dec_bigint_amount in M1 as ->, M2 as ->.
  rewrite E4 in Fs, Ft, E5. simpl in Fs, Ft.
  apply bind_Ok in H as (es & w6 & H6 & H).
  apply (post_legs_Ok _ _ _ _ _ _ _ _ (xq_SourceCurrency quote) (xq_TargetCurrency quote)) in H6
    as (rx1 & ry1 & rx2 & ry2 & R & B & F1 & F2 & E6); [|done|by simpl; rewrite Esa|done|by simpl; rewrite Eta|].
  2: { eapply fx_locked_same; [| |exact L]; by rewrite E5. }
  apply bind_Ok in H as (u7 & w7 & H7%wrap_Ok & H). apply stmt_Ok in H7 as (t7 & H7 & _).
  unfold sql_post_fx_conversion in H7. destruct (_ || _) in H7; [done|]. injection H7 as _ E7.
  apply bind_Ok in H as (u8 & w8 & H8%wrap_Ok & H). apply stmt_Ok in H8 as (t8 & [= _ E8] & _).
  apply bind_Ok in H as (u9 & w9 & [= _ <-] & H). apply bind_Ok in H as (u10 & w10 & H10%wrap_Ok & H).
  rewrite app_assoc in H10. apply InsertEvents_last in H10 as (os & o & E10 & Ho & He).
  injection H as <- <-.
  assert (Hlegs : exists dm, posting d dm st [rx1; ry1] /\ posting dm (w_db w10) tt [rx2; ry2]).
  { eapply (two_postings d (w_db w10)); [exact L|exact R|..].
    - eapply leg_balances_same; [| |exact B]; [by rewrite E5|]. by rewrite E10, <- E8, <- E7.
    - rewrite E10, <- E8, <- E7, E6, E5. done.
    - rewrite E10, <- E8, <- E7, E6, E5. done.
    - by rewrite E5 in F1.
    - by rewrite E5 in F2. }
  exists t4, cid, st, tt. split.
  - by rewrite Esa, Eta.
  - done.
  - done.
  - done.
  - rewrite E10. simpl. rewrite <- E8. simpl. rewrite <- E7. simpl. rewrite E6, E5. simpl.
    unfold set_fx_quotes, set_fx_conversions, set_fx_links. simpl. f_equal.
    by rewrite alter_insert_eq.
  - split_and!; [done..|]. rewrite E10. simpl. rewrite <- E8. simpl. rewrite <- E7. simpl. rewrite E6, E5. simpl.
    rewrite (alter_insert_ne _ st tt) by done. rewrite !alter_insert_eq.
    rewrite <- Esa, <- Eta. reflexivity.
  - destruct Hlegs as (dm & ? & ?). exists rx1, ry1, rx2, ry2, dm. done.
  - rewrite E10, <- E8, <- E7, E6, E5. done.
  - exists os, o. split; [|done]. rewrite E10. simpl. rewrite <- E8. simpl. rewrite <- E7. simpl. rewrite E6, E5. done.
Qed.
End legs.

(** ** The checks before the write *)
Section checks.
Context `{DEC : !Decimal} `{UT : !UuidText} `{HASH : !Hashing}.
Context (ring : DigestRing) (reg : registry).

Lemma of_sum_Ok {A} (x : error + A) w y w' : lift (of_sum x) w = (Ok y, w') -> x = inr y /\ w' = w.
Proof. unfold lift, of_sum. destruct x; [done|]. by intros [= -> ->]. Qed.
Lemma lift_Ok {A} (x : result A) w y w' : lift x w = (Ok y, w') -> x = Ok y /\ w' = w.
Proof. by intros [= -> ->]. Qed.
(** [try] of a single-row read that found its row. *)
Lemma read_row_Ok {A} (f : database -> Z -> option A) w x w' :
  try (scan_row (query f)) w = (Ok (inr x), w') -> exists t, f (w_db w) t = Some x /\ w_db w' = w_db w.
Proof.
  intros [(y & [= ->] & H)|(e & [=] & _)]%try_Ok. apply scan_row_Ok, query_Ok in H as (t & -> & ->). eauto.
Qed.

(** A direction that converts, of an active pair. *)
Definition direction_open (t : fx_tables) (id : uuid) : Prop :=
  exists dir p, fx_pair_directions t !! id = Some dir /\ fx_pairs t !! fd_pair_id dir = Some p /\
    fp_status p = "active" /\ fd_enabled dir = true /\ fd_conversions_paused dir = false.
Lemma lock_direction_Ok id w u w' :
  lock_direction id w = (Ok u, w') -> direction_open (fx (w_db w)) id /\ w_db w' = w_db w.
Proof.
  intros H. unfold lock_direction in H. apply bind_Ok in H as ([e|[en pa]] & w1 & Hr & H).
  - revert H. by destruct (is_no_rows e).
  - apply read_row_Ok in Hr as (t & Hr & E). destruct en; [|done]. destruct pa; [done|].
    injection H as _ <-. split; [|done]. unfold direction_open.
    destruct (fx_pair_directions _ !! id) as [dir|] eqn:Ed; [|done]. simpl in Hr.
    destruct (fx_pairs _ !! _) as [p|] eqn:Ep; [|done]. simpl in Hr. case_bool_decide as Es; [|done].
    injection Hr as ? ?. exists dir, p. done.
Qed.

Lemma loadCurrencyPolicy_reads code : reads (loadCurrencyPolicy code).
Proof. unfold loadCurrencyPolicy. frame. Qed.
Lemma require_currencies_reads quote : reads (require_currencies quote).
Proof. pose proof loadCurrencyPolicy_reads. unfold require_currencies. frame. Qed.

(** The accounts of a conversion and the roles they play. *)
Record fx_roles (d : database) (u : uuid) (quote : FXQuote) (a : fx_accounts) : Prop := {
  fr_su : exists r, accounts d !! fa_sourceUser a = Some r /\ user_cash u (xq_SourceCurrency quote) r = true;
  fr_tu : exists r, accounts d !! fa_targetUser a = Some r /\ user_cash u (xq_TargetCurrency quote) r = true;
  fr_sp : exists r, accounts d !! fa_sourcePosition a = Some r /\
            position_of (fa_qualifier a) (xq_SourceCurrency quote) r = true;
  fr_tp : exists r, accounts d !! fa_targetPosition a = Some r /\
            position_of (fa_qualifier a) (xq_TargetCurrency quote) r = true;
  fr_pair : exists p, fx_pairs (fx d) !! xq_PairID quote = Some p /\ fp_position_qualifier p = fa_qualifier a;
}.
Lemma resolve_fx_accounts_Ok u quote w a w' :
  resolve_fx_accounts u quote w = (Ok a, w') -> fx_roles (w_db w) u quote a /\ w_db w' = w_db w.
Proof.
  intros H. unfold resolve_fx_accounts in H.
  apply bind_Ok in H as ([su tu] & w1 & H1 & H). apply bind_Ok in H as ([[sp tp] q] & w2 & H2 & H).
  injection H as <- <-. unfold resolve_users in H1. unfold resolve_positions in H2.
  apply bind_Ok in H1 as ([e|ids] & w3 & H1 & H1'); [revert H1'; by destruct (is_no_rows e)|].
  apply bind_Ok in H2 as ([e|ids'] & w4 & H2 & H2'); [revert H2'; by destruct (is_no_rows e)|].
  injection H1' as -> <-. injection H2' as -> <-.
  apply read_row_Ok in H1 as (t1 & H1 & E1). apply read_row_Ok in H2 as (t2 & H2 & E2).
  rewrite E1 in H2. split; [|congruence].
  destruct (first_id (user_cash u (xq_SourceCurrency quote)) _) as [x1|] eqn:F1; [|done].
  destruct (first_id (user_cash u (xq_TargetCurrency quote)) _) as [x2|] eqn:F2; [|done]. injection H1 as -> ->.
  destruct (fx_pairs _ !! _) as [p|] eqn:Ep; [|done]. simpl in H2.
  destruct (first_id (position_of _ (xq_SourceCurrency quote)) _) as [x3|] eqn:F3; [|done]. simpl in H2.
  destruct (first_id (position_of _ (xq_TargetCurrency quote)) _) as [x4|] eqn:F4; [|done]. injection H2 as <- <- <-.
  apply first_id_Some in F1, F2, F3, F4. split; simpl; eauto.
Qed.

(** The projected position stays within the pair's limit for the currency. *)
Definition position_within (t : fx_tables) (pair : uuid) (code : string) (balance : Z) : Prop :=
  exists code' l, TrimSpace code' = code /\ fx_position_limits t !! (pair, code') = Some l /\
    l_minimum_balance l <= balance <= l_maximum_balance l.
Lemma within_limits_Ok limits projected :
  within_limits limits projected = Ok tt -> forall code z, (code, z) ∈ projected ->
  exists l, limits !! code = Some l /\ l_minimum_balance l <= z <= l_maximum_balance l.
Proof.
  induction projected as [|[c y] rest IH]; [by intros _ ? ? ?%elem_of_nil|]. simpl.
  destruct (limits !! c) as [l|] eqn:El; [|done]. destruct (_ || _) eqn:Eb; [done|].
  apply orb_false_iff in Eb as [E1%Z.ltb_ge E2%Z.ltb_ge].
  intros H code z [[= -> ->]|Hin]%elem_of_cons; [|by apply IH]. eauto.
Qed.
Lemma checkPositionLimits_Ok pair projected w u w' :
  checkPositionLimits pair projected w = (Ok u, w') ->
  (forall code z, projected !! code = Some z -> position_within (fx (w_db w)) pair code z) /\ w_db w' = w_db w.
Proof.
  intros H. unfold checkPositionLimits in H. apply bind_Ok in H as (ls & w1 & H1%wrap_Ok & H).
  apply query_Ok in H1 as (t & -> & E). apply lift_Ok in H as [H ->]. split; [|done].
  intros code z Hz. destruct u. eapply within_limits_Ok in H as (l & Hl & Hb).
  - apply elem_of_list_to_map_2, list_elem_of_fmap in Hl as ([c' l'] & [= -> ->] & Hin). simpl in *.
    unfold limits_of in Hin. apply list_elem_of_fmap in Hin as ([[p c] l] & [= E1 E2] & Hin). subst c' l'.
    apply list_elem_of_filter in Hin as [Ep Hin%elem_of_map_to_list]. simpl in Ep. subst p.
    exists c, l. done.
  - rewrite merge_sort_Permutation. by apply elem_of_map_to_list.
Qed.

Lemma validate_fx_balances_Ok (bal : gmap uuid AccountBalance) l id code :
  validate_fx_balances bal l = Ok tt -> (id, code) ∈ l -> is_Some (bal !! id).
Proof.
  induction l as [|[i c] l IH]; [by intros _ ?%elem_of_nil|]. simpl.
  destruct (bal !! i) as [b|] eqn:Eb; [|done]. do 2 (destruct (bool_decide _); [done|]).
  do 2 (destruct (negb _); [done|]). intros H [[= -> ->]|Hin]%elem_of_cons; [by rewrite Eb|]. by apply IH.
Qed.
Lemma validateFXBalances_Ok (bal : gmap uuid AccountBalance) a quote :
  validateFXBalances bal (expected_currencies a quote) = Ok tt ->
  forall id, id ∈ [fa_sourceUser a; fa_targetUser a; fa_sourcePosition a; fa_targetPosition a] -> is_Some (bal !! id).
Proof.
  intros H id Hid. assert (Hs : is_Some (expected_currencies a quote !! id)).
  { unfold expected_currencies. rewrite !elem_of_cons, elem_of_nil in Hid.
    rewrite !lookup_insert_is_Some', lookup_singleton_is_Some. naive_solver. }
  destruct Hs as [code Hc]. eapply validate_fx_balances_Ok; [exact H|]. by apply elem_of_map_to_list.
Qed.

Lemma project_Ok d (bal : gmap uuid AccountBalance) a quote after :
  (forall id ab, bal !! id = Some ab -> balance_of d id = Some ab) ->
  (forall id, id ∈ [fa_sourceUser a; fa_targetUser a; fa_sourcePosition a; fa_targetPosition a] -> is_Some (bal !! id)) ->
  project_balances bal a quote = inr after ->
  exists bsu btu bsp btp, account_balances d !! fa_sourceUser a = Some bsu /\
    account_balances d !! fa_targetUser a = Some btu /\ account_balances d !! fa_sourcePosition a = Some bsp /\
    account_balances d !! fa_targetPosition a = Some btp /\ xq_SourceAmount quote <= b_balance bsu /\
    after = MkAfter (b_balance bsu - xq_SourceAmount quote) (b_balance btu + xq_TargetAmount quote)
              (b_balance bsp + xq_SourceAmount quote) (b_balance btp - xq_TargetAmount quote).
Proof.
  intros Hbal Hs H. unfold project_balances in H.
  destruct (balance_int64 bal (fa_sourceUser a)) as [|su] eqn:E1; [done|].
  destruct (balance_int64 bal (fa_targetUser a)) as [|tu] eqn:E2; [done|].
  destruct (balance_int64 bal (fa_sourcePosition a)) as [|sp] eqn:E3; [done|].
  destruct (balance_int64 bal (fa_targetPosition a)) as [|tp] eqn:E4; [done|].
  destruct (su <? _) eqn:El; [done|]. apply Z.ltb_ge in El.
  destruct (addInt64 su _) eqn:A1; [done|]. destruct (addInt64 tu _) eqn:A2; [done|].
  destruct (addInt64 sp _) eqn:A3; [done|]. destruct (addInt64 tp _) eqn:A4; [done|]. injection H as <-.
  apply addInt64_inr in A1 as ->, A2 as ->, A3 as ->, A4 as ->.
  apply (balance_int64_Ok d) in E1 as (bsu & ? & <-); [|by apply Hbal|apply Hs; set_solver].
  apply (balance_int64_Ok d) in E2 as (btu & ? & <-); [|by apply Hbal|apply Hs; set_solver].
  apply (balance_int64_Ok d) in E3 as (bsp & ? & <-); [|by apply Hbal|apply Hs; set_solver].
  apply (balance_int64_Ok d) in E4 as (btp & ? & <-); [|by apply Hbal|apply Hs; set_solver].
  exists bsu, btu, bsp, btp. split_and!; done.
Qed.

Lemma user_cash_facts u c r : user_cash u c r = true ->
  a_owner_type r = "user" /\ a_owner_id r = Some u /\ a_type r = "cash" /\ a_currency r = c /\ a_status r = "active".
Proof.
  unfold user_cash, owned_by, has_type, in_currency, is_active.
  rewrite !andb_true_iff, !bool_decide_eq_true. tauto.
Qed.
Lemma position_facts q c r : position_of q c r = true ->
  a_owner_type r = "system" /\ a_type r = "fx_conversion" /\ a_currency r = c /\
  a_system_qualifier r = Some q /\ a_status r = "active".
Proof.
  unfold position_of, has_type, in_currency, is_active. rewrite !andb_true_iff, !bool_decide_eq_true. tauto.
Qed.

(** The four accounts of a conversion between two currencies are distinct. *)
Lemma roles_locked d u quote a bsu btu bsp btp :
  xq_SourceCurrency quote <> xq_TargetCurrency quote -> fx_roles d u quote a ->
  account_balances d !! fa_sourceUser a = Some bsu -> account_balances d !! fa_targetUser a = Some btu ->
  account_balances d !! fa_sourcePosition a = Some bsp -> account_balances d !! fa_targetPosition a = Some btp ->
  fx_locked a bsu btu bsp btp d (xq_SourceCurrency quote) (xq_TargetCurrency quote).
Proof.
  intros Hne [(r1 & A1 & R1) (r2 & A2 & R2) (r3 & A3 & R3) (r4 & A4 & R4) _] B1 B2 B3 B4.
  apply user_cash_facts in R1 as (O1 & _ & _ & C1 & _), R2 as (O2 & _ & _ & C2 & _).
  apply position_facts in R3 as (O3 & _ & C3 & _), R4 as (O4 & _ & C4 & _).
  assert (N : forall x y rx ry, accounts d !! x = Some rx -> accounts d !! y = Some ry ->
    a_currency rx <> a_currency ry \/ a_owner_type rx <> a_owner_type ry -> x <> y).
  { intros x y rx ry Hx Hy H <-. rewrite Hx in Hy. injection Hy as <-. by destruct H. }
  split; [|..|done].
  - pose proof (N _ _ _ _ A1 A2 ltac:(left; congruence)). pose proof (N _ _ _ _ A1 A3 ltac:(right; congruence)).
    pose proof (N _ _ _ _ A1 A4 ltac:(right; congruence)). pose proof (N _ _ _ _ A2 A3 ltac:(right; congruence)).
    pose proof (N _ _ _ _ A2 A4 ltac:(right; congruence)). pose proof (N _ _ _ _ A3 A4 ltac:(left; congruence)).
    rewrite !NoDup_cons, !not_elem_of_cons. split_and!; try done; try apply not_elem_of_nil. apply NoDup_nil_2.
  - intros x [->|[->|[]%elem_of_nil]%elem_of_cons]%elem_of_cons; eauto.
  - intros x [->|[->|[]%elem_of_nil]%elem_of_cons]%elem_of_cons; eauto.
Qed.

(** ** A conversion, from the quote to what it wrote *)
Record conversion_made (d d' : database) (u : uuid) (quote : FXQuote) (key : string) (now : Z) (v : FXConversion)
    (a : fx_accounts) (bsu btu bsp btp : balance_row) (createdAt : Z) (cid st tt : uuid) : Prop := {
  cm_direction : direction_open (fx d) (xq_DirectionID quote);
  cm_roles : fx_roles d u quote a;
  cm_locked : fx_locked a bsu btu bsp btp d (xq_SourceCurrency quote) (xq_TargetCurrency quote);
  cm_funds : xq_SourceAmount quote <= b_balance bsu;
  cm_source_limit : position_within (fx d) (xq_PairID quote) (xq_SourceCurrency quote)
                      (b_balance bsp + xq_SourceAmount quote);
  cm_target_limit : position_within (fx d) (xq_PairID quote) (xq_TargetCurrency quote)
                      (b_balance btp - xq_TargetAmount quote);
  cm_written : conversion_written ring a (xq_SourceAmount quote) (xq_TargetAmount quote) bsu btu bsp btp
                 d d' u quote key now v createdAt cid st tt;
}.

(** CHECK and the consistency triggers hold of the rows. *)
Definition fx_checked (d : database) : Prop :=
  forall id q, fx_quotes (fx d) !! id = Some q -> fx_quote_checks q = true.
Lemma fx_quote_checks_distinct q : fx_quote_checks q = true -> fq_source_currency q <> fq_target_currency q.
Proof.
  unfold fx_quote_checks. rewrite !andb_true_iff. intros [_ H]. by apply negb_true_iff, bool_decide_eq_false in H.
Qed.

(** The consistency trigger of the insert ties the conversion to its quote's currencies. *)
Lemma write_conversion_consistent u quote key a bal after now w v w' :
  write_conversion ring reg u quote key a bal after now w = (Ok v, w') ->
  exists c, conversion_consistent (fx (w_db w)) (pending_conversion u quote key c) = true.
Proof.
  intros H. unfold write_conversion in H.
  apply bind_Ok in H as (cid & w1 & [= <- <-] & H). apply bind_Ok in H as (st & w2 & [= <- <-] & H).
  apply bind_Ok in H as (tt & w3 & [= <- <-] & H). cbv zeta in H.
  apply bind_Ok in H as (created & w4 & H4%wrap_Ok & _). apply stmt_Ok in H4 as (t4 & H4 & _).
  apply sql_insert_fx_conversion_Ok in H4 as (_ & Hc & _). by exists t4.
Qed.
Lemma conversion_consistent_Some t c : conversion_consistent t c = true ->
  exists q, fx_quotes t !! fc_quote_id c = Some q /\ fq_user_id q = fc_user_id c /\
    fq_source_currency q = fc_source_currency c /\ fq_target_currency q = fc_target_currency c /\
    fq_source_amount q = fc_source_amount c /\ fq_target_amount q = fc_target_amount c.
Proof.
  unfold conversion_consistent. destruct (fx_quotes t !! _) as [q|] eqn:Eq; [|done].
  rewrite !andb_true_iff, !bool_decide_eq_true, !Z.eqb_eq. intros. exists q. naive_solver.
Qed.

Lemma convert_quote_Ok u quote key now w v w' :
  fx_checked (w_db w) ->
  convert_quote ring reg u quote key now w = (Ok v, w') ->
  exists a bsu btu bsp btp createdAt cid st tt,
    conversion_made (w_db w) (w_db w') u quote key now v a bsu btu bsp btp createdAt cid st tt.
Proof.
  intros Hchk H. unfold convert_quote in H.
  apply bind_Ok in H as (u1 & w1 & [Hdir E1]%lock_direction_Ok & H).
  apply bind_Ok in H as (u2 & w2 & H2 & H). pose proof (require_currencies_reads _ _ _ _ H2) as E2.
  apply bind_Ok in H as (a & w3 & [Hroles E3]%resolve_fx_accounts_Ok & H).
  apply bind_Ok in H as (u4 & w4 & H4 & H).
  assert (E4 : w_db w4 = w_db w3).
  { unfold lockFXPositionLimits in H4. apply bind_Ok in H4 as (n & w5 & (t & _ & <-)%wrap_Ok%query_Ok & H4).
    destruct (n =? 0)%nat; [done|]. by injection H4 as _ <-. }
  apply bind_Ok in H as (m1 & w5 & [-> E5]%wrap_Ok%LockBalances_Ok & H).
  apply bind_Ok in H as (m2 & w6 & [-> E6]%wrap_Ok%LockBalances_Ok & H). cbv zeta in H.
  apply bind_Ok in H as (u7 & w7 & [H7 ->]%lift_Ok & H).
  apply bind_Ok in H as (after & w8 & [H8 ->]%of_sum_Ok & H).
  apply bind_Ok in H as (u9 & w9 & [Hlim E9]%checkPositionLimits_Ok & H). destruct u7.
  assert (Ew : w_db w6 = w_db w) by congruence.
  assert (Ew5 : w_db w5 = w_db w) by congruence. assert (Ew4 : w_db w4 = w_db w) by congruence.
  assert (Ew9 : w_db w9 = w_db w) by congruence. assert (Ew2 : w_db w2 = w_db w) by congruence.
  rewrite Ew5, Ew4 in *. rewrite Ew in Hlim. rewrite Ew2 in Hroles.
  set (bal := _ ∪ _) in *.
  assert (Hbal : forall id ab, bal !! id = Some ab -> balance_of (w_db w) id = Some ab).
  { intros id ab. unfold bal. rewrite lookup_union_Some_raw, !select_balances_lookup.
    intros [H'|[_ H']]; revert H'; case_decide; done. }
  apply (project_Ok (w_db w) bal a quote) in H8 as (bsu & btu & bsp & btp & B1 & B2 & B3 & B4 & Hf & ->);
    [|exact Hbal|by apply (validateFXBalances_Ok bal a quote)].
  assert (Hne : xq_SourceCurrency quote <> xq_TargetCurrency quote).
  { apply write_conversion_consistent in H as (c & Hc). rewrite Ew9 in Hc.
    apply conversion_consistent_Some in Hc as (q & Hq & _ & Es & Et & _).
    simpl in Es, Et. rewrite <- Es, <- Et. by apply fx_quote_checks_distinct, (Hchk _ _ Hq). }
  pose proof (roles_locked _ _ _ _ _ _ _ _ Hne Hroles B1 B2 B3 B4) as L.
  apply (write_conversion_Ok ring reg a (xq_SourceAmount quote) (xq_TargetAmount quote) bsu btu bsp btp)
    in H as (createdAt & cid & st & tt & Hw); [|done|done|by rewrite Ew9].
  rewrite Ew9 in Hw. exists a, bsu, btu, bsp, btp, createdAt, cid, st, tt. split; try done.
  - apply Hlim. simpl. by rewrite lookup_insert_ne, lookup_singleton_eq.
  - apply Hlim. simpl. by rewrite lookup_insert_eq.
Qed.

(** ** The whole call *)
(** A quote that can be executed for the expected amounts. *)
Record executable (d : database) (u quoteID : uuid) (es et now t : Z) (q : fx_quote_row) : Prop := {
  ex_row : fx_quotes (fx d) !! quoteID = Some q;
  ex_user : fq_user_id q = u;
  ex_status : fq_status q = "active";
  ex_open : now < fq_expires_at q /\ t < fq_expires_at q;
  ex_amounts : fq_source_amount q = es /\ fq_target_amount q = et;
}.
Lemma lock_quote_Ok u qid es et now w quote w' :
  lock_quote u qid es et now w = (Ok quote, w') ->
  exists t q, executable (w_db w) u qid es et now t q /\ quote = scanFXQuote t qid q /\ w_db w' = w_db w.
Proof.
  intros H. unfold lock_quote in H. apply bind_Ok in H as ([e|x] & w1 & Hr & H).
  { revert H. by destruct (is_no_rows e). }
  apply read_row_Ok in Hr as (t & Hr & E). unfold select_quote in Hr.
  destruct (find_row _ _) as [[id q]|] eqn:Ef; [|done]. injection Hr as <-.
  apply find_row_Some in Ef as [Hq Hp]. unfold quote_of_id in Hp.
  apply andb_true_iff in Hp as [->%bool_decide_eq_true Hu%bool_decide_eq_true].
  case_bool_decide as Hst; cbn [negb] in H; [|by destruct (bool_decide _)].
  destruct (now <? _) eqn:En; [|done]. cbn [negb] in H. destruct (_ || _) eqn:Ea; [done|].
  injection H as <- <-. apply Z.ltb_lt in En. apply orb_false_iff in Ea as [E1 E2].
  apply negb_false_iff, Z.eqb_eq in E1, E2.
  change (quote_status t q = "active") in Hst. unfold quote_status in Hst.
  destruct (bool_decide (fq_status q = "active") && (fq_expires_at q <=? t)) eqn:Ex; [done|].
  exists t, q. split; [|done]. split; try done. rewrite bool_decide_true in Ex by done. simpl in Ex.
  apply Z.leb_gt in Ex. simpl in En. lia.
Qed.

(** A conversion on record for the same quote and amounts: what a replay returns. *)
Definition recorded (d : database) (u qid : uuid) (key : string) (es et : Z) (v : FXConversion) : Prop :=
  exists id c, fx_conversions (fx d) !! id = Some c /\ v = scanFXConversion id c /\
    fc_user_id c = u /\ fc_idempotency_key c = key /\ fc_quote_id c = qid /\
    fc_source_amount c = es /\ fc_target_amount c = et.
(** A conversion of an executable quote. *)
Definition conversion_of (d d' : database) (u qid : uuid) (key : string) (es et now : Z) (v : FXConversion) : Prop :=
  exists t q a bsu btu bsp btp createdAt cid st tt, executable d u qid es et now t q /\
    conversion_made d d' u (scanFXQuote t qid q) key now v a bsu btu bsp btp createdAt cid st tt.

Lemma conversion_body_Ok u qid key es et now w v w' :
  fx_checked (w_db w) -> conversion_body ring reg u qid key es et now w = (Ok v, w') ->
  (w_db w' = w_db w /\ recorded (w_db w) u qid key es et v)
  \/ conversion_of (w_db w) (w_db w') u qid key es et now v.
Proof.
  intros Hchk H. unfold conversion_body in H.
  apply bind_Ok in H as (u1 & w1 & (t1 & _ & E1)%wrap_Ok%query_Ok & H).
  apply bind_Ok in H as ([e|c] & w2 & Hr & H).
  - destruct (is_no_rows e); [|done]. cbn [negb] in H.
    assert (E2 : w_db w2 = w_db w1).
    { assert (Hf : reads (try (scan_row (query (select_conversion (conversion_of_key u key)))))) by frame.
      by apply Hf in Hr. }
    apply bind_Ok in H as (quote & w3 & (t & q & Hex & -> & E3)%lock_quote_Ok & H). right.
    apply convert_quote_Ok in H as (a & bsu & btu & bsp & btp & created & cid & st & tt & Hm);
      [|by rewrite E3, E2, E1].
    exists t, q, a, bsu, btu, bsp, btp, created, cid, st, tt. rewrite E3, E2, E1 in Hm. rewrite E2, E1 in Hex. done.
  - apply read_row_Ok in Hr as (t & Hr & E2). unfold select_conversion in Hr.
    destruct (find_row _ _) as [[id r]|] eqn:Ef; [|done]. injection Hr as <-.
    apply find_row_Some in Ef as [Hc Hp]. destruct (_ || _) eqn:Ea; [done|]. injection H as <- <-.
    apply andb_true_iff in Hp as [Hu%bool_decide_eq_true Hk%bool_decide_eq_true].
    rewrite !orb_false_iff, !negb_false_iff, bool_decide_eq_true, !Z.eqb_eq in Ea. simpl in Ea.
    left. split; [congruence|]. rewrite E1 in Hc. exists id, r. naive_solver.
Qed.

(** Whatever happens: nothing changed, or one conversion was made. *)
Lemma executeConversion_db u qid rawKey es et w r w' :
  fx_checked (w_db w) -> executeConversion ring reg u qid rawKey es et w = (r, w') ->
  (w_db w' = w_db w /\ forall v, r = Ok v -> recorded (w_db w) u qid (TrimSpace rawKey) es et v)
  \/ exists v, conversion_of (w_db w) (w_db w') u qid (TrimSpace rawKey) es et (w_now w) v
       /\ (r = Ok v \/ exists i, r = Err (Wrap "commit tx" (infra_error i))).
Proof.
  intros Hchk H. unfold executeConversion in H.
  destruct (_ || _) in H; [injection H as <- <-; by left|].
  unfold bind at 1 in H. destruct (validateKey rawKey) as [e|key] eqn:Ek; simpl in H; [injection H as <- <-; by left|].
  assert (key = TrimSpace rawKey) as ->.
  { unfold validateKey in Ek. cbv zeta in Ek. revert Ek. repeat case_match; congruence. }
  destruct (_ || _) in H; [injection H as <- <-; by left|]. unfold bind, time_now in H.
  apply WithTx_db in H as [[E Hno]|(v & w1 & w2 & E1 & Hb & E2 & _ & Hres)]; [left; split; [done|]; naive_solver|].
  rewrite <- E1 in Hchk. apply conversion_body_Ok in Hb as [[E Hrec]|Hc]; [| |done].
  - left. rewrite E2, E, E1. split; [done|]. intros v' ->. rewrite E1 in Hrec. destruct Hres as [[= ->]|(i & [=])]. done.
  - right. exists v. rewrite E2. rewrite E1 in Hc. done.
Qed.
End checks.
