(* ===== verification/FxBooks.v ===== *)
(** * Prices of quotes

    What [price] and [quote_route] compute, against exact rational arithmetic: the
    client's rate of a route, the floor it pays, and why a customer who converts
    there and back at one reference rate never ends up with more.
    Then the books of every conversion, and quotes from the request to the row. *)
From Stdlib Require Import QArith Qround Qfield.
From stdpp Require Import prelude gmap strings list sorting.
From S2P Require Import Prelude Decimal Errors Currency Events Money MoneyFacts Store TxRepo Repos.
From S2P Require Import AccountRepo Fee Processors ProcFx FxRepo Fx Frames Lawful Postings Invariant Engine.
From S2P Require Import FxFacts.
Open Scope Z_scope.
(** ** Trimming twice *)
Lemma trim_left_head s : match trim_left s with String c _ => is_space c = false | EmptyString => True end.
Proof. induction s as [|c s IH]; [done|]. simpl. by destruct (is_space c) eqn:E. Qed.
Lemma TrimSpace_idemp s : TrimSpace (TrimSpace s) = TrimSpace s.
Proof.
  unfold TrimSpace. pose proof (trim_left_head s) as H. destruct (trim_left s) as [|c r]; [done|].
  assert (E : trim_left (trim_right (String c r)) = trim_right (String c r)).
  { cbn [trim_right all_space]. rewrite H. cbn [andb trim_left]. by rewrite H. }
  by rewrite E, trim_right_idemp.
Qed.

(** ** The rate of a direction *)
Definition reference (x : priced_route) : Q := Qmake (fr_reference_rate (ro_rate x)) (Z.to_pos (10 ^ 18)).
Definition spread_of (x : priced_route) : Z := fd_spread_basis_points (ro_direction x).
(** Base to quote: the bid.  Quote to base: one over the ask. *)
Definition client_rate (x : priced_route) (source : string) : Q :=
  if bool_decide (source = TrimSpace (fp_base_currency (ro_pair x)))
  then reference x * Qmake (10000 - spread_of x) 10000
  else / (reference x * Qmake (10000 + spread_of x) 10000).
(** The amount a price pays before it is rounded. *)
Definition exact_price (x : priced_route) (source : string) (amount sourceUnit targetUnit : Z) : Q :=
  exact_conversion amount (client_rate x source) 0 sourceUnit targetUnit.

Lemma ParseRate_numeric18 n : 0 < n ->
  ParseRate (numeric18_text n) = inr (MkRate (Some (Qred (Qmake n (Z.to_pos (10 ^ 18)))))).
Proof. intros Hn. apply (ParseRate_point n 18); lia. Qed.

Lemma Qred_positive_iff q : 0 < Qnum (Qred q) <-> (0 < q)%Q.
Proof.
  rewrite <- (Qred_correct q) at 2. unfold Qlt. simpl. by rewrite Z.mul_1_r.
Qed.
Lemma Qmake_positive n d : 0 < n -> (0 < Qmake n d)%Q.
Proof. unfold Qlt. simpl. lia. Qed.

(** Both rates of a direction are the same rational, and it is positive. *)
Lemma canonicalDirectionalRates_Ok base quote source target v spread calc client :
  canonicalDirectionalRates base quote source target (MkRate (Some v)) spread = inr (calc, client) ->
  0 < Qnum v /\ 0 <= spread < 10000 /\ TrimSpace base <> TrimSpace quote /\
  ((source = TrimSpace base /\ target = TrimSpace quote /\
    exists r, calc = MkRate (Some r) /\ (r == v * Qmake (10000 - spread) 10000)%Q /\ client = calc)
   \/ (source = TrimSpace quote /\ target = TrimSpace base /\
    exists r, calc = MkRate (Some r) /\ (r == / (v * Qmake (10000 + spread) 10000))%Q)).
Proof.
  unfold canonicalDirectionalRates. cbn [r_Value].
  destruct ((Qnum v <=? 0) || _ || _) eqn:E; [done|].
  apply orb_false_iff in E as [[E1%Z.leb_gt E2%Z.ltb_ge]%orb_false_iff E3%Z.leb_gt].
  destruct (bool_decide (TrimSpace base = "") || _ || _) eqn:Eb; [done|].
  apply orb_false_iff in Eb as [_ Eb%bool_decide_eq_false].
  destruct (bool_decide (source = _) && _) eqn:Es.
  - apply andb_true_iff in Es as [H1%bool_decide_eq_true H2%bool_decide_eq_true]. intros [= <- <-].
    split_and!; try done. left. split_and!; try done. eexists. split_and!; try done. by rewrite !Qred_correct.
  - destruct (bool_decide (source = TrimSpace quote) && _) eqn:Et; [|done].
    apply andb_true_iff in Et as [H1%bool_decide_eq_true H2%bool_decide_eq_true]. intros [= <- <-].
    split_and!; try done. right. split_and!; try done. eexists. split; [done|]. by rewrite !Qred_correct.
Qed.

Lemma exact_conversion_proper m v v' s a b :
  (v == v')%Q -> (exact_conversion m v s a b == exact_conversion m v' s a b)%Q.
Proof. intros E. unfold exact_conversion. by rewrite E. Qed.

(** A price, for a positive reference rate and SMALLINT exponents. *)
Record priced (x : priced_route) (source target : string) (amount su tu : Z)
    (text : string) (paid : Z) (rem : Remainder) : Prop := {
  pr_pair : source = TrimSpace (fp_base_currency (ro_pair x)) /\ target = TrimSpace (fp_quote_currency (ro_pair x))
         \/ source = TrimSpace (fp_quote_currency (ro_pair x)) /\ target = TrimSpace (fp_base_currency (ro_pair x));
  pr_differ : source <> target;
  pr_spread : 0 <= spread_of x < 10000;
  pr_units : 0 <= su /\ 0 <= tu;
  pr_source : 0 < amount;
  pr_paid : paid = Qfloor (exact_price x source amount su tu);
  pr_range : 0 < paid /\ in_int64 paid = true;
  pr_remainder : exists n d, 0 <= n < d /\ rem = MkRemainder (Z_text n) (Z_text d) /\
    (exact_price x source amount su tu == inject_Z paid + Qmake n (Z.to_pos d))%Q;
}.
Lemma price_Ok x source target amount su tu text paid rem :
  0 < fr_reference_rate (ro_rate x) -> su <= 32767 -> tu <= 32767 ->
  price x source target amount su tu = inr (text, paid, rem) ->
  priced x source target amount su tu text paid rem.
Proof.
  intros Hr Hsu Htu H. unfold price in H. cbv zeta in H. rewrite ParseRate_numeric18 in H by done.
  destruct (canonicalDirectionalRates _ _ _ _ _ _) as [e|[calc client]] eqn:Ec in H; [done|].
  apply canonicalDirectionalRates_Ok in Ec as (Hv & Hsp & Hne & Hdir).
  assert (Hrate : exists r, calc = MkRate (Some r) /\ (r == client_rate x source)%Q /\ 0 < Qnum r /\
    (source = TrimSpace (fp_base_currency (ro_pair x)) /\ target = TrimSpace (fp_quote_currency (ro_pair x))
     \/ source = TrimSpace (fp_quote_currency (ro_pair x)) /\ target = TrimSpace (fp_base_currency (ro_pair x)))).
  { apply Qred_positive_iff in Hv. rewrite !TrimSpace_idemp in Hdir.
    unfold client_rate, reference, spread_of.
    assert (P1 : (0 < Qmake (10000 - fd_spread_basis_points (ro_direction x)) 10000)%Q) by (apply Qmake_positive; lia).
    assert (P2 : (0 < Qmake (10000 + fd_spread_basis_points (ro_direction x)) 10000)%Q) by (apply Qmake_positive; lia).
    destruct Hdir as [(E1 & E2 & r & -> & Er & _)|(E1 & E2 & r & -> & Er)]; exists r.
    - rewrite bool_decide_true by done. rewrite Qred_correct in Er. split_and!; try done; [|by left].
      assert (0 < r)%Q; [|unfold Qlt in *; simpl in *; lia]. rewrite Er. by apply Qmult_lt_0_compat.
    - rewrite bool_decide_false by congruence. rewrite Qred_correct in Er. split_and!; try done; [|by right].
      assert (0 < r)%Q; [|unfold Qlt in *; simpl in *; lia]. rewrite Er.
      by apply Qinv_lt_0_compat, Qmult_lt_0_compat. }
  destruct Hrate as (r & -> & Er & Hrp & Hpair). destruct (ExactString client) as [|t]; [done|].
  destruct (ConvertWithMinorUnits _ _ _ _ _ _) as [e|[m rm]] eqn:Em in H; [done|]. injection H as <- <- <-.
  unfold ConvertWithMinorUnits in Em. cbn [m_Currency] in Em.
  destruct (ValidateCode source); [done|]. destruct (ValidateCode target); [done|].
  case_bool_decide as Hst; [done|]. destruct (_ || _) eqn:Eu in Em; [done|].
  apply orb_false_iff in Eu as [Eu1%Z.ltb_ge Eu2%Z.ltb_ge].
  assert (Ha : 0 < amount).
  { unfold convertWithMinorUnits in Em. cbn [m_Minor] in Em. destruct (amount <=? 0) eqn:E; [done|]. by apply Z.leb_gt. }
  destruct (convert_exact (MkMoney source amount) target su tu r 0) as (n & d & Hn & Hx & E); try done; [lia..|].
  rewrite E in Em. clear E. cbn [m_Minor] in *.
  assert (Ee : (exact_conversion amount r 0 su tu == exact_price x source amount su tu)%Q)
    by (by apply exact_conversion_proper).
  remember (Qfloor (exact_conversion amount r 0 su tu)) as z eqn:Ez.
  destruct (z <=? 0) eqn:E0 in Em; [done|]. destruct (max_int64 <? _) eqn:E1 in Em; [done|].
  injection Em as <- <-. apply Z.leb_gt in E0. apply Z.ltb_ge in E1. cbn [m_Minor].
  split; try done.
  - rewrite Ez. by apply Qfloor_comp.
  - split; [done|]. unfold in_int64, min_int64, max_int64 in *. lia.
  - exists n, d. split_and!; try done; [lia..|]. by rewrite <- Ee.
Qed.

(** ** There and back *)
Lemma client_rates_product x y source target a a' b b' t t' p p' r r' su tu su' tu' :
  priced x source target a su tu t p r -> priced y target source a' su' tu' t' p' r' ->
  TrimSpace (fp_base_currency (ro_pair y)) = TrimSpace (fp_base_currency (ro_pair x)) ->
  TrimSpace (fp_quote_currency (ro_pair y)) = TrimSpace (fp_quote_currency (ro_pair x)) ->
  reference y = reference x -> (0 < reference x)%Q -> b = client_rate x source -> b' = client_rate y target ->
  (0 < b /\ 0 < b' /\ b * b' <= 1)%Q.
Proof.
  intros [Hx Hd [Hs0 Hs1] _ _ _ _ _] [Hy _ [Ht0 Ht1] _ _ _ _ _] Eb Eq Er Hr -> ->. unfold client_rate. rewrite Eb, Er.
  set (v := reference x) in *. set (s := spread_of x) in *. set (s' := spread_of y) in *.
  assert (P1 : (0 < Qmake (10000 - s) 10000)%Q) by (apply Qmake_positive; lia).
  assert (P2 : (0 < Qmake (10000 + s) 10000)%Q) by (apply Qmake_positive; lia).
  assert (P3 : (0 < Qmake (10000 - s') 10000)%Q) by (apply Qmake_positive; lia).
  assert (P4 : (0 < Qmake (10000 + s') 10000)%Q) by (apply Qmake_positive; lia).
  assert (Hprod : forall x y : Q, (0 < x)%Q -> (0 < y)%Q -> (x <= y)%Q -> (v * x * / (v * y) <= 1)%Q).
  { intros m n Hm Hn Hmn. apply Qle_shift_div_r; [by apply Qmult_lt_0_compat|].
    rewrite Qmult_1_l, !(Qmult_comm v). apply Qmult_le_compat_r; [done|by apply Qlt_le_weak]. }
  assert (Hle : forall m n, 0 <= m -> 0 <= n -> (Qmake (10000 - m) 10000 <= Qmake (10000 + n) 10000)%Q)
    by (intros; unfold Qle; simpl; lia).
  destruct Hx as [[E1 E2]|[E1 E2]].
  - rewrite (bool_decide_true (source = _)) by done. rewrite (bool_decide_false (target = _)) by congruence.
    split_and!; [by apply Qmult_lt_0_compat|by apply Qinv_lt_0_compat, Qmult_lt_0_compat|].
    by apply Hprod, Hle.
  - rewrite (bool_decide_false (source = _)) by congruence. rewrite (bool_decide_true (target = _)) by done.
    split_and!; [by apply Qinv_lt_0_compat, Qmult_lt_0_compat|by apply Qmult_lt_0_compat|].
    rewrite Qmult_comm. by apply Hprod, Hle.
Qed.

Definition scale (su tu : Z) : Q := Qmake (10 ^ Z.max 0 (tu - su)) (Z.to_pos (10 ^ Z.max 0 (su - tu))).
Lemma scale_positive su tu : (0 < scale su tu)%Q.
Proof. apply Qmake_positive, Z.pow_pos_nonneg; lia. Qed.
Lemma scale_back su tu : (scale su tu * scale tu su == 1)%Q.
Proof.
  unfold scale, Qeq, Qmult. simpl. rewrite Pos2Z.inj_mul, !Z2Pos.id by (apply Z.pow_pos_nonneg; lia). lia.
Qed.
Lemma exact_price_scale x source amount su tu :
  (exact_price x source amount su tu == inject_Z amount * client_rate x source * scale su tu)%Q.
Proof.
  unfold exact_price, exact_conversion, scale. change (Qmake (10000 - 0) 10000) with (Qmake 10000 10000).
  assert (E : (Qmake 10000 10000 == 1)%Q) by done. rewrite E. ring.
Qed.

Lemma round_trip x y source target a su tu p p' t t' r r' :
  0 < fr_reference_rate (ro_rate x) ->
  priced x source target a su tu t p r -> priced y target source p tu su t' p' r' ->
  TrimSpace (fp_base_currency (ro_pair y)) = TrimSpace (fp_base_currency (ro_pair x)) ->
  TrimSpace (fp_quote_currency (ro_pair y)) = TrimSpace (fp_quote_currency (ro_pair x)) ->
  fr_reference_rate (ro_rate y) = fr_reference_rate (ro_rate x) -> p' <= a.
Proof.
  intros Hpos Hx Hy Eb Eq Er.
  destruct (client_rates_product x y source target a p (client_rate x source) (client_rate y target)
    t t' p p' r r' su tu tu su Hx Hy Eb Eq)
    as (Hb & Hb' & Hp); [by unfold reference; rewrite Er|by apply Qmake_positive|done|done|].
  destruct Hx as [_ _ _ _ Ha -> _ _], Hy as [_ _ _ _ _ -> _ _].
  set (b := client_rate x source) in *. set (b' := client_rate y target) in *.
  set (e := exact_price x source a su tu). rewrite Zle_Qle. eapply Qle_trans; [apply Qfloor_le|].
  rewrite exact_price_scale. fold b'.
  assert (He : (inject_Z (Qfloor e) <= inject_Z a * b * scale su tu)%Q).
  { eapply Qle_trans; [apply Qfloor_le|]. unfold e. rewrite exact_price_scale. apply Qle_refl. }
  assert (Hs : (0 < b' * scale tu su)%Q) by (apply Qmult_lt_0_compat; [done|apply scale_positive]).
  apply Qle_trans with (inject_Z a * b * scale su tu * (b' * scale tu su))%Q.
  - rewrite <- (Qmult_assoc (inject_Z (Qfloor e))).
    apply Qmult_le_compat_r; [exact He|by apply Qlt_le_weak].
  - assert (E : (inject_Z a * b * scale su tu * (b' * scale tu su)
                 == (b * b') * inject_Z a * (scale su tu * scale tu su))%Q) by ring.
    rewrite E, scale_back, Qmult_1_r.
    apply Qle_trans with (1 * inject_Z a)%Q; [|rewrite Qmult_1_l; apply Qle_refl].
    apply Qmult_le_compat_r; [exact Hp|]. change 0%Q with (inject_Z 0). rewrite <- Zle_Qle. lia.
Qed.

(** ** The amounts of a conversion *)
Definition fx_delta (a : fx_accounts) (es et : Z) (x : uuid) : Z :=
  if decide (x = fa_sourceUser a) then - es else if decide (x = fa_sourcePosition a) then es
  else if decide (x = fa_targetPosition a) then - et else if decide (x = fa_targetUser a) then et else 0.
Definition moved_by (delta : uuid -> Z) (d d' : database) : Prop :=
  forall x, account_balances d' !! x
    = (fun b => BalanceRow (b_balance b + delta x) (b_allow_negative b)) <$> account_balances d !! x.

Section books.
Context `{DEC : !Decimal} `{UT : !UuidText} `{HASH : !Hashing}.
Context (ring : DigestRing) (reg : registry).

Section made.
Context (d d' : database) (u : uuid) (quote : FXQuote) (key : string) (now : Z) (v : FXConversion)
  (a : fx_accounts) (bsu btu bsp btp : balance_row) (createdAt : Z) (cid st tt : uuid).
Context (M : conversion_made ring d d' u quote key now v a bsu btu bsp btp createdAt cid st tt).

Lemma made_postings : exists rx1 ry1 rx2 ry2 dm,
  leg_rows a (xq_SourceAmount quote) (xq_TargetAmount quote) bsu btu bsp btp st tt rx1 ry1 rx2 ry2 /\
  posting d dm st [rx1; ry1] /\ posting dm d' tt [rx2; ry2].
Proof. by destruct M as [_ _ _ _ _ _ []]. Qed.
Lemma made_distinct :
  fa_sourceUser a <> fa_targetUser a /\ fa_sourceUser a <> fa_sourcePosition a /\
  fa_sourceUser a <> fa_targetPosition a /\ fa_targetUser a <> fa_sourcePosition a /\
  fa_targetUser a <> fa_targetPosition a /\ fa_sourcePosition a <> fa_targetPosition a.
Proof.
  destruct M as [_ _ [Hd _ _ _] _ _ _ _]. apply NoDup_cons in Hd as [Nsu Hd].
  apply NoDup_cons in Hd as [Ntu Hd]. apply NoDup_cons in Hd as [Nsp _].
  rewrite !not_elem_of_cons in *. naive_solver.
Qed.

Lemma made_moves : moved_by (fx_delta a (xq_SourceAmount quote) (xq_TargetAmount quote)) d d'.
Proof.
  destruct made_postings as (rx1 & ry1 & rx2 & ry2 & dm & [Ps Pt _ _ _ _] & P1 & P2).
  destruct made_distinct as (N1 & N2 & N3 & N4 & N5 & N6).
  intros x. rewrite (po_balances _ _ _ _ P2), (po_balances _ _ _ _ P1), <- option_fmap_compose.
  apply option_fmap_ext. intros b. unfold compose. simpl. f_equal.
  rewrite (pair_balance _ _ _ _ _ _ Ps ltac:(done)), (pair_balance _ _ _ _ _ _ Pt ltac:(done)).
  unfold fx_delta. repeat case_decide; subst; try done; lia.
Qed.

Lemma made_wf : wf_ledger d -> wf_ledger d'.
Proof.
  destruct made_postings as (rx1 & ry1 & rx2 & ry2 & dm & _ & P1 & P2).
  intros W. eapply posting_wf_ledger; [exact P2|]. by eapply posting_wf_ledger.
Qed.
Lemma made_total c : total d' c = total d c.
Proof.
  destruct made_postings as (rx1 & ry1 & rx2 & ry2 & dm & _ & P1 & P2).
  by rewrite (posting_total _ _ _ _ P2), (posting_total _ _ _ _ P1).
Qed.

(** The positions after the conversion are within the pair's limits. *)
Lemma made_positions b :
  (account_balances d' !! fa_sourcePosition a = Some b ->
     position_within (fx d) (xq_PairID quote) (xq_SourceCurrency quote) (b_balance b)) /\
  (account_balances d' !! fa_targetPosition a = Some b ->
     position_within (fx d) (xq_PairID quote) (xq_TargetCurrency quote) (b_balance b)).
Proof.
  destruct M as [_ _ [_ _ _ (_ & _ & Bsp & Btp)] _ Hsp Htp _].
  destruct made_distinct as (N1 & N2 & N3 & N4 & N5 & N6).
  rewrite !made_moves, Bsp, Btp. unfold fx_delta.
  split; intros [= <-]; simpl.
  - rewrite decide_False, decide_True by done. exact Hsp.
  - rewrite !decide_False, decide_True by done.
    rewrite Z.add_opp_r. exact Htp.
Qed.
End made.

(** ** The invariant *)
(** A posted conversion, its quote and its two transactions. *)
Record booked (d : database) (id : uuid) (c : fx_conversion_row) : Prop := {
  bk_status : fc_status c = "posted";
  bk_quote : exists q, fx_quotes (fx d) !! fc_quote_id c = Some q /\ fq_status q = "consumed" /\
    fq_consumed_by_conversion_id q = Some id /\ fq_user_id q = fc_user_id c /\
    fq_source_currency q = fc_source_currency c /\ fq_target_currency q = fc_target_currency c /\
    fq_source_amount q = fc_source_amount c /\ fq_target_amount q = fc_target_amount c;
  bk_legs : exists st tt ts t2, fc_source_transaction_id c = Some st /\ fc_target_transaction_id c = Some tt /\
    st <> tt /\ ledger_transactions d !! st = Some ts /\ ledger_transactions d !! tt = Some t2 /\
    t_type ts = "fx_out" /\ t_amount ts = fc_source_amount c /\ t_currency ts = fc_source_currency c /\
    t_type t2 = "fx_in" /\ t_amount t2 = fc_target_amount c /\ t_currency t2 = fc_target_currency c /\
    t_status ts = "posted" /\ t_status t2 = "posted" /\
    fx_links (fx d) !! st = Some (FxLink id (fc_quote_id c) "source" tt) /\
    fx_links (fx d) !! tt = Some (FxLink id (fc_quote_id c) "target" st);
}.
Record fx_books (d : database) : Prop := {
  fb_checked : fx_checked d;
  fb_booked id c : fx_conversions (fx d) !! id = Some c -> booked d id c;
  fb_once i j ci cj : fx_conversions (fx d) !! i = Some ci -> fx_conversions (fx d) !! j = Some cj ->
    fc_quote_id ci = fc_quote_id cj \/
    (fc_user_id ci = fc_user_id cj /\ fc_idempotency_key ci = fc_idempotency_key cj) -> i = j;
  fb_consumed id q : fx_quotes (fx d) !! id = Some q -> fq_status q = "consumed" ->
    exists cid c, fq_consumed_by_conversion_id q = Some cid /\ fx_conversions (fx d) !! cid = Some c /\
      fc_quote_id c = id;
}.

Lemma consumed_checks now cid q : fx_quote_checks q = true -> fx_quote_checks (consumed_row now cid q) = true.
Proof.
  unfold fx_quote_checks. rewrite !andb_true_iff. intros H. destruct_and!. split_and!; try done.
Qed.

(** A conversion keeps the books. *)
Lemma made_books d d' u qid q t key now v a bsu btu bsp btp createdAt cid st tt es et :
  fx_books d -> executable d u qid es et now t q ->
  conversion_made ring d d' u (scanFXQuote t qid q) key now v a bsu btu bsp btp createdAt cid st tt -> fx_books d'.
Proof.
  intros B [Hq Hu Hs _ _] M. destruct M
    as [_ _ _ _ _ _ [_ Hcons Hnew Huniq Efx (Hne & Fs & Ft & Etx) _ _ _]].
  apply conversion_consistent_Some in Hcons as (q' & Hq' & _ & Ec1 & Ec2 & Ec3 & Ec4). simpl in *.
  rewrite Hq in Hq'. injection Hq' as <-.
  simpl in Efx. set (c0 := posted_row _ _ _ _) in Efx.
  assert (Econv : fx_conversions (fx d') = <[cid := c0]> (fx_conversions (fx d))) by (by rewrite Efx).
  assert (Equo : fx_quotes (fx d') = alter (consumed_row now cid) qid (fx_quotes (fx d))) by (by rewrite Efx).
  assert (Elnk : fx_links (fx d') = <[tt := FxLink cid qid "target" st]>
                   (<[st := FxLink cid qid "source" tt]> (fx_links (fx d)))) by (by rewrite Efx).
  split.
  - intros id r. rewrite Equo. intros [(<- & r0 & Hr & ->)|[_ Hr]]%lookup_alter_Some;
      [|by apply (fb_checked d B id)]. by apply consumed_checks, (fb_checked d B qid).
  - intros id c. rewrite Econv. intros [[<- <-]|[Hid Hc]]%lookup_insert_Some.
    + split; [done| |].
      * exists (consumed_row now cid q). change (fc_quote_id c0) with qid. rewrite Equo, lookup_alter_eq. rewrite Hq. simpl. split_and!; done.
      * exists st, tt. do 2 eexists. simpl. rewrite Etx, Elnk, !lookup_insert_eq.
        rewrite !(lookup_insert_ne _ tt st), !lookup_insert_eq by done. split_and!; try done.
    + destruct (fb_booked d B id c Hc) as [H1 (q1 & Hq1 & H2) (st1 & tt1 & ts & t2 & H3 & H4 & H5 & H6 & H7 & H8)].
      destruct (Huniq id c Hc) as [Hnq _].
      split; [done| |].
      * exists q1. rewrite Equo, lookup_alter_ne by done. done.
      * exists st1, tt1, ts, t2. rewrite Etx, Elnk.
        assert (st1 <> st) by congruence. assert (st1 <> tt) by congruence.
        assert (tt1 <> st) by congruence. assert (tt1 <> tt) by congruence.
        rewrite !lookup_insert_ne by done. done.
  - intros i j ci cj. rewrite Econv. intros [[<- <-]|[Hi Hci]]%lookup_insert_Some [[<- <-]|[Hj Hcj]]%lookup_insert_Some.
    + done.
    + destruct (Huniq j cj Hcj) as [H1 H2]. simpl. naive_solver.
    + destruct (Huniq i ci Hci) as [H1 H2]. simpl. naive_solver.
    + by apply (fb_once d B).
  - intros id r. rewrite Equo, Econv. intros [(<- & r0 & Hr & ->)|[Hid Hr]]%lookup_alter_Some Hst.
    + exists cid, c0. simpl. rewrite lookup_insert_eq. done.
    + destruct (fb_consumed d B id r Hr Hst) as (cid' & c & H1 & H2 & H3). exists cid', c.
      rewrite lookup_insert_ne by congruence. done.
Qed.

(** The recorded conversion of a key is the one its execution returned. *)
Lemma made_recorded d d' u qid q t key now v a bsu btu bsp btp createdAt cid st tt es et :
  fx_books d -> executable d u qid es et now t q ->
  conversion_made ring d d' u (scanFXQuote t qid q) key now v a bsu btu bsp btp createdAt cid st tt ->
  recorded d' u qid key es et v.
Proof.
  intros B [Hq Hu Hs _ [Es Et]] M. destruct M as [_ _ _ _ _ _ [-> _ _ _ Efx _ _ _ _]].
  eexists cid, _. split; [by rewrite Efx; simpl; rewrite lookup_insert_eq|].
  unfold scanFXConversion, pending_conversion, posted_row. simpl. rewrite !TrimSpace_idemp. split_and!; done.
Qed.
End books.

Section quotes.
Context `{DEC : !Decimal} `{UT : !UuidText} `{HASH : !Hashing}.

(** ** Reads *)
Lemma loadCurrencyPolicy_Ok code w p w' :
  loadCurrencyPolicy code w = (Ok p, w') -> currencies (w_db w) !! code = Some p.1 /\ w_db w' = w_db w.
Proof.
  intros H. unfold loadCurrencyPolicy in H. apply bind_Ok in H as ([e|row] & w1 & Hr & H).
  { revert H. by destruct (is_no_rows e). }
  apply read_row_Ok in Hr as (t & Hr & E). destruct (c_operations row) as [ops|]; [|done].
  by injection H as <- <-.
Qed.
Lemma requireUserCashAccounts_reads u s t : reads (requireUserCashAccounts u s t).
Proof. unfold requireUserCashAccounts. frame. Qed.
Lemma quote_route_Ok source target now w x w' :
  quote_route source target now w = (Ok x, w') -> select_route source target now (w_db w) = Some x /\ w_db w' = w_db w.
Proof.
  intros H. unfold quote_route in H. apply bind_Ok in H as ([e|y] & w1 & Hr & H).
  - exfalso. destruct (is_no_rows e); [|done]. simpl in H.
    apply bind_Ok in H as ([e'|[[[ps de] np] ar]] & w2 & _ & H); revert H; [by destruct (is_no_rows e')|].
    destruct (bool_decide _), de, np, ar; done.
  - apply read_row_Ok in Hr as (t & Hr & E). injection H as <- <-. done.
Qed.

(** The selected route is open, and no open route has a newer rate. *)
Lemma select_route_newest source target now d x :
  select_route source target now d = Some x ->
  x ∈ routes (fx d) /\ route_open source target now x = true /\
  forall y, y ∈ routes (fx d) -> route_open source target now y = true ->
    fr_version (ro_rate y) <= fr_version (ro_rate x).
Proof.
  unfold select_route. set (l := filter _ _). intros H.
  pose proof (merge_sort_Permutation newest_rate l) as HP.
  assert (HS : StronglySorted newest_rate (merge_sort newest_rate l)).
  { apply Sorted_StronglySorted; [intros a b c; unfold newest_rate; lia|].
    apply Sorted_merge_sort. intros a b. unfold newest_rate. lia. }
  destruct (merge_sort newest_rate l) as [|z k] eqn:E; [done|]. injection H as ->.
  assert (Hx : x ∈ l) by (rewrite <- HP; left).
  apply list_elem_of_filter in Hx as [Ho Hx]. split_and!; [done..|]. intros y Hy Hoy.
  assert (Hl : y ∈ x :: k) by (rewrite HP; by apply list_elem_of_filter).
  apply elem_of_cons in Hl as [->|Hl]; [lia|]. inversion HS as [|? ? _ Hf]; subst.
  rewrite Forall_forall in Hf. apply (Hf y), Hl.
Qed.
Lemma routes_rows t x : x ∈ routes t ->
  fx_rate_versions t !! ro_rate_id x = Some (ro_rate x) /\
  fx_pair_directions t !! ro_direction_id x = Some (ro_direction x) /\
  fx_pairs t !! ro_pair_id x = Some (ro_pair x).
Proof.
  unfold routes. rewrite list_elem_of_omap. intros ([id r] & Hin%elem_of_map_to_list & H). simpl in H.
  destruct (fx_pair_directions t !! fr_direction_id r) as [dir|] eqn:Ed; [|done]. simpl in H.
  destruct (fx_pairs t !! fd_pair_id dir) as [p|] eqn:Ep; [|done]. simpl in H. by injection H as <-.
Qed.

(** ** The row *)
Definition rates_checked (d : database) : Prop :=
  (forall id r, fx_rate_versions (fx d) !! id = Some r -> 0 < fr_reference_rate r) /\
  (forall code c, currencies d !! code = Some c -> c_minor_unit c <= 32767).

Record quote_made (d d' : database) (u : uuid) (source target : string) (amount : Z) (key : string) (now : Z)
    (v : FXQuote) (x : priced_route) (q : fx_quote_row) : Prop := {
  qm_route : select_route source target now d = Some x;
  qm_limits : fd_min_source_amount (ro_direction x) <= amount <= fd_max_source_amount (ro_direction x);
  qm_units : (exists c, currencies d !! source = Some c /\ xq_SourceMinorUnit v = c_minor_unit c) /\
             (exists c, currencies d !! target = Some c /\ xq_TargetMinorUnit v = c_minor_unit c);
  qm_price : exists rem, price x source target amount (xq_SourceMinorUnit v) (xq_TargetMinorUnit v)
               = inr (xq_ClientRate v, xq_TargetAmount v, rem);
  qm_fields : xq_UserID v = u /\ xq_SourceCurrency v = source /\ xq_TargetCurrency v = target /\
    xq_SourceAmount v = amount /\ xq_RequestKey v = key /\ xq_Status v = "active" /\
    xq_RateVersionID v = ro_rate_id x /\ xq_ExpiresAt v = now + fp_quote_ttl_seconds (ro_pair x);
  qm_row : fq_user_id q = u /\ fq_source_currency q = source /\ fq_target_currency q = target /\
    fq_source_amount q = amount /\ fq_target_amount q = xq_TargetAmount v /\ fq_request_key q = key /\
    fq_status q = "active" /\ fq_rate_version_id q = ro_rate_id x /\ fq_expires_at q = xq_ExpiresAt v /\
    fq_client_rate q = xq_ClientRate v /\ fq_consumed_by_conversion_id q = None;
  qm_checks : fx_quote_checks q = true;
  qm_new : fx_quotes (fx d) !! xq_ID v = None;
  qm_db : d' = with_fx d (set_fx_quotes (fx d) (<[xq_ID v := q]> (fx_quotes (fx d))));
}.

Lemma insert_quote_Ok id u key x s t su tu sa ta text rem exp d now n d' :
  insert_quote id u key x s t su tu sa ta text rem exp d now = inr (n, d') ->
  exists rr nu de, let q := new_quote u key x s t su tu sa ta rr text nu de exp now in
    fx_quote_checks q = true /\ fx_quotes (fx d) !! id = None /\
    d' = with_fx d (set_fx_quotes (fx d) (<[id := q]> (fx_quotes (fx d)))).
Proof.
  unfold insert_quote. destruct (numeric18 _) as [e|rr]; [done|]. destruct (numeric120 (rm_Numerator rem)) as [e|nu]; [done|].
  destruct (numeric120 (rm_Denominator rem)) as [e|de]; [done|]. unfold sql_insert_fx_quote.
  destruct (quote_consistent _ _); [|done]. destruct (fx_quote_checks _) eqn:Ec; [|done]. cbn [negb].
  destruct (bool_decide _ || _) eqn:Eu; [done|]. destruct (negb _ || _ || _); [done|].
  apply orb_false_iff in Eu as [Eu%bool_decide_eq_false%eq_None_not_Some _].
  intros [= _ <-]. exists rr, nu, de. done.
Qed.

Lemma price_quote_Ok u source target amount key now w v w' :
  price_quote u source target amount key now w = (Ok v, w') ->
  exists x q, quote_made (w_db w) (w_db w') u source target amount key now v x q.
Proof.
  intros H. unfold price_quote in H.
  apply bind_Ok in H as (sp & w1 & [Hsp E1]%loadCurrencyPolicy_Ok & H).
  apply bind_Ok in H as (tp & w2 & [Htp E2]%loadCurrencyPolicy_Ok & H).
  apply bind_Ok in H as (u3 & w3 & [_ ->]%lift_Ok & H). apply bind_Ok in H as (u4 & w4 & [_ ->]%lift_Ok & H).
  apply bind_Ok in H as (u5 & w5 & H5 & H). pose proof (requireUserCashAccounts_reads _ _ _ _ _ _ H5) as E5.
  apply bind_Ok in H as (x & w6 & [Hx E6]%quote_route_Ok & H).
  destruct (_ || _) eqn:El in H; [done|]. apply orb_false_iff in El as [El1%Z.ltb_ge El2%Z.ltb_ge]. cbv zeta in H.
  apply bind_Ok in H as ([[text paid] rem] & w7 & [Hp ->]%of_sum_Ok & H).
  apply bind_Ok in H as (id & w8 & [= <- <-] & H). apply bind_Ok in H as (created & w9 & H9%wrap_Ok & H).
  apply stmt_Ok in H9 as (t9 & H9 & _). injection H as <- <-.
  apply insert_quote_Ok in H9 as (rr & nu & de & Hc & Hnew & Edb).
  assert (E : w_db w6 = w_db w) by congruence. assert (E' : w_db w5 = w_db w) by congruence.
  simpl in Hnew, Edb. rewrite E in Hnew, Edb. rewrite E' in Hx. rewrite E1 in Htp.
  exists x, (new_quote u key x source target (c_minor_unit sp.1) (c_minor_unit tp.1) amount paid rr text nu de
    (now + fp_quote_ttl_seconds (ro_pair x)) t9).
  split; [done|done|..].
  - split; eexists; split; done.
  - exists rem. exact Hp.
  - done.
  - split_and!; reflexivity.
  - exact Hc.
  - exact Hnew.
  - exact Edb.
Qed.

(** A quote on record for the same request. *)
Definition quoted_before (d : database) (u : uuid) (source target : string) (amount : Z) (key : string) (v : FXQuote) : Prop :=
  exists t id q, fx_quotes (fx d) !! id = Some q /\ v = scanFXQuote t id q /\ fq_user_id q = u /\
    fq_request_key q = key /\ xq_SourceCurrency v = source /\ xq_TargetCurrency v = target /\ xq_SourceAmount v = amount.

Lemma quote_body_Ok u source target amount key now w v w' :
  quote_body u source target amount key now w = (Ok v, w') ->
  (w_db w' = w_db w /\ quoted_before (w_db w) u source target amount key v)
  \/ exists x q, quote_made (w_db w) (w_db w') u source target amount key now v x q.
Proof.
  intros H. unfold quote_body in H. apply bind_Ok in H as (u1 & w1 & (t1 & _ & E1)%wrap_Ok%query_Ok & H).
  apply bind_Ok in H as ([e|q] & w2 & Hr & H).
  - destruct (is_no_rows e); [|done]. cbn [negb] in H.
    assert (E2 : w_db w2 = w_db w1).
    { assert (Hf : reads (try (scan_row (query (select_quote (quote_of_key u key)))))) by frame. by apply Hf in Hr. }
    right. apply price_quote_Ok in H as (x & q & Hm). exists x, q. by rewrite E2, E1 in Hm.
  - apply read_row_Ok in Hr as (t & Hr & E2). unfold select_quote in Hr.
    destruct (find_row _ _) as [[id r]|] eqn:Ef; [|done]. injection Hr as <-.
    apply find_row_Some in Ef as [Hq Hp]. destruct (_ || _) eqn:Ea in H; [done|]. injection H as <- <-.
    apply andb_true_iff in Hp as [Hu%bool_decide_eq_true Hk%bool_decide_eq_true].
    rewrite !orb_false_iff, !negb_false_iff, !bool_decide_eq_true, Z.eqb_eq in Ea.
    left. split; [congruence|]. rewrite E1 in Hq. exists t, id, r. naive_solver.
Qed.

Lemma validateKey_Ok raw key : validateKey raw = inr key -> key = TrimSpace raw.
Proof. unfold validateKey. cbv zeta. repeat case_match; congruence. Qed.
Lemma canonicalCode_id code c : canonicalCode code = Ok c -> c = code.
Proof. unfold canonicalCode. repeat case_match; congruence. Qed.

(** Whatever happens: nothing changed, or one quote was stored. *)
Lemma createQuote_db u source target amount rawKey w r w' :
  createQuote u source target amount rawKey w = (r, w') ->
  (w_db w' = w_db w /\ forall v, r = Ok v -> quoted_before (w_db w) u source target amount (TrimSpace rawKey) v)
  \/ exists v x q, quote_made (w_db w) (w_db w') u source target amount (TrimSpace rawKey) (w_now w) v x q
       /\ 0 < amount /\ source <> target /\ (r = Ok v \/ exists i, r = Err (Wrap "commit tx" (infra_error i))).
Proof.
  intros H. unfold createQuote in H. destruct (bool_decide _); [injection H as <- <-; by left|].
  destruct (amount <=? 0) eqn:Ea; [injection H as <- <-; by left|]. apply Z.leb_gt in Ea.
  unfold bind at 1 in H. destruct (validateKey rawKey) as [e|key] eqn:Ek; simpl in H; [injection H as <- <-; by left|].
  apply validateKey_Ok in Ek as ->.
  unfold bind at 1 in H. destruct (canonicalCode source) as [s|e|] eqn:Es; simpl in H; [|injection H as <- <-; by left..].
  apply canonicalCode_id in Es as ->.
  unfold bind at 1 in H. destruct (canonicalCode target) as [t|e|] eqn:Et; simpl in H; [|injection H as <- <-; by left..].
  apply canonicalCode_id in Et as ->.
  case_bool_decide as Hne; [injection H as <- <-; by left|]. unfold bind, time_now in H.
  apply WithTx_db in H as [[E Hno]|(v & w1 & w2 & E1 & Hb & E2 & _ & Hres)]; [left; split; [done|]; naive_solver|].
  apply quote_body_Ok in Hb as [[E Hrec]|(x & q & Hm)].
  - left. rewrite E2, E, E1. split; [done|]. intros v' ->. rewrite E1 in Hrec.
    destruct Hres as [[= ->]|(i & [=])]. done.
  - right. exists v, x, q. rewrite E2. rewrite E1 in Hm. done.
Qed.

(** A new quote keeps the books and the ledger. *)
Lemma quote_made_books d d' u s t a k now v x q :
  quote_made d d' u s t a k now v x q -> fx_books d -> fx_books d'.
Proof.
  intros [_ _ _ _ _ Hrow Hc Hnew ->] [B1 B2 B3 B4]. destruct_and!.
  split.
  - intros id r Hr. simpl in Hr. apply lookup_insert_Some in Hr as [[<- <-]|[_ Hr]]; [done|by apply (B1 id)].
  - intros id c Hcid. destruct (B2 id c Hcid) as [K1 (q1 & Hq1 & K2) K3]. split; simpl; [done| |exact K3].
    exists q1. rewrite lookup_insert_ne by congruence. done.
  - exact B3.
  - intros id r Hr Hst. simpl in Hr. apply lookup_insert_Some in Hr as [[<- <-]|[_ Hr]]; [congruence|by apply (B4 id)].
Qed.
Lemma quote_made_ledger d d' u s t a k now v x q :
  quote_made d d' u s t a k now v x q ->
  accounts d' = accounts d /\ account_balances d' = account_balances d /\ ledger_entries d' = ledger_entries d.
Proof. by intros [_ _ _ _ _ _ _ _ ->]. Qed.
End quotes.
