(* ===== verification/Components.v ===== *)
(** * Properties of the components around the posting core

    Fee pricing, currency policy, idempotency input, quotes, retries, events:
    each stated on the definitions of its own file.
    First, the default registry is lawful. *)
From Stdlib Require Import QArith Lqa Ascii Bool.
From stdpp Require Import prelude gmap strings list.
From S2P Require Import Prelude Decimal Errors Currency Events Store TxRepo Repos AccountRepo Fee Processors.
From S2P Require Import ProcFx Handle Frames Lawful Postings Engine Outcome.
Section register.
Context `{DEC : !Decimal}.

(** [register] panics exactly on a repeated type. *)
Lemma register_spec (procs : list TxProcessor) (m : gmap string TxProcessor) :
  (forall t p, m !! t = Some p -> Type__ p = t) ->
  (forall p, p ∈ procs -> m !! Type__ p = None) -> NoDup (Type__ <$> procs) ->
  exists r : gmap string TxProcessor, register m procs = Ok r /\
    (forall t p, r !! t = Some p <-> (m !! t = Some p \/ (p ∈ procs /\ Type__ p = t))).
Proof.
  revert m. induction procs as [|p procs IH]; intros m Hm Hnew Hnd; simpl.
  { exists m. split; [done|]. intros t p. split; [by left|].
    intros [?|[?%not_elem_of_nil _]]; done. }
  apply NoDup_cons in Hnd as [Hni Hnd]. rewrite Hnew by left.
  destruct (IH (<[Type__ p := p]> m)) as (r & Hr & Hspec).
  - intros t q [[<- <-]|[_ ?]]%lookup_insert_Some; auto.
  - intros q Hq. rewrite lookup_insert_ne; [apply Hnew; by right|].
    intros E. apply Hni. rewrite E. by apply list_elem_of_fmap_2.
  - done.
  - exists r. split; [done|]. intros t q. rewrite Hspec, lookup_insert_Some, elem_of_cons.
    split.
    + intros [[[<- <-]|[_ ?]]|[? ?]]; auto.
    + intros [Hq|[[->|Hq] <-]]; [|by left; left|by right].
      destruct (decide (Type__ p = t)) as [<-|Hne]; [|by left; right].
      by rewrite (Hnew p ltac:(left)) in Hq.
Qed.
End register.

Section default.
Context `{DEC : !Decimal} `{UT : !UuidText} `{HASH : !Hashing}.
Context `{REPO : !AccountRepository} `{!ReadOnlyAccounts REPO} (reg : registry).

Lemma default_types_distinct : NoDup (Type__ <$> default_processors reg).
Proof. apply (bool_decide_unpack _). vm_compute. exact I. Qed.

Lemma default_registry_spec :
  exists r : gmap string TxProcessor, NewDefaultRegistry reg = Ok r /\
    forall t p, r !! t = Some p <-> p ∈ default_processors reg /\ Type__ p = t.
Proof.
  destruct (register_spec (default_processors reg) ∅) as (r & Hr & Hspec).
  - intros t p. by rewrite lookup_empty.
  - intros p _. apply lookup_empty.
  - apply default_types_distinct.
  - exists r. split; [done|]. intros t p. rewrite Hspec, lookup_empty.
    split; [by intros [?|?]|by right].
Qed.

Lemma default_registry_lawful r : NewDefaultRegistry reg = Ok r -> LawfulRegistry r.
Proof.
  destruct default_registry_spec as (r' & Hr & Hspec). rewrite Hr. intros [= <-].
  pose proof (default_processors_lawful reg) as Hall. rewrite Forall_forall in Hall.
  split; intros t p [Hp Ht]%Hspec; [by apply Hall|done].
Qed.
End default.

Open Scope Z_scope.
(** ** Fee pricing *)
Section fees.
Context `{DEC : !Decimal} `{UT : !UuidText}.

Lemma best_rule_spec l r :
  best_rule l = Some r -> r ∈ l /\ forall r', r' ∈ l -> (rule_rank r' <= rule_rank r)%nat.
Proof.
  revert r. induction l as [|x l IH]; intros r; simpl; [done|].
  destruct (best_rule l) as [y|] eqn:E.
  - destruct (IH y eq_refl) as [Hy Hmax]. destruct (_ <? _)%nat eqn:El; intros [= <-].
    + apply Nat.ltb_lt in El. split; [by right|].
      intros r' [->|Hr]%elem_of_cons; [lia|by apply Hmax].
    + apply Nat.ltb_ge in El. split; [by left|].
      intros r' [->|Hr]%elem_of_cons; [lia|]. specialize (Hmax r' Hr). lia.
  - intros [= <-]. split; [by left|]. intros r' [->|Hr]%elem_of_cons; [lia|].
    exfalso. destruct l as [|z l]; [by apply not_elem_of_nil in Hr|].
    simpl in E. destruct (best_rule l); [|done]. by destruct (_ <? _)%nat.
Qed.

Lemma quot_Qeq x y :
  (x == y)%Q -> Z.quot (Qnum x) (Zpos (Qden x)) = Z.quot (Qnum y) (Zpos (Qden y)).
Proof.
  unfold Qeq. intros H.
  rewrite <- (Z.quot_mul_cancel_r (Qnum x) (Zpos (Qden x)) (Zpos (Qden y))) by done.
  rewrite H, (Z.mul_comm (Zpos (Qden x))), Z.quot_mul_cancel_r by done. done.
Qed.

(** The percentage part: basis points of an integral amount, toward zero. *)
Lemma percent_part amount z bps :
  (dec_val amount == inject_Z z)%Q ->
  (dec_val (dec_truncate (dec_div (dec_mul amount (dec_of_Z bps)) (dec_of_Z 10000)))
   == inject_Z (Z.quot (z * bps) 10000))%Q.
Proof.
  intros Hz. rewrite dec_truncate_val.
  assert (Hm : (dec_val (dec_mul amount (dec_of_Z bps)) == inject_Z (z * bps))%Q)
    by (rewrite dec_mul_val, Hz, dec_of_Z_val, inject_Z_mult; reflexivity).
  assert (Hd : (dec_val (dec_div (dec_mul amount (dec_of_Z bps)) (dec_of_Z 10000))
                == Qmake (z * bps) 10000)%Q).
  { rewrite (dec_div_val _ _ (z * bps * 1000000000000)).
    - rewrite Hm, dec_of_Z_val. unfold Qeq, Qdiv, Qinv, inject_Z. simpl. lia.
    - rewrite dec_of_Z_val. reflexivity.
    - rewrite Hm, dec_of_Z_val. unfold Qeq, Qdiv, Qinv, inject_Z. simpl. lia. }
  by rewrite (quot_Qeq _ _ Hd).
Qed.

(** What a priced fee is: from an applicable rule none beats in specificity. *)
Lemma Resolve_Ok u t g c amount z w fee fg w' :
  (dec_val amount == inject_Z z)%Q ->
  Resolve u t g c amount w = (Ok (Some (fee, fg)), w') ->
  exists r, r ∈ fee_rules (w_db w) /\ rule_applies t c u g r = true /\
    (forall r', r' ∈ fee_rules (w_db w) -> rule_applies t c u g r' = true ->
                (rule_rank r' <= rule_rank r)%nat) /\
    (dec_val fee == inject_Z (r_flat_minor_units r
       + if (0 <? r_percent_basis_pts r) then Z.quot (z * r_percent_basis_pts r) 10000 else 0))%Q /\
    (0 < dec_val fee)%Q /\ (dec_val fee < dec_val amount)%Q /\
    fg = (if bool_decide (r_fee_gateway r = EmptyString) then "platform" else r_fee_gateway r).
Proof.
  intros Hz. unfold Resolve. case_bool_decide; [done|]. intros Hrun.
  apply bind_Ok in Hrun as (x & w1 & Hx & Hrun).
  apply try_Ok in Hx as [([[flat bps] rg] & -> & Hx)|(e & -> & _)]; [|done].
  apply scan_row_Ok, pool_query_Ok in Hx as (now & Hx & _). symmetry in Hx.
  apply bind_Some in Hx as (r & Hr & [= <- <- <-]). apply best_rule_spec in Hr as [Hin Hmax].
  apply list_elem_of_filter in Hin as [Happ Hin]. cbv zeta in Hrun.
  set (f := if 0 <? r_percent_basis_pts r then _ else _) in Hrun.
  destruct (negb (dec_is_positive f) || dec_ge f amount) eqn:Ec; [done|].
  apply orb_false_iff in Ec as [Ep Eg]. apply negb_false_iff, dec_is_positive_val in Ep.
  apply not_true_iff_false in Eg. rewrite dec_ge_val in Eg. apply Qnot_le_lt in Eg.
  injection Hrun as <- <- _. exists r. split_and!; try done.
  - intros r' Hr' Ha'. apply Hmax. by apply list_elem_of_filter.
  - unfold f. destruct (0 <? r_percent_basis_pts r).
    + by rewrite dec_add_val, dec_of_Z_val, percent_part, inject_Z_plus.
    + by rewrite dec_of_Z_val, Z.add_0_r.
Qed.

(** *** Quotes *)
Lemma consume_twice q u t c a ref d now r d1 u2 t2 c2 a2 ref2 now2 z2 :
  sql_consume_quote q u t c a ref d now = inr (Some r, d1) ->
  dec_bigint a2 = Some z2 ->
  ref2 <> ref -> sql_consume_quote q u2 t2 c2 a2 ref2 d1 now2 = inr (None, d1).
Proof.
  unfold sql_consume_quote. destruct (sql_bigint a) as [e|z]; [done|].
  destruct (fee_quotes d !! q) as [row|]; [|done]. destruct (_ && _); [|done].
  intros [= _ <-] Ha2 Hne. apply sql_bigint_inr in Ha2 as ->. simpl.
  rewrite lookup_insert_eq. unfold quote_open, consumed_by, consume_row. simpl.
  destruct (quote_matches u2 t2 c2 z2 _); [|done]. repeat case_bool_decide; simplify_eq; done.
Qed.

Lemma consume_again q u t c a ref d now fee d1 now2 :
  sql_consume_quote q u t c a ref d now = inr (Some fee, d1) ->
  exists d2, sql_consume_quote q u t c a ref d1 now2 = inr (Some fee, d2) /\
    same_ledger d1 d2.
Proof.
  unfold sql_consume_quote. destruct (sql_bigint a) as [e|z]; [done|].
  destruct (fee_quotes d !! q) as [row|]; [|done]. destruct (quote_matches _ _ _ _ row) eqn:Em; [|done].
  destruct (_ && _); [|done]. intros [= <- <-]. simpl. rewrite lookup_insert_eq.
  assert (E : quote_matches u t c z (consume_row now ref row) = true) by exact Em.
  rewrite E. unfold consumed_by, consume_row at 1. simpl.
  rewrite !bool_decide_true by done. cbn [andb].
  eexists. split; [done|]. done.
Qed.
End fees.

(** ** The idempotency input *)
Section canonical.
Lemma byte_of_inj a b : 0 <= a < 256 -> 0 <= b < 256 -> byte_of a = byte_of b -> a = b.
Proof.
  unfold byte_of. intros Ha Hb H. rewrite !Z.mod_small in H by lia.
  assert (E : N_of_ascii (ascii_of_N (Z.to_N a)) = N_of_ascii (ascii_of_N (Z.to_N b))) by (by rewrite H).
  rewrite !N_ascii_embedding in E by lia. lia.
Qed.
Lemma byte_of_mod n : byte_of n = byte_of (n mod 256).
Proof. unfold byte_of. by rewrite Z.mod_mod. Qed.

Lemma be32_inj a b : 0 <= a < 4294967296 -> 0 <= b < 4294967296 -> be32 a = be32 b -> a = b.
Proof.
  intros Ha Hb [= H1 H2 H3 H4]. revert H1 H2 H3 H4.
  rewrite !(byte_of_mod (Z.shiftr _ _)), (byte_of_mod a), (byte_of_mod b).
  rewrite !Z.shiftr_div_pow2 by lia. change (2 ^ 24) with 16777216.
  change (2 ^ 16) with 65536. change (2 ^ 8) with 256. intros H1 H2 H3 H4.
  apply byte_of_inj in H1, H2, H3, H4; try (apply Z.mod_pos_bound; lia).
  pose proof (Z.div_mod a 256 ltac:(lia)). pose proof (Z.div_mod b 256 ltac:(lia)).
  pose proof (Z.div_mod (a / 256) 256 ltac:(lia)). pose proof (Z.div_mod (b / 256) 256 ltac:(lia)).
  pose proof (Z.div_mod (a / 65536) 256 ltac:(lia)). pose proof (Z.div_mod (b / 65536) 256 ltac:(lia)).
  rewrite (Z.mod_small (a / 16777216)), (Z.mod_small (b / 16777216)) in H1
    by (split; [apply Z.div_pos; lia|apply Z.div_lt_upper_bound; lia]).
  replace (a / 256 / 256) with (a / 65536) in * by (rewrite Z.div_div by lia; done).
  replace (b / 256 / 256) with (b / 65536) in * by (rewrite Z.div_div by lia; done).
  replace (a / 65536 / 256) with (a / 16777216) in * by (rewrite Z.div_div by lia; done).
  replace (b / 65536 / 256) with (b / 16777216) in * by (rewrite Z.div_div by lia; done).
  lia.
Qed.

Lemma append_inj_length s1 s2 t1 t2 :
  String.length s1 = String.length s2 -> s1 +:+ t1 = s2 +:+ t2 -> s1 = s2 /\ t1 = t2.
Proof.
  revert s2. induction s1 as [|c s1 IH]; intros [|c2 s2]; simpl; try done.
  intros [= Hl] [= -> H]. destruct (IH s2 Hl H) as [-> ->]. done.
Qed.

Lemma length_prefixed_inj s1 s2 t1 t2 :
  len s1 < 4294967296 -> len s2 < 4294967296 ->
  length_prefixed s1 +:+ t1 = length_prefixed s2 +:+ t2 -> s1 = s2 /\ t1 = t2.
Proof.
  unfold length_prefixed, uint32. intros H1 H2 H.
  assert (0 <= len s1 /\ 0 <= len s2) as [? ?] by (unfold len; lia).
  rewrite !Z.mod_small in H by lia.
  assert (E : be32 (len s1) = be32 (len s2) /\ s1 +:+ t1 = s2 +:+ t2).
  { apply (append_inj_length (be32 (len s1)) (be32 (len s2))); [done|]. exact H. }
  destruct E as [El E]. apply be32_inj in El; [|lia..]. unfold len in El.
  apply append_inj_length in E; [done|lia].
Qed.
Lemma append_nil_r x : x +:+ EmptyString = x.
Proof. induction x as [|c x IH]; [done|]. by apply (f_equal (String c)) in IH. Qed.
Lemma canonical_inj scope scope' key key' :
  len (default EmptyString scope) < 4294967296 -> len (default EmptyString scope') < 4294967296 ->
  len key < 4294967296 -> len key' < 4294967296 ->
  canonicalIdempotencyInput scope key = canonicalIdempotencyInput scope' key' ->
  default EmptyString scope = default EmptyString scope' /\ key = key'.
Proof.
  unfold canonicalIdempotencyInput. cbv zeta. intros H1 H2 H3 H4 H.
  apply length_prefixed_inj in H as [Hs H]; [|done|done]. split; [done|].
  apply (length_prefixed_inj key key' EmptyString EmptyString); [done|done|].
  by rewrite !append_nil_r.
Qed.
End canonical.

(** ** A healthy world: no failing call, no aborted transaction *)
Definition healthy (w : world) : Prop := w_calls w = [] /\ w_aborted w = false.

Lemma query_healthy {A} (f : database -> Z -> A) w :
  healthy w -> query f w = (Ok (f (w_db w) (w_tx_now w)), w).
Proof.
  intros [Hc Ha]. unfold query, stmt, next_call. rewrite Hc, Ha. by destruct w.
Qed.

(** ** Currency policy *)
Section currency.
(** The decision of validateCurrencyPolicy on a loaded row. *)
Definition policy_accepts (row : currency_row) (ops : gmap string bool) (operation : string) : bool :=
  let policyOperation := TrimSuffix operation "_inflight" in
  if bool_decide (policyOperation = "statement_read") then
    negb (bool_decide (c_status row = "draft")) && allowed ops "statement"
  else if HasSuffix operation "_inflight" then
    bool_decide (c_status row ∈ ["active"; "intake_paused"; "disabled"])
  else c_enabled row && bool_decide (c_status row ∈ ["active"; "intake_paused"])
       && negb (bool_decide (c_status row = "intake_paused")
                && bool_decide (policyOperation ∈ ["account_enable"; "topup"]))
       && (bool_decide (policyOperation = EmptyString) || allowed ops policyOperation).

Lemma load_policy_healthy code w row ops :
  healthy w -> currencies (w_db w) !! code = Some row -> c_operations row = Some ops ->
  loadCurrencyPolicy code w = (Ok (row, ops), w).
Proof.
  intros Hw Hr Ho. unfold loadCurrencyPolicy, scan_row, bind, try.
  rewrite query_healthy by done. rewrite Hr. simpl. by rewrite Ho.
Qed.

Lemma validateCurrencyPolicy_decides code operation w row ops :
  healthy w -> canonicalCode code = Ok code ->
  currencies (w_db w) !! code = Some row -> c_operations row = Some ops ->
  (fst (validateCurrencyPolicy code operation w) = Ok tt <-> policy_accepts row ops operation = true).
Proof.
  intros Hw Hcode Hr Ho. unfold validateCurrencyPolicy, bind at 1, lift. rewrite Hcode.
  unfold bind at 1. rewrite (load_policy_healthy code w row ops) by done.
  cbv zeta. cbn [fst snd]. unfold policy_accepts. cbv zeta.
  set (po := TrimSuffix operation "_inflight").
  destruct (bool_decide (po = "statement_read")).
  { case_bool_decide; simpl; [done|]. by destruct (allowed ops "statement"). }
  destruct (HasSuffix operation "_inflight"); [by case_bool_decide|].
  destruct (c_enabled row); [|done].
  assert (E1 : bool_decide (c_status row ∈ ["active"; "intake_paused"])
               = bool_decide (c_status row = "active") || bool_decide (c_status row = "intake_paused")).
  { apply eq_true_iff_eq. rewrite orb_true_iff, !bool_decide_eq_true, !elem_of_cons. set_solver. }
  assert (E2 : bool_decide (po ∈ ["account_enable"; "topup"])
               = bool_decide (po = "account_enable") || bool_decide (po = "topup")).
  { apply eq_true_iff_eq. rewrite orb_true_iff, !bool_decide_eq_true, !elem_of_cons. set_solver. }
  rewrite E1, E2, bool_decide_not. clear E1 E2.
  destruct (bool_decide (c_status row = "active")), (bool_decide (c_status row = "intake_paused")),
    (bool_decide (po = "account_enable")), (bool_decide (po = "topup")),
    (bool_decide (po = EmptyString)), (allowed ops po); done.
Qed.
End currency.

(** ** Retries *)
Section retries.
Context `{DEC : !Decimal} `{UT : !UuidText} `{HASH : !Hashing}.
Context (s : Service) (p : TxProcessor) (rc : ResolvedCommand).

(** A serialization failure or a deadlock, as PostgreSQL names them. *)
Definition transient (e : error) : Prop := exists code m, as_pg_error e = Some (code, m) /\ code ∈ ["40001"; "40P01"].
Lemma IsRetryable_transient e : IsRetryable e = true <-> transient e.
Proof.
  unfold IsRetryable, transient. destruct (as_pg_error e) as [[c m]|]; [|split; [done|by intros (? & ? & ? & _)]].
  rewrite orb_true_iff, !bool_decide_eq_true. split.
  - intros H. exists c, m. set_solver.
  - intros (? & ? & [= <- <-] & H). set_solver.
Qed.
(** The retry policy: attempt [k] of three.  Only these two are tried again, after the
    backoff; a cancelled backoff ends it. *)
Inductive attempts : nat -> world -> result unit -> world -> Prop :=
  | attempt_final k w r w' :
      execTransfer s p rc w = (r, w') ->
      (forall e, r = Err e -> ~ transient e) -> attempts k w r w'
  | attempt_exhausted w e w' :
      execTransfer s p rc w = (Err e, w') -> transient e ->
      attempts 3 w (Err (Wrap "failed after 3 retries" e)) w'
  | attempt_cancelled k w e w1 e' w' :
      (k < 3)%nat -> execTransfer s p rc w = (Err e, w1) -> transient e ->
      wait_backoff w1 = (Err e', w') -> attempts k w (Err e') w'
  | attempt_retried k w e w1 w2 r w' :
      (k < 3)%nat -> execTransfer s p rc w = (Err e, w1) -> transient e ->
      wait_backoff w1 = (Ok tt, w2) -> attempts (S k) w2 r w' -> attempts k w r w'.

Lemma transfer_loop_attempts left_ attempt le w r w' :
  (0 < attempt)%nat -> (S left_ + attempt = 3)%nat ->
  forall w0 e, execTransfer s p rc w0 = (Err e, w) -> transient e ->
  le = e -> transfer_loop s p rc (S left_) attempt le w = (r, w') -> attempts attempt w0 r w'.
Proof.
  revert attempt le w r w'. induction left_ as [|n IH]; intros k le w r w' Hk Hn w0 e Hx Hr -> H;
    cbn [transfer_loop] in H;
    rewrite (proj2 (Nat.ltb_lt 0 k) Hk) in H; unfold bind at 1 in H;
    destruct (wait_backoff w) as [[[]|eb|] wb] eqn:Eb;
    try (injection H as <- <-; eapply attempt_cancelled; eauto; lia);
    try (by unfold wait_backoff in Eb; destruct (next_call w) as [[] ?]).
  - unfold bind, try in H. destruct (execTransfer s p rc wb) as [[[]|e2|] w2] eqn:E2.
    + injection H as <- <-. eapply attempt_retried; eauto; [lia|]. by apply attempt_final.
    + destruct (IsRetryable e2) eqn:Er2; [apply IsRetryable_transient in Er2|apply not_true_iff_false in Er2; rewrite IsRetryable_transient in Er2]; injection H as <- <-;
        (eapply attempt_retried; eauto; [lia|]).
      * replace (S k) with 3%nat by lia. by apply attempt_exhausted.
      * apply attempt_final; [done|]. by intros ? [= <-].
    + injection H as <- <-. eapply attempt_retried; eauto; [lia|]. by apply attempt_final.
  - unfold bind, try in H. destruct (execTransfer s p rc wb) as [[[]|e2|] w2] eqn:E2.
    + injection H as <- <-. eapply attempt_retried; eauto; [lia|]. by apply attempt_final.
    + destruct (IsRetryable e2) eqn:Er2; [apply IsRetryable_transient in Er2|apply not_true_iff_false in Er2; rewrite IsRetryable_transient in Er2]; cbn [negb] in H.
      * eapply attempt_retried; eauto; [lia|]. eapply IH; eauto; lia.
      * injection H as <- <-. eapply attempt_retried; eauto; [lia|].
        apply attempt_final; [done|]. by intros ? [= <-].
    + injection H as <- <-. eapply attempt_retried; eauto; [lia|]. by apply attempt_final.
Qed.

Lemma transfer_attempts w r w' : transfer s p rc w = (r, w') -> attempts 1 w r w'.
Proof.
  unfold transfer, maxRetry. cbn [transfer_loop Nat.ltb Nat.leb]. unfold bind at 1. cbn [ret].
  unfold bind at 1, try. destruct (execTransfer s p rc w) as [[[]|e|] w1] eqn:E.
  - intros [= <- <-]. by apply attempt_final.
  - destruct (IsRetryable e) eqn:Er; cbn [negb];
    [apply IsRetryable_transient in Er|apply not_true_iff_false in Er; rewrite IsRetryable_transient in Er].
    + intros H. by refine (transfer_loop_attempts 1 1 e w1 r w' _ _ w e E Er eq_refl H); lia.
    + intros [= <- <-]. apply attempt_final; [done|]. by intros ? [= <-].
  - intros [= <- <-]. by apply attempt_final.
Qed.
End retries.

(** ** The answers to a replay *)
Section replay.
Context `{DEC : !Decimal} `{UT : !UuidText} `{HASH : !Hashing} (s : Service).

(** The answer the gate gives for a stored header of the key. *)
Definition replay_answer (t : tx_row) (rc : ResolvedCommand) : error :=
  let stored := default EmptyString (t_fingerprint t) in
  if negb (bool_decide (stored = EmptyString)) && negb (bool_decide (stored = fingerprint rc))
  then Sentinel ErrIdempotencyConflict
  else if bool_decide (t_status t = "posted") then Sentinel ErrAlreadyPosted
  else if bool_decide (t_status t = "failed") then Sentinel ErrPreviousFailed
  else Sentinel ErrStillProcessing.

Lemma first_tx_unique P d id t :
  ledger_transactions d !! id = Some t -> P t = true ->
  (forall id' t', ledger_transactions d !! id' = Some t' -> P t' = true -> t' = t) ->
  first_tx P d = Some t.
Proof.
  intros Ht HP Hu. unfold first_tx.
  destruct (list_find _ _) as [[i x]|] eqn:E; simpl.
  - apply list_find_Some in E as (Hi & HPx & _).
    apply list_elem_of_lookup_2, list_elem_of_fmap in Hi as ([id' y] & -> & Hy).
    apply elem_of_map_to_list in Hy. f_equal. by eapply Hu.
  - exfalso. apply list_find_None in E. rewrite Forall_forall in E. apply (E t); [|done].
    apply list_elem_of_fmap. exists (id, t). split; [done|]. by apply elem_of_map_to_list.
Qed.

Lemma handleDuplicate_answers rc w id t :
  healthy w -> ledger_transactions (w_db w) !! id = Some t -> t_status t <> EmptyString ->
  t_key_digest t = Some (key_digest s rc).1 ->
  (forall id' t', ledger_transactions (w_db w) !! id' = Some t' ->
     t_key_digest t' = Some (key_digest s rc).1 -> t' = t) ->
  handleDuplicate s rc w = (Err (replay_answer t rc), w).
Proof.
  intros Hw Ht Hst Hd Hu. unfold handleDuplicate, TransactionRepo_FindConflictOrDuplicate.
  rewrite (surjective_pairing (Digest _ _)).
  unfold bind at 1, wrap. unfold bind at 1. rewrite query_healthy by done.
  assert (Hf : first_tx (same_digest (key_digest s rc).1) (w_db w) = Some t).
  { eapply first_tx_unique; [done|by apply bool_decide_eq_true|].
    intros id' t' Ht' Hd'. apply bool_decide_eq_true in Hd'. by eapply Hu. }
  unfold key_digest in Hf. cbv zeta in Hf. rewrite Hf. unfold bind at 1. cbn [ret fst snd].
  unfold replay_answer. cbv zeta. fold (fingerprint rc).
  rewrite (bool_decide_false (t_status t = EmptyString)) by done.
  replace (0 <? len (default EmptyString (t_fingerprint t)))
    with (negb (bool_decide (default EmptyString (t_fingerprint t) = EmptyString))).
  - destruct (negb _ && negb _); [done|].
    destruct (bool_decide (t_status t = "posted")); [done|].
    by destruct (bool_decide (t_status t = "failed")).
  - unfold len. destruct (default EmptyString (t_fingerprint t)); [done|]. simpl.
    symmetry. apply Z.ltb_lt. lia.
Qed.
End replay.

(** ** Events pass their consumers' checks *)
Section events.
Context `{DEC : !Decimal} `{UT : !UuidText}.

Lemma uint_text_digits d : all_digits (DecimalString.NilEmpty.string_of_uint d) = true.
Proof. induction d; simpl; done. Qed.

Lemma Z_text_pattern z : 0 <= z -> minorAmountPattern (Z_text z) = true.
Proof.
  intros Hz. unfold Z_text.
  assert (E : exists d, Z.to_int z = Decimal.Pos d /\ d <> Decimal.Nil).
  { destruct z as [|q|q]; [by exists (Decimal.D0 Decimal.Nil)| |lia].
    exists (Pos.to_uint q). split; [done|]. intros E.
    assert (H : Z.of_int (Z.to_int (Zpos q)) = 0) by (simpl; by rewrite E).
    by rewrite DecimalZ.of_to in H. }
  destruct E as (d & -> & Hd). simpl.
  assert (E : DecimalString.NilZero.string_of_uint d = DecimalString.NilEmpty.string_of_uint d)
    by (by destruct d).
  unfold minorAmountPattern. rewrite E, uint_text_digits, andb_true_r.
  apply negb_true_iff, bool_decide_eq_false. by destruct d.
Qed.

Lemma big_of_digits_Z z : big_of_digits (Z_text z) = Some z.
Proof.
  unfold big_of_digits, Z_text. destruct (Z_to_int_not_nil z).
  rewrite DecimalString.NilZero.isi by done. simpl. by rewrite DecimalZ.of_to.
Qed.

(** An entry of a stored row. *)
Definition summary_ok (es : list EntryInstruction) : Prop :=
  Forall (fun e => ei_AccountID e <> uuid_Nil /\
                   exists z, 0 <= z /\ (dec_val (ei_Amount e) == inject_Z z)%Q) es.

Lemma buildEntrySummaries_valid es :
  summary_ok es -> forallb entry_summary_valid (buildEntrySummaries es) = true.
Proof.
  unfold summary_ok, buildEntrySummaries. induction 1 as [|e es (Hn & z & Hz & Hv) _ IH]; [done|].
  simpl. rewrite IH. unfold entry_summary_valid. simpl.
  rewrite (dec_string_int _ _ Hv), (Z_text_pattern z Hz), (bool_decide_false _ Hn).
  by destruct (ei_Direction e).
Qed.

(** The event of a posted command, unless its metadata announce top-up totals. *)
Lemma newPostedEvent_valid reg rc tx es now z :
  tx <> uuid_Nil -> Type_ (rc_Command rc) <> EmptyString ->
  (dec_val (Amount (rc_Command rc)) == inject_Z z)%Q -> 0 <= z ->
  codePattern (rc_Currency rc) = true -> 0 <= (MinorUnit reg (rc_Currency rc)).1 -> now <> 0 ->
  summary_ok es ->
  (Type_ (rc_Command rc) = "money_in" ->
   exists e, MetaDecimal (Metadata (rc_Command rc)) "total_debit" = inl e) ->
  exists ev, Payload (newPostedEvent reg rc tx es now) = PPosted ev /\
             TransactionPosted_Validate ev = None.
Proof.
  intros Htx Hty Hv Hz Hcode Hmu Hnow Hes Htop. unfold newPostedEvent. cbv zeta. simpl.
  eexists. split; [done|].
  set (ev := NewTransactionPosted _ _ _ _ _ _ _ _ _ _ _ _ _ _).
  replace (if bool_decide (Type_ (rc_Command rc) = "money_in") then _ else ev) with ev.
  2: { case_bool_decide as E; [|done]. destruct (Htop E) as [e He]. unfold with_topup_fields. by rewrite He. }
  unfold TransactionPosted_Validate. simpl.
  rewrite (bool_decide_false _ Htx), (dec_string_int _ _ Hv), (Z_text_pattern z Hz), Hcode.
  unfold empty. rewrite (bool_decide_false _ Hty).
  replace (match MinorUnit reg (rc_Currency rc) with
           | (n, true) => n | (_, false) => 0 end <? 0) with false.
  2: { symmetry. apply Z.ltb_ge. destruct (MinorUnit reg (rc_Currency rc)) as [n []]; simpl in *; lia. }
  rewrite (proj2 (Z.eqb_neq now 0) Hnow). simpl.
  by rewrite buildEntrySummaries_valid.
Qed.

(** The top-up totals of a validated top-up are consistent. *)
Lemma NewTransactionReversed_valid tx orig z amount currency now :
  tx <> uuid_Nil -> orig <> uuid_Nil -> (dec_val amount == inject_Z z)%Q -> 0 <= z ->
  codePattern currency = true -> now <> 0 ->
  TransactionReversed_Validate (NewTransactionReversed tx orig (dec_string amount) currency now) = None.
Proof.
  intros Htx Ho Hv Hz Hc Hn. unfold TransactionReversed_Validate. simpl.
  rewrite (bool_decide_false _ Htx), (bool_decide_false _ Ho), (dec_string_int _ _ Hv),
    (Z_text_pattern z Hz), Hc. by rewrite (proj2 (Z.eqb_neq now 0) Hn).
Qed.
End events.
