(* ===== verification/Scenarios.v ===== *)
(** * A worked world: concrete accounts, service and commands

    The parameters of the library instantiated by concrete functions (rational
    decimals, numeric UUIDs, a transparent keyed hash), a small wallet and the
    commands the witnesses of the other files run by evaluation. *)
From stdpp Require Import prelude gmap strings list.
From S2P Require Import Prelude Decimal Errors Currency Events Store TxRepo Repos AccountRepo.
From S2P Require Import Fee Processors ProcFx Handle Frames Lawful Postings Invariant Engine Outcome Components.
Open Scope Z_scope.

(** ** Several commands, one after the other *)
Fixpoint run_all `{DEC : !Decimal} `{UT : !UuidText} `{HASH : !Hashing} (s : Service) (cmds : list Command) (w : world) : list (result unit) * world :=
  match cmds with
  | [] => ([], w)
  | c :: cs => let '(r, w1) := Handle s c w in
               let '(rs, w2) := run_all s cs w1 in (r :: rs, w2)
  end.

#[export] Existing Instance QDecimal.decimal.
#[export] Existing Instance NumUuid.uuid_text.

#[export] Instance plain_hash : Hashing :=
  {| hmac_sha256 k s := k +:+ ":" +:+ s; sha256 s := s |}.

(** ** The database *)
Definition user_account (owner : uuid) (t : string) : account_row :=
  AccountRow "user" (Some owner) t "IDR" None None "active".
Definition system_account_ (t q : string) : account_row :=
  AccountRow "system" None t "IDR" None (Some q) "active".
Definition merchant_account (tenant : uuid) (t : string) : account_row :=
  AccountRow "merchant" (Some tenant) t "IDR" None None "active".

Definition demo_accounts : list (uuid * account_row * bool) :=
  [ (11%N, user_account 1%N "cash", false); (12%N, user_account 1%N "hold", false);
    (21%N, user_account 2%N "cash", false);
    (31%N, merchant_account 3%N "cash", false); (32%N, merchant_account 3%N "hold", false);
    (90%N, system_account_ "settlement" "bca", true);
    (91%N, system_account_ "fee" "platform", true);
    (92%N, system_account_ "adjustment" "", true);
    (93%N, system_account_ "fx_conversion" "IDRUSD", true) ].

(** A fee of 12 quoted to user 1 for a transfer of 300. *)
Definition demo_quote : quote_row :=
  QuoteRow 1%N "transfer_p2p" "" "IDR" 300 12 "platform" 1000000 None None "transaction".
Definition demo_fee_rules : list fee_rule_row :=
  [ FeeRuleRow "transfer_p2p" "" "IDR" None 5 0 "" true;
    FeeRuleRow "transfer_p2p" "" "IDR" (Some 1%N) 2 100 "platform" true ].
Definition demo_currency : currency_row :=
  CurrencyRow 0 "active" true (Some {["topup" := true; "transfer" := true; "payout" := true]}).

(** One pair, whose IDR position may move between -500 and 500. *)
Definition demo_pair : fx_pair_row :=
  FxPairRow "USDIDR" "USD" "IDR" "active" "mock" "IDR per USD" "IDRUSD" 1 30 "toward_zero".
Definition demo_fx : fx_tables :=
  set_fx_limits (set_fx_pairs no_fx {[39%N := demo_pair]})
    {[(39%N, "IDR") := FxLimitRow (-500) 500 None None None None]}.

Definition demo_db : database := {|
  accounts := list_to_map ((fun a => (a.1.1, a.1.2)) <$> demo_accounts);
  account_balances := list_to_map ((fun a => (a.1.1, BalanceRow 0 a.2)) <$> demo_accounts);
  ledger_transactions := ∅; ledger_entries := []; outbox_events := [];
  fee_quotes := {[7%N := demo_quote]}; fee_rules := demo_fee_rules;
  currencies := {["IDR" := demo_currency]};
  fx := demo_fx |}.

Definition demo_ids (n : nat) : uuid := (N.of_nat n + 1000)%N.
Definition demo_world (d : database) (calls : list call) : world :=
  World d calls 100 0 false None demo_ids 0 no_caches.

(** ** The service *)
Definition demo_registry : ProcessorRegistry :=
  match NewDefaultRegistry init_registry with Ok r => r | _ => ∅ end.
Definition demo_service : Service := {|
  digestRing := MkDigestRing {[1 := "pepper"]} 1; registry_ := demo_registry;
  maxAmountPerTx := dec_zero; feePolicy := true; currencyValidator := None;
  projectionWriter := None; currencies_ := init_registry |}.

Definition demo_command (t key : string) (amount : Z) (u target : uuid)
    (meta : list (string * meta_value)) : Command :=
  {| IdempotencyKey := key; IdempotencyScope := ""; Type_ := t; Amount := dec_of_Z amount;
     UserID := u; TargetUserID := target; PocketCode := ""; Currency_ := "";
     ReferenceID := uuid_Nil; Metadata := list_to_map meta; QuoteID := "";
     MerchantTenantID := uuid_Nil |}.
Definition referring_to (reference tenant : uuid) (c : Command) : Command :=
  {| IdempotencyKey := IdempotencyKey c; IdempotencyScope := IdempotencyScope c;
     Type_ := Type_ c; Amount := Amount c; UserID := UserID c; TargetUserID := TargetUserID c;
     PocketCode := PocketCode c; Currency_ := Currency_ c; ReferenceID := reference;
     Metadata := Metadata c; QuoteID := QuoteID c; MerchantTenantID := tenant |}.

Definition topup (key : string) (amount : Z) : Command :=
  demo_command "money_in" key amount 1%N 0%N [("gateway", MString "bca")].
Definition p2p (key : string) (amount : Z) : Command :=
  demo_command "transfer_p2p" key amount 1%N 2%N
    [("fee_amount", MString "10"); ("fee_gateway", MString "platform")].

Definition hold (key : string) : Command := demo_command "withdraw_initiate" key 400 1%N 0%N [].
Definition settle (ref : uuid) (key : string) : Command :=
  referring_to ref 0%N (demo_command "withdraw_settle" key 400 1%N 0%N [("gateway", MString "bca")]).
Definition cancel (ref : uuid) (key : string) : Command :=
  referring_to ref 0%N (demo_command "withdraw_cancel" key 400 1%N 0%N []).
Definition reverse (ref : uuid) (key : string) (amount : Z) : Command :=
  referring_to ref 0%N (demo_command "reversal" key amount 0%N 0%N
    [("reason", MString "test"); ("authorized_by", MString "ops")]).
Definition rebalance (key : string) (amount : Z) : Command :=
  demo_command "fx_rebalance_credit" key amount 0%N 0%N
    [("pair", MString "IDRUSD"); ("currency", MString "IDR"); ("reason", MString "test");
     ("authorized_by", MString "ops")].

(** A transfer whose fee is the one quoted under quote 7. *)
Definition quoted (key : string) : Command :=
  {| IdempotencyKey := key; IdempotencyScope := ""; Type_ := "transfer_p2p"; Amount := dec_of_Z 300;
     UserID := 1%N; TargetUserID := 2%N; PocketCode := ""; Currency_ := "";
     ReferenceID := uuid_Nil; Metadata := ∅; QuoteID := uuid_string 7%N;
     MerchantTenantID := uuid_Nil |}.

(** ** Runs *)
Definition balance_in (w : world) (a : uuid) : option Z :=
  b_balance <$> account_balances (w_db w) !! a.

(** A top-up, then a transfer with an inline fee. *)
Example demo_run :
  let '(rs, w) := run_all demo_service [topup "k1" 1000; p2p "k2" 300] (demo_world demo_db []) in
  (rs, balance_in w <$> [11%N; 21%N; 90%N; 91%N], length (ledger_entries (w_db w)))
  = ([Ok tt; Ok tt], [Some 700; Some 290; Some (-1000); Some 10], 5%nat).
Proof. vm_compute. reflexivity. Qed.

(** ** The worked service and database meet the contracts *)
#[export] Instance demo_service_lawful : LawfulService demo_service.
Proof. split; discriminate. Qed.

#[export] Instance demo_registry_lawful : LawfulRegistry (registry_ demo_service).
Proof.
  destruct (default_registry_spec init_registry) as (r & Hr & _).
  apply (default_registry_lawful init_registry). simpl. unfold demo_registry. by rewrite Hr.
Qed.

Lemma demo_balances_zero a b : account_balances demo_db !! a = Some b -> b_balance b = 0.
Proof.
  revert a b. change (map_Forall (fun _ b => b_balance b = 0) (account_balances demo_db)).
  apply (bool_decide_unpack _). vm_compute. exact I.
Qed.

Lemma demo_db_wf : wf_ledger demo_db.
Proof.
  assert (H : forall a b, account_balances demo_db !! a = Some b -> b_balance b = 0)
    by exact demo_balances_zero.
  split.
  - intros a b Hb. by rewrite (H a b Hb).
  - intros a b Hb. unfold chk_balance_floor. rewrite (H a b Hb). by rewrite orb_true_r.
  - intros a b Hb. by rewrite (H a b Hb).
  - by intros a b r _.
  - by intros tx.
  - by intros e ?%not_elem_of_nil.
  - by intros e e' ?%not_elem_of_nil.
Qed.

(** The world after a run from the empty wallet. *)
Definition w0 : world := demo_world demo_db [].
Definition after (cmds : list Command) : world := (run_all demo_service cmds w0).2.

Lemma demo_keys : forall id t, ledger_transactions demo_db !! id = Some t -> False.
Proof. intros id t H. simpl in H. by rewrite lookup_empty in H. Qed.

(** The processor registered under each type the runs use. *)
Lemma demo_lookup t p :
  p ∈ default_processors init_registry -> Type__ p = t -> registry_ demo_service !! t = Some p.
Proof.
  intros Hp Ht. destruct (default_registry_spec init_registry) as (r & Hr & Hspec).
  change (demo_registry !! t = Some p). unfold demo_registry. rewrite Hr. exact (proj2 (Hspec t p) (conj Hp Ht)).
Qed.

Lemma demo_registry_built : NewDefaultRegistry init_registry = Ok (registry_ demo_service).
Proof.
  change (NewDefaultRegistry init_registry = Ok demo_registry).
  destruct (default_registry_spec init_registry) as (r & Hr & _).
  unfold demo_registry. rewrite Hr. reflexivity.
Qed.

Lemma unregistered_in (r0 : ProcessorRegistry) t :
  NewDefaultRegistry init_registry = Ok r0 ->
  bool_decide (t ∈ (Type__ <$> default_processors init_registry)) = false -> r0 !! t = None.
Proof.
  intros Hb Hn. apply bool_decide_eq_false in Hn. apply eq_None_not_Some. intros [p Hp]. apply Hn.
  destruct (default_registry_spec init_registry) as (r & Hr & Hspec).
  rewrite Hr in Hb. injection Hb as ->. apply Hspec in Hp as [Hp <-]. by apply list_elem_of_fmap_2.
Qed.
Lemma demo_unregistered t :
  bool_decide (t ∈ (Type__ <$> default_processors init_registry)) = false ->
  registry_ demo_service !! t = None.
Proof. exact (unregistered_in (registry_ demo_service) t demo_registry_built). Qed.
