(* ===== verification/FxTheorems.v ===== *)
(** * What foreign exchange guarantees

    The calls of the service over any sequence: the ledger stays well formed, no
    currency gains or loses a unit, and each quote is executed at most once, for
    exactly its amounts; prices are the floor of the exact amount, so nobody gains
    by converting back and forth.
    Then a world with one pair, two directions and one active rate, in which a funded
    user asks for a quote and executes it, and the theorems applied there. *)
From Stdlib Require Import QArith Qround.
From stdpp Require Import prelude gmap strings list sorting.
From S2P Require Import Prelude Decimal Errors Currency Events Money MoneyFacts Store TxRepo Repos AccountRepo.
From S2P Require Import Fee Processors ProcFx FxRepo Fx Frames Lawful Postings Invariant Engine FxFacts FxBooks.
From S2P Require Import Scenarios.
Open Scope Z_scope.
(** ** Sequences of calls *)
Inductive fx_call :=
  | AskQuote (user : uuid) (source target : string) (amount : Z) (key : string)
  | Convert (user quote : uuid) (key : string) (source target : Z).
Section runs.
Context `{DEC : !Decimal} `{UT : !UuidText} `{HASH : !Hashing}.
Definition fx_call_run (ring : DigestRing) (reg : registry) (c : fx_call) (w : world) : world :=
  match c with
  | AskQuote u s t a k => (createQuote u s t a k w).2
  | Convert u q k s t => (executeConversion ring reg u q k s t w).2
  end.
Definition fx_calls (ring : DigestRing) (reg : registry) (cs : list fx_call) (w : world) : world :=
  foldl (fun w c => fx_call_run ring reg c w) w cs.
Context (ring : DigestRing) (reg : registry).

(** What a call preserves. *)
Record fx_kept (d d' : database) : Prop := {
  kp_wf : wf_ledger d -> wf_ledger d';
  kp_books : fx_books d -> fx_books d';
  kp_total c : total d' c = total d c;
}.
#[export] Instance fx_kept_refl : Reflexive fx_kept.
Proof. by split. Qed.
#[export] Instance fx_kept_trans : Transitive fx_kept.
Proof.
  intros d1 d2 d3 [W1 B1 T1] [W2 B2 T2]. split; [by intros ?%W1%W2|by intros ?%B1%B2|].
  intros c. by rewrite T2, T1.
Qed.

Lemma quote_made_kept d d' u s t a k now v x q : quote_made d d' u s t a k now v x q -> fx_kept d d'.
Proof.
  intros H. pose proof (quote_made_ledger _ _ _ _ _ _ _ _ _ _ _ H) as (Ea & Eb & Ee). split.
  - intros [H1 H2 H3 H4 H5 H6 H7]. split; unfold balances_in_range in *; rewrite ?Ea, ?Eb, ?Ee; done.
  - by eapply quote_made_books.
  - intros c. unfold total, in_currency_of. by rewrite Ea, Eb.
Qed.
Lemma conversion_of_kept d d' u qid key es et now v :
  fx_books d -> conversion_of ring d d' u qid key es et now v -> fx_kept d d'.
Proof.
  intros B (t & q & a & bsu & btu & bsp & btp & created & cid & st & tt & Hex & M). split.
  - eapply made_wf, M.
  - intros _. by eapply made_books.
  - eapply made_total, M.
Qed.
Lemma fx_call_kept c w : fx_books (w_db w) -> fx_kept (w_db w) (w_db (fx_call_run ring reg c w)).
Proof.
  intros B. destruct c as [u s t a k|u q k s t]; simpl.
  - destruct (createQuote u s t a k w) as [r w'] eqn:E.
    apply createQuote_db in E as [[E _]|(v & x & q & Hm & _)]; simpl; [by rewrite E|by eapply quote_made_kept].
  - destruct (executeConversion ring reg u q k s t w) as [r w'] eqn:E.
    apply executeConversion_db in E as [[E _]|(v & Hc & _)]; simpl; [by rewrite E| |by apply B].
    by eapply conversion_of_kept.
Qed.
Lemma fx_calls_kept cs w : fx_books (w_db w) -> fx_kept (w_db w) (w_db (fx_calls ring reg cs w)).
Proof.
  revert w. induction cs as [|c cs IH]; intros w B; [done|].
  pose proof (fx_call_kept c w B) as K. etransitivity; [exact K|]. apply IH, K, B.
Qed.
End runs.

Section theorems.
Context `{DEC : !Decimal} `{UT : !UuidText} `{HASH : !Hashing}.

(** C9: A currency conversion moves exactly the amounts of the quote it executes,
    or nothing.  Whatever the database does during the call, either it is left as
    it was, or the quote named was the caller's, active, unexpired and for the
    amounts the caller expected; its direction was open; every account of the
    ledger is unchanged except that the caller's cash in the source currency and
    the pair's target position fall, and the pair's source position and the
    caller's cash in the target currency rise, by the two amounts; both positions
    end within the pair's limits; and the quote is marked consumed by a posted
    conversion for those amounts.  Both legs balance in their own currency, so the
    ledger stays well formed and the total of every currency is conserved. *)
Theorem fx_conversion_moves_exactly ring reg u qid rawKey es et w r w' :
  wf_ledger (w_db w) -> fx_books (w_db w) ->
  executeConversion ring reg u qid rawKey es et w = (r, w') ->
  wf_ledger (w_db w') /\ (forall c, total (w_db w') c = total (w_db w) c) /\
  (w_db w' = w_db w \/
   exists t q a cid c, executable (w_db w) u qid es et (w_now w) t q
     /\ direction_open (fx (w_db w)) (fq_direction_id q) /\ fx_roles (w_db w) u (scanFXQuote t qid q) a
     /\ moved_by (fx_delta a es et) (w_db w) (w_db w')
     /\ (forall b, account_balances (w_db w') !! fa_sourcePosition a = Some b ->
           position_within (fx (w_db w)) (fq_pair_id q) (TrimSpace (fq_source_currency q)) (b_balance b))
     /\ (forall b, account_balances (w_db w') !! fa_targetPosition a = Some b ->
           position_within (fx (w_db w)) (fq_pair_id q) (TrimSpace (fq_target_currency q)) (b_balance b))
     /\ fx_quotes (fx (w_db w')) !! qid = Some (consumed_row (w_now w) cid q)
     /\ fx_conversions (fx (w_db w')) !! cid = Some c /\ booked (w_db w') cid c
     /\ fc_source_amount c = es /\ fc_target_amount c = et).
Proof.
  intros W B H. pose proof (fx_call_kept ring reg (Convert u qid rawKey es et) w B) as [KW KB KT].
  simpl in *. rewrite H in KW, KB, KT. simpl in *. split; [by apply KW|]. split; [done|].
  apply executeConversion_db in H as [[E _]|(v & Hc & _)]; [by left| |by apply B]. right.
  destruct Hc as (t & q & a & bsu & btu & bsp & btp & created & cid & st & tt & Hex & M).
  assert (Hmv := M). eapply made_moves in Hmv.
  pose proof (fun b => made_positions ring _ _ _ _ _ _ _ _ _ _ _ _ _ _ _ _ M b) as Hps.
  assert (B' : fx_books (w_db w')) by (by eapply made_books).
  destruct M as [Hd Hr _ _ _ _ [_ _ _ _ Efx _ _ _ _]]. destruct Hex as [Hq Hu Hs Ho [<- <-]].
  set (c := posted_row _ _ _ _) in Efx.
  assert (Hc : fx_conversions (fx (w_db w')) !! cid = Some c) by (rewrite Efx; simpl; by rewrite lookup_insert_eq).
  exists t, q, a, cid, c. split_and!; try done; [intros b; apply Hps..| |by apply B'].
  rewrite Efx. simpl. by rewrite lookup_alter_eq, Hq.
Qed.

(** C10: Over any sequence of calls that ask for quotes and execute them, with any
    failures, each quote is converted at most once and each idempotency key names
    at most one conversion; a quote is marked consumed exactly when a conversion
    consumed it; and every conversion on record is posted, for its quote's user,
    currencies and amounts, as two posted transactions of those amounts that name
    each other.  The ledger stays well formed and the total of every currency is
    what it was. *)
Theorem fx_books_are_kept ring reg cs w :
  wf_ledger (w_db w) -> fx_books (w_db w) ->
  let d := w_db (fx_calls ring reg cs w) in
  wf_ledger d /\ fx_books d /\ forall c, total d c = total (w_db w) c.
Proof.
  intros W B d. destruct (fx_calls_kept ring reg cs w B) as [KW KB KT].
  split; [by apply KW|]. split; [by apply KB|exact KT].
Qed.

(** Executing a conversion again is harmless: once a call has returned a
    conversion, a call with the same user, quote, key and amounts changes nothing,
    whatever else happens to the database during it, and if it succeeds it returns
    the same conversion. *)
Theorem fx_replay_changes_nothing ring reg u qid rawKey es et w v w1 w2 r w3 :
  fx_books (w_db w) -> executeConversion ring reg u qid rawKey es et w = (Ok v, w1) ->
  w_db w2 = w_db w1 -> executeConversion ring reg u qid rawKey es et w2 = (r, w3) ->
  w_db w3 = w_db w2 /\ forall v2, r = Ok v2 -> v2 = v.
Proof.
  intros B H E H2. pose proof (fx_call_kept ring reg (Convert u qid rawKey es et) w B) as [_ KB _].
  simpl in KB. rewrite H in KB. specialize (KB B). simpl in KB.
  assert (Hrec : recorded (w_db w1) u qid (TrimSpace rawKey) es et v).
  { apply executeConversion_db in H as [[E1 Hr]|(v1 & Hc & Hv)]; [rewrite E1; by apply Hr| |by apply B].
    destruct Hv as [[= <-]|(i & [=])].
    destruct Hc as (t & q & a & bsu & btu & bsp & btp & created & cid & st & tt & Hex & M).
    eapply made_recorded; [exact B|exact Hex|exact M]. }
  rewrite <- E in KB, Hrec. destruct Hrec as (id & c & Hc & -> & Hu & Hk & Hq & Hs & Ht).
  apply executeConversion_db in H2 as [[E2 Hr]|(v1 & Hc2 & _)]; [| |by apply KB].
  - split; [done|]. intros v2 ->. destruct (Hr v2 eq_refl) as (id' & c' & Hc' & -> & Hu' & Hk' & _).
    assert (id' = id) as -> by (eapply (fb_once _ KB); [exact Hc'|exact Hc|right; split; congruence]).
    rewrite Hc in Hc'. by injection Hc' as ->.
  - exfalso. destruct Hc2 as (t & q & a & bsu & btu & bsp & btp & created & cid & st & tt & _ & M).
    destruct M as [_ _ _ _ _ _ [_ _ _ Hun _ _ _ _ _]]. destruct (Hun id c Hc) as [Hne _]. by apply Hne.
Qed.

(** C25: A quote is priced exactly.  A quote a call returns is one already on record
    for the same user, key, currencies and amount, or a new one priced from the
    newest active rate version in force for an open direction between the two
    currencies: the target amount is the floor of source amount x rate in minor
    units, the rate applied being the bid one way and one over the ask the other;
    it is positive and in int64; the source amount is within the direction's
    limits; the text stored for the rate version's row, expiry and price is the
    one returned; and no existing quote is touched. *)
Theorem fx_quotes_are_priced_exactly u source target amount rawKey w v w' :
  rates_checked (w_db w) -> createQuote u source target amount rawKey w = (Ok v, w') ->
  (w_db w' = w_db w /\ quoted_before (w_db w) u source target amount (TrimSpace rawKey) v) \/
  exists x q, quote_made (w_db w) (w_db w') u source target amount (TrimSpace rawKey) (w_now w) v x q
    /\ (forall y, y ∈ routes (fx (w_db w)) -> route_open source target (w_now w) y = true ->
          fr_version (ro_rate y) <= fr_version (ro_rate x))
    /\ route_open source target (w_now w) x = true
    /\ xq_TargetAmount v = Qfloor (exact_price x source amount (xq_SourceMinorUnit v) (xq_TargetMinorUnit v))
    /\ 0 < xq_TargetAmount v /\ in_int64 (xq_TargetAmount v) = true.
Proof.
  intros [Hr Hu] H. apply createQuote_db in H as [[E Hq]|(v' & x & q & Hm & Ha & Hne & Hres)];
    [left; split; [done|by apply Hq]|].
  destruct Hres as [[= <-]|(i & [=])]. right. exists x, q. split; [done|].
  destruct Hm as [Hrt _ [(cs & Hcs & Es) (ct & Hct & Et)] (rem & Hp) _ _ _ _ _].
  pose proof (select_route_newest _ _ _ _ _ Hrt) as (Hin & Ho & Hnew).
  destruct (routes_rows _ _ Hin) as (Hrate & _).
  apply price_Ok in Hp as [_ _ _ _ _ Hpaid [H1 H2] _]; [by split_and!|by eapply Hr| |].
  - rewrite Es. by eapply Hu.
  - rewrite Et. by eapply Hu.
Qed.

(** C26: Nobody gains by converting there and back.  If an amount priced one way
    buys some target amount, then that target amount priced back along the same
    pair at the same reference rate, under any spreads of the two directions,
    buys at most the amount one started with. *)
Theorem fx_round_trip_never_profits x y source target amount su tu text paid rem text' paid' rem' :
  0 < fr_reference_rate (ro_rate x) -> su <= 32767 -> tu <= 32767 ->
  price x source target amount su tu = inr (text, paid, rem) ->
  price y target source paid tu su = inr (text', paid', rem') ->
  TrimSpace (fp_base_currency (ro_pair y)) = TrimSpace (fp_base_currency (ro_pair x)) ->
  TrimSpace (fp_quote_currency (ro_pair y)) = TrimSpace (fp_quote_currency (ro_pair x)) ->
  fr_reference_rate (ro_rate y) = fr_reference_rate (ro_rate x) -> paid' <= amount.
Proof.
  intros Hr Hs Ht H1 H2 Eb Eq Er. apply price_Ok in H1; [|done..]. apply price_Ok in H2; [|by rewrite Er|done..].
  by eapply round_trip.
Qed.
End theorems.

(** ** The world *)
Definition fx_account (kind : string) (owner : option uuid) (type currency : string) (q : option string) : account_row :=
  AccountRow kind owner type currency None q "active".
Definition fx_accounts_list : list (uuid * account_row * bool) :=
  [ (11%N, fx_account "user" (Some 1%N) "cash" "IDR" None, false);
    (12%N, fx_account "user" (Some 1%N) "cash" "USD" None, false);
    (90%N, fx_account "system" None "settlement" "IDR" (Some "bca"), true);
    (93%N, fx_account "system" None "fx_conversion" "IDR" (Some "USDIDR"), true);
    (94%N, fx_account "system" None "fx_conversion" "USD" (Some "USDIDR"), true) ].
Definition run_fx : fx_tables := {|
  fx_pairs := {[39%N := FxPairRow "USDIDR" "USD" "IDR" "active" "mock" "IDR per USD" "USDIDR" 1 30 "toward_zero"]};
  fx_pair_directions :=
    list_to_map [ (61%N, FxDirectionRow 39%N "IDR" "USD" true false false 1000 100000000 50);
                  (62%N, FxDirectionRow 39%N "USD" "IDR" true false false 1 1000000 50) ];
  fx_rate_versions :=
    list_to_map [ (71%N, FxRateRow 39%N 61%N 1 (16000 * 10 ^ 18) "mock" "active" 0 None "ops" None None None None None None 0);
                  (72%N, FxRateRow 39%N 62%N 1 (16000 * 10 ^ 18) "mock" "active" 0 None "ops" None None None None None None 0) ];
  fx_quotes := ∅; fx_conversions := ∅;
  fx_position_limits :=
    list_to_map [ ((39%N, "IDR"), FxLimitRow 0 100000000 None None None None);
                  ((39%N, "USD"), FxLimitRow (-100000) 0 None None None None) ];
  fx_links := ∅ |}.
Definition fx_ops : option (gmap string bool) := Some {["fx_source" := true; "fx_target" := true]}.
Definition empty_fx_db : database := {|
  accounts := list_to_map ((fun a => (a.1.1, a.1.2)) <$> fx_accounts_list);
  account_balances := list_to_map ((fun a => (a.1.1, BalanceRow 0 a.2)) <$> fx_accounts_list);
  ledger_transactions := ∅; ledger_entries := []; outbox_events := [];
  fee_quotes := ∅; fee_rules := [];
  currencies := list_to_map [("IDR", CurrencyRow 0 "active" true fx_ops); ("USD", CurrencyRow 2 "active" true fx_ops)];
  fx := run_fx |}.
(** One million rupiah paid in. *)
Definition funding : list entry_row :=
  [ EntryRow 501%N 500%N 90%N Debit 1000000 (-1000000) "top-up";
    EntryRow 502%N 500%N 11%N Credit 1000000 1000000 "top-up" ].
Definition fx_db : database :=
  with_balances (with_entries empty_fx_db funding)
    (<[11%N := BalanceRow 1000000 false]> (<[90%N := BalanceRow (-1000000) true]> (account_balances empty_fx_db))).
Definition fw : world := demo_world fx_db [].
Definition fx_ring : DigestRing := MkDigestRing {[1 := "pepper"]} 1.

Lemma empty_fx_wf : wf_ledger empty_fx_db.
Proof.
  assert (H : map_Forall (fun _ b => b_balance b = 0) (account_balances empty_fx_db))
    by (apply (bool_decide_unpack _); vm_compute; exact Logic.I).
  split.
  - intros a b Hb. by rewrite (H a b Hb).
  - intros a b Hb. unfold chk_balance_floor. rewrite (H a b Hb). by rewrite orb_true_r.
  - intros a b Hb. by rewrite (H a b Hb).
  - by intros a b r _.
  - by intros tx.
  - by intros e ?%not_elem_of_nil.
  - by intros e e' ?%not_elem_of_nil.
Qed.
Lemma fx_db_wf : wf_ledger fx_db.
Proof.
  apply (posting_wf_ledger empty_fx_db fx_db 500%N funding); [|apply empty_fx_wf].
  assert (P : pair_rows 500%N 90%N 11%N 1000000 (EntryRow 501%N 500%N 90%N Debit 1000000 (-1000000) "top-up")
    (EntryRow 502%N 500%N 11%N Credit 1000000 1000000 "top-up")) by (by split).
  apply (pair_posting _ _ _ _ _ _ P) with (c := "IDR") (bx := BalanceRow 0 true) (by_ := BalanceRow 0 false); try done.
  - intros a [->|[->|[]%elem_of_nil]%elem_of_cons]%elem_of_cons; eexists; split; reflexivity.
  - intros a H1 H2. cbn [fx_db with_balances account_balances]. by rewrite !lookup_insert_ne.
  - intros a b [->|[->|[]%elem_of_nil]%elem_of_cons]%elem_of_cons H; vm_compute in H; by injection H as <-.
Qed.
Lemma fx_db_books : fx_books fx_db.
Proof.
  split; simpl.
  - by intros id q Hq.
  - by intros id c Hc.
  - by intros i j ci cj Hc.
  - by intros id q Hq.
Qed.
Lemma fx_db_rates : rates_checked fx_db.
Proof.
  split.
  - assert (H : map_Forall (fun _ r => 0 < fr_reference_rate r) (fx_rate_versions (fx fx_db)))
      by (apply (bool_decide_unpack _); vm_compute; exact Logic.I).
    exact H.
  - assert (H : map_Forall (fun _ c => c_minor_unit c <= 32767) (currencies fx_db))
      by (apply (bool_decide_unpack _); vm_compute; exact Logic.I).
    exact H.
Qed.

(** ** The run *)
(** Half a million rupiah buys 31.09 dollars: 500000 / (16000 x 1.005). *)
Definition asked := createQuote 1%N "IDR" "USD" 500000 "q-1" fw.
Definition quote_id : uuid := match asked.1 with Ok q => xq_ID q | _ => uuid_Nil end.
Definition quoted_amount : Z := match asked.1 with Ok q => xq_TargetAmount q | _ => 0 end.
Definition converted := executeConversion fx_ring init_registry 1%N quote_id "c-1" 500000 3109 asked.2.
Example asked_price :
  (quoted_amount, match asked.1 with Ok q => xq_ClientRate q | _ => EmptyString end, quote_id)
  = (3109, "16080", 1000%N).
Proof. vm_compute. reflexivity. Qed.
Example converted_balances :
  (match converted.1 with Ok v => (xv_Status v, xv_SourceAmount v, xv_TargetAmount v) | _ => (EmptyString, 0, 0) end,
   balance_in converted.2 <$> [11%N; 12%N; 93%N; 94%N], length (ledger_entries (w_db converted.2)))
  = (("posted", 500000, 3109), [Some 500000; Some 3109; Some 500000; Some (-3109)], 6%nat).
Proof. vm_compute. reflexivity. Qed.

(** ** The theorems there *)
Definition succeeded {A} (r : result A) : bool := match r with Ok _ => true | _ => false end.
Lemma succeeded_Ok {A} (r : result A) : succeeded r = true -> exists a, r = Ok a.
Proof. destruct r; [eauto|done..]. Qed.
Lemma fw_wf : wf_ledger (w_db fw).
Proof. exact fx_db_wf. Qed.
Lemma fw_books : fx_books (w_db fw).
Proof. exact fx_db_books. Qed.
Lemma fw_rates : rates_checked (w_db fw).
Proof. exact fx_db_rates. Qed.
Lemma asking_keeps u s t a k w : fx_books (w_db w) -> fx_kept (w_db w) (w_db (createQuote u s t a k w).2).
Proof. exact (fx_call_kept fx_ring init_registry (AskQuote u s t a k) w). Qed.
Lemma asked_kept : fx_kept (w_db fw) (w_db asked.2).
Proof. unfold asked. apply asking_keeps. exact fw_books. Qed.
Lemma asked_wf : wf_ledger (w_db asked.2).
Proof. apply (kp_wf _ _ asked_kept). exact fw_wf. Qed.
Lemma asked_books : fx_books (w_db asked.2).
Proof. apply (kp_books _ _ asked_kept). exact fw_books. Qed.
Lemma converted_run :
  executeConversion fx_ring init_registry 1%N quote_id "c-1" 500000 3109 asked.2 = (converted.1, converted.2).
Proof. unfold converted. apply surjective_pairing. Qed.

Lemma fx_conversion_moves_exactly_witness :
  wf_ledger (w_db converted.2) /\ total (w_db converted.2) "USD" = total (w_db asked.2) "USD" /\
  balance_in converted.2 12%N = Some 3109.
Proof.
  destruct (fx_conversion_moves_exactly fx_ring init_registry 1%N quote_id "c-1" 500000 3109 asked.2
    converted.1 converted.2 asked_wf asked_books converted_run) as (W & T & _).
  split; [exact W|]. split; [exact (T "USD")|]. vm_compute. reflexivity.
Defined.

Lemma fx_books_are_kept_witness :
  fx_books (w_db (fx_calls fx_ring init_registry
    [AskQuote 1%N "IDR" "USD" 500000 "q-1"; Convert 1%N 1000%N "c-1" 500000 3109;
     Convert 1%N 1000%N "c-2" 500000 3109] fw)).
Proof.
  exact (proj1 (proj2 (fx_books_are_kept fx_ring init_registry _ fw fw_wf fw_books))).
Defined.

Definition fx_replayed := executeConversion fx_ring init_registry 1%N quote_id " c-1 " 500000 3109 converted.2.
Lemma fx_replay_changes_nothing_witness :
  exists v, converted.1 = Ok v /\ w_db fx_replayed.2 = w_db converted.2 /\
    (forall v2, fx_replayed.1 = Ok v2 -> v2 = v) /\ succeeded fx_replayed.1 = true.
Proof.
  destruct (succeeded_Ok converted.1 ltac:(vm_compute; reflexivity)) as [v Hv]. exists v. split; [exact Hv|].
  destruct (fx_replay_changes_nothing fx_ring init_registry 1%N quote_id "c-1" 500000 3109 asked.2 v
    converted.2 converted.2 fx_replayed.1 fx_replayed.2 asked_books
    (eq_trans converted_run (f_equal (fun x => (x, converted.2)) Hv)) eq_refl (surjective_pairing fx_replayed))
    as [E R].
  split; [exact E|]. split; [exact R|]. vm_compute. reflexivity.
Defined.

Lemma fx_quotes_are_priced_exactly_witness :
  exists v, asked.1 = Ok v /\ xq_TargetAmount v = 3109 /\
  ((w_db asked.2 = w_db fw /\ quoted_before (w_db fw) 1%N "IDR" "USD" 500000 (TrimSpace "q-1") v) \/
   exists x q, quote_made (w_db fw) (w_db asked.2) 1%N "IDR" "USD" 500000 (TrimSpace "q-1") (w_now fw) v x q
     /\ 0 < xq_TargetAmount v).
Proof.
  destruct (succeeded_Ok asked.1 ltac:(vm_compute; reflexivity)) as [v Hv]. exists v. split; [exact Hv|]. split.
  - assert (H : (match asked.1 with Ok q => xq_TargetAmount q | _ => 0 end) = 3109) by (vm_compute; reflexivity).
    rewrite Hv in H. exact H.
  - destruct (fx_quotes_are_priced_exactly 1%N "IDR" "USD" 500000 "q-1" fw v asked.2 fw_rates
      (eq_trans (surjective_pairing asked) (f_equal (fun x => (x, asked.2)) Hv)))
      as [[E Q]|(x & q & M & _ & _ & _ & P & _)]; [left|right; exists x, q]; split; assumption.
Defined.

(** Half a million rupiah, there and back: the spread is paid twice. *)
Definition there : priced_route := MkRoute 39%N
  (FxPairRow "USDIDR" "USD" "IDR" "active" "mock" "IDR per USD" "USDIDR" 1 30 "toward_zero")
  61%N (FxDirectionRow 39%N "IDR" "USD" true false false 1000 100000000 50)
  71%N (FxRateRow 39%N 61%N 1 (16000 * 10 ^ 18) "mock" "active" 0 None "ops" None None None None None None 0).
Definition back : priced_route := MkRoute 39%N
  (FxPairRow "USDIDR" "USD" "IDR" "active" "mock" "IDR per USD" "USDIDR" 1 30 "toward_zero")
  62%N (FxDirectionRow 39%N "USD" "IDR" true false false 1 1000000 50)
  72%N (FxRateRow 39%N 62%N 1 (16000 * 10 ^ 18) "mock" "active" 0 None "ops" None None None None None None 0).
Lemma fx_round_trip_never_profits_witness :
  exists text rem text' rem',
    price there "IDR" "USD" 500000 0 2 = inr (text, 3109, rem) /\
    price back "USD" "IDR" 3109 2 0 = inr (text', 494952, rem') /\ 494952 <= 500000.
Proof.
  do 4 eexists. split; [vm_compute; reflexivity|]. split; [vm_compute; reflexivity|].
  eapply (fx_round_trip_never_profits there back "IDR" "USD" 500000 0 2);
    [vm_compute; reflexivity|vm_compute; discriminate|vm_compute; discriminate
    |vm_compute; reflexivity|vm_compute; reflexivity|reflexivity|reflexivity|reflexivity].
Defined.
