(* ===== verification/Effects.v ===== *)
(** * What one call does, seen from outside

    [ledger_step] is the abstract ledger's step; [posted_run] the evidence a
    posted transaction leaves.  From it follow the exact effect of two-leg,
    fee-collecting, top-up, rebalance and reversal entries on every balance, the
    uniqueness of idempotency keys, and the invariant of runs of commands. *)
From Stdlib Require Import QArith Lqa.
From stdpp Require Import prelude gmap strings list.
From S2P Require Import Prelude Decimal Errors Currency Events Store TxRepo Repos AccountRepo.
From S2P Require Import Fee Processors ProcMoney ProcFx Handle Frames Lawful Postings Invariant Engine.
From S2P Require Import Entries Outcome Components Scenarios.
Open Scope Z_scope.

(** ** The abstract ledger: what one call may do *)
Inductive ledger_step (d d' : database) : Prop :=
  | step_none : d' = d -> ledger_step d d'
  | step_posted tx rows t :
      posting d d' tx rows -> ledger_transactions d !! tx = None ->
      ledger_transactions d' !! tx = Some t -> t_status t = "posted" -> ledger_step d d'
  | step_rejected tx err t :
      same_ledger d d' -> ledger_transactions d !! tx = None ->
      ledger_transactions d' !! tx = Some t -> t_status t = "failed" -> t_error t = Some err ->
      ledger_step d d'.

(** No two headers carry the same idempotency digest. *)
Definition keys_unique (d : database) : Prop :=
  forall id id' t t' digest,
    ledger_transactions d !! id = Some t -> ledger_transactions d !! id' = Some t' ->
    t_key_digest t = Some digest -> t_key_digest t' = Some digest -> id = id'.

Section lemmas.
Context `{DEC : !Decimal} `{UT : !UuidText} `{HASH : !Hashing}.
Context (s : Service) `{!LawfulService s} `{!LawfulRegistry (registry_ s)}.

Lemma committed_step p rc tx d d' res `{!LawfulProcessor p} :
  committed s p rc tx d d' res -> ledger_step d d'.
Proof.
  intros Hc. destruct (co_header _ _ _ _ _ _ _ Hc) as (amount & t & _ & _ & Ht & _ & Hst).
  pose proof (co_fresh _ _ _ _ _ _ _ Hc) as Hf. destruct res as [err|].
  - destruct Hst. eapply step_rejected; eauto. by eapply committed_rejected.
  - apply committed_posting in Hc as [rows Hp]. by eapply step_posted.
Qed.

Lemma Handle_ledger_step cmd w r w' :
  balances_in_range (w_db w) -> Handle s cmd w = (r, w') -> ledger_step (w_db w) (w_db w').
Proof.
  intros Hwf H.
  destruct (Handle_step s cmd w r w' Hwf H) as [E|(p & rc & tx & res & Hp & _ & Hc & _)];
    [by apply step_none|].
  pose proof (lr_processor _ _ Hp). by eapply committed_step.
Qed.

Lemma ledger_step_wf d d' : ledger_step d d' -> wf_ledger d -> wf_ledger d'.
Proof.
  intros [->|tx rows t Hp _ _ _|tx err t Hs _ _ _ _] W; [done|by eapply posting_wf_ledger|].
  by eapply same_ledger_wf.
Qed.
Lemma ledger_step_total d d' c : ledger_step d d' -> total d' c = total d c.
Proof.
  intros [->|tx rows t Hp _ _ _|tx err t Hs _ _ _ _]; [done|by eapply posting_total|].
  by apply same_ledger_total.
Qed.

(** What a call that appended entries did. *)
Lemma Handle_posted cmd w r w' :
  balances_in_range (w_db w) -> Handle s cmd w = (r, w') ->
  same_ledger (w_db w) (w_db w') \/
  exists p rc tx, registry_ s !! Type_ cmd = Some p /\ resolves cmd rc /\
    committed s p rc tx (w_db w) (w_db w') None.
Proof.
  intros Hwf H.
  destruct (Handle_step s cmd w r w' Hwf H) as [->|(p & rc & tx & res & Hp & Hrc & Hc & _)];
    [by left|]. pose proof (lr_processor _ _ Hp).
  destruct res as [err|]; [left; by eapply committed_rejected|]. right. eauto 6.
Qed.

(** The evidence of a posted transaction, seen from the database before. *)
Record posted_run p (rc rc1 : ResolvedCommand) (tx : uuid) (d d' : database)
    (es : list EntryInstruction) (rows : list entry_row) : Prop := {
  pr_posting : posting d d' tx rows;
  pr_rows : Forall2 (row_of tx) es rows;
  pr_within : within rc es;
  pr_same : AccountIDs rc1 = AccountIDs rc /\ rc_Currency rc1 = rc_Currency rc /\
    ReferenceID (rc_Command rc1) = ReferenceID (rc_Command rc) /\
    Type_ (rc_Command rc1) = Type_ (rc_Command rc) /\ Amount (rc_Command rc1) = Amount (rc_Command rc) /\
    meta_kept (Metadata (rc_Command rc)) (Metadata (rc_Command rc1));
  pr_usable : accounts_usable rc d;
  pr_built : exists bal w w', same_ledger d (w_db w) /\ BuildEntries p rc1 bal w = (Ok es, w');
  pr_valid : exists bal w w', same_ledger d (w_db w) /\ Validate p rc1 bal w = (Ok tt, w') /\
    forall a ab, bal !! a = Some ab -> balance_of d a = Some ab;
  pr_outbox : exists now os, outbox_events d' = outbox_events d ++ os /\
    Forall2 event_row (OutboxEvents p rc1 tx es now) os;
}.

Lemma committed_run p rc tx d d' :
  committed s p rc tx d d' None -> exists rc1 es rows, posted_run p rc rc1 tx d d' es rows.
Proof.
  intros Hc. destruct (co_effect _ _ _ _ _ _ _ Hc)
    as (amount & d1 & rc1 & d2 & Hi & Hf & bal & es & rows & Hp).
  pose proof (inserted_quiet _ _ _ _ _ _ Hi) as [S1 _].
  pose proof (quotes_only_quiet tx _ _ (fee_applied_quotes _ _ _ _ _ Hf)) as [S2 _].
  assert (S3 : same_ledger d d2) by (by etrans).
  pose proof (fee_applied_command _ _ _ _ _ Hf) as Hsame.
  destruct (pb_written _ _ _ _ _ _ _ _ Hp) as (d3 & d4 & [S4 _] & _ & [S5 _] & W).
  exists rc1, es, rows. split.
  - eapply posting_same; [|apply (wr_posting _ _ _ _ _ _ W)]. by do 2 (etrans; [done|]).
  - apply (wr_rows _ _ _ _ _ _ W).
  - pose proof (pb_within _ _ _ _ _ _ _ _ Hp) as [? ?]. unfold within. by rewrite <- (proj1 Hsame).
  - done.
  - pose proof (pb_usable _ _ _ _ _ _ _ _ Hp) as Hu. unfold accounts_usable in *.
    destruct Hsame as (E1 & E2 & _), S3 as (E3 & _). by rewrite E1, E2, E3 in Hu.
  - destruct (pb_built _ _ _ _ _ _ _ _ Hp) as (v & v' & Hs & Hb). exists bal, v, v'.
    split; [by etrans|done].
  - destruct (pb_valid _ _ _ _ _ _ _ _ Hp) as (v & v' & Hs & Hb). exists bal, v, v'.
    split; [by etrans|]. split; [done|]. intros a ab Ha.
    rewrite <- (same_ledger_balance_of _ _ S3). by apply (pb_balances _ _ _ _ _ _ _ _ Hp).
  - destruct (wr_outbox _ _ _ _ _ _ W) as (now & os & Eo & Hev). exists now, os.
    split; [|done]. rewrite Eo. f_equal.
    assert (S6 : same_ledger d d4) by (by do 2 (etrans; [done|])). by destruct S6 as (_ & _ & _ & -> & _).
Qed.

(** *** Reversal *)
Lemma reversed_rows tx l rows a :
  Forall2 (row_of tx) (map reverse_entry l) rows -> computed_balance a rows = - computed_balance a l.
Proof.
  revert rows. induction l as [|e l IH]; intros rows H; simpl in H.
  - by apply Forall2_nil_inv_l in H as ->.
  - apply Forall2_cons_inv_l in H as (r & rows' & (bal & Hm) & H & ->).
    unfold computed_balance in *. simpl. rewrite (IH rows' H).
    assert (E : entry_delta a r = - entry_delta a e); [|lia].
    pose proof (rm_amount _ _ _ _ Hm) as Ha. simpl in Ha.
    apply dec_bigint_spec in Ha as [Hv _]. rewrite dec_of_Z_val in Hv. apply inject_Z_inj in Hv.
    unfold entry_delta, entry_signed.
    rewrite (rm_account _ _ _ _ Hm), (rm_direction _ _ _ _ Hm), <- Hv. simpl.
    case_decide; [|done]. by destruct (e_direction e); simpl; lia.
Qed.

(** *** Fees *)
Definition credit_if (x a : uuid) (z : Z) : Z := if decide (a = x) then z else 0.

Lemma row_effect tx e r x z :
  row_of tx e r -> dec_bigint (ei_Amount e) = Some z ->
  entry_delta x r
  = credit_if x (ei_AccountID e) (match ei_Direction e with Debit => - z | Credit => z end).
Proof.
  intros (b & M) Hz. pose proof (rm_amount _ _ _ _ M) as A. rewrite Hz in A. injection A as A.
  unfold entry_delta, entry_signed, credit_if.
  rewrite (rm_account _ _ _ _ M), (rm_direction _ _ _ _ M), <- A.
  case_decide; [|done]. by destruct (ei_Direction e).
Qed.

Lemma two_rows_effect tx a b amount n n' rows z x :
  Forall2 (row_of tx) (two_entries a b amount n n') rows -> dec_bigint amount = Some z ->
  computed_balance x rows = credit_if x b z - credit_if x a z.
Proof.
  intros H Hz. apply Forall2_cons_inv_l in H as (r1 & rows1 & H1 & H & ->).
  apply Forall2_cons_inv_l in H as (r2 & rows2 & H2 & H & ->). apply Forall2_nil_inv_l in H as ->.
  unfold computed_balance. cbn [sumZ]. rewrite (row_effect _ _ _ x z H1 Hz), (row_effect _ _ _ x z H2 Hz).
  simpl. unfold credit_if. repeat case_decide; lia.
Qed.

(** One debit of [g], credits of [n] and [k]. *)
Lemma three_rows_effect tx a b f g n k n1 n2 n3 rows :
  Forall2 (row_of tx)
    [ {| ei_AccountID := a; ei_Direction := Debit; ei_Amount := g; ei_Note := n1 |};
      {| ei_AccountID := b; ei_Direction := Credit; ei_Amount := n; ei_Note := n2 |};
      {| ei_AccountID := f; ei_Direction := Credit; ei_Amount := k; ei_Note := n3 |} ] rows ->
  exists zg zn zk, (dec_val g == inject_Z zg)%Q /\ (dec_val n == inject_Z zn)%Q /\
    (dec_val k == inject_Z zk)%Q /\
    forall x, computed_balance x rows = credit_if x b zn + credit_if x f zk - credit_if x a zg.
Proof.
  intros H. apply Forall2_cons_inv_l in H as (r1 & rows1 & H1 & H & ->).
  apply Forall2_cons_inv_l in H as (r2 & rows2 & H2 & H & ->).
  apply Forall2_cons_inv_l in H as (r3 & rows3 & H3 & H & ->). apply Forall2_nil_inv_l in H as ->.
  pose proof (fun e r '(ex_intro _ b M : row_of tx e r) => rm_amount _ _ _ _ M) as Hi.
  exists (e_amount r1), (e_amount r2), (e_amount r3).
  split_and!; [apply dec_bigint_spec, (Hi _ _ H1)|apply dec_bigint_spec, (Hi _ _ H2)
              |apply dec_bigint_spec, (Hi _ _ H3)|].
  intros x. unfold computed_balance. cbn [sumZ].
  rewrite (row_effect _ _ _ x _ H1 (Hi _ _ H1)), (row_effect _ _ _ x _ H2 (Hi _ _ H2)),
    (row_effect _ _ _ x _ H3 (Hi _ _ H3)).
  simpl. unfold credit_if. repeat case_decide; lia.
Qed.

(** A difference of integral decimals, read back as integers. *)
Lemma minus_integral u x y z k :
  (u == x - y)%Q -> (x == inject_Z z)%Q -> (y == inject_Z k)%Q -> (u == inject_Z (z - k))%Q.
Proof. intros -> -> ->. unfold Z.sub. by rewrite inject_Z_plus, inject_Z_opp. Qed.

Lemma fee_bounds fee amount k z :
  (0 < fee)%Q /\ (fee < amount)%Q -> (fee == inject_Z k)%Q -> (amount == inject_Z z)%Q -> 0 < k < z.
Proof.
  intros [H1 H2] E1 E2. rewrite E1 in H1. rewrite E1, E2 in H2. change 0%Q with (inject_Z 0) in H1.
  by rewrite <- Zlt_Qlt in H1, H2.
Qed.

(** The entries of a fee-collecting processor whose fee was validated. *)
Lemma fee_rows_effect tx rc a b n n' f rows z :
  Forall2 (row_of tx) (fee_entries rc a b n n' f) rows -> fee_ok rc ->
  dec_bigint (Amount (rc_Command rc)) = Some z -> 0 < z ->
  exists fa k, 0 <= k < z /\ forall x,
    computed_balance x rows = credit_if x b (z - k) + credit_if x fa k - credit_if x a z.
Proof.
  intros H Hf Hz Hpos. destruct (proj1 (dec_bigint_spec _ _) Hz) as [Vz _].
  unfold fee_entries, fee_ok in *. destruct (hasFee rc) as [[id fee]|].
  - apply three_rows_effect in H as (zg & zn & k & Vg & Vn & Vk & Heff).
    pose proof (fee_bounds _ _ _ _ Hf Vk Vz). exists id, k. split; [lia|]. intros x. rewrite (Heff x).
    rewrite Vz in Vg. apply inject_Z_inj in Vg as <-.
    rewrite (minus_integral _ _ _ _ _ (dec_sub_val _ _) Vz Vk) in Vn. by apply inject_Z_inj in Vn as <-.
  - exists a, 0. split; [lia|]. intros x. rewrite (two_rows_effect _ _ _ _ _ _ _ z x H Hz).
    unfold credit_if. repeat case_decide; lia.
Qed.

(** The entries of a validated top-up: the fee is inside the amount, or on top of it. *)
Definition on_top (c : Command) : bool :=
  bool_decide (MetaString_ (Metadata c) "fee_application" = "added_on_top").

Lemma topup_effect `{REPO : !AccountRepository} reg tx rc bal v v' bal2 v2 v2' es rows z :
  Validate (MoneyIn reg) rc bal v = (Ok tt, v') ->
  BuildEntries (MoneyIn reg) rc bal2 v2 = (Ok es, v2') ->
  Forall2 (row_of tx) es rows -> dec_bigint (Amount (rc_Command rc)) = Some z -> 0 < z ->
  exists a b fa k, AccountIDs rc !! 0%nat = Some a /\ AccountIDs rc !! 1%nat = Some b /\ 0 <= k < z /\
    forall x, computed_balance x rows
      = credit_if x b (if on_top (rc_Command rc) then z else z - k) + credit_if x fa k
        - credit_if x a (if on_top (rc_Command rc) then z + k else z).
Proof.
  cbn [Validate BuildEntries MoneyIn]. unfold MoneyIn_Validate, MoneyIn_BuildEntries, on_top. cbv zeta.
  intros Hv Hb Hrows Hz Hpos. destruct (proj1 (dec_bigint_spec _ _) Hz) as [Vz _].
  apply bind_Ok in Hv as (u & v1 & [_ Hf]%multi_fee & Hv). unfold fee_ok in Hf.
  set (top := bool_decide _) in *. destruct (hasFee rc) as [[id fee]|].
  - destruct top.
    + destruct (MetaDecimal _ "total_debit") as [e|total]; [done|].
      destruct (dec_equal total _) eqn:Et; [|done]. apply dec_equal_val in Et.
      apply bind_Ok in Hb as (a & v3 & [Ha _]%account_Ok & Hb).
      apply bind_Ok in Hb as (b & v4 & [Hb' _]%account_Ok & [= <- _]).
      apply three_rows_effect in Hrows as (zg & zn & k & Vg & Vn & Vk & Heff).
      pose proof (fee_bounds _ _ _ _ Hf Vk Vz). exists a, b, id, k. split_and!; [done..|lia|lia|].
      intros x. rewrite (Heff x). rewrite Vz in Vn. apply inject_Z_inj in Vn as <-.
      rewrite Et, dec_add_val, Vz, Vk, <- inject_Z_plus in Vg. by apply inject_Z_inj in Vg as <-.
    + apply bind_Ok in Hb as (a & v3 & [Ha _]%account_Ok & Hb).
      apply bind_Ok in Hb as (b & v4 & [Hb' _]%account_Ok & [= <- _]).
      apply three_rows_effect in Hrows as (zg & zn & k & Vg & Vn & Vk & Heff).
      pose proof (fee_bounds _ _ _ _ Hf Vk Vz). exists a, b, id, k. split_and!; [done..|lia|lia|].
      intros x. rewrite (Heff x). rewrite Vz in Vg. apply inject_Z_inj in Vg as <-.
      rewrite (minus_integral _ _ _ _ _ (dec_sub_val _ _) Vz Vk) in Vn. by apply inject_Z_inj in Vn as <-.
  - apply bind_Ok in Hb as (a & v3 & [Ha _]%account_Ok & Hb).
    apply bind_Ok in Hb as (b & v4 & [Hb' _]%account_Ok & [= <- _]).
    exists a, b, a, 0. split_and!; [done..|lia|lia|]. intros x. rewrite Z.sub_0_r, Z.add_0_r.
    rewrite (two_rows_effect tx a b _ _ _ rows z x Hrows Hz). unfold credit_if.
    destruct top; repeat case_decide; lia.
Qed.

(** The accounts and the amount of a run whose entries are one debit and one credit. *)
Lemma two_leg_run p rc rc1 tx d d' es rows z :
  posted_run p rc rc1 tx d d' es rows -> moves_amount p -> NoDup (AccountIDs rc) ->
  dec_bigint (Amount (rc_Command rc)) = Some z ->
  exists a b, AccountIDs rc !! 0%nat = Some a /\ AccountIDs rc !! 1%nat = Some b /\ a <> b /\
    forall x, computed_balance x rows = credit_if x b z - credit_if x a z.
Proof.
  intros R [_ Hb] Hnd Hz. destruct (pr_built _ _ _ _ _ _ _ _ R) as (bal & v & v' & _ & Hbuild).
  destruct (Hb rc1 bal) as (n & n' & E). rewrite E in Hbuild.
  apply two_leg_Ok in Hbuild as (a & b & Ha & Hb' & -> & _).
  destruct (pr_same _ _ _ _ _ _ _ _ R) as (Eids & _ & _ & _ & Eamt & _).
  rewrite Eids in Ha, Hb'. exists a, b. split_and!; [done|done| |].
  - intros <-. by pose proof (NoDup_lookup _ _ _ _ Hnd Ha Hb').
  - intros x. eapply two_rows_effect; [apply (pr_rows _ _ _ _ _ _ _ _ R)|]. by rewrite Eamt.
Qed.

(** The same with a fee leg: the fee is positive and less than the amount. *)
Lemma fee_run p rc rc1 tx d d' es rows z :
  posted_run p rc rc1 tx d d' es rows -> collects_fee p -> NoDup (AccountIDs rc) ->
  dec_bigint (Amount (rc_Command rc)) = Some z -> 0 < z ->
  exists a b fa k, a <> b /\ 0 <= k < z /\
    forall x, computed_balance x rows = credit_if x b (z - k) + credit_if x fa k - credit_if x a z.
Proof.
  intros R (_ & Hf & Hb) Hnd Hz Hpos.
  destruct (pr_built _ _ _ _ _ _ _ _ R) as (bal & v & v' & _ & Hbuild).
  destruct (pr_valid _ _ _ _ _ _ _ _ R) as (bal2 & v2 & v2' & _ & Hval & _). apply Hf in Hval.
  destruct (Hb rc1 bal) as (n & n' & f & E). rewrite E in Hbuild.
  apply fee_leg_Ok in Hbuild as (a & b & Ha & Hb' & -> & _).
  destruct (pr_same _ _ _ _ _ _ _ _ R) as (Eids & _ & _ & _ & Eamt & _).
  rewrite Eids in Ha, Hb'. rewrite <- Eamt in Hz.
  assert (Hab : a <> b) by (intros <-; by pose proof (NoDup_lookup _ _ _ _ Hnd Ha Hb')).
  destruct (fee_rows_effect _ _ _ _ _ _ _ _ z (pr_rows _ _ _ _ _ _ _ _ R) Hval Hz Hpos)
    as (fa & k & Hk & Heff). by exists a, b, fa, k.
Qed.

(** *** FX positions *)
Lemma fxRebalanceTarget_Ok c pair_ code :
  fxRebalanceTarget c = Ok (pair_, code) ->
  exists pm cm, MetaString (Metadata c) "pair" = inr pm /\ MetaString (Metadata c) "currency" = inr cm /\
    pair_ = ToUpper (TrimSpace pm) /\ code = ToUpper (TrimSpace cm).
Proof.
  unfold fxRebalanceTarget. destruct (MetaString _ "pair") as [|pm]; [done|].
  destruct (empty _); [done|]. destruct (MetaString _ "currency") as [|cm]; [done|].
  destruct (empty _); [done|]. cbv zeta. destruct (ValidateCode _); [done|].
  destruct (_ && _); [done|]. intros [= <- <-]. eauto 8.
Qed.

Lemma validateFXRebalancePosition_Ok rc bal a (up : bool) w w' z :
  validateFXRebalancePosition rc bal a up w = (Ok tt, w') ->
  dec_bigint (Amount (rc_Command rc)) = Some z ->
  exists pair_ code lo hi ab, fxRebalanceTarget (rc_Command rc) = Ok (pair_, code) /\
    position_limit pair_ code (w_db w) = Some (lo, hi) /\ bal !! a = Some ab /\
    forall b, ab_Balance ab = dec_of_Z b -> lo <= (if up then b + z else b - z) <= hi.
Proof.
  intros Hrun Hz. unfold validateFXRebalancePosition in Hrun.
  apply bind_Ok in Hrun as ([pair_ code] & w1 & Ht & Hrun). unfold lift in Ht. injection Ht as Ht <-.
  apply bind_Ok in Hrun as (r & w2 & Hl & Hrun).
  apply try_Ok in Hl as [([lo hi] & -> & Hl)|(e & -> & _)]; [|by destruct (is_no_rows e)].
  apply scan_row_Ok, query_Ok in Hl as (now & Hl & _).
  destruct (bal !! a) as [ab|]; [|done]. destruct (negb _); [done|]. cbv zeta in Hrun.
  destruct (_ || _) eqn:Ec; [done|]. apply orb_false_iff in Ec as [E1 E2].
  exists pair_, code, lo, hi, ab. split_and!; try done. intros b Hb.
  apply dec_bigint_spec in Hz as [Vz _].
  apply not_true_iff_false in E1, E2. rewrite dec_lt_val in E1. rewrite dec_gt_val in E2.
  apply Qnot_lt_le in E1, E2. rewrite dec_of_Z_val in E1, E2.
  destruct up; rewrite ?dec_add_val, ?dec_sub_val, Hb, dec_of_Z_val, Vz in E1, E2;
    unfold Qminus in *; rewrite <- ?inject_Z_opp, <- inject_Z_plus in E1, E2;
    rewrite <- Zle_Qle in E1, E2; lia.
Qed.

(** What the validation of a rebalance has established of its position account. *)
Lemma rebalance_checked `{REPO : !AccountRepository} reg (up : bool) rc bal w w' z a b :
  Validate (if up then FXRebalanceCredit reg else FXRebalanceDebit reg) rc bal w = (Ok tt, w') ->
  dec_bigint (Amount (rc_Command rc)) = Some z ->
  AccountIDs rc !! 0%nat = Some a -> AccountIDs rc !! 1%nat = Some b ->
  exists pm cm lo hi ab, MetaString (Metadata (rc_Command rc)) "pair" = inr pm /\
    MetaString (Metadata (rc_Command rc)) "currency" = inr cm /\
    position_limit (ToUpper (TrimSpace pm)) (ToUpper (TrimSpace cm)) (w_db w) = Some (lo, hi) /\
    bal !! (if up then b else a) = Some ab /\
    forall n, ab_Balance ab = dec_of_Z n -> lo <= (if up then n + z else n - z) <= hi.
Proof.
  intros Hv Hz Ha Hb.
  assert (Hr : validate_rebalance rc bal (if up then 1 else 0)%nat up w = (Ok tt, w'))
    by (by destruct up).
  unfold validate_rebalance in Hr. destruct (_ <? _)%nat; [done|].
  apply bind_Ok in Hr as (u1 & w1 & H1 & Hr). apply bind_Ok in Hr as (u2 & w2 & H2 & Hr).
  apply bind_Ok in Hr as (u3 & w3 & H3 & Hr). apply bind_Ok in Hr as (pos & w4 & H4 & Hr).
  apply account_Ok in H4 as [Hpos ->].
  assert (E : w_db w3 = w_db w).
  { apply require_key_reads in H1, H2. apply validate_amount_reads in H3. by rewrite <- H3, <- H2, <- H1. }
  apply (validateFXRebalancePosition_Ok _ _ _ _ _ _ z) in Hr as (pair_ & code & lo & hi & ab & Ht & Hl & Hab & Hlim);
    [|done].
  apply fxRebalanceTarget_Ok in Ht as (pm & cm & ? & ? & -> & ->). rewrite E in Hl.
  exists pm, cm, lo, hi, ab. split_and!; try done. destruct up; congruence.
Qed.

(** *** Events *)
Lemma summaries_of_rows tx es rows :
  Forall2 (row_of tx) es rows ->
  buildEntrySummaries es
  = map (fun e => MkEntrySummary (e_account_id e) (direction_text (e_direction e))
                                 (Z_text (e_amount e))) rows.
Proof.
  unfold buildEntrySummaries. induction 1 as [|e r es rows (bal & Hm) _ IH]; [done|]. simpl.
  rewrite IH, (rm_account _ _ _ _ Hm), (rm_direction _ _ _ _ Hm).
  destruct (proj1 (dec_bigint_spec _ _) (rm_amount _ _ _ _ Hm)) as [Hv _].
  by rewrite (dec_string_int _ _ Hv).
Qed.

(** *** Keys *)
Lemma committed_keys_unique p rc tx d d' res :
  committed s p rc tx d d' res -> keys_unique d -> keys_unique d'.
Proof.
  intros Hc Hu.
  assert (Hold : forall id t g, ledger_transactions d' !! id = Some t -> t_key_digest t = Some g ->
    id <> tx -> exists t0, ledger_transactions d !! id = Some t0 /\ t_key_digest t0 = Some g).
  { intros id t g Ht Hg Hne.
    destruct (te_new _ _ _ (co_evolves _ _ _ _ _ _ _ Hc) _ _ Ht) as [?|[t0 Ht0]]; [done|].
    destruct (te_kept _ _ _ (co_evolves _ _ _ _ _ _ _ Hc) _ _ Ht0) as (t1 & Ht1 & Hh & _).
    rewrite Ht in Ht1. injection Ht1 as <-. exists t0. split; [done|].
    destruct Hh as (_ & _ & _ & _ & _ & _ & _ & _ & _ & _ & Ed & _). by rewrite <- Ed. }
  assert (Hown : forall t g, ledger_transactions d' !! tx = Some t -> t_key_digest t = Some g ->
    g = (key_digest s rc).1).
  { intros t g Ht Hg. destruct (co_header _ _ _ _ _ _ _ Hc) as (amount & t0 & _ & _ & Ht0 & Hh & _).
    rewrite Ht in Ht0. injection Ht0 as <-.
    destruct Hh as (_ & _ & _ & _ & _ & _ & _ & _ & _ & _ & Ed & _).
    rewrite Hg in Ed. by injection Ed. }
  assert (Hnew : forall id t t' g, ledger_transactions d' !! tx = Some t ->
    ledger_transactions d' !! id = Some t' -> t_key_digest t = Some g -> t_key_digest t' = Some g ->
    id = tx).
  { intros id t t' g Ht Ht' Hg Hg'. destruct (decide (id = tx)) as [|Hne]; [done|exfalso].
    destruct (Hold _ _ _ Ht' Hg' Hne) as (t0 & Ht0 & Hg0). apply (co_unique _ _ _ _ _ _ _ Hc).
    exists id, t0. rewrite <- (Hown _ _ Ht Hg). auto. }
  intros id id' t t' g Ht Ht' Hg Hg'.
  destruct (decide (id = tx)) as [->|Hne]; [symmetry; by eapply Hnew|].
  destruct (decide (id' = tx)) as [->|Hne']; [by eapply Hnew|].
  destruct (Hold _ _ _ Ht Hg Hne) as (t0 & Ht0 & Hg0).
  destruct (Hold _ _ _ Ht' Hg' Hne') as (t0' & Ht0' & Hg0'). by eapply Hu.
Qed.

Lemma Handle_keys_unique cmd w r w' :
  balances_in_range (w_db w) -> Handle s cmd w = (r, w') ->
  keys_unique (w_db w) -> keys_unique (w_db w').
Proof.
  intros Hwf H Hu.
  destruct (Handle_step s cmd w r w' Hwf H) as [->|(p & rc & tx & res & Hp & _ & Hc & _)]; [done|].
  by eapply committed_keys_unique.
Qed.

(** *** Runs of several commands *)
Lemma run_all_invariant cmds w rs w' :
  run_all s cmds w = (rs, w') -> wf_ledger (w_db w) -> keys_unique (w_db w) ->
  wf_ledger (w_db w') /\ keys_unique (w_db w') /\ forall c, total (w_db w') c = total (w_db w) c.
Proof.
  revert w rs. induction cmds as [|c cmds IH]; intros w rs; cbn [run_all].
  { by intros [= _ <-]. }
  destruct (Handle s c w) as [r w1] eqn:E1, (run_all s cmds w1) as [rs1 w2] eqn:E2.
  intros [= _ <-] W U. pose proof (Handle_ledger_step c w r w1 (wf_range _ W) E1) as Hs.
  destruct (IH w1 rs1 E2) as (W2 & U2 & T2).
  - by eapply ledger_step_wf.
  - by eapply Handle_keys_unique; [apply wf_range| |].
  - split_and!; [done|done|]. intros c'. rewrite T2. by apply ledger_step_total.
Qed.
End lemmas.

(** Every processor of the default registry announces the posting first. *)
Lemma default_events `{DEC : !Decimal} `{UT : !UuidText} `{REPO : !AccountRepository} reg :
  Forall (fun p => forall rc tx es now, exists rest,
    OutboxEvents p rc tx es now = newPostedEvent reg rc tx es now :: rest) (default_processors reg).
Proof. unfold default_processors. repeat (constructor; [by intros; eexists|]). constructor. Qed.

Lemma default_registry_events `{DEC : !Decimal} `{UT : !UuidText} `{REPO : !AccountRepository} reg
    (r : ProcessorRegistry) :
  NewDefaultRegistry reg = Ok r -> forall t p, r !! t = Some p ->
  forall rc tx es now, exists rest,
    OutboxEvents p rc tx es now = newPostedEvent reg rc tx es now :: rest.
Proof.
  intros Hreg t p Hp. destruct (default_registry_spec reg) as (r0 & Hr0 & Hspec).
  rewrite Hreg in Hr0. injection Hr0 as <-. apply Hspec in Hp as [Hp _].
  pose proof (default_events reg) as Hall. rewrite Forall_forall in Hall. by apply Hall.
Qed.
