(* ===== verification/Relay.v ===== *)
(** * The outbox relay

    services/ledger/internal/worker/outbox_relay.go and the claim, mark, reap
    and replay statements of repository/outbox_event_repository.go, with the
    CHECK constraints and the dead-letter trigger of the outbox_events table
    (migrations 000001, 000003).  The statements are executable; replicas of the
    worker, crashes and broker failures interleave in [relay_step]. *)
From Stdlib Require Import Ascii String.
From stdpp Require Import prelude gmap strings list sorting.
From S2P Require Import Prelude Decimal Errors Events Store.
Open Scope Z_scope.

(** ** The table: the columns the posting path leaves to their defaults *)
Record relay_row := RelayRow {
  y_event : outbox_row;
  y_status : string;
  y_retry_count : Z;
  y_max_retries : Z;
  y_last_error : option string;
  y_last_attempted_at : option Z;      (* times in microseconds *)
  y_published_at : option Z;
  y_next_attempt_at : option Z;
  y_created_at : Z;
}.

(** A row as InsertEvents leaves it. *)
Definition new_relay_row (o : outbox_row) (now : Z) : relay_row :=
  RelayRow o "pending" 0 5 None None None None now.

Definition outbox_statuses : list string := ["pending"; "processing"; "published"; "failed"; "dead"].

(** The CHECK constraints of the table. *)
Definition outbox_checks (r : relay_row) : bool :=
  bool_decide (y_status r ∈ outbox_statuses)
  && (0 <=? y_retry_count r) && (0 <? y_max_retries r)
  && (bool_decide (y_published_at r = None) || bool_decide (y_status r = "published"))
  && ((y_retry_count r =? 0) || bool_decide (is_Some (y_last_attempted_at r))).

Definition with_status (status : string) (r : relay_row) : relay_row :=
  RelayRow (y_event r) status (y_retry_count r) (y_max_retries r) (y_last_error r)
           (y_last_attempted_at r) (y_published_at r) (y_next_attempt_at r) (y_created_at r).

Definition fn_outbox_check_dead_letter (r : relay_row) : relay_row :=
  if bool_decide (y_status r = "failed") && (y_max_retries r <=? y_retry_count r)
  then with_status "dead" r else r.

(** [UPDATE outbox_events SET ... WHERE ...]: the trigger runs on every updated
    row, one refused row refuses the statement; the count of updated rows. *)
Definition updated (P : uuid -> relay_row -> bool) (f : relay_row -> relay_row)
    (t : gmap uuid relay_row) : gmap uuid relay_row :=
  map_imap (fun id r => Some (if P id r then fn_outbox_check_dead_letter (f r) else r)) t.
Definition matching (P : uuid -> relay_row -> bool) (t : gmap uuid relay_row)
    : list (uuid * relay_row) :=
  filter (fun kr => P kr.1 kr.2 = true) (map_to_list t).

Definition sql_update (P : uuid -> relay_row -> bool) (f : relay_row -> relay_row)
    (t : gmap uuid relay_row) : error + (Z * gmap uuid relay_row) :=
  if forallb (fun kr => outbox_checks (fn_outbox_check_dead_letter (f kr.2))) (matching P t)
  then inr (Z.of_nat (length (matching P t)), updated P f t)
  else inl (PgError "23514" "violates check constraint").

(** [ORDER BY key ASC NULLS FIRST LIMIT n FOR UPDATE SKIP LOCKED]: [locked] are
    the rows other transactions hold. *)
Definition null_first (a b : option Z) : Prop :=
  match a, b with None, _ => True | Some _, None => False | Some x, Some y => x <= y end.
#[export] Instance null_first_dec : RelDecision null_first.
Proof. intros [x|] [y|]; simpl; apply _. Defined.

Section ordering.
Context (key : relay_row -> option Z).
Definition by_key (a b : uuid * relay_row) : Prop := null_first (key a.2) (key b.2).
#[export] Instance by_key_dec : RelDecision by_key.
Proof. intros a b. unfold by_key. apply _. Defined.
Definition select_for_update (P : uuid -> relay_row -> bool) (locked : gset uuid) (limit : nat)
    (t : gmap uuid relay_row) : list (uuid * relay_row) :=
  take limit (filter (fun kr => kr.1 ∉ locked) (merge_sort by_key (matching P t))).
End ordering.

(** ** The repository's statements *)

(** model.OutboxEventRecord *)
Record OutboxEventRecord := MkRecord {
  rec_ID : uuid;
  rec_AggregateType : string;
  rec_AggregateID : uuid;
  rec_EventType : string;
  rec_Payload : payload;
  rec_RetryCount : Z;
}.
Definition scanClaimed (kr : uuid * relay_row) : OutboxEventRecord :=
  let o := y_event kr.2 in
  MkRecord kr.1 (o_aggregate_type o) (o_aggregate_id o) (o_event_type o) (o_payload o)
           (y_retry_count kr.2).

Definition set_processing (now : Z) (r : relay_row) : relay_row :=
  RelayRow (y_event r) "processing" (y_retry_count r) (y_max_retries r) (y_last_error r)
           (Some now) (y_published_at r) (y_next_attempt_at r) (y_created_at r).

Definition claim (selected : list (uuid * relay_row)) (now : Z) (t : gmap uuid relay_row)
    : error + (list OutboxEventRecord * gmap uuid relay_row) :=
  match sql_update (fun id _ => bool_decide (id ∈ selected.*1)) (set_processing now) t with
  | inl e => inl (Wrap "claim outbox events" e)
  | inr (_, t') => inr (scanClaimed <$> selected, t')
  end.

Definition is_pending (_ : uuid) (r : relay_row) : bool := bool_decide (y_status r = "pending").
Definition ClaimPending (locked : gset uuid) (limit : nat) (now : Z) (t : gmap uuid relay_row) :=
  claim (select_for_update (fun r => Some (y_created_at r)) is_pending locked limit t) now t.

Definition is_due (now : Z) (_ : uuid) (r : relay_row) : bool :=
  bool_decide (y_status r = "failed") && (y_retry_count r <? y_max_retries r)
  && match y_next_attempt_at r with None => true | Some at_ => at_ <=? now end.
Definition ClaimFailedForRetry (locked : gset uuid) (limit : nat) (now : Z)
    (t : gmap uuid relay_row) :=
  claim (select_for_update y_next_attempt_at (is_due now) locked limit t) now t.

Definition set_published (now : Z) (r : relay_row) : relay_row :=
  RelayRow (y_event r) "published" (y_retry_count r) (y_max_retries r) (y_last_error r)
           (y_last_attempted_at r) (Some now) (y_next_attempt_at r) (y_created_at r).
Definition MarkPublished (id : uuid) (now : Z) (t : gmap uuid relay_row)
    : error + gmap uuid relay_row :=
  match sql_update (fun i _ => bool_decide (i = id)) (set_published now) t with
  | inl e => inl (Wrap "mark outbox event published" e)
  | inr (_, t') => inr t'
  end.

(** [LEAST(900, 30 * POWER(2, retry_count + 1)) * (1 + random() * 0.5)] seconds,
    in microseconds: [random] stands for the random number times 2^53. *)
Definition random_scale : Z := 9007199254740992.
Definition backoff (retry_count random : Z) : Z :=
  let base := Z.min 900 (30 * 2 ^ (retry_count + 1)) in
  base * 1000000 + base * 500000 * random / random_scale.

Definition MarkFailed (id : uuid) (errMsg : string) (now random : Z) (t : gmap uuid relay_row)
    : error + gmap uuid relay_row :=
  let errMsg := String.substring 0 1000 errMsg in
  match sql_update (fun i _ => bool_decide (i = id)) (fun r =>
      RelayRow (y_event r) "failed" (y_retry_count r + 1) (y_max_retries r) (Some errMsg)
               (Some now) (y_published_at r) (Some (now + backoff (y_retry_count r) random))
               (y_created_at r)) t with
  | inl e => inl (Wrap "mark outbox event failed" e)
  | inr (_, t') => inr t'
  end.

Definition is_stuck (olderThan now : Z) (_ : uuid) (r : relay_row) : bool :=
  bool_decide (y_status r = "processing")
  && match y_last_attempted_at r with Some at_ => at_ <? now - olderThan | None => false end.
Definition reaped (now : Z) (r : relay_row) : relay_row :=
  RelayRow (y_event r) "failed" (y_retry_count r) (y_max_retries r)
           (Some "reaped: stuck in processing past deadline") (y_last_attempted_at r)
           (y_published_at r) (Some now) (y_created_at r).
Definition ReapStuck (olderThan now : Z) (t : gmap uuid relay_row)
    : error + (Z * gmap uuid relay_row) :=
  match sql_update (is_stuck olderThan now) (reaped now) t with
  | inl e => inl (Wrap "reap stuck outbox events" e)
  | inr (n, t') => inr (n, t')
  end.

Definition replayed (now : Z) (r : relay_row) : relay_row :=
  RelayRow (y_event r) "failed" 0 (y_max_retries r)
    (Some (default EmptyString (y_last_error r) +:+ " [replayed by admin]"))
    (y_last_attempted_at r) (y_published_at r) (Some now) (y_created_at r).

Definition ReplayDead (id : uuid) (now : Z) (t : gmap uuid relay_row)
    : error + gmap uuid relay_row :=
  match sql_update (fun i r => bool_decide (i = id) && bool_decide (y_status r = "dead"))
                   (replayed now) t with
  | inl e => inl (Wrap "replay dead outbox event" e)
  | inr (affected, t') => if affected =? 0 then inl (wrapf ErrOutboxEventNotFound EmptyString)
                          else inr t'
  end.

Definition maxReplayAllBatch : nat := 100.
Definition is_dead_before (olderThan : Z) (_ : uuid) (r : relay_row) : bool :=
  bool_decide (y_status r = "dead") && (y_created_at r <? olderThan).
Definition ReplayAllDead (locked : gset uuid) (olderThan now : Z) (t : gmap uuid relay_row)
    : error + (Z * gmap uuid relay_row) :=
  let selected := select_for_update (fun r => Some (y_created_at r)) (is_dead_before olderThan)
                    locked maxReplayAllBatch t in
  match sql_update (fun id _ => bool_decide (id ∈ selected.*1)) (replayed now) t with
  | inl e => inl (Wrap "replay all dead outbox events" e)
  | inr (n, t') => inr (n, t')
  end.

Definition CountByStatuses (statuses : list string) (t : gmap uuid relay_row) : gmap string Z :=
  list_to_map (omap (fun status =>
    let n := length (matching (fun _ r => bool_decide (y_status r = status)) t) in
    if bool_decide (n = 0%nat) then None else Some (status, Z.of_nat n)) statuses).

(** ** The worker *)

(** A message at the broker; consumers deduplicate on the message id. *)
Record delivery := Delivery {
  dl_MessageID : uuid;
  dl_RoutingKey : string;
  dl_CorrelationID : option string;
  dl_Payload : payload;
}.

Definition payload_request_id (p : payload) : option string :=
  match p with
  | PPosted ev => if bool_decide (tp_RequestID ev = EmptyString) then None else Some (tp_RequestID ev)
  | PReversed _ | PConverted _ => None
  end.
Definition message_of (e : OutboxEventRecord) : delivery :=
  Delivery (rec_ID e) (rec_EventType e) (payload_request_id (rec_Payload e)) (rec_Payload e).

(** How PublishTo ends: confirmed, failed although the broker has the message,
    or failed. *)
Inductive publish_outcome := Confirmed | Unconfirmed (msg : string) | Refused (msg : string).
Definition reached (po : publish_outcome) : bool :=
  match po with Refused _ => false | _ => true end.

(** How the marking statement ends: executed and acknowledged, executed but
    the acknowledgement lost, or not executed. *)
Inductive mark_outcome := Marked | MarkUnacknowledged | NotMarked.

Definition run_mark (mo : mark_outcome) (op : gmap uuid relay_row -> error + gmap uuid relay_row)
    (t : gmap uuid relay_row) : gmap uuid relay_row :=
  match mo with
  | NotMarked => t
  | _ => match op t with inl _ => t | inr t' => t' end
  end.

Definition publish (po : publish_outcome) (e : OutboxEventRecord) (broker : list delivery)
    : list delivery :=
  if reached po then broker ++ [message_of e] else broker.
Definition mark (po : publish_outcome) (mo : mark_outcome) (now random : Z)
    (e : OutboxEventRecord) (t : gmap uuid relay_row) : gmap uuid relay_row :=
  run_mark mo (match po with
               | Confirmed => MarkPublished (rec_ID e) now
               | Unconfirmed msg | Refused msg => MarkFailed (rec_ID e) msg now random
               end) t.
Definition publishOne (po : publish_outcome) (mo : mark_outcome) (now random : Z)
    (e : OutboxEventRecord) (st : gmap uuid relay_row * list delivery)
    : gmap uuid relay_row * list delivery :=
  (mark po mo now random e st.1, publish po e st.2).

(** One batch: what happens to each claimed event is scripted. *)
Fixpoint publish_all (script : list (publish_outcome * mark_outcome)) (now random : Z)
    (events : list OutboxEventRecord) (st : gmap uuid relay_row * list delivery)
    : gmap uuid relay_row * list delivery :=
  match events, script with
  | e :: es, (po, mo) :: rest => publish_all rest now random es (publishOne po mo now random e st)
  | e :: es, [] => publish_all [] now random es (publishOne Confirmed Marked now random e st)
  | [], _ => st
  end.
Definition processBatch
    (claimFn : gmap uuid relay_row -> error + (list OutboxEventRecord * gmap uuid relay_row))
    (script : list (publish_outcome * mark_outcome)) (now random : Z)
    (st : gmap uuid relay_row * list delivery) : gmap uuid relay_row * list delivery :=
  match claimFn st.1 with
  | inl _ => st
  | inr (events, t) => publish_all script now random events (t, st.2)
  end.

(** The ticks of one of the two claim loops. *)
Record tick := Tick {
  tk_now : Z;
  tk_random : Z;
  tk_locked : gset uuid;
  tk_script : list (publish_outcome * mark_outcome);
}.
Fixpoint loop (claimFn : gset uuid -> nat -> Z -> gmap uuid relay_row
                 -> error + (list OutboxEventRecord * gmap uuid relay_row))
    (batchSize : nat) (ticks : list tick) (st : gmap uuid relay_row * list delivery)
    : gmap uuid relay_row * list delivery :=
  match ticks with
  | [] => st
  | k :: ks =>
      loop claimFn batchSize ks
        (processBatch (claimFn (tk_locked k) batchSize (tk_now k)) (tk_script k)
                      (tk_now k) (tk_random k) st)
  end.
