(* ===== verification/RelaySteps.v ===== *)
(** * Every interleaving of relay workers

    [relay_step]: any number of replicas claim, publish and mark events in any
    order, crash between any two of these, and share the table with the reaper,
    the operator's replays and the producers.  What every reachable world
    satisfies, and that from each of them an event can still be delivered. *)
From Stdlib Require Import Ascii String.
From stdpp Require Import prelude gmap strings list sorting relations.
From S2P Require Import Prelude Decimal Errors Events Store Relay.
Open Scope Z_scope.

(** ** The worlds *)

(** An event a worker holds: just claimed, or sent with the result it saw. *)
Inductive phase := Claimed | Sent (po : publish_outcome).

Record relay := MkRelay {
  outbox : gmap uuid relay_row;
  broker : list delivery;
  hands : list (OutboxEventRecord * phase);
  clock : Z;
}.

Inductive relay_step : relay -> relay -> Prop :=
| step_insert t b h now o :
    t !! o_id o = None ->
    relay_step (MkRelay t b h now) (MkRelay (<[o_id o := new_relay_row o now]> t) b h now)
| step_time t b h now now' : now <= now' -> relay_step (MkRelay t b h now) (MkRelay t b h now')
| step_claim_pending t b h now locked limit es t' :
    ClaimPending locked limit now t = inr (es, t') ->
    relay_step (MkRelay t b h now) (MkRelay t' b (h ++ ((.,Claimed) <$> es)) now)
| step_claim_failed t b h now locked limit es t' :
    ClaimFailedForRetry locked limit now t = inr (es, t') ->
    relay_step (MkRelay t b h now) (MkRelay t' b (h ++ ((.,Claimed) <$> es)) now)
| step_publish t b h1 h2 now e po :
    relay_step (MkRelay t b (h1 ++ (e, Claimed) :: h2) now)
               (MkRelay t (publish po e b) (h1 ++ (e, Sent po) :: h2) now)
| step_mark t b h1 h2 now e po mo random :
    relay_step (MkRelay t b (h1 ++ (e, Sent po) :: h2) now)
               (MkRelay (mark po mo now random e t) b (h1 ++ h2) now)
| step_crash t b h1 h2 now x :
    relay_step (MkRelay t b (h1 ++ x :: h2) now) (MkRelay t b (h1 ++ h2) now)
| step_reap t b h now olderThan n t' :
    ReapStuck olderThan now t = inr (n, t') ->
    relay_step (MkRelay t b h now) (MkRelay t' b h now)
| step_replay t b h now id t' :
    ReplayDead id now t = inr t' -> relay_step (MkRelay t b h now) (MkRelay t' b h now)
| step_replay_all t b h now locked olderThan n t' :
    ReplayAllDead locked olderThan now t = inr (n, t') ->
    relay_step (MkRelay t b h now) (MkRelay t' b h now).

Definition relay_start (now : Z) : relay := MkRelay ∅ [] [] now.
Definition relay_reachable (st : relay) : Prop := exists now, rtc relay_step (relay_start now) st.

(** ** What a row may become *)
Definition delivered (id : uuid) (b : list delivery) : Prop := exists d, d ∈ b /\ dl_MessageID d = id.

Record good_row (id : uuid) (r : relay_row) (b : list delivery) : Prop := {
  gr_id : o_id (y_event r) = id;
  gr_checks : outbox_checks r = true;
  gr_published : y_status r = "published" -> is_Some (y_published_at r) /\ delivered id b;
  gr_live : y_status r <> "published" -> y_status r <> "dead" -> y_retry_count r < y_max_retries r;
  gr_processing : y_status r = "processing" -> is_Some (y_last_attempted_at r);
}.

(** The event never changes, and published is final. *)
Definition row_evolves (r r' : relay_row) : Prop :=
  y_event r' = y_event r /\ (y_status r = "published" -> y_status r' = "published").
Definition outbox_evolves (t t' : gmap uuid relay_row) : Prop :=
  forall id r, t !! id = Some r -> exists r', t' !! id = Some r' /\ row_evolves r r'.

#[export] Instance row_evolves_preorder : PreOrder row_evolves.
Proof.
  split; [by split|]. intros x y z [E1 H1] [E2 H2]. split; [congruence|auto].
Qed.
#[export] Instance outbox_evolves_preorder : PreOrder outbox_evolves.
Proof.
  split; [intros t id r Hr; exists r; by split|].
  intros t1 t2 t3 H1 H2 id r (r' & Hr' & E1)%H1. apply H2 in Hr' as (r'' & ? & E2).
  exists r''. split; [done|by etrans].
Qed.

(** *** Updates *)
Lemma matching_elem P t id r : (id, r) ∈ matching P t <-> t !! id = Some r /\ P id r = true.
Proof. unfold matching. rewrite list_elem_of_filter, elem_of_map_to_list. simpl. tauto. Qed.

Lemma sql_update_Ok P f t n t' :
  sql_update P f t = inr (n, t') ->
  forall id, t' !! id = (fun r => if P id r then fn_outbox_check_dead_letter (f r) else r) <$> t !! id
  /\ forall r, t !! id = Some r -> P id r = true ->
       outbox_checks (fn_outbox_check_dead_letter (f r)) = true.
Proof.
  unfold sql_update. destruct (forallb _ _) eqn:Ef; [|done]. intros [= _ <-] id.
  rewrite forallb_forall in Ef. split.
  - unfold updated. rewrite map_lookup_imap. by destruct (t !! id).
  - intros r Hr HP. apply (Ef (id, r)), list_elem_of_In, matching_elem. by split.
Qed.

(** A statement that keeps events, never touches published rows (or keeps them
    published) and produces good rows. *)
Record keeps (t : gmap uuid relay_row) (P : uuid -> relay_row -> bool) (f : relay_row -> relay_row)
    (b : list delivery) : Prop := {
  kp_event r : y_event (f r) = y_event r;
  kp_status id r : t !! id = Some r -> P id r = true -> good_row id r b ->
    (y_status (f r) = "failed" /\ (y_status r = "published" -> is_Some (y_published_at (f r))))
    \/ (y_status (f r) = "processing" /\ y_status r <> "published" /\ is_Some (y_last_attempted_at (f r))
        /\ y_retry_count (f r) < y_max_retries (f r))
    \/ (y_status (f r) = "published" /\ is_Some (y_published_at (f r)) /\ delivered id b);
}.

Lemma dead_letter_cases r :
  (fn_outbox_check_dead_letter r = r
   /\ (y_status r = "failed" -> y_retry_count r < y_max_retries r))
  \/ (fn_outbox_check_dead_letter r = with_status "dead" r /\ y_status r = "failed").
Proof.
  unfold fn_outbox_check_dead_letter. case_bool_decide as Hs; simpl; [|by left].
  destruct (_ <=? _) eqn:E; [by right|left]. split; [done|]. intros _. apply Z.leb_gt in E. lia.
Qed.

(** The published_at constraint. *)
Lemma checks_published r :
  outbox_checks r = true -> is_Some (y_published_at r) -> y_status r = "published".
Proof.
  unfold outbox_checks. rewrite !andb_true_iff, orb_true_iff, !bool_decide_eq_true.
  intros [[_ [Hn|Hs]] _] [z Hz]; congruence.
Qed.

Lemma sql_update_good P f t n t' b :
  keeps t P f b -> sql_update P f t = inr (n, t') ->
  (forall id r, t !! id = Some r -> good_row id r b) ->
  outbox_evolves t t' /\ forall id r, t' !! id = Some r -> good_row id r b.
Proof.
  intros [Hev Hst] Hu Hgood.
  assert (Hrow : forall id r, t !! id = Some r ->
    let r' := if P id r then fn_outbox_check_dead_letter (f r) else r in
    row_evolves r r' /\ good_row id r' b).
  { intros id r Hr. pose proof (Hgood id r Hr) as G. cbv zeta.
    destruct (P id r) eqn:EP; [|split; [reflexivity|done]].
    pose proof (proj2 (sql_update_Ok _ _ _ _ _ Hu id) r Hr EP) as Hc.
    specialize (Hst id r Hr EP G).
    destruct (dead_letter_cases (f r)) as [[E Hlt]|[E Hf]]; rewrite E in Hc |- *.
    - split.
      + split; [apply Hev|]. intros Hp. destruct Hst as [[Hf Hpub]|[(? & ? & _)|(? & _)]]; [|done|done].
        apply (checks_published _ Hc). by apply Hpub.
      + split; [rewrite Hev; apply G|done|..].
        * intros Hp. destruct Hst as [[Hf _]|[(Hf & _)|(_ & ? & ?)]]; [congruence|congruence|done].
        * intros Hnp _. destruct Hst as [[Hf _]|[(_ & _ & _ & ?)|(Hf & _)]]; [auto|done|congruence].
        * intros Hp. destruct Hst as [[Hf _]|[(_ & _ & ? & _)|(Hf & _)]]; [congruence|done|congruence].
    - split.
      + split; [apply Hev|]. intros Hp.
        destruct Hst as [[_ Hpub]|[(? & ? & _)|(? & _)]]; [|congruence|congruence].
        apply (checks_published _ Hc). by apply Hpub.
      + split; [simpl; rewrite Hev; apply G|done|done|done|done]. }
  pose proof (sql_update_Ok _ _ _ _ _ Hu) as Hl. split.
  - intros id r Hr. exists (if P id r then fn_outbox_check_dead_letter (f r) else r).
    rewrite (proj1 (Hl id)), Hr. split; [done|]. by apply Hrow.
  - intros id r'. rewrite (proj1 (Hl id)). destruct (t !! id) as [r|] eqn:Hr; [|done].
    intros [= <-]. by apply Hrow.
Qed.

(** *** The statements *)
Lemma selected_matching key P locked limit t kr :
  kr ∈ select_for_update key P locked limit t -> kr ∈ matching P t.
Proof.
  unfold select_for_update. intros H%elem_of_take. destruct H as (i & Hi & _).
  apply list_elem_of_lookup_2, list_elem_of_filter in Hi as [_ H]. by rewrite merge_sort_Permutation in H.
Qed.
Lemma selected_lookup key P locked limit t id :
  id ∈ (select_for_update key P locked limit t).*1 -> exists r, t !! id = Some r /\ P id r = true.
Proof.
  intros ([i r] & -> & H%selected_matching)%list_elem_of_fmap. apply matching_elem in H. by exists r.
Qed.

Section statements.
Context (t : gmap uuid relay_row) (b : list delivery).
Hypothesis Hgood : forall id r, t !! id = Some r -> good_row id r b.

Definition preserved (t' : gmap uuid relay_row) : Prop :=
  outbox_evolves t t' /\ forall id r, t' !! id = Some r -> good_row id r b.

Lemma preserved_refl : preserved t.
Proof. by split. Qed.

Lemma claim_preserved key P locked limit now es t' :
  (forall id r, P id r = true -> y_status r <> "published" /\ y_status r <> "dead") ->
  claim (select_for_update key P locked limit t) now t = inr (es, t') ->
  preserved t' /\ es = scanClaimed <$> select_for_update key P locked limit t.
Proof.
  intros HP. unfold claim. destruct (sql_update _ _ _) as [e|[n t1]] eqn:Eu; [done|].
  intros [= <- <-]. split; [|done]. eapply sql_update_good; [|done|done]. split; [done|].
  intros id r Hr Hid%bool_decide_eq_true G. right; left.
  apply selected_lookup in Hid as (r' & Hr' & HPr). rewrite Hr in Hr'. injection Hr' as <-.
  apply HP in HPr as [Hp Hd]. split_and!; [done|done|by eexists|]. by apply (gr_live _ _ _ G).
Qed.

Lemma is_pending_unpublished id r : is_pending id r = true -> y_status r <> "published" /\ y_status r <> "dead".
Proof. by intros ->%bool_decide_eq_true. Qed.
Lemma is_due_unpublished now id r : is_due now id r = true -> y_status r <> "published" /\ y_status r <> "dead".
Proof. by intros [[->%bool_decide_eq_true _]%andb_true_iff _]%andb_true_iff. Qed.

Lemma ClaimPending_preserved locked limit now es t' :
  ClaimPending locked limit now t = inr (es, t') -> preserved t' /\
  es = scanClaimed <$> select_for_update (fun r => Some (y_created_at r)) is_pending locked limit t.
Proof. apply claim_preserved, is_pending_unpublished. Qed.
Lemma ClaimFailed_preserved locked limit now es t' :
  ClaimFailedForRetry locked limit now t = inr (es, t') -> preserved t' /\
  es = scanClaimed <$> select_for_update y_next_attempt_at (is_due now) locked limit t.
Proof. apply claim_preserved, is_due_unpublished. Qed.

Lemma MarkPublished_preserved id now t' :
  delivered id b -> MarkPublished id now t = inr t' -> preserved t'.
Proof.
  unfold MarkPublished. destruct (sql_update _ _ _) as [e|[n t1]] eqn:Eu; [done|]. intros Hd [= <-].
  eapply sql_update_good; [|done|done]. split; [done|].
  intros i r _ ->%bool_decide_eq_true _. right; right. by split_and!.
Qed.

(** The statements that set a row back to failed. *)
Lemma refail_preserved P f n t' :
  (forall r, y_event (f r) = y_event r /\ y_status (f r) = "failed" /\
     y_published_at (f r) = y_published_at r) ->
  sql_update P f t = inr (n, t') -> preserved t'.
Proof.
  intros Hf Hu. eapply sql_update_good; [|done|done]. split; [intros; apply Hf|].
  intros id r _ _ G. left. destruct (Hf r) as (_ & -> & ->). split; [done|].
  intros Hp. by apply (gr_published _ _ _ G).
Qed.

Lemma MarkFailed_preserved id msg now random t' :
  MarkFailed id msg now random t = inr t' -> preserved t'.
Proof.
  unfold MarkFailed. cbv zeta. destruct (sql_update _ _ _) as [e|[n t1]] eqn:Eu; [done|].
  intros [= <-]. eapply refail_preserved; [|exact Eu]; intros r; by split_and!.
Qed.
Lemma ReapStuck_preserved olderThan now n t' :
  ReapStuck olderThan now t = inr (n, t') -> preserved t'.
Proof.
  unfold ReapStuck. destruct (sql_update _ _ _) as [e|[n1 t1]] eqn:Eu; [done|].
  intros [= _ <-]. eapply refail_preserved; [|exact Eu]; intros r; by split_and!.
Qed.
Lemma ReplayDead_preserved id now t' : ReplayDead id now t = inr t' -> preserved t'.
Proof.
  unfold ReplayDead. destruct (sql_update _ _ _) as [e|[n1 t1]] eqn:Eu; [done|].
  destruct (_ =? _); [done|]. intros [= <-]. eapply refail_preserved; [|exact Eu]; intros r; by split_and!.
Qed.
Lemma ReplayAllDead_preserved locked olderThan now n t' :
  ReplayAllDead locked olderThan now t = inr (n, t') -> preserved t'.
Proof.
  unfold ReplayAllDead. cbv zeta. destruct (sql_update _ _ _) as [e|[n1 t1]] eqn:Eu; [done|].
  intros [= _ <-]. eapply refail_preserved; [|exact Eu]; intros r; by split_and!.
Qed.

Lemma mark_preserved po mo now random e :
  (po = Confirmed -> delivered (rec_ID e) b) -> preserved (mark po mo now random e t).
Proof.
  intros Hd. unfold mark, run_mark. destruct mo; try apply preserved_refl; destruct po;
    (match goal with |- preserved (match ?x with _ => _ end) => destruct x eqn:E end);
    eauto using preserved_refl, MarkPublished_preserved, MarkFailed_preserved.
Qed.
End statements.

(** ** The invariant of the worlds *)

(** The message says exactly what the row says. *)
Definition verbatim (d : delivery) (o : outbox_row) : Prop :=
  dl_RoutingKey d = o_event_type o /\ dl_Payload d = o_payload o /\
  dl_CorrelationID d = payload_request_id (o_payload o).

Definition holds (t : gmap uuid relay_row) (e : OutboxEventRecord) : Prop :=
  exists r, t !! rec_ID e = Some r /\ verbatim (message_of e) (y_event r).

Record relay_wf (st : relay) : Prop := {
  rw_rows id r : outbox st !! id = Some r -> good_row id r (broker st);
  rw_broker d : d ∈ broker st ->
    exists r, outbox st !! dl_MessageID d = Some r /\ verbatim d (y_event r);
  rw_hands e ph : (e, ph) ∈ hands st -> holds (outbox st) e;
  rw_sent e : (e, Sent Confirmed) ∈ hands st -> delivered (rec_ID e) (broker st);
}.

Lemma delivered_mono id b b' : delivered id b -> delivered id (b ++ b').
Proof. intros (d & ? & ?). exists d. rewrite elem_of_app. auto. Qed.
Lemma good_row_mono id r b b' : good_row id r b -> good_row id r (b ++ b').
Proof.
  intros [? ? Hp ? ?]. split; try done. intros [? ?]%Hp. split; [done|by apply delivered_mono].
Qed.

Lemma evolves_event t t' id r :
  outbox_evolves t t' -> t !! id = Some r -> exists r', t' !! id = Some r' /\ y_event r' = y_event r.
Proof. intros H (r' & ? & E & _)%H. eauto. Qed.

Lemma holds_evolves t t' e : outbox_evolves t t' -> holds t e -> holds t' e.
Proof.
  intros Hev (r & Hr & Hv). destruct (evolves_event _ _ _ _ Hev Hr) as (r' & ? & E).
  exists r'. by rewrite E.
Qed.

(** A change of the table alone. *)
Lemma relay_wf_table t t' b h now now' :
  relay_wf (MkRelay t b h now) -> preserved t b t' -> relay_wf (MkRelay t' b h now').
Proof.
  intros [Hr Hb Hh Hs] [Hev Hgood]. split; simpl in *; [done| | |done].
  - intros d (r & Hd & Hv)%Hb. destruct (evolves_event _ _ _ _ Hev Hd) as (r' & ? & E).
    exists r'. by rewrite E.
  - intros e ph H%Hh. by eapply holds_evolves.
Qed.

(** Fewer events in hand. *)
Lemma relay_wf_fewer t b h h' now :
  relay_wf (MkRelay t b h now) -> (forall x, x ∈ h' -> x ∈ h) -> relay_wf (MkRelay t b h' now).
Proof. intros [Hr Hb Hh Hs] Hsub. split; simpl in *; try done; eauto. Qed.

(** A claim puts records of the table's rows into a worker's hands. *)
Lemma relay_wf_claim t t' b h now key P locked limit es :
  relay_wf (MkRelay t b h now) -> preserved t b t' ->
  es = scanClaimed <$> select_for_update key P locked limit t ->
  relay_wf (MkRelay t' b (h ++ ((.,Claimed) <$> es)) now).
Proof.
  intros W Hp ->. pose proof (relay_wf_table _ _ _ _ _ now W Hp) as [Hr Hb Hh Hs].
  split; simpl in *; [done|done|..].
  - intros e ph [H|(? & [= -> ->] & ([id r] & -> & Hin)%list_elem_of_fmap)%list_elem_of_fmap]%elem_of_app;
      [by eapply Hh|].
    apply selected_matching, matching_elem in Hin as [Ht _]. eapply holds_evolves; [apply Hp|].
    by exists r.
  - intros e [H|(? & [=] & _)%list_elem_of_fmap]%elem_of_app. by apply Hs.
Qed.

Lemma relay_step_wf st st' :
  relay_step st st' -> relay_wf st -> relay_wf st' /\ outbox_evolves (outbox st) (outbox st').
Proof.
  intros H W. pose proof (rw_rows _ W) as Hgood. destruct H; simpl in *.
  - destruct W as [Hr Hb Hh Hs]. simpl in *.
    assert (Hev : outbox_evolves t (<[o_id o := new_relay_row o now]> t)).
    { intros id r Hid. exists r. split; [|reflexivity]. rewrite lookup_insert_ne; [done|]. congruence. }
    split; [|done]. split; simpl.
    + intros id r. destruct (decide (o_id o = id)) as [<-|Hne].
      * rewrite lookup_insert_eq. intros [= <-]. by split.
      * rewrite lookup_insert_ne by done. apply Hr.
    + intros d (r & Hd & Hv)%Hb. destruct (evolves_event _ _ _ _ Hev Hd) as (r' & ? & E).
      exists r'. by rewrite E.
    + intros e ph He%Hh. by eapply holds_evolves.
    + done.
  - split; [|reflexivity]. by eapply relay_wf_table; [|apply preserved_refl].
  - destruct (ClaimPending_preserved t b Hgood _ _ _ _ _ H) as [Hp Hes].
    split; [by eapply relay_wf_claim|apply Hp].
  - destruct (ClaimFailed_preserved t b Hgood _ _ _ _ _ H) as [Hp Hes].
    split; [by eapply relay_wf_claim|apply Hp].
  - split; [|reflexivity]. destruct W as [Hr Hb Hh Hs]. simpl in *.
    destruct (Hh e Claimed) as (r & Ht & Hv); [set_solver|].
    unfold publish. split; simpl.
    + intros id r' Hr'. destruct (reached po); [apply good_row_mono|]; by apply Hr.
    + destruct (reached po); [|done].
      intros d [Hd| ->%list_elem_of_singleton]%elem_of_app; [by apply Hb|]. by exists r.
    + intros e' ph Hin. assert ((e', ph) ∈ h1 ++ h2 \/ e' = e) as [Hx| ->] by set_solver;
        [|by exists r]. apply (Hh e' ph). set_solver.
    + intros e' Hin. assert ((e', Sent Confirmed) ∈ h1 ++ h2 \/ (e' = e /\ po = Confirmed)) as [Hx|[-> ->]]
        by set_solver.
      * destruct (reached po); [apply delivered_mono|]; apply Hs; set_solver.
      * simpl. exists (message_of e). split; [set_solver|done].
  - assert (Hp : preserved t b (mark po mo now random e t)).
    { apply mark_preserved; [done|]. intros ->. apply (rw_sent _ W e). simpl. set_solver. }
    split; [|apply Hp]. eapply relay_wf_fewer; [by eapply relay_wf_table|]. set_solver.
  - split; [|reflexivity]. eapply relay_wf_fewer; [done|]. set_solver.
  - assert (Hp : preserved t b t') by (by eapply ReapStuck_preserved).
    split; [by eapply relay_wf_table|apply Hp].
  - assert (Hp : preserved t b t') by (by eapply ReplayDead_preserved).
    split; [by eapply relay_wf_table|apply Hp].
  - assert (Hp : preserved t b t') by (by eapply ReplayAllDead_preserved).
    split; [by eapply relay_wf_table|apply Hp].
Qed.

Lemma relay_steps_wf st st' :
  rtc relay_step st st' -> relay_wf st -> relay_wf st' /\ outbox_evolves (outbox st) (outbox st').
Proof.
  induction 1 as [|x y z Hxy _ IH]; intros W; [by split|].
  destruct (relay_step_wf _ _ Hxy W) as [Wy E1]. destruct (IH Wy) as [Wz E2].
  split; [done|by etrans].
Qed.

Lemma relay_start_wf now : relay_wf (relay_start now).
Proof.
  split; simpl; [by intros|..].
  - by intros d ?%not_elem_of_nil.
  - by intros e ph ?%not_elem_of_nil.
  - by intros e ?%not_elem_of_nil.
Qed.
Lemma relay_reachable_wf st : relay_reachable st -> relay_wf st.
Proof. intros (now & H). by apply (relay_steps_wf _ _ H), relay_start_wf. Qed.
