(* ===== verification/RelayTheorems.v ===== *)
(** * What the outbox relay guarantees

    At-least-once delivery of exactly the committed events, and progress.
    First, that it delivers. *)
From Stdlib Require Import Ascii String.
From stdpp Require Import prelude gmap strings list sorting relations fin_sets.
From S2P Require Import Prelude Decimal Errors Events Store Relay RelaySteps.
Open Scope Z_scope.
(** ** Statements that cannot be refused *)
Lemma sql_update_total P f t :
  (forall id r, t !! id = Some r -> P id r = true ->
     outbox_checks (fn_outbox_check_dead_letter (f r)) = true) ->
  sql_update P f t = inr (Z.of_nat (length (matching P t)), updated P f t).
Proof.
  intros H. unfold sql_update.
  replace (forallb _ _) with true; [done|]. symmetry. apply forallb_forall.
  intros [id r] [Ht HP]%list_elem_of_In%matching_elem. by apply (H id).
Qed.

Lemma updated_lookup P f t id :
  updated P f t !! id = (fun r => if P id r then fn_outbox_check_dead_letter (f r) else r) <$> t !! id.
Proof. unfold updated. rewrite map_lookup_imap. by destruct (t !! id). Qed.

Lemma not_failed_kept r : y_status r <> "failed" -> fn_outbox_check_dead_letter r = r.
Proof. intros H. unfold fn_outbox_check_dead_letter. by rewrite bool_decide_false. Qed.
Lemma live_failed_kept r : y_retry_count r < y_max_retries r -> fn_outbox_check_dead_letter r = r.
Proof.
  intros H. unfold fn_outbox_check_dead_letter. rewrite (proj2 (Z.leb_gt _ _) H).
  by rewrite andb_false_r.
Qed.

(** The constraints, as facts. *)
Lemma outbox_checks_spec r :
  outbox_checks r = true <->
  y_status r ∈ outbox_statuses /\ 0 <= y_retry_count r /\ 0 < y_max_retries r /\
  (y_published_at r = None \/ y_status r = "published") /\
  (y_retry_count r = 0 \/ is_Some (y_last_attempted_at r)).
Proof.
  unfold outbox_checks. rewrite !andb_true_iff, !orb_true_iff, !bool_decide_eq_true.
  rewrite Z.leb_le, Z.ltb_lt, Z.eqb_eq. tauto.
Qed.

Lemma set_processing_checks now r :
  outbox_checks r = true -> y_status r <> "published" -> outbox_checks (set_processing now r) = true.
Proof.
  rewrite !outbox_checks_spec. intros (_ & ? & ? & [?|?] & _) Hn; [|done].
  split_and!; [by apply (bool_decide_unpack _)|done|done|by left|right; by eexists].
Qed.
Lemma set_published_checks now r :
  outbox_checks r = true -> outbox_checks (set_published now r) = true.
Proof.
  rewrite !outbox_checks_spec. intros (_ & ? & ? & _ & ?).
  split_and!; [by apply (bool_decide_unpack _)|done|done|by right|done].
Qed.

(** ** Selection without competing locks *)
Lemma select_unlocked key P L t :
  select_for_update key P ∅ L t = take L (merge_sort (by_key key) (matching P t)).
Proof.
  unfold select_for_update. f_equal. generalize (merge_sort (by_key key) (matching P t)).
  induction l as [|x l IH]; [done|]. rewrite filter_cons_True by set_solver. by f_equal.
Qed.

Section selection.
Context (key : relay_row -> option Z) (P : uuid -> relay_row -> bool) (L : nat) (t : gmap uuid relay_row).
Let sel := select_for_update key P ∅ L t.

Lemma selection_ids :
  NoDup sel.*1 /\ (forall id, id ∈ sel.*1 -> exists r, t !! id = Some r /\ P id r = true) /\
  length sel.*1 = Nat.min L (length (matching P t)).
Proof.
  assert (Hsel : sel = take L (merge_sort (by_key key) (matching P t))) by apply select_unlocked.
  rewrite Hsel. split_and!.
  - eapply sublist_NoDup; [|apply fmap_sublist, sublist_take].
    rewrite merge_sort_Permutation. unfold matching.
    eapply sublist_NoDup; [apply (NoDup_fst_map_to_list t)|]. apply fmap_sublist, sublist_filter.
  - rewrite <- Hsel. intros id Hid. by eapply (selected_lookup key P ∅ L).
  - rewrite length_fmap, length_take. f_equal. by rewrite merge_sort_Permutation.
Qed.
End selection.

(** ** A batch with a working broker and database *)
Section batch.
Context (b : list delivery) (now random : Z).

Lemma publishOne_healthy e r t :
  t !! rec_ID e = Some r -> outbox_checks r = true ->
  publishOne Confirmed Marked now random e (t, b)
  = (<[rec_ID e := set_published now r]> t, b ++ [message_of e]).
Proof.
  intros Hr Hc. unfold publishOne, mark, run_mark, MarkPublished, publish. simpl.
  rewrite sql_update_total.
  - f_equal. apply map_eq. intros i. rewrite updated_lookup.
    destruct (decide (i = rec_ID e)) as [->|Hne].
    + rewrite lookup_insert_eq, Hr. simpl. rewrite bool_decide_true by done.
      by rewrite not_failed_kept.
    + rewrite lookup_insert_ne by done. rewrite bool_decide_false by done. by destruct (t !! i).
  - intros id r' Hr' ->%bool_decide_eq_true. rewrite Hr in Hr'. injection Hr' as <-.
    rewrite not_failed_kept by done. by apply set_published_checks.
Qed.
End batch.

Lemma publish_all_healthy now random es t b :
  NoDup (rec_ID <$> es) ->
  (forall e, e ∈ es -> exists r, t !! rec_ID e = Some r /\ outbox_checks r = true) ->
  exists t', publish_all [] now random es (t, b) = (t', b ++ (message_of <$> es)) /\
    forall id, t' !! id = (if decide (id ∈ rec_ID <$> es) then set_published now <$> t !! id else t !! id).
Proof.
  revert t b. induction es as [|e es IH]; intros t b Hnd Hes.
  - exists t. split; [cbn; by rewrite app_nil_r|]. intros id. case_decide as H; [by apply not_elem_of_nil in H|done].
  - apply NoDup_cons in Hnd as [Hni Hnd]. destruct (Hes e) as (r & Hr & Hc); [by left|].
    cbn [publish_all]. rewrite (publishOne_healthy b now random e r t Hr Hc).
    destruct (IH (<[rec_ID e := set_published now r]> t) (b ++ [message_of e]) Hnd) as (t' & -> & Ht').
    { intros x Hx. destruct (Hes x) as (rx & ? & ?); [by right|]. exists rx. split; [|done].
      rewrite lookup_insert_ne; [done|]. intros E. apply Hni. rewrite E. by apply list_elem_of_fmap_2. }
    exists t'. split; [by rewrite <- app_assoc|]. intros id. rewrite Ht'.
    destruct (decide (id = rec_ID e)) as [->|Hne].
    + rewrite decide_False by done. rewrite (decide_True (P := rec_ID e ∈ rec_ID <$> e :: es)) by left.
      by rewrite lookup_insert_eq, Hr.
    + rewrite lookup_insert_ne by done. apply decide_ext. rewrite fmap_cons, elem_of_cons. naive_solver.
Qed.

(** What a healthy batch does: the selected events are published and sent, in
    order; no other row changes. *)
Lemma healthy_batch key P L now random t b :
  (forall id r, t !! id = Some r -> outbox_checks r = true) ->
  (forall id r, P id r = true -> y_status r <> "published") ->
  let sel := select_for_update key P ∅ L t in
  exists t', processBatch (claim sel now) [] now random (t, b)
             = (t', b ++ (message_of ∘ scanClaimed <$> sel)) /\
    forall id, t' !! id = (if decide (id ∈ sel.*1)
                           then set_published now ∘ set_processing now <$> t !! id else t !! id).
Proof.
  intros Hc HP sel. pose proof (selection_ids key P L t) as (Hnd & Hin & _). fold sel in Hnd, Hin.
  unfold processBatch, claim. simpl.
  set (Q := fun (id : uuid) (_ : relay_row) => bool_decide (id ∈ sel.*1)).
  assert (Hproc : forall id r, t !! id = Some r -> Q id r = true ->
    outbox_checks (set_processing now r) = true).
  { intros id r Hr Hq%bool_decide_eq_true. destruct (Hin id Hq) as (r' & Hr' & HPr).
    rewrite Hr in Hr'. injection Hr' as <-. apply set_processing_checks; eauto. }
  rewrite sql_update_total.
  2:{ intros id r Hr Hq. rewrite not_failed_kept by done. eauto. }
  set (t1 := updated Q (set_processing now) t).
  assert (Ht1 : forall id, t1 !! id = if decide (id ∈ sel.*1) then set_processing now <$> t !! id
                                      else t !! id).
  { intros id. unfold t1. rewrite updated_lookup. unfold Q. destruct (t !! id) as [r|]; simpl.
    - case_decide as Hd; [rewrite bool_decide_true by done; by rewrite not_failed_kept|].
      by rewrite bool_decide_false.
    - by case_decide. }
  assert (Hids : rec_ID <$> (scanClaimed <$> sel) = sel.*1).
  { rewrite <- list_fmap_compose. by apply list_fmap_ext. }
  destruct (publish_all_healthy now random (scanClaimed <$> sel) t1 b) as (t' & -> & Ht').
  - by rewrite Hids.
  - intros e He. assert (Hid : rec_ID e ∈ sel.*1) by (rewrite <- Hids; by apply list_elem_of_fmap_2).
    destruct (Hin _ Hid) as (r & Hr & _). exists (set_processing now r).
    rewrite Ht1, decide_True, Hr by done. split; [done|]. apply (Hproc (rec_ID e)); [done|].
    by apply bool_decide_eq_true.
  - exists t'. split; [by rewrite <- list_fmap_compose|]. intros id. rewrite Ht', Hids, Ht1.
    case_decide; [|done]. by rewrite <- option_fmap_compose.
Qed.

(** ** The poll loop *)

(** A tick where no row is locked and nothing fails. *)
Definition healthy_tick (k : tick) : Prop := tk_locked k = ∅ /\ tk_script k = [].

Definition ids_of (P : uuid -> relay_row -> bool) (t : gmap uuid relay_row) : gset uuid :=
  list_to_set (matching P t).*1.

Lemma ids_of_elem P t id : id ∈ ids_of P t <-> exists r, t !! id = Some r /\ P id r = true.
Proof.
  unfold ids_of. rewrite elem_of_list_to_set, list_elem_of_fmap. split.
  - intros ([i r] & -> & H%matching_elem). by exists r.
  - intros (r & H). exists (id, r). by rewrite matching_elem.
Qed.
Lemma ids_of_size P t : size (ids_of P t) = length (matching P t).
Proof.
  unfold ids_of. rewrite size_list_to_set; [by rewrite length_fmap|].
  unfold matching. eapply sublist_NoDup; [apply (NoDup_fst_map_to_list t)|].
  apply fmap_sublist, sublist_filter.
Qed.

(** One healthy poll. *)
Lemma healthy_poll L k t b :
  healthy_tick k -> (forall id r, t !! id = Some r -> outbox_checks r = true) ->
  exists t' l,
    processBatch (ClaimPending (tk_locked k) L (tk_now k)) (tk_script k) (tk_now k) (tk_random k) (t, b)
      = (t', b ++ l) /\
    (forall id r, t' !! id = Some r -> outbox_checks r = true) /\
    (size (ids_of is_pending t') = size (ids_of is_pending t) - Nat.min L (size (ids_of is_pending t)))%nat /\
    forall id r, t !! id = Some r ->
      t' !! id = Some r \/
      (is_pending id r = true /\ message_of (scanClaimed (id, r)) ∈ l /\
       exists r', t' !! id = Some r' /\ y_event r' = y_event r /\ y_status r' = "published").
Proof.
  intros [-> ->] Hc. set (key := fun r => Some (y_created_at r)).
  destruct (healthy_batch key is_pending L (tk_now k) (tk_random k) t b Hc) as (t' & Hrun & Ht').
  { intros id r H. apply (is_pending_unpublished id r H). }
  set (sel := select_for_update key is_pending ∅ L t) in *.
  destruct (selection_ids key is_pending L t) as (Hnd & Hin & Hlen). fold sel in Hnd, Hin, Hlen.
  eexists t', _. split; [exact Hrun|]. split_and!.
  - intros id r'. rewrite Ht'. case_decide as Hd; [|apply Hc]. destruct (Hin id Hd) as (r & Hr & HP).
    rewrite Hr. intros [= <-]. apply set_published_checks, set_processing_checks; [by eapply Hc|].
    apply (is_pending_unpublished id r HP).
  - assert (E : ids_of is_pending t' = ids_of is_pending t ∖ list_to_set sel.*1).
    { apply set_eq. intros id. rewrite elem_of_difference, !ids_of_elem, elem_of_list_to_set, Ht'.
      case_decide as Hd; [|naive_solver]. split; [|naive_solver].
      intros (r & Hr & HP). apply fmap_Some in Hr as (r0 & _ & ->). discriminate HP. }
    rewrite E, size_difference, size_list_to_set, Hlen, ids_of_size; [done|done|].
    intros id Hid%elem_of_list_to_set%Hin. by apply ids_of_elem.
  - intros id r Hr. rewrite Ht'. case_decide as Hd; [right|by left].
    destruct (Hin id Hd) as (r0 & Hr0 & HP). rewrite Hr in Hr0. injection Hr0 as <-.
    split; [done|]. split; [|by rewrite Hr; eexists].
    apply list_elem_of_fmap in Hd as ([i r1] & -> & Hsel).
    assert (r1 = r) as ->.
    { apply selected_matching, matching_elem in Hsel as [E _]. simpl in Hr. congruence. }
    by apply (list_elem_of_fmap_2 (message_of ∘ scanClaimed)) in Hsel.
Qed.

(** Enough healthy polls publish every pending event. *)
Lemma loop_drains L ticks t b t' b' :
  Forall healthy_tick ticks -> (forall id r, t !! id = Some r -> outbox_checks r = true) ->
  (size (ids_of is_pending t) <= length ticks * L)%nat ->
  loop ClaimPending L ticks (t, b) = (t', b') ->
  ids_of is_pending t' = ∅ /\ (exists l, b' = b ++ l) /\
  forall id r, t !! id = Some r ->
    (is_pending id r = false -> t' !! id = Some r) /\
    (is_pending id r = true -> message_of (scanClaimed (id, r)) ∈ b' /\
       exists r', t' !! id = Some r' /\ y_event r' = y_event r /\ y_status r' = "published").
Proof.
  intros Hk. revert t b. induction Hk as [|k ks Hk _ IH]; intros t b Hc Hsize.
  - intros [= <- <-]. simpl in Hsize. assert (E : ids_of is_pending t = ∅)
      by (apply size_empty_inv_L || apply leibniz_equiv, size_empty_inv; lia).
    split; [done|]. split; [exists []; by rewrite app_nil_r|]. intros id r Hr. split; [done|].
    intros HP. assert (id ∈ ids_of is_pending t) by (apply ids_of_elem; eauto). set_solver.
  - cbn [loop]. destruct (healthy_poll L k t b Hk Hc) as (t1 & l & -> & Hc1 & Hs1 & Hrows).
    intros Hrun. destruct (IH t1 (b ++ l) Hc1) as (He & [l' ->] & Hafter);
      [simpl in Hsize; lia|done|].
    split; [done|]. split; [exists (l ++ l'); by rewrite app_assoc|]. intros id r Hr.
    destruct (Hrows id r Hr) as [Ht1|(HP & Hm & r1 & Ht1 & Ee & Est)].
    + by apply Hafter.
    + split; [congruence|]. intros _. destruct (Hafter id r1 Ht1) as [Hkeep _].
      split; [set_solver|]. exists r1. split; [|done]. apply Hkeep. unfold is_pending.
      rewrite Est. by apply bool_decide_eq_false.
Qed.

(** ** No event is ever beyond delivery *)
Definition deliverable (id : uuid) (st : relay) : Prop :=
  exists st', rtc relay_step st st' /\ delivered id (broker st') /\
    exists r, outbox st' !! id = Some r /\ y_status r = "published".

Lemma deliverable_step id st st' : relay_step st st' -> deliverable id st' -> deliverable id st.
Proof. intros H (st2 & Hs & HQ). exists st2. split; [by eapply rtc_l|done]. Qed.

Lemma deliverable_claimed e r t b h1 h2 now :
  t !! rec_ID e = Some r -> outbox_checks r = true ->
  deliverable (rec_ID e) (MkRelay t b (h1 ++ (e, Claimed) :: h2) now).
Proof.
  intros Hr Hc. eapply deliverable_step; [apply (step_publish t b h1 h2 now e Confirmed)|].
  eapply deliverable_step; [apply (step_mark _ _ h1 h2 now e Confirmed Marked 0)|].
  pose proof (publishOne_healthy b now 0 e r t Hr Hc) as H. unfold publishOne in H.
  injection H as Hm. eexists. split; [apply rtc_refl|]. simpl in *. rewrite Hm. split.
  - exists (message_of e). split; [set_solver|done].
  - exists (set_published now r). by rewrite lookup_insert_eq.
Qed.

Lemma claim_total sel now t :
  (forall id, id ∈ sel.*1 -> exists r, t !! id = Some r /\ outbox_checks r = true /\
     y_status r <> "published") ->
  claim sel now t = inr (scanClaimed <$> sel,
    updated (fun id _ => bool_decide (id ∈ sel.*1)) (set_processing now) t).
Proof.
  intros Hsel. unfold claim. rewrite sql_update_total; [done|].
  intros id r Hr Hq%bool_decide_eq_true. rewrite not_failed_kept by done.
  destruct (Hsel id Hq) as (r' & Hr' & ? & ?). rewrite Hr in Hr'. injection Hr' as <-.
  by apply set_processing_checks.
Qed.

(** A limit large enough selects every matching row. *)
Lemma select_all key P t :
  select_for_update key P ∅ (length (matching P t)) t ≡ₚ matching P t.
Proof.
  rewrite select_unlocked.
  rewrite take_ge; [apply merge_sort_Permutation|]. by rewrite merge_sort_Permutation.
Qed.

Lemma deliverable_selected key P id r t b h now :
  (forall es t', claim (select_for_update key P ∅ (length (matching P t)) t) now t = inr (es, t') ->
     relay_step (MkRelay t b h now) (MkRelay t' b (h ++ ((.,Claimed) <$> es)) now)) ->
  (forall i x, t !! i = Some x -> outbox_checks x = true) ->
  (forall i x, P i x = true -> y_status x <> "published") ->
  t !! id = Some r -> P id r = true -> deliverable id (MkRelay t b h now).
Proof.
  intros Hstep Hc HP Hr HPr. set (sel := select_for_update key P ∅ _ t) in *.
  assert (Hin : (id, r) ∈ sel) by (unfold sel; rewrite select_all; by apply matching_elem).
  eapply deliverable_step; [apply Hstep, claim_total|].
  { intros i Hi. apply selected_lookup in Hi as (x & Hx & HPx). exists x. eauto. }
  apply list_elem_of_split in Hin as (l1 & l2 & ->).
  rewrite !fmap_app, !fmap_cons, app_assoc.
  set (t1 := updated _ _ _).
  assert (Ht1 : t1 !! id = Some (set_processing now r)).
  { unfold t1. rewrite updated_lookup, Hr. simpl. rewrite bool_decide_true; [by rewrite not_failed_kept|].
    set_solver. }
  apply (deliverable_claimed (scanClaimed (id, r)) _ _ _ _ _ _ Ht1), set_processing_checks; eauto.
Qed.

Section deliverable.
Context (id : uuid) (t : gmap uuid relay_row) (b : list delivery)
  (h : list (OutboxEventRecord * phase)) (now : Z).
Hypothesis W : relay_wf (MkRelay t b h now).

Let Hchecks i x : t !! i = Some x -> outbox_checks x = true.
Proof. intros Hx. apply (gr_checks i x b), (rw_rows _ W i x Hx). Qed.

Lemma deliverable_pending r :
  t !! id = Some r -> y_status r = "pending" -> deliverable id (MkRelay t b h now).
Proof.
  intros Hr Hs. apply (deliverable_selected (fun r => Some (y_created_at r)) is_pending id r); try done.
  - intros es t' H. by eapply step_claim_pending.
  - intros i x HP. apply (is_pending_unpublished i x HP).
  - by apply bool_decide_eq_true.
Qed.

Lemma deliverable_due r :
  t !! id = Some r -> y_status r = "failed" ->
  match y_next_attempt_at r with Some at_ => at_ <= now | None => True end ->
  deliverable id (MkRelay t b h now).
Proof.
  intros Hr Hs Hd. apply (deliverable_selected y_next_attempt_at (is_due now) id r); try done.
  - intros es t' H. by eapply step_claim_failed.
  - intros i x HP. apply (is_due_unpublished now i x HP).
  - unfold is_due. rewrite Hs, bool_decide_true by done.
    pose proof (gr_live _ _ _ (rw_rows _ W id r Hr)) as Hlt. rewrite Hs in Hlt.
    rewrite (proj2 (Z.ltb_lt _ _) (Hlt ltac:(done) ltac:(done))).
    destruct (y_next_attempt_at r); [by apply Z.leb_le|done].
Qed.
End deliverable.

(** The reaper takes back a stuck event, the operator a dead one. *)
Section reset.
Context (id : uuid) (r : relay_row) (t : gmap uuid relay_row) (b : list delivery) (now : Z).
Hypothesis Hgood : forall i x, t !! i = Some x -> good_row i x b.
Hypothesis Hr : t !! id = Some r.

Lemma unpublished_row i x :
  t !! i = Some x -> y_status x <> "published" ->
  0 <= y_retry_count x /\ 0 < y_max_retries x /\ y_published_at x = None /\
  (y_retry_count x = 0 \/ is_Some (y_last_attempted_at x)).
Proof.
  intros Hx Hn. pose proof (gr_checks _ _ _ (Hgood i x Hx)) as Hc.
  apply outbox_checks_spec in Hc as (_ & ? & ? & [?|?] & ?); [by split_and!|done].
Qed.

Lemma reap_stuck at_ :
  y_status r = "processing" -> y_last_attempted_at r = Some at_ -> at_ < now ->
  exists n t', ReapStuck 0 now t = inr (n, t') /\ t' !! id = Some (reaped now r).
Proof.
  intros Hs Hat Hlt. unfold ReapStuck. rewrite sql_update_total.
  - eexists _, _. split; [done|]. rewrite updated_lookup, Hr. unfold is_stuck. simpl.
    rewrite Hs, bool_decide_true, Hat, (proj2 (Z.ltb_lt _ _)) by (done || lia). simpl.
    rewrite live_failed_kept; [done|]. apply (gr_live _ _ _ (Hgood id r Hr)); by rewrite Hs.
  - intros i x Hx [HPs%bool_decide_eq_true _]%andb_true_iff.
    destruct (unpublished_row i x Hx) as (? & ? & ? & ?); [by rewrite HPs|].
    rewrite live_failed_kept by (apply (gr_live _ _ _ (Hgood i x Hx)); by rewrite HPs).
    apply outbox_checks_spec.
    split_and!; [by apply (bool_decide_unpack _)|done|done|by left|done].
Qed.

Lemma replay_dead :
  y_status r = "dead" ->
  exists t', ReplayDead id now t = inr t' /\ t' !! id = Some (replayed now r).
Proof.
  intros Hs.
  assert (Hdead : forall i x, t !! i = Some x -> y_status x = "dead" ->
    outbox_checks (replayed now x) = true /\
    fn_outbox_check_dead_letter (replayed now x) = replayed now x).
  { intros i x Hx Hsx. destruct (unpublished_row i x Hx) as (? & ? & ? & ?); [by rewrite Hsx|].
    split; [|by apply live_failed_kept]. apply outbox_checks_spec.
    split_and!; [by apply (bool_decide_unpack _)|done|done|by left|by left]. }
  unfold ReplayDead. rewrite sql_update_total.
  - rewrite (proj2 (Z.eqb_neq _ _)).
    + eexists. split; [done|]. rewrite updated_lookup, Hr. simpl.
      rewrite !bool_decide_true by done. simpl. by rewrite (proj2 (Hdead id r Hr Hs)).
    + assert (Hin : (id, r) ∈ matching (fun i x => bool_decide (i = id)
        && bool_decide (y_status x = "dead")) t).
      { apply matching_elem. split; [done|]. by rewrite !bool_decide_true. }
      destruct (matching _ t); [by apply not_elem_of_nil in Hin|simpl; lia].
  - intros i x Hx [_ HPs%bool_decide_eq_true]%andb_true_iff.
    destruct (Hdead i x Hx HPs) as [? ->]. done.
Qed.
End reset.

(** A failed event waits for its backoff, a stuck one for the reaper, a dead
    one for the operator. *)
Lemma wf_deliverable id r st : relay_wf st -> outbox st !! id = Some r -> deliverable id st.
Proof.
  intros W Hr. destruct st as [t b h now]. simpl in Hr. pose proof (rw_rows _ W) as Hgood. simpl in Hgood.
  pose proof (Hgood id r Hr) as G. pose proof (gr_checks _ _ _ G) as Hc.
  apply outbox_checks_spec in Hc as (Hs & _). unfold outbox_statuses in Hs. rewrite !elem_of_cons in Hs.
  destruct Hs as [Hs|[Hs|[Hs|[Hs|[Hs|Hs%not_elem_of_nil]]]]]; [| | | | |done].
  - by eapply deliverable_pending.
  - destruct (gr_processing _ _ _ G Hs) as [at_ Hat]. set (now' := Z.max now (at_ + 1)).
    eapply deliverable_step; [apply (step_time t b h now now'); lia|].
    destruct (reap_stuck id r t b now' Hgood Hr at_) as (n & t' & Hre & Ht'); [done|done|lia|].
    eapply deliverable_step; [eapply (step_reap _ b h now' 0); exact Hre|].
    eapply deliverable_due; [|exact Ht'|done|simpl; lia].
    eapply (relay_wf_table t _ _ _ now'); [|by eapply ReapStuck_preserved].
    eapply relay_wf_table; [exact W|by apply preserved_refl].
  - exists (MkRelay t b h now). split; [apply rtc_refl|]. split; [|by exists r].
    by apply (gr_published _ _ _ G).
  - set (now' := match y_next_attempt_at r with Some at_ => Z.max now at_ | None => now end).
    eapply deliverable_step; [apply (step_time t b h now now'); unfold now'; case_match; lia|].
    eapply deliverable_due; [|done|done|unfold now'; case_match; lia].
    eapply relay_wf_table; [exact W|]. by apply preserved_refl.
  - destruct (replay_dead id r t b now Hgood Hr Hs) as (t' & Hre & Ht').
    eapply deliverable_step; [eapply (step_replay _ b h now id); exact Hre|].
    eapply deliverable_due; [|exact Ht'|done|simpl; lia].
    eapply relay_wf_table; [exact W|]. by eapply ReplayDead_preserved.
Qed.

(** ** The worker's loop is one of the interleavings *)
Lemma publish_all_steps script now random es t b h t' b' :
  publish_all script now random es (t, b) = (t', b') ->
  rtc relay_step (MkRelay t b (h ++ ((.,Claimed) <$> es)) now) (MkRelay t' b' h now).
Proof.
  revert script t b. induction es as [|e es IH]; intros script t b H.
  - destruct script as [|[po mo] rest]; injection H as <- <-; rewrite app_nil_r; apply rtc_refl.
  - assert (Hone : forall po mo rest,
      publish_all rest now random es (publishOne po mo now random e (t, b)) = (t', b') ->
      rtc relay_step (MkRelay t b (h ++ ((.,Claimed) <$> e :: es)) now) (MkRelay t' b' h now)).
    { intros po mo rest Hrest. rewrite fmap_cons.
      eapply rtc_l; [apply (step_publish t b h _ now e po)|].
      eapply rtc_l; [apply (step_mark _ _ h _ now e po mo random)|]. exact (IH _ _ _ Hrest). }
    destruct script as [|[po mo] rest]; by eapply Hone.
Qed.

(** Ticks whose times do not go back. *)
Fixpoint ticks_from (now : Z) (ticks : list tick) : Prop :=
  match ticks with [] => True | k :: ks => now <= tk_now k /\ ticks_from (tk_now k) ks end.

Lemma loop_steps L ticks t b h now t' b' :
  ticks_from now ticks -> loop ClaimPending L ticks (t, b) = (t', b') ->
  exists now', rtc relay_step (MkRelay t b h now) (MkRelay t' b' h now').
Proof.
  revert t b now. induction ticks as [|k ks IH]; intros t b now Hk H.
  - injection H as <- <-. exists now. apply rtc_refl.
  - destruct Hk as [Hle Hk]. cbn [loop] in H. unfold processBatch in H. simpl in H.
    destruct (ClaimPending _ _ _ t) as [err|[es t1]] eqn:Ec.
    + destruct (IH _ _ _ Hk H) as [now' Hs]. exists now'.
      eapply rtc_l; [by apply (step_time t b h now (tk_now k))|exact Hs].
    + destruct (publish_all _ _ _ es (t1, b)) as [t2 b2] eqn:Ep.
      destruct (IH _ _ _ Hk H) as [now' Hs]. exists now'.
      eapply rtc_l; [by apply (step_time t b h now (tk_now k))|].
      eapply rtc_l; [by eapply step_claim_pending|].
      etrans; [by eapply publish_all_steps|exact Hs].
Qed.

(** C13: delivery is at least once and verbatim: under every interleaving of
    replicas, crashes, broker failures, reaping and replays, an event inserted
    in the outbox stays there unchanged, published is final and is only reached
    by events the broker has, and every message at the broker is an event of
    the outbox with its own id, type, payload and correlation id. *)
Theorem relay_delivers_at_least_once st st' id r :
  relay_reachable st -> outbox st !! id = Some r -> rtc relay_step st st' ->
  (exists r', outbox st' !! id = Some r' /\ y_event r' = y_event r /\
     (y_status r = "published" -> y_status r' = "published") /\
     (y_status r' = "published" -> delivered id (broker st'))) /\
  forall d, d ∈ broker st' ->
    exists x, outbox st' !! dl_MessageID d = Some x /\ verbatim d (y_event x).
Proof.
  intros W%relay_reachable_wf Hr Hs. destruct (relay_steps_wf _ _ Hs W) as [W' Hev].
  split; [|apply (rw_broker _ W')]. destruct (Hev id r Hr) as (r' & Hr' & E & Hp).
  exists r'. split_and!; try done. intros Hst. by apply (gr_published _ _ _ (rw_rows _ W' id r' Hr')).
Qed.

(** C36: the poll loop drains the outbox: once broker and database work, as many
    polls as there are batches of pending events publish every one of them,
    send its message, and leave every other row alone; and the loop is one of
    the interleavings of [relay_step]. *)
Theorem relay_drains_pending_events L ticks st t' b' :
  relay_reachable st -> Forall healthy_tick ticks ->
  (size (ids_of is_pending (outbox st)) <= length ticks * L)%nat ->
  ticks_from (clock st) ticks ->
  loop ClaimPending L ticks (outbox st, broker st) = (t', b') ->
  (exists now, rtc relay_step st (MkRelay t' b' (hands st) now)) /\
  forall id r, outbox st !! id = Some r ->
    (y_status r <> "pending" -> t' !! id = Some r) /\
    (y_status r = "pending" -> message_of (scanClaimed (id, r)) ∈ b' /\
       exists r', t' !! id = Some r' /\ y_event r' = y_event r /\ y_status r' = "published").
Proof.
  intros W%relay_reachable_wf Hk Hsize Hnow Hrun.
  split; [destruct st; by eapply loop_steps|]. intros id r Hr.
  destruct (loop_drains L ticks (outbox st) (broker st) t' b' Hk) as (_ & _ & H); [|done|done|].
  { intros i x Hx. apply (gr_checks i x (broker st)), (rw_rows _ W i x Hx). }
  destruct (H id r Hr) as [H1 H2]. unfold is_pending in *. split; intros Hs.
  - apply H1. by apply bool_decide_eq_false.
  - apply H2. by apply bool_decide_eq_true.
Qed.

(** no event is beyond delivery: from every reachable state, whether an
    event is pending, in a crashed worker's hands, backing off or dead, some
    continuation of the workers and the operator delivers it. *)
Theorem relay_can_always_deliver st id r :
  relay_reachable st -> outbox st !! id = Some r ->
  exists st', rtc relay_step st st' /\ delivered id (broker st') /\
    exists r', outbox st' !! id = Some r' /\ y_status r' = "published".
Proof. intros W%relay_reachable_wf Hr. by apply (wf_deliverable id r st). Qed.

(** ** The theorems at work: one event, whose first publication fails *)
Definition demo_event : outbox_row :=
  OutboxRow 5%N "transaction" 7%N "transaction.reversed"
    (PReversed {| tr_SchemaVersion := 1; tr_EventID := None; tr_ReversalTxID := 7%N;
                  tr_OriginalTxID := 6%N; tr_Amount := "100"; tr_Currency := "IDR";
                  tr_OccurredAt := 3 |}).
Definition demo_row : relay_row := new_relay_row demo_event 0.
Definition demo_relay : relay := MkRelay {[5%N := demo_row]} [] [] 0.

Lemma demo_relay_reachable : relay_reachable demo_relay.
Proof. exists 0. apply rtc_once. by apply (step_insert ∅ [] [] 0 demo_event). Qed.

(** Claimed, refused by the broker, marked failed. *)
Definition demo_failed : relay_row :=
  RelayRow demo_event "failed" 1 5 (Some "no route") (Some 0) None (Some 60000000) 0.
Definition demo_relay_failed : relay := MkRelay {[5%N := demo_failed]} [] [] 0.

Lemma demo_relay_fails : rtc relay_step demo_relay demo_relay_failed.
Proof.
  set (e := scanClaimed (5%N, demo_row)).
  eapply rtc_l; [apply (step_claim_pending _ _ _ _ ∅ 10 [e] {[5%N := set_processing 0 demo_row]});
                 vm_compute; reflexivity|].
  eapply rtc_l; [apply (step_publish _ _ [] [] 0 e (Refused "no route"))|].
  eapply rtc_l; [apply (step_mark _ _ [] [] 0 e (Refused "no route") Marked 0)|].
  vm_compute. apply rtc_refl.
Qed.

Lemma relay_delivers_at_least_once_witness :
  (exists r', outbox demo_relay_failed !! 5%N = Some r' /\ y_event r' = demo_event /\
     (y_status demo_row = "published" -> y_status r' = "published") /\
     (y_status r' = "published" -> delivered 5%N (broker demo_relay_failed))) /\
  forall d, d ∈ broker demo_relay_failed ->
    exists x, outbox demo_relay_failed !! dl_MessageID d = Some x /\ verbatim d (y_event x).
Proof.
  exact (relay_delivers_at_least_once demo_relay demo_relay_failed 5%N demo_row
           demo_relay_reachable eq_refl demo_relay_fails).
Defined.

Definition demo_drained : gmap uuid relay_row * list delivery :=
  loop ClaimPending 10 [Tick 9 0 ∅ []] (outbox demo_relay, broker demo_relay).

Lemma relay_drains_pending_events_witness :
  y_status demo_row = "pending" /\
  message_of (scanClaimed (5%N, demo_row)) ∈ demo_drained.2 /\
  exists r', demo_drained.1 !! 5%N = Some r' /\ y_event r' = demo_event /\
    y_status r' = "published".
Proof.
  split; [reflexivity|].
  refine (proj2 (proj2 (relay_drains_pending_events 10 [Tick 9 0 ∅ []] demo_relay _ _
            demo_relay_reachable _ _ _ (surjective_pairing _)) 5%N demo_row eq_refl) eq_refl).
  - repeat constructor.
  - vm_compute. lia.
  - simpl. lia.
Defined.

Lemma relay_can_always_deliver_witness :
  exists st', rtc relay_step demo_relay_failed st' /\ delivered 5%N (broker st') /\
    exists r', outbox st' !! 5%N = Some r' /\ y_status r' = "published".
Proof.
  refine (relay_can_always_deliver demo_relay_failed 5%N demo_failed _ eq_refl).
  destruct demo_relay_reachable as [now H]. exists now. etrans; [exact H|exact demo_relay_fails].
Defined.
