(* ===== verification/Flow.v ===== *)
(** * Handlers as sequences of outside calls, and their interleavings

    A handler of a service is a tree of calls to what lies outside the process,
    one branch per answer.  Any number of handlers run as threads over one world,
    one call at a time, and may stop anywhere (a crash).  [safe] is the proof rule:
    a thread keeps an invariant at each of its calls although the world moves
    between them.  Then what the statements of the services' repositories share:
    what a database brings to a statement, the rows a WHERE clause meets,
    UPDATE ... WHERE, ORDER BY ... LIMIT ... FOR UPDATE SKIP LOCKED, and NULL for
    the empty string. *)
From stdpp Require Import prelude strings list relations gmap sorting.
From S2P Require Import Prelude Decimal Errors.
Inductive prog (op : Type -> Type) (A : Type) : Type :=
  | Ret (a : A)
  | Do {B} (o : op B) (k : B -> prog op A).
Arguments Ret {op A} a.
Arguments Do {op A B} o k.

Section flow.
Context {op : Type -> Type}.
Notation prog := (prog op).

Fixpoint pbind {A B} (p : prog A) (k : A -> prog B) : prog B :=
  match p with Ret a => k a | Do o q => Do o (fun b => pbind (q b) k) end.
Definition perform {A} (o : op A) : prog A := Do o Ret.
(** [if err != nil { return err }] *)
Definition ebind {E A B} (p : prog (E + A)) (k : A -> prog (E + B)) : prog (E + B) :=
  pbind p (fun r => match r with inl err => Ret (inl err) | inr a => k a end).
Definition pwrap {A} (ctx : string) (p : prog (error + A)) : prog (error + A) :=
  pbind p (fun r => Ret (match r with inl err => inl (Wrap ctx err) | inr a => inr a end)).
Definition ok : prog (error + unit) := Ret (inr tt).
(** A call whose failure is only logged. *)
Definition logged {A} (p : prog A) : prog unit := pbind p (fun _ => Ret tt).
End flow.
(** A handler of one component inside another's: its calls are among theirs. *)
Fixpoint embed {op op' : Type -> Type} (f : forall B, op B -> op' B) {A} (p : prog op A) : prog op' A :=
  match p with Ret a => Ret a | Do o k => Do (f _ o) (fun b => embed f (k b)) end.
Notation "'let*' x := p 'in' q" := (pbind p (fun x => q))
  (at level 200, x pattern, p at level 100, q at level 200, right associativity).
Notation "'let?' x := p 'in' q" := (ebind p (fun x => q))
  (at level 200, x pattern, p at level 100, q at level 200, right associativity).

(** ** Systems of threads *)
(** What a call does to the world, the invariant of the world, and how it may
    evolve. *)
Record discipline (op : Type -> Type) (W : Type) := Discipline {
  d_step : forall B, op B -> W -> B -> W -> Prop;
  d_inv : W -> Prop;
  d_le : W -> W -> Prop;
  d_preorder : PreOrder d_le;
}.
Arguments d_step {op W} _ {B} _ _ _ _.
Arguments d_inv {op W} _ _.
Arguments d_le {op W} _ _ _.
#[export] Existing Instance d_preorder.

Section runs.
Context {op : Type -> Type} {W : Type} (step : forall B, op B -> W -> B -> W -> Prop).
Notation prog := (prog op).
Arguments step {B} _ _ _ _.

Section system.
(** What may be started, and what others do meanwhile. *)
Context (entry : prog unit -> Prop) (env : W -> W -> Prop).
Definition threads : Type := W * list (prog unit).
Inductive sys_step : threads -> threads -> Prop :=
  | ss_start w ps p : entry p -> sys_step (w, ps) (w, p :: ps)
  | ss_call w ps1 ps2 B (o : op B) k b w' :
      step o w b w' -> sys_step (w, ps1 ++ Do o k :: ps2) (w', ps1 ++ k b :: ps2)
  | ss_stop w ps1 p ps2 : sys_step (w, ps1 ++ p :: ps2) (w, ps1 ++ ps2)
  | ss_env w ps w' : env w w' -> sys_step (w, ps) (w', ps).
End system.

(** One handler alone, from start to end. *)
Fixpoint runs {A} (p : prog A) (w : W) (a : A) (w' : W) : Prop :=
  match p with
  | Ret b => a = b /\ w' = w
  | Do o k => exists b w1, step o w b w1 /\ runs (k b) w1 a w'
  end.
Lemma runs_bind {A B} (p : prog A) (k : A -> prog B) w b w' :
  runs (pbind p k) w b w' <-> exists a w1, runs p w a w1 /\ runs (k a) w1 b w'.
Proof.
  revert w. induction p as [a|C o q IH]; intros w; simpl.
  - split; [eauto|]. by intros (? & ? & [-> ->] & ?).
  - setoid_rewrite IH. naive_solver.
Qed.
Lemma runs_perform {A} (o : op A) w a w' : runs (perform o) w a w' <-> step o w a w'.
Proof. simpl. naive_solver. Qed.

End runs.

(** ** Safe threads *)
Section threads.
Context {op : Type -> Type} {W : Type} (D : discipline op W).
Notation prog := (prog op).
Notation step := (d_step D).
Notation inv := (d_inv D).
Notation le := (d_le D).
Fixpoint safe {A} (p : prog A) (Q : A -> W -> Prop) (w : W) : Prop :=
  match p with
  | Ret a => Q a w
  | Do o k => forall w1, le w w1 -> inv w1 -> forall b w2, step o w1 b w2 ->
      inv w2 /\ le w1 w2 /\ safe (k b) Q w2
  end.

Lemma safe_weaken {A} (p : prog A) (Q Q' : A -> W -> Prop) w :
  safe p Q w -> (forall a w', le w w' -> Q a w' -> Q' a w') -> safe p Q' w.
Proof.
  revert w. induction p as [a|B o k IH]; intros w Hs HQ; simpl in *; [by apply HQ|].
  intros w1 H1 I1 b w2 Hop. destruct (Hs w1 H1 I1 b w2 Hop) as (I2 & H2 & Hs2).
  split_and!; [done..|]. eapply IH; [exact Hs2|]. intros a w' Hw'. apply HQ.
  transitivity w1; [done|]. by transitivity w2.
Qed.
Lemma safe_bind {A B} (p : prog A) (k : A -> prog B) Q w :
  safe p (fun a w' => safe (k a) Q w') w -> safe (pbind p k) Q w.
Proof.
  revert w. induction p as [a|C o q IH]; intros w Hs; simpl in *; [done|].
  intros w1 H1 I1 b w2 Hop. destruct (Hs w1 H1 I1 b w2 Hop) as (I2 & H2 & Hs2). auto.
Qed.
Lemma safe_later {A} (p : prog A) (Q : A -> W -> Prop) w w' :
  (forall a u u', le u u' -> Q a u -> Q a u') -> le w w' -> safe p Q w -> safe p Q w'.
Proof.
  intros HQ Hle. destruct p as [a|B o k]; simpl; [by apply HQ|].
  intros Hs w1 H1. apply Hs. by transitivity w'.
Qed.

(** Alone, from start to end. *)
Lemma safe_runs {A} (p : prog A) (Q : A -> W -> Prop) w a w' :
  inv w -> safe p Q w -> runs (@d_step op W D) p w a w' -> inv w' /\ le w w' /\ Q a w'.
Proof.
  revert w. induction p as [b|B o k IH]; intros w I Hs; simpl in *.
  - intros [-> ->]. split_and!; [done|reflexivity|done].
  - intros (b & w1 & Ho & Hk). destruct (Hs w ltac:(reflexivity) I b w1 Ho) as (I1 & L1 & S1).
    destruct (IH b w1 I1 S1 Hk) as (I2 & L2 & HQ). split_and!; [done|by transitivity w1|done].
Qed.

(** *** Rules for one call and what follows *)
Notation Safe p w := (safe p (fun _ _ => True) w).
(** Safe from any state. *)
Definition fine {A} (p : prog A) : Prop := forall w, Safe p w.

Lemma safe_seq {A B} (p : prog A) (k : A -> prog B) (Q : A -> W -> Prop) w :
  safe p Q w -> (forall a w', le w w' -> Q a w' -> Safe (k a) w') -> Safe (pbind p k) w.
Proof. intros Hp Hk. apply safe_bind. eapply safe_weaken; [exact Hp|]. done. Qed.
Lemma fine_ret {A} (a : A) : fine (Ret a).
Proof. done. Qed.
Lemma fine_seq {A B} (p : prog A) (k : A -> prog B) : fine p -> (forall a, fine (k a)) -> fine (pbind p k).
Proof. intros Hp Hk w. eapply safe_seq; [apply Hp|]. intros a w' _ _. apply Hk. Qed.
Lemma fine_ebind {E A B} (p : prog (E + A)) (k : A -> prog (E + B)) :
  fine p -> (forall a, fine (k a)) -> fine (ebind p k).
Proof. intros Hp Hk. apply fine_seq; [done|]. intros [e|a]; [apply fine_ret|apply Hk]. Qed.
Lemma fine_wrap {A} ctx (p : prog (error + A)) : fine p -> fine (pwrap ctx p).
Proof. intros Hp. apply fine_seq; [done|]. intros. apply fine_ret. Qed.
Lemma fine_logged {A} (p : prog A) : fine p -> fine (logged p).
Proof. intros Hp. apply fine_seq; [done|]. intros. apply fine_ret. Qed.
Lemma safe_logged {A} (p : prog A) (Q : A -> W -> Prop) w : safe p Q w -> Safe (logged p) w.
Proof. intros Hp. eapply safe_seq; [exact Hp|]. done. Qed.
Lemma safe_ebind {E A B} (p : prog (E + A)) (k : A -> prog (E + B)) (Q : A -> W -> Prop) w :
  safe p (fun r w' => match r with inr a => Q a w' | inl _ => True end) w ->
  (forall a w', le w w' -> Q a w' -> Safe (k a) w') -> Safe (ebind p k) w.
Proof.
  intros Hp Hk. eapply safe_seq; [exact Hp|]. intros [e|a] w' Hw HQ; [done|]. by apply Hk.
Qed.
Lemma safe_wrap {A} ctx (p : prog (error + A)) (Q : A -> W -> Prop) w :
  safe p (fun r w' => match r with inr a => Q a w' | inl _ => True end) w ->
  safe (pwrap ctx p) (fun r w' => match r with inr a => Q a w' | inl _ => True end) w.
Proof.
  intros Hp. apply safe_bind. eapply safe_weaken; [exact Hp|]. intros [e|a] w' _ HQ; [done|exact HQ].
Qed.

(** One call, from what it needs to what it leaves. *)
Definition op_ok {B} (o : op B) (Pre : W -> Prop) (Post : B -> W -> Prop) : Prop :=
  forall w b w', inv w -> Pre w -> step o w b w' -> inv w' /\ le w w' /\ Post b w'.
Lemma safe_op {B} (o : op B) Pre Post w :
  op_ok o Pre Post -> (forall w', le w w' -> Pre w') -> safe (perform o) Post w.
Proof. intros Ho HP w1 H1 I1 b w2 Hs. apply (Ho w1 b w2 I1 (HP w1 H1) Hs). Qed.
Lemma fine_op {B} (o : op B) Post : op_ok o (fun _ => True) Post -> fine (perform o).
Proof. intros Ho w. eapply safe_weaken; [by eapply safe_op|done]. Qed.

(** Calls that leave the world alone. *)
Definition quiet_op {B} (o : op B) : Prop := forall w b w', step o w b w' -> w' = w.
Lemma same_world {A B} (o : op B) (k : B -> prog A) w :
  quiet_op o -> (forall b w', le w w' -> Safe (k b) w') -> Safe (Do o k) w.
Proof.
  intros Ho Hk w1 H1 I1 b w2 Hop. apply Ho in Hop as ->. split_and!; [done|reflexivity|by apply Hk].
Qed.
Lemma fine_quiet {B} (o : op B) : quiet_op o -> fine (perform o).
Proof. intros Ho w. apply same_world; [exact Ho|]. done. Qed.

(** ** Every reachable state satisfies the invariant *)
Context (entry : prog unit -> Prop) (env : W -> W -> Prop).
Context (Hentry : forall p, entry p -> fine p)
        (Henv : forall w w', inv w -> env w w' -> inv w' /\ le w w').
Definition system_ok (c : threads (op := op) (W := W)) : Prop := inv c.1 /\ Forall (fun p => Safe p c.1) c.2.

Lemma Forall_later w w' (ps : list (prog unit)) :
  le w w' -> Forall (fun p => Safe p w) ps -> Forall (fun p => Safe p w') ps.
Proof. intros Hle HF. eapply Forall_impl; [exact HF|]. intros p. by apply safe_later. Qed.
Lemma sys_step_ok c c' : sys_step (@d_step op W D) entry env c c' -> system_ok c -> system_ok c'.
Proof.
  destruct 1 as [w ps p He|w ps1 ps2 B o k b w' Hop|w ps1 p ps2|w ps w' He]; intros [I HF]; simpl in *.
  - split; [done|]. constructor; [by apply Hentry|done].
  - apply Forall_app in HF as [H1 (Hk & H2)%Forall_cons].
    destruct (Hk w ltac:(reflexivity) I b w' Hop) as (I' & Hle & Hs).
    split; [done|]. apply Forall_app. split; [by eapply Forall_later|].
    constructor; [done|by eapply Forall_later].
  - apply Forall_app in HF as [H1 (_ & H2)%Forall_cons]. split; [done|]. by apply Forall_app.
  - destruct (Henv w w' I He). split; [done|by eapply Forall_later].
Qed.
Lemma system_start w0 : inv w0 -> system_ok (w0, []).
Proof. intros I0. split; [done|by constructor]. Qed.
Lemma sys_step_le c c' : sys_step (@d_step op W D) entry env c c' -> system_ok c -> le c.1 c'.1.
Proof.
  destruct 1 as [w ps p He|w ps1 ps2 B o k b w' Hop|w ps1 p ps2|w ps w' He]; intros [I HF]; simpl in *; try reflexivity.
  - apply Forall_app in HF as [_ (Hk & _)%Forall_cons]. by apply (Hk w ltac:(reflexivity) I b w' Hop).
  - by apply Henv.
Qed.
Lemma steps_ok c c' : system_ok c -> rtc (sys_step (@d_step op W D) entry env) c c' -> system_ok c' /\ le c.1 c'.1.
Proof.
  intros Hc Hr. induction Hr as [c|c0 c1 c' Hs _ IH]; [split; [done|reflexivity]|].
  destruct (IH (sys_step_ok c0 c1 Hs Hc)) as [? ?]. split; [done|]. transitivity c1.1; [by apply sys_step_le|done].
Qed.
Lemma reachable_ok w0 w ps : inv w0 -> rtc (sys_step (@d_step op W D) entry env) (w0, []) (w, ps) -> inv w.
Proof. intros I0 Hr. by apply (steps_ok (w0, []) (w, ps)) in Hr as [[? _] _]; [|apply system_start]. Qed.
End threads.

(** ** Handlers inside handlers *)
Section embedded.
Context {op op' : Type -> Type} {W : Type} (f : forall B, op B -> op' B).
(** The calls of the inner component, where the outer one makes them. *)
Definition pulled_step (step : forall B, op' B -> W -> B -> W -> Prop) B (o : op B) := step B (f B o).
Definition pulled (D : discipline op' W) : discipline op W := {|
  d_step := pulled_step (@d_step op' W D); d_inv := d_inv D; d_le := d_le D; d_preorder := d_preorder _ _ D |}.
Lemma safe_embed (D : discipline op' W) {A} (p : prog op A) Q w :
  safe (pulled D) p Q w -> safe D (embed f p) Q w.
Proof.
  revert w. induction p as [a|B o k IH]; intros w Hs; simpl in *; [done|].
  intros w1 H1 I1 b w2 Hop. destruct (Hs w1 H1 I1 b w2 Hop) as (I2 & H2 & Hs2). auto.
Qed.
Lemma runs_embed (step : forall B, op' B -> W -> B -> W -> Prop) {A} (p : prog op A) w a w' :
  runs step (embed f p) w a w' <-> runs (pulled_step step) p w a w'.
Proof.
  revert w. induction p as [b|B o k IH]; intros w; simpl; [done|]. unfold pulled_step.
  split; intros (b & w1 & Ho & Hr); exists b, w1; (split; [done|]); by apply IH.
Qed.
End embedded.

(** ** Running a handler with given answers *)
Section exec.
Context {op : Type -> Type} {W : Type} (step : forall B, op B -> W -> B -> W -> Prop).
Notation prog := (prog op).
Context (answer : forall B, bool -> op B -> W -> B * W).
Context (Hanswer : forall B fails (o : op B) w, step B o w (answer B fails o w).1 (answer B fails o w).2).

(** The list says which calls fail. *)
Fixpoint exec {A} (p : prog A) (faults : list bool) (w : W) : A * W :=
  match p with
  | Ret a => (a, w)
  | Do o k => let '(b, w') := answer _ (default false (head faults)) o w in exec (k b) (tail faults) w'
  end.
Fixpoint exec_all (ps : list (prog unit * list bool)) (w : W) : W :=
  match ps with
  | [] => w
  | (p, faults) :: rest => exec_all rest (exec p faults w).2
  end.

(** The first [n] calls, and what is left to run. *)
Fixpoint exec_part {A} (n : nat) (p : prog A) (faults : list bool) (w : W) : prog A * W :=
  match n, p with
  | S n, Do o k => let '(b, w') := answer _ (default false (head faults)) o w in exec_part n (k b) (tail faults) w'
  | _, _ => (p, w)
  end.

Lemma exec_runs {A} (p : prog A) faults w : runs step p w (exec p faults w).1 (exec p faults w).2.
Proof.
  revert faults w. induction p as [a|B o k IH]; intros faults w; [done|]. simpl.
  pose proof (Hanswer B (default false (head faults)) o w) as Hs.
  destruct (answer B _ o w) as [b w']. exists b, w'. split; [exact Hs|apply IH].
Qed.
Context (entry : prog unit -> Prop) (env : W -> W -> Prop).
Lemma exec_steps (p : prog unit) faults w ps :
  rtc (sys_step step entry env) (w, p :: ps) ((exec p faults w).2, Ret (exec p faults w).1 :: ps).
Proof.
  revert faults w. induction p as [a|B o k IH]; intros faults w; [reflexivity|]. simpl.
  pose proof (Hanswer B (default false (head faults)) o w) as Hs.
  destruct (answer B _ o w) as [b w']. simpl in Hs.
  eapply rtc_l; [apply (ss_call step entry env w [] ps B o k b w' Hs)|]. apply IH.
Qed.
Lemma exec_part_steps n (p : prog unit) faults w ps :
  rtc (sys_step step entry env) (w, p :: ps) ((exec_part n p faults w).2, (exec_part n p faults w).1 :: ps).
Proof.
  revert p faults w. induction n as [|n IH]; intros [a|B o k] faults w; try reflexivity. simpl.
  pose proof (Hanswer B (default false (head faults)) o w) as Hs.
  destruct (answer B _ o w) as [b w']. simpl in Hs.
  eapply rtc_l; [apply (ss_call step entry env w [] ps B o k b w' Hs)|]. apply IH.
Qed.
Lemma exec_all_steps ps w :
  Forall (fun pf => entry pf.1) ps -> rtc (sys_step step entry env) (w, []) (exec_all ps w, []).
Proof.
  intros Hall. revert w. induction Hall as [|[p faults] ps He _ IH]; intros w; [reflexivity|].
  eapply rtc_l; [by apply ss_start|]. etransitivity; [apply (exec_steps p faults)|].
  eapply rtc_l; [|apply IH]. apply (ss_stop step entry env _ [] _ []).
Qed.
End exec.

Open Scope Z_scope.
(** What the database brings to a statement: now(), random() times 2^53, the
    rows SKIP LOCKED passes over, the row QueryRow meets first among several,
    whether another session took the value just read before it is used. *)
Record db_choice := DbChoice {
  ch_now : Z; ch_random : Z; ch_locked : gset uuid; ch_first : nat; ch_raced : bool }.
(** ** Rows of a table *)
Section sql.
Context {R : Type}.
Definition rows_where (P : uuid -> R -> bool) (t : gmap uuid R) : list (uuid * R) :=
  filter (fun kr => P kr.1 kr.2 = true) (map_to_list t).
Definition set_where (P : uuid -> R -> bool) (f : R -> R) (t : gmap uuid R) : gmap uuid R :=
  map_imap (fun id r => Some (if P id r then f r else r)) t.
(** ORDER BY key ASC NULLS FIRST *)
Definition key_le (key : R -> option Z) (a b : uuid * R) : Prop :=
  match key a.2, key b.2 with None, _ => True | Some _, None => False | Some x, Some y => x <= y end.
#[export] Instance key_le_dec key : RelDecision (key_le key).
Proof. intros a b. unfold key_le. destruct (key a.2), (key b.2); apply _. Defined.
Definition ordered_rows (key : R -> option Z) (P : uuid -> R -> bool) (t : gmap uuid R) :=
  merge_sort (key_le key) (rows_where P t).
(** ... LIMIT n FOR UPDATE SKIP LOCKED *)
Definition lock_rows (key : R -> option Z) (P : uuid -> R -> bool) (limit : nat)
    (locked : gset uuid) (t : gmap uuid R) : list (uuid * R) :=
  take limit (filter (fun kr => kr.1 ∉ locked) (ordered_rows key P t)).
End sql.

(** An empty string stored as NULL, and COALESCE(x, '') back. *)
Definition nullString (s : string) : option string :=
  if bool_decide (s = EmptyString) then None else Some s.

Lemma lookup_set_where {R} P f (t : gmap uuid R) id :
  set_where P f t !! id = (fun r => if P id r then f r else r) <$> t !! id.
Proof. unfold set_where. rewrite map_lookup_imap. by destruct (t !! id). Qed.
Lemma elem_of_rows_where {R} P (t : gmap uuid R) id r :
  (id, r) ∈ rows_where P t <-> t !! id = Some r /\ P id r = true.
Proof. unfold rows_where. rewrite list_elem_of_filter, elem_of_map_to_list. naive_solver. Qed.
