(* ===== verification/VendorRouting.v ===== *)
(** * Vendors and the rules that choose them

    contracts/vendorgw (providers and the currencies they declare), the routing
    rules both payin and payout keep in tables of the same shape, and the
    envelope encryption both use (internal/platform/security/crypto).
    And the circuit breaker that guards each of them: contracts/vendorgw/breaker.go. *)
From Stdlib Require Import String.
From stdpp Require Import prelude gmap strings list sorting.
From S2P Require Import Prelude Decimal Errors.
Open Scope Z_scope.
(** ** Providers *)
(** A provider, with its declared currencies when it declares any. *)
Record Provider := MkProvider { pv_SupportsCurrency : option (string -> string -> bool) }.
Definition SupportsRequestedCurrency (p : Provider) (operation currency : string) : bool :=
  if bool_decide (currency = EmptyString) || bool_decide (currency = "IDR") then true
  else match pv_SupportsCurrency p with Some f => f operation currency | None => false end.

(** ** Fraud screening: what contracts/clients/fraud answers *)
Inductive screening := Verdict (block : bool) (reason : string) | DependencyUnavailable | CheckFailed.

(** ** Routing rules *)
Record RoutingRule := MkRule {
  rr_Flow : string; rr_Priority : Z; rr_Enabled : bool; rr_Currency : option string;
  rr_MinAmount : option Z; rr_MaxAmount : option Z; rr_UserID : option uuid; rr_Vendor : string }.
Record RoutingCandidate := MkCandidate { cand_Vendor : string; cand_Gateway : string }.
Definition rule_matches (flow : string) (userID : uuid) (currency : string) (amount : Z)
    (r : RoutingRule) : bool :=
  rr_Enabled r && bool_decide (rr_Flow r = flow)
  && match rr_UserID r with Some u => bool_decide (u = userID) | None => true end
  && match rr_Currency r with Some c => bool_decide (c = currency) | None => true end
  && match rr_MinAmount r with Some m => m <=? amount | None => true end
  && match rr_MaxAmount r with Some m => amount <=? m | None => true end.
(** ORDER BY (user_id IS NOT NULL) DESC, priority ASC *)
Definition rule_before (a b : RoutingRule) : Prop :=
  match rr_UserID a, rr_UserID b with
  | Some _, None => True
  | None, Some _ => False
  | _, _ => rr_Priority a <= rr_Priority b
  end.
#[export] Instance rule_before_dec : RelDecision rule_before.
Proof. intros a b. unfold rule_before. destruct (rr_UserID a), (rr_UserID b); apply _. Defined.
(** The inner join drops a rule whose vendor has no gateway. *)
Definition candidate_of (gateways : gmap string string) (r : RoutingRule) : option RoutingCandidate :=
  MkCandidate (rr_Vendor r) <$> gateways !! rr_Vendor r.
Definition nonnegative (x : option Z) : bool := match x with Some z => 0 <=? z | None => true end.
(** The table's CHECKs, for the one flow it holds. *)
Definition rule_ok (flow : string) (rule : RoutingRule) : bool :=
  bool_decide (rr_Flow rule = flow) && nonnegative (rr_MinAmount rule)
  && nonnegative (rr_MaxAmount rule)
  && match rr_MinAmount rule, rr_MaxAmount rule with Some lo, Some hi => lo <=? hi | _, _ => true end.

(** The envelope encryption (internal/platform/security/crypto):
    sealing and opening may fail. *)
Record Ring := MkRing {
  Seal : uuid -> string -> error + string;
  Open : uuid -> string -> error + string;
}.

Inductive HealthState := StateClosed | StateOpen | StateHalfOpen.
#[export] Instance HealthState_eq_dec : EqDecision HealthState.
Proof. solve_decision. Defined.

Record vendorState := VendorState {
  v_state : HealthState;
  v_consecutiveFailures : Z;
  v_openedAt : Z;
  v_lastProbeAt : Z;
}.
Record HealthTracker := MkTracker {
  failureThreshold : Z;
  cooldown : Z;
  vendors : gmap string vendorState;
}.
Record VendorHealth := MkHealth {
  vh_Vendor : string; vh_State : HealthState; vh_ConsecutiveFailures : Z;
  vh_OpenedAt : Z; vh_LastProbeAt : Z }.

(** 30 seconds, in microseconds. *)
Definition default_cooldown : Z := 30000000.
Definition NewHealthTracker (threshold cooldown : Z) : HealthTracker :=
  MkTracker (if threshold <=? 0 then 5 else threshold)
            (if cooldown <=? 0 then default_cooldown else cooldown) ∅.

Definition fresh_state : vendorState := VendorState StateClosed 0 0 0.
Definition stateFor (t : HealthTracker) (vendor : string) : vendorState :=
  default fresh_state (vendors t !! vendor).
(** The map keeps a pointer: what is written to the state is seen by every
    later caller. *)
Definition store (t : HealthTracker) (vendor : string) (v : vendorState) : HealthTracker :=
  MkTracker (failureThreshold t) (cooldown t) (<[vendor := v]> (vendors t)).

Definition Allow (t : HealthTracker) (vendor : string) (now : Z) : bool * HealthTracker :=
  let v := stateFor t vendor in
  match v_state v with
  | StateClosed => (true, store t vendor v)
  | StateOpen =>
      if now - v_openedAt v <? cooldown t then (false, store t vendor v)
      else (true, store t vendor
                    (VendorState StateHalfOpen (v_consecutiveFailures v) (v_openedAt v) now))
  | StateHalfOpen => (false, store t vendor v)
  end.

Definition RecordSuccess (t : HealthTracker) (vendor : string) : HealthTracker :=
  let v := stateFor t vendor in
  store t vendor (VendorState StateClosed 0 0 (v_lastProbeAt v)).

Definition RecordFailure (t : HealthTracker) (vendor : string) (now : Z) : HealthTracker :=
  let v := stateFor t vendor in
  if decide (v_state v = StateHalfOpen) then
    store t vendor (VendorState StateOpen (v_consecutiveFailures v) now (v_lastProbeAt v))
  else
    let failures := v_consecutiveFailures v + 1 in
    if bool_decide (v_state v = StateClosed) && (failureThreshold t <=? failures) then
      store t vendor (VendorState StateOpen failures now (v_lastProbeAt v))
    else
      store t vendor (VendorState (v_state v) failures (v_openedAt v) (v_lastProbeAt v)).

(** Byte order of names. *)
Definition name_le (a b : string * vendorState) : Prop := String.leb a.1 b.1 = true.
#[export] Instance name_le_dec a b : Decision (name_le a b).
Proof. unfold name_le. apply _. Defined.
Definition Snapshot (t : HealthTracker) : list VendorHealth :=
  (fun kv => MkHealth kv.1 (v_state kv.2) (v_consecutiveFailures kv.2)
                      (v_openedAt kv.2) (v_lastProbeAt kv.2))
  <$> merge_sort name_le (map_to_list (vendors t)).

(** ** Runs: sequences of calls *)
Inductive breaker_call :=
  | CallAllow (vendor : string) (now : Z)
  | CallSuccess (vendor : string)
  | CallFailure (vendor : string) (now : Z).

Definition call_vendor (c : breaker_call) : string :=
  match c with CallAllow v _ | CallSuccess v | CallFailure v _ => v end.
Definition breaker_step (t : HealthTracker) (c : breaker_call) : HealthTracker :=
  match c with
  | CallAllow v now => (Allow t v now).2
  | CallSuccess v => RecordSuccess t v
  | CallFailure v now => RecordFailure t v now
  end.
Definition breaker_run (t : HealthTracker) (cs : list breaker_call) : HealthTracker :=
  foldl breaker_step t cs.

(** Failures reported for the vendor since its last success. *)
Definition count_call (vendor : string) (n : Z) (c : breaker_call) : Z :=
  match c with
  | CallSuccess v => if bool_decide (v = vendor) then 0 else n
  | CallFailure v _ => if bool_decide (v = vendor) then n + 1 else n
  | CallAllow _ _ => n
  end.
Definition failures_since_success (vendor : string) (cs : list breaker_call) : Z :=
  foldl (count_call vendor) 0 cs.

(** What the callers of [Allow] for one vendor are told, one after another. *)
Fixpoint admissions (t : HealthTracker) (vendor : string) (times : list Z) : list bool :=
  match times with
  | [] => []
  | now :: rest => let '(ok, t') := Allow t vendor now in ok :: admissions t' vendor rest
  end.

(** ** The specification: the phases of a vendor
    Failures are counted while the vendor is served; the one that reaches the threshold
    bars it from then on; the first request after the cooldown probes it; the next
    report of a probed vendor serves it again, or bars it anew. *)
Inductive phase := Serving (failures : Z) | Barred (since : Z) | Probing.
Section phases.
Context (threshold cd : Z) (vendor : string).
Definition phase_step (p : phase) (c : breaker_call) : phase :=
  if decide (call_vendor c = vendor) then
    match p, c with
    | _, CallSuccess _ => Serving 0
    | Serving n, CallFailure _ now => if threshold <=? n + 1 then Barred now else Serving (n + 1)
    | Barred since, CallAllow _ now => if since + cd <=? now then Probing else p
    | Probing, CallFailure _ now => Barred now
    | _, _ => p
    end
  else p.
Definition phase_after (cs : list breaker_call) : phase := foldl phase_step (Serving 0) cs.
End phases.
(** The tracker's state for a vendor in a phase. *)
Definition in_phase (t : HealthTracker) (vendor : string) (p : phase) : Prop :=
  let v := stateFor t vendor in
  match p with
  | Serving n => v_state v = StateClosed /\ v_consecutiveFailures v = n
  | Barred since => v_state v = StateOpen /\ v_openedAt v = since
  | Probing => v_state v = StateHalfOpen
  end.

Lemma stateFor_store t v s v' :
  stateFor (store t v s) v' = if decide (v = v') then s else stateFor t v'.
Proof.
  unfold stateFor, store. simpl. case_decide; subst; by rewrite ?lookup_insert_eq, ?lookup_insert_ne.
Qed.
Lemma breaker_step_config t c :
  failureThreshold (breaker_step t c) = failureThreshold t /\ cooldown (breaker_step t c) = cooldown t.
Proof.
  destruct c; cbn -[stateFor store]; unfold Allow, RecordSuccess, RecordFailure;
    repeat case_match; done.
Qed.
Lemma breaker_run_config cs t :
  failureThreshold (breaker_run t cs) = failureThreshold t /\ cooldown (breaker_run t cs) = cooldown t.
Proof.
  revert t. induction cs as [|c cs IH]; intros t; [done|].
  change (breaker_run t (c :: cs)) with (breaker_run (breaker_step t c) cs).
  destruct (IH (breaker_step t c)) as [-> ->]. apply breaker_step_config.
Qed.
Lemma stateFor_other t c vendor :
  call_vendor c <> vendor -> stateFor (breaker_step t c) vendor = stateFor t vendor.
Proof.
  intros Hne. destruct c; cbn -[stateFor store] in *;
    unfold Allow, RecordSuccess, RecordFailure; repeat case_match; cbn -[stateFor store];
    by rewrite stateFor_store, decide_False.
Qed.

(** The state after a call for the same vendor. *)
Ltac own_state := cbn -[stateFor store Z.add]; rewrite ?stateFor_store, ?decide_True by done;
  cbn -[stateFor store Z.add].

(** Each call of the tracker is a step of the vendor's phase. *)
Lemma breaker_step_phase t c vendor p :
  in_phase t vendor p -> in_phase (breaker_step t c) vendor (phase_step (failureThreshold t) (cooldown t) vendor p c).
Proof.
  intros H. unfold phase_step. destruct (decide (call_vendor c = vendor)) as [<-|Hne].
  2:{ unfold in_phase in *. by rewrite stateFor_other. }
  unfold in_phase in *. destruct c as [v now|v|v now]; cbn [call_vendor breaker_step] in *;
    unfold Allow, RecordSuccess, RecordFailure;
    destruct p as [n|since|], (stateFor t v) as [st f o q] eqn:E; simpl in H;
    repeat match goal with H : _ /\ _ |- _ => destruct H end; subst; simpl; own_state; try done.
  - destruct (Z.ltb_spec (now - since) (cooldown t)), (Z.leb_spec (since + cooldown t) now); try lia; own_state; done.
  - destruct (failureThreshold t <=? n + 1) eqn:En; own_state; done.
Qed.
Lemma breaker_run_phase cs t vendor p :
  in_phase t vendor p ->
  in_phase (breaker_run t cs) vendor (foldl (phase_step (failureThreshold t) (cooldown t) vendor) p cs).
Proof.
  revert t p. induction cs as [|c cs IH]; intros t p H; [done|].
  pose proof (breaker_step_config t c) as [E1 E2]. apply (breaker_step_phase _ c) in H.
  apply IH in H. by rewrite E1, E2 in H.
Qed.
Lemma in_phase_new threshold cd vendor : in_phase (NewHealthTracker threshold cd) vendor (Serving 0).
Proof. unfold in_phase, stateFor. simpl. by rewrite lookup_empty. Qed.
Lemma new_threshold threshold cd : 0 < failureThreshold (NewHealthTracker threshold cd).
Proof. simpl. case_match eqn:E; lia. Qed.

(** ** What a phase says of the calls before it *)
Definition report_of (vendor : string) (c : breaker_call) : bool :=
  bool_decide (call_vendor c = vendor) && match c with CallAllow _ _ => false | _ => true end.
(** Nothing that ends a bar in force since a time. *)
Definition keeps_barred (cd : Z) (vendor : string) (since : Z) (c : breaker_call) : Prop :=
  match c with
  | CallAllow v now => v = vendor -> now < since + cd
  | CallSuccess v => v <> vendor
  | CallFailure _ _ => True
  end.
Section history.
Context (threshold cd : Z) (vendor : string) (Hthr : 0 < threshold).
Notation after := (phase_after threshold cd vendor).
Notation failures := (failures_since_success vendor).
Definition phase_history (cs : list breaker_call) : Prop :=
  match after cs with
  | Serving n => n = failures cs /\ 0 <= n < threshold
  | Barred since => threshold <= failures cs /\
      exists pre post, cs = pre ++ CallFailure vendor since :: post /\
        (after pre = Serving (threshold - 1) \/ after pre = Probing) /\ Forall (keeps_barred cd vendor since) post
  | Probing => threshold <= failures cs /\
      exists pre since now post, cs = pre ++ CallAllow vendor now :: post /\
        after pre = Barred since /\ since + cd <= now /\ Forall (fun c => report_of vendor c = false) post
  end.
Lemma phase_after_snoc cs c : after (cs ++ [c]) = phase_step threshold cd vendor (after cs) c.
Proof. unfold phase_after. by rewrite foldl_app. Qed.
Lemma failures_snoc cs c : failures (cs ++ [c]) = count_call vendor (failures cs) c.
Proof. unfold failures_since_success. by rewrite foldl_app. Qed.
Lemma phase_has_history cs : phase_history cs.
Proof.
  induction cs as [|c cs IH] using rev_ind; [unfold phase_history; simpl; split; [done|lia]|].
  unfold phase_history in *. rewrite phase_after_snoc, failures_snoc. unfold phase_step.
  destruct (decide (call_vendor c = vendor)) as [Ev|Ev].
  2:{ assert (count_call vendor (failures cs) c = failures cs) as -> by (destruct c; cbn in *; by rewrite ?bool_decide_false).
      destruct (after cs) as [n|since|]; [done|..].
      - destruct IH as (? & pre & post & -> & ? & ?). split; [done|]. exists pre, (post ++ [c]).
        rewrite <- app_assoc. split_and!; [done..|]. apply Forall_app. split; [done|]. constructor; [|done].
        destruct c; simpl in *; congruence || done.
      - destruct IH as (? & pre & since & now & post & -> & ? & ? & ?). split; [done|]. exists pre, since, now, (post ++ [c]).
        rewrite <- app_assoc. split_and!; [done..|]. apply Forall_app. split; [done|]. constructor; [|done].
        unfold report_of. by rewrite bool_decide_false. }
  destruct c as [v now|v|v now]; cbn [call_vendor count_call] in *; subst v; rewrite ?(bool_decide_true (vendor = vendor)) by done.
  - destruct (after cs) as [n|since|] eqn:E; [done|..].
    + destruct IH as (Hf & pre & post & -> & Hp & Hq). destruct (Z.leb_spec (since + cd) now).
      * split; [done|]. by exists (pre ++ CallFailure vendor since :: post), since, now, [].
      * split; [done|]. exists pre, (post ++ [CallAllow vendor now]). rewrite <- app_assoc. split_and!; [done..|].
        apply Forall_app. split; [done|]. constructor; [|done]. intros _. lia.
    + destruct IH as (Hf & pre & since & at_ & post & -> & ? & ? & ?). split; [done|].
      exists pre, since, at_, (post ++ [CallAllow vendor now]). rewrite <- app_assoc. split_and!; [done..|].
      apply Forall_app. split; [done|]. constructor; [|done]. unfold report_of. by rewrite andb_false_r.
  - destruct (after cs); (split; [done|lia]).
  - destruct (after cs) as [n|since|] eqn:E.
    + destruct IH as [-> ?]. destruct (Z.leb_spec threshold (failures cs + 1)); [|split; lia]. split; [done|].
      exists cs, []. split_and!; [done| |done]. left. rewrite E. f_equal. lia.
    + destruct IH as (Hf & pre & post & -> & Hp & Hq). split; [lia|]. exists pre, (post ++ [CallFailure vendor now]).
      rewrite <- app_assoc. split_and!; [done..|]. apply Forall_app. split; [done|]. by constructor.
    + destruct IH as (Hf & _). split; [lia|]. exists cs, []. split_and!; [done|by right|done].
Qed.
End history.

(** ** Who is admitted *)
Lemma admissions_closed t vendor times :
  v_state (stateFor t vendor) = StateClosed -> admissions t vendor times = (fun _ => true) <$> times.
Proof.
  revert t. induction times as [|now times IH]; intros t E; [done|].
  cbn -[stateFor]. unfold Allow. rewrite E. f_equal. apply IH. by rewrite stateFor_store, decide_True.
Qed.
Lemma admissions_half_open t vendor times :
  v_state (stateFor t vendor) = StateHalfOpen -> admissions t vendor times = (fun _ => false) <$> times.
Proof.
  revert t. induction times as [|now times IH]; intros t E; [done|].
  cbn -[stateFor]. unfold Allow. rewrite E. f_equal. apply IH. by rewrite stateFor_store, decide_True.
Qed.

(** Nobody until the cooldown is over, then the first caller and nobody else. *)
Lemma admissions_open t vendor times :
  v_state (stateFor t vendor) = StateOpen ->
  (Forall (fun now => now < v_openedAt (stateFor t vendor) + cooldown t) times /\
     admissions t vendor times = (fun _ => false) <$> times) \/
  exists early probe late, times = early ++ probe :: late /\
    Forall (fun now => now < v_openedAt (stateFor t vendor) + cooldown t) early /\
    v_openedAt (stateFor t vendor) + cooldown t <= probe /\
    admissions t vendor times
    = ((fun _ => false) <$> early) ++ true :: ((fun _ => false) <$> late).
Proof.
  revert t. induction times as [|now times IH]; intros t E; [by left|].
  cbn -[stateFor]. unfold Allow. rewrite E.
  destruct (now - v_openedAt (stateFor t vendor) <? cooldown t) eqn:En.
  - apply Z.ltb_lt in En. set (t' := store t vendor (stateFor t vendor)).
    assert (Es : stateFor t' vendor = stateFor t vendor)
      by (unfold t'; by rewrite stateFor_store, decide_True).
    destruct (IH t') as [[Hf Ha]|(early & probe & late & -> & Hf & Hp & Ha)]; [by rewrite Es|..];
      rewrite Es in *; change (cooldown t') with (cooldown t) in *.
    + left. split; [constructor; [lia|done]|]. rewrite Ha. done.
    + right. exists (now :: early), probe, late. split_and!; [done|constructor; [lia|done]|done|].
      rewrite Ha. done.
  - apply Z.ltb_ge in En. right. exists [], now, times. split_and!; [done|done|lia|].
    simpl. f_equal. apply admissions_half_open. by rewrite stateFor_store, decide_True.
Qed.

(** C31: The breaker is the three-phase machine it is meant to be.  Whatever calls
    came before, a vendor is in one of three phases.  Served: its failures since the
    last success are below the threshold, and everyone is let through.  Barred since a
    certain failure of its own, the one that reached the threshold or the first report,
    a failure, after a probe was let through: since then no success came and nobody
    asked once the cooldown was over; of those who ask now nobody is let through until
    the cooldown from that failure has passed, and then exactly the first caller, the
    probe, however many arrive.  Probing: a caller was let through after the cooldown,
    no report of any kind has come since, and nobody else is let through.  (The
    reports carry no caller: a late one of an earlier call ends the probe as well,
    a_late_report_ends_the_probe.) *)
Theorem breaker_admits_one_probe threshold cd cs vendor times :
  let t := breaker_run (NewHealthTracker threshold cd) cs in
  let after := phase_after (failureThreshold t) (cooldown t) vendor in
  match after cs with
  | Serving n =>
      n = failures_since_success vendor cs /\ n < failureThreshold t /\
      admissions t vendor times = ((fun _ => true) <$> times)
  | Barred since =>
      failureThreshold t <= failures_since_success vendor cs /\
      (exists pre post, cs = pre ++ CallFailure vendor since :: post /\
         (after pre = Serving (failureThreshold t - 1) \/ after pre = Probing) /\
         Forall (keeps_barred (cooldown t) vendor since) post) /\
      ((Forall (fun now => now < since + cooldown t) times /\
          admissions t vendor times = ((fun _ => false) <$> times)) \/
       exists early probe late, times = early ++ probe :: late /\
         Forall (fun now => now < since + cooldown t) early /\ since + cooldown t <= probe /\
         admissions t vendor times = ((fun _ => false) <$> early) ++ true :: ((fun _ => false) <$> late))
  | Probing =>
      failureThreshold t <= failures_since_success vendor cs /\
      (exists pre since now post, cs = pre ++ CallAllow vendor now :: post /\ after pre = Barred since /\
         since + cooldown t <= now /\ Forall (fun c => report_of vendor c = false) post) /\
      admissions t vendor times = ((fun _ => false) <$> times)
  end.
Proof.
  intros t after. subst after.
  pose proof (breaker_run_phase cs _ vendor _ (in_phase_new threshold cd vendor)) as Hp.
  fold t in Hp. destruct (breaker_run_config cs (NewHealthTracker threshold cd)) as [E1 E2]. fold t in E1, E2.
  rewrite <- E1, <- E2 in Hp. change (foldl _ (Serving 0) cs) with (phase_after (failureThreshold t) (cooldown t) vendor cs) in Hp.
  assert (Hthr : 0 < failureThreshold t) by (rewrite E1; apply new_threshold). clearbody t.
  pose proof (phase_has_history (failureThreshold t) (cooldown t) vendor Hthr cs) as H. unfold phase_history in H.
  destruct (phase_after _ _ vendor cs) as [n|since|].
  - destruct Hp as [Hs _], H as [Hn Hlt]. split_and!; [done|lia|by apply admissions_closed].
  - destruct Hp as [Hs <-], H as [Hf H]. split_and!; [done..|by apply admissions_open].
  - destruct H as [Hf H]. split_and!; [done..|by apply admissions_half_open].
Qed.

(** Two callers let through, the first fails and trips the breaker; the probe is let
    through and has not reported when the second caller's success comes in: the
    breaker closes, and everyone is let through. *)
Definition late_report : list breaker_call :=
  [CallAllow "bank" 0; CallAllow "bank" 0; CallFailure "bank" 1; CallAllow "bank" 40000001; CallSuccess "bank"].
Lemma a_late_report_ends_the_probe :
  phase_after 1 default_cooldown "bank" (take 3 late_report) = Barred 1 /\
  phase_after 1 default_cooldown "bank" (take 4 late_report) = Probing /\
  phase_after 1 default_cooldown "bank" late_report = Serving 0 /\
  admissions (breaker_run (NewHealthTracker 1 0) late_report) "bank" [40000002; 40000003] = [true; true].
Proof. split_and!; vm_compute; reflexivity. Qed.
