(* ===== verification/PayoutRepo.v ===== *)
(** * The payout service's tables and statements

    services/payout/internal/repository: payout_requests, payout_vendor_calls,
    payout_vendor_commands and the routing tables, with the constraints of
    services/payout/migrations and every statement the orchestration runs.  A
    statement is an executable function of the tables and of what the database
    chooses: the time, a random number, the rows other sessions hold. *)
From Stdlib Require Import Ascii String.
From stdpp Require Import prelude gmap strings list sorting.
From S2P Require Import Prelude Decimal Errors Flow VendorRouting.
Open Scope Z_scope.

(** ** Rows *)
Record payout_row := PayoutRow {
  pq_user_id : uuid;
  pq_merchant_tenant_id : uuid;
  pq_amount : Z;
  pq_currency : string;
  pq_vendor : string;
  pq_status : string;
  pq_hold_tx_id : option uuid;
  pq_settle_tx_id : option uuid;
  pq_vendor_ref : option string;
  pq_error_message : option string;
  pq_created_by : string;
  pq_request_id : option string;
  pq_fee_quote_id : option uuid;
  pq_fee_amount : option Z;
  pq_fee_gateway : option string;
  pq_downstream_key : option string;
  pq_destination : option string;      (* ciphertext *)
  pq_created_at : Z;
  pq_updated_at : Z;
}.
Record call_row := CallRow {
  vl_id : uuid; vl_request : uuid; vl_attempt : Z; vl_req_summary : string;
  vl_resp_status : option string; vl_error : option string; vl_outcome : string;
  vl_created_at : Z }.
Record command_row := CommandRow {
  vc_command_key : string;
  vc_payout_request_id : uuid;
  vc_vendor : string;
  vc_attempt : Z;
  vc_status : string;
  vc_retry_count : Z;
  vc_max_retries : Z;
  vc_next_attempt_at : option Z;
  vc_last_attempted_at : option Z;
  vc_locked_at : option Z;
  vc_last_error : option string;
  vc_created_at : Z;
}.
Record payout_db := PayoutDb {
  payout_requests : gmap uuid payout_row;
  payout_vendor_calls : list call_row;
  payout_vendor_commands : gmap uuid command_row;
  payout_vendor_gateways : gmap string string;
  payout_routing_rules : gmap uuid RoutingRule;
  payout_intake_paused : bool;
}.
Definition with_requests (d : payout_db) r :=
  PayoutDb r (payout_vendor_calls d) (payout_vendor_commands d) (payout_vendor_gateways d)
           (payout_routing_rules d) (payout_intake_paused d).
Definition with_calls (d : payout_db) c :=
  PayoutDb (payout_requests d) c (payout_vendor_commands d) (payout_vendor_gateways d)
           (payout_routing_rules d) (payout_intake_paused d).
Definition with_commands (d : payout_db) c :=
  PayoutDb (payout_requests d) (payout_vendor_calls d) c (payout_vendor_gateways d)
           (payout_routing_rules d) (payout_intake_paused d).

(** A statement of the service: what it answers and the tables after it. *)
Definition statement (A : Type) : Type := db_choice -> payout_db -> error + (A * payout_db).

(** ** Constraints *)
Definition payout_statuses : list string :=
  ["created"; "held"; "submitted"; "vendor_pending"; "settled"; "failed"; "cancelled"; "rejected"].
Definition payout_row_ok (r : payout_row) : bool :=
  (0 <? pq_amount r) && in_int64 (pq_amount r) && bool_decide (pq_status r ∈ payout_statuses)
  && xorb (bool_decide (pq_user_id r = uuid_Nil)) (bool_decide (pq_merchant_tenant_id r = uuid_Nil))
  && match pq_fee_amount r with Some fee => 0 <=? fee | None => true end.

Definition command_statuses : list string := ["pending"; "processing"; "failed"; "completed"; "dead"].
Definition is_live (c : command_row) : bool :=
  bool_decide (vc_status c = "pending") || bool_decide (vc_status c = "processing")
  || bool_decide (vc_status c = "failed").
Definition commands_with (P : command_row -> bool) (t : gmap uuid command_row)
    : list (uuid * command_row) := filter (fun kc => P kc.2 = true) (map_to_list t).
Definition at_most_one (P : command_row -> bool) (t : gmap uuid command_row) : bool :=
  (length (commands_with P t) <=? 1)%nat.
(** The CHECKs, the unique command_key, UNIQUE (payout_request_id, attempt) and
    the partial index idx_payout_vendor_commands_one_live. *)
Definition command_checks (c : command_row) : bool :=
  (0 <? vc_attempt c) && bool_decide (vc_status c ∈ command_statuses)
  && (0 <=? vc_retry_count c) && (0 <? vc_max_retries c).
Definition of_request (id : uuid) (c : command_row) : bool :=
  bool_decide (vc_payout_request_id c = id).
Definition command_unique (t : gmap uuid command_row) (c : command_row) : bool :=
  at_most_one (fun x => bool_decide (vc_command_key x = vc_command_key c)) t
  && at_most_one (fun x => of_request (vc_payout_request_id c) x && (vc_attempt x =? vc_attempt c)) t
  && at_most_one (fun x => of_request (vc_payout_request_id c) x && is_live x) t.
Definition commands_ok (t : gmap uuid command_row) : option error :=
  if negb (forallb (fun kc => command_checks kc.2) (map_to_list t)) then
    Some (PgError "23514" "violates check constraint")
  else if negb (forallb (fun kc => command_unique t kc.2) (map_to_list t)) then
    Some (PgError "23505" "duplicate key value violates unique constraint")
  else None.

(** UPDATE payout_requests SET ... WHERE ...: the number of rows. *)
Definition update_requests (P : uuid -> payout_row -> bool) (f : payout_row -> payout_row)
    (d : payout_db) : error + (Z * payout_db) :=
  let hit := rows_where P (payout_requests d) in
  if forallb (fun kr => payout_row_ok (f kr.2)) hit
  then inr (Z.of_nat (length hit), with_requests d (set_where P f (payout_requests d)))
  else inl (PgError "23514" "violates check constraint").
Definition update_commands (P : uuid -> command_row -> bool) (f : command_row -> command_row)
    (d : payout_db) : error + (Z * payout_db) :=
  let t := set_where P f (payout_vendor_commands d) in
  match commands_ok t with
  | Some e => inl e
  | None => inr (Z.of_nat (length (rows_where P (payout_vendor_commands d))), with_commands d t)
  end.

(** ** The request repository: repository.go *)
Definition StatusCreated : string := "created".
Definition StatusHeld : string := "held".
Definition StatusSubmitted : string := "submitted".
Definition StatusVendorPending : string := "vendor_pending".
Definition StatusSettled : string := "settled".
Definition StatusFailed : string := "failed".
Definition StatusCancelled : string := "cancelled".
Definition StatusRejected : string := "rejected".

Definition ErrNotFound : error := Plain "payout: request not found".
Definition ErrCommandNotFound : error := Plain "payout: vendor command not found".

(** model.PayoutVendorCall and model.PayoutVendorCommand *)
Record PayoutVendorCall := MkCall {
  pvc_ID : uuid; pvc_PayoutRequestID : uuid; pvc_Attempt : Z; pvc_ReqSummary : string;
  pvc_RespStatus : string; pvc_Error : string; pvc_Outcome : string }.
Record PayoutVendorCommand := MkVendorCommand {
  cmd_ID : uuid; cmd_PayoutRequestID : uuid; cmd_Vendor : string; cmd_Attempt : Z;
  cmd_Status : string; cmd_RetryCount : Z; cmd_MaxRetries : Z }.

Section repository.
Context `{DEC : !Decimal} `{UT : !UuidText}.

Record PayoutRequest := MkPayoutRequest {
  pr_ID : uuid;
  pr_UserID : uuid;
  pr_MerchantTenantID : uuid;
  pr_Amount : dec;
  pr_Currency : string;
  pr_Vendor : string;
  pr_Destination : string;
  pr_Status : string;
  pr_HoldTxID : option uuid;
  pr_SettleTxID : option uuid;
  pr_VendorRef : string;
  pr_ErrorMessage : string;
  pr_CreatedBy : string;
  pr_RequestID : string;
  pr_FeeQuoteID : option uuid;
  pr_FeeAmount : option dec;
  pr_FeeGateway : string;
  pr_DownstreamKey : string;
}.

Context (ring : Ring).

Definition dquote : string := String "034"%char EmptyString.
Definition redactedDestinationMarker : string :=
  "{" +:+ dquote +:+ "redacted" +:+ dquote +:+ ":true}".

Definition new_request (req : PayoutRequest) (ciphertext : string) (downstream : option string)
    (now : Z) : payout_row :=
  PayoutRow (pr_UserID req) (pr_MerchantTenantID req) (dec_int_part (pr_Amount req))
    (pr_Currency req) (pr_Vendor req) StatusCreated None None None None (pr_CreatedBy req)
    (nullString (pr_RequestID req)) None None None downstream (Some ciphertext) now now.

(** The partial unique index on (merchant_tenant_id, downstream_key). *)
Definition same_downstream (tenant : uuid) (key : string) (_ : uuid) (r : payout_row) : bool :=
  bool_decide (pq_merchant_tenant_id r = tenant) && bool_decide (pq_downstream_key r = Some key).

Definition insert_request (id : uuid) (r : payout_row) (d : payout_db) : error + payout_db :=
  if negb (payout_row_ok r) then inl (PgError "23514" "violates check constraint")
  else if bool_decide (is_Some (payout_requests d !! id)) then
    inl (PgError "23505" "duplicate key value violates unique constraint")
  else inr (with_requests d (<[id := r]> (payout_requests d))).

Definition Insert (req : PayoutRequest) : statement unit := fun ch d =>
  match Seal ring (pr_ID req) (pr_Destination req) with
  | inl err => inl (Wrap "encrypt payout destination" err)
  | inr ciphertext =>
      match insert_request (pr_ID req) (new_request req ciphertext None (ch_now ch)) d with
      | inl err => inl (Wrap "insert payout request" err)
      | inr d' => inr (tt, d')
      end
  end.

Definition scanRequest (id : uuid) (r : payout_row) : error + PayoutRequest :=
  let destination := match pq_destination r with
                     | None => inr redactedDestinationMarker
                     | Some c => match Open ring id c with
                                 | inl err => inl (Wrap "decrypt payout destination" err)
                                 | inr plain => inr plain end end in
  match destination with
  | inl err => inl err
  | inr destination =>
      inr (MkPayoutRequest id (pq_user_id r) (pq_merchant_tenant_id r) (dec_of_Z (pq_amount r))
             (pq_currency r) (pq_vendor r) destination (pq_status r) (pq_hold_tx_id r)
             (pq_settle_tx_id r) (default EmptyString (pq_vendor_ref r))
             (default EmptyString (pq_error_message r)) (pq_created_by r)
             (default EmptyString (pq_request_id r)) (pq_fee_quote_id r)
             (dec_of_Z <$> pq_fee_amount r) (default EmptyString (pq_fee_gateway r)) EmptyString)
  end.

(** INSERT ... ON CONFLICT DO NOTHING on the key, then the row of the key.  The
    generated id is new, so its equality with an existing one (which cannot
    happen, and which the statement would not notice when the key conflicts) is
    an error here.  The two calls are one step, since
    the row of a key is never deleted nor given another key in between; what goes
    wrong after the insertion is part of the value, because the row stays. *)
Definition InsertMerchant (req : PayoutRequest) : statement (error + PayoutRequest) := fun ch d =>
  if bool_decide (pr_DownstreamKey req = EmptyString) then
    inl (Plain "insert merchant payout request: downstream key is required")
  else
    match Seal ring (pr_ID req) (pr_Destination req) with
    | inl err => inl (Wrap "encrypt payout destination" err)
    | inr ciphertext =>
        let key := pr_DownstreamKey req in
        let inserted :=
          match rows_where (same_downstream (pr_MerchantTenantID req) key) (payout_requests d) with
          | [] => insert_request (pr_ID req) (new_request req ciphertext (Some key) (ch_now ch)) d
          | _ => if bool_decide (is_Some (payout_requests d !! pr_ID req))
                 then inl (PgError "23505" "duplicate key value violates unique constraint")
                 else inr d
          end in
        match inserted with
        | inl err => inl (Wrap "insert merchant payout request" err)
        | inr d' =>
            match rows_where (same_downstream (pr_MerchantTenantID req) key) (payout_requests d') with
            | [] => inr (inl (Wrap "read merchant payout request after insert" ErrNoRows), d')
            | (id, r) :: _ =>
                match scanRequest id r with
                | inl err => inr (inl (Wrap "read merchant payout request after insert" err), d')
                | inr stored => inr (inr stored, d')
                end
            end
        end
    end.

(** A row with another status; [f] sets the columns that go with it. *)
Definition set_request (status : string) (hold settle : option uuid) (vendor_ref err : option string)
    (now : Z) (r : payout_row) : payout_row :=
  PayoutRow (pq_user_id r) (pq_merchant_tenant_id r) (pq_amount r) (pq_currency r) (pq_vendor r)
    status hold settle vendor_ref err (pq_created_by r) (pq_request_id r) (pq_fee_quote_id r)
    (pq_fee_amount r) (pq_fee_gateway r) (pq_downstream_key r) (pq_destination r)
    (pq_created_at r) now.

(** UPDATE ... WHERE id = $ AND status IN (...): whether a row was hit. *)
Definition transition (id : uuid) (from : list string) (f : payout_row -> payout_row) (d : payout_db)
    : error + (bool * payout_db) :=
  match update_requests (fun i r => bool_decide (i = id) && bool_decide (pq_status r ∈ from)) f d with
  | inl err => inl (Wrap "transition payout request" err)
  | inr (n, d') => inr (0 <? n, d')
  end.

Definition TransitionToHeld (id holdTxID : uuid) : statement bool := fun ch =>
  transition id [StatusCreated] (fun r =>
    set_request StatusHeld (Some holdTxID) (pq_settle_tx_id r) (pq_vendor_ref r)
                (pq_error_message r) (ch_now ch) r).
Definition TransitionToVendorPending (id : uuid) (vendorRef : string) : statement bool := fun ch =>
  transition id [StatusSubmitted] (fun r =>
    set_request StatusVendorPending (pq_hold_tx_id r) (pq_settle_tx_id r) (Some vendorRef)
                (pq_error_message r) (ch_now ch) r).
Definition TransitionToSettled (id settleTxID : uuid) : statement bool := fun ch =>
  transition id [StatusSubmitted; StatusVendorPending] (fun r =>
    set_request StatusSettled (pq_hold_tx_id r) (Some settleTxID) (pq_vendor_ref r)
                (pq_error_message r) (ch_now ch) r).
Definition TransitionToCancelled (id settleTxID : uuid) : statement bool := fun ch =>
  transition id [StatusSubmitted; StatusVendorPending] (fun r =>
    set_request StatusCancelled (pq_hold_tx_id r) (Some settleTxID) (pq_vendor_ref r)
                (pq_error_message r) (ch_now ch) r).
(** The next three and [SetVendor] exist in the repository; no code path calls them. *)
Definition TransitionToSubmitted (id : uuid) : statement bool := fun ch =>
  transition id [StatusHeld; StatusVendorPending] (fun r =>
    set_request StatusSubmitted (pq_hold_tx_id r) (pq_settle_tx_id r) (pq_vendor_ref r)
                (pq_error_message r) (ch_now ch) r).
Definition TransitionBackToSubmitted (id : uuid) : statement bool := fun ch =>
  transition id [StatusVendorPending] (fun r =>
    set_request StatusSubmitted (pq_hold_tx_id r) (pq_settle_tx_id r) (pq_vendor_ref r)
                (pq_error_message r) (ch_now ch) r).
Definition TransitionToFailed (id : uuid) (reason : string) : statement bool := fun ch =>
  transition id [StatusSubmitted; StatusVendorPending] (fun r =>
    set_request StatusFailed (pq_hold_tx_id r) (pq_settle_tx_id r) (pq_vendor_ref r)
                (Some (String.substring 0 500 reason)) (ch_now ch) r).
Definition TransitionToRejected (id : uuid) (reason : string) : statement bool := fun ch =>
  transition id [StatusCreated] (fun r =>
    set_request StatusRejected (pq_hold_tx_id r) (pq_settle_tx_id r) (pq_vendor_ref r)
                (Some (String.substring 0 500 reason)) (ch_now ch) r).

Definition by_id (id i : uuid) {R} (_ : R) : bool := bool_decide (i = id).

Definition SetError (id : uuid) (reason : string) : statement unit := fun ch d =>
  match update_requests (fun i r => by_id id i r) (fun r =>
          set_request (pq_status r) (pq_hold_tx_id r) (pq_settle_tx_id r) (pq_vendor_ref r)
                      (Some (String.substring 0 500 reason)) (ch_now ch) r) d with
  | inl err => inl (Wrap "set payout request error" err)
  | inr (_, d') => inr (tt, d')
  end.

Definition SetQuotedFee (id quoteID : uuid) (feeAmount : dec) (feeGateway : string)
    : statement unit := fun ch d =>
  match update_requests (fun i r => by_id id i r) (fun r =>
          PayoutRow (pq_user_id r) (pq_merchant_tenant_id r) (pq_amount r) (pq_currency r)
            (pq_vendor r) (pq_status r) (pq_hold_tx_id r) (pq_settle_tx_id r) (pq_vendor_ref r)
            (pq_error_message r) (pq_created_by r) (pq_request_id r) (Some quoteID)
            (Some (dec_int_part feeAmount)) (Some feeGateway) (pq_downstream_key r)
            (pq_destination r) (pq_created_at r) (ch_now ch)) d with
  | inl err => inl (Wrap "set payout request quoted fee" err)
  | inr (_, d') => inr (tt, d')
  end.

Definition SetVendor (id : uuid) (vendor : string) : statement unit := fun ch d =>
  match update_requests (fun i r => by_id id i r) (fun r =>
          PayoutRow (pq_user_id r) (pq_merchant_tenant_id r) (pq_amount r) (pq_currency r) vendor
            (pq_status r) (pq_hold_tx_id r) (pq_settle_tx_id r) (pq_vendor_ref r) (pq_error_message r)
            (pq_created_by r) (pq_request_id r) (pq_fee_quote_id r) (pq_fee_amount r)
            (pq_fee_gateway r) (pq_downstream_key r) (pq_destination r) (pq_created_at r) (ch_now ch)) d with
  | inl err => inl (Wrap "set payout request vendor" err)
  | inr (_, d') => inr (tt, d')
  end.

Definition Get (id : uuid) : statement PayoutRequest := fun _ d =>
  match payout_requests d !! id with
  | None => inl ErrNotFound
  | Some r => match scanRequest id r with inl err => inl err | inr req => inr (req, d) end
  end.

(** No index makes (vendor, vendor_ref) unique: any of the rows may come first. *)
Definition GetByVendorReference (vendor ref : string) : statement PayoutRequest := fun ch d =>
  let hits := rows_where (fun _ r => bool_decide (pq_vendor r = vendor)
                                     && bool_decide (pq_vendor_ref r = Some ref)) (payout_requests d) in
  match hits !! (ch_first ch mod length hits)%nat with
  | None => inl ErrNotFound
  | Some (id, r) => match scanRequest id r with inl err => inl err | inr req => inr (req, d) end
  end.

Fixpoint scan_all (rows : list (uuid * payout_row)) : error + list PayoutRequest :=
  match rows with
  | [] => inr []
  | (id, r) :: rest =>
      match scanRequest id r with
      | inl err => inl err
      | inr req => match scan_all rest with inl err => inl err | inr reqs => inr (req :: reqs) end
      end
  end.
Definition ListStuck (status : string) (olderThan : Z) (limit : nat) : statement (list PayoutRequest) :=
  fun _ d =>
  match scan_all (take limit (ordered_rows (fun r => Some (pq_updated_at r))
          (fun _ r => bool_decide (pq_status r = status) && (pq_updated_at r <? olderThan))
          (payout_requests d))) with
  | inl err => inl err | inr reqs => inr (reqs, d)
  end.

(** Newest first; an empty status or vendor does not filter. *)
Definition newest_first (a b : uuid * payout_row) : Prop := pq_created_at b.2 <= pq_created_at a.2.
#[export] Instance newest_first_dec : RelDecision newest_first.
Proof. intros a b. unfold newest_first. apply _. Defined.
Definition wanted (filter_ value : string) : bool :=
  bool_decide (filter_ = EmptyString) || bool_decide (value = filter_).
Definition List_ (status vendor : string) (limit offset : nat) : statement (list PayoutRequest) :=
  fun _ d =>
  match scan_all (take limit (drop offset (merge_sort newest_first
          (rows_where (fun _ r => wanted status (pq_status r) && wanted vendor (pq_vendor r))
             (payout_requests d))))) with
  | inl err => inl err | inr reqs => inr (reqs, d)
  end.

(** GROUP BY status: a status without rows is absent. *)
Definition CountStuck_rows (statuses : list string) (olderThan : Z) : statement (gmap string Z) :=
  fun _ d =>
  let count s := Z.of_nat (length (rows_where (fun _ r =>
                   bool_decide (pq_status r = s) && (pq_created_at r <? olderThan))
                   (payout_requests d))) in
  inr (list_to_map (filter (fun p => 0 < p.2) ((fun s => (s, count s)) <$> statuses)), d).

Definition InsertVendorCall (call : PayoutVendorCall) : statement unit := fun ch d =>
  let dup := existsb (fun c => bool_decide (vl_id c = pvc_ID call)) (payout_vendor_calls d) in
  if dup then
    inl (Wrap "insert payout vendor call" (PgError "23505" "duplicate key"))
  else if negb (bool_decide (is_Some (payout_requests d !! pvc_PayoutRequestID call))) then
    inl (Wrap "insert payout vendor call" (PgError "23503" "violates foreign key constraint"))
  else if negb (bool_decide (pvc_Outcome call ∈ ["accepted"; "rejected"; "uncertain"])) then
    inl (Wrap "insert payout vendor call" (PgError "23514" "violates check constraint"))
  else inr (tt, with_calls d (payout_vendor_calls d ++
         [CallRow (pvc_ID call) (pvc_PayoutRequestID call) (pvc_Attempt call) (pvc_ReqSummary call)
            (nullString (pvc_RespStatus call)) (nullString (pvc_Error call)) (pvc_Outcome call)
            (ch_now ch)])).

Definition call_le (a b : call_row) : Prop := vl_created_at a <= vl_created_at b.
#[local] Instance call_le_dec : RelDecision call_le.
Proof. intros a b. unfold call_le. apply _. Defined.
Definition ListVendorCalls (id : uuid) : statement (list PayoutVendorCall) := fun _ d =>
  inr ((fun c => MkCall (vl_id c) (vl_request c) (vl_attempt c) (vl_req_summary c)
                   (default EmptyString (vl_resp_status c)) (default EmptyString (vl_error c))
                   (vl_outcome c))
       <$> merge_sort call_le (filter (fun c => vl_request c = id) (payout_vendor_calls d)), d).
End repository.
