(* ===== verification/VendorCommands.v ===== *)
(** * The durable vendor-dispatch queue and the routing tables

    services/payout/internal/repository/vendor_command_repository.go and
    routing_repository.go; each WithTx block is one atomic statement, since its
    first statement locks the request's row or its only write cannot block. *)
From Stdlib Require Import Ascii String.
From stdpp Require Import prelude gmap strings list sorting.
From S2P Require Import Prelude Decimal Errors Relay Flow VendorRouting PayoutRepo.
Open Scope Z_scope.

Section commands.
Context `{UT : !UuidText}.

Definition vendorCommandKey (id : uuid) (attempt : Z) : string :=
  "payout:" +:+ uuid_string id +:+ ":submit:" +:+ Z_text attempt.

Definition new_command (id : uuid) (vendor : string) (attempt now : Z) : command_row :=
  CommandRow (vendorCommandKey id attempt) id vendor attempt "pending" 0 8 (Some now) None None
             None now.

(** The plain INSERT: every constraint violation is an error. *)
Definition insertVendorCommand (newID id : uuid) (vendor : string) (attempt now : Z) (d : payout_db)
    : error + payout_db :=
  if bool_decide (is_Some (payout_vendor_commands d !! newID)) then
    inl (Wrap "insert vendor command" (PgError "23505" "duplicate key"))
  else if negb (bool_decide (is_Some (payout_requests d !! id))) then
    inl (Wrap "insert vendor command" (PgError "23503" "violates foreign key constraint"))
  else
    let t := <[newID := new_command id vendor attempt now]> (payout_vendor_commands d) in
    match commands_ok t with
    | Some e => inl (Wrap "insert vendor command" e)
    | None => inr (with_commands d t)
    end.

(** ON CONFLICT DO NOTHING: a unique violation inserts nothing. *)
Definition insertVendorCommandIfAbsent (newID id : uuid) (vendor : string) (attempt now : Z)
    (d : payout_db) : error + (bool * payout_db) :=
  match insertVendorCommand newID id vendor attempt now d with
  | inr d' => inr (true, d')
  | inl err => if IsDuplicateKey err then inr (false, d) else inl (Wrap "insert vendor command if absent" err)
  end.

Definition EnqueueInitialSubmit (newID id : uuid) (vendor : string) : statement bool := fun ch d =>
  match update_requests (fun i r => bool_decide (i = id)
            && bool_decide (pq_status r ∈ [StatusHeld; StatusVendorPending]))
          (fun r => set_request StatusSubmitted (pq_hold_tx_id r) (pq_settle_tx_id r)
                      (pq_vendor_ref r) (pq_error_message r) (ch_now ch) r) d with
  | inl err => inl (Wrap "enqueue initial submit: transition" err)
  | inr (n, d1) =>
      if n =? 0 then inr (false, d)
      else match insertVendorCommand newID id vendor 1 (ch_now ch) d1 with
           | inl err => inl (Wrap "enqueue initial submit" err)
           | inr d2 => inr (true, d2)
           end
  end.

Definition set_command_status (status : string) (c : command_row) : command_row :=
  CommandRow (vc_command_key c) (vc_payout_request_id c) (vc_vendor c) (vc_attempt c) status
    (vc_retry_count c) (vc_max_retries c) (vc_next_attempt_at c) (vc_last_attempted_at c) None
    (vc_last_error c) (vc_created_at c).
Definition is_processing (id i : uuid) (c : command_row) : bool :=
  bool_decide (i = id) && bool_decide (vc_status c = "processing").

Definition set_vendor (vendor : string) (now : Z) (r : payout_row) : payout_row :=
  PayoutRow (pq_user_id r) (pq_merchant_tenant_id r) (pq_amount r) (pq_currency r) vendor
    (pq_status r) (pq_hold_tx_id r) (pq_settle_tx_id r) (pq_vendor_ref r) (pq_error_message r)
    (pq_created_by r) (pq_request_id r) (pq_fee_quote_id r) (pq_fee_amount r) (pq_fee_gateway r)
    (pq_downstream_key r) (pq_destination r) (pq_created_at r) now.

Definition CompleteAndEnqueueFailover (newID id completing : uuid) (fromVendor toVendor : string)
    (nextAttempt : Z) : statement bool := fun ch d =>
  match update_requests (fun i r => bool_decide (i = id) && bool_decide (pq_vendor r = fromVendor))
          (set_vendor toVendor (ch_now ch)) d with
  | inl err => inl (Wrap "complete and enqueue failover: cas vendor" err)
  | inr (n, d1) =>
      if n =? 0 then inr (false, d)
      else
        match update_commands (is_processing completing)
                (set_command_status "completed") d1 with
        | inl err => inl (Wrap "complete and enqueue failover: complete command" err)
        | inr (n, d2) =>
            if n =? 0 then inl (Wrap "is not a live claimed command" ErrCommandNotFound)
            else match insertVendorCommand newID id toVendor nextAttempt (ch_now ch) d2 with
                 | inl err => inl (Wrap "complete and enqueue failover" err)
                 | inr d3 => inr (true, d3)
                 end
        end
  end.

(** COALESCE(MAX(attempt), 0) + 1: when a concurrent replica commits the same
    number first, the insert meets its row. *)
Definition next_attempt (id : uuid) (d : payout_db) : Z :=
  foldr Z.max 0 (vc_attempt <$> (commands_with (of_request id) (payout_vendor_commands d)).*2) + 1.
Definition EnsureSubmitCommand (newID id : uuid) (vendor : string) : statement bool := fun ch d =>
  if ch_raced ch then inr (false, d)
  else
    match insertVendorCommandIfAbsent newID id vendor (next_attempt id d) (ch_now ch) d with
    | inl err => inl (Wrap "ensure submit command" err)
    | inr (ok, d') => inr (ok, d')
    end.

Definition scanCommand (kc : uuid * command_row) : PayoutVendorCommand :=
  let c := kc.2 in
  MkVendorCommand kc.1 (vc_payout_request_id c) (vc_vendor c) (vc_attempt c) (vc_status c)
                  (vc_retry_count c) (vc_max_retries c).

Definition claimed (now : Z) (c : command_row) : command_row :=
  CommandRow (vc_command_key c) (vc_payout_request_id c) (vc_vendor c) (vc_attempt c) "processing"
    (vc_retry_count c) (vc_max_retries c) (vc_next_attempt_at c) (Some now) (Some now)
    (vc_last_error c) (vc_created_at c).
Definition claim_commands (selected : list (uuid * command_row)) (now : Z) (d : payout_db)
    : error + (list PayoutVendorCommand * payout_db) :=
  match update_commands (fun i _ => bool_decide (i ∈ selected.*1)) (claimed now) d with
  | inl err => inl (Wrap "claim vendor commands" err)
  | inr (_, d') => inr ((fun kc => scanCommand (kc.1, claimed now kc.2)) <$> selected, d')
  end.
Definition ClaimPendingCommands (limit : nat) : statement (list PayoutVendorCommand) := fun ch d =>
  claim_commands (lock_rows (fun c => Some (vc_created_at c))
                    (fun _ c => bool_decide (vc_status c = "pending")) limit (ch_locked ch)
                    (payout_vendor_commands d)) (ch_now ch) d.
Definition ClaimFailedCommandsForRetry (limit : nat) : statement (list PayoutVendorCommand) :=
  fun ch d =>
  claim_commands (lock_rows vc_next_attempt_at
                    (fun _ c => bool_decide (vc_status c = "failed")
                       && (vc_retry_count c <? vc_max_retries c)
                       && match vc_next_attempt_at c with None => true
                          | Some at_ => at_ <=? ch_now ch end) limit (ch_locked ch)
                    (payout_vendor_commands d)) (ch_now ch) d.

Definition CompleteCommand (id : uuid) : statement unit := fun ch d =>
  match update_commands (is_processing id) (set_command_status "completed") d with
  | inl err => inl (Wrap "complete vendor command" err)
  | inr (n, d') => if n =? 0 then inl (Wrap "" ErrCommandNotFound) else inr (tt, d')
  end.

(** Base 30 s doubled per retry up to 15 min, with up to half as much jitter. *)
Definition failed_command (errMsg : string) (now random : Z) (c : command_row) : command_row :=
  CommandRow (vc_command_key c) (vc_payout_request_id c) (vc_vendor c) (vc_attempt c)
    (if vc_max_retries c <=? vc_retry_count c + 1 then "dead" else "failed")
    (vc_retry_count c + 1) (vc_max_retries c) (Some (now + backoff (vc_retry_count c) random))
    (Some now) None (Some (String.substring 0 1000 errMsg)) (vc_created_at c).
Definition FailCommand (id : uuid) (errMsg : string) : statement unit := fun ch d =>
  match update_commands (is_processing id) (failed_command errMsg (ch_now ch) (ch_random ch)) d with
  | inl err => inl (Wrap "fail vendor command" err)
  | inr (n, d') => if n =? 0 then inl (Wrap "" ErrCommandNotFound) else inr (tt, d')
  end.

Definition ReapStuckCommands_rows (olderThan : Z) : statement Z := fun ch d =>
  match update_commands (fun _ c => bool_decide (vc_status c = "processing")
            && match vc_locked_at c with Some at_ => at_ <? ch_now ch - olderThan | None => false end)
          (fun c => CommandRow (vc_command_key c) (vc_payout_request_id c) (vc_vendor c)
             (vc_attempt c) "failed" (vc_retry_count c) (vc_max_retries c) (Some (ch_now ch))
             (vc_last_attempted_at c) None
             (Some "reaped: stuck in processing past lease deadline") (vc_created_at c)) d with
  | inl err => inl (Wrap "reap stuck vendor commands" err)
  | inr (n, d') => inr (n, d')
  end.

Definition replayed_command (now : Z) (c : command_row) : command_row :=
  CommandRow (vc_command_key c) (vc_payout_request_id c) (vc_vendor c) (vc_attempt c) "failed" 0
    (vc_max_retries c) (Some now) (vc_last_attempted_at c) None
    (Some (default EmptyString (vc_last_error c) +:+ " [replayed by admin]")) (vc_created_at c).
Definition ReplayDeadCommand (id : uuid) : statement unit := fun ch d =>
  match update_commands (fun i c => bool_decide (i = id) && bool_decide (vc_status c = "dead"))
          (replayed_command (ch_now ch)) d with
  | inl err => inl (Wrap "replay dead vendor command" err)
  | inr (n, d') => if n =? 0 then inl (Wrap "" ErrCommandNotFound) else inr (tt, d')
  end.
Definition maxReplayAllCommandsBatch : nat := 100.
Definition ReplayAllDeadCommands (olderThan : Z) : statement Z := fun ch d =>
  let selected := lock_rows (fun c => Some (vc_created_at c))
       (fun _ c => bool_decide (vc_status c = "dead") && (vc_created_at c <? olderThan))
       maxReplayAllCommandsBatch (ch_locked ch) (payout_vendor_commands d) in
  match update_commands (fun i _ => bool_decide (i ∈ selected.*1)) (replayed_command (ch_now ch)) d with
  | inl err => inl (Wrap "replay all dead vendor commands" err)
  | inr (n, d') => inr (n, d')
  end.

Definition GetLiveCommand (id : uuid) : statement (option PayoutVendorCommand) := fun _ d =>
  inr (scanCommand <$> head (commands_with (fun c => of_request id c && is_live c)
                               (payout_vendor_commands d)), d).

(** ORDER BY attempt DESC LIMIT 1 *)
Definition attempt_ge (a b : uuid * command_row) : Prop := vc_attempt b.2 <= vc_attempt a.2.
#[local] Instance attempt_ge_dec : RelDecision attempt_ge.
Proof. intros a b. unfold attempt_ge. apply _. Defined.
Definition HasDeadCommand (id : uuid) : statement bool := fun _ d =>
  inr (match merge_sort attempt_ge (commands_with (of_request id) (payout_vendor_commands d)) with
       | [] => false
       | kc :: _ => bool_decide (vc_status kc.2 = "dead")
       end, d).
Definition ListTriedVendors (id : uuid) : statement (list string) := fun _ d =>
  inr (remove_dups ((fun kc => vc_vendor kc.2)
         <$> commands_with (of_request id) (payout_vendor_commands d)), d).

(** ** Routing *)
Definition ResolveCandidates (flow : string) (userID : uuid) (currency : string) (amount : Z)
    : statement (list RoutingCandidate) := fun _ d =>
  inr (omap (candidate_of (payout_vendor_gateways d))
         (merge_sort rule_before (filter (fun r => rule_matches flow userID currency amount r = true)
            (map_to_list (payout_routing_rules d)).*2)), d).
Definition GetVendorGateway (vendor : string) : statement (option string) := fun _ d =>
  inr (payout_vendor_gateways d !! vendor, d).

(** ** Administration of the queue and of the routing tables *)
(** ORDER BY created_at, id; a limit outside 1..100 is 50, a negative offset 0. *)
Definition oldest_first (a b : uuid * command_row) : Prop :=
  vc_created_at a.2 < vc_created_at b.2 \/ vc_created_at a.2 = vc_created_at b.2 /\ (a.1 <= b.1)%N.
#[export] Instance oldest_first_dec : RelDecision oldest_first.
Proof. intros a b. unfold oldest_first. apply _. Defined.
Definition ListDeadCommands (limit offset : Z) : statement (list PayoutVendorCommand) := fun _ d =>
  let limit := if (limit <=? 0) || (100 <? limit) then 50 else limit in
  let offset := if offset <? 0 then 0 else offset in
  inr (scanCommand <$> take (Z.to_nat limit) (drop (Z.to_nat offset) (merge_sort oldest_first
         (commands_with (fun c => bool_decide (vc_status c = "dead")) (payout_vendor_commands d)))), d).
Definition CountCommandsByStatuses (statuses : list string) : statement (gmap string Z) := fun _ d =>
  let count s := Z.of_nat (length (commands_with (fun c => bool_decide (vc_status c = s))
                                     (payout_vendor_commands d))) in
  inr (list_to_map (filter (fun p => 0 < p.2) ((fun s => (s, count s)) <$> statuses)), d).

Definition priority_le (a b : uuid * RoutingRule) : Prop := rr_Priority a.2 <= rr_Priority b.2.
#[export] Instance priority_le_dec : RelDecision priority_le.
Proof. intros a b. unfold priority_le. apply _. Defined.
Definition ListRules : statement (list (uuid * RoutingRule)) := fun _ d =>
  inr (merge_sort priority_le (map_to_list (payout_routing_rules d)), d).

Definition with_rules (d : payout_db) r :=
  PayoutDb (payout_requests d) (payout_vendor_calls d) (payout_vendor_commands d)
           (payout_vendor_gateways d) r (payout_intake_paused d).
Definition with_gateways (d : payout_db) g :=
  PayoutDb (payout_requests d) (payout_vendor_calls d) (payout_vendor_commands d) g
           (payout_routing_rules d) (payout_intake_paused d).
(** The CHECKs, UNIQUE (flow, priority) and the reference to the gateway. *)
Definition store_rule (id : uuid) (rule : RoutingRule) (d : payout_db) : error + payout_db :=
  if negb (rule_ok "payout" rule) then
    inl (PgError "23514" "violates check constraint")
  else if existsb (fun kr => negb (bool_decide (kr.1 = id))
                    && bool_decide (rr_Flow kr.2 = rr_Flow rule)
                    && (rr_Priority kr.2 =? rr_Priority rule)) (map_to_list (payout_routing_rules d)) then
    inl (PgError "23505" "duplicate key value violates unique constraint")
  else if negb (bool_decide (is_Some (payout_vendor_gateways d !! rr_Vendor rule))) then
    inl (PgError "23503" "violates foreign key constraint")
  else inr (with_rules d (<[id := rule]> (payout_routing_rules d))).
Definition CreateRule (id : uuid) (rule : RoutingRule) : statement unit := fun _ d =>
  if bool_decide (is_Some (payout_routing_rules d !! id)) then
    inl (Wrap "create payout routing rule" (PgError "23505" "duplicate key value violates unique constraint"))
  else match store_rule id rule d with
       | inl err => inl (Wrap "create payout routing rule" err)
       | inr d' => inr (tt, d')
       end.
Definition UpdateRule (id : uuid) (rule : RoutingRule) : statement unit := fun _ d =>
  if bool_decide (is_Some (payout_routing_rules d !! id)) then
    match store_rule id rule d with inl err => inl err | inr d' => inr (tt, d') end
  else inl ErrNotFound.
Definition UpsertVendorGateway (vendor gateway : string) : statement unit := fun _ d =>
  inr (tt, with_gateways d (<[vendor := gateway]> (payout_vendor_gateways d))).
End commands.
