(* ===== verification/LedgerApi.v ===== *)
(** * What the ledger promises the services that post to it

    The interface between the posting service and its clients (payout, payin,
    gateway), reached through contracts/clients/ledger: the observable state of
    a ledger and the laws of a Post call, whatever its answer.  [LedgerService]
    discharges it with the posting service itself; [SpecLedger] is the smallest
    state that satisfies it, and runs. *)
From stdpp Require Import prelude gmap strings list.
From S2P Require Import Prelude Decimal Errors Processors.
Open Scope Z_scope.

(** Types that close the transaction they refer to, so that it cannot be closed
    a second time. *)
Definition closing_types : list string :=
  ["withdraw_settle"; "withdraw_cancel"; "withdraw_pending_settle"; "withdraw_pending_cancel";
   "escrow_release"; "escrow_refund"; "refund"; "reversal"].

Class PostingLedger `{DEC : !Decimal} := {
  lstate : Type;
  lok : lstate -> Prop;                                   (* well formed *)
  keyed : lstate -> string -> string -> uuid -> Prop;     (* header of a key and scope *)
  is_posted : lstate -> uuid -> Prop;
  closer : lstate -> uuid -> option uuid;
  (* one call, with its answer: the answer may be lost after the effect *)
  post : Command -> lstate -> option error -> lstate -> Prop;
  post_lok c l r l' : lok l -> post c l r l' -> lok l';
  keyed_stable c l r l' k sc tx : lok l -> post c l r l' -> keyed l k sc tx -> keyed l' k sc tx;
  posted_stable c l r l' tx : lok l -> post c l r l' -> is_posted l tx -> is_posted l' tx;
  closer_stable c l r l' o tx :
    lok l -> post c l r l' -> closer l o = Some tx -> closer l' o = Some tx;
  keyed_unique l k sc tx tx' : lok l -> keyed l k sc tx -> keyed l k sc tx' -> tx = tx';
  keyed_key l k sc k' sc' tx : lok l -> keyed l k sc tx -> keyed l k' sc' tx -> k = k' /\ sc = sc';
  (* success means posted under the command's own key *)
  post_success c l l' : lok l -> post c l None l' ->
    exists tx, keyed l' (IdempotencyKey c) (IdempotencyScope c) tx /\ is_posted l' tx;
  (* whatever a call posts is its own command, and closes what it refers to *)
  post_new c l r l' tx : lok l -> post c l r l' -> is_posted l' tx ->
    (is_posted l tx /\ forall k sc, keyed l' k sc tx -> keyed l k sc tx) \/
    (keyed l' (IdempotencyKey c) (IdempotencyScope c) tx /\
     (Type_ c ∈ closing_types -> closer l' (ReferenceID c) = Some tx));
}.
Arguments PostingLedger {DEC}.

(** ** How a ledger evolves *)
Section growth.
Context `{DEC : !Decimal} `{LED : !PostingLedger}.
Implicit Types l : lstate.
(** The ledger only grows. *)
Record ledger_le l l' : Prop := {
  ll_keyed k sc tx : keyed l k sc tx -> keyed l' k sc tx;
  ll_posted tx : is_posted l tx -> is_posted l' tx;
  ll_closer o tx : closer l o = Some tx -> closer l' o = Some tx;
}.
#[export] Instance ledger_le_preorder : PreOrder ledger_le.
Proof.
  split.
  - intros l. by split.
  - intros l1 l2 l3 [] []. split; auto.
Qed.
Lemma post_ledger_le c l r l' : lok l -> post c l r l' -> ledger_le l l'.
Proof.
  intros Hl Hp. split; intros *; [by eapply keyed_stable|by eapply posted_stable|by eapply closer_stable].
Qed.
End growth.

(** ** The smallest such ledger: headers under keys, and who closed them *)
Section spec.
Context `{DEC : !Decimal}.

Record spec_ledger := SpecState {
  sl_keys : gmap (string * string) uuid;
  sl_closed : gmap uuid uuid;
  sl_next : uuid;
}.
Definition spec_post (c : Command) (l : spec_ledger) : option error * spec_ledger :=
  let key := (IdempotencyKey c, IdempotencyScope c) in
  match sl_keys l !! key with
  | Some _ => (None, l)
  | None =>
      let tx := sl_next l in
      if bool_decide (Type_ c ∈ closing_types) then
        match sl_closed l !! ReferenceID c with
        | Some _ => (Some (Sentinel ErrAlreadyClosed), l)
        | None => (None, SpecState (<[key := tx]> (sl_keys l))
                                   (<[ReferenceID c := tx]> (sl_closed l)) (N.succ tx))
        end
      else (None, SpecState (<[key := tx]> (sl_keys l)) (sl_closed l) (N.succ tx))
  end.
(** The answer may be replaced by an error on its way back. *)
Definition spec_outcome (c : Command) (l : spec_ledger) (r : option error) (l' : spec_ledger) : Prop :=
  l' = (spec_post c l).2 /\ (r = (spec_post c l).1 \/ exists e, r = Some e) \/
  l' = l /\ exists e, r = Some e.

Definition spec_ok (l : spec_ledger) : Prop :=
  (forall k tx, sl_keys l !! k = Some tx -> (tx < sl_next l)%N) /\
  (forall k k' tx, sl_keys l !! k = Some tx -> sl_keys l !! k' = Some tx -> k = k').

Lemma spec_post_cases c l :
  (spec_post c l).2 = l \/
  sl_keys l !! (IdempotencyKey c, IdempotencyScope c) = None /\ (spec_post c l).1 = None /\
  sl_keys (spec_post c l).2 = <[(IdempotencyKey c, IdempotencyScope c) := sl_next l]> (sl_keys l) /\
  sl_next (spec_post c l).2 = N.succ (sl_next l) /\
  (forall o tx, sl_closed l !! o = Some tx -> sl_closed (spec_post c l).2 !! o = Some tx) /\
  (Type_ c ∈ closing_types -> sl_closed (spec_post c l).2 !! ReferenceID c = Some (sl_next l)).
Proof.
  unfold spec_post. destruct (sl_keys l !! _) as [tx|] eqn:E; [by left|].
  case_bool_decide as Ht; [destruct (sl_closed l !! ReferenceID c) eqn:Ec; [by left|]|]; right;
    simpl; split_and!; try done.
  - intros o tx Ho. rewrite lookup_insert_ne; [done|]. congruence.
  - intros _. by rewrite lookup_insert_eq.
Qed.

Lemma spec_outcome_cases c l r l' :
  spec_outcome c l r l' ->
  l' = l /\ (r = None -> is_Some (sl_keys l !! (IdempotencyKey c, IdempotencyScope c))) \/
  l' = (spec_post c l).2 /\ sl_keys l !! (IdempotencyKey c, IdempotencyScope c) = None /\
  sl_keys l' = <[(IdempotencyKey c, IdempotencyScope c) := sl_next l]> (sl_keys l) /\
  sl_next l' = N.succ (sl_next l) /\
  (forall o tx, sl_closed l !! o = Some tx -> sl_closed l' !! o = Some tx) /\
  (Type_ c ∈ closing_types -> sl_closed l' !! ReferenceID c = Some (sl_next l)).
Proof.
  intros [[-> Hr]|[-> [e ->]]]; [|by left].
  destruct (spec_post_cases c l) as [E|(H1 & H2 & H3 & H4 & H5 & H6)]; [left|by right].
  split; [done|]. intros ->. destruct Hr as [Hr|[? [=]]]. unfold spec_post in E, Hr.
  destruct (sl_keys l !! _) as [tx|] eqn:Ek; [done|].
  case_bool_decide; [destruct (sl_closed l !! _); [done|]|];
    apply (f_equal sl_next) in E; simpl in E; lia.
Qed.

#[export] Program Instance SpecLedger : PostingLedger := {|
  lstate := spec_ledger;
  lok := spec_ok;
  keyed l k sc tx := sl_keys l !! (k, sc) = Some tx;
  is_posted l tx := exists k, sl_keys l !! k = Some tx;
  closer l o := sl_closed l !! o;
  post := spec_outcome;
|}.
Next Obligation.
  intros c l r l' [Hlt Hinj] [[-> _]|(_ & Hn & Ek & En & _)]%spec_outcome_cases; [done|].
  split; rewrite Ek, ?En.
  - intros k tx [[<- <-]|[_ Hk%Hlt]]%lookup_insert_Some; lia.
  - intros k k' tx [[<- <-]|[Hne Hk]]%lookup_insert_Some [[<- E]|[Hne' Hk']]%lookup_insert_Some;
      [done| | |by eapply Hinj].
    + apply Hlt in Hk'. lia.
    + subst tx. apply Hlt in Hk. lia.
Qed.
Next Obligation.
  intros c l r l' k sc tx _ [[-> _]|(_ & Hn & Ek & _)]%spec_outcome_cases Hk; [done|].
  rewrite Ek, lookup_insert_ne; [done|]. congruence.
Qed.
Next Obligation.
  intros c l r l' tx _ [[-> _]|(_ & Hn & Ek & _)]%spec_outcome_cases [k Hk]; [by exists k|].
  exists k. rewrite Ek, lookup_insert_ne; [done|]. congruence.
Qed.
Next Obligation.
  intros c l r l' o tx _ [[-> _]|(_ & _ & _ & _ & Hc & _)]%spec_outcome_cases Ho; [done|]. by apply Hc.
Qed.
Next Obligation. simpl. congruence. Qed.
Next Obligation. intros l k sc k' sc' tx [_ Hinj] H1 H2. by injection (Hinj _ _ _ H1 H2). Qed.
Next Obligation.
  intros c l l' _ [[-> Hr]|(_ & _ & Ek & _)]%spec_outcome_cases.
  - destruct (Hr eq_refl) as [tx Htx]. eauto.
  - exists (sl_next l). rewrite Ek. split; [|eexists]; by rewrite lookup_insert_eq.
Qed.
Next Obligation.
  intros c l r l' tx [Hlt _] [[-> _]|(_ & _ & Ek & _ & _ & Hc)]%spec_outcome_cases [k Hk];
    [left; split; [by exists k|done]|].
  rewrite Ek in *. apply lookup_insert_Some in Hk as [[<- <-]|[_ Hk]]; [right|left].
  - rewrite lookup_insert_eq. done.
  - split; [by exists k|]. intros k' sc [[_ <-]|[_ H]]%lookup_insert_Some; [|done].
    apply Hlt in Hk. lia.
Qed.
End spec.
