(* ===== verification/LedgerService.v ===== *)
(** * The posting service keeps the ledger's promises

    [PostingLedger] discharged by [Handle]: a ledger's state is its database, a
    call is one run of [Handle] whose answer may be lost or replaced by an error
    on its way back.  What a client proves against the interface therefore holds
    of the posting engine itself.
    Then its errors across the wire: mapError and FromStatus. *)
From stdpp Require Import prelude gmap strings list.
From S2P Require Import Prelude Decimal Errors Currency Events Store TxRepo Repos AccountRepo Fee Processors.
From S2P Require Import Handle Frames Lawful Postings Invariant Engine Outcome Components Effects LedgerApi.
Open Scope Z_scope.
(** The keyed hash does not collide. *)
Class CollisionFree `{HASH : !Hashing} : Prop :=
  hmac_inj k x y : hmac_sha256 k x = hmac_sha256 k y -> x = y.

Section service.
Context `{DEC : !Decimal} `{UT : !UuidText} `{HASH : !Hashing} `{CF : !CollisionFree}.
Context (s : Service) `{!LawfulService s} `{!LawfulRegistry (registry_ s)}.

(** A message of the transport is far below 4 GiB. *)
Definition transmissible (key scope : string) : Prop := len key < 4294967296 /\ len scope < 4294967296.

Definition digest_of (scope : option string) (key : string) : string :=
  (Digest (digestRing s) (canonicalIdempotencyInput scope key)).1.
Lemma digest_of_inj sc sc' k k' :
  transmissible k sc -> transmissible k' sc' ->
  digest_of (stringPtr sc) k = digest_of (stringPtr sc') k' -> k = k' /\ sc = sc'.
Proof.
  assert (E : forall x, default EmptyString (stringPtr x) = x) by (intros x; unfold stringPtr; by case_bool_decide).
  intros [? ?] [? ?] [Hs Hk]%hmac_inj%canonical_inj; rewrite ?E in *; done.
Qed.

Definition key_of (l : database) (key scope : string) (tx : uuid) : Prop :=
  transmissible key scope /\ exists t, ledger_transactions l !! tx = Some t /\
    t_key_digest t = Some (digest_of (stringPtr scope) key).
(** A transaction is posted when it has entries. *)
Definition has_entries (l : database) (tx : uuid) : Prop :=
  exists e, e ∈ ledger_entries l /\ e_transaction_id e = tx.

Record ledger_ok (l : database) : Prop := {
  lo_wf : wf_ledger l;
  lo_unique : keys_unique l;
  (* raw keys, where a header still has one, agree with the digest *)
  lo_raw id t k : ledger_transactions l !! id = Some t -> t_idempotency_key t = Some k ->
    t_key_digest t = Some (digest_of (t_idempotency_scope t) k);
  lo_posted id t : ledger_transactions l !! id = Some t -> t_status t = "posted" -> has_entries l id;
  lo_header id : has_entries l id -> is_Some (ledger_transactions l !! id);
}.

Definition service_call (c : Command) (l : database) (r : option error) (l' : database) : Prop :=
  (l' = l /\ is_Some r) \/
  transmissible (IdempotencyKey c) (IdempotencyScope c) /\
  exists w res w', w_db w = l /\ w_db w' = l' /\ Handle s c w = (res, w') /\ (r = None -> res = Ok tt).

(** *** What one committed transaction changes *)
Inductive call_effect (c : Command) (l l' : database) : Prop :=
  | ce_none : l' = l -> call_effect c l l'
  | ce_tx p rc tx res :
      LawfulProcessor p -> resolves c rc -> committed s p rc tx l l' res ->
      transmissible (IdempotencyKey c) (IdempotencyScope c) -> call_effect c l l'.

Lemma service_call_effect c l r l' : ledger_ok l -> service_call c l r l' -> call_effect c l l'.
Proof.
  intros Hok [[-> _]|(Ht & w & res & w' & <- & <- & H & _)]; [by left|].
  apply (Handle_step s c w res w') in H as [->|(p & rc & tx & res' & Hp & Hrc & Hc & _)];
    [by left| |apply Hok]. right with p rc tx res'; try done. by eapply lr_processor.
Qed.

Lemma posting_entries l l' tx rows id :
  posting l l' tx rows -> has_entries l' id <-> has_entries l id \/ id = tx.
Proof.
  intros P. unfold has_entries. rewrite (po_entries _ _ _ _ P). setoid_rewrite elem_of_app. split.
  - intros (e & [He|He] & <-); [eauto|right]. by apply (po_rows _ _ _ _ P).
  - intros [(e & He & <-)| ->]; [eauto|].
    destruct rows as [|e rest]; [by destruct (po_nonempty _ _ _ _ P)|].
    exists e. split; [right; left|]. apply (po_rows _ _ _ _ P). left.
Qed.
Lemma posting_was_fresh l l' tx rows : posting l l' tx rows -> ~ has_entries l tx.
Proof.
  intros P (e & He & E). pose proof (po_fresh _ _ _ _ P) as Hf. unfold entries_of_tx in Hf.
  by apply (filter_nil_not_elem_of _ _ e Hf) in E.
Qed.

Section effect.
Context (c : Command) (l l' : database) (Hok : ledger_ok l) (He : call_effect c l l').

Lemma effect_entries id :
  has_entries l' id -> has_entries l id \/
  exists p rc, LawfulProcessor p /\ resolves c rc /\ committed s p rc id l l' None /\
    transmissible (IdempotencyKey c) (IdempotencyScope c).
Proof.
  destruct He as [->|p rc tx [err|] Lp Hrc Hc Ht]; [by left|..].
  - destruct (committed_rejected _ _ _ _ _ _ _ Hc) as (_ & _ & E & _). unfold has_entries. rewrite E. by left.
  - destruct (committed_posting _ _ _ _ _ _ Hc) as [rows P].
    rewrite (posting_entries _ _ _ _ _ P). intros [?| ->]; [by left|right].
    by exists p, rc.
Qed.
Lemma effect_entries_kept id : has_entries l id -> has_entries l' id.
Proof.
  destruct He as [->|p rc tx [err|] Lp Hrc Hc Ht]; [done|..].
  - destruct (committed_rejected _ _ _ _ _ _ _ Hc) as (_ & _ & E & _). unfold has_entries. by rewrite E.
  - destruct (committed_posting _ _ _ _ _ _ Hc) as [rows P]. rewrite (posting_entries _ _ _ _ _ P). by left.
Qed.
Lemma effect_header id t : ledger_transactions l !! id = Some t ->
  exists t', ledger_transactions l' !! id = Some t' /\ same_header t t' /\ closed_once t t' /\
    (t_status t' = "posted" -> t_status t = "posted").
Proof.
  intros Ht. destruct He as [->|p rc tx res Lp Hrc Hc _]; [exists t; split_and!; [done|reflexivity|by intros ?|done]|].
  destruct (te_kept _ _ _ (co_evolves _ _ _ _ _ _ _ Hc) id t Ht) as (t' & Ht' & Hh & Hcl & Ho).
  exists t'. split_and!; [done..|]. intros Hs. destruct Ho as [[? _]|(_ & _ & ? & _)]; [|congruence..].
  intros ->. by rewrite (co_fresh _ _ _ _ _ _ _ Hc) in Ht.
Qed.
Lemma effect_old_header id t' : ledger_transactions l' !! id = Some t' ->
  (exists t, ledger_transactions l !! id = Some t /\ same_header t t' /\
     (t_status t' = "posted" -> t_status t = "posted")) \/
  t_idempotency_key t' = Some (IdempotencyKey c) /\ t_idempotency_scope t' = stringPtr (IdempotencyScope c) /\
  t_key_digest t' = Some (digest_of (stringPtr (IdempotencyScope c)) (IdempotencyKey c)) /\
  ~ is_Some (ledger_transactions l !! id) /\ (t_status t' = "posted" -> has_entries l' id).
Proof.
  intros Ht'. destruct (ledger_transactions l !! id) as [t|] eqn:Ht.
  { left. apply effect_header in Ht as (t2 & Ht2 & ? & _ & ?). rewrite Ht' in Ht2.
    injection Ht2 as <-. eauto. }
  right. destruct He as [->|p rc tx res Lp Hrc Hc _]; [congruence|].
  destruct (te_new _ _ _ (co_evolves _ _ _ _ _ _ _ Hc) _ _ Ht') as [->|[? ?]]; [|congruence].
  destruct (co_header _ _ _ _ _ _ _ Hc) as (z & t2 & _ & _ & Ht2 & Hh & Hst).
  rewrite Ht' in Ht2. injection Ht2 as <-.
  destruct Hh as (Ek & Es & _ & _ & _ & _ & _ & _ & _ & _ & Ed & _).
  rewrite Ek, Es, Ed. simpl. unfold key_digest, digest_of.
  rewrite (rs_key _ _ Hrc), (rs_scope _ _ Hrc). split_and!; [done..|by intros []|].
  intros Hp. destruct res as [err|]; [destruct Hst; congruence|].
  destruct (committed_posting _ _ _ _ _ _ Hc) as [rows P]. apply (posting_entries _ _ _ _ _ P). by right.
Qed.

Lemma effect_ok : ledger_ok l'.
Proof.
  split.
  - destruct He as [->|p rc tx res Lp Hrc Hc _]; [apply Hok|].
    eapply ledger_step_wf; [by eapply committed_step|apply Hok].
  - destruct He as [->|p rc tx res Lp Hrc Hc _]; [apply Hok|].
    eapply committed_keys_unique; [done|apply Hok].
  - intros id t k [(t0 & Ht0 & (Ek & Es & _ & _ & _ & _ & _ & _ & _ & _ & Ed & _) & _)
      |(Ek & Es & Ed & _)]%effect_old_header.
    + rewrite Ek, Es, Ed. by apply (lo_raw _ Hok id).
    + rewrite Ek, Es, Ed. by intros [= <-].
  - intros id t [(t0 & Ht0 & _ & Hst)|(_ & _ & _ & _ & Hst)]%effect_old_header; [|done].
    intros Hp. eapply effect_entries_kept, (lo_posted _ Hok); eauto.
  - intros id [Hid|(p & rc & _ & _ & Hc & _)]%effect_entries.
    + destruct (lo_header _ Hok id Hid) as [t Ht]. apply effect_header in Ht as (t' & Ht' & _). eauto.
    + destruct (co_header _ _ _ _ _ _ _ Hc) as (z & t & _ & _ & Ht & _). eauto.
Qed.
Lemma effect_keyed k sc tx : key_of l k sc tx -> key_of l' k sc tx.
Proof.
  intros [Hk (t & Ht & Hd)]. split; [done|]. apply effect_header in Ht as (t' & Ht' & Hh & _).
  exists t'. split; [done|]. destruct Hh as (_ & _ & _ & _ & _ & _ & _ & _ & _ & _ & Ed & _). congruence.
Qed.
Lemma effect_keyed_back k sc tx : has_entries l tx -> key_of l' k sc tx -> key_of l k sc tx.
Proof.
  intros [t Ht]%(lo_header _ Hok) [Hk (t' & Ht' & Hd)]. split; [done|]. exists t. split; [done|].
  apply effect_header in Ht as (t2 & Ht2 & Hh & _). rewrite Ht' in Ht2. injection Ht2 as <-.
  destruct Hh as (_ & _ & _ & _ & _ & _ & _ & _ & _ & _ & Ed & _). congruence.
Qed.
End effect.

(** *** Closing *)
Definition closer_of (l : database) (o : uuid) : option uuid :=
  ledger_transactions l !! o ≫= t_closed_by.
Lemma committed_closer p rc tx d d' reason :
  committed s p rc tx d d' None -> lifecycleCloseReason !! Type_ (rc_Command rc) = Some reason ->
  closer_of d' (ReferenceID (rc_Command rc)) = Some tx.
Proof.
  intros [_ _ _ _ (amount & d1 & rc1 & d2 & _ & Hf & bal & es & rows & Hp)] Hl.
  apply fee_applied_command in Hf as (_ & _ & Eref & Ety & _).
  destruct (pb_written _ _ _ _ _ _ _ _ Hp) as (d3 & d4 & _ & Hcl & _ & W).
  unfold closed_original in Hcl. rewrite Ety, Hl, Eref in Hcl. destruct Hcl as (t3 & _ & _ & ->).
  unfold closer_of. rewrite (wr_header _ _ _ _ _ _ W). simpl.
  destruct (decide (ReferenceID (rc_Command rc) = tx)) as [->|Hne];
    [rewrite lookup_alter_eq|rewrite lookup_alter_ne by done]; by rewrite lookup_insert_eq.
Qed.
Lemma closing_types_close c : Type_ c ∈ closing_types -> is_Some (lifecycleCloseReason !! Type_ c).
Proof.
  unfold closing_types. intros H. repeat (apply elem_of_cons in H as [->|H]; [by vm_compute; eexists|]).
  by apply not_elem_of_nil in H.
Qed.

(** ** The laws *)
Program Definition HandleLedger : PostingLedger := {|
  lstate := database;
  lok := ledger_ok;
  keyed := key_of;
  is_posted := has_entries;
  closer := closer_of;
  post := service_call;
|}.
Next Obligation. intros c l r l' Hok H%service_call_effect; [|done]. by eapply effect_ok. Qed.
Next Obligation. intros c l r l' k sc tx Hok H%service_call_effect; [|done]. by apply (effect_keyed c l l'). Qed.
Next Obligation. intros c l r l' tx Hok H%service_call_effect; [|done]. by apply (effect_entries_kept c l l'). Qed.
Next Obligation.
  intros c l r l' o tx Hok H%service_call_effect; [|done]. unfold closer_of.
  intros (t & Ht & Hc)%bind_Some. apply (effect_header c l l' H) in Ht as (t' & Ht' & _ & Hcl & _).
  rewrite Ht'. simpl. destruct Hcl as [Hcl _]; [by eexists|congruence].
Qed.
Next Obligation.
  intros l k sc tx tx' Hok [_ (t & Ht & Hd)] [_ (t' & Ht' & Hd')]. by eapply (lo_unique _ Hok).
Qed.
Next Obligation.
  intros l k sc k' sc' tx _ [Hk (t & Ht & Hd)] [Hk' (t' & Ht' & Hd')].
  apply digest_of_inj; [done..|]. congruence.
Qed.
Next Obligation.
  intros c l l' Hok Hp. pose proof (service_call_effect _ _ _ _ Hok Hp) as He.
  destruct Hp as [[_ [? ?]]|(Htr & w & res & w' & <- & <- & H & Hres)]; [done|].
  rewrite Hres in H by done. apply (Handle_success s c w w' (wf_range _ (lo_wf _ Hok)))
    in H as (rc & Hrc & id & t & Ht & Hst & Hd & _). pose proof (effect_ok _ _ _ Hok He) as Hok'. exists id. split.
  - split; [done|]. exists t. split; [done|]. unfold key_digest in Hd.
    rewrite (rs_key _ _ Hrc), (rs_scope _ _ Hrc) in Hd. destruct Hd as [Hd|[Hk Hs]]; [done|].
    apply (lo_raw _ Hok' _ _ _ Ht) in Hk. by rewrite Hk, Hs.
  - by eapply (lo_posted _ Hok').
Qed.
Next Obligation.
  intros c l r l' tx Hok He%service_call_effect Ht; [|done].
  destruct (effect_entries c l l' He tx Ht) as [Hold|(p & rc & _ & Hrc & Hc & Htr)]; [left|right].
  - split; [done|]. intros k sc. by apply (effect_keyed_back c l l').
  - split.
    + split; [done|]. destruct (co_header _ _ _ _ _ _ _ Hc) as (z & t & _ & _ & Htx & Hh & _).
      exists t. split; [done|]. destruct Hh as (_ & _ & _ & _ & _ & _ & _ & _ & _ & _ & -> & _).
      simpl. unfold key_digest, digest_of. by rewrite (rs_key _ _ Hrc), (rs_scope _ _ Hrc).
    + intros [reason Hl]%closing_types_close. rewrite <- (rs_type _ _ Hrc) in Hl.
      rewrite <- (rs_reference _ _ Hrc). by eapply committed_closer.
Qed.
End service.

(** errors.As(err, &ledgerError): the code of the first LedgerError of the chain. *)
Fixpoint as_ledger_error (e : error) : option sentinel :=
  match e with
  | LedgerError s _ => Some s
  | Wrap _ e' | Wrap2 _ e' => as_ledger_error e'
  | _ => None
  end.

(** ** The server: mapError *)
Inductive grpc_code := Aborted | FailedPrecondition | NotFound | InvalidArgument | Internal.
(** A status, with the reason of its ErrorInfo when it carries one of the ledger's. *)
Record grpc_status := GrpcStatus { st_code : grpc_code; st_reason : option sentinel }.

Definition not_found_sentinels : list sentinel :=
  [ErrAccountNotFound; ErrCurrencyAccountMissing; ErrTransactionNotFound; ErrOriginalNotFound;
   ErrOutboxEventNotFound; ErrPendingAdjustmentNotFound; ErrReconBatchNotFound; ErrReconItemNotFound;
   ErrScheduledTransactionNotFound; ErrFXQuoteNotFound; ErrFXConversionNotFound; ErrFXRateNotFound].
Definition isNotFound (err : error) : bool := existsb (errors_is err) not_found_sentinels.

Definition business_reasons : list sentinel :=
  [ErrCurrencyInvalid; ErrCurrencyDisabled; ErrCurrencyOperationDisabled; ErrCurrencyNotEnabled;
   ErrCurrencyAccountMissing; ErrCurrencyAccountInactive; ErrCurrencySystemAccountMissing;
   ErrCurrencyRouteUnavailable; ErrCurrencyLimitExceeded; ErrCrossCurrencyTransferRequiresFX;
   ErrInsufficientFunds; ErrAccountSuspended; ErrAccountClosed; ErrSubjectDisabled; ErrKYCRequired;
   ErrKYCExpired; ErrCurrencyMismatch; ErrFXQuoteExpired; ErrFXQuoteAlreadyConsumed;
   ErrFXQuoteMismatch; ErrFXRateUnavailable; ErrFXRateApprovalConflict; ErrFXPairUnavailable;
   ErrFXDirectionDisabled; ErrFXConversionsPaused; ErrFXTargetAmountZero; ErrFXRateInvalid;
   ErrFXPositionLimitExceeded; ErrMoneyOverflow].
Definition businessReason (err : error) : sentinel :=
  default ErrValidation (head (filter (fun s => errors_is err s = true) business_reasons)).

Definition mapError (err : error) : grpc_status :=
  if errors_is err ErrAlreadyClosed then GrpcStatus Aborted (Some ErrAlreadyClosed)
  else match as_ledger_error err with
  | Some code => GrpcStatus FailedPrecondition (Some code)
  | None =>
      if isNotFound err then GrpcStatus NotFound None
      else if errors_is err ErrValidation || errors_is err ErrCurrencyInvalid
              || errors_is err ErrEmptyIdempotencyKey then GrpcStatus InvalidArgument None
      else if IsBusinessRejection err then GrpcStatus FailedPrecondition (Some (businessReason err))
      else GrpcStatus Internal None
  end.

(** ** The client: FromStatus *)
Definition FromStatus (st : grpc_status) : error :=
  match st_reason st, st_code st with
  | Some reason, Aborted =>
      if bool_decide (reason = ErrAlreadyClosed) then Sentinel ErrAlreadyClosed else Plain "grpc status"
  | Some reason, FailedPrecondition => LedgerError reason EmptyString
  | _, _ => Plain "grpc status"
  end.
(** What a client makes of an error the ledger returns. *)
Definition received (err : error) : error := FromStatus (mapError err).

(** ** What survives the wire *)
Lemma business_reason_closed err : errors_is err ErrAlreadyClosed = false -> businessReason err <> ErrAlreadyClosed.
Proof.
  intros He Hr. unfold businessReason in Hr. destruct (head _) as [s|] eqn:E; simpl in Hr; [subst s|done].
  apply head_Some_elem_of, list_elem_of_filter in E as [E _]. congruence.
Qed.
(** A close that lost its race is still recognised by the client, and nothing else
    is taken for one. *)
Lemma received_already_closed err :
  errors_is (received err) ErrAlreadyClosed = true <-> errors_is err ErrAlreadyClosed = true.
Proof.
  unfold received, mapError. destruct (errors_is err ErrAlreadyClosed) eqn:Ec; [done|].
  split; [|done]. destruct (as_ledger_error err) as [s|] eqn:Ea.
  - assert (E : errors_is err s = true).
    { clear Ec. revert Ea. induction err; simpl; intros Ea; try done.
      - injection Ea as ->. by apply bool_decide_eq_true.
      - by apply IHerr.
      - apply orb_true_iff. right. by apply IHerr. }
    simpl. intros Hs%bool_decide_eq_true. by rewrite <- Hs, Ec in E.
  - destruct (isNotFound err); [done|]. destruct (_ || _); [done|].
    destruct (IsBusinessRejection err); [|done]. simpl. intros H%bool_decide_eq_true.
    by destruct (business_reason_closed err Ec).
Qed.
(** A client sees a business failure only where the ledger rejected the command:
    an infrastructure failure never reaches it as one. *)
Lemma received_business err code :
  as_ledger_error (received err) = Some code -> is_Some (as_ledger_error err) \/ IsBusinessRejection err = true.
Proof.
  unfold received, mapError. repeat (case_match; simpl; try done); [left; eauto|by right].
Qed.
