(* ===== verification/PayoutFlow.v ===== *)
(** * Payout orchestration: services/payout/internal/payout

    orchestrate.go, relay.go, routing.go, merchant.go and the callback handler of
    payout.go.  The handlers are written as sequences of calls to what lies
    outside the process (database statements, the ledger, vendors, the breaker,
    screening), each with every answer it can get, whose interleavings with other replicas and crashes are the steps of
    PayoutInv. *)
From Stdlib Require Import Ascii String.
From stdpp Require Import prelude gmap strings list.
From S2P Require Import Prelude Decimal Errors Currency Processors Flow VendorRouting PayoutRepo VendorCommands.
Open Scope Z_scope.

(** ** contracts/vendorgw *)
Record PayoutResult := MkPayoutResult { res_VendorRef : string; res_Status : string; res_Reason : string }.
Definition PayoutSettled : string := "settled".
Definition PayoutPending : string := "pending".
Definition PayoutFailed : string := "failed".

Definition VendorCallAccepted : string := "accepted".
Definition VendorCallRejected : string := "rejected".
Definition VendorCallUncertain : string := "uncertain".

(** ** errors.go *)
Definition ErrUnknownVendor : error := Plain "payout: unknown vendor".
Definition ErrInvalidTransition : error := Plain "payout: invalid transition for current status".
Definition PayoutErrInvalidAmount : error := Plain "payout: invalid minor-unit amount".
Definition PayoutErrCurrencyRoute : error :=
  LedgerError ErrCurrencyRouteUnavailable "no payout route declares the requested currency".
Definition ErrNoRoute : error := Plain "payout: no route".
Definition ErrNoVendorAvailable : error := Plain "payout: no vendor available".
Definition PayoutErrScreeningBlocked : error := Plain "payout: screening blocked".
Definition ErrScreeningDependencyUnavailable : error := Plain "payout: screening dependency unavailable".
Definition ErrSandboxVendorUnavailable : error := Plain "payout: sandbox vendor unavailable".
Definition ErrIntakePaused : error := Plain "payout intake paused".

(** ** Calls to the outside *)
Section flow.
Context `{DEC : !Decimal} `{UT : !UuidText}.

Inductive op : Type -> Type :=
  | Db {A} (s : statement A) : op (error + A)
  | NewID : op uuid
  | Now : op Z
  | Post (c : Command) : op (option error)
  | GetTransactionByIdempotencyKey (key scope : string) : op (error + uuid)
  | GetUserCurrency (user : uuid) : op (error + string)
  | CurrencyPolicy (currency operation : string) : op (option error)
  | UserCurrencyEnabled (user : uuid) (currency : string) : op (error + bool)
  | ResolveFee (user : uuid) (txType gateway currency : string) (amount : dec)
      : op (error + (dec * string * bool))
  | ConsumeFeeQuote (quote user : uuid) (txType currency : string) (amount : dec) (ref : string)
      : op (error + (dec * string))
  | FraudCheck (user : uuid) (amount : dec) (currency : string) : op screening
  | Submit (vendor : string) (id : uuid) (amount : dec) (currency destination : string)
      : op (error + PayoutResult)
  | Query (vendor : string) (id : uuid) : op (error + PayoutResult)
  | BreakerAllow (vendor : string) : op bool
  | BreakerSuccess (vendor : string) : op unit
  | BreakerFailure (vendor : string) : op unit.

End flow.
Notation prog := (Flow.prog op).

Section payout.
Context `{DEC : !Decimal} `{UT : !UuidText}.

(** The module's fixed configuration; nil collaborators are [false]. *)
Record Module_ := MkModule {
  m_ring : Ring;
  m_registry : gmap string Provider;
  m_breaker : bool;
  m_fraudClient : bool;
  m_validatesCurrency : bool;      (* the poster implements ValidateCurrency *)
  m_readsAccounts : bool;          (* ... and UserCurrencyEnabled *)
  m_db : bool;
}.
Context (m : Module_).
Notation db s := (perform (Db s)).

Definition payoutScope : string := "payout".
Definition holdIdempotencyKey (id : uuid) : string := "payout:" +:+ uuid_string id +:+ ":hold".
Definition settleIdempotencyKey (id : uuid) : string := "payout:" +:+ uuid_string id +:+ ":settle".
Definition cancelIdempotencyKey (id : uuid) : string := "payout:" +:+ uuid_string id +:+ ":cancel".

(** ** Routing: routing.go *)
Fixpoint first_candidate (currency : string) (exclude : list string) (cs : list RoutingCandidate)
    (mismatch capable : bool) : prog (error + (string * string)) :=
  match cs with
  | [] =>
      Ret (inl (if negb (bool_decide (currency = EmptyString)) && negb (bool_decide (currency = "IDR"))
                   && mismatch && negb capable
                then PayoutErrCurrencyRoute else ErrNoVendorAvailable))
  | c :: rest =>
      if bool_decide (cand_Vendor c ∈ exclude) then first_candidate currency exclude rest mismatch capable
      else match m_registry m !! cand_Vendor c with
           | None => first_candidate currency exclude rest mismatch capable
           | Some vendor =>
               if negb (SupportsRequestedCurrency vendor "payout" currency) then
                 first_candidate currency exclude rest true capable
               else
                 let* allowed := if m_breaker m then perform (BreakerAllow (cand_Vendor c))
                                 else Ret true in
                 if (allowed : bool) then Ret (inr (cand_Vendor c, cand_Gateway c))
                 else first_candidate currency exclude rest mismatch true
           end
  end.
Definition ResolvePayoutRoute (userID : uuid) (currency : string) (amount : dec) (exclude : list string)
    : prog (error + (string * string)) :=
  let? candidates := db (ResolveCandidates "payout" userID currency (dec_int_part amount)) in
  match candidates with
  | [] => Ret (inl ErrNoRoute)
  | _ => first_candidate currency exclude candidates false false
  end.

Definition gatewayForVendor (vendor : string) : prog (error + string) :=
  let? mapping := db (GetVendorGateway vendor) in
  match mapping with
  | None => Ret (inl (Plain "payout: vendor has no gateway mapping configured"))
  | Some gateway => Ret (inr gateway)
  end.

(** ** Holding, settling, cancelling: orchestrate.go *)
Definition currency_inflight : metadata := {["currency_inflight" := MBool true]}.
Definition ledger_command (key type_ : string) (req : PayoutRequest) (reference : uuid)
    (meta : metadata) (merchantType : string) : Command :=
  let merchant := negb (bool_decide (pr_MerchantTenantID req = uuid_Nil)) in
  {| IdempotencyKey := key; IdempotencyScope := payoutScope;
     Type_ := if merchant then merchantType else type_; Amount := pr_Amount req;
     UserID := if merchant then uuid_Nil else pr_UserID req; TargetUserID := uuid_Nil;
     PocketCode := EmptyString; Currency_ := pr_Currency req; ReferenceID := reference;
     Metadata := meta; QuoteID := EmptyString;
     MerchantTenantID := if merchant then pr_MerchantTenantID req else uuid_Nil |}.

Definition hold (req : PayoutRequest) : prog (error + unit) :=
  let key := holdIdempotencyKey (pr_ID req) in
  let cmd := ledger_command key "withdraw_initiate" req uuid_Nil currency_inflight
                            "merchant_payout_hold" in
  let* err := perform (Post cmd) in
  match err with
  | Some err => Ret (inl err)
  | None =>
      let? tx := pwrap "resolve hold tx id" (perform (GetTransactionByIdempotencyKey key payoutScope)) in
      let? _ := pwrap "transition to held" (db (TransitionToHeld (pr_ID req) tx)) in
      ok
  end.

Definition classifySubmitOutcome (r : error + PayoutResult) : string :=
  match r with
  | inl _ => VendorCallUncertain
  | inr result => if bool_decide (res_Status result = PayoutFailed) then VendorCallRejected
                  else VendorCallAccepted
  end.
Definition classifyQueryOutcome (r : error + PayoutResult) : string :=
  match r with inl _ => VendorCallUncertain | inr _ => VendorCallAccepted end.

Definition mayFailover (calls : list PayoutVendorCall) : bool :=
  forallb (fun c => negb (bool_decide (pvc_Outcome c = VendorCallAccepted)
                          || bool_decide (pvc_Outcome c = VendorCallUncertain))) calls.

Definition enqueueSubmit (id : uuid) (vendor : string) : prog (error + unit) :=
  let* newID := perform NewID in
  let? won := pwrap "payout: enqueue initial submit" (db (EnqueueInitialSubmit newID id vendor)) in
  if (won : bool) then ok
  else Ret (inl (Wrap "cannot submit request in current status" ErrInvalidTransition)).
Definition ensureSubmitCommand (id : uuid) (vendor : string) : prog (error + unit) :=
  let* newID := perform NewID in
  let? _ := pwrap "payout: ensure submit command" (db (EnsureSubmitCommand newID id vendor)) in
  ok.

Definition reconcileAfterLostRace (id : uuid) (reason : string) : prog (error + unit) :=
  let? req := pwrap "reconcile after lost race" (db (Get (m_ring m) id)) in
  let* _ := logged (db (SetError id ("lost race to close hold: " +:+ reason))) in
  ok.

(** What settle and cancel do when the ledger refuses. *)
Definition after_refusal (id : uuid) (postErr : error) (text : string) : prog (error + unit) :=
  if errors_is postErr ErrAlreadyClosed then reconcileAfterLostRace id text
  else
    let* _ := logged (db (SetError id text)) in
    Ret (inl postErr).

(** The fee a quote locked in at creation, or the one the rules give now. *)
Definition settle_fee (req : PayoutRequest) : prog (error + (dec * string * bool)) :=
  match pr_FeeQuoteID req with
  | Some _ =>
      match pr_FeeAmount req with
      | Some fee => Ret (inr (fee, pr_FeeGateway req, dec_is_positive fee))
      | None => Ret (inl (Plain "nil dereference"))
      end
  | None => pwrap "payout: resolve fee"
              (perform (ResolveFee (pr_UserID req) "withdraw_settle" EmptyString
                                   (pr_Currency req) (pr_Amount req)))
  end.
Definition settle_metadata (gateway : string) (fee : dec * string * bool) : metadata :=
  let base := <["gateway" := MString gateway]> currency_inflight in
  let '(amount, feeGateway, feeOK) := fee in
  if (feeOK : bool) then <["fee_amount" := MString (dec_string amount)]>
                    (<["fee_gateway" := MString feeGateway]> base)
  else base.

Definition settle (id : uuid) (gateway : string) : prog (error + unit) :=
  let? req := db (Get (m_ring m) id) in
  match pr_HoldTxID req with
  | None => Ret (inl (Plain "payout: settle: request has no hold_tx_id"))
  | Some holdTx =>
      let key := settleIdempotencyKey id in
      let? fee := settle_fee req in
      let cmd := ledger_command key "withdraw_settle" req holdTx (settle_metadata gateway fee)
                                "merchant_payout_settle" in
      let* err := perform (Post cmd) in
      match err with
      | Some postErr => after_refusal id postErr "settle"
      | None =>
          let? tx := pwrap "resolve settle tx id" (perform (GetTransactionByIdempotencyKey key payoutScope)) in
          let? _ := pwrap "transition to settled" (db (TransitionToSettled id tx)) in
          ok
      end
  end.

Definition cancel (id : uuid) (gateway reason : string) : prog (error + unit) :=
  let? req := db (Get (m_ring m) id) in
  match pr_HoldTxID req with
  | None => Ret (inl (Plain "payout: cancel: request has no hold_tx_id"))
  | Some holdTx =>
      let key := cancelIdempotencyKey id in
      let cmd := ledger_command key "withdraw_cancel" req holdTx
                                (<["gateway" := MString gateway]> currency_inflight)
                                "merchant_payout_cancel" in
      let* err := perform (Post cmd) in
      match err with
      | Some postErr => after_refusal id postErr "cancel"
      | None =>
          let? tx := pwrap "resolve cancel tx id" (perform (GetTransactionByIdempotencyKey key payoutScope)) in
          let? _ := pwrap "transition to cancelled" (db (TransitionToCancelled id tx)) in
          let* _ := if bool_decide (reason = EmptyString) then Ret tt
                    else logged (db (SetError id reason)) in
          ok
      end
  end.

Definition recordVendorCall (requestID : uuid) (summary : string) (r : error + PayoutResult)
    (outcome : string) : prog (error + unit) :=
  let* callID := perform NewID in
  let call := MkCall callID requestID 1 summary
                (match r with inl _ => EmptyString | inr result => res_Status result end)
                (match r with inl _ => "error" | inr _ => EmptyString end) outcome in
  pwrap "payout: persist vendor call outcome" (db (InsertVendorCall call)).

(** ** Dispatching one claimed command: relay.go *)
Definition failCommandLogged (commandID : uuid) (cause : string) : prog unit :=
  logged (db (FailCommand commandID cause)).
Definition completeCommandLogged (commandID : uuid) : prog unit :=
  logged (db (CompleteCommand commandID)).

Definition handleAccepted (cmd : PayoutVendorCommand) (req : PayoutRequest) (result : PayoutResult)
    : prog unit :=
  let* gateway := gatewayForVendor (cmd_Vendor cmd) in
  match gateway with
  | inl _ => failCommandLogged (cmd_ID cmd) "gateway"
  | inr gateway =>
      if bool_decide (res_Status result = PayoutSettled) then
        let* err := settle (pr_ID req) gateway in
        match err with
        | inl _ => failCommandLogged (cmd_ID cmd) "settle"
        | inr _ => completeCommandLogged (cmd_ID cmd)
        end
      else if bool_decide (res_Status result = PayoutPending) then
        let* err := db (TransitionToVendorPending (pr_ID req) (res_VendorRef result)) in
        match err with
        | inl _ => failCommandLogged (cmd_ID cmd) "transition"
        | inr _ => completeCommandLogged (cmd_ID cmd)
        end
      else failCommandLogged (cmd_ID cmd) "payout: unknown vendor result status"
  end.

(** No candidate is left after definitive rejections: the hold is returned. *)
Definition return_hold (cmd : PayoutVendorCommand) (req : PayoutRequest) (result : PayoutResult)
    : prog unit :=
  let* gateway := gatewayForVendor (cmd_Vendor cmd) in
  match gateway with
  | inl _ => failCommandLogged (cmd_ID cmd) "gateway"
  | inr gateway =>
      let* err := cancel (pr_ID req) gateway (res_Reason result) in
      match err with
      | inl _ => failCommandLogged (cmd_ID cmd) "cancel"
      | inr _ => completeCommandLogged (cmd_ID cmd)
      end
  end.

(** errors.Is against the two routing sentinels. *)
Definition is_routing_error (err : error) : bool :=
  match err with
  | Plain text => bool_decide (text = "payout: no route")
                  || bool_decide (text = "payout: no vendor available")
  | _ => false
  end.

Definition handleRejected (cmd : PayoutVendorCommand) (req : PayoutRequest) (result : PayoutResult)
    : prog unit :=
  let* calls := db (ListVendorCalls (pr_ID req)) in
  match calls with
  | inl _ => failCommandLogged (cmd_ID cmd) "list vendor calls before failover"
  | inr calls =>
      if negb (mayFailover calls) then completeCommandLogged (cmd_ID cmd)
      else
        let* tried := db (ListTriedVendors (pr_ID req)) in
        match tried with
        | inl _ => failCommandLogged (cmd_ID cmd) "list tried vendors"
        | inr tried =>
            let* route := ResolvePayoutRoute (pr_UserID req) (pr_Currency req) (pr_Amount req) tried in
            match route with
            | inr (nextVendor, _) =>
                let* newID := perform NewID in
                let* won := db (CompleteAndEnqueueFailover newID (pr_ID req) (cmd_ID cmd)
                                  (cmd_Vendor cmd) nextVendor (cmd_Attempt cmd + 1)) in
                match won with
                | inl _ => failCommandLogged (cmd_ID cmd) "enqueue failover"
                | inr won => if (won : bool) then Ret tt else completeCommandLogged (cmd_ID cmd)
                end
            | inl routeErr =>
                if negb (is_routing_error routeErr) then
                  failCommandLogged (cmd_ID cmd) "resolve failover route"
                else return_hold cmd req result
            end
        end
  end.

Definition dispatchOne (cmd : PayoutVendorCommand) : prog unit :=
  let* req := db (Get (m_ring m) (cmd_PayoutRequestID cmd)) in
  match req with
  | inl _ => failCommandLogged (cmd_ID cmd) "load payout request"
  | inr req =>
      if negb (bool_decide (pr_Status req = StatusSubmitted)) then completeCommandLogged (cmd_ID cmd)
      else if bool_decide (m_registry m !! cmd_Vendor cmd = None) then
        failCommandLogged (cmd_ID cmd) "payout: unknown vendor"
      else
        let* r := perform (Submit (cmd_Vendor cmd) (pr_ID req) (pr_Amount req) (pr_Currency req)
                                  (pr_Destination req)) in
        let outcome := classifySubmitOutcome r in
        let* recorded := recordVendorCall (pr_ID req) "submit" r outcome in
        let* _ := if m_breaker m then
                    match r with
                    | inl _ => perform (BreakerFailure (cmd_Vendor cmd))
                    | inr _ => perform (BreakerSuccess (cmd_Vendor cmd))
                    end
                  else Ret tt in
        match recorded with
        | inl _ => failCommandLogged (cmd_ID cmd) "persist vendor call outcome"
        | inr _ =>
            match r with
            | inl _ =>
                let* _ := logged (db (SetError (pr_ID req) "submit")) in
                failCommandLogged (cmd_ID cmd) "submit"
            | inr result =>
                if bool_decide (outcome = VendorCallRejected) then handleRejected cmd req result
                else handleAccepted cmd req result
            end
        end
  end.

Fixpoint dispatch_all (cmds : list PayoutVendorCommand) : prog unit :=
  match cmds with
  | [] => Ret tt
  | cmd :: rest => let* _ := dispatchOne cmd in dispatch_all rest
  end.
Definition DispatchPendingCommands (limit : nat) : prog (error + Z) :=
  let? cmds := pwrap "payout-relay: claim pending commands" (db (ClaimPendingCommands limit)) in
  let* _ := dispatch_all cmds in
  Ret (inr (Z.of_nat (length cmds))).
Definition DispatchFailedCommandsForRetry (limit : nat) : prog (error + Z) :=
  let? cmds := pwrap "payout-relay: claim failed commands for retry"
                 (db (ClaimFailedCommandsForRetry limit)) in
  let* _ := dispatch_all cmds in
  Ret (inr (Z.of_nat (length cmds))).
Definition ReapStuckCommands (olderThan : Z) : prog (error + Z) :=
  pwrap "payout-relay: reap stuck commands" (db (ReapStuckCommands_rows olderThan)).

(** ** Polling, callbacks and operators *)
Definition route_status (id : uuid) (gateway : string) (result : PayoutResult) : prog (error + unit) :=
  if bool_decide (res_Status result = PayoutSettled) then settle id gateway
  else if bool_decide (res_Status result = PayoutFailed) then cancel id gateway (res_Reason result)
  else if bool_decide (res_Status result = PayoutPending) then ok
  else Ret (inl (Plain "payout: unknown vendor result status")).

Definition pollVendorPending (req : PayoutRequest) : prog (error + unit) :=
  if bool_decide (m_registry m !! pr_Vendor req = None) then Ret (inl ErrUnknownVendor)
  else
    let* r := perform (Query (pr_Vendor req) (pr_ID req)) in
    let? _ := recordVendorCall (pr_ID req) "query" r (classifyQueryOutcome r) in
    match r with
    | inl queryErr => Ret (inl queryErr)
    | inr result =>
        let? gateway := gatewayForVendor (pr_Vendor req) in
        route_status (pr_ID req) gateway result
    end.

Definition AdminCancel (id : uuid) (reason : string) : prog (error + unit) :=
  let? req := db (Get (m_ring m) id) in
  if negb (bool_decide (pr_Status req = StatusSubmitted))
     && negb (bool_decide (pr_Status req = StatusVendorPending)) then
    Ret (inl (Wrap "cannot cancel request in status" ErrInvalidTransition))
  else
    let? gateway := gatewayForVendor (pr_Vendor req) in
    cancel id gateway reason.

Definition AdminRetry (id : uuid) : prog (error + unit) :=
  let? req := db (Get (m_ring m) id) in
  if negb (bool_decide (pr_Status req = StatusSubmitted)) then
    Ret (inl (Wrap "cannot retry request in status" ErrInvalidTransition))
  else
    let? live := pwrap "payout: admin retry: get live command" (db (GetLiveCommand id)) in
    match live with
    | Some _ => ok
    | None => ensureSubmitCommand id (pr_Vendor req)
    end.

(** model terminal statuses the callback leaves alone *)
Definition VendorCallbackFinalized : string := "finalized".
Definition VendorCallbackAlreadyFinalized : string := "already_finalized".
Definition VendorCallbackIgnored : string := "ignored_non_terminal".
Definition VendorCallbackRecordedUnmatched : string := "recorded_unmatched".

(** errors.Is(err, repository.ErrNotFound) *)
Definition is_not_found (err : error) : bool :=
  match err with Plain text => bool_decide (text = "payout: request not found") | _ => false end.

Definition HandleVendorCallback (vendor externalReference amountRaw currency status unknownStatus : string)
    : prog (error + string) :=
  match ValidateCode currency with
  | Some err => Ret (inl (Wrap "payout: invalid normalized callback currency" err))
  | None =>
      match dec_of_string amountRaw with
      | None => Ret (inl (Plain "payout: invalid normalized callback amount"))
      | Some amount =>
          if bool_decide (is_Some (ValidatePositiveMinorAmount amount)) then
            Ret (inl (Plain "payout: invalid normalized callback amount"))
          else
            let* found := db (GetByVendorReference (m_ring m) vendor externalReference) in
            match found with
            | inl err => if is_not_found err then Ret (inr VendorCallbackRecordedUnmatched)
                         else Ret (inl err)
            | inr req =>
                if negb (dec_equal (pr_Amount req) amount)
                   || negb (bool_decide (pr_Currency req = currency)) then
                  Ret (inr VendorCallbackRecordedUnmatched)
                else if bool_decide (pr_Status req ∈ [StatusSettled; StatusCancelled; StatusFailed]) then
                  Ret (inr VendorCallbackAlreadyFinalized)
                else if negb (bool_decide (status = "settled")) && negb (bool_decide (status = "failed")) then
                  Ret (inr VendorCallbackIgnored)
                else
                  let? gateway := gatewayForVendor vendor in
                  let? _ := if bool_decide (status = "settled") then settle (pr_ID req) gateway
                            else cancel (pr_ID req) gateway
                                   (if bool_decide (unknownStatus = EmptyString)
                                    then "vendor callback failed" else unknownStatus) in
                  Ret (inr VendorCallbackFinalized)
            end
      end
  end.

(** ** Resuming what a crash left behind *)
(** One pass over the stuck requests of a status: how many went well. *)
Fixpoint resume_all (step : PayoutRequest -> prog (error + unit)) (reqs : list PayoutRequest)
    (counts : Z * Z) : prog (Z * Z) :=
  match reqs with
  | [] => Ret counts
  | req :: rest =>
      let* err := step req in
      resume_all step rest (match err with inl _ => (counts.1, counts.2 + 1)
                            | inr _ => (counts.1 + 1, counts.2) end)
  end.
Definition resume_created (req : PayoutRequest) : prog (error + unit) :=
  let? _ := hold req in enqueueSubmit (pr_ID req) (pr_Vendor req).
Definition resume_held (req : PayoutRequest) : prog (error + unit) :=
  enqueueSubmit (pr_ID req) (pr_Vendor req).
Definition resume_submitted (req : PayoutRequest) : prog (error + unit) :=
  let? live := db (GetLiveCommand (pr_ID req)) in
  match live with
  | Some _ => ok
  | None =>
      let? dead := db (HasDeadCommand (pr_ID req)) in
      if (dead : bool) then ok else ensureSubmitCommand (pr_ID req) (pr_Vendor req)
  end.

Definition resume_status (status : string) (step : PayoutRequest -> prog (error + unit))
    (cutoff : Z) (counts : Z * Z) : prog (error + (Z * Z)) :=
  let? stuck := pwrap "payout: resume: list stuck" (db (ListStuck (m_ring m) status cutoff 100)) in
  let* counts := resume_all step stuck counts in
  Ret (inr counts).
Definition ResumeStuck (olderThan : Z) : prog (error + (Z * Z)) :=
  let* now := perform Now in
  let cutoff := now - olderThan in
  let? c1 := resume_status StatusCreated resume_created cutoff (0, 0) in
  let? c2 := resume_status StatusHeld resume_held cutoff c1 in
  let? c3 := resume_status StatusSubmitted resume_submitted cutoff c2 in
  resume_status StatusVendorPending pollVendorPending cutoff c3.

Definition stuckStatuses : list string :=
  [StatusCreated; StatusHeld; StatusSubmitted; StatusVendorPending].
Definition CountStuck (olderThan : Z) : prog (error + gmap string Z) :=
  let* now := perform Now in
  let? counts := pwrap "payout: count stuck" (db (CountStuck_rows stuckStatuses (now - olderThan))) in
  Ret (inr (list_to_map ((fun s => (s, default 0 (counts !! s))) <$> stuckStatuses))).

(** ** Creating a request *)
Definition ensureIntakeOpen : prog (error + unit) :=
  if negb (m_db m) then ok
  else
    let? paused := pwrap "payout intake control" (db (fun _ d => inr (payout_intake_paused d, d))) in
    if (paused : bool) then Ret (inl ErrIntakePaused) else ok.

Definition check_policy (currency : string) : prog (error + unit) :=
  if m_validatesCurrency m then
    let* err := perform (CurrencyPolicy currency "payout") in
    match err with Some err => Ret (inl (Wrap "payout: currency policy" err)) | None => ok end
  else ok.

Definition resolve_currency (userID : uuid) (requested : string) : prog (error + string) :=
  if bool_decide (requested = EmptyString) then
    pwrap "payout: resolve user currency" (perform (GetUserCurrency userID))
  else match ValidateCode requested with
       | Some err => Ret (inl (Wrap "payout: invalid currency" err))
       | None => Ret (inr requested)
       end.
Definition check_account (userID : uuid) (currency : string) : prog (error + unit) :=
  if m_readsAccounts m then
    let? enabled := pwrap "payout: check currency account" (perform (UserCurrencyEnabled userID currency)) in
    if (enabled : bool) then ok
    else Ret (inl (LedgerError ErrCurrencyNotEnabled "currency account is not enabled"))
  else ok.

(** Fails open on an infrastructure error, closed on a block or when the
    screening service reports its own dependency down. *)
Definition screen (userID : uuid) (amount : dec) (currency : string) : prog (error + unit) :=
  if m_fraudClient m then
    let* verdict := perform (FraudCheck userID amount currency) in
    match verdict with
    | DependencyUnavailable => Ret (inl ErrScreeningDependencyUnavailable)
    | CheckFailed => ok
    | Verdict block reason => if (block : bool) then Ret (inl (Wrap reason PayoutErrScreeningBlocked)) else ok
    end
  else ok.

(** The quote is consumed before any money moves; a request whose quote is
    refused is rejected, and when the rejection itself cannot be recorded the
    failure is only logged. *)
Definition consume_quote (id userID : uuid) (currency quoteID : string) (amount : dec)
    : prog (error + unit) :=
  if bool_decide (quoteID = EmptyString) then ok
  else match uuid_parse quoteID with
       | None =>
           let* _ := logged (db (TransitionToRejected id "quote_id is not a valid UUID")) in
           Ret (inl (Plain "payout: quote_id is not a valid UUID"))
       | Some quote =>
           let* consumed := perform (ConsumeFeeQuote quote userID "withdraw_settle" currency amount
                                       ("payout:" +:+ uuid_string id)) in
           match consumed with
           | inl qerr =>
               let* _ := logged (db (TransitionToRejected id "quote")) in Ret (inl qerr)
           | inr (fee, feeGateway) =>
               let* recorded := db (SetQuotedFee id quote fee feeGateway) in
               match recorded with
               | inl err =>
                   let* _ := logged (db (TransitionToRejected id "failed to persist quoted fee")) in
                   Ret (inl (Wrap "payout: persist quoted fee" err))
               | inr _ => ok
               end
           end
       end.

Definition user_request (id userID : uuid) (amount : dec) (currency vendor destination createdBy
    requestID : string) : PayoutRequest :=
  MkPayoutRequest id userID uuid_Nil amount currency vendor destination EmptyString None None
    EmptyString EmptyString createdBy requestID None None EmptyString EmptyString.

(** The request's id is returned even when a later step fails. *)
Definition create (userID : uuid) (amount : dec) (destination createdBy quoteID requestedCurrency
    requestID : string) : prog (error + (uuid * option error)) :=
  match ValidatePositiveMinorAmount amount with
  | Some err => Ret (inl (Wrap "payout: invalid minor-unit amount" err))
  | None =>
      let? _ := ensureIntakeOpen in
      let? currency := resolve_currency userID requestedCurrency in
      let? _ := check_policy currency in
      let? _ := check_account userID currency in
      let? _ := screen userID amount currency in
      let? (vendor, _) := ResolvePayoutRoute userID currency amount [] in
      let* id := perform NewID in
      let req := user_request id userID amount currency vendor destination createdBy requestID in
      let? _ := pwrap "payout: insert request" (db (Insert (m_ring m) req)) in
      let* quoted := consume_quote id userID currency quoteID amount in
      match quoted with
      | inl err => Ret (inr (id, Some err))
      | inr _ =>
          let* held := hold req in
          match held with
          | inl err => Ret (inr (id, Some (Wrap "payout: hold" err)))
          | inr _ => let* _ := logged (enqueueSubmit id vendor) in Ret (inr (id, None))
          end
      end
  end.

(** ** Merchant-owned payouts: merchant.go *)
Definition sandboxVendor : string := "mockvendor".
Definition resolveMerchantVendor (environment currency : string) (amount : dec) : prog (error + string) :=
  if bool_decide (environment = "sandbox") then
    match m_registry m !! sandboxVendor with
    | None => Ret (inl ErrSandboxVendorUnavailable)
    | Some vendor => if negb (SupportsRequestedCurrency vendor "payout" currency)
                     then Ret (inl PayoutErrCurrencyRoute) else Ret (inr sandboxVendor)
    end
  else let? (vendor, _) := ResolvePayoutRoute uuid_Nil currency amount [] in Ret (inr vendor).

Definition CreateMerchant (tenantID : uuid) (environment currency : string) (amount : dec)
    (destination createdBy downstreamKey requestID : string) : prog (error + (uuid * option error)) :=
  if bool_decide (tenantID = uuid_Nil) then Ret (inl (Plain "payout: tenantID is required"))
  else if bool_decide (downstreamKey = EmptyString) then
    Ret (inl (Plain "payout: downstreamKey is required"))
  else match ValidatePositiveMinorAmount amount with
  | Some err => Ret (inl (Wrap "payout: invalid minor-unit amount" err))
  | None =>
      let? _ := ensureIntakeOpen in
      match ValidateCode currency with
      | Some err => Ret (inl (Wrap "payout: invalid currency" err))
      | None =>
          let? _ := check_policy currency in
          let? vendor := resolveMerchantVendor environment currency amount in
          let* id := perform NewID in
          let req := MkPayoutRequest id uuid_Nil tenantID amount currency vendor destination
                       EmptyString None None EmptyString EmptyString createdBy requestID None None
                       EmptyString downstreamKey in
          let? stored := pwrap "payout: insert merchant request" (db (InsertMerchant (m_ring m) req)) in
          let? stored := pwrap "payout: insert merchant request" (Ret stored) in
          if negb (bool_decide (pr_ID stored = id)) then Ret (inr (pr_ID stored, None))
          else
            let* held := hold req in
            match held with
            | inl err => Ret (inr (id, Some (Wrap "payout: hold" err)))
            | inr _ => let* _ := logged (enqueueSubmit id vendor) in Ret (inr (id, None))
            end
      end
  end.
Definition GetMerchant (tenantID id : uuid) : prog (error + PayoutRequest) :=
  let? req := db (Get (m_ring m) id) in
  if negb (bool_decide (pr_MerchantTenantID req = tenantID)) then Ret (inl ErrNotFound)
  else Ret (inr req).
End payout.
