(* ===== verification/PayoutInv.v ===== *)
(** * Every interleaving of the payout service

    Requests, callbacks, relays, resume jobs and operators run as threads of any
    number of replicas, one outside call at a time, over one database, one
    ledger and the vendors; a thread may stop anywhere (a crash), a call may fail
    before or after its effect, and other clients use the ledger meanwhile.
    Then the invariant every reachable state satisfies. *)
From stdpp Require Import prelude gmap strings list relations.
From S2P Require Import Prelude Decimal Errors Currency Processors Flow VendorRouting PayoutRepo.
From S2P Require Import VendorCommands LedgerApi PayoutFlow.
Open Scope Z_scope.
Section steps.
Context `{DEC : !Decimal} `{UT : !UuidText} `{LED : !PostingLedger}.
Context (m : Module_).

(** The vendors.  [verdict v id]: vendor [v] takes the payout [id]; the provider
    contract (contracts/vendorgw/payout.go) makes a repeated Submit with the
    same key give the same result, so the verdict is a function. *)
Context (verdict : string -> uuid -> bool).

Record pworld := PWorld {
  pw_db : payout_db;
  pw_ledger : lstate;
  pw_breaker : HealthTracker;
  pw_contacted : gset (string * uuid);     (* payouts that reached a vendor *)
}.
Definition set_pdb (w : pworld) d := PWorld d (pw_ledger w) (pw_breaker w) (pw_contacted w).
Definition set_ledger (w : pworld) l := PWorld (pw_db w) l (pw_breaker w) (pw_contacted w).
Definition set_breaker (w : pworld) b := PWorld (pw_db w) (pw_ledger w) b (pw_contacted w).
Definition contact (v : string) (id : uuid) (w : pworld) :=
  PWorld (pw_db w) (pw_ledger w) (pw_breaker w) ({[(v, id)]} ∪ pw_contacted w).

(** One outside call: a statement takes effect or not, and is acknowledged or
    not; a vendor that answers answers by its verdict. *)
Definition op_step B (o : op B) : pworld -> B -> pworld -> Prop :=
  match o with
  | Db s => fun w r w' =>
      (exists ch a d, s ch (pw_db w) = inr (a, d) /\ w' = set_pdb w d /\
         (r = inr a \/ exists e, r = inl e)) \/
      (w' = w /\ exists e, r = inl e)
  | NewID | Now => fun w _ w' => w' = w
  | Post c => fun w r w' => exists l, post c (pw_ledger w) r l /\ w' = set_ledger w l
  | GetTransactionByIdempotencyKey k sc => fun w r w' =>
      w' = w /\ match r with inr tx => keyed (pw_ledger w) k sc tx | inl _ => True end
  | GetUserCurrency _ | CurrencyPolicy _ _ | UserCurrencyEnabled _ _ | ResolveFee _ _ _ _ _
  | ConsumeFeeQuote _ _ _ _ _ _ | FraudCheck _ _ _ | Query _ _ => fun w _ w' => w' = w
  | Submit v id _ _ _ => fun w r w' =>
      match r with
      | inr res => w' = contact v id w /\
                   verdict v id = negb (bool_decide (res_Status res = PayoutFailed))
      | inl _ => w' = w \/ w' = contact v id w
      end
  | BreakerAllow v => fun w r w' => exists now,
      r = (Allow (pw_breaker w) v now).1 /\ w' = set_breaker w (Allow (pw_breaker w) v now).2
  | BreakerSuccess v => fun w _ w' => w' = set_breaker w (RecordSuccess (pw_breaker w) v)
  | BreakerFailure v => fun w _ w' => exists now, w' = set_breaker w (RecordFailure (pw_breaker w) v now)
  end.

(** What can be started: every handler of the service. *)
Inductive entry : prog unit -> Prop :=
  | e_create user amount dest by_ quote currency rid :
      entry (logged (create m user amount dest by_ quote currency rid))
  | e_merchant tenant env currency amount dest by_ key rid :
      entry (logged (CreateMerchant m tenant env currency amount dest by_ key rid))
  | e_callback vendor ref amount currency status unknown :
      entry (logged (HandleVendorCallback m vendor ref amount currency status unknown))
  | e_pending limit : entry (logged (DispatchPendingCommands m limit))
  | e_retry limit : entry (logged (DispatchFailedCommandsForRetry m limit))
  | e_reap olderThan : entry (logged (ReapStuckCommands olderThan))
  | e_resume olderThan : entry (logged (ResumeStuck m olderThan))
  | e_admin_cancel id reason : entry (logged (AdminCancel m id reason))
  | e_admin_retry id : entry (logged (AdminRetry m id))
  | e_replay id : entry (logged (perform (Db (ReplayDeadCommand id))))
  | e_replay_all olderThan : entry (logged (perform (Db (ReplayAllDeadCommands olderThan)))).

(** Administrators edit the routing tables and the intake switch; retention
    blanks destinations and error texts. *)
Definition redacted (r : payout_row) : payout_row :=
  PayoutRow (pq_user_id r) (pq_merchant_tenant_id r) (pq_amount r) (pq_currency r) (pq_vendor r)
    (pq_status r) (pq_hold_tx_id r) (pq_settle_tx_id r) (pq_vendor_ref r) None (pq_created_by r)
    (pq_request_id r) (pq_fee_quote_id r) (pq_fee_amount r) (pq_fee_gateway r)
    (pq_downstream_key r) None (pq_created_at r) (pq_updated_at r).

(** What happens beside the threads: other clients of the ledger post, in scopes
    of their own. *)
Inductive payout_env (w : pworld) : pworld -> Prop :=
  | pe_ledger c r l :
      IdempotencyScope c <> payoutScope -> post c (pw_ledger w) r l -> payout_env w (set_ledger w l)
  | pe_admin gateways rules paused :
      payout_env w (set_pdb w (PayoutDb (payout_requests (pw_db w)) (payout_vendor_calls (pw_db w))
                      (payout_vendor_commands (pw_db w)) gateways rules paused))
  | pe_redact P :
      payout_env w (set_pdb w (with_requests (pw_db w) (set_where P redacted (payout_requests (pw_db w))))).
Definition system : Type := pworld * list (prog unit).
Definition payout_step : system -> system -> Prop := sys_step op_step entry payout_env.

(** A service that has not run yet, over any well-formed ledger in which the
    payout scope is unused. *)
Definition payout_initial (c : system) : Prop :=
  let w := c.1 in
  payout_requests (pw_db w) = ∅ /\ payout_vendor_commands (pw_db w) = ∅ /\
  lok (pw_ledger w) /\ (forall k tx, ~ keyed (pw_ledger w) k payoutScope tx) /\
  pw_contacted w = ∅ /\ c.2 = [].
Definition payout_reachable (c : system) : Prop :=
  exists c0, payout_initial c0 /\ rtc payout_step c0 c.
End steps.

Section inv.
Context `{DEC : !Decimal} `{UT : !UuidText} `{LED : !PostingLedger}.
Context (verdict : string -> uuid -> bool).
Implicit Types (w : pworld) (l : lstate) (r : payout_row).

Definition request w id := payout_requests (pw_db w) !! id.
(** A transaction posted by this service under the key. *)
Definition own_posting l (key : string) (tx : uuid) : Prop := keyed l key payoutScope tx /\ is_posted l tx.

Definition final_statuses : list string := [StatusSettled; StatusFailed; StatusCancelled; StatusRejected].
Definition held_statuses : list string :=
  [StatusHeld; StatusSubmitted; StatusVendorPending; StatusSettled; StatusCancelled].

(** A row agrees with the ledger. *)
Record row_ok l (id : uuid) r : Prop := {
  ro_hold h : pq_hold_tx_id r = Some h -> own_posting l (holdIdempotencyKey id) h;
  ro_held : pq_status r ∈ held_statuses -> is_Some (pq_hold_tx_id r);
  ro_settled : pq_status r = StatusSettled ->
    exists tx, pq_settle_tx_id r = Some tx /\ own_posting l (settleIdempotencyKey id) tx;
  ro_cancelled : pq_status r = StatusCancelled ->
    exists tx, pq_settle_tx_id r = Some tx /\ own_posting l (cancelIdempotencyKey id) tx;
}.

(** How a row may change. *)
Record row_le (id : uuid) r r' : Prop := {
  rl_user : pq_user_id r' = pq_user_id r;
  rl_tenant : pq_merchant_tenant_id r' = pq_merchant_tenant_id r;
  rl_amount : pq_amount r' = pq_amount r;
  rl_currency : pq_currency r' = pq_currency r;
  rl_hold h : pq_hold_tx_id r = Some h -> pq_hold_tx_id r' = Some h;
  rl_vendor : pq_vendor r' = pq_vendor r \/ verdict (pq_vendor r) id = false;
  rl_final : pq_status r ∈ final_statuses ->
    pq_status r' = pq_status r /\ pq_settle_tx_id r' = pq_settle_tx_id r;
}.

(** A vendor the request may be sent to: its own, or one that refuses it. *)
Definition legit w (id : uuid) (v : string) : Prop :=
  exists r, request w id = Some r /\ (pq_vendor r = v \/ verdict v id = false).

Record payout_inv w : Prop := {
  pi_ledger : lok (pw_ledger w);
  pi_rows id r : request w id = Some r -> row_ok (pw_ledger w) id r;
  pi_commands i c : payout_vendor_commands (pw_db w) !! i = Some c ->
    legit w (vc_payout_request_id c) (vc_vendor c);
  pi_contacted v id : (v, id) ∈ pw_contacted w -> legit w id v;
  pi_closed id tx key : key = settleIdempotencyKey id \/ key = cancelIdempotencyKey id ->
    own_posting (pw_ledger w) key tx ->
    exists r h, request w id = Some r /\ pq_hold_tx_id r = Some h /\
      (pq_merchant_tenant_id r = uuid_Nil -> closer (pw_ledger w) h = Some tx);
}.

Record pw_le w w' : Prop := {
  wl_rows id r : request w id = Some r -> exists r', request w' id = Some r' /\ row_le id r r';
  wl_ledger : ledger_le (pw_ledger w) (pw_ledger w');
}.

#[export] Instance row_le_preorder id : PreOrder (row_le id).
Proof.
  split.
  - intros r. by split; auto.
  - intros r1 r2 r3 [U1 T1 A1 C1 H1 V1 F1] [U2 T2 A2 C2 H2 V2 F2]. split; try congruence; auto.
    + destruct V1 as [V1|]; [|by right]. destruct V2 as [V2|V2]; [left; congruence|right; congruence].
    + intros H. destruct (F1 H) as [E1 E2]. rewrite <- E1 in H. destruct (F2 H) as [E3 E4].
      split; congruence.
Qed.
#[export] Instance pw_le_preorder : PreOrder pw_le.
Proof.
  split.
  - intros w. split; [|reflexivity]. intros id r H. exists r. split; [done|reflexivity].
  - intros w1 w2 w3 [R1 L1] [R2 L2]. split; [|by transitivity (pw_ledger w2)].
    intros id r (r2 & Hr2 & H2)%R1. apply R2 in Hr2 as (r3 & Hr3 & H3).
    exists r3. split; [done|by transitivity r2].
Qed.

Lemma own_posting_le l l' k tx : ledger_le l l' -> own_posting l k tx -> own_posting l' k tx.
Proof. intros [] [? ?]. split; auto. Qed.
Lemma legit_le w w' id v : pw_le w w' -> legit w id v -> legit w' id v.
Proof.
  intros [R _] (r & Hr & Hv). apply R in Hr as (r' & Hr' & Hle). exists r'. split; [done|].
  destruct Hv as [<-|Hv]; [|by right]. destruct (rl_vendor _ _ _ Hle) as [E|E]; [by left|by right].
Qed.
Lemma row_ok_le l l' id r : ledger_le l l' -> row_ok l id r -> row_ok l' id r.
Proof.
  intros L [H1 H2 H3 H4]. split; [|done| |].
  - intros h Hh. eapply own_posting_le; eauto.
  - intros (tx & ? & ?)%H3. eauto using own_posting_le.
  - intros (tx & ? & ?)%H4. eauto using own_posting_le.
Qed.

Definition payout_discipline : discipline op pworld := {|
  d_step := op_step verdict; d_inv := payout_inv; d_le := pw_le; d_preorder := pw_le_preorder |}.
End inv.
