(* ===== verification/PayoutStatements.v ===== *)
(** * Every statement of the payout service keeps the invariant

    One rule per statement: under what its caller knows, it keeps the
    invariant, lets the world evolve, and what its result tells. *)
From stdpp Require Import prelude gmap strings list sorting relations.
From S2P Require Import Prelude Decimal Errors Currency Processors Flow VendorRouting PayoutRepo VendorCommands.
From S2P Require Import LedgerApi PayoutFlow PayoutInv.
Open Scope Z_scope.

(** ** Tables after an UPDATE *)

Lemma update_requests_Ok P f d n d' :
  update_requests P f d = inr (n, d') ->
  d' = with_requests d (set_where P f (payout_requests d)) /\
  (0 < n -> exists id r, payout_requests d !! id = Some r /\ P id r = true).
Proof.
  unfold update_requests. case_match; [|done]. intros [= <- <-]. split; [done|]. intros Hn.
  destruct (rows_where P _) as [|[id r] hits] eqn:E; [done|]. exists id, r.
  apply elem_of_rows_where. rewrite E. left.
Qed.
Lemma update_commands_Ok P f d n d' :
  update_commands P f d = inr (n, d') ->
  d' = with_commands d (set_where P f (payout_vendor_commands d)).
Proof. unfold update_commands. case_match; [done|]. by intros [= _ <-]. Qed.
Lemma insertVendorCommand_Ok `{UT : !UuidText} newID id vendor attempt now d d' :
  insertVendorCommand newID id vendor attempt now d = inr d' ->
  is_Some (payout_requests d !! id) /\
  d' = with_commands d (<[newID := new_command id vendor attempt now]> (payout_vendor_commands d)).
Proof.
  unfold insertVendorCommand. case_bool_decide; [done|]. case_bool_decide; [|done]. simpl.
  case_match; [done|]. by intros [= <-].
Qed.

Section statements.
Context `{DEC : !Decimal} `{UT : !UuidText} `{LED : !PostingLedger}.
Context (verdict : string -> uuid -> bool).
Notation psafe := (safe (payout_discipline verdict)).
Notation inv := (payout_inv verdict).
Notation le := (pw_le verdict).
Notation rle := (row_le verdict).

Lemma inv_set_db w d' :
  inv w ->
  (forall id r, request w id = Some r -> exists r', payout_requests d' !! id = Some r' /\ rle id r r') ->
  (forall id r', payout_requests d' !! id = Some r' -> row_ok (pw_ledger w) id r') ->
  (forall i c, payout_vendor_commands d' !! i = Some c ->
     legit verdict (set_pdb w d') (vc_payout_request_id c) (vc_vendor c)) ->
  inv (set_pdb w d') /\ le w (set_pdb w d').
Proof.
  intros I Hle Hok Hc. assert (L : le w (set_pdb w d')) by (split; [done|reflexivity]).
  split; [|done]. split; [apply (pi_ledger _ _ I)|done|done| |].
  - intros v id Hv. eapply legit_le; [exact L|]. by apply (pi_contacted _ _ I).
  - intros id tx key Hk Hp. destruct (pi_closed _ _ I id tx key Hk Hp) as (r & h & Hr & Hh & Hc').
    destruct (Hle _ _ Hr) as (r' & Hr' & Hrl). exists r', h. split_and!; [done|by apply (rl_hold _ _ _ _ Hrl)|].
    intros E. apply Hc'. by rewrite <- (rl_tenant _ _ _ _ Hrl).
Qed.

Definition stmt_ok {A} (s : statement A) (Pre : pworld -> Prop) (Post : A -> pworld -> Prop) : Prop :=
  forall w ch a d, inv w -> Pre w -> s ch (pw_db w) = inr (a, d) ->
    inv (set_pdb w d) /\ le w (set_pdb w d) /\ Post a (set_pdb w d).

Lemma set_pdb_same w : set_pdb w (pw_db w) = w.
Proof. by destruct w. Qed.

(** A statement used by a thread. *)
Lemma safe_db {A} (s : statement A) Pre Post w :
  stmt_ok s Pre Post -> (forall w', le w w' -> Pre w') ->
  psafe (perform (Db s)) (fun r w' => match r with inr a => Post a w' | inl _ => True end) w.
Proof.
  intros Hs Hpre w1 H1 I1 b w2 [(ch & a & d & E & -> & Hb)|[-> [e ->]]]; simpl.
  - destruct (Hs w1 ch a d I1 (Hpre _ H1) E) as (I2 & L2 & HP). split_and!; [done..|].
    by destruct Hb as [->|[e ->]].
  - split_and!; [done|reflexivity|done].
Qed.

(** A statement that only reads. *)
Lemma read_ok {A} (s : statement A) (Post : A -> pworld -> Prop) :
  (forall w ch a d, inv w -> s ch (pw_db w) = inr (a, d) -> d = pw_db w /\ Post a w) ->
  stmt_ok s (fun _ => True) Post.
Proof.
  intros H w ch a d I _ E. destruct (H _ _ _ _ I E) as [-> HP]. rewrite set_pdb_same.
  split_and!; [done|reflexivity|done].
Qed.

(** A statement on rows of payout_requests. *)
Lemma update_requests_inv P f w n d' :
  inv w -> update_requests P f (pw_db w) = inr (n, d') ->
  (forall id r, request w id = Some r -> P id r = true ->
     rle id r (f r) /\ row_ok (pw_ledger w) id (f r)) ->
  inv (set_pdb w d') /\ le w (set_pdb w d').
Proof.
  intros I [-> _]%update_requests_Ok Hf.
  assert (Hle : forall id r, request w id = Some r ->
     rle id r (if P id r then f r else r) /\ row_ok (pw_ledger w) id (if P id r then f r else r)).
  { intros id r Hr. destruct (P id r) eqn:E; [by apply Hf|].
    split; [reflexivity|by apply (pi_rows _ _ I)]. }
  assert (Hev : forall id r, request w id = Some r -> exists r',
     set_where P f (payout_requests (pw_db w)) !! id = Some r' /\ rle id r r').
  { intros id r Hr. eexists. rewrite lookup_set_where. unfold request in Hr. rewrite Hr. simpl.
    split; [done|]. by apply Hle. }
  apply inv_set_db; [done|done| |].
  - intros id r'. simpl. rewrite lookup_set_where. destruct (_ !! id) as [r|] eqn:Hr; [|done].
    intros [= <-]. by apply (Hle id r).
  - intros i c Hc. simpl in Hc. apply (pi_commands _ _ I) in Hc as (r & Hr & Hv).
    destruct (Hev _ _ Hr) as (r' & Hr' & Hrl). exists r'. split; [done|].
    destruct Hv as [<-|?]; [|by right]. destruct (rl_vendor _ _ _ _ Hrl); [by left|by right].
Qed.

(** A transition that leaves the hold alone and does not end the request. *)
Lemma set_request_le id r status settle vendor_ref err now :
  (pq_status r ∈ final_statuses -> status = pq_status r /\ settle = pq_settle_tx_id r) ->
  rle id r (set_request status (pq_hold_tx_id r) settle vendor_ref err now r).
Proof. intros H. split; simpl; auto. Qed.

Lemma transition_ok id from f (Pre : pworld -> Prop) (s : statement bool) :
  (forall ch d, s ch d = transition id from (f ch) d) ->
  (forall w ch r, inv w -> Pre w -> request w id = Some r -> pq_status r ∈ from ->
     rle id r (f ch r) /\ row_ok (pw_ledger w) id (f ch r)) ->
  stmt_ok s Pre (fun _ _ => True).
Proof.
  intros Hs Hf w ch a d I Hp E. rewrite Hs in E. unfold transition in E.
  destruct (update_requests _ _ _) as [e|[n d']] eqn:Eu; [done|]. injection E as <- <-.
  destruct (update_requests_inv _ _ _ _ _ I Eu) as [I' L']; [|done].
  intros i r Hr [Hi Hst]%andb_true_iff. apply bool_decide_eq_true in Hi as ->, Hst. by apply Hf.
Qed.

(** ** The transitions *)
Lemma TransitionToHeld_ok id tx :
  stmt_ok (TransitionToHeld id tx)
    (fun w => own_posting (pw_ledger w) (holdIdempotencyKey id) tx) (fun _ _ => True).
Proof.
  eapply transition_ok; [done|]. intros w ch r I Hp Hr Hst%list_elem_of_singleton.
  pose proof (pi_rows _ _ I _ _ Hr) as [Hh _ _ _]. split.
  - split; simpl; auto; [|by rewrite Hst; vm_compute; set_solver].
    intros h E. f_equal. apply Hh in E as [E _]. destruct Hp as [Hp _].
    by eapply (keyed_unique _ _ _ _ _ (pi_ledger _ _ I)).
  - split; simpl; [|done..]. by intros h [= <-].
Qed.

Lemma row_held w id r : inv w -> request w id = Some r -> pq_status r ∈ held_statuses ->
  is_Some (pq_hold_tx_id r).
Proof. intros I Hr. apply (ro_held _ _ _ (pi_rows _ _ I _ _ Hr)). Qed.

Lemma live_statuses status :
  status ∈ [StatusSubmitted; StatusVendorPending] ->
  status ∈ held_statuses /\ status ∉ final_statuses.
Proof. rewrite !elem_of_cons, elem_of_nil. intros [->|[->|[]]]; vm_compute; set_solver. Qed.

Lemma TransitionToVendorPending_ok id ref :
  stmt_ok (TransitionToVendorPending id ref) (fun _ => True) (fun _ _ => True).
Proof.
  eapply transition_ok; [done|]. intros w ch r I _ Hr Hst%list_elem_of_singleton.
  destruct (live_statuses (pq_status r)) as [Hh Hf]; [rewrite Hst; left|].
  split; [by apply set_request_le|]. split; simpl; [apply (pi_rows _ _ I _ _ Hr)| |done..].
  intros _. by apply (row_held w id r).
Qed.
Lemma TransitionToSettled_ok id tx :
  stmt_ok (TransitionToSettled id tx)
    (fun w => own_posting (pw_ledger w) (settleIdempotencyKey id) tx) (fun _ _ => True).
Proof.
  eapply transition_ok; [done|]. intros w ch r I Hp Hr [Hh Hf]%live_statuses.
  split; [by apply set_request_le|]. split; simpl; [apply (pi_rows _ _ I _ _ Hr)| |by eauto|done].
  intros _. by apply (row_held w id r).
Qed.
Lemma TransitionToCancelled_ok id tx :
  stmt_ok (TransitionToCancelled id tx)
    (fun w => own_posting (pw_ledger w) (cancelIdempotencyKey id) tx) (fun _ _ => True).
Proof.
  eapply transition_ok; [done|]. intros w ch r I Hp Hr [Hh Hf]%live_statuses.
  split; [by apply set_request_le|]. split; simpl; [apply (pi_rows _ _ I _ _ Hr)| |done|by eauto].
  intros _. by apply (row_held w id r).
Qed.
Lemma TransitionToRejected_ok id reason :
  stmt_ok (TransitionToRejected id reason) (fun _ => True) (fun _ _ => True).
Proof.
  eapply transition_ok; [done|]. intros w ch r I _ Hr Hst%list_elem_of_singleton.
  split; [apply set_request_le; rewrite Hst; vm_compute; set_solver|].
  split; simpl; [apply (pi_rows _ _ I _ _ Hr)| |done..]. vm_compute. set_solver.
Qed.

(** Columns that neither the ledger nor the routing depend on. *)
Lemma same_columns w id r r' :
  inv w -> request w id = Some r ->
  pq_user_id r' = pq_user_id r -> pq_merchant_tenant_id r' = pq_merchant_tenant_id r ->
  pq_amount r' = pq_amount r -> pq_currency r' = pq_currency r -> pq_vendor r' = pq_vendor r ->
  pq_status r' = pq_status r -> pq_hold_tx_id r' = pq_hold_tx_id r ->
  pq_settle_tx_id r' = pq_settle_tx_id r ->
  rle id r r' /\ row_ok (pw_ledger w) id r'.
Proof.
  intros I Hr ? ? ? ? ? Es Eh Et. split; [split; auto; congruence|].
  destruct (pi_rows _ _ I _ _ Hr). split; rewrite ?Es, ?Eh, ?Et; done.
Qed.
Lemma SetError_ok id reason : stmt_ok (SetError id reason) (fun _ => True) (fun _ _ => True).
Proof.
  intros w ch a d I _ E. unfold SetError in E. destruct (update_requests _ _ _) as [|[n d']] eqn:Eu; [done|].
  injection E as <- <-. edestruct (update_requests_inv _ _ _ _ _ I Eu) as [? ?]; [|done].
  intros i r Hr _. by apply same_columns.
Qed.
Lemma SetQuotedFee_ok id q fee g : stmt_ok (SetQuotedFee id q fee g) (fun _ => True) (fun _ _ => True).
Proof.
  intros w ch a d I _ E. unfold SetQuotedFee in E.
  destruct (update_requests _ _ _) as [|[n d']] eqn:Eu; [done|].
  injection E as <- <-. edestruct (update_requests_inv _ _ _ _ _ I Eu) as [? ?]; [|done].
  intros i r Hr _. by apply same_columns.
Qed.

(** ** Reading and inserting requests *)

(** What a thread holding a copy of a request, however old, can rely on. *)
Definition known w (req : PayoutRequest) : Prop :=
  exists r, request w (pr_ID req) = Some r /\ pq_merchant_tenant_id r = pr_MerchantTenantID req /\
    (pq_vendor r = pr_Vendor req \/ verdict (pr_Vendor req) (pr_ID req) = false) /\
    (forall h, pr_HoldTxID req = Some h -> pq_hold_tx_id r = Some h).
Lemma known_le w w' req : le w w' -> known w req -> known w' req.
Proof.
  intros [R _] (r & Hr & Ht & Hv & Hh). apply R in Hr as (r' & Hr' & Hle). exists r'.
  split_and!; [done|by rewrite (rl_tenant _ _ _ _ Hle)| |].
  - destruct Hv as [<-|]; [|by right]. destruct (rl_vendor _ _ _ _ Hle); [by left|by right].
  - intros h Hq. by apply (rl_hold _ _ _ _ Hle), Hh.
Qed.
Lemma known_legit w req : known w req -> legit verdict w (pr_ID req) (pr_Vendor req).
Proof. intros (r & Hr & _ & Hv & _). by exists r. Qed.

Context (ring : Ring).

Lemma scanRequest_known w id r req :
  request w id = Some r -> scanRequest ring id r = inr req -> pr_ID req = id /\ known w req.
Proof.
  unfold scanRequest. intros Hr. repeat case_match; try done; intros; simplify_eq; (split; [done|]); exists r; by split_and!; [..|left|].
Qed.
Lemma Get_ok id : stmt_ok (Get ring id) (fun _ => True) (fun req w => pr_ID req = id /\ known w req).
Proof.
  apply read_ok. intros w ch req d I. unfold Get. destruct (payout_requests _ !! id) as [r|] eqn:Hr; [|done].
  destruct (scanRequest _ _ _) eqn:E; [done|]. intros [= <- <-]. split; [done|].
  by eapply scanRequest_known.
Qed.
Lemma GetByVendorReference_ok v ref :
  stmt_ok (GetByVendorReference ring v ref) (fun _ => True) (fun req w => known w req).
Proof.
  apply read_ok. intros w ch req d I. unfold GetByVendorReference.
  destruct (rows_where _ _ !! _) as [[id r]|] eqn:Hr; [|done].
  destruct (scanRequest _ _ _) eqn:E; [done|]. intros [= <- <-]. split; [done|].
  apply list_elem_of_lookup_2, elem_of_rows_where in Hr as [Hr _].
  by eapply scanRequest_known in E as [_ ?].
Qed.

Lemma scan_all_known w rows reqs :
  Forall (fun kr => request w kr.1 = Some kr.2) rows -> scan_all ring rows = inr reqs ->
  Forall (known w) reqs.
Proof.
  intros Hf. revert reqs. induction Hf as [|[id r] rows Hr Hf IH]; intros reqs; simpl.
  - intros [= <-]. constructor.
  - destruct (scanRequest _ _ _) as [|req] eqn:E; [done|]. destruct (scan_all _ _); [done|].
    intros [= <-]. constructor; [by eapply scanRequest_known|by apply IH].
Qed.
Lemma ordered_rows_elem {R} key P (t : gmap uuid R) id r :
  (id, r) ∈ ordered_rows key P t -> t !! id = Some r /\ P id r = true.
Proof. unfold ordered_rows. intros H. apply elem_of_rows_where. by rewrite merge_sort_Permutation in H. Qed.
Lemma ListStuck_ok status cutoff limit :
  stmt_ok (ListStuck ring status cutoff limit) (fun _ => True) (fun reqs w => Forall (known w) reqs).
Proof.
  apply read_ok. intros w ch reqs d I. unfold ListStuck. destruct (scan_all _ _) eqn:E; [done|].
  intros [= <- <-]. split; [done|]. eapply scan_all_known; [|done]. apply Forall_forall.
  intros [id r] Hin%elem_of_take. destruct Hin as (i & Hi & _).
  apply list_elem_of_lookup_2, ordered_rows_elem in Hi as [Hr _]. done.
Qed.

Lemma insert_request_inv w id r d :
  inv w -> insert_request id r (pw_db w) = inr d ->
  pq_status r = StatusCreated -> pq_hold_tx_id r = None ->
  inv (set_pdb w d) /\ le w (set_pdb w d) /\ request (set_pdb w d) id = Some r.
Proof.
  unfold insert_request. intros I E Hst Hh. destruct (negb _); [done|].
  case_bool_decide as Hn; [done|]. injection E as <-. apply eq_None_not_Some in Hn.
  edestruct (inv_set_db w (with_requests (pw_db w) (<[id:=r]> (payout_requests (pw_db w)))) I) as [I' L'].
  - intros i r0 Hr. exists r0. simpl. rewrite lookup_insert_ne by (intros <-; unfold request in Hr; congruence).
    split; [done|reflexivity].
  - intros i r0. simpl. intros [[<- <-]|[_ Hr]]%lookup_insert_Some; [|by apply (pi_rows _ _ I)].
    split; rewrite ?Hh, ?Hst; try done. vm_compute. set_solver.
  - intros i c Hc. simpl in Hc. apply (pi_commands _ _ I) in Hc as (r0 & Hr & Hv).
    exists r0. split; [|done]. unfold request. simpl.
    rewrite lookup_insert_ne; [done|]. intros E. unfold request in Hr. congruence.
  - split_and!; [done..|]. unfold request. simpl. by rewrite lookup_insert_eq.
Qed.

Lemma Insert_ok req : pr_HoldTxID req = None ->
  stmt_ok (Insert ring req) (fun _ => True) (fun _ w => known w req).
Proof.
  intros Hq w ch a d I _ E. unfold Insert in E. destruct (Seal _ _ _); [done|].
  destruct (insert_request _ _ _) as [|d'] eqn:Ei; [done|]. injection E as <- <-.
  destruct (insert_request_inv _ _ _ _ I Ei) as (I' & L' & Hr); [done..|]. split_and!; [done..|].
  eexists. split; [exact Hr|]. split_and!; [done|by left|]. by rewrite Hq.
Qed.
Lemma InsertMerchant_ok req : pr_HoldTxID req = None ->
  stmt_ok (InsertMerchant ring req) (fun _ => True)
    (fun r w => match r with inr stored => pr_ID stored = pr_ID req -> known w req | inl _ => True end).
Proof.
  intros Hq w ch a d I _ E. unfold InsertMerchant in E. case_bool_decide; [done|].
  destruct (Seal _ _ _); [done|]. set (P := same_downstream _ _) in E.
  destruct (rows_where P (payout_requests (pw_db w))) as [|[id0 r0] rest] eqn:Er.
  - destruct (insert_request _ _ _) as [|d'] eqn:Ei; [done|].
    destruct (insert_request_inv _ _ _ _ I Ei) as (I' & L' & Hr); [done..|].
    assert (K : known (set_pdb w d') req).
    { eexists. split; [exact Hr|]. split_and!; [done|by left|]. by rewrite Hq. }
    destruct (rows_where P (payout_requests d')) as [|[id1 r1] rest];
      [by injection E as <- <-|]. destruct (scanRequest _ _ _); by injection E as <- <-.
  - case_bool_decide as Hn; [done|]. rewrite Er in E.
    destruct (scanRequest _ _ _) eqn:Es; injection E as <- <-; rewrite set_pdb_same;
      (split_and!; [done|reflexivity|]); [done|]. intros Hid. exfalso. apply Hn.
    assert (Hin : (id0, r0) ∈ rows_where P (payout_requests (pw_db w))) by (rewrite Er; left).
    apply elem_of_rows_where in Hin as [Hin _].
    destruct (scanRequest_known w id0 r0 _ Hin Es) as [<- _]. rewrite <- Hid. by exists r0.
Qed.

(** ** Commands and calls *)
Lemma update_commands_inv P f w n d' :
  inv w -> update_commands P f (pw_db w) = inr (n, d') ->
  (forall c, vc_payout_request_id (f c) = vc_payout_request_id c /\ vc_vendor (f c) = vc_vendor c) ->
  inv (set_pdb w d') /\ le w (set_pdb w d').
Proof.
  intros I ->%update_commands_Ok Hf. apply inv_set_db; [done| |apply (pi_rows _ _ I)|].
  - intros id r Hr. exists r. split; [done|reflexivity].
  - intros i c. simpl. rewrite lookup_set_where. destruct (_ !! i) as [c0|] eqn:Hc; [|done].
    intros [= <-]. apply (pi_commands _ _ I) in Hc.
    assert (vc_payout_request_id (if P i c0 then f c0 else c0) = vc_payout_request_id c0 /\
            vc_vendor (if P i c0 then f c0 else c0) = vc_vendor c0) as [-> ->]
      by (destruct (P i c0); [apply Hf|done]). done.
Qed.
(** A statement that is one UPDATE of payout_vendor_commands. *)
Ltac command_update s :=
  let w := fresh in let ch := fresh in let a := fresh in let d := fresh in let I := fresh in
  let E := fresh in let Eu := fresh in let n := fresh in
  intros w ch a d I _ E; unfold s in E;
  destruct (update_commands _ _ _) as [|[n ?]] eqn:Eu; [done|];
  try (destruct (n =? 0); [done|]); injection E as <- <-;
  edestruct (update_commands_inv _ _ _ _ _ I Eu) as [? ?]; [intros ?; split; reflexivity|];
  split_and!; done.

Lemma CompleteCommand_ok id : stmt_ok (CompleteCommand id) (fun _ => True) (fun _ _ => True).
Proof. command_update CompleteCommand. Qed.
Lemma FailCommand_ok id msg : stmt_ok (FailCommand id msg) (fun _ => True) (fun _ _ => True).
Proof. command_update FailCommand. Qed.
Lemma ReapStuckCommands_ok olderThan :
  stmt_ok (ReapStuckCommands_rows olderThan) (fun _ => True) (fun _ _ => True).
Proof. command_update ReapStuckCommands_rows. Qed.
Lemma ReplayDeadCommand_ok id : stmt_ok (ReplayDeadCommand id) (fun _ => True) (fun _ _ => True).
Proof. command_update ReplayDeadCommand. Qed.

Lemma claim_commands_ok w ch (sel : list (uuid * command_row)) cmds d :
  inv w -> claim_commands sel ch (pw_db w) = inr (cmds, d) ->
  Forall (fun kc => payout_vendor_commands (pw_db w) !! kc.1 = Some kc.2) sel ->
  inv (set_pdb w d) /\ le w (set_pdb w d) /\
  Forall (fun c => legit verdict (set_pdb w d) (cmd_PayoutRequestID c) (cmd_Vendor c)) cmds.
Proof.
  intros I E Hf. unfold claim_commands in E.
  destruct (update_commands _ _ _) as [|[n d']] eqn:Eu; [done|]. injection E as <- <-.
  edestruct (update_commands_inv _ _ _ _ _ I Eu) as [I' L']; [done|]. split_and!; [done..|].
  apply Forall_fmap. eapply Forall_impl; [exact Hf|]. intros [i c] Hc. simpl in *.
  eapply legit_le; [exact L'|]. by apply (pi_commands _ _ I) in Hc.
Qed.
Lemma lock_rows_elem {R} key P limit locked (t : gmap uuid R) :
  Forall (fun kr => t !! kr.1 = Some kr.2) (lock_rows key P limit locked t).
Proof.
  apply Forall_forall. intros [id r] (i & Hi & _)%elem_of_take.
  apply list_elem_of_lookup_2, list_elem_of_filter in Hi as [_ Hi].
  by apply ordered_rows_elem in Hi as [Hi _].
Qed.
Notation legit_command := (fun w c => legit verdict w (cmd_PayoutRequestID c) (cmd_Vendor c)).
Lemma ClaimPendingCommands_ok limit :
  stmt_ok (ClaimPendingCommands limit) (fun _ => True) (fun cmds w => Forall (legit_command w) cmds).
Proof. intros w ch cmds d I _ E. eapply claim_commands_ok; [done|exact E|apply lock_rows_elem]. Qed.
Lemma ClaimFailedCommandsForRetry_ok limit :
  stmt_ok (ClaimFailedCommandsForRetry limit) (fun _ => True)
    (fun cmds w => Forall (legit_command w) cmds).
Proof. intros w ch cmds d I _ E. eapply claim_commands_ok; [done|exact E|apply lock_rows_elem]. Qed.
Lemma ReplayAllDeadCommands_ok olderThan :
  stmt_ok (ReplayAllDeadCommands olderThan) (fun _ => True) (fun _ _ => True).
Proof. command_update ReplayAllDeadCommands. Qed.

(** A new command for a vendor the request may be sent to. *)
Lemma insertVendorCommand_inv w newID id vendor attempt now d' :
  inv w -> legit verdict w id vendor ->
  insertVendorCommand newID id vendor attempt now (pw_db w) = inr d' ->
  inv (set_pdb w d') /\ le w (set_pdb w d').
Proof.
  intros I Hl [_ ->]%insertVendorCommand_Ok. apply inv_set_db; [done| |apply (pi_rows _ _ I)|].
  - intros i r Hr. exists r. split; [done|reflexivity].
  - intros i c. simpl. intros [[<- <-]|[_ Hc]]%lookup_insert_Some; [done|].
    by apply (pi_commands _ _ I) in Hc.
Qed.
Lemma EnqueueInitialSubmit_ok newID id vendor :
  stmt_ok (EnqueueInitialSubmit newID id vendor) (fun w => legit verdict w id vendor) (fun _ _ => True).
Proof.
  intros w ch a d I Hl E. unfold EnqueueInitialSubmit in E.
  destruct (update_requests _ _ _) as [|[n d1]] eqn:Eu; [done|].
  destruct (n =? 0); [injection E as <- <-; rewrite set_pdb_same; split_and!; [done|reflexivity|done]|].
  destruct (insertVendorCommand _ _ _ _ _ _) as [|d2] eqn:Ei; [done|]. injection E as <- <-.
  edestruct (update_requests_inv _ _ _ _ _ I Eu) as [I1 L1].
  { intros i r Hr [Hi Hst]%andb_true_iff. apply bool_decide_eq_true in Hst.
    assert (Hh : pq_status r ∈ held_statuses /\ pq_status r ∉ final_statuses)
      by (rewrite !elem_of_cons, elem_of_nil in Hst; destruct Hst as [->|[->|[]]]; vm_compute; set_solver).
    destruct Hh as [Hh Hf]. split; [by apply set_request_le|].
    split; simpl; [apply (pi_rows _ _ I _ _ Hr)| |done..]. intros _. by apply (row_held w i r). }
  edestruct (insertVendorCommand_inv (set_pdb w d1) newID id vendor) as [I2 L2];
    [done|by eapply legit_le|exact Ei|]. split_and!; [done|by transitivity (set_pdb w d1)|done].
Qed.
Lemma EnsureSubmitCommand_ok newID id vendor :
  stmt_ok (EnsureSubmitCommand newID id vendor) (fun w => legit verdict w id vendor) (fun _ _ => True).
Proof.
  intros w ch a d I Hl E. unfold EnsureSubmitCommand, insertVendorCommandIfAbsent in E.
  assert (Hsame : inv (set_pdb w (pw_db w)) /\ le w (set_pdb w (pw_db w)) /\ True)
    by (rewrite set_pdb_same; split_and!; [done|reflexivity|done]).
  destruct (ch_raced ch); [by injection E as <- <-|].
  destruct (insertVendorCommand _ _ _ _ _ _) as [e|d2] eqn:Ei.
  - destruct (IsDuplicateKey e); [by injection E as <- <-|done].
  - injection E as <- <-. edestruct (insertVendorCommand_inv w newID id vendor) as [I2 L2]; done.
Qed.

(** Failing over from a vendor that refuses the payout. *)
Lemma CompleteAndEnqueueFailover_ok newID id completing from to attempt :
  verdict from id = false ->
  stmt_ok (CompleteAndEnqueueFailover newID id completing from to attempt) (fun _ => True) (fun _ _ => True).
Proof.
  intros Hv w ch a d I _ E. unfold CompleteAndEnqueueFailover in E.
  destruct (update_requests _ _ _) as [|[n d1]] eqn:Eu; [done|].
  destruct (n =? 0) eqn:En;
    [injection E as <- <-; rewrite set_pdb_same; split_and!; [done|reflexivity|done]|].
  destruct (update_commands _ _ _) as [|[n2 d2]] eqn:Ec; [done|]. destruct (n2 =? 0); [done|].
  destruct (insertVendorCommand _ _ _ _ _ _) as [|d3] eqn:Ei; [done|]. injection E as <- <-.
  edestruct (update_requests_inv _ _ _ _ _ I Eu) as [I1 L1].
  { intros i r Hr [Hi Hf]%andb_true_iff. apply bool_decide_eq_true in Hi as ->, Hf.
    split; [split; simpl; auto; right; by rewrite Hf|].
    destruct (pi_rows _ _ I _ _ Hr). by split. }
  edestruct (update_commands_inv _ _ (set_pdb w d1) _ _ I1 Ec) as [I2 L2]; [done|].
  assert (Hl : legit verdict (set_pdb w d2) id to).
  { eapply (legit_le _ (set_pdb w d1)); [exact L2|].
    destruct (update_requests_Ok _ _ _ _ _ Eu) as [-> Hhit].
    destruct Hhit as (i & r & Hr & HP).
    { apply Z.eqb_neq in En. pose proof Eu as Eu'. unfold update_requests in Eu'.
      destruct (forallb _ _); [|done]. injection Eu' as <-. lia. }
    apply andb_true_iff in HP as [Hi Hf]. apply bool_decide_eq_true in Hi as ->. eexists. unfold request. simpl. rewrite lookup_set_where, Hr.
    simpl. rewrite bool_decide_true by done. rewrite Hf. simpl. split; [done|by left]. }
  edestruct (insertVendorCommand_inv (set_pdb w d2) newID id to) as [I3 L3]; [done|exact Hl|exact Ei|].
  split_and!; [done| |done]. transitivity (set_pdb w d1); [done|]. by transitivity (set_pdb w d2).
Qed.

(** Statements on the other tables, and reads of any kind. *)
Lemma InsertVendorCall_ok call : stmt_ok (InsertVendorCall call) (fun _ => True) (fun _ _ => True).
Proof.
  intros w ch a d I _ E. unfold InsertVendorCall in E. repeat case_match; try done. injection E as <- <-.
  edestruct (inv_set_db w (with_calls (pw_db w) (payout_vendor_calls (pw_db w) ++
     [CallRow (pvc_ID call) (pvc_PayoutRequestID call) (pvc_Attempt call) (pvc_ReqSummary call)
            (nullString (pvc_RespStatus call)) (nullString (pvc_Error call)) (pvc_Outcome call)
            (ch_now ch)])) I) as [I' L']; [|apply (pi_rows _ _ I)|apply (pi_commands _ _ I)|done].
  intros i r Hr. exists r. split; [done|reflexivity].
Qed.
Definition reads {A} (s : statement A) : Prop := forall ch d a d', s ch d = inr (a, d') -> d' = d.
Lemma reads_ok {A} (s : statement A) : reads s -> stmt_ok s (fun _ => True) (fun _ _ => True).
Proof. intros Hs. apply read_ok. intros w ch a d _ E. split; [by eapply Hs|done]. Qed.
End statements.
