(* ===== verification/PayoutThreads.v ===== *)
(** * Every handler of the payout service is a safe thread *)
From Stdlib Require Import Ascii String.
From stdpp Require Import prelude gmap strings list relations.
From S2P Require Import Prelude Decimal Errors Currency Processors Flow VendorRouting PayoutRepo VendorCommands.
From S2P Require Import LedgerApi PayoutFlow PayoutInv PayoutStatements.
Open Scope Z_scope.

(** ** Idempotency keys are distinct *)
Fixpoint last_char (s : string) : option ascii :=
  match s with
  | EmptyString => None
  | String c s' => match last_char s' with Some d => Some d | None => Some c end
  end.
Lemma last_char_app a b : b <> EmptyString -> last_char (a +:+ b) = last_char b.
Proof.
  intros Hb. assert (is_Some (last_char b)) as [d Hd].
  { destruct b as [|c b]; [done|]. simpl. destruct (last_char b); eauto. }
  induction a as [|c a IH]; [done|]. change (String c a +:+ b) with (String c (a +:+ b)).
  simpl. by rewrite IH, Hd.
Qed.
Lemma string_length_app a b : String.length (a +:+ b) = (String.length a + String.length b)%nat.
Proof. induction a as [|c a IH]; [done|]. change (String c a +:+ b) with (String c (a +:+ b)). simpl. by rewrite IH. Qed.
Lemma app_suffix_inj a b s : a +:+ s = b +:+ s -> a = b.
Proof.
  revert b. induction a as [|c a IH]; intros [|d b] H.
  - done.
  - apply (f_equal String.length) in H. rewrite string_length_app in H.
    change (String d b +:+ s) with (String d (b +:+ s)) in H. simpl in H.
    rewrite string_length_app in H. change (String.length "" + String.length s)%nat with (String.length s) in H. lia.
  - apply (f_equal String.length) in H. rewrite (string_length_app "") in H.
    change (String c a +:+ s) with (String c (a +:+ s)) in H. simpl in H.
    rewrite string_length_app in H. lia.
  - change (String c (a +:+ s) = String d (b +:+ s)) in H. injection H as -> H. f_equal. by apply IH.
Qed.
Section keys.
Context `{UT : !UuidText}.
Lemma settle_key_inj a b : settleIdempotencyKey a = settleIdempotencyKey b -> a = b.
Proof. unfold settleIdempotencyKey. intros [= H].
  change (uuid_string a +:+ ":settle" = uuid_string b +:+ ":settle") in H.
  by apply app_suffix_inj, uuid_string_inj in H.
Qed.
Lemma cancel_key_inj a b : cancelIdempotencyKey a = cancelIdempotencyKey b -> a = b.
Proof. unfold cancelIdempotencyKey. intros [= H].
  change (uuid_string a +:+ ":cancel" = uuid_string b +:+ ":cancel") in H.
  by apply app_suffix_inj, uuid_string_inj in H.
Qed.
Lemma key_ends a b :
  holdIdempotencyKey a <> settleIdempotencyKey b /\ holdIdempotencyKey a <> cancelIdempotencyKey b /\
  settleIdempotencyKey a <> cancelIdempotencyKey b.
Proof.
  assert (L : forall s e, e <> EmptyString -> last_char ("payout:" +:+ s +:+ e) = last_char e).
  { intros s e He. rewrite last_char_app; [by apply last_char_app|]. by destruct s, e. }
  unfold holdIdempotencyKey, settleIdempotencyKey, cancelIdempotencyKey.
  split_and!; intros H; apply (f_equal last_char) in H; rewrite !L in H; discriminate.
Qed.
End keys.

Section threads.
Context `{DEC : !Decimal} `{UT : !UuidText} `{LED : !PostingLedger}.
Context (verdict : string -> uuid -> bool) (m : Module_).
Notation psafe := (safe (payout_discipline verdict)).
Notation inv := (payout_inv verdict).
Notation le := (pw_le verdict).

(** ** Posting to the ledger *)
Definition closes_own w (c : Command) : Prop :=
  forall id, IdempotencyScope c = payoutScope ->
    IdempotencyKey c = settleIdempotencyKey id \/ IdempotencyKey c = cancelIdempotencyKey id ->
    exists r h, request w id = Some r /\ pq_hold_tx_id r = Some h /\
      (pq_merchant_tenant_id r = uuid_Nil -> ReferenceID c = h /\ Type_ c ∈ closing_types).

Lemma inv_post w c r l' :
  inv w -> closes_own w c -> post c (pw_ledger w) r l' ->
  inv (set_ledger w l') /\ le w (set_ledger w l').
Proof.
  intros I Hc Hp. pose proof (pi_ledger _ _ I) as Hl. pose proof (post_ledger_le _ _ _ _ Hl Hp) as L.
  split; [|split; [|done]].
  - split; simpl; [by eapply post_lok| |apply (pi_commands _ _ I)|apply (pi_contacted _ _ I)|].
    + intros id r0 Hr. eapply row_ok_le; [exact L|]. by apply (pi_rows _ _ I).
    + intros id tx key Hk [Hkd Hpt].
      destruct (post_new c _ r l' tx Hl Hp Hpt) as [[Hold Hkeys]|[Hown Hclose]].
      * destruct (pi_closed _ _ I id tx key Hk) as (r0 & h & Hr & Hh & Hcl); [by split; auto|].
        exists r0, h. split_and!; [done..|]. intros E. by apply (ll_closer _ _ L), Hcl.
      * assert (Hl' : lok l') by (by eapply post_lok).
        destruct (keyed_key _ _ _ _ _ _ Hl' Hown Hkd) as [E1 E2].
        destruct (Hc id E2) as (r0 & h & Hr & Hh & Hcl); [by rewrite E1|].
        exists r0, h. split_and!; [done..|]. intros E. destruct (Hcl E) as [<- Ht]. auto.
  - intros id r0 Hr. exists r0. split; [done|reflexivity].
Qed.

(** ** Rules for one call and what follows *)
Notation Safe p w := (psafe p (fun _ _ => True) w).
Notation fine := (fine (payout_discipline verdict)).
Lemma fine_db {A} (s : statement A) (Post : A -> pworld -> Prop) :
  stmt_ok verdict s (fun _ => True) Post -> fine (perform (Db s)).
Proof. intros Hs w. eapply safe_weaken; [by eapply safe_db|done]. Qed.
Lemma fine_reads {A} (s : statement A) : reads s -> fine (perform (Db s)).
Proof. intros Hs. eapply fine_db. by apply reads_ok. Qed.

Lemma set_breaker_inv w b : inv w -> inv (set_breaker w b) /\ le w (set_breaker w b).
Proof.
  intros I. split; [by destruct I|]. split; [|reflexivity].
  intros id r Hr. exists r. split; [done|reflexivity].
Qed.
Lemma fine_BreakerAllow v : fine (perform (BreakerAllow v)).
Proof. intros w w1 _ I b w2 (now & _ & ->). destruct (set_breaker_inv w1 (Allow (pw_breaker w1) v now).2 I). done. Qed.
Lemma fine_BreakerSuccess v : fine (perform (BreakerSuccess v)).
Proof. intros w w1 _ I b w2 ->. edestruct (set_breaker_inv w1); done. Qed.
Lemma fine_BreakerFailure v : fine (perform (BreakerFailure v)).
Proof. intros w w1 _ I b w2 (now & ->). edestruct (set_breaker_inv w1); done. Qed.

(** What a successful Post and the lookup after it tell. *)
Lemma safe_post c w :
  IdempotencyScope c = payoutScope -> (forall w', le w w' -> closes_own w' c) ->
  psafe (perform (Post c))
    (fun err w' => err = None -> exists tx, own_posting (pw_ledger w') (IdempotencyKey c) tx) w.
Proof.
  intros Hsc Hc w1 H1 I1 r w2 (l & Hp & ->). destruct (inv_post w1 c r l I1) as [I2 L2]; [by apply Hc|done|].
  split_and!; [done..|]. simpl. intros ->.
  destruct (post_success c _ l (pi_ledger _ _ I1) Hp) as (tx & Hk & Hpt). rewrite Hsc in Hk. by exists tx.
Qed.
Lemma safe_lookup key w :
  (exists tx, own_posting (pw_ledger w) key tx) ->
  psafe (perform (GetTransactionByIdempotencyKey key payoutScope))
    (fun r w' => match r with inr tx => own_posting (pw_ledger w') key tx | inl _ => True end) w.
Proof.
  intros [tx Htx] w1 H1 I1 [e|tx'] w2 [-> Hk]; [by split_and!|]. split_and!; [done|reflexivity|]. simpl.
  pose proof (own_posting_le _ _ _ _ (wl_ledger _ _ _ H1) Htx) as [Hk1 Hp1].
  rewrite (keyed_unique _ _ _ _ _ (pi_ledger _ _ I1) Hk Hk1). done.
Qed.

Lemma safe_Get id {A} (k : PayoutRequest -> prog (error + A)) w :
  (forall req w', le w w' -> pr_ID req = id -> known verdict w' req -> Safe (k req) w') ->
  Safe (ebind (perform (Db (Get (m_ring m) id))) k) w.
Proof.
  intros Hk. eapply safe_ebind; [eapply safe_db; [apply Get_ok|done]|].
  intros req w' Hw [E Hkn]. by apply Hk.
Qed.

(** The three commands of a request: post, look the transaction up, record it. *)
Lemma safe_recorded key (tr : uuid -> statement bool) w :
  (forall tx, stmt_ok verdict (tr tx) (fun w => own_posting (pw_ledger w) key tx) (fun _ _ => True)) ->
  forall ctx ctx' (k : prog (error + unit)), fine k ->
  (exists tx, own_posting (pw_ledger w) key tx) ->
  Safe (ebind (pwrap ctx (perform (GetTransactionByIdempotencyKey key payoutScope)))
          (fun tx => ebind (pwrap ctx' (perform (Db (tr tx)))) (fun _ => k))) w.
Proof.
  intros Htr ctx ctx' k Hk Htx. eapply safe_ebind; [apply safe_wrap, safe_lookup, Htx|].
  intros tx w' Hw Hown. eapply safe_ebind; [|intros a w2 _ _; apply Hk].
  apply safe_wrap. eapply safe_db; [apply Htr|].
  intros w2 H2. simpl. by eapply own_posting_le; [apply H2|].
Qed.

Lemma hold_fine req : fine (hold req).
Proof.
  intros w. unfold hold. eapply safe_seq; [apply safe_post; [done|]|].
  - intros w' _ id _ [H|H]; by destruct (key_ends (pr_ID req) id) as (? & ? & _).
  - intros [err|] w' _ Hq; [done|]. apply safe_recorded; [apply TransitionToHeld_ok|done|by apply Hq].
Qed.

Lemma SetError_logged id reason : fine (logged (perform (Db (SetError id reason)))).
Proof. eapply fine_logged, fine_db, SetError_ok. Qed.
Lemma after_refusal_fine id err text : fine (after_refusal m id err text).
Proof.
  unfold after_refusal. destruct (errors_is _ _).
  - apply fine_ebind; [eapply fine_wrap, fine_db, Get_ok|]. intros req.
    apply fine_seq; [apply SetError_logged|done].
  - apply fine_seq; [apply SetError_logged|done].
Qed.

Lemma known_hold w req h : known verdict w req -> pr_HoldTxID req = Some h ->
  exists r, request w (pr_ID req) = Some r /\ pq_hold_tx_id r = Some h /\
    pq_merchant_tenant_id r = pr_MerchantTenantID req.
Proof. intros (r & Hr & Ht & _ & Hh) H. exists r. auto. Qed.
Lemma closing_command w key type_ req h meta merchantType :
  known verdict w req -> pr_HoldTxID req = Some h -> type_ ∈ closing_types ->
  (forall id, key = settleIdempotencyKey id \/ key = cancelIdempotencyKey id -> id = pr_ID req) ->
  closes_own w (ledger_command key type_ req h meta merchantType).
Proof.
  intros Hk Hh Ht Hkey id _ ->%Hkey. destruct (known_hold w req h Hk Hh) as (r & Hr & Hrh & E).
  exists r, h. split_and!; [done..|]. intros En.
  assert (Em : pr_MerchantTenantID req = uuid_Nil) by congruence. simpl.
  by rewrite Em, bool_decide_true by done.
Qed.

Lemma settle_fee_fine req : fine (settle_fee req).
Proof.
  unfold settle_fee. repeat case_match; try apply fine_ret.
  apply fine_wrap, fine_quiet. by intros w b w' ->.
Qed.
Lemma settle_fine id gateway : fine (settle m id gateway).
Proof.
  intros w. apply safe_Get. intros req w1 _ Hid Hk. destruct (pr_HoldTxID req) as [h|] eqn:Hh; [|done].
  eapply safe_ebind; [eapply safe_weaken; [apply settle_fee_fine|intros [e|a] ? _ _; exact I]|].
  intros fee w2 H2 _. eapply safe_seq; [apply safe_post; [done|]|].
  - intros w3 H3. apply closing_command; [|done|vm_compute; set_solver|].
    + eapply known_le; [|exact Hk]. by transitivity w2.
    + rewrite Hid. intros id' [E|E]; [by apply settle_key_inj in E|by destruct (key_ends id id')
        as (_ & _ & ?); destruct (key_ends id' id) as (_ & _ & ?)].
  - intros [err|] w3 _ Hq; [apply after_refusal_fine|].
    apply safe_recorded; [apply TransitionToSettled_ok|done|by apply Hq].
Qed.
Lemma cancel_fine id gateway reason : fine (cancel m id gateway reason).
Proof.
  intros w. apply safe_Get. intros req w1 _ Hid Hk. destruct (pr_HoldTxID req) as [h|] eqn:Hh; [|done].
  eapply safe_seq; [apply safe_post; [done|]|].
  - intros w3 H3. apply closing_command; [|done|vm_compute; set_solver|].
    + by eapply known_le.
    + rewrite Hid. intros id' [E|E]; [by destruct (key_ends id' id) as (_ & _ & ?); symmetry in E|
        by apply cancel_key_inj in E].
  - intros [err|] w3 _ Hq; [apply after_refusal_fine|].
    apply safe_recorded; [apply TransitionToCancelled_ok| |by apply Hq].
    apply fine_seq; [case_bool_decide; [apply fine_ret|apply SetError_logged]|intros; apply fine_ret].
Qed.
End threads.
