(* ===== verification/PayoutHandlers.v ===== *)
(** * The relay, the resume job, callbacks, operators and creation are safe *)
From stdpp Require Import prelude gmap strings list relations.
From S2P Require Import Prelude Decimal Errors Currency Processors Flow VendorRouting PayoutRepo VendorCommands.
From S2P Require Import LedgerApi PayoutFlow PayoutInv PayoutStatements PayoutThreads.
Open Scope Z_scope.

Section handlers.
Context `{DEC : !Decimal} `{UT : !UuidText} `{LED : !PostingLedger}.
Context (verdict : string -> uuid -> bool) (m : Module_).
Notation psafe := (safe (payout_discipline verdict)).
Notation inv := (payout_inv verdict).
Notation le := (pw_le verdict).
Notation Safe p w := (psafe p (fun _ _ => True) w).
Notation fine := (fine (payout_discipline verdict)).

(** ** Pieces every handler uses *)
Lemma NewID_fine {A} (k : uuid -> prog A) w :
  (forall i w', le w w' -> Safe (k i) w') -> Safe (pbind (perform NewID) k) w.
Proof. intros Hk. eapply same_world; [by intros ? ? ? ->|done]. Qed.

Lemma read_fine {A} (s : statement A) : reads s -> fine (perform (Db s)).
Proof. apply fine_reads. Qed.
Lemma first_candidate_fine currency exclude cs mm cc :
  fine (first_candidate m currency exclude cs mm cc).
Proof.
  revert mm cc. induction cs as [|c cs IH]; intros mm cc; simpl; [apply fine_ret|].
  case_bool_decide; [done|]. destruct (m_registry m !! _); [|done].
  destruct (negb _); [done|]. apply fine_seq.
  - destruct (m_breaker m); [apply fine_BreakerAllow|apply fine_ret].
  - intros [|]; [apply fine_ret|apply IH].
Qed.
Lemma ResolvePayoutRoute_fine user currency amount exclude :
  fine (ResolvePayoutRoute m user currency amount exclude).
Proof.
  apply fine_ebind; [apply read_fine; by intros ch d a d' [= _ <-]|].
  intros [|c cs]; [apply fine_ret|apply first_candidate_fine].
Qed.
Lemma gatewayForVendor_fine v : fine (gatewayForVendor v).
Proof.
  apply fine_ebind; [apply read_fine; by intros ch d a d' [= _ <-]|]. intros [|]; apply fine_ret.
Qed.
Lemma recordVendorCall_fine id summary r outcome : fine (recordVendorCall id summary r outcome).
Proof. intros w. apply NewID_fine. intros i w' _. eapply fine_wrap, fine_db, InsertVendorCall_ok. Qed.
Lemma failCommandLogged_fine id cause : fine (failCommandLogged id cause).
Proof. eapply fine_logged, fine_db, FailCommand_ok. Qed.
Lemma completeCommandLogged_fine id : fine (completeCommandLogged id).
Proof. eapply fine_logged, fine_db, CompleteCommand_ok. Qed.

(** A vendor of the request is enqueued. *)
Lemma enqueue_safe id v w : legit verdict w id v -> Safe (enqueueSubmit id v) w.
Proof.
  intros Hl. apply NewID_fine. intros i w1 H1.
  eapply safe_ebind; [eapply safe_wrap, safe_db; [apply EnqueueInitialSubmit_ok|]|].
  - intros w2 H2. simpl. eapply legit_le; [|exact Hl]. by transitivity w1.
  - by intros [|] w2 _ _.
Qed.
Lemma ensure_safe id v w : legit verdict w id v -> Safe (ensureSubmitCommand id v) w.
Proof.
  intros Hl. apply NewID_fine. intros i w1 H1.
  eapply safe_ebind; [eapply safe_wrap, safe_db; [apply EnsureSubmitCommand_ok|]|done].
  intros w2 H2. simpl. eapply legit_le; [|exact Hl]. by transitivity w1.
Qed.

(** ** Dispatching a command *)
Lemma handleAccepted_fine cmd req result : fine (handleAccepted m cmd req result).
Proof.
  apply fine_seq; [apply gatewayForVendor_fine|]. intros [e|g]; [apply failCommandLogged_fine|].
  case_bool_decide.
  { apply fine_seq; [apply settle_fine|].
    intros [|]; [apply failCommandLogged_fine|apply completeCommandLogged_fine]. }
  case_bool_decide; [|apply failCommandLogged_fine].
  apply fine_seq; [eapply fine_db, TransitionToVendorPending_ok|].
  intros [|]; [apply failCommandLogged_fine|apply completeCommandLogged_fine].
Qed.
Lemma return_hold_fine cmd req result : fine (return_hold m cmd req result).
Proof.
  apply fine_seq; [apply gatewayForVendor_fine|]. intros [e|g]; [apply failCommandLogged_fine|].
  apply fine_seq; [apply cancel_fine|].
  intros [|]; [apply failCommandLogged_fine|apply completeCommandLogged_fine].
Qed.
Lemma handleRejected_fine cmd req result :
  verdict (cmd_Vendor cmd) (pr_ID req) = false -> fine (handleRejected m cmd req result).
Proof.
  intros Hv. apply fine_seq; [apply read_fine; by intros ch d a d' [= _ <-]|].
  intros [e|calls]; [apply failCommandLogged_fine|].
  destruct (negb _); [apply completeCommandLogged_fine|].
  apply fine_seq; [apply read_fine; by intros ch d a d' [= _ <-]|].
  intros [e|tried]; [apply failCommandLogged_fine|].
  apply fine_seq; [apply ResolvePayoutRoute_fine|]. intros [e|[next g]].
  - destruct (negb _); [apply failCommandLogged_fine|apply return_hold_fine].
  - intros w. apply NewID_fine. intros i w1 _. eapply fine_seq.
    + eapply fine_db. by apply CompleteAndEnqueueFailover_ok.
    + intros [e|[|]]; [apply failCommandLogged_fine|apply fine_ret|apply completeCommandLogged_fine].
Qed.

(** The vendor is called for a request it may be sent to. *)
Lemma safe_Submit v id amount currency dest w :
  legit verdict w id v ->
  psafe (perform (Submit v id amount currency dest))
    (fun r _ => match r with
                | inr res => res_Status res = PayoutFailed -> verdict v id = false
                | inl _ => True end) w.
Proof.
  intros Hl w1 H1 I1 r w2 Hop.
  assert (Hc : inv (contact v id w1) /\ le w1 (contact v id w1)).
  { split; [|split; [|reflexivity]].
    - destruct I1 as [L R C K X]. split; try done. intros v' id' Hin. simpl in Hin.
      apply elem_of_union in Hin as [[= -> ->]%elem_of_singleton|Hin]; [|by apply K].
      by apply (legit_le verdict w w1).
    - intros i r0 Hr. exists r0. split; [done|reflexivity]. }
  destruct r as [e|res]; simpl in Hop.
  - destruct Hop as [->| ->]; [split_and!; [done|reflexivity|done]|by destruct Hc].
  - destruct Hop as [-> Hv]. destruct Hc. split_and!; [done..|]. simpl. intros E.
    by rewrite Hv, bool_decide_true.
Qed.

Lemma dispatchOne_safe cmd w :
  legit verdict w (cmd_PayoutRequestID cmd) (cmd_Vendor cmd) -> Safe (dispatchOne m cmd) w.
Proof.
  intros Hl. eapply safe_seq; [eapply safe_db; [apply Get_ok|done]|].
  intros [e|req] w1 H1 HQ; [apply failCommandLogged_fine|]. destruct HQ as [Hid _].
  destruct (negb _); [apply completeCommandLogged_fine|].
  case_bool_decide; [apply failCommandLogged_fine|].
  eapply safe_seq; [apply safe_Submit; rewrite Hid; by eapply legit_le|].
  intros r w2 _ Hr. cbv zeta. apply fine_seq; [apply recordVendorCall_fine|]. intros recorded.
  apply fine_seq.
  { destruct (m_breaker m); [|apply fine_ret].
    destruct r; [apply fine_BreakerFailure|apply fine_BreakerSuccess]. }
  intros _. destruct recorded as [e|u]; [apply failCommandLogged_fine|]. destruct r as [e|result].
  - apply fine_seq; [apply SetError_logged|intros _; apply failCommandLogged_fine].
  - case_bool_decide as E; [|apply handleAccepted_fine]. apply handleRejected_fine, Hr.
    unfold classifySubmitOutcome in E. by case_bool_decide.
Qed.
Lemma dispatch_all_safe cmds w :
  Forall (fun c => legit verdict w (cmd_PayoutRequestID c) (cmd_Vendor c)) cmds ->
  Safe (dispatch_all m cmds) w.
Proof.
  revert w. induction cmds as [|c cmds IH]; intros w Hf; [done|].
  inversion Hf as [|? ? Hc Hf']; subst. eapply (safe_seq _ _ _ (fun _ _ => True)); [by apply dispatchOne_safe|].
  intros _ w1 H1 _. apply IH. eapply Forall_impl; [exact Hf'|]. intros x Hx. by eapply legit_le.
Qed.
Lemma dispatch_claimed_safe (s : statement (list PayoutVendorCommand)) ctx w :
  stmt_ok verdict s (fun _ => True)
    (fun cmds w => Forall (fun c => legit verdict w (cmd_PayoutRequestID c) (cmd_Vendor c)) cmds) ->
  Safe (ebind (pwrap ctx (perform (Db s)))
         (fun cmds => pbind (dispatch_all m cmds) (fun _ => Ret (inr (Z.of_nat (length cmds)))))) w.
Proof.
  intros Hs. eapply safe_ebind; [eapply safe_wrap, safe_db; [exact Hs|done]|].
  intros cmds w1 _ Hf. eapply (safe_seq _ _ _ (fun _ _ => True)); [by apply dispatch_all_safe|done].
Qed.

(** ** Polling, callbacks, operators *)
Lemma route_status_fine id g result : fine (route_status m id g result).
Proof.
  unfold route_status. repeat case_bool_decide;
    [apply settle_fine|apply cancel_fine|apply fine_ret|apply fine_ret].
Qed.
Lemma pollVendorPending_fine req : fine (pollVendorPending m req).
Proof.
  unfold pollVendorPending. case_bool_decide; [apply fine_ret|].
  apply fine_seq; [apply fine_quiet; by intros w b w' ->|]. intros r.
  apply fine_ebind; [apply recordVendorCall_fine|]. intros _. destruct r; [apply fine_ret|].
  apply fine_ebind; [apply gatewayForVendor_fine|]. intros g. apply route_status_fine.
Qed.
Lemma HandleVendorCallback_fine v ref amount currency status unknown :
  fine (HandleVendorCallback m v ref amount currency status unknown).
Proof.
  unfold HandleVendorCallback. destruct (ValidateCode _); [apply fine_ret|].
  destruct (dec_of_string _); [|apply fine_ret]. case_bool_decide; [apply fine_ret|].
  apply fine_seq; [eapply fine_db, GetByVendorReference_ok|]. intros [e|req].
  { destruct (is_not_found e); apply fine_ret. }
  destruct (_ || _); [apply fine_ret|]. case_bool_decide; [apply fine_ret|].
  destruct (_ && _); [apply fine_ret|]. apply fine_ebind; [apply gatewayForVendor_fine|]. intros g.
  apply fine_ebind; [|intros; apply fine_ret].
  case_bool_decide; [apply settle_fine|apply cancel_fine].
Qed.
Lemma AdminCancel_fine id reason : fine (AdminCancel m id reason).
Proof.
  apply fine_ebind; [eapply fine_db, Get_ok|]. intros req. destruct (_ && _); [apply fine_ret|].
  apply fine_ebind; [apply gatewayForVendor_fine|]. intros g. apply cancel_fine.
Qed.
Lemma AdminRetry_fine id : fine (AdminRetry m id).
Proof.
  intros w. apply safe_Get. intros req w1 _ Hid Hk. destruct (negb _); [done|].
  eapply safe_ebind; [eapply safe_wrap, safe_db; [by eapply (reads_ok verdict); intros ch d a d' [= _ <-]|done]|].
  intros [c|] w2 H2 _; [done|]. apply ensure_safe. rewrite <- Hid.
  eapply legit_le; [exact H2|]. by apply known_legit.
Qed.

(** ** Resuming *)
Definition resumes (step : PayoutRequest -> prog (error + unit)) : Prop :=
  forall req w, known verdict w req -> Safe (step req) w.
Lemma resume_created_ok : resumes resume_created.
Proof.
  intros req w Hk. eapply (safe_ebind _ _ _ (fun _ _ => True)).
  { eapply safe_weaken; [apply hold_fine|]. by intros [|]. }
  intros _ w1 H1 _. apply enqueue_safe, known_legit. by eapply known_le.
Qed.
Lemma resume_held_ok : resumes resume_held.
Proof. intros req w Hk. by apply enqueue_safe, known_legit. Qed.
Lemma resume_submitted_ok : resumes resume_submitted.
Proof.
  intros req w Hk. eapply safe_ebind; [eapply safe_db; [by eapply (reads_ok verdict); intros ch d a d' [= _ <-]|done]|].
  intros [c|] w1 H1 _; [done|].
  eapply safe_ebind; [eapply safe_db; [by eapply (reads_ok verdict); intros ch d a d' [= _ <-]|done]|].
  intros [|] w2 H2 _; [done|]. apply ensure_safe, known_legit. eapply known_le; [|exact Hk].
  by transitivity w1.
Qed.
Lemma resume_pending_ok : resumes (pollVendorPending m).
Proof. intros req w _. apply pollVendorPending_fine. Qed.

Lemma resume_all_safe step reqs counts w :
  resumes step -> Forall (known verdict w) reqs -> Safe (resume_all step reqs counts) w.
Proof.
  intros Hs. revert counts w. induction reqs as [|req reqs IH]; intros counts w Hf; [done|].
  inversion Hf as [|? ? Hk Hf']; subst.
  eapply (safe_seq _ _ _ (fun _ _ => True)); [by apply Hs|]. intros r w1 H1 _. apply IH.
  eapply Forall_impl; [exact Hf'|]. intros x Hx. by eapply known_le.
Qed.
Lemma resume_status_fine status step cutoff counts :
  resumes step -> fine (resume_status m status step cutoff counts).
Proof.
  intros Hs w. eapply safe_ebind; [eapply safe_wrap, safe_db; [apply ListStuck_ok|done]|].
  intros reqs w1 _ Hf. eapply (safe_seq _ _ _ (fun _ _ => True)); [by apply resume_all_safe|done].
Qed.
Lemma ResumeStuck_fine olderThan : fine (ResumeStuck m olderThan).
Proof.
  apply fine_seq; [apply fine_quiet; by intros w b w' ->|]. intros now. cbv zeta.
  apply fine_ebind; [apply resume_status_fine, resume_created_ok|]. intros c1.
  apply fine_ebind; [apply resume_status_fine, resume_held_ok|]. intros c2.
  apply fine_ebind; [apply resume_status_fine, resume_submitted_ok|]. intros c3.
  apply resume_status_fine, resume_pending_ok.
Qed.

(** ** Creating *)
Lemma ensureIntakeOpen_fine : fine (ensureIntakeOpen m).
Proof.
  unfold ensureIntakeOpen. destruct (negb _); [apply fine_ret|].
  apply fine_ebind; [apply fine_wrap, read_fine; by intros ch d a d' [= _ <-]|].
  intros [|]; apply fine_ret.
Qed.
Lemma check_policy_fine currency : fine (check_policy m currency).
Proof.
  unfold check_policy. destruct (m_validatesCurrency m); [|apply fine_ret].
  apply fine_seq; [apply fine_quiet; by intros w b w' ->|]. intros [|]; apply fine_ret.
Qed.
Lemma resolve_currency_fine user requested : fine (resolve_currency user requested).
Proof.
  unfold resolve_currency. case_bool_decide; [apply fine_wrap, fine_quiet; by intros w b w' ->|].
  destruct (ValidateCode _); apply fine_ret.
Qed.
Lemma check_account_fine user currency : fine (check_account m user currency).
Proof.
  unfold check_account. destruct (m_readsAccounts m); [|apply fine_ret].
  apply fine_ebind; [apply fine_wrap, fine_quiet; by intros w b w' ->|]. intros [|]; apply fine_ret.
Qed.
Lemma screen_fine user amount currency : fine (screen m user amount currency).
Proof.
  unfold screen. destruct (m_fraudClient m); [|apply fine_ret].
  apply fine_seq; [apply fine_quiet; by intros w b w' ->|]. intros [[|] ?| |]; apply fine_ret.
Qed.
Lemma TransitionToRejected_logged id reason : fine (logged (perform (Db (TransitionToRejected id reason)))).
Proof. eapply fine_logged, fine_db, TransitionToRejected_ok. Qed.
Lemma consume_quote_fine id user currency quote amount : fine (consume_quote id user currency quote amount).
Proof.
  unfold consume_quote. case_bool_decide; [apply fine_ret|]. destruct (uuid_parse _).
  2: { apply fine_seq; [apply TransitionToRejected_logged|intros; apply fine_ret]. }
  apply fine_seq; [apply fine_quiet; by intros w b w' ->|]. intros [e|[fee g]].
  { apply fine_seq; [apply TransitionToRejected_logged|intros; apply fine_ret]. }
  apply fine_seq; [eapply fine_db, SetQuotedFee_ok|]. intros [e|fee_set]; [|apply fine_ret].
  apply fine_seq; [apply TransitionToRejected_logged|intros; apply fine_ret].
Qed.

(** Holding and enqueueing a request just inserted. *)
Lemma hold_and_enqueue_safe req w : known verdict w req ->
  Safe (pbind (hold req) (fun held => match held with
          | inl err => Ret (inr (pr_ID req, Some (Wrap "payout: hold" err)))
          | inr _ => pbind (logged (enqueueSubmit (pr_ID req) (pr_Vendor req)))
                       (fun _ => Ret (inr (pr_ID req, None))) end)
        : prog (error + (uuid * option error))) w.
Proof.
  intros Hk. eapply (safe_seq _ _ _ (fun _ _ => True)); [apply hold_fine|].
  intros [e|u] w1 H1 _; [done|]. eapply (safe_seq _ _ _ (fun _ _ => True)); [|done].
  eapply (safe_seq _ _ _ (fun _ _ => True)); [|done].
  apply enqueue_safe, known_legit. by eapply known_le.
Qed.
Lemma create_fine user amount dest by_ quote currency rid :
  fine (create m user amount dest by_ quote currency rid).
Proof.
  unfold create. destruct (ValidatePositiveMinorAmount _); [apply fine_ret|].
  apply fine_ebind; [apply ensureIntakeOpen_fine|]. intros _.
  apply fine_ebind; [apply resolve_currency_fine|]. intros cur.
  apply fine_ebind; [apply check_policy_fine|]. intros _.
  apply fine_ebind; [apply check_account_fine|]. intros _.
  apply fine_ebind; [apply screen_fine|]. intros _.
  apply fine_ebind; [apply ResolvePayoutRoute_fine|]. intros [v g] w. apply NewID_fine. intros id w1 _.
  set (req := user_request _ _ _ _ _ _ _ _).
  eapply safe_ebind; [eapply safe_wrap, safe_db; [by apply (Insert_ok verdict (m_ring m) req)|done]|].
  intros u w2 _ Hk. eapply (safe_seq _ _ _ (fun _ _ => True)); [apply consume_quote_fine|].
  intros [e|u'] w3 H3 _; [done|]. apply (hold_and_enqueue_safe req). by eapply known_le.
Qed.
Lemma resolveMerchantVendor_fine env currency amount : fine (resolveMerchantVendor m env currency amount).
Proof.
  unfold resolveMerchantVendor. case_bool_decide.
  - destruct (m_registry m !! _); [|apply fine_ret]. destruct (negb _); apply fine_ret.
  - apply fine_ebind; [apply ResolvePayoutRoute_fine|]. intros [v g]. apply fine_ret.
Qed.
Lemma CreateMerchant_fine tenant env currency amount dest by_ key rid :
  fine (CreateMerchant m tenant env currency amount dest by_ key rid).
Proof.
  unfold CreateMerchant. case_bool_decide; [apply fine_ret|]. case_bool_decide; [apply fine_ret|].
  destruct (ValidatePositiveMinorAmount _); [apply fine_ret|].
  apply fine_ebind; [apply ensureIntakeOpen_fine|]. intros _.
  destruct (ValidateCode _); [apply fine_ret|].
  apply fine_ebind; [apply check_policy_fine|]. intros _.
  apply fine_ebind; [apply resolveMerchantVendor_fine|]. intros v w. apply NewID_fine. intros id w1 _.
  set (req := MkPayoutRequest _ _ _ _ _ _ _ _ _ _ _ _ _ _ _ _ _ _).
  eapply safe_ebind; [eapply safe_wrap, safe_db; [by apply (InsertMerchant_ok verdict (m_ring m) req)|done]|].
  intros [e|stored] w2 _ Hk; [done|].
  lazymatch goal with |- safe _ (ebind _ ?k) _ _ => change (Safe (k stored) w2) end. cbv beta.
  case_bool_decide as E; [|done]. simpl negb. cbv iota.
  apply (hold_and_enqueue_safe req). by apply Hk.
Qed.

(** ** Every handler *)
Lemma entry_fine p : entry m p -> fine p.
Proof.
  destruct 1; try (apply fine_logged).
  - apply create_fine.
  - apply CreateMerchant_fine.
  - apply HandleVendorCallback_fine.
  - intros w. apply dispatch_claimed_safe, ClaimPendingCommands_ok.
  - intros w. apply dispatch_claimed_safe, ClaimFailedCommandsForRetry_ok.
  - eapply fine_wrap, fine_db, ReapStuckCommands_ok.
  - apply ResumeStuck_fine.
  - apply AdminCancel_fine.
  - apply AdminRetry_fine.
  - eapply fine_db, ReplayDeadCommand_ok.
  - eapply fine_db, ReplayAllDeadCommands_ok.
Qed.
End handlers.
