(* ===== verification/PayoutTheorems.v ===== *)
(** * What holds in every reachable state of the payout service
    Then routing: failover, and the choice of a vendor. *)
From stdpp Require Import prelude gmap strings list relations sorting.
From S2P Require Import Prelude Decimal Errors Currency Store TxRepo Processors Handle Frames Lawful Postings.
From S2P Require Import Invariant Outcome Effects Flow VendorRouting PayoutRepo VendorCommands LedgerApi.
From S2P Require Import LedgerService PayoutFlow PayoutInv PayoutStatements PayoutThreads PayoutHandlers.
Open Scope Z_scope.
Section reachable.
Context `{DEC : !Decimal} `{UT : !UuidText} `{LED : !PostingLedger}.
Context (m : Module_) (verdict : string -> uuid -> bool).
(** Other clients of the ledger post in scopes of their own. *)
Lemma foreign_post_ok w c r l :
  payout_inv verdict w -> IdempotencyScope c <> payoutScope -> post c (pw_ledger w) r l ->
  payout_inv verdict (set_ledger w l) /\ pw_le verdict w (set_ledger w l).
Proof. intros I Hsc Hp. eapply inv_post; [done| |done]. by intros id ?. Qed.
Lemma redact_ok w P :
  payout_inv verdict w ->
  let w' := set_pdb w (with_requests (pw_db w) (set_where P redacted (payout_requests (pw_db w)))) in
  payout_inv verdict w' /\ pw_le verdict w w'.
Proof.
  intros I w'. assert (E : forall id r, request w id = Some r ->
    let r' := if P id r then redacted r else r in
    row_le verdict id r r' /\ row_ok (pw_ledger w) id r').
  { intros id r Hr. simpl. destruct (P id r); [by eapply same_columns|].
    split; [reflexivity|]. by apply (pi_rows _ _ I). }
  apply inv_set_db; [done| | |].
  - intros id r Hr. simpl. rewrite lookup_set_where. unfold request in Hr. rewrite Hr. simpl.
    eexists. split; [done|]. by apply E.
  - intros id r'. simpl. rewrite lookup_set_where. intros (r & Hr & ->)%fmap_Some_1. by apply E.
  - intros i c (r & Hr & Hv)%(pi_commands _ _ I). eexists. split.
    + unfold request. simpl. rewrite lookup_set_where. unfold request in Hr. by rewrite Hr.
    + by destruct (P _ r).
Qed.

Lemma payout_env_ok w w' :
  payout_inv verdict w -> payout_env w w' -> payout_inv verdict w' /\ pw_le verdict w w'.
Proof.
  intros I [c r l Hsc Hp|g ru pa|P]; [by eapply foreign_post_ok| |by apply redact_ok].
  apply inv_set_db; [done|intros id r Hr; exists r; by split|apply (pi_rows _ _ I)|apply (pi_commands _ _ I)].
Qed.
Lemma initial_inv c : payout_initial c -> payout_inv verdict c.1.
Proof.
  destruct c as [w ps]. intros (Er & Ec & Hl & Hk & Hv & _). simpl in *.
  split; simpl; [done| | | |].
  - intros id r. unfold request. by rewrite Er, lookup_empty.
  - intros i c. by rewrite Ec, lookup_empty.
  - rewrite Hv. set_solver.
  - intros id tx key _ [H _]. by apply Hk in H.
Qed.
Lemma reachable_inv w ps : payout_reachable m verdict (w, ps) -> payout_inv verdict w.
Proof.
  intros ([w0 ps0] & Hi & Hr). pose proof (initial_inv _ Hi) as I0.
  assert (ps0 = []) as -> by apply Hi.
  exact (reachable_ok (payout_discipline verdict) (entry m) payout_env (entry_fine verdict m)
           payout_env_ok w0 w ps I0 Hr).
Qed.

Lemma inv_exclusive w id r tx tx' :
  payout_inv verdict w -> request w id = Some r -> pq_merchant_tenant_id r = uuid_Nil ->
  own_posting (pw_ledger w) (settleIdempotencyKey id) tx ->
  ~ own_posting (pw_ledger w) (cancelIdempotencyKey id) tx'.
Proof.
  intros I Hr En Hs Hc.
  destruct (pi_closed _ _ I id tx _ (or_introl eq_refl) Hs) as (r1 & h1 & Hr1 & Hh1 & C1).
  destruct (pi_closed _ _ I id tx' _ (or_intror eq_refl) Hc) as (r2 & h2 & Hr2 & Hh2 & C2).
  rewrite Hr in Hr1, Hr2. injection Hr1 as <-. injection Hr2 as <-.
  rewrite Hh1 in Hh2. injection Hh2 as <-. rewrite (C1 En) in C2. injection (C2 En) as <-.
  destruct Hs as [K1 _], Hc as [K2 _].
  destruct (keyed_key _ _ _ _ _ _ (pi_ledger _ _ I) K1 K2) as [E _].
  by destruct (key_ends id id) as (_ & _ & []).
Qed.

(** C5: Two vendors never both take one payout: whatever the interleaving of
    requests, relays, resume jobs, callbacks and operators on any number of
    replicas, with crashes and lost acknowledgements, if a payout reached two
    vendors and both accept it, they are the same vendor. *)
Theorem payout_pays_at_most_one_vendor w ps id v v' :
  payout_reachable m verdict (w, ps) ->
  (v, id) ∈ pw_contacted w -> (v', id) ∈ pw_contacted w ->
  verdict v id = true -> verdict v' id = true -> v = v'.
Proof.
  intros I%reachable_inv Hv Hv' E E'.
  apply (pi_contacted _ _ I) in Hv as (r & Hr & Hw).
  apply (pi_contacted _ _ I) in Hv' as (r' & Hr' & Hw').
  rewrite Hr in Hr'. injection Hr' as <-. destruct Hw as [<-|?], Hw' as [<-|?]; congruence.
Qed.

(** C28: A payout's status agrees with the ledger: in every reachable state a request
    that is held, submitted, pending at the vendor, settled or cancelled carries
    the transaction posted under its own hold key, a settled request the one
    posted under its settle key and a cancelled one that of its cancel key. *)
Theorem payout_status_agrees_with_the_ledger w ps id r :
  payout_reachable m verdict (w, ps) -> payout_requests (pw_db w) !! id = Some r ->
  row_ok (pw_ledger w) id r.
Proof. intros I%reachable_inv Hr. by apply (pi_rows _ _ I). Qed.

(** C12: A user's payout is never both settled and cancelled in the ledger: in no
    reachable state are a settlement and a cancellation of the same request both
    posted. *)
Theorem payout_never_settles_and_cancels w ps id r tx tx' :
  payout_reachable m verdict (w, ps) -> payout_requests (pw_db w) !! id = Some r ->
  pq_merchant_tenant_id r = uuid_Nil ->
  own_posting (pw_ledger w) (settleIdempotencyKey id) tx ->
  ~ own_posting (pw_ledger w) (cancelIdempotencyKey id) tx'.
Proof. intros I%reachable_inv. by apply inv_exclusive. Qed.
End reachable.

(** ** On the posting engine *)
Section engine.
Context `{DEC : !Decimal} `{UT : !UuidText} `{HASH : !Hashing} `{CF : !CollisionFree}.
Context (s : Service) `{!LawfulService s} `{!LawfulRegistry (registry_ s)}.
#[local] Instance engine_ledger : PostingLedger := HandleLedger s.

(** C4: The payout service on top of the posting service: every [Post] being a run of
    [Handle] on the ledger's database, in every reachable state the ledger is
    well formed (balances are the sums of entries, transactions balance, keys
    are unique), a held, settled or cancelled request's transactions have
    entries under its own keys, and the settlement and the cancellation of a
    user's request never both have entries. *)
Theorem payout_over_the_posting_engine (m : Module_) verdict (w : pworld) ps id r :
  payout_reachable m verdict (w, ps) -> payout_requests (pw_db w) !! id = Some r ->
  let d : database := pw_ledger w in
  let posted key tx := key_of s d key payoutScope tx /\ has_entries d tx in
  wf_ledger d /\ keys_unique d /\
  (forall h, pq_hold_tx_id r = Some h -> posted (holdIdempotencyKey id) h) /\
  (pq_status r = StatusSettled -> exists tx, pq_settle_tx_id r = Some tx /\ posted (settleIdempotencyKey id) tx) /\
  (pq_status r = StatusCancelled -> exists tx, pq_settle_tx_id r = Some tx /\ posted (cancelIdempotencyKey id) tx) /\
  (pq_merchant_tenant_id r = uuid_Nil -> forall tx tx',
     posted (settleIdempotencyKey id) tx -> posted (cancelIdempotencyKey id) tx' -> False).
Proof.
  intros I%reachable_inv Hr. pose proof (pi_ledger _ _ I) as L. pose proof (pi_rows _ _ I id r Hr) as [H1 _ H3 H4].
  split_and!; [apply L|apply L|exact H1|exact H3|exact H4|].
  intros En tx tx' Hs Hc. by apply (inv_exclusive verdict w id r tx tx' I Hr En Hs).
Qed.
End engine.

(** ** The order of the routing rules *)
Lemma rule_before_total : Total rule_before.
Proof. intros a b. unfold rule_before. destruct (rr_UserID a), (rr_UserID b); auto; lia. Qed.
Lemma rule_before_trans : Transitive rule_before.
Proof.
  intros a b c. unfold rule_before. destruct (rr_UserID a), (rr_UserID b), (rr_UserID c); try done; lia.
Qed.
#[local] Existing Instances rule_before_total rule_before_trans.

Lemma omap_split {A B} (f : A -> option B) l pre c post :
  omap f l = pre ++ c :: post -> exists l1 a l2, l = l1 ++ a :: l2 /\ f a = Some c /\ omap f l1 = pre.
Proof.
  revert pre. induction l as [|x l IH]; intros pre H; simpl in H; [by destruct pre|].
  destruct (f x) as [y|] eqn:Ef.
  - destruct pre as [|y' pre]; injection H as -> H; [by exists [], x, l|].
    apply IH in H as (l1 & a & l2 & -> & ? & <-). exists (x :: l1), a, l2. split_and!; [done|done|].
    simpl. by rewrite Ef.
  - apply IH in H as (l1 & a & l2 & -> & ? & <-). exists (x :: l1), a, l2. split_and!; [done|done|].
    simpl. by rewrite Ef.
Qed.

Section routing.
Context `{DEC : !Decimal} `{UT : !UuidText} `{LED : !PostingLedger}.
Context (m : Module_) (verdict : string -> uuid -> bool).

Notation runs := (runs (op_step verdict)).
Lemma called {A} (o : op A) w a w' : runs (perform o) w a w' -> op_step verdict _ o w a w'.
Proof. apply runs_perform. Qed.

(** ** Routing *)
(** A vendor the router may choose for the currency. *)
Definition usable (currency : string) (exclude : list string) (vendor : string) : Prop :=
  vendor ∉ exclude /\ exists p, m_registry m !! vendor = Some p /\
    SupportsRequestedCurrency p "payout" currency = true.
(** The breaker, asked during the search, lets nobody through to the vendor. *)
Definition admits_only (c : breaker_call) : Prop := match c with CallAllow _ _ => True | _ => False end.
Definition refused (w : pworld) (vendor : string) : Prop :=
  m_breaker m = true /\ exists cs now, Forall admits_only cs /\
    (Allow (breaker_run (pw_breaker w) cs) vendor now).1 = false.
Definition only_breaker (w w' : pworld) : Prop :=
  pw_db w' = pw_db w /\ pw_ledger w' = pw_ledger w /\ pw_contacted w' = pw_contacted w /\
  exists cs, Forall admits_only cs /\ pw_breaker w' = breaker_run (pw_breaker w) cs.

Lemma only_breaker_refl w : only_breaker w w.
Proof. split_and!; try done. by exists []. Qed.
Lemma only_breaker_trans w1 w2 w3 : only_breaker w1 w2 -> only_breaker w2 w3 -> only_breaker w1 w3.
Proof.
  intros (? & ? & ? & cs & Hcs & E) (? & ? & ? & cs' & Hcs' & E'). split_and!; try congruence.
  exists (cs ++ cs'). split; [by apply Forall_app|]. rewrite E', E. unfold breaker_run. by rewrite foldl_app.
Qed.
Lemma refused_later w w' v : only_breaker w w' -> refused w' v -> refused w v.
Proof.
  intros (_ & _ & _ & cs & Hcs & E) [Hb (cs' & now & Hcs' & Ha)]. split; [done|].
  exists (cs ++ cs'), now. split; [by apply Forall_app|]. unfold breaker_run. rewrite foldl_app.
  unfold breaker_run in E. by rewrite <- E.
Qed.

Lemma first_candidate_runs currency exclude cs mm cc w r w' :
  runs (first_candidate m currency exclude cs mm cc) w r w' ->
  only_breaker w w' /\
  match r with
  | inl _ => Forall (fun c => usable currency exclude (cand_Vendor c) -> refused w (cand_Vendor c)) cs
  | inr route => exists pre c post, cs = pre ++ c :: post /\ route = (cand_Vendor c, cand_Gateway c) /\
      usable currency exclude (cand_Vendor c) /\
      Forall (fun c => usable currency exclude (cand_Vendor c) -> refused w (cand_Vendor c)) pre
  end.
Proof.
  revert mm cc w. induction cs as [|c cs IH]; intros mm cc w; simpl.
  { intros [-> ->]. split; [apply only_breaker_refl|constructor]. }
  assert (Skip : forall mm cc w0, only_breaker w w0 ->
    (usable currency exclude (cand_Vendor c) -> refused w (cand_Vendor c)) ->
    runs (first_candidate m currency exclude cs mm cc) w0 r w' -> only_breaker w w' /\
    match r with
    | inl _ => Forall (fun c => usable currency exclude (cand_Vendor c) -> refused w (cand_Vendor c)) (c :: cs)
    | inr route => exists pre c0 post, c :: cs = pre ++ c0 :: post /\
        route = (cand_Vendor c0, cand_Gateway c0) /\ usable currency exclude (cand_Vendor c0) /\
        Forall (fun c => usable currency exclude (cand_Vendor c) -> refused w (cand_Vendor c)) pre
    end).
  { intros mm' cc' w0 H0 Hc [H1 H2]%IH. split; [by eapply only_breaker_trans|].
    assert (Imp : forall l, Forall (fun c => usable currency exclude (cand_Vendor c) -> refused w0 (cand_Vendor c)) l ->
      Forall (fun c => usable currency exclude (cand_Vendor c) -> refused w (cand_Vendor c)) l).
    { intros l Hl. eapply Forall_impl; [exact Hl|]. intros x Hx Hu. eapply refused_later; eauto. }
    destruct r as [e|route]; [constructor; [done|by apply Imp]|].
    destruct H2 as (pre & c0 & post & -> & ? & ? & Hpre). exists (c :: pre), c0, post.
    split_and!; [done..|constructor; [done|by apply Imp]]. }
  case_bool_decide as Hex; [apply Skip; [apply only_breaker_refl|by intros []]|].
  destruct (m_registry m !! cand_Vendor c) as [p|] eqn:Hp;
    [|apply Skip; [apply only_breaker_refl|by intros (_ & ? & ? & _); congruence]].
  destruct (SupportsRequestedCurrency p "payout" currency) eqn:Hs; simpl;
    [|apply Skip; [apply only_breaker_refl|by intros (_ & ? & ? & ?); congruence]].
  assert (Hu : usable currency exclude (cand_Vendor c)) by (split; eauto).
  rewrite runs_bind. intros (allowed & w1 & Ha & Hr).
  assert (only_breaker w w1 /\ (allowed = false -> refused w (cand_Vendor c))) as [Hw Href].
  { destruct (m_breaker m) eqn:Eb; [|destruct Ha as [-> ->]; split; [apply only_breaker_refl|done]].
    apply called in Ha as (now & -> & ->). split.
    - split_and!; try done. exists [CallAllow (cand_Vendor c) now]. by repeat constructor.
    - intros E. split; [done|]. exists [], now. by split. }
  destruct allowed; [|by eapply Skip; eauto]. destruct Hr as [-> ->]. split; [done|].
  exists [], c, cs. by split_and!.
Qed.

(** Routing picks the best rule: the vendor chosen is the one of an enabled rule
    matching the flow, user, currency and amount, registered for the currency and
    not tried before; every better rule (one for this user before a general one,
    then by priority) with a gateway and a usable vendor was refused by the
    circuit breaker; and the search touches neither tables nor money. *)
Theorem route_is_the_best_rule user currency amount exclude w v g w' :
  runs (ResolvePayoutRoute m user currency amount exclude) w (inr (v, g)) w' ->
  let candidate r := r ∈ (map_to_list (payout_routing_rules (pw_db w))).*2 /\
    rule_matches "payout" user currency (dec_int_part amount) r = true /\
    is_Some (payout_vendor_gateways (pw_db w) !! rr_Vendor r) /\ usable currency exclude (rr_Vendor r) in
  only_breaker w w' /\ payout_vendor_gateways (pw_db w) !! v = Some g /\
  exists r, rr_Vendor r = v /\ candidate r /\
    forall r', candidate r' -> rule_before r r' \/ refused w (rr_Vendor r').
Proof.
  intros H candidate. unfold ResolvePayoutRoute, ebind in H. apply runs_bind in H as (cs & w1 & Hq & H).
  apply called in Hq. destruct cs as [e|cs]; [by destruct H|].
  assert (w1 = w /\ inr (cs, pw_db w) = ResolveCandidates "payout" user currency (dec_int_part amount)
            (DbChoice 0 0 ∅ 0 false) (pw_db w)) as [-> Ecs].
  { destruct Hq as [(ch & a & d & E & -> & [[= <-]|[? [=]]])|[_ [? [=]]]].
    injection E as <- <-. split; [apply set_pdb_same|done]. }
  injection Ecs as Ecs. set (rules := filter _ _) in Ecs. set (d := pw_db w) in *.
  assert (Hf : runs (first_candidate m currency exclude cs false false) w (inr (v, g)) w')
    by (destruct cs; [by destruct H|exact H]).
  apply first_candidate_runs in Hf as (Hob & pre & c & post & E & [= -> ->] & Hu & Hpre).
  split; [done|]. rewrite Ecs in E. apply omap_split in E as (l1 & r & l2 & El & Hc & E1).
  assert (Hgw : payout_vendor_gateways d !! rr_Vendor r = Some (cand_Gateway c) /\ rr_Vendor r = cand_Vendor c).
  { unfold candidate_of in Hc. by apply fmap_Some in Hc as (g' & Hg & ->). }
  destruct Hgw as [Hg Hv]. rewrite <- Hv. split; [done|].
  assert (Hin : forall x, x ∈ l1 ++ r :: l2 <->
    x ∈ (map_to_list (payout_routing_rules d)).*2 /\ rule_matches "payout" user currency (dec_int_part amount) x = true).
  { intros x. rewrite <- El, merge_sort_Permutation. unfold rules. rewrite list_elem_of_filter. tauto. }
  assert (Hr : r ∈ l1 ++ r :: l2) by (apply elem_of_app; right; left).
  exists r. split; [done|]. split.
  { apply Hin in Hr as [? ?]. unfold candidate. split_and!; [done|done|by rewrite Hg|by rewrite Hv]. }
  intros r' (H1 & H2 & [g' Hg'] & Hu'). assert (Hr' : r' ∈ l1 ++ r :: l2) by (by apply Hin).
  pose proof (StronglySorted_merge_sort rule_before rules) as Hsort. rewrite El in Hsort.
  apply elem_of_app in Hr' as [Hr'|[->|Hr']%elem_of_cons].
  - right. rewrite Forall_forall in Hpre. apply (Hpre (MkCandidate (rr_Vendor r') g')); [|done].
    rewrite <- E1. apply list_elem_of_omap. exists r'. split; [done|]. unfold candidate_of. by rewrite Hg'.
  - left. unfold rule_before. destruct (rr_UserID r); lia.
  - left. apply StronglySorted_app in Hsort as (_ & _ & Hsort). apply StronglySorted_cons in Hsort as [Hall _].
    rewrite Forall_forall in Hall. by apply Hall.
Qed.

(** ** The failover guard *)
(** Only the bookkeeping of one dispatch command changes: its status, retries and
    times, not whom it pays nor whose request it is. *)
Definition paid (c : command_row) : string * uuid * Z := (vc_vendor c, vc_payout_request_id c, vc_attempt c).
Definition only_command (i : uuid) (w w' : pworld) : Prop :=
  exists t, w' = set_pdb w (with_commands (pw_db w) t) /\ forall j,
    paid <$> t !! j = paid <$> payout_vendor_commands (pw_db w) !! j /\
    (j <> i -> t !! j = payout_vendor_commands (pw_db w) !! j).
Lemma only_command_refl i w : only_command i w w.
Proof. exists (payout_vendor_commands (pw_db w)). split; [|done]. by destruct w as [[]]. Qed.

Definition keeps_paid (f : command_row -> command_row) : Prop := forall c, paid (f c) = paid c.
Lemma update_only_command i f d n d' w :
  pw_db w = d -> keeps_paid f -> update_commands (is_processing i) f d = inr (n, d') ->
  only_command i w (set_pdb w d').
Proof.
  intros <- Hf H%update_commands_Ok. subst d'. eexists. split; [done|]. intros j.
  rewrite lookup_set_where. destruct (payout_vendor_commands (pw_db w) !! j) as [c|]; simpl; [|done].
  unfold is_processing. split.
  - by case_match; simpl; rewrite ?Hf.
  - intros Hne. by rewrite bool_decide_false.
Qed.
Lemma logged_command i w u w' (s : statement unit) :
  (forall ch a d, s ch (pw_db w) = inr (a, d) -> only_command i w (set_pdb w d)) ->
  runs (logged (perform (Db s))) w u w' -> only_command i w w'.
Proof.
  intros Hs. unfold logged. rewrite runs_bind. intros (r & w1 & Hr%called & [_ ->]).
  destruct Hr as [(ch & a & d & E & -> & _)|[-> _]]; [by eapply Hs|apply only_command_refl].
Qed.
Lemma failCommandLogged_runs i cause w u w' : runs (failCommandLogged i cause) w u w' -> only_command i w w'.
Proof.
  apply logged_command. intros ch a d. unfold FailCommand.
  destruct (update_commands _ _ _) as [|[n d']] eqn:E; [done|]. destruct (n =? 0); [done|].
  intros [= _ <-]. by eapply update_only_command; [..|exact E].
Qed.
Lemma completeCommandLogged_runs i w u w' : runs (completeCommandLogged i) w u w' -> only_command i w w'.
Proof.
  apply logged_command. intros ch a d. unfold CompleteCommand.
  destruct (update_commands _ _ _) as [|[n d']] eqn:E; [done|]. destruct (n =? 0); [done|].
  intros [= _ <-]. by eapply update_only_command; [..|exact E].
Qed.

Definition maybe_paid (c : call_row) : Prop :=
  vl_outcome c = VendorCallAccepted \/ vl_outcome c = VendorCallUncertain.

(** Failover waits for a definitive answer: while any recorded vendor call of
    the request was accepted, or ended without the service knowing, a rejection
    sends it to no other vendor and returns no hold: the ledger, the request and
    every other command stay as they are, and the command at hand is at most
    completed or put up for retry. *)
Theorem failover_needs_definitive_rejections cmd req result w u w' call :
  runs (handleRejected m cmd req result) w u w' ->
  call ∈ payout_vendor_calls (pw_db w) -> vl_request call = pr_ID req -> maybe_paid call ->
  only_command (cmd_ID cmd) w w'.
Proof.
  unfold handleRejected. rewrite runs_bind. intros (r & w1 & Hr%called & H) Hin Hreq Hpaid.
  destruct r as [e|calls].
  - destruct Hr as [(ch & a & d & [= _ <-] & -> & _)|[-> _]]; [rewrite set_pdb_same in H|];
      by apply failCommandLogged_runs in H.
  - destruct Hr as [(ch & a & d & [= <- <-] & -> & [[= ->]|[? [=]]])|[_ [? [=]]]].
    rewrite set_pdb_same in H. replace (mayFailover _) with false in H;
      [by apply completeCommandLogged_runs in H|]. symmetry. apply not_true_iff_false.
    unfold mayFailover. rewrite forallb_forall. intros Hall.
    set (f := fun c => MkCall _ _ _ _ _ _ _) in *. specialize (Hall (f call)).
    assert (Hc : negb (bool_decide (vl_outcome call = VendorCallAccepted)
                       || bool_decide (vl_outcome call = VendorCallUncertain)) = true).
    { apply Hall, list_elem_of_In, list_elem_of_fmap_2. rewrite merge_sort_Permutation.
      by apply list_elem_of_filter. }
    apply negb_true_iff, orb_false_iff in Hc as [?%bool_decide_eq_false ?%bool_decide_eq_false].
    by destruct Hpaid.
Qed.
End routing.
