(* ===== verification/PayoutRun.v ===== *)
(** * Running the payout service: concrete collaborators and whole runs

    Every outside call answered by a function, so that a handler runs by
    evaluation; such a run is one of the interleavings of PayoutInv.  The
    ledger is any that runs: [SpecLedger], or the posting engine itself.
    Then the payout theorems at work on them. *)
From Stdlib Require Import String.
From stdpp Require Import prelude gmap strings list relations.
From S2P Require Import Prelude Decimal Errors Currency Events Store TxRepo Repos Processors Handle Frames.
From S2P Require Import Lawful Postings Invariant Engine Outcome Components Scenarios Effects Flow.
From S2P Require Import VendorRouting PayoutRepo VendorCommands LedgerApi LedgerService PayoutFlow.
From S2P Require Import PayoutInv PayoutTheorems.
Open Scope Z_scope.
#[local] Existing Instance QDecimal.decimal.
#[local] Existing Instance NumUuid.uuid_text.

(** What a vendor answers for a payout, the same each time. *)
Definition vendor_book : Type := string -> uuid -> PayoutResult.
Definition book_verdict (book : vendor_book) (v : string) (id : uuid) : bool :=
  negb (bool_decide (res_Status (book v id) = PayoutFailed)).

(** A time later than every row's, and an id no table has. *)
Definition run_now (d : payout_db) : Z := 1000000 * (1 + Z.of_nat (length (payout_vendor_calls d)))
                                          + 1000000000 * Z.of_nat (size (payout_vendor_commands d)).
Definition run_id (d : payout_db) : uuid :=
  N.of_nat (1 + size (payout_requests d) + 10 * length (payout_vendor_calls d)
            + 1000 * size (payout_vendor_commands d)).
Definition run_choice (d : payout_db) : db_choice := DbChoice (run_now d) 0 ∅ 0 false.

(** A ledger that runs. *)
Record ledger_runner (LED : PostingLedger) := Runner {
  run_post : Command -> lstate -> option error * lstate;
  run_find : string -> string -> lstate -> error + uuid;
  run_post_ok c l : post c l (run_post c l).1 (run_post c l).2;
  run_find_ok k sc l tx : run_find k sc l = inr tx -> keyed l k sc tx;
}.
Arguments run_post {LED} _ _ _. Arguments run_find {LED} _ _ _ _.

Section run.
Context {LED : PostingLedger} (R : ledger_runner LED) (book : vendor_book).

(** The answer to a call; [fails]: the database is unreachable. *)
Definition answer B (fails : bool) (o : op B) : pworld -> B * pworld :=
  match o with
  | Db s => fun w =>
      if fails then (inl (Plain "connection lost"), w)
      else match s (run_choice (pw_db w)) (pw_db w) with
           | inl e => (inl e, w) | inr (a, d) => (inr a, set_pdb w d)
           end
  | NewID => fun w => (run_id (pw_db w), w)
  | Now => fun w => (1000000000000, w)
  | Post c => fun w => let '(r, l) := run_post R c (pw_ledger w) in (r, set_ledger w l)
  | GetTransactionByIdempotencyKey k sc => fun w =>
      (run_find R k sc (pw_ledger w), w)
  | GetUserCurrency _ => fun w => (inr "IDR", w)
  | CurrencyPolicy _ _ => fun w => (None, w)
  | UserCurrencyEnabled _ _ => fun w => (inr true, w)
  | ResolveFee _ _ _ _ _ => fun w => (inr (dec_zero, EmptyString, false), w)
  | ConsumeFeeQuote _ _ _ _ _ _ => fun w => (inl (Plain "quote expired"), w)
  | FraudCheck _ _ _ => fun w => (Verdict false EmptyString, w)
  | Submit v id _ _ _ => fun w => (inr (book v id), contact v id w)
  | Query v id => fun w => (inr (book v id), w)
  | BreakerAllow v => fun w =>
      let r := Allow (pw_breaker w) v (run_now (pw_db w)) in (r.1, set_breaker w r.2)
  | BreakerSuccess v => fun w => (tt, set_breaker w (RecordSuccess (pw_breaker w) v))
  | BreakerFailure v => fun w =>
      (tt, set_breaker w (RecordFailure (pw_breaker w) v (run_now (pw_db w))))
  end.
Context (m : Module_).
Notation verdict := (book_verdict book).

Lemma answer_step B fails (o : op B) w :
  op_step verdict B o w (answer B fails o w).1 (answer B fails o w).2.
Proof.
  destruct o; simpl; try done.
  - destruct fails; [right; by eauto|].
    destruct (s (run_choice (pw_db w)) (pw_db w)) as [e|[a d]] eqn:E; [right; by eauto|].
    left. exists (run_choice (pw_db w)), a, d. simpl. auto.
  - pose proof (run_post_ok _ R c (pw_ledger w)) as Hp. destruct (run_post R c (pw_ledger w)) as [r l].
    by exists l.
  - split; [done|]. destruct (run_find R _ _ _) eqn:E; [done|]. by apply (run_find_ok _ R).
  - by exists (run_now (pw_db w)).
  - by exists (run_now (pw_db w)).
Qed.
Definition run {A} (p : prog A) (faults : list bool) (w : pworld) : A * pworld := exec answer p faults w.
Definition run_all (ps : list (prog unit * list bool)) (w : pworld) : pworld := exec_all answer ps w.
Lemma run_runs {A} (p : prog A) faults w :
  runs (op_step verdict) p w (run p faults w).1 (run p faults w).2.
Proof. apply exec_runs, answer_step. Qed.
Lemma run_all_reachable ps w :
  payout_reachable m verdict (w, []) -> Forall (fun pf => entry m pf.1) ps ->
  payout_reachable m verdict (run_all ps w, []).
Proof.
  intros (c0 & Hi & Hr) He. exists c0. split; [done|]. etransitivity; [exact Hr|].
  by apply exec_all_steps; [apply answer_step|].
Qed.
End run.

(** ** Two vendors *)
Definition demo_provider : Provider := MkProvider None.
Definition demo_ring : Ring := MkRing (fun _ s => inr s) (fun _ s => inr s).
Definition demo_module : Module_ :=
  MkModule demo_ring {["vendora" := demo_provider; "vendorb" := demo_provider]} true true true true true.
(** The first refuses, the second takes the money at once. *)
Definition demo_book : vendor_book := fun v _ =>
  if bool_decide (v = "vendora") then MkPayoutResult "ref-a" PayoutFailed "account closed"
  else MkPayoutResult "ref-b" PayoutSettled EmptyString.
(** Both refuse. *)
Definition refusing_book : vendor_book := fun _ _ => MkPayoutResult "ref" PayoutFailed "closed".

Definition demo_rule (priority : Z) (vendor : string) : RoutingRule :=
  MkRule "payout" priority true None None None None vendor.
Definition demo_pdb : payout_db :=
  PayoutDb ∅ [] ∅ {["vendora" := "bca"; "vendorb" := "bca"]}
    {[1%N := demo_rule 1 "vendora"; 2%N := demo_rule 2 "vendorb"]} false.

Definition demo_create (quote : string) : prog unit :=
  logged (create demo_module 1%N (dec_of_Z 500) "acct-1" "user" quote "IDR" "req-1").
Definition demo_merchant : prog unit :=
  logged (CreateMerchant demo_module 3%N "live" "IDR" (dec_of_Z 500) "acct-1" "gw" "dk-1" "req-1").
Definition demo_dispatch : prog unit := logged (DispatchPendingCommands demo_module 10).
Definition demo_resume : prog unit := logged (ResumeStuck demo_module 0).

(** A request, and two passes of the relay. *)
Definition two_passes : list (prog unit * list bool) :=
  [(demo_create EmptyString, []); (demo_dispatch, []); (demo_dispatch, [])].
Lemma two_passes_entries : Forall (fun pf => entry demo_module pf.1) two_passes.
Proof. repeat constructor. Qed.

(** ** On the specification ledger *)
Program Definition spec_runner : ledger_runner SpecLedger := {|
  run_post := spec_post;
  run_find k sc l := match sl_keys l !! (k, sc) with Some tx => inr tx | None => inl (Plain "not found") end;
|}.
Next Obligation. intros c l. left. auto. Qed.
Next Obligation. intros k sc l tx. simpl. case_match; [|done]. by intros [= ->]. Qed.

Definition spec_pworld : pworld (LED := SpecLedger) :=
  PWorld demo_pdb (SpecState ∅ ∅ 100%N) (NewHealthTracker 5 0) ∅.
Lemma spec_initial : payout_initial (spec_pworld, []).
Proof. repeat split; simpl; try done; intros *; by rewrite lookup_empty. Qed.
Definition spec_run (book : vendor_book) : pworld (LED := SpecLedger) :=
  run_all spec_runner book two_passes spec_pworld.
Lemma spec_run_reachable book : payout_reachable demo_module (book_verdict book) (spec_run book, []).
Proof.
  exact (run_all_reachable spec_runner book demo_module two_passes spec_pworld
           (ex_intro _ (spec_pworld, []) (conj spec_initial (rtc_refl _ _))) two_passes_entries).
Qed.

#[export] Instance plain_hash_collision_free : CollisionFree.
Proof.
  intros k x y H. simpl in H. apply append_inj_length in H as [_ H]; [|done].
  by injection H.
Qed.

(** ** The posting engine as a ledger that runs *)
Section engine.
Context (s : Service) `{!LawfulService s} `{!LawfulRegistry (registry_ s)}.

Definition engine_world (d : database) : world :=
  World d [] 100 0 false None
    (fun n => N.of_nat (n + 1000 * (1 + size (ledger_transactions d) + length (ledger_entries d))))
    0 no_caches.
Definition answer_of (r : result unit) : option error :=
  match r with Ok _ => None | Err e => Some e | Panic => Some (Plain "panic") end.
Definition engine_post (c : Command) (d : database) : option error * database :=
  if bool_decide (transmissible (IdempotencyKey c) (IdempotencyScope c)) then
    let '(r, w) := Handle s c (engine_world d) in (answer_of r, w_db w)
  else (Some (Plain "message too large"), d).
Definition engine_find (key scope : string) (d : database) : error + uuid :=
  if bool_decide (transmissible key scope) then
    match filter (fun kt => t_key_digest kt.2 = Some (digest_of s (stringPtr scope) key))
            (map_to_list (ledger_transactions d)) with
    | [] => inl (Plain "not found")
    | kt :: _ => inr kt.1
    end
  else inl (Plain "message too large").

Program Definition engine_runner : ledger_runner (HandleLedger s) :=
  {| run_post := engine_post; run_find := engine_find |}.
Next Obligation.
  intros c d. unfold engine_post. simpl. case_bool_decide as Ht.
  - right. split; [exact Ht|]. destruct (Handle s c (engine_world d)) as [r w] eqn:E. simpl.
    exists (engine_world d), r, w. split_and!; [done|done|done|]. by destruct r as [[]| |].
  - left. split; [done|by eexists].
Qed.
Next Obligation.
  intros key scope d tx. unfold engine_find. simpl. case_bool_decide as Ht; [|done].
  destruct (filter _ _) as [|[id t] rest] eqn:E; [done|]. intros [= <-]. split; [exact Ht|].
  exists t. assert (Hin : (id, t) ∈ filter (fun kt => t_key_digest kt.2 = Some (digest_of s (stringPtr scope) key))
            (map_to_list (ledger_transactions d))) by (rewrite E; left).
  apply list_elem_of_filter in Hin as [Hd Hin]. by rewrite elem_of_map_to_list in Hin.
Qed.
End engine.

(** ** The worked runs on the posting engine *)
Definition demo_ledger : PostingLedger := HandleLedger demo_service.
Definition engine_pworld : pworld (LED := demo_ledger) :=
  PWorld (LED := demo_ledger) demo_pdb demo_db (NewHealthTracker 5 0) ∅.
Lemma demo_ledger_ok : ledger_ok demo_service demo_db.
Proof.
  split.
  - exact demo_db_wf.
  - intros id id' t t' g Ht _ _ _. destruct (demo_keys _ _ Ht).
  - intros id t k Ht _. destruct (demo_keys _ _ Ht).
  - intros id t Ht _. destruct (demo_keys _ _ Ht).
  - intros id (e & He & _). by apply not_elem_of_nil in He.
Qed.
Lemma engine_initial : payout_initial (LED := demo_ledger) (engine_pworld, []).
Proof.
  unfold payout_initial. split; [reflexivity|]. split; [reflexivity|].
  split; [exact demo_ledger_ok|]. split; [|split; reflexivity].
  intros k tx [_ (t & Ht & _)]. exact (demo_keys _ _ Ht).
Qed.

(** Another client tops the user up, then the payout is requested and relayed. *)
Definition funded : pworld (LED := demo_ledger) :=
  set_ledger engine_pworld (engine_post demo_service (topup "k1" 1000) demo_db).2.
Definition engine_run (book : vendor_book) : pworld (LED := demo_ledger) :=
  run_all (engine_runner demo_service) book two_passes funded.
Lemma other_scope : IdempotencyScope (topup "k1" 1000) <> payoutScope.
Proof. discriminate. Qed.
Lemma engine_run_reachable book :
  payout_reachable (LED := demo_ledger) demo_module (book_verdict book) (engine_run book, []).
Proof.
  exact (run_all_reachable (engine_runner demo_service) book demo_module two_passes funded
    (ex_intro _ (engine_pworld, []) (conj engine_initial (rtc_once _ _
       (ss_env _ (entry demo_module) payout_env engine_pworld [] _ (pe_ledger engine_pworld (topup "k1" 1000) _ _ other_scope
          (run_post_ok _ (engine_runner demo_service) (topup "k1" 1000) demo_db))))))
    two_passes_entries).
Qed.

(** A row of a run, found by evaluation. *)
Definition has_row `{LED : !PostingLedger} (w : pworld) (id : uuid) (P : payout_row -> bool) : bool :=
  match payout_requests (pw_db w) !! id with Some r => P r | None => false end.
Lemma row_exists `{LED : !PostingLedger} (w : pworld) id P :
  has_row w id P = true -> exists r, payout_requests (pw_db w) !! id = Some r /\ P r = true.
Proof. unfold has_row. destruct (payout_requests (pw_db w) !! id) as [r|]; [by exists r|done]. Qed.
Definition user_row (status : string) (r : payout_row) : bool :=
  bool_decide (pq_status r = status) && bool_decide (pq_merchant_tenant_id r = uuid_Nil).
Lemma user_row_true status r :
  user_row status r = true -> pq_status r = status /\ pq_merchant_tenant_id r = uuid_Nil.
Proof. by intros [?%bool_decide_eq_true ?%bool_decide_eq_true]%andb_true_iff. Qed.
Definition spec_settled : pworld (LED := SpecLedger) := spec_run demo_book.

(** Two vendors were asked; only one accepts. *)
Lemma payout_pays_at_most_one_vendor_witness :
  ("vendora", 1%N) ∈ pw_contacted spec_settled /\ ("vendorb", 1%N) ∈ pw_contacted spec_settled /\
  book_verdict demo_book "vendora" 1%N = false /\
  forall v, (v, 1%N) ∈ pw_contacted spec_settled -> book_verdict demo_book v 1%N = true -> v = "vendorb".
Proof.
  assert (Hb : ("vendorb", 1%N) ∈ pw_contacted spec_settled) by (apply (bool_decide_unpack _); vm_compute; exact I).
  split; [apply (bool_decide_unpack _); vm_compute; exact I|]. split; [exact Hb|].
  split; [reflexivity|]. intros v Hv Hok.
  exact (payout_pays_at_most_one_vendor demo_module (book_verdict demo_book) spec_settled [] 1%N v "vendorb"
           (spec_run_reachable demo_book) Hv Hb Hok eq_refl).
Defined.

Lemma payout_status_agrees_with_the_ledger_witness :
  exists r, payout_requests (pw_db spec_settled) !! 1%N = Some r /\ pq_status r = "settled" /\
    row_ok (pw_ledger spec_settled) 1%N r.
Proof.
  destruct (row_exists spec_settled 1%N (user_row "settled")) as (r & Hr & Hst); [vm_compute; reflexivity|].
  exists r. split; [exact Hr|]. split; [exact (proj1 (user_row_true _ _ Hst))|].
  exact (payout_status_agrees_with_the_ledger demo_module (book_verdict demo_book) spec_settled [] 1%N r
           (spec_run_reachable demo_book) Hr).
Defined.

Lemma payout_never_settles_and_cancels_witness :
  own_posting (pw_ledger spec_settled) (settleIdempotencyKey 1%N) 101%N /\
  forall tx, ~ own_posting (pw_ledger spec_settled) (cancelIdempotencyKey 1%N) tx.
Proof.
  assert (Hs : own_posting (pw_ledger spec_settled) (settleIdempotencyKey 1%N) 101%N).
  { split; [vm_compute; reflexivity|]. exists (settleIdempotencyKey 1%N, payoutScope). vm_compute. reflexivity. }
  split; [exact Hs|]. intros tx.
  destruct (row_exists spec_settled 1%N (user_row "settled")) as (r & Hr & Hst); [vm_compute; reflexivity|].
  exact (payout_never_settles_and_cancels demo_module (book_verdict demo_book) spec_settled [] 1%N r 101%N tx
           (spec_run_reachable demo_book) Hr (proj2 (user_row_true _ _ Hst)) Hs).
Defined.

(** On the posting engine: the cancelled payout of the refusing vendors. *)
Lemma payout_over_the_posting_engine_witness :
  exists r tx, payout_requests (pw_db (engine_run refusing_book)) !! 1%N = Some r /\
    pq_status r = "cancelled" /\ pq_settle_tx_id r = Some tx /\
    has_entries (pw_ledger (engine_run refusing_book)) tx /\
    wf_ledger (pw_ledger (engine_run refusing_book)).
Proof.
  destruct (row_exists (engine_run refusing_book) 1%N (user_row "cancelled")) as (r & Hr & Hst);
    [vm_compute; reflexivity|].
  destruct (payout_over_the_posting_engine demo_service demo_module (book_verdict refusing_book)
             (engine_run refusing_book) [] 1%N r (engine_run_reachable refusing_book) Hr)
    as (Hwf & _ & _ & _ & Hc & _).
  destruct (Hc (proj1 (user_row_true _ _ Hst))) as (tx & Htx & _ & He).
  exists r, tx. split; [exact Hr|]. split; [exact (proj1 (user_row_true _ _ Hst))|]. auto.
Defined.

(** ** Routing and failover *)
Definition demo_route (exclude : list string) : prog (error + (string * string)) :=
  ResolvePayoutRoute demo_module 1%N "IDR" (dec_of_Z 500) exclude.
Definition route_world (exclude : list string) : pworld :=
  (run spec_runner demo_book (demo_route exclude) [] spec_pworld).2.
Lemma route_answer :
  runs (op_step (book_verdict demo_book)) (demo_route ["vendora"]) spec_pworld (inr ("vendorb", "bca"))
    (route_world ["vendora"]).
Proof.
  assert (E : (run spec_runner demo_book (demo_route ["vendora"]) [] spec_pworld).1 = inr ("vendorb", "bca"))
    by (vm_compute; reflexivity).
  rewrite <- E. exact (run_runs spec_runner demo_book (demo_route ["vendora"]) [] spec_pworld).
Qed.
Lemma route_is_the_best_rule_witness :
  only_breaker spec_pworld (route_world ["vendora"]) /\
  payout_vendor_gateways demo_pdb !! "vendorb" = Some "bca".
Proof.
  destruct (route_is_the_best_rule demo_module (book_verdict demo_book) 1%N "IDR" (dec_of_Z 500) ["vendora"]
              spec_pworld "vendorb" "bca" _ route_answer) as (H1 & H2 & _). exact (conj H1 H2).
Defined.

(** The settled payout's second vendor accepted: a late rejection moves nothing. *)
Definition late_command : PayoutVendorCommand := MkVendorCommand 1012%N 1%N "vendorb" 2 "processing" 0 8.
Definition late_request : PayoutRequest := user_request 1%N 1%N (dec_of_Z 500) "IDR" "vendorb" "acct-1" "user" "req-1".
Definition late_rejection : prog unit :=
  handleRejected demo_module late_command late_request (MkPayoutResult "ref" PayoutFailed "late").
Definition accepted_call (c : call_row) : bool :=
  bool_decide (vl_request c = 1%N) && bool_decide (vl_outcome c = VendorCallAccepted).
Lemma accepted_call_exists :
  exists c, c ∈ payout_vendor_calls (pw_db spec_settled) /\ vl_request c = 1%N /\ maybe_paid c.
Proof.
  assert (H : existsb accepted_call (payout_vendor_calls (pw_db spec_settled)) = true)
    by (vm_compute; reflexivity).
  apply existsb_exists in H as (c & Hin%list_elem_of_In & [?%bool_decide_eq_true ?%bool_decide_eq_true]%andb_true_iff).
  exists c. split_and!; [done|done|by left].
Qed.
Lemma failover_needs_definitive_rejections_witness :
  only_command 1012%N spec_settled (run spec_runner demo_book late_rejection [] spec_settled).2.
Proof.
  destruct accepted_call_exists as (c & Hin & Hreq & Hpaid).
  exact (failover_needs_definitive_rejections demo_module (book_verdict demo_book) late_command late_request
           _ spec_settled _ _ c (run_runs spec_runner demo_book late_rejection [] spec_settled) Hin Hreq Hpaid).
Defined.

(** ** What the runs showed *)

(** The caller is told that the quote expired, but the rejection of the request
    could not be recorded (which is only logged); the resume job then holds the
    money and the relay pays it out. *)
Definition refused_quote : prog (error + (uuid * option error)) :=
  create demo_module 1%N (dec_of_Z 500) "acct-1" "user" (uuid_string 7%N) "IDR" "req-1".
Definition rejection_lost : list bool := replicate 9 false ++ [true].
Lemma request_with_a_refused_quote_is_paid :
  (run spec_runner demo_book refused_quote rejection_lost spec_pworld).1
    = inr (1%N, Some (Plain "quote expired")) /\
  has_row (run_all spec_runner demo_book
    [(logged refused_quote, rejection_lost); (demo_resume, []); (demo_dispatch, []); (demo_dispatch, [])]
    spec_pworld) 1%N (user_row "settled") = true.
Proof. split; vm_compute; reflexivity. Qed.

(** A half-open probe is handed out when a route is resolved; a request that goes
    no further reports nothing, and every later caller is refused. *)
Definition probed : HealthTracker :=
  (Allow (RecordFailure (NewHealthTracker 1 10) "vendora" 0) "vendora" 20).2.
Lemma abandoned_probe_blocks_the_vendor times :
  admissions probed "vendora" times = replicate (length times) false.
Proof. induction times as [|t ts IH]; [reflexivity|]. simpl. f_equal. exact IH. Qed.
