(* ===== verification/PayinRepo.v ===== *)
(** * The payin service's tables and statements

    services/payin/internal/repository: payin_webhook_events, payin_topup_intents
    and the routing tables, with the constraints of services/payin/migrations and
    every statement the service runs. *)
From Stdlib Require Import Ascii String QArith.
From stdpp Require Import prelude gmap strings list sorting.
From S2P Require Import Prelude Decimal Errors Flow VendorRouting.
Open Scope Z_scope.

(** ** Rows *)
Record event_row := EventRow {
  we_vendor : string;
  we_vendor_event_id : string;
  we_external_ref : string;
  we_user_id : uuid;
  we_merchant_tenant_id : uuid;
  we_amount : Z;
  we_currency : string;
  we_fee_quote_id : option uuid;
  we_fee_rule_id : option uuid;
  we_fee_gateway : option string;
  we_fee_amount : Z;
  we_total_debit : Z;
  we_fee_application : string;
  we_fee_quote_consumed_at : option Z;
  we_fee_snapshot_version : Z;
  we_status : string;
  we_error_message : option string;
  we_request_id : option string;
  we_raw : option string;              (* ciphertext; NULL once redacted *)
  we_created_at : Z;
}.
Record intent_row := IntentRow {
  ti_reference : string;
  ti_user_id : uuid;
  ti_merchant_tenant_id : uuid;
  ti_amount : Z;
  ti_currency : string;
  ti_vendor : string;
  ti_gateway : string;
  ti_status : string;
  ti_settled_event_id : option uuid;
  ti_expires_at : Z;
  ti_request_id : option string;
  ti_downstream_key : option string;
  ti_fee_quote_id : option uuid;
  ti_fee_rule_id : option uuid;
  ti_fee_gateway : option string;
  ti_fee_amount : Z;
  ti_total_debit : Z;
  ti_fee_application : string;
  ti_fee_quote_consumed_at : option Z;
  ti_fee_snapshot_version : Z;
}.
Record payin_db := PayinDb {
  payin_webhook_events : gmap uuid event_row;
  payin_topup_intents : gmap uuid intent_row;
  payin_vendor_gateways : gmap string string;
  payin_routing_rules : gmap uuid RoutingRule;
  payin_intake_paused : bool;
}.
Definition with_events (d : payin_db) e :=
  PayinDb e (payin_topup_intents d) (payin_vendor_gateways d) (payin_routing_rules d)
          (payin_intake_paused d).
Definition with_intents (d : payin_db) i :=
  PayinDb (payin_webhook_events d) i (payin_vendor_gateways d) (payin_routing_rules d)
          (payin_intake_paused d).
Definition with_routing (d : payin_db) gateways rules :=
  PayinDb (payin_webhook_events d) (payin_topup_intents d) gateways rules (payin_intake_paused d).

Definition query (A : Type) : Type := db_choice -> payin_db -> error + (A * payin_db).
Definition violates_check : error := PgError "23514" "violates check constraint".
Definition violates_unique : error := PgError "23505" "duplicate key value violates unique constraint".
Definition violates_reference : error := PgError "23503" "violates foreign key constraint".

(** ** Constraints *)
Definition FeeApplicationAddedOnTop : string := "added_on_top".
Definition event_statuses : list string := ["received"; "posted"; "failed"; "blocked"; "ignored"].
Definition event_row_ok (e : event_row) : bool :=
  (0 <? we_amount e) && in_int64 (we_amount e) && bool_decide (we_status e ∈ event_statuses)
  && (0 <=? we_fee_amount e) && (we_total_debit e =? we_amount e)
  && (we_fee_amount e <=? we_total_debit e)
  && bool_decide (we_fee_application e = FeeApplicationAddedOnTop)
  && (0 <? we_fee_snapshot_version e).
Definition TopupStatusPending : string := "pending".
Definition TopupStatusSettled : string := "settled".
Definition TopupStatusExpired : string := "expired".
Definition intent_row_ok (i : intent_row) : bool :=
  (0 <? ti_amount i) && in_int64 (ti_total_debit i)
  && bool_decide (ti_status i ∈ [TopupStatusPending; TopupStatusSettled; TopupStatusExpired])
  && xorb (bool_decide (ti_user_id i = uuid_Nil)) (bool_decide (ti_merchant_tenant_id i = uuid_Nil))
  && (0 <=? ti_fee_amount i) && (ti_total_debit i =? ti_amount i + ti_fee_amount i)
  && bool_decide (ti_fee_application i = FeeApplicationAddedOnTop)
  && (0 <? ti_fee_snapshot_version i).

(** UNIQUE (vendor, vendor_event_id) *)
Definition same_event (vendor eventID : string) (_ : uuid) (e : event_row) : bool :=
  bool_decide (we_vendor e = vendor) && bool_decide (we_vendor_event_id e = eventID).
(** reference UNIQUE, the partial unique index on the fee quote, and the one on
    (merchant_tenant_id, downstream_key) *)
Definition by_reference (reference : string) (_ : uuid) (i : intent_row) : bool :=
  bool_decide (ti_reference i = reference).
Definition by_quote (quote : uuid) (_ : uuid) (i : intent_row) : bool :=
  bool_decide (ti_fee_quote_id i = Some quote).
Definition by_downstream (tenant : uuid) (key : string) (_ : uuid) (i : intent_row) : bool :=
  bool_decide (ti_merchant_tenant_id i = tenant) && bool_decide (ti_downstream_key i = Some key).
Definition absent {R} (P : uuid -> R -> bool) (t : gmap uuid R) : bool :=
  match rows_where P t with [] => true | _ => false end.
Definition intent_is_new (i : intent_row) (t : gmap uuid intent_row) : bool :=
  absent (by_reference (ti_reference i)) t
  && match ti_fee_quote_id i with Some q => absent (by_quote q) t | None => true end.

Definition insert_event (id : uuid) (e : event_row) (d : payin_db) : error + payin_db :=
  if negb (event_row_ok e) then inl violates_check
  else if bool_decide (is_Some (payin_webhook_events d !! id))
          || negb (absent (same_event (we_vendor e) (we_vendor_event_id e)) (payin_webhook_events d)) then
    inl violates_unique
  else inr (with_events d (<[id := e]> (payin_webhook_events d))).
Definition insert_intent (id : uuid) (i : intent_row) (d : payin_db) : error + payin_db :=
  if negb (intent_row_ok i) then inl violates_check
  else if bool_decide (is_Some (payin_topup_intents d !! id))
          || negb (intent_is_new i (payin_topup_intents d)) then inl violates_unique
  else inr (with_intents d (<[id := i]> (payin_topup_intents d))).

(** UPDATE ... WHERE: the number of rows. *)
Definition update_events (P : uuid -> event_row -> bool) (f : event_row -> event_row) (d : payin_db)
    : error + (Z * payin_db) :=
  let hit := rows_where P (payin_webhook_events d) in
  if forallb (fun r => event_row_ok (f r.2)) hit
  then inr (Z.of_nat (length hit), with_events d (set_where P f (payin_webhook_events d)))
  else inl violates_check.
Definition update_intents (P : uuid -> intent_row -> bool) (f : intent_row -> intent_row) (d : payin_db)
    : error + (Z * payin_db) :=
  let hit := rows_where P (payin_topup_intents d) in
  if forallb (fun r => intent_row_ok (f r.2)) hit
  then inr (Z.of_nat (length hit), with_intents d (set_where P f (payin_topup_intents d)))
  else inl violates_check.

(** ** model.go *)
Section model.
Context `{DEC : !Decimal}.

Record WebhookEvent := MkEvent {
  ev_ID : uuid; ev_Vendor : string; ev_VendorEventID : string; ev_ExternalRef : string;
  ev_UserID : uuid; ev_MerchantTenantID : uuid; ev_Amount : dec; ev_FeeAmount : dec;
  ev_TotalDebit : dec; ev_FeeGateway : string; ev_FeeQuoteID : option uuid;
  ev_FeeRuleID : option uuid; ev_FeeApplication : string; ev_FeeQuoteConsumedAt : option Z;
  ev_FeeSnapshotVersion : Z; ev_Currency : string; ev_Raw : string; ev_Status : string;
  ev_ErrorMessage : string; ev_RequestID : string }.
Record TopupIntent := MkIntent {
  in_ID : uuid; in_Reference : string; in_UserID : uuid; in_MerchantTenantID : uuid;
  in_Amount : dec; in_FeeAmount : dec; in_TotalDebit : dec; in_FeeGateway : string;
  in_FeeQuoteID : option uuid; in_FeeRuleID : option uuid; in_FeeApplication : string;
  in_FeeQuoteConsumedAt : option Z; in_FeeSnapshotVersion : Z; in_Currency : string;
  in_Vendor : string; in_Gateway : string; in_Status : string; in_SettledEventID : option uuid;
  in_DownstreamKey : string; in_ExpiresAt : Z; in_RequestID : string }.

Definition set_financials (i : TopupIntent) (fee total : dec) (gateway application : string)
    (consumed : option Z) (version : Z) : TopupIntent :=
  MkIntent (in_ID i) (in_Reference i) (in_UserID i) (in_MerchantTenantID i) (in_Amount i) fee total
    gateway (in_FeeQuoteID i) (in_FeeRuleID i) application consumed version (in_Currency i)
    (in_Vendor i) (in_Gateway i) (in_Status i) (in_SettledEventID i) (in_DownstreamKey i)
    (in_ExpiresAt i) (in_RequestID i).
Definition NormalizeFinancials (i : TopupIntent) : TopupIntent :=
  let fee := if dec_is_negative (in_FeeAmount i) then dec_zero else in_FeeAmount i in
  let total := if dec_is_zero (in_TotalDebit i) then dec_add (in_Amount i) fee else in_TotalDebit i in
  let application := if bool_decide (in_FeeApplication i = EmptyString)
                     then FeeApplicationAddedOnTop else in_FeeApplication i in
  set_financials i fee total (in_FeeGateway i) application (in_FeeQuoteConsumedAt i)
                 (in_FeeSnapshotVersion i).

(** value.BigInt().IsInt64() *)
Definition BigInt_IsInt64 (d : dec) : bool :=
  in_int64 (Z.quot (Qnum (dec_val d)) (Zpos (Qden (dec_val d)))).
(** The test three functions make of an amount: negative, fractional or too large. *)
Definition not_minor (d : dec) : bool :=
  dec_is_negative d || negb (dec_equal d (dec_truncate d)) || negb (BigInt_IsInt64 d).
Definition minorUnits (value : dec) : error + Z :=
  if not_minor value then
    inl (Plain "payin: money amount must be a non-negative integer within int64")
  else inr (dec_int_part value).

Definition redactedRawMarker : string :=
  let q := String "034"%char EmptyString in "{" +:+ q +:+ "redacted" +:+ q +:+ ":true}".
End model.

(** ** Webhook events: repository.go *)
Section events.
Context `{DEC : !Decimal} (ring : Ring).

Definition ErrEventNotFound : error := Plain "payin: webhook event not found".

(** What GetOrInsert makes of the event before it is stored. *)
Definition prepare_event (ev : WebhookEvent) : error + WebhookEvent :=
  if not_minor (ev_FeeAmount ev) then inl (Plain "insert payin webhook event: invalid fee amount")
  else
    let total := if dec_is_zero (ev_TotalDebit ev) then ev_Amount ev else ev_TotalDebit ev in
    if negb (dec_equal total (ev_Amount ev)) || negb (dec_equal total (dec_truncate total))
       || negb (BigInt_IsInt64 total) then
      inl (Plain "insert payin webhook event: total debit must equal provider amount")
    else
      let application := if bool_decide (ev_FeeApplication ev = EmptyString)
                         then FeeApplicationAddedOnTop else ev_FeeApplication ev in
      let version := if ev_FeeSnapshotVersion ev <=? 0 then 1 else ev_FeeSnapshotVersion ev in
      inr (MkEvent (ev_ID ev) (ev_Vendor ev) (ev_VendorEventID ev) (ev_ExternalRef ev) (ev_UserID ev)
             (ev_MerchantTenantID ev) (ev_Amount ev) (ev_FeeAmount ev) total (ev_FeeGateway ev)
             (ev_FeeQuoteID ev) (ev_FeeRuleID ev) application (ev_FeeQuoteConsumedAt ev) version
             (ev_Currency ev) (ev_Raw ev) (ev_Status ev) (ev_ErrorMessage ev) (ev_RequestID ev)).

Definition new_event (ev : WebhookEvent) (ciphertext : string) (now : Z) : event_row :=
  EventRow (ev_Vendor ev) (ev_VendorEventID ev) (ev_ExternalRef ev) (ev_UserID ev)
    (ev_MerchantTenantID ev) (dec_int_part (ev_Amount ev)) (ev_Currency ev) (ev_FeeQuoteID ev)
    (ev_FeeRuleID ev) (nullString (ev_FeeGateway ev)) (dec_int_part (ev_FeeAmount ev))
    (dec_int_part (ev_TotalDebit ev)) (ev_FeeApplication ev) (ev_FeeQuoteConsumedAt ev)
    (ev_FeeSnapshotVersion ev) "received" None (nullString (ev_RequestID ev)) (Some ciphertext) now.
Definition InsertEvent (ev : WebhookEvent) : query unit := fun ch d =>
  match Seal ring (ev_ID ev) (ev_Raw ev) with
  | inl err => inl (Wrap "encrypt payin webhook raw" err)
  | inr ciphertext =>
      match insert_event (ev_ID ev) (new_event ev ciphertext (ch_now ch)) d with
      | inl err => inl err
      | inr d' => inr (tt, d')
      end
  end.

Definition scanEvent (id : uuid) (e : event_row) : error + WebhookEvent :=
  let raw := match we_raw e with
             | None => inr redactedRawMarker
             | Some c => match Open ring id c with
                         | inl err => inl (Wrap "decrypt payin webhook raw" err)
                         | inr plain => inr plain end end in
  match raw with
  | inl err => inl err
  | inr raw =>
      let amount := dec_of_Z (we_amount e) in
      let total := dec_of_Z (we_total_debit e) in
      inr (MkEvent id (we_vendor e) (we_vendor_event_id e) (we_external_ref e) (we_user_id e)
             (we_merchant_tenant_id e) amount (dec_of_Z (we_fee_amount e))
             (if dec_is_zero total then amount else total) (default EmptyString (we_fee_gateway e))
             (we_fee_quote_id e) (we_fee_rule_id e)
             (if bool_decide (we_fee_application e = EmptyString) then FeeApplicationAddedOnTop
              else we_fee_application e)
             (we_fee_quote_consumed_at e)
             (if we_fee_snapshot_version e <=? 0 then 1 else we_fee_snapshot_version e)
             (we_currency e) raw (we_status e) (default EmptyString (we_error_message e))
             (default EmptyString (we_request_id e)))
  end.

(** The key is unique, so at most one row answers. *)
Definition getByVendorEventID (vendor eventID : string) : query WebhookEvent := fun _ d =>
  match rows_where (same_event vendor eventID) (payin_webhook_events d) with
  | [] => inl ErrNoRows
  | (id, e) :: _ => match scanEvent id e with inl err => inl err | inr ev => inr (ev, d) end
  end.
Definition GetEvent (id : uuid) : query WebhookEvent := fun _ d =>
  match payin_webhook_events d !! id with
  | None => inl ErrEventNotFound
  | Some e => match scanEvent id e with inl err => inl err | inr ev => inr (ev, d) end
  end.

Definition set_event (status : string) (err : option string) (e : event_row) : event_row :=
  EventRow (we_vendor e) (we_vendor_event_id e) (we_external_ref e) (we_user_id e)
    (we_merchant_tenant_id e) (we_amount e) (we_currency e) (we_fee_quote_id e) (we_fee_rule_id e)
    (we_fee_gateway e) (we_fee_amount e) (we_total_debit e) (we_fee_application e)
    (we_fee_quote_consumed_at e) (we_fee_snapshot_version e) status err (we_request_id e)
    (we_raw e) (we_created_at e).
Definition set_event_status (ctx : string) (id : uuid) (status : string)
    (err : event_row -> option string) : query unit := fun _ d =>
  match update_events (fun i _ => bool_decide (i = id)) (fun e => set_event status (err e) e) d with
  | inl e => inl (Wrap ctx e)
  | inr (_, d') => inr (tt, d')
  end.
(** None of the three looks at the status the row has. *)
Definition MarkPosted (id : uuid) : query unit :=
  set_event_status "mark payin webhook event posted" id "posted" we_error_message.
Definition MarkFailed (id : uuid) (reason : string) : query unit :=
  set_event_status "mark payin webhook event failed" id "failed"
    (fun _ => Some (String.substring 0 500 reason)).
Definition MarkBlocked (id : uuid) (reason : string) : query unit :=
  set_event_status "mark payin webhook event blocked" id "blocked"
    (fun _ => Some (String.substring 0 500 reason)).

(** Newest first; an empty vendor or status does not filter. *)
Definition event_newest_first (a b : uuid * event_row) : Prop := we_created_at b.2 <= we_created_at a.2.
#[export] Instance event_newest_first_dec : RelDecision event_newest_first.
Proof. intros a b. unfold event_newest_first. apply _. Defined.
Definition selects (filter_ value : string) : bool :=
  bool_decide (filter_ = EmptyString) || bool_decide (value = filter_).
Fixpoint scan_events (rows : list (uuid * event_row)) : error + list WebhookEvent :=
  match rows with
  | [] => inr []
  | (id, e) :: rest =>
      match scanEvent id e with
      | inl err => inl err
      | inr ev => match scan_events rest with inl err => inl err | inr evs => inr (ev :: evs) end
      end
  end.
Definition ListEvents (vendor status : string) (limit offset : nat) : query (list WebhookEvent) :=
  fun _ d =>
  match scan_events (take limit (drop offset (merge_sort event_newest_first
          (rows_where (fun _ e => selects vendor (we_vendor e) && selects status (we_status e))
             (payin_webhook_events d))))) with
  | inl err => inl err | inr evs => inr (evs, d)
  end.
End events.

(** ** Top-up intents: topup_repository.go *)
Section intents.
Context `{DEC : !Decimal}.

Definition new_intent (i : TopupIntent) (amount fee total : Z) (downstream : option string)
    : intent_row :=
  IntentRow (in_Reference i) (in_UserID i) (in_MerchantTenantID i) amount (in_Currency i)
    (in_Vendor i) (in_Gateway i) TopupStatusPending None (in_ExpiresAt i)
    (nullString (in_RequestID i)) downstream (in_FeeQuoteID i) (in_FeeRuleID i)
    (nullString (in_FeeGateway i)) fee total (in_FeeApplication i) (in_FeeQuoteConsumedAt i)
    (in_FeeSnapshotVersion i).
Definition intent_amounts (i : TopupIntent) : error + (Z * Z * Z) :=
  match minorUnits (in_Amount i) with
  | inl err => inl err
  | inr amount =>
      match minorUnits (in_FeeAmount i) with
      | inl err => inl err
      | inr fee => match minorUnits (in_TotalDebit i) with
                   | inl err => inl err
                   | inr total => inr (amount, fee, total) end
      end
  end.
Definition InsertTopupIntent (intent : TopupIntent) : query unit := fun _ d =>
  let i := NormalizeFinancials intent in
  match intent_amounts i with
  | inl err => inl err
  | inr (amount, fee, total) =>
      match insert_intent (in_ID i) (new_intent i amount fee total None) d with
      | inl err => inl (Wrap "insert payin topup intent" err)
      | inr d' => inr (tt, d')
      end
  end.

Definition scanTopupIntent (id : uuid) (i : intent_row) : TopupIntent :=
  NormalizeFinancials (MkIntent id (ti_reference i) (ti_user_id i) (ti_merchant_tenant_id i)
    (dec_of_Z (ti_amount i)) (dec_of_Z (ti_fee_amount i)) (dec_of_Z (ti_total_debit i))
    (default EmptyString (ti_fee_gateway i)) (ti_fee_quote_id i) (ti_fee_rule_id i)
    (ti_fee_application i) (ti_fee_quote_consumed_at i) (ti_fee_snapshot_version i) (ti_currency i)
    (ti_vendor i) (ti_gateway i) (ti_status i) (ti_settled_event_id i)
    (default EmptyString (ti_downstream_key i)) (ti_expires_at i)
    (default EmptyString (ti_request_id i))).
Definition intent_where (P : uuid -> intent_row -> bool) : query (option TopupIntent) := fun _ d =>
  inr (match rows_where P (payin_topup_intents d) with
       | [] => None
       | (id, i) :: _ => Some (scanTopupIntent id i)
       end, d).
Definition GetTopupIntentByReference (reference : string) : query (option TopupIntent) :=
  intent_where (by_reference reference).
Definition GetTopupIntentByFeeQuoteID (quote : uuid) : query (option TopupIntent) :=
  intent_where (by_quote quote).
Definition GetTopupIntent_row (id : uuid) : query TopupIntent := fun _ d =>
  match payin_topup_intents d !! id with
  | None => inl ErrEventNotFound
  | Some i => inr (scanTopupIntent id i, d)
  end.

(** INSERT ... ON CONFLICT DO NOTHING on the downstream key, then the row of the
    key; what goes wrong after the insertion is part of the value, as for payout. *)
Definition InsertMerchantTopupIntent (intent : TopupIntent) : query (error + TopupIntent) := fun _ d =>
  if bool_decide (in_DownstreamKey intent = EmptyString) then
    inl (Plain "insert merchant payin topup intent: downstream key is required")
  else
    let i := NormalizeFinancials intent in
    match intent_amounts i with
    | inl err => inl err
    | inr (amount, fee, total) =>
        let key := in_DownstreamKey i in
        let mine := by_downstream (in_MerchantTenantID i) key in
        let row := new_intent i amount fee total (Some key) in
        let inserted :=
          if absent mine (payin_topup_intents d) then insert_intent (in_ID i) row d
          else if negb (intent_row_ok row) then inl violates_check
          else inr d in
        match inserted with
        | inl err => inl (Wrap "insert merchant payin topup intent" err)
        | inr d' =>
            inr (match rows_where mine (payin_topup_intents d') with
                 | [] => inl (Wrap "read merchant payin topup intent after insert" ErrNoRows)
                 | (id, r) :: _ => inr (scanTopupIntent id r)
                 end, d')
        end
    end.

Definition set_intent (status : string) (settled : option uuid) (i : intent_row) : intent_row :=
  IntentRow (ti_reference i) (ti_user_id i) (ti_merchant_tenant_id i) (ti_amount i) (ti_currency i)
    (ti_vendor i) (ti_gateway i) status settled (ti_expires_at i) (ti_request_id i)
    (ti_downstream_key i) (ti_fee_quote_id i) (ti_fee_rule_id i) (ti_fee_gateway i)
    (ti_fee_amount i) (ti_total_debit i) (ti_fee_application i) (ti_fee_quote_consumed_at i)
    (ti_fee_snapshot_version i).
Definition set_snapshot (fee total : Z) (gateway : option string) (consumed : option Z)
    (i : intent_row) : intent_row :=
  IntentRow (ti_reference i) (ti_user_id i) (ti_merchant_tenant_id i) (ti_amount i) (ti_currency i)
    (ti_vendor i) (ti_gateway i) (ti_status i) (ti_settled_event_id i) (ti_expires_at i)
    (ti_request_id i) (ti_downstream_key i) (ti_fee_quote_id i) (ti_fee_rule_id i) gateway fee
    total (ti_fee_application i) consumed 1.

(** The quote's fee, recorded once; the same fee again is no change. *)
Definition takes_snapshot (id quote : uuid) (fee total : Z) (gateway : string) (i : uuid)
    (r : intent_row) : bool :=
  bool_decide (i = id) && bool_decide (ti_fee_quote_id r = Some quote)
  && bool_decide (ti_status r = TopupStatusPending)
  && match ti_fee_quote_consumed_at r with
     | None => true
     | Some _ => (ti_fee_amount r =? fee) && (ti_total_debit r =? total)
                 && bool_decide (default EmptyString (ti_fee_gateway r) = gateway)
     end.
Definition UpdateTopupFeeSnapshot (id quote : uuid) (fee total : dec) (gateway : string)
    (consumedAt : Z) : query unit := fun _ d =>
  match minorUnits fee with
  | inl err => inl err
  | inr fee =>
      match minorUnits total with
      | inl err => inl err
      | inr total =>
          match update_intents (takes_snapshot id quote fee total gateway)
                  (fun r => set_snapshot fee total (nullString gateway)
                              (Some (default consumedAt (ti_fee_quote_consumed_at r))) r) d with
          | inl err => inl (Wrap "update payin topup fee snapshot" err)
          | inr (n, d') =>
              if n =? 0 then
                inl (Plain "update payin topup fee snapshot: intent is not pending or quote does not match")
              else inr (tt, d')
          end
      end
  end.

Definition pending (P : uuid -> intent_row -> bool) (i : uuid) (r : intent_row) : bool :=
  P i r && bool_decide (ti_status r = TopupStatusPending).
(** settled_event_id references payin_webhook_events. *)
Definition MarkTopupIntentSettled (reference : string) (eventID : uuid) : query bool := fun _ d =>
  match update_intents (pending (by_reference reference))
          (set_intent TopupStatusSettled (Some eventID)) d with
  | inl err => inl (Wrap "mark payin topup intent settled" err)
  | inr (n, d') =>
      if (0 <? n) && negb (bool_decide (is_Some (payin_webhook_events d !! eventID))) then
        inl (Wrap "mark payin topup intent settled" violates_reference)
      else inr (0 <? n, d')
  end.
Definition MarkTopupIntentExpired (id : uuid) : query unit := fun _ d =>
  match update_intents (pending (fun i _ => bool_decide (i = id)))
          (fun r => set_intent TopupStatusExpired (ti_settled_event_id r) r) d with
  | inl err => inl (Wrap "mark payin topup intent expired" err)
  | inr (_, d') => inr (tt, d')
  end.
End intents.

(** ** Routing: routing_repository.go *)
Definition ResolveTopupCandidates (flow : string) (userID : uuid) (currency : string) (amount : Z)
    : query (list RoutingCandidate) := fun _ d =>
  inr (omap (candidate_of (payin_vendor_gateways d))
         (merge_sort rule_before (filter (fun r => rule_matches flow userID currency amount r = true)
            (map_to_list (payin_routing_rules d)).*2)), d).
Definition GetVendorGateway (vendor : string) : query (option string) := fun _ d =>
  inr (payin_vendor_gateways d !! vendor, d).
Definition vendor_le (a b : string * string) : Prop := String.leb a.1 b.1 = true.
#[export] Instance vendor_le_dec : RelDecision vendor_le.
Proof. intros a b. unfold vendor_le. apply _. Defined.
Definition ListVendorGateways : query (list (string * string)) := fun _ d =>
  inr (merge_sort vendor_le (map_to_list (payin_vendor_gateways d)), d).
Definition topup_priority_le (a b : uuid * RoutingRule) : Prop := rr_Priority a.2 <= rr_Priority b.2.
#[export] Instance topup_priority_le_dec : RelDecision topup_priority_le.
Proof. intros a b. unfold topup_priority_le. apply _. Defined.
Definition ListTopupRules : query (list (uuid * RoutingRule)) := fun _ d =>
  inr (merge_sort topup_priority_le (map_to_list (payin_routing_rules d)), d).
Definition store_topup_rule (id : uuid) (rule : RoutingRule) (d : payin_db) : error + payin_db :=
  if negb (rule_ok "topup" rule) then inl violates_check
  else if existsb (fun kr => negb (bool_decide (kr.1 = id))
                    && bool_decide (rr_Flow kr.2 = rr_Flow rule)
                    && (rr_Priority kr.2 =? rr_Priority rule)) (map_to_list (payin_routing_rules d)) then
    inl violates_unique
  else if negb (bool_decide (is_Some (payin_vendor_gateways d !! rr_Vendor rule))) then
    inl violates_reference
  else inr (with_routing d (payin_vendor_gateways d) (<[id := rule]> (payin_routing_rules d))).
Definition CreateTopupRule (id : uuid) (rule : RoutingRule) : query unit := fun _ d =>
  if bool_decide (is_Some (payin_routing_rules d !! id)) then
    inl (Wrap "create payin routing rule" violates_unique)
  else match store_topup_rule id rule d with
       | inl err => inl (Wrap "create payin routing rule" err)
       | inr d' => inr (tt, d')
       end.
Definition UpdateTopupRule (id : uuid) (rule : RoutingRule) : query unit := fun _ d =>
  if bool_decide (is_Some (payin_routing_rules d !! id)) then
    match store_topup_rule id rule d with
    | inl err => inl (Wrap "update payin routing rule" err) | inr d' => inr (tt, d') end
  else inl ErrEventNotFound.
Definition UpsertVendorGateway (vendor gateway : string) : query unit := fun _ d =>
  inr (tt, with_routing d (<[vendor := gateway]> (payin_vendor_gateways d)) (payin_routing_rules d)).
