(* ===== verification/PayinFlow.v ===== *)
(** * The payin service: services/payin/internal/payin

    payin.go (vendor callbacks, posting, replay), topup.go (intents and the fee
    quote handshake), routing.go and merchant.go, written as sequences of calls to
    what lies outside the process: database statements, the ledger, screening, the
    breaker, the vendor session. *)
From Stdlib Require Import Ascii String QArith.
From stdpp Require Import prelude gmap strings list.
From S2P Require Import Prelude Decimal Errors Currency Processors Flow VendorRouting LedgerService.
From S2P Require Import PayinRepo.
Open Scope Z_scope.

(** ** errors.go *)
Definition ErrAlreadyPosted_ : error := Plain "payin: event already posted".
Definition ErrTopupIntentNotFound : error := Plain "payin: topup intent not found".
Definition PayinErrInvalidAmount : error := Plain "payin: invalid minor-unit amount".
Definition PayinErrCurrencyRoute : error :=
  LedgerError ErrCurrencyRouteUnavailable "no payin route declares the requested currency".
Definition ErrFeeQuoteRequired : error := Plain "payin: topup fee quote required".
Definition PayinErrNoRoute : error := Plain "payin: no route".
Definition PayinErrNoVendorAvailable : error := Plain "payin: no vendor available".
Definition PayinErrScreeningDependency : error := Plain "payin: screening dependency unavailable".
Definition PayinErrSandboxVendor : error := Plain "payin: sandbox vendor unavailable".
Definition PayinErrIntakePaused : error := Plain "payin intake paused".

(** businessError marks what a redelivery would not heal. *)
Inductive failure := BusinessFailure (e : error) | OtherFailure (e : error).
Definition isBusinessFailure (err : error) : bool := bool_decide (is_Some (as_ledger_error err)).
Definition isLedgerAlreadyPosted (err : error) : bool :=
  bool_decide (as_ledger_error err = Some ErrAlreadyPosted).

(** ** Calls to the outside *)
Section calls.
Context `{DEC : !Decimal}.

Inductive call : Type -> Type :=
  | Sql {A} (s : query A) : call (error + A)
  | FreshID : call uuid
  | TimeNow : call Z
  | Post (c : Command) : call (option error)
  | UserCurrency (user : uuid) : call (error + string)
  | ValidateCurrency (currency operation : string) : call (option error)
  | AccountEnabled (user : uuid) (currency : string) : call (error + bool)
  | ResolveFee (owner : uuid) (txType gateway currency : string) (amount : dec)
      : call (error + (dec * string * bool))
  | ConsumeFeeQuote (quote owner : uuid) (txType gateway currency : string) (amount : dec)
      (ref : string) : call (error + (dec * string))
  | Screen (user : uuid) (amount : dec) (currency : string) : call screening
  | CreatePayinSession (vendor : string) (id : uuid) (amount : dec) (currency request : string)
      : call (option error)
  | AskBreaker (vendor : string) : call bool.
End calls.
Notation prog := (Flow.prog call).

Section payin.
Context `{DEC : !Decimal} `{UT : !UuidText}.

(** The module's fixed configuration; absent collaborators are [false]. *)
Record PayinModule := MkPayin {
  y_ring : Ring;
  y_registry : gmap string Provider;
  y_breaker : bool;
  y_fraudClient : bool;
  y_session : bool;
  y_db : bool;
  y_validatesCurrency : bool;      (* the poster implements ValidateCurrency *)
  y_readsAccounts : bool;          (* ... UserCurrencyEnabled *)
  y_topupTTL : Z;
}.
Context (m : PayinModule).
Notation db s := (perform (Sql s)).

(** ** GetOrInsert: the INSERT, and on a duplicate key the row that is there *)
Definition set_status (status : string) (ev : WebhookEvent) : WebhookEvent :=
  MkEvent (ev_ID ev) (ev_Vendor ev) (ev_VendorEventID ev) (ev_ExternalRef ev) (ev_UserID ev)
    (ev_MerchantTenantID ev) (ev_Amount ev) (ev_FeeAmount ev) (ev_TotalDebit ev) (ev_FeeGateway ev)
    (ev_FeeQuoteID ev) (ev_FeeRuleID ev) (ev_FeeApplication ev) (ev_FeeQuoteConsumedAt ev)
    (ev_FeeSnapshotVersion ev) (ev_Currency ev) (ev_Raw ev) status (ev_ErrorMessage ev)
    (ev_RequestID ev).
Definition GetOrInsert (ev : WebhookEvent) : prog (error + WebhookEvent) :=
  match prepare_event ev with
  | inl err => Ret (inl err)
  | inr ev =>
      let* inserted := db (InsertEvent (y_ring m) ev) in
      match inserted with
      | inl err =>
          if negb (IsDuplicateKey err) then Ret (inl (Wrap "insert payin webhook event" err))
          else pwrap "lookup existing payin webhook event"
                 (db (getByVendorEventID (y_ring m) (ev_Vendor ev) (ev_VendorEventID ev)))
      | inr _ => Ret (inr (set_status "received" ev))
      end
  end.

(** ** postAndFinalize *)
Record financials := Financials {
  f_principal : dec; f_fee : dec; f_total : dec; f_feeGateway : string; f_application : string;
  f_payinID : uuid; f_quote : option uuid; f_gateway : string }.
Definition or_else (s fallback : string) : string := if bool_decide (s = EmptyString) then fallback else s.

(** The split the event row carries. *)
Definition event_financials (ev : WebhookEvent) (gateway : string) : failure + financials :=
  if negb (dec_is_zero (ev_TotalDebit ev)) then
    if dec_is_negative (ev_TotalDebit ev) || dec_is_negative (ev_FeeAmount ev)
       || dec_ge (ev_FeeAmount ev) (ev_TotalDebit ev) then
      inl (BusinessFailure (Plain "payin: invalid topup financial snapshot"))
    else inr (Financials (dec_sub (ev_TotalDebit ev) (ev_FeeAmount ev)) (ev_FeeAmount ev)
                (ev_TotalDebit ev) (ev_FeeGateway ev)
                (or_else (ev_FeeApplication ev) FeeApplicationAddedOnTop) uuid_Nil (ev_FeeQuoteID ev)
                gateway)
  else inr (Financials (ev_Amount ev) dec_zero (ev_Amount ev) EmptyString FeeApplicationAddedOnTop
              uuid_Nil None gateway).
(** A row without a split reads the intent's. *)
Definition intent_financials (ev : WebhookEvent) (f : financials) : prog (failure + financials) :=
  if negb (bool_decide (ev_ExternalRef ev = EmptyString)) && dec_is_zero (ev_TotalDebit ev) then
    let* found := db (GetTopupIntentByReference (ev_ExternalRef ev)) in
    match found with
    | inl err => Ret (inl (OtherFailure (Wrap "payin: load topup financial snapshot" err)))
    | inr None => Ret (inr f)
    | inr (Some intent) =>
        let intent := NormalizeFinancials intent in
        if negb (dec_equal (in_TotalDebit intent) (ev_Amount ev))
           || negb (bool_decide (in_Currency intent = ev_Currency ev)) then
          Ret (inl (BusinessFailure
            (Plain "payin: settled amount no longer matches topup financial snapshot")))
        else Ret (inr (Financials (in_Amount intent) (in_FeeAmount intent) (in_TotalDebit intent)
               (in_FeeGateway intent) (or_else (in_FeeApplication intent) (f_application f))
               (in_ID intent) (in_FeeQuoteID intent) (or_else (in_Gateway intent) (f_gateway f))))
    end
  else Ret (inr f).

(** Screening before posting; merchant-owned events skip it. *)
Definition screen_event (ev : WebhookEvent) (total : dec) : prog (failure + unit) :=
  if y_fraudClient m && bool_decide (ev_MerchantTenantID ev = uuid_Nil) then
    let* verdict := perform (Screen (ev_UserID ev) total (ev_Currency ev)) in
    match verdict with
    | DependencyUnavailable => Ret (inl (OtherFailure PayinErrScreeningDependency))
    | CheckFailed => Ret (inr tt)
    | Verdict block reason =>
        if (block : bool) then
          let* _ := logged (db (MarkBlocked (ev_ID ev) reason)) in
          Ret (inl (BusinessFailure (Plain "payin: screening blocked")))
        else Ret (inr tt)
    end
  else Ret (inr tt).

Definition eventIdempotencyKey (vendor eventID : string) : string :=
  "payin:" +:+ vendor +:+ ":" +:+ eventID.
Definition eventScope (vendor : string) : string := "payin:" +:+ vendor.
Definition payin_metadata (ev : WebhookEvent) (f : financials) : metadata :=
  let base : metadata :=
    {["gateway" := MString (f_gateway f); "external_ref" := MString (ev_ExternalRef ev);
      "currency_inflight" := MBool true; "provider_reference" := MString (ev_ExternalRef ev);
      "currency" := MString (ev_Currency ev); "total_debit" := MString (dec_string (f_total f));
      "fee_amount" := MString (dec_string (f_fee f)); "fee_application" := MString (f_application f)]} in
  let base := if bool_decide (f_payinID f = uuid_Nil) then base
              else <["payin_id" := MString (uuid_string (f_payinID f))]> base in
  let base := match f_quote f with
              | Some q => <["fee_quote_id" := MString (uuid_string q)]> base | None => base end in
  if dec_is_positive (f_fee f) then <["fee_gateway" := MString (f_feeGateway f)]> base else base.
Definition payin_command (ev : WebhookEvent) (f : financials) : Command :=
  let isMerchant := negb (bool_decide (ev_MerchantTenantID ev = uuid_Nil)) in
  let own := bool_decide (f_payinID f = uuid_Nil) in
  let intentKey := "payin:" +:+ uuid_string (f_payinID f) in
  {| IdempotencyKey := if own then eventIdempotencyKey (ev_Vendor ev) (ev_VendorEventID ev) else intentKey;
     IdempotencyScope := if own then eventScope (ev_Vendor ev) else intentKey;
     Type_ := if isMerchant then "merchant_payin_credit" else "money_in";
     Amount := if isMerchant then f_total f else f_principal f;
     UserID := if isMerchant then uuid_Nil else ev_UserID ev; TargetUserID := uuid_Nil;
     PocketCode := EmptyString; Currency_ := ev_Currency ev; ReferenceID := uuid_Nil;
     Metadata := payin_metadata ev f; QuoteID := EmptyString;
     MerchantTenantID := if isMerchant then ev_MerchantTenantID ev else uuid_Nil |}.

(** What follows the ledger's answer. *)
Definition finalize (ev : WebhookEvent) (postErr : option error) : prog (failure + unit) :=
  if match postErr with None => true | Some err => isLedgerAlreadyPosted err end then
    let* _ := logged (db (MarkPosted (ev_ID ev))) in
    let* _ := if bool_decide (ev_ExternalRef ev = EmptyString) then Ret tt
              else logged (db (MarkTopupIntentSettled (ev_ExternalRef ev) (ev_ID ev))) in
    Ret (inr tt)
  else match postErr with
  | Some err =>
      if isBusinessFailure err then
        let* _ := logged (db (MarkFailed (ev_ID ev) "ledger")) in
        Ret (inl (BusinessFailure err))
      else Ret (inl (OtherFailure (Wrap "payin: post to ledger" err)))
  | None => Ret (inr tt)
  end.
Definition postAndFinalize (ev : WebhookEvent) (gateway : string) : prog (failure + unit) :=
  match event_financials ev gateway with
  | inl err => Ret (inl err)
  | inr f =>
      let? f := intent_financials ev f in
      let? _ := screen_event ev (f_total f) in
      if dec_is_positive (f_fee f) && bool_decide (f_feeGateway f = EmptyString) then
        Ret (inl (BusinessFailure (Plain "payin: topup fee snapshot has no fee gateway")))
      else
        let* postErr := perform (Post (payin_command ev f)) in
        finalize ev postErr
  end.

(** ** HandleVendorCallback *)
Definition CallbackFinalized : string := "finalized".
Definition CallbackAlreadyFinalized : string := "already_finalized".
Definition CallbackIgnored : string := "ignored_non_terminal".
Definition CallbackRecordedUnmatched : string := "recorded_unmatched".

Definition callback_raw (inboxID : string) : string :=
  let q := String "034"%char EmptyString in
  "{" +:+ q +:+ "vendor_inbox_id" +:+ q +:+ ":" +:+ q +:+ inboxID +:+ q +:+ "}".
(** The event before any intent is known to match. *)
Definition bare_event (id : uuid) (vendor eventID reference : string) (amount : dec)
    (currency inboxID requestID : string) : WebhookEvent :=
  MkEvent id vendor eventID reference uuid_Nil uuid_Nil amount dec_zero dec_zero EmptyString None None
    EmptyString None 0 currency (callback_raw inboxID) EmptyString EmptyString requestID.
(** The matched intent's owner and split, copied to the event. *)
Definition matched_event (ev : WebhookEvent) (i : TopupIntent) : WebhookEvent :=
  MkEvent (ev_ID ev) (ev_Vendor ev) (ev_VendorEventID ev) (ev_ExternalRef ev) (in_UserID i)
    (in_MerchantTenantID i) (ev_Amount ev) (in_FeeAmount i) (in_TotalDebit i) (in_FeeGateway i)
    (in_FeeQuoteID i) (in_FeeRuleID i) (in_FeeApplication i) (in_FeeQuoteConsumedAt i)
    (in_FeeSnapshotVersion i) (ev_Currency ev) (ev_Raw ev) (ev_Status ev) (ev_ErrorMessage ev)
    (ev_RequestID ev).
(** The event to store, and why it matches no intent. *)
Definition match_intent (ev : WebhookEvent) (found : option TopupIntent)
    : prog (WebhookEvent * string) :=
  match found with
  | None => Ret (ev, "no matching payin intent")
  | Some i =>
      let i := NormalizeFinancials i in
      if negb (bool_decide (in_Vendor i = ev_Vendor ev)) then
        Ret (ev, "callback vendor does not match payin intent")
      else if negb (bool_decide (in_Status i = TopupStatusPending)) then
        Ret (ev, "payin intent is not pending: " +:+ in_Status i)
      else
        let* now := perform TimeNow in
        if negb (now <? in_ExpiresAt i) then Ret (ev, "payin intent expired")
        else if negb (dec_equal (in_TotalDebit i) (ev_Amount ev))
                || negb (bool_decide (in_Currency i = ev_Currency ev)) then
          Ret (ev, "callback amount or currency does not match payin intent")
        else Ret (matched_event ev i, EmptyString)
  end.

(** What is done with the stored event. *)
Definition settle_event (stored : WebhookEvent) (gateway : option string)
    (status unknownStatus unmatchedReason : string) : prog (error + string) :=
  if bool_decide (ev_Status stored = "posted") then Ret (inr CallbackAlreadyFinalized)
  else if bool_decide (ev_Status stored = "failed") || bool_decide (ev_Status stored = "blocked") then
    Ret (inr CallbackRecordedUnmatched)
  else if negb (bool_decide (status = "settled")) then
    let reason := if bool_decide (unknownStatus = EmptyString) then "non-terminal vendor status"
                  else "unknown vendor status: " +:+ unknownStatus in
    let? _ := db (MarkFailed (ev_ID stored) reason) in
    Ret (inr CallbackIgnored)
  else if negb (bool_decide (unmatchedReason = EmptyString)) then
    let? _ := db (MarkFailed (ev_ID stored) unmatchedReason) in
    Ret (inr CallbackRecordedUnmatched)
  else
    let* posted := postAndFinalize stored (default EmptyString gateway) in
    match posted with
    | inl (BusinessFailure _) => Ret (inr CallbackRecordedUnmatched)
    | inl (OtherFailure err) => Ret (inl err)
    | inr _ => Ret (inr CallbackFinalized)
    end.

Definition HandleVendorCallback (vendor vendorEventID externalReference amountRaw currency status
    inboxID requestID unknownStatus : string) : prog (error + string) :=
  match ValidateCode currency with
  | Some err => Ret (inl (Wrap "payin: invalid normalized callback currency" err))
  | None =>
      match dec_of_string amountRaw with
      | None => Ret (inl (Plain "payin: invalid normalized callback amount"))
      | Some amount =>
          if bool_decide (is_Some (ValidatePositiveMinorAmount amount)) then
            Ret (inl (Plain "payin: invalid normalized callback amount"))
          else
            let? mapping := db (GetVendorGateway vendor) in
            let* id := perform FreshID in
            let ev := bare_event id vendor vendorEventID externalReference amount currency inboxID
                        requestID in
            let? (ev, unmatchedReason) :=
              match mapping with
              | None => Ret (inr (ev, "no payin vendor gateway mapping"))
              | Some _ =>
                  let? found := pwrap "payin: lookup normalized callback intent"
                                  (db (GetTopupIntentByReference externalReference)) in
                  let* matched := match_intent ev found in Ret (inr matched)
              end in
            let? stored := pwrap "payin: persist normalized callback" (GetOrInsert ev) in
            settle_event stored mapping status unknownStatus unmatchedReason
      end
  end.

(** ** ReplayEvent *)
Definition ReplayEvent (id : uuid) : prog (failure + unit) :=
  let* ev := db (GetEvent (y_ring m) id) in
  match ev with
  | inl err => Ret (inl (OtherFailure err))
  | inr ev =>
      if bool_decide (ev_Status ev = "posted") then Ret (inl (OtherFailure ErrAlreadyPosted_))
      else
        let* mapping := db (GetVendorGateway (ev_Vendor ev)) in
        match mapping with
        | inl err => Ret (inl (OtherFailure err))
        | inr None => Ret (inl (OtherFailure (Plain "payin: vendor has no gateway mapping configured")))
        | inr (Some gateway) => postAndFinalize ev gateway
        end
  end.

(** ** Routing: routing.go *)
Fixpoint first_topup_candidate (currency : string) (cs : list RoutingCandidate)
    (mismatch capable : bool) : prog (error + (string * string)) :=
  match cs with
  | [] =>
      Ret (inl (if negb (bool_decide (currency = EmptyString)) && negb (bool_decide (currency = "IDR"))
                   && mismatch && negb capable
                then PayinErrCurrencyRoute else PayinErrNoVendorAvailable))
  | c :: rest =>
      match y_registry m !! cand_Vendor c with
      | None => first_topup_candidate currency rest mismatch capable
      | Some vendor =>
          if negb (SupportsRequestedCurrency vendor "topup" currency) then
            first_topup_candidate currency rest true capable
          else
            let* allowed := if y_breaker m then perform (AskBreaker (cand_Vendor c)) else Ret true in
            if (allowed : bool) then Ret (inr (cand_Vendor c, cand_Gateway c))
            else first_topup_candidate currency rest mismatch true
      end
  end.
Definition ResolveTopupRoute (userID : uuid) (currency : string) (amount : dec)
    : prog (error + (string * string)) :=
  let? candidates := db (ResolveTopupCandidates "topup" userID currency (dec_int_part amount)) in
  match candidates with
  | [] => Ret (inl PayinErrNoRoute)
  | _ => first_topup_candidate currency candidates false false
  end.

(** ** Fees of a top-up: topup.go *)
Definition fee_not_minor : error := Plain "payin: Ledger returned an invalid topup fee".
(** With a quote: the quote is consumed, and with it the time of its consumption.
    Without: the fee the rules give now.  (The poster is contracts/clients/ledger,
    which has both methods; the branches for older posters are left out.) *)
Definition resolveTopupFinancials (owner : uuid) (txType gateway currency : string) (amount : dec)
    (quoteID : option uuid) (ref : string) : prog (error + (dec * string * option Z)) :=
  match quoteID with
  | Some quote =>
      let? (fee, feeGateway) := pwrap "payin: consume topup fee quote"
        (perform (ConsumeFeeQuote quote owner txType gateway currency amount ref)) in
      if not_minor fee then Ret (inl fee_not_minor)
      else let* now := perform TimeNow in Ret (inr (fee, feeGateway, Some now))
  | None =>
      let? (fee, feeGateway, matched) := pwrap "payin: resolve topup fee"
        (perform (ResolveFee owner txType gateway currency amount)) in
      if negb (matched : bool) then Ret (inr (dec_zero, EmptyString, None))
      else if not_minor fee then Ret (inl fee_not_minor)
      else Ret (inr (fee, feeGateway, None))
  end.

Definition topupQuoteReference (intentID : uuid) : string := "payin:" +:+ uuid_string intentID.
Definition exceeds_int64 : error := Plain "payin: topup total debit exceeds int64".

(** The gateway of the intent, looked up again for a row that has none. *)
Definition recover_gateway (intent : TopupIntent) : prog (error + string) :=
  if bool_decide (in_Gateway intent = EmptyString) && negb (bool_decide (in_Vendor intent = EmptyString)) then
    let? mapping := pwrap "payin: recover topup gateway mapping" (db (GetVendorGateway (in_Vendor intent))) in
    match mapping with
    | None => Ret (inl (Plain "payin: recover topup gateway mapping: vendor has no gateway"))
    | Some gateway => Ret (inr gateway)
    end
  else Ret (inr (in_Gateway intent)).
Definition completeQuotedIntent (intent : TopupIntent) : prog (error + TopupIntent) :=
  match in_FeeQuoteID intent with
  | None => Ret (inl (Plain "payin: quoted intent is missing fee_quote_id"))
  | Some quote =>
      if bool_decide (is_Some (in_FeeQuoteConsumedAt intent)) && negb (dec_is_zero (in_TotalDebit intent)) then
        Ret (inr (NormalizeFinancials intent))
      else
        let txType := if bool_decide (in_MerchantTenantID intent = uuid_Nil) then "money_in"
                      else "merchant_payin_credit" in
        let? gateway := recover_gateway intent in
        let? (fee, feeGateway, consumedAt) :=
          resolveTopupFinancials (in_UserID intent) txType gateway (in_Currency intent)
            (in_Amount intent) (Some quote) (topupQuoteReference (in_ID intent)) in
        let total := dec_add (in_Amount intent) fee in
        if negb (BigInt_IsInt64 total) then Ret (inl exceeds_int64)
        else match consumedAt with
        | None => Ret (inl (Plain "payin: consumed fee quote did not return a consumption timestamp"))
        | Some at_ =>
            let? _ := pwrap "payin: persist topup fee snapshot"
              (db (UpdateTopupFeeSnapshot (in_ID intent) quote fee total feeGateway at_)) in
            Ret (inr (set_financials intent fee total feeGateway (in_FeeApplication intent) (Some at_) 1))
        end
  end.

(** ** Creating an intent *)
Definition ensureIntakeOpen : prog (error + unit) :=
  if negb (y_db m) then ok
  else
    let? paused := pwrap "payin intake control" (db (fun _ d => inr (payin_intake_paused d, d))) in
    if (paused : bool) then Ret (inl PayinErrIntakePaused) else ok.
Definition check_policy (currency : string) : prog (error + unit) :=
  if y_validatesCurrency m then
    let* err := perform (ValidateCurrency currency "topup") in
    match err with Some err => Ret (inl (Wrap "payin: currency policy" err)) | None => ok end
  else ok.
Definition intent_currency (userID : uuid) (requested : string) : prog (error + string) :=
  if bool_decide (requested = EmptyString) then
    pwrap "payin: resolve user currency" (perform (UserCurrency userID))
  else match ValidateCode requested with
       | Some err => Ret (inl (Wrap "payin: invalid currency" err))
       | None => Ret (inr requested)
       end.
Definition check_account (userID : uuid) (currency : string) : prog (error + unit) :=
  if y_readsAccounts m then
    let? enabled := pwrap "payin: check currency account" (perform (AccountEnabled userID currency)) in
    if (enabled : bool) then ok
    else Ret (inl (LedgerError ErrCurrencyNotEnabled "currency account is not enabled"))
  else ok.
Definition topup_ttl : Z := if y_topupTTL m <=? 0 then 24 * 3600 * 1000000 else y_topupTTL m.

(** The intent of a quote is inserted fee-free first, then the quote is consumed
    and the fee recorded; when the quote already has an intent, that one is
    completed instead. *)
Definition quoted_intent (intent : TopupIntent) (quote : uuid) : prog (error + TopupIntent) :=
  let* inserted := db (InsertTopupIntent intent) in
  match inserted with
  | inr _ => completeQuotedIntent intent
  | inl err =>
      let? existing := pwrap "payin: recover topup fee quote intent" (db (GetTopupIntentByFeeQuoteID quote)) in
      match existing with
      | None => Ret (inl (Wrap "payin: insert topup intent" err))
      | Some existing =>
          if negb (bool_decide (in_UserID existing = in_UserID intent))
             || negb (bool_decide (in_Currency existing = in_Currency intent))
             || negb (dec_equal (in_Amount existing) (in_Amount intent)) then
            Ret (inl (Plain "payin: fee quote is already bound to a different topup intent"))
          else completeQuotedIntent existing
      end
  end.
Definition unquoted_intent (intent : TopupIntent) : prog (error + TopupIntent) :=
  let? (fee, feeGateway, _) := resolveTopupFinancials (in_UserID intent) "money_in" (in_Gateway intent)
                                 (in_Currency intent) (in_Amount intent) None EmptyString in
  if dec_is_positive fee then Ret (inl (Wrap "non-zero top-up fees require a valid fee quote" ErrFeeQuoteRequired))
  else
    let intent := set_financials intent fee (dec_add (in_Amount intent) fee) feeGateway
                    (in_FeeApplication intent) (in_FeeQuoteConsumedAt intent) (in_FeeSnapshotVersion intent) in
    if negb (BigInt_IsInt64 (in_TotalDebit intent)) then Ret (inl exceeds_int64)
    else
      let? _ := pwrap "payin: insert topup intent" (db (InsertTopupIntent intent)) in
      Ret (inr intent).
Definition open_session (vendor : string) (id : uuid) (total : dec) (currency request : string)
    : prog (error + unit) :=
  if y_session m then
    let* err := perform (CreatePayinSession vendor id total currency request) in
    match err with Some err => Ret (inl (Wrap "payin: create VendorService session" err)) | None => ok end
  else ok.

Definition createTopupIntent (userID : uuid) (amount : dec) (requestedCurrency : string)
    (quoteID : option uuid) (requestID : string) : prog (error + TopupIntent) :=
  if bool_decide (userID = uuid_Nil) then Ret (inl (Wrap "user id is required" PayinErrInvalidAmount))
  else match ValidatePositiveMinorAmount amount with
  | Some err => Ret (inl (Wrap "payin: invalid minor-unit amount" err))
  | None =>
      if negb (BigInt_IsInt64 amount) then
        Ret (inl (Wrap "amount must fit Ledger int64" PayinErrInvalidAmount))
      else
        let? _ := ensureIntakeOpen in
        let? currency := intent_currency userID requestedCurrency in
        let? _ := check_policy currency in
        let? _ := check_account userID currency in
        let? (vendor, gateway) := ResolveTopupRoute userID currency amount in
        let* id := perform FreshID in
        let* ref := perform FreshID in
        let* now := perform TimeNow in
        let intent := MkIntent id ("TOP-" +:+ uuid_string ref) userID uuid_Nil amount dec_zero amount
                        EmptyString quoteID None FeeApplicationAddedOnTop None 1 currency vendor gateway
                        TopupStatusPending None EmptyString (now + topup_ttl) requestID in
        let? intent := match quoteID with
                       | Some quote => quoted_intent intent quote
                       | None => unquoted_intent intent
                       end in
        let? _ := open_session vendor (in_ID intent) (in_TotalDebit intent) currency (in_RequestID intent) in
        Ret (inr intent)
  end.
Definition CreateTopupIntentWithCurrency (userID : uuid) (amount : dec) (currency requestID : string)
    : prog (error + TopupIntent) := createTopupIntent userID amount currency None requestID.
Definition CreateTopupIntentWithCurrencyAndFeeQuote (userID : uuid) (amount : dec)
    (currency : string) (quoteID : uuid) (requestID : string) : prog (error + TopupIntent) :=
  if bool_decide (quoteID = uuid_Nil) then Ret (inl (Plain "payin: fee quote id is required"))
  else createTopupIntent userID amount currency (Some quoteID) requestID.

(** ** Reading an intent *)
Definition with_status (status : string) (i : TopupIntent) : TopupIntent :=
  MkIntent (in_ID i) (in_Reference i) (in_UserID i) (in_MerchantTenantID i) (in_Amount i)
    (in_FeeAmount i) (in_TotalDebit i) (in_FeeGateway i) (in_FeeQuoteID i) (in_FeeRuleID i)
    (in_FeeApplication i) (in_FeeQuoteConsumedAt i) (in_FeeSnapshotVersion i) (in_Currency i)
    (in_Vendor i) (in_Gateway i) status (in_SettledEventID i) (in_DownstreamKey i) (in_ExpiresAt i)
    (in_RequestID i).
(** repository.ErrNotFound becomes ErrTopupIntentNotFound. *)
Definition intent_error (err : error) : error :=
  match err with
  | Plain text => if bool_decide (text = "payin: webhook event not found") then ErrTopupIntentNotFound
                  else err
  | _ => err
  end.
Definition GetTopupIntent (id : uuid) : prog (error + TopupIntent) :=
  let* found := db (GetTopupIntent_row id) in
  match found with
  | inl err => Ret (inl (intent_error err))
  | inr intent =>
      let intent := NormalizeFinancials intent in
      let is_pending := bool_decide (in_Status intent = TopupStatusPending) in
      let? intent := if is_pending && bool_decide (is_Some (in_FeeQuoteID intent))
                        && negb (bool_decide (is_Some (in_FeeQuoteConsumedAt intent)))
                     then completeQuotedIntent intent else Ret (inr intent) in
      if bool_decide (in_Status intent = TopupStatusPending) then
        let* now := perform TimeNow in
        if now <? in_ExpiresAt intent then Ret (inr intent)
        else
          let* marked := db (MarkTopupIntentExpired (in_ID intent)) in
          Ret (inr (match marked with inl _ => intent | inr _ => with_status TopupStatusExpired intent end))
      else Ret (inr intent)
  end.

(** ** Merchant-owned pay-ins: merchant.go *)
Definition sandboxVendor : string := "mockvendor".
Definition resolveMerchantVendor (environment currency : string) (amount : dec) : prog (error + string) :=
  if bool_decide (environment = "sandbox") then
    match y_registry m !! sandboxVendor with
    | None => Ret (inl PayinErrSandboxVendor)
    | Some vendor => if negb (SupportsRequestedCurrency vendor "topup" currency)
                     then Ret (inl PayinErrCurrencyRoute) else Ret (inr sandboxVendor)
    end
  else let? (vendor, _) := ResolveTopupRoute uuid_Nil currency amount in Ret (inr vendor).

Definition CreateMerchantTopupIntent (tenantID : uuid) (environment currency : string) (amount : dec)
    (downstreamKey requestID : string) : prog (error + TopupIntent) :=
  if bool_decide (tenantID = uuid_Nil) then Ret (inl (Plain "payin: tenantID is required"))
  else if bool_decide (downstreamKey = EmptyString) then
    Ret (inl (Plain "payin: downstreamKey is required"))
  else match ValidatePositiveMinorAmount amount with
  | Some err => Ret (inl (Wrap "payin: invalid minor-unit amount" err))
  | None =>
      let? _ := ensureIntakeOpen in
      match ValidateCode currency with
      | Some err => Ret (inl (Wrap "payin: invalid currency" err))
      | None =>
          let? _ := check_policy currency in
          let? vendor := resolveMerchantVendor environment currency amount in
          let? mapping := db (GetVendorGateway vendor) in
          match mapping with
          | None => Ret (inl (Plain "payin: vendor has no gateway mapping"))
          | Some gateway =>
              let? (fee, feeGateway, consumedAt) :=
                resolveTopupFinancials uuid_Nil "merchant_payin_credit" gateway currency amount None EmptyString in
              if dec_is_positive fee then
                Ret (inl (Wrap "non-zero merchant top-up fees require a valid fee quote" ErrFeeQuoteRequired))
              else if negb (BigInt_IsInt64 (dec_add amount fee)) then
                Ret (inl (Plain "payin: merchant topup total debit exceeds int64"))
              else
                let* id := perform FreshID in
                let* ref := perform FreshID in
                let* now := perform TimeNow in
                let intent := MkIntent id ("TOP-" +:+ uuid_string ref) uuid_Nil tenantID amount fee
                                (dec_add amount fee) feeGateway None None FeeApplicationAddedOnTop
                                consumedAt 1 currency vendor gateway TopupStatusPending None downstreamKey
                                (now + topup_ttl) requestID in
                let? stored := pwrap "payin: insert merchant topup intent" (db (InsertMerchantTopupIntent intent)) in
                let? stored := pwrap "payin: insert merchant topup intent" (Ret stored) in
                if negb (bool_decide (in_ID stored = id)) then Ret (inr stored)
                else
                  let? _ := open_session vendor id (dec_add amount fee) currency requestID in
                  Ret (inr stored)
          end
      end
  end.
(** Another tenant's intent looks like a missing one. *)
Definition GetMerchantTopupIntent (tenantID id : uuid) : prog (error + TopupIntent) :=
  let? intent := GetTopupIntent id in
  if negb (bool_decide (in_MerchantTenantID intent = tenantID)) then Ret (inl ErrTopupIntentNotFound)
  else Ret (inr intent).
End payin.
