(* ===== verification/PayinInv.v ===== *)
(** * The payin service among its collaborators: steps and invariant

    Callbacks, replays, intent creation and reads run as threads of any number of
    replicas over one database, one ledger and one breaker; a call may fail before
    or after its effect, a thread may stop anywhere.
    Then how its handlers keep it while others run. *)
From Stdlib Require Import QArith.
From stdpp Require Import prelude gmap strings list relations sorting.
From S2P Require Import Prelude Decimal Errors Currency Processors Flow VendorRouting LedgerApi LedgerService.
From S2P Require Import PayinRepo PayinFlow.
Open Scope Z_scope.
Section payin.
Context `{DEC : !Decimal} `{UT : !UuidText} `{LED : !PostingLedger}.

Record yworld := YWorld {
  yw_db : payin_db;
  yw_ledger : lstate;
  yw_breaker : HealthTracker;
  yw_posts : list Command;      (* commands sent to the ledger so far *)
}.
Definition set_ydb (w : yworld) d := YWorld d (yw_ledger w) (yw_breaker w) (yw_posts w).
Definition set_yledger (w : yworld) l := YWorld (yw_db w) l (yw_breaker w) (yw_posts w).
Definition set_ybreaker (w : yworld) b := YWorld (yw_db w) (yw_ledger w) b (yw_posts w).
Definition sent (c : Command) (l : lstate) (w : yworld) :=
  YWorld (yw_db w) l (yw_breaker w) (c :: yw_posts w).

Definition posted_under (l : lstate) (key scope : string) (tx : uuid) : Prop :=
  keyed l key scope tx /\ is_posted l tx.

(** One outside call.  The ledger says ALREADY_POSTED only of a posted key. *)
Definition call_step B (o : call B) : yworld -> B -> yworld -> Prop :=
  match o with
  | Sql s => fun w r w' =>
      (exists ch a d, s ch (yw_db w) = inr (a, d) /\ w' = set_ydb w d /\
         (r = inr a \/ exists e, r = inl e)) \/
      (w' = w /\ exists e, r = inl e)
  | Post c => fun w r w' => exists l, post c (yw_ledger w) r l /\ w' = sent c l w /\
      forall e, r = Some e -> isLedgerAlreadyPosted e = true ->
        exists tx, posted_under l (IdempotencyKey c) (IdempotencyScope c) tx
  | FreshID | TimeNow | UserCurrency _ | ValidateCurrency _ _ | AccountEnabled _ _
  | ResolveFee _ _ _ _ _ | ConsumeFeeQuote _ _ _ _ _ _ _ | Screen _ _ _
  | CreatePayinSession _ _ _ _ _ => fun w _ w' => w' = w
  | AskBreaker v => fun w r w' => exists now,
      r = (Allow (yw_breaker w) v now).1 /\ w' = set_ybreaker w (Allow (yw_breaker w) v now).2
  end.

(** ** What can run *)
Inductive payin_entry (m : PayinModule) : Flow.prog call unit -> Prop :=
  | y_callback vendor eventID ref amount currency status inbox rid unknown :
      payin_entry m (logged (HandleVendorCallback m vendor eventID ref amount currency status inbox rid unknown))
  | y_replay id : payin_entry m (logged (ReplayEvent m id))
  | y_topup user amount currency rid :
      payin_entry m (logged (CreateTopupIntentWithCurrency m user amount currency rid))
  | y_quoted user amount currency quote rid :
      payin_entry m (logged (CreateTopupIntentWithCurrencyAndFeeQuote m user amount currency quote rid))
  | y_merchant tenant env currency amount key rid :
      payin_entry m (logged (CreateMerchantTopupIntent m tenant env currency amount key rid))
  | y_read id : payin_entry m (logged (GetTopupIntent id))
  | y_read_merchant tenant id : payin_entry m (logged (GetMerchantTopupIntent tenant id)).

(** Other clients of the ledger post in scopes of their own, administrators edit
    the routing tables and the intake switch, retention blanks raw payloads. *)
Definition redact (e : event_row) : event_row :=
  EventRow (we_vendor e) (we_vendor_event_id e) (we_external_ref e) (we_user_id e)
    (we_merchant_tenant_id e) (we_amount e) (we_currency e) (we_fee_quote_id e) (we_fee_rule_id e)
    (we_fee_gateway e) (we_fee_amount e) (we_total_debit e) (we_fee_application e)
    (we_fee_quote_consumed_at e) (we_fee_snapshot_version e) (we_status e) (we_error_message e)
    (we_request_id e) None (we_created_at e).
Inductive payin_env (w : yworld) : yworld -> Prop :=
  | ye_ledger c r l :
      (forall v, IdempotencyScope c <> eventScope v) -> post c (yw_ledger w) r l ->
      payin_env w (set_yledger w l)
  | ye_admin gateways rules paused :
      payin_env w (set_ydb w (PayinDb (payin_webhook_events (yw_db w)) (payin_topup_intents (yw_db w))
                     gateways rules paused))
  | ye_redact P :
      payin_env w (set_ydb w (with_events (yw_db w) (set_where P redact (payin_webhook_events (yw_db w))))).
Definition payin_step (m : PayinModule) := sys_step call_step (payin_entry m) payin_env.

Definition payin_initial (c : yworld * list (Flow.prog call unit)) : Prop :=
  let w := c.1 in
  payin_webhook_events (yw_db w) = ∅ /\ payin_topup_intents (yw_db w) = ∅ /\ lok (yw_ledger w) /\
  (forall v k tx, ~ keyed (yw_ledger w) k (eventScope v) tx) /\ yw_posts w = [] /\ c.2 = [].
Definition payin_reachable (m : PayinModule) c : Prop :=
  exists c0, payin_initial c0 /\ rtc (payin_step m) c0 c.

(** ** The invariant *)
Implicit Types (w : yworld) (e : event_row) (i : intent_row).
Definition event w id := payin_webhook_events (yw_db w) !! id.
Definition intent w id := payin_topup_intents (yw_db w) !! id.
Definition event_posting (l : lstate) e (tx : uuid) : Prop :=
  posted_under l (eventIdempotencyKey (we_vendor e) (we_vendor_event_id e)) (eventScope (we_vendor e)) tx.

Definition ownerless (user merchant : uuid) : Prop := user = uuid_Nil /\ merchant = uuid_Nil.
(** The intent promised what the event credits: to its owner, by its vendor, its
    currency, and its principal is the event's total less the fee. *)
Record backs i e : Prop := {
  bk_reference : ti_reference i = we_external_ref e;
  bk_vendor : ti_vendor i = we_vendor e;
  bk_user : ti_user_id i = we_user_id e;
  bk_merchant : ti_merchant_tenant_id i = we_merchant_tenant_id e;
  bk_currency : ti_currency i = we_currency e;
  bk_amount : ti_amount i = we_total_debit e - we_fee_amount e;
}.
Definition backed w e : Prop :=
  ownerless (we_user_id e) (we_merchant_tenant_id e) \/ exists id i, intent w id = Some i /\ backs i e.

(** The command that credits an event. *)
Record credits (c : Command) e : Prop := {
  cr_key : IdempotencyKey c = eventIdempotencyKey (we_vendor e) (we_vendor_event_id e);
  cr_scope : IdempotencyScope c = eventScope (we_vendor e);
  cr_type : Type_ c = if bool_decide (we_merchant_tenant_id e = uuid_Nil) then "money_in"
                      else "merchant_payin_credit";
  cr_amount : (dec_val (Amount c) == inject_Z (if bool_decide (we_merchant_tenant_id e = uuid_Nil)
                                               then we_total_debit e - we_fee_amount e
                                               else we_total_debit e))%Q;
  cr_user : UserID c = if bool_decide (we_merchant_tenant_id e = uuid_Nil) then we_user_id e else uuid_Nil;
  cr_merchant : MerchantTenantID c = we_merchant_tenant_id e;
  cr_currency : Currency_ c = we_currency e;
}.
Definition credits_event w (c : Command) : Prop := exists id e, event w id = Some e /\ credits c e.

Record payin_inv w : Prop := {
  yi_ledger : lok (yw_ledger w);
  yi_event id e : event w id = Some e -> event_row_ok e = true /\ backed w e;
  yi_one id id' e e' : event w id = Some e -> event w id' = Some e' ->
    we_vendor e = we_vendor e' -> we_vendor_event_id e = we_vendor_event_id e' -> id = id';
  yi_posted id e : event w id = Some e -> we_status e = "posted" ->
    exists tx, event_posting (yw_ledger w) e tx;
  yi_intent id i : intent w id = Some i -> intent_row_ok i = true;
  yi_settled id i : intent w id = Some i -> ti_status i = TopupStatusSettled ->
    exists eid e tx, ti_settled_event_id i = Some eid /\ event w eid = Some e /\
      we_external_ref e = ti_reference i /\ event_posting (yw_ledger w) e tx;
  yi_posts c : c ∈ yw_posts w -> credits_event w c;
  yi_origin k v tx : posted_under (yw_ledger w) k (eventScope v) tx ->
    exists c, c ∈ yw_posts w /\ IdempotencyKey c = k /\ IdempotencyScope c = eventScope v;
}.

(** ** How the world evolves *)
Record event_le e e' : Prop := {
  el_vendor : we_vendor e' = we_vendor e;
  el_event : we_vendor_event_id e' = we_vendor_event_id e;
  el_ref : we_external_ref e' = we_external_ref e;
  el_user : we_user_id e' = we_user_id e;
  el_merchant : we_merchant_tenant_id e' = we_merchant_tenant_id e;
  el_amount : we_amount e' = we_amount e;
  el_currency : we_currency e' = we_currency e;
  el_fee : we_fee_amount e' = we_fee_amount e;
  el_total : we_total_debit e' = we_total_debit e;
}.
Record intent_le i i' : Prop := {
  il_reference : ti_reference i' = ti_reference i;
  il_user : ti_user_id i' = ti_user_id i;
  il_merchant : ti_merchant_tenant_id i' = ti_merchant_tenant_id i;
  il_amount : ti_amount i' = ti_amount i;
  il_currency : ti_currency i' = ti_currency i;
  il_vendor : ti_vendor i' = ti_vendor i;
  il_final : ti_status i <> TopupStatusPending ->
    ti_status i' = ti_status i /\ ti_settled_event_id i' = ti_settled_event_id i;
}.
Record payin_le w w' : Prop := {
  yl_event id e : event w id = Some e -> exists e', event w' id = Some e' /\ event_le e e';
  yl_intent id i : intent w id = Some i -> exists i', intent w' id = Some i' /\ intent_le i i';
  yl_ledger : ledger_le (yw_ledger w) (yw_ledger w');
}.
#[export] Instance event_le_preorder : PreOrder event_le.
Proof. split; [by intros e|]. intros e1 e2 e3 [] []. split; congruence. Qed.
#[export] Instance intent_le_preorder : PreOrder intent_le.
Proof.
  split; [by intros i|]. intros i1 i2 i3 [? ? ? ? ? ? F1] [? ? ? ? ? ? F2]. split; try congruence.
  intros H. destruct (F1 H) as [E1 E2]. rewrite <- E1 in H. destruct (F2 H). split; congruence.
Qed.
#[export] Instance payin_le_preorder : PreOrder payin_le.
Proof.
  split.
  - intros w. split; [eauto..|reflexivity]; intros ? x Hx; exists x; (split; [done|reflexivity]).
  - intros w1 w2 w3 [E1 I1 L1] [E2 I2 L2]. split; [| |by transitivity (yw_ledger w2)].
    + intros id e (e2 & H2 & ?)%E1. apply E2 in H2 as (e3 & ? & ?). exists e3.
      split; [done|by transitivity e2].
    + intros id i (i2 & H2 & ?)%I1. apply I2 in H2 as (i3 & ? & ?). exists i3.
      split; [done|by transitivity i2].
Qed.

(** *** What evolution keeps *)
Lemma posted_under_le l l' k sc tx : ledger_le l l' -> posted_under l k sc tx -> posted_under l' k sc tx.
Proof. intros [] [? ?]. split; auto. Qed.
Lemma event_posting_le l l' e e' tx :
  ledger_le l l' -> event_le e e' -> event_posting l e tx -> event_posting l' e' tx.
Proof. unfold event_posting. intros L [-> -> _ _ _ _ _ _ _]. by apply posted_under_le. Qed.
Lemma backs_le i i' e e' : intent_le i i' -> event_le e e' -> backs i e -> backs i' e'.
Proof. intros [] [] []. split; congruence. Qed.
Lemma backed_le w w' e e' : payin_le w w' -> event_le e e' -> backed w e -> backed w' e'.
Proof.
  intros Hw He [[? ?]|(id & i & Hi & Hb)].
  - left. destruct He. split; congruence.
  - apply (yl_intent _ _ Hw) in Hi as (i' & Hi' & Hle). right. exists id, i'.
    split; [done|by eapply backs_le].
Qed.
Lemma credits_le c e e' : event_le e e' -> credits c e -> credits c e'.
Proof. intros [H1 H2 H3 H4 H5 H6 H7 H8 H9] []. by split; rewrite ?H1, ?H2, ?H4, ?H5, ?H7, ?H8, ?H9. Qed.
Lemma credits_event_le w w' c : payin_le w w' -> credits_event w c -> credits_event w' c.
Proof.
  intros Hw (id & e & He & Hc). apply (yl_event _ _ Hw) in He as (e' & He' & Hle).
  exists id, e'. split; [done|by eapply credits_le].
Qed.

Definition payin_discipline : discipline call yworld := {|
  d_step := call_step; d_inv := payin_inv; d_le := payin_le; d_preorder := payin_le_preorder |}.
End payin.

(** ** UPDATE and INSERT *)
Lemma update_events_Ok P f d n d' :
  update_events P f d = inr (n, d') ->
  d' = with_events d (set_where P f (payin_webhook_events d)) /\
  forall id e, payin_webhook_events d !! id = Some e -> P id e = true -> event_row_ok (f e) = true.
Proof.
  unfold update_events. case_match eqn:E; [|done]. intros [= _ <-]. split; [done|].
  intros id e He HP. rewrite forallb_forall in E. apply (E (id, e)), list_elem_of_In.
  by apply elem_of_rows_where.
Qed.
Lemma update_intents_Ok P f d n d' :
  update_intents P f d = inr (n, d') ->
  d' = with_intents d (set_where P f (payin_topup_intents d)) /\
  forall id i, payin_topup_intents d !! id = Some i -> P id i = true -> intent_row_ok (f i) = true.
Proof.
  unfold update_intents. case_match eqn:E; [|done]. intros [= _ <-]. split; [done|].
  intros id i Hi HP. rewrite forallb_forall in E. apply (E (id, i)), list_elem_of_In.
  by apply elem_of_rows_where.
Qed.
Lemma absent_true {R} P (t : gmap uuid R) id r : absent P t = true -> t !! id = Some r -> P id r = false.
Proof.
  unfold absent. destruct (rows_where P t) eqn:E; [|done]. intros _ Hr. apply not_true_is_false.
  intros HP. assert (H : (id, r) ∈ rows_where P t) by (by apply elem_of_rows_where).
  rewrite E in H. by apply not_elem_of_nil in H.
Qed.
Lemma absent_false {R} P (t : gmap uuid R) : absent P t = false -> exists id r, t !! id = Some r /\ P id r = true.
Proof.
  unfold absent. destruct (rows_where P t) as [|[id r] l] eqn:E; [done|]. intros _. exists id, r.
  apply elem_of_rows_where. rewrite E. left.
Qed.

(** ** Amounts in minor units *)
Section amounts.
Context `{DEC : !Decimal}.
Lemma BigInt_IsInt64_val d z : (dec_val d == inject_Z z)%Q -> BigInt_IsInt64 d = in_int64 z.
Proof.
  unfold BigInt_IsInt64, Qeq, inject_Z. simpl. rewrite Z.mul_1_r. intros ->. by rewrite Z.quot_mul.
Qed.
Lemma integral_val d : dec_equal d (dec_truncate d) = true -> exists z, (dec_val d == inject_Z z)%Q.
Proof. by intros H%dec_equal_truncate%dec_is_integer_val. Qed.
Lemma not_minor_false d :
  not_minor d = false -> exists z, (dec_val d == inject_Z z)%Q /\ 0 <= z /\ in_int64 z = true.
Proof.
  unfold not_minor. intros [[Hn Ht]%orb_false_iff Hb]%orb_false_iff. apply negb_false_iff in Ht, Hb.
  apply integral_val in Ht as [z Hz]. exists z. rewrite (BigInt_IsInt64_val d z Hz) in Hb. split_and!; [done| |done].
  dec_props. rewrite Hz in Hn. change 0%Q with (inject_Z 0) in Hn. by rewrite <- Zle_Qle in Hn.
Qed.
Lemma minorUnits_inr d z : minorUnits d = inr z -> (dec_val d == inject_Z z)%Q /\ 0 <= z /\ in_int64 z = true.
Proof.
  unfold minorUnits. destruct (not_minor d) eqn:E; [done|]. apply not_minor_false in E as (y & Hy & H0 & Hr).
  intros [= <-]. by rewrite (dec_int_part_val d y Hy Hr).
Qed.

(** What the stored event says of the amounts. *)
Record prepared (ev ev' : WebhookEvent) (total fee : Z) : Prop := {
  pp_id : ev_ID ev' = ev_ID ev; pp_vendor : ev_Vendor ev' = ev_Vendor ev;
  pp_event : ev_VendorEventID ev' = ev_VendorEventID ev; pp_ref : ev_ExternalRef ev' = ev_ExternalRef ev;
  pp_user : ev_UserID ev' = ev_UserID ev; pp_merchant : ev_MerchantTenantID ev' = ev_MerchantTenantID ev;
  pp_currency : ev_Currency ev' = ev_Currency ev;
  pp_amount : (dec_val (ev_Amount ev') == inject_Z total)%Q; pp_same : ev_Amount ev' = ev_Amount ev;
  pp_total : (dec_val (ev_TotalDebit ev') == inject_Z total)%Q;
  pp_fee : (dec_val (ev_FeeAmount ev') == inject_Z fee)%Q; pp_fee_same : ev_FeeAmount ev' = ev_FeeAmount ev;
  pp_range : in_int64 total = true /\ in_int64 fee = true;
}.
Lemma prepare_event_spec ev ev' : prepare_event ev = inr ev' -> exists total fee, prepared ev ev' total fee.
Proof.
  unfold prepare_event. destruct (not_minor _) eqn:En; [done|]. apply not_minor_false in En as (fee & Hf & _ & Hfr).
  set (total := if dec_is_zero _ then _ else _). destruct (_ || _ || _) eqn:Et; [done|]. intros [= <-].
  apply orb_false_iff in Et as [[He Ht]%orb_false_iff Hb]. apply negb_false_iff in He, Ht, Hb.
  apply integral_val in Ht as [z Hz]. rewrite (BigInt_IsInt64_val _ _ Hz) in Hb.
  apply dec_equal_val in He. exists z, fee. split; try done. simpl. by rewrite <- He.
Qed.
End amounts.

Section threads.
Context `{DEC : !Decimal} `{UT : !UuidText} `{LED : !PostingLedger}.
Notation inv := payin_inv.
Notation le := payin_le.
Implicit Types (w : yworld) (e : event_row) (i : intent_row).

(** ** Statements *)
Definition query_ok {A} (s : query A) (Pre : yworld -> Prop) (Post : A -> yworld -> Prop) : Prop :=
  forall w ch a d, inv w -> Pre w -> s ch (yw_db w) = inr (a, d) ->
    inv (set_ydb w d) /\ le w (set_ydb w d) /\ Post a (set_ydb w d).
Lemma sql_ok {A} (s : query A) Pre Post :
  query_ok s Pre Post ->
  op_ok payin_discipline (Sql s) Pre (fun r w => match r with inr a => Post a w | inl _ => True end).
Proof.
  intros Hs w b w' I HP [(ch & a & d & E & -> & Hb)|[-> [e ->]]]; [|by split_and!].
  destruct (Hs w ch a d I HP E) as (I' & L' & HQ). split_and!; [done..|].
  by destruct Hb as [->|[e ->]].
Qed.
Lemma set_ydb_same w : set_ydb w (yw_db w) = w.
Proof. by destruct w. Qed.
Lemma payin_read_ok {A} (s : query A) (Post : A -> yworld -> Prop) :
  (forall w ch a d, inv w -> s ch (yw_db w) = inr (a, d) -> d = yw_db w /\ Post a w) ->
  query_ok s (fun _ => True) Post.
Proof.
  intros H w ch a d I _ E. destruct (H _ _ _ _ I E) as [-> HP]. rewrite set_ydb_same. by split_and!.
Qed.

(** The tables after a statement. *)
Lemma inv_set_ydb w d' :
  inv w ->
  (forall id e, event w id = Some e -> exists e', payin_webhook_events d' !! id = Some e' /\ event_le e e') ->
  (forall id i, intent w id = Some i -> exists i', payin_topup_intents d' !! id = Some i' /\ intent_le i i') ->
  (forall id e', payin_webhook_events d' !! id = Some e' -> event_row_ok e' = true /\
     backed (set_ydb w d') e' /\
     (we_status e' = "posted" -> exists tx, event_posting (yw_ledger w) e' tx)) ->
  (forall id id' e e', payin_webhook_events d' !! id = Some e -> payin_webhook_events d' !! id' = Some e' ->
     we_vendor e = we_vendor e' -> we_vendor_event_id e = we_vendor_event_id e' -> id = id') ->
  (forall id i', payin_topup_intents d' !! id = Some i' -> intent_row_ok i' = true /\
     (ti_status i' = TopupStatusSettled -> (exists i, intent w id = Some i /\ ti_status i = TopupStatusSettled /\
         intent_le i i') \/
       exists eid e tx, ti_settled_event_id i' = Some eid /\ payin_webhook_events d' !! eid = Some e /\
         we_external_ref e = ti_reference i' /\ event_posting (yw_ledger w) e tx)) ->
  inv (set_ydb w d') /\ le w (set_ydb w d').
Proof.
  intros I He Hi Hev Hone Hint. assert (L : le w (set_ydb w d')) by (by split).
  split; [|done]. split; simpl; [apply I|..|apply I].
  - intros id e H. by apply Hev in H as (? & ? & _).
  - exact Hone.
  - intros id e H. by apply Hev in H as (_ & _ & ?).
  - intros id i H. by apply Hint in H as [? _].
  - intros id i' H Hs. pose proof (Hint _ _ H) as [_ [(i & Hi' & Hst & Hle)|Hn]]; [done| |exact Hn].
    destruct (yi_settled _ I id i Hi' Hst) as (eid & e & tx & E1 & E2 & E3 & E4).
    apply He in E2 as (e' & E2 & Ele). destruct (il_final _ _ Hle) as [_ Es]; [by rewrite Hst|].
    exists eid, e', tx. split_and!; [by rewrite Es|done|by rewrite (el_ref _ _ Ele), E3, (il_reference _ _ Hle)|].
    eapply event_posting_le; [reflexivity|exact Ele|done].
  - intros c Hc. eapply credits_event_le; [exact L|]. by apply (yi_posts _ I).
Qed.

(** *** Events *)
Lemma update_events_inv P f w n d' :
  inv w -> update_events P f (yw_db w) = inr (n, d') -> (forall e, event_le e (f e)) ->
  (forall id e, event w id = Some e -> P id e = true -> we_status (f e) = "posted" ->
     exists tx, event_posting (yw_ledger w) (f e) tx) ->
  inv (set_ydb w d') /\ le w (set_ydb w d').
Proof.
  intros I [-> Hok]%update_events_Ok Hle Hp.
  set (t := set_where P f (payin_webhook_events (yw_db w))).
  assert (Hb : forall id e', t !! id = Some e' -> exists e, event w id = Some e /\ event_le e e' /\
    e' = if P id e then f e else e).
  { intros id e'. unfold t. rewrite lookup_set_where. intros (e & He & ->)%fmap_Some. exists e.
    split_and!; [done|by destruct (P id e)|done]. }
  apply inv_set_ydb; [done|..].
  - intros id e He. exists (if P id e then f e else e). simpl. unfold t. rewrite lookup_set_where.
    unfold event in He. rewrite He. split; [done|]. by destruct (P id e).
  - intros id i Hi. exists i. by split.
  - intros id e' He'. apply Hb in He' as (e & He & Hle' & E'). destruct (yi_event _ I _ _ He) as [Hr Hbk].
    assert (L : le w (set_ydb w (with_events (yw_db w) t))).
    { split; [|by intros id0 i0 Hi0; exists i0; split|reflexivity]. intros id0 e0 He0.
      exists (if P id0 e0 then f e0 else e0). unfold event, t. simpl. rewrite lookup_set_where.
      unfold event in He0. rewrite He0. split; [done|]. by destruct (P id0 e0). }
    split_and!; [|by eapply backed_le|].
    + rewrite E'. destruct (P id e) eqn:EP; [by eapply Hok|done].
    + rewrite E'. destruct (P id e) eqn:EP; [by eapply Hp|by apply (yi_posted _ I id)].
  - intros id1 id2 e1 e2 (e1' & H1 & L1 & _)%Hb (e2' & H2 & L2 & _)%Hb Hv Hev.
    rewrite (el_vendor _ _ L1), (el_vendor _ _ L2) in Hv. rewrite (el_event _ _ L1), (el_event _ _ L2) in Hev.
    by eapply (yi_one _ I).
  - intros id i Hi. split; [by eapply (yi_intent _ I)|]. intros Hs. left. exists i. by split_and!.
Qed.
Lemma set_event_le status err e : event_le e (set_event status err e).
Proof. by split. Qed.
Lemma MarkPosted_ok id :
  query_ok (MarkPosted id) (fun w => exists e tx, event w id = Some e /\ event_posting (yw_ledger w) e tx)
    (fun _ _ => True).
Proof.
  intros w ch a d I (e & tx & He & Htx) E. unfold MarkPosted, set_event_status in E.
  destruct (update_events _ _ _) as [|[n d']] eqn:Eu; [done|]. injection E as <- <-.
  edestruct (update_events_inv _ _ _ _ _ I Eu); [intros; apply set_event_le| |by split_and!].
  intros id' e' He' <-%bool_decide_eq_true _. exists tx. by simplify_eq.
Qed.
Lemma unposted_ok ctx id status err :
  status <> "posted" -> query_ok (set_event_status ctx id status err) (fun _ => True) (fun _ _ => True).
Proof.
  intros Hst w ch a d I _ E. unfold set_event_status in E.
  destruct (update_events _ _ _) as [|[n d']] eqn:Eu; [done|]. injection E as <- <-.
  edestruct (update_events_inv _ _ _ _ _ I Eu); [intros; apply set_event_le| |by split_and!]. done.
Qed.

(** What a thread knows of an event or an intent it has read. *)
Record describes (ev : WebhookEvent) e : Prop := {
  ds_vendor : we_vendor e = ev_Vendor ev; ds_event : we_vendor_event_id e = ev_VendorEventID ev;
  ds_ref : we_external_ref e = ev_ExternalRef ev; ds_user : we_user_id e = ev_UserID ev;
  ds_merchant : we_merchant_tenant_id e = ev_MerchantTenantID ev;
  ds_currency : we_currency e = ev_Currency ev;
  ds_total : (dec_val (ev_TotalDebit ev) == inject_Z (we_total_debit e))%Q;
  ds_fee : (dec_val (ev_FeeAmount ev) == inject_Z (we_fee_amount e))%Q;
  ds_positive : 0 < we_total_debit e;
}.
Lemma event_row_total e : event_row_ok e = true -> we_total_debit e = we_amount e /\ 0 < we_amount e.
Proof.
  unfold event_row_ok. intros H. repeat (apply andb_true_iff in H as [H ?]).
  split; [by apply Z.eqb_eq|by apply Z.ltb_lt].
Qed.
Definition known_event (ev : WebhookEvent) w : Prop := exists e, event w (ev_ID ev) = Some e /\ describes ev e.
Definition known_intent (t : TopupIntent) w : Prop := exists i fee, intent w (in_ID t) = Some i /\
  ti_reference i = in_Reference t /\ ti_user_id i = in_UserID t /\
  ti_merchant_tenant_id i = in_MerchantTenantID t /\ ti_vendor i = in_Vendor t /\
  ti_currency i = in_Currency t /\ (dec_val (in_FeeAmount t) == inject_Z fee)%Q /\
  (dec_val (in_TotalDebit t) == inject_Z (ti_amount i + fee))%Q /\ 0 <= fee /\ 0 < ti_amount i.
Lemma describes_le ev e e' : event_le e e' -> describes ev e -> describes ev e'.
Proof. intros [H1 H2 H3 H4 H5 H6 H7 H8 H9] []. split; rewrite ?H1, ?H2, ?H3, ?H4, ?H5, ?H7, ?H8, ?H9; done. Qed.
Lemma known_event_le ev w w' : le w w' -> known_event ev w -> known_event ev w'.
Proof.
  intros L (e & He & Hd). apply (yl_event _ _ L) in He as (e' & He' & Hle).
  exists e'. split; [done|by eapply describes_le].
Qed.
Lemma known_intent_le t w w' : le w w' -> known_intent t w -> known_intent t w'.
Proof.
  intros L (i & fee & Hi & H). apply (yl_intent _ _ L) in Hi as (i' & Hi' & []).
  exists i', fee. split; [done|]. repeat match goal with E : _ = _ |- _ => rewrite E; clear E end. done.
Qed.

Lemma scanEvent_known ring id e ev w :
  event w id = Some e -> event_row_ok e = true -> scanEvent ring id e = inr ev -> ev_ID ev = id /\ known_event ev w.
Proof.
  unfold scanEvent. intros He Hok. destruct (match we_raw e with None => _ | Some _ => _ end); [done|].
  intros [= <-]. split; [done|]. exists e. split; [done|].
  apply event_row_total in Hok as [Ht Hp].
  split; try done; simpl; [|by rewrite dec_of_Z_val|by rewrite Ht]. destruct (dec_is_zero _); rewrite dec_of_Z_val; by rewrite Ht.
Qed.
Lemma getByVendorEventID_ok ring vendor eventID :
  query_ok (getByVendorEventID ring vendor eventID) (fun _ => True) known_event.
Proof.
  apply payin_read_ok. intros w ch a d I. unfold getByVendorEventID.
  destruct (rows_where _ _) as [|[id e] l] eqn:E; [done|]. destruct (scanEvent _ _ _) as [|ev] eqn:Es; [done|].
  intros [= <- <-]. split; [done|].
  assert (Hin : (id, e) ∈ rows_where (same_event vendor eventID) (payin_webhook_events (yw_db w))) by (rewrite E; left).
  apply elem_of_rows_where in Hin as [Hin _]. by eapply scanEvent_known; [exact Hin|apply (yi_event _ I id)|].
Qed.
Lemma GetEvent_ok ring id : query_ok (GetEvent ring id) (fun _ => True) known_event.
Proof.
  apply payin_read_ok. intros w ch a d I. unfold GetEvent. destruct (payin_webhook_events _ !! id) as [e|] eqn:E; [|done].
  destruct (scanEvent _ _ _) eqn:Es; [done|]. intros [= <- <-]. split; [done|].
  by eapply scanEvent_known; [exact E|apply (yi_event _ I id)|].
Qed.
Lemma scan_intent_known id i w : intent w id = Some i -> intent_row_ok i = true ->
  in_ID (scanTopupIntent id i) = id /\ known_intent (scanTopupIntent id i) w.
Proof.
  intros Hi Hok. split; [done|]. exists i, (ti_fee_amount i). split; [done|].
  unfold intent_row_ok in Hok. repeat (apply andb_true_iff in Hok as [Hok ?]).
  assert (Ht : ti_total_debit i = ti_amount i + ti_fee_amount i) by (by apply Z.eqb_eq).
  assert (Hf : dec_is_negative (dec_of_Z (ti_fee_amount i)) = false).
  { apply not_true_iff_false. rewrite dec_is_negative_val, dec_of_Z_val. change 0%Q with (inject_Z 0).
    rewrite <- Zlt_Qlt. lia. }
  unfold scanTopupIntent, NormalizeFinancials. simpl. rewrite Hf.
  split_and!; try done; [by rewrite dec_of_Z_val| |by apply Z.leb_le|by apply Z.ltb_lt].
  destruct (dec_is_zero _); [rewrite dec_add_val, !dec_of_Z_val; by rewrite inject_Z_plus|].
  by rewrite dec_of_Z_val, Ht.
Qed.
(** Normalising an intent read from a valid row changes no amount. *)
Lemma normalize_known t w : known_intent t w -> known_intent (NormalizeFinancials t) w.
Proof.
  intros (i & fee & Hi & E1 & E2 & E3 & E4 & E5 & Ef & Et & H0 & Hp).
  assert (Hf : dec_is_negative (in_FeeAmount t) = false).
  { apply not_true_iff_false. rewrite dec_is_negative_val, Ef. change 0%Q with (inject_Z 0). rewrite <- Zlt_Qlt. lia. }
  assert (Ht : dec_is_zero (in_TotalDebit t) = false).
  { apply not_true_iff_false. rewrite dec_is_zero_val, Et. change 0%Q with (inject_Z 0). intros H%inject_Z_inj. lia. }
  exists i, fee. unfold NormalizeFinancials. rewrite Hf, Ht. simpl. split_and!; done.
Qed.
Lemma intent_where_ok P :
  query_ok (intent_where P) (fun _ => True)
    (fun t w => match t with Some t => known_intent t w /\ exists i, P (in_ID t) i = true /\
        intent w (in_ID t) = Some i | None => True end).
Proof.
  apply payin_read_ok. intros w ch a d I. unfold intent_where. intros [= <- <-]. split; [done|].
  destruct (rows_where _ _) as [|[id i] l] eqn:E; [done|].
  assert (Hin : (id, i) ∈ rows_where P (payin_topup_intents (yw_db w))) by (rewrite E; left).
  apply elem_of_rows_where in Hin as [Hin HP].
  destruct (scan_intent_known id i w) as [Hid Hk]; [done|by eapply (yi_intent _ I)|].
  split; [done|]. rewrite Hid. eauto.
Qed.
Lemma GetTopupIntentByReference_ok reference :
  query_ok (GetTopupIntentByReference reference) (fun _ => True)
    (fun t w => match t with Some t => known_intent t w /\ in_Reference t = reference | None => True end).
Proof.
  intros w ch a d I HP E. destruct (intent_where_ok _ w ch a d I HP E) as (I' & L' & H).
  split_and!; [done..|]. destruct a as [t|]; [|done]. destruct H as [Hk (i & Hr%bool_decide_eq_true & Hi)].
  split; [done|]. destruct Hk as (i' & fee & Hi' & <- & _). congruence.
Qed.

(** *** Storing an event *)
(** Its owner, if it has one, is the owner of an intent that promised the amount. *)
Definition insertable (ev : WebhookEvent) w : Prop := exists total fee,
  (dec_val (ev_Amount ev) == inject_Z total)%Q /\ (dec_val (ev_TotalDebit ev) == inject_Z total)%Q /\
  (dec_val (ev_FeeAmount ev) == inject_Z fee)%Q /\ in_int64 total = true /\ in_int64 fee = true /\
  (ownerless (ev_UserID ev) (ev_MerchantTenantID ev) \/
   exists id i, intent w id = Some i /\ ti_reference i = ev_ExternalRef ev /\ ti_vendor i = ev_Vendor ev /\
     ti_user_id i = ev_UserID ev /\ ti_merchant_tenant_id i = ev_MerchantTenantID ev /\
     ti_currency i = ev_Currency ev /\ ti_amount i = total - fee).
Lemma insertable_le ev w w' : le w w' -> insertable ev w -> insertable ev w'.
Proof.
  intros L (total & fee & H1 & H2 & H3 & H4 & H5 & Ho). exists total, fee. split_and!; try done.
  destruct Ho as [?|(id & i & Hi & Hb)]; [by left|right].
  apply (yl_intent _ _ L) in Hi as (i' & Hi' & Hle). exists id, i'. split; [done|]. destruct Hle.
  naive_solver congruence.
Qed.
Lemma insert_event_inv w id e d' :
  inv w -> insert_event id e (yw_db w) = inr d' -> we_status e = "received" -> backed w e ->
  inv (set_ydb w d') /\ le w (set_ydb w d') /\ event (set_ydb w d') id = Some e /\ event_row_ok e = true.
Proof.
  intros I E Hst Hb. unfold insert_event in E. destruct (event_row_ok e) eqn:Hok; [|done]. simpl in E.
  case_bool_decide as Hn; [done|]. destruct (absent _ _) eqn:Ha; [|done]. injection E as <-.
  apply eq_None_not_Some in Hn. set (t := <[id:=e]> (payin_webhook_events (yw_db w))).
  assert (Hold : forall j x, event w j = Some x -> t !! j = Some x).
  { intros j x Hx. unfold t. rewrite lookup_insert_ne; [done|]. intros <-. unfold event in Hx. congruence. }
  assert (L : le w (set_ydb w (with_events (yw_db w) t))).
  { split; [|by intros j x Hx; exists x; split|reflexivity]. intros j x Hx. exists x. split; [by apply Hold|done]. }
  assert (Hother : forall j x, event w j = Some x -> same_event (we_vendor e) (we_vendor_event_id e) j x = false).
  { intros j x Hx. by eapply absent_true. }
  edestruct (inv_set_ydb w (with_events (yw_db w) t) I); [..|split_and!; [done|done| |done]].
  - intros j x Hx. exists x. split; [by apply Hold|done].
  - intros j x Hx. by exists x.
  - intros j x. simpl. unfold t. intros [[<- <-]|[_ Hx]]%lookup_insert_Some.
    + split_and!; [done|by eapply backed_le|by rewrite Hst].
    + destruct (yi_event _ I _ _ Hx). split_and!; [done|by eapply backed_le|by apply (yi_posted _ I j)].
  - intros j1 j2 x1 x2. simpl. unfold t. intros [[<- <-]|[_ H1]]%lookup_insert_Some [[<- <-]|[_ H2]]%lookup_insert_Some Hv He; [done|..].
    + specialize (Hother _ _ H2). unfold same_event in Hother. by rewrite Hv, He, !bool_decide_true in Hother.
    + specialize (Hother _ _ H1). unfold same_event in Hother. by rewrite Hv, He, !bool_decide_true in Hother.
    + by eapply (yi_one _ I).
  - intros j x Hx. split; [by eapply (yi_intent _ I)|]. intros Hs. left. exists x. by split_and!.
  - unfold event. simpl. apply lookup_insert_eq.
Qed.
Lemma InsertEvent_ok ring ev :
  query_ok (InsertEvent ring ev) (insertable ev) (fun _ => known_event (set_status "received" ev)).
Proof.
  intros w ch a d I (total & fee & Ha & Ht & Hf & Rt & Rf & Ho) E. unfold InsertEvent in E.
  destruct (Seal _ _ _) as [|c]; [done|]. destruct (insert_event _ _ _) as [|d'] eqn:Ei; [done|].
  injection E as <- <-. assert (Hb : backed w (new_event ev c (ch_now ch))).
  { destruct Ho as [?|(id & i & Hi & Ho)]; [by left|right]. exists id, i. split; [done|].
    destruct Ho as (? & ? & ? & ? & ? & Hamt). split; try done. simpl.
    by rewrite (dec_int_part_val _ _ Ht Rt), (dec_int_part_val _ _ Hf Rf). }
  destruct (insert_event_inv _ _ _ _ I Ei) as (I' & L' & He & [Et Hp]%event_row_total); [done..|]. split_and!; [done..|].
  exists (new_event ev c (ch_now ch)). split; [done|]. split; try done; simpl.
  - by rewrite (dec_int_part_val _ _ Ht Rt).
  - by rewrite (dec_int_part_val _ _ Hf Rf).
  - simpl in Et, Hp. by rewrite Et.
Qed.

(** *** Intents *)
Lemma update_intents_inv P f w n d' :
  inv w -> update_intents P f (yw_db w) = inr (n, d') ->
  (forall id i, P id i = true -> intent_le i (f i)) ->
  (forall id i, intent w id = Some i -> P id i = true -> ti_status (f i) = TopupStatusSettled ->
     exists eid e tx, ti_settled_event_id (f i) = Some eid /\ event w eid = Some e /\
       we_external_ref e = ti_reference (f i) /\ event_posting (yw_ledger w) e tx) ->
  inv (set_ydb w d') /\ le w (set_ydb w d').
Proof.
  intros I [-> Hok]%update_intents_Ok Hle Hs.
  set (t := set_where P f (payin_topup_intents (yw_db w))).
  assert (Hf : forall id i, intent w id = Some i -> exists i', t !! id = Some i' /\ intent_le i i').
  { intros id i Hi. exists (if P id i then f i else i). unfold t. rewrite lookup_set_where.
    unfold intent in Hi. rewrite Hi. split; [done|]. destruct (P id i) eqn:E; [by eapply Hle|done]. }
  assert (L : le w (set_ydb w (with_intents (yw_db w) t))).
  { split; [by intros id e He; exists e|exact Hf|reflexivity]. }
  apply inv_set_ydb; [done|by intros id e He; exists e|done|..].
  - intros id e He. destruct (yi_event _ I _ _ He). split_and!; [done|by eapply backed_le|by apply (yi_posted _ I id)].
  - intros id1 id2 e1 e2 H1 H2. by eapply (yi_one _ I).
  - intros id i'. simpl. unfold t. rewrite lookup_set_where. intros (i & Hi & ->)%fmap_Some.
    destruct (P id i) eqn:E.
    + split; [by eapply Hok|]. intros Hst. right. by apply (Hs id i).
    + split; [by eapply (yi_intent _ I)|]. intros Hst. left. by exists i.
Qed.
Lemma insert_intent_inv w id i d' :
  inv w -> insert_intent id i (yw_db w) = inr d' -> ti_status i = TopupStatusPending ->
  inv (set_ydb w d') /\ le w (set_ydb w d').
Proof.
  intros I E Hst. unfold insert_intent in E. destruct (intent_row_ok i) eqn:Hok; [|done]. simpl in E.
  case_bool_decide as Hn; [done|]. destruct (intent_is_new _ _); [|done]. injection E as <-.
  apply eq_None_not_Some in Hn. set (t := <[id:=i]> (payin_topup_intents (yw_db w))).
  assert (Hf : forall j x, intent w j = Some x -> exists x', t !! j = Some x' /\ intent_le x x').
  { intros j x Hx. exists x. unfold t. rewrite lookup_insert_ne; [done|]. intros <-. unfold intent in Hx. congruence. }
  assert (L : le w (set_ydb w (with_intents (yw_db w) t))).
  { split; [by intros j e He; exists e|exact Hf|reflexivity]. }
  apply inv_set_ydb; [done|by intros j e He; exists e|done|..].
  - intros j e He. destruct (yi_event _ I _ _ He). split_and!; [done|by eapply backed_le|by apply (yi_posted _ I j)].
  - intros id1 id2 e1 e2 H1 H2. by eapply (yi_one _ I).
  - intros j x. simpl. unfold t. intros [[<- <-]|[_ Hx]]%lookup_insert_Some; [by split; [|rewrite Hst]|].
    split; [by eapply (yi_intent _ I)|]. intros Hs. left. by exists x.
Qed.
Lemma InsertTopupIntent_ok t : query_ok (InsertTopupIntent t) (fun _ => True) (fun _ _ => True).
Proof.
  intros w ch a d I _ E. unfold InsertTopupIntent in E. destruct (intent_amounts _) as [|[[? ?] ?]]; [done|].
  destruct (insert_intent _ _ _) as [|d'] eqn:Ei; [done|]. injection E as <- <-.
  edestruct (insert_intent_inv _ _ _ _ I Ei); [done|]. by split_and!.
Qed.
Lemma InsertMerchantTopupIntent_ok t : query_ok (InsertMerchantTopupIntent t) (fun _ => True) (fun _ _ => True).
Proof.
  intros w ch a d I _ E. unfold InsertMerchantTopupIntent in E. case_bool_decide; [done|].
  destruct (intent_amounts _) as [|[[x y] z]]; [done|]. destruct (absent _ _).
  - destruct (insert_intent _ _ _) as [|d'] eqn:Ei; [done|]. injection E as _ <-.
    edestruct (insert_intent_inv _ _ _ _ I Ei); [done|]. by split_and!.
  - destruct (negb _); [done|]. injection E as _ <-. rewrite set_ydb_same. by split_and!.
Qed.
Lemma UpdateTopupFeeSnapshot_ok id quote fee total gateway at_ :
  query_ok (UpdateTopupFeeSnapshot id quote fee total gateway at_) (fun _ => True) (fun _ _ => True).
Proof.
  intros w ch a d I _ E. unfold UpdateTopupFeeSnapshot in E.
  destruct (minorUnits fee); [done|]. destruct (minorUnits total); [done|].
  destruct (update_intents _ _ _) as [|[n d']] eqn:Eu; [done|]. destruct (n =? 0); [done|]. injection E as <- <-.
  assert (Hp : forall j x, takes_snapshot id quote z z0 gateway j x = true -> ti_status x = TopupStatusPending).
  { intros j x. unfold takes_snapshot. intros [[_ ?%bool_decide_eq_true]%andb_true_iff _]%andb_true_iff. done. }
  edestruct (update_intents_inv _ _ _ _ _ I Eu); [..|by split_and!].
  - intros j x Hx%Hp. by split.
  - intros j x _ Hx%Hp. simpl. by rewrite Hx.
Qed.
Lemma MarkTopupIntentExpired_ok id : query_ok (MarkTopupIntentExpired id) (fun _ => True) (fun _ _ => True).
Proof.
  intros w ch a d I _ E. unfold MarkTopupIntentExpired in E.
  destruct (update_intents _ _ _) as [|[n d']] eqn:Eu; [done|]. injection E as <- <-.
  edestruct (update_intents_inv _ _ _ _ _ I Eu); [..|by split_and!].
  - intros j x [_ ?%bool_decide_eq_true]%andb_true_iff. by split.
  - done.
Qed.
Lemma MarkTopupIntentSettled_ok reference eid :
  query_ok (MarkTopupIntentSettled reference eid)
    (fun w => exists e tx, event w eid = Some e /\ we_external_ref e = reference /\
                event_posting (yw_ledger w) e tx) (fun _ _ => True).
Proof.
  intros w ch a d I (e & tx & He & Hr & Htx) E. unfold MarkTopupIntentSettled in E.
  destruct (update_intents _ _ _) as [|[n d']] eqn:Eu; [done|]. destruct (_ && _); [done|]. injection E as <- <-.
  edestruct (update_intents_inv _ _ _ _ _ I Eu); [..|by split_and!].
  - intros j x [_ ?%bool_decide_eq_true]%andb_true_iff. by split.
  - intros j x _ [Hx%bool_decide_eq_true _]%andb_true_iff _. exists eid, e, tx. simpl. by rewrite Hr.
Qed.

(** ** The ledger *)
Lemma Post_ok c :
  op_ok payin_discipline (Post c) (fun w => credits_event w c)
    (fun r w => (match r with None => true | Some err => isLedgerAlreadyPosted err end = true) ->
       exists tx, posted_under (yw_ledger w) (IdempotencyKey c) (IdempotencyScope c) tx).
Proof.
  intros w r w' I Hc (l & Hp & -> & Halready). pose proof (yi_ledger _ I) as Hl.
  pose proof (post_ledger_le _ _ _ _ Hl Hp) as L.
  assert (Lw : le w (sent c l w)) by (split; [by intros id x Hx; exists x..|done]).
  split_and!; [|done|].
  - split; simpl; [by eapply post_lok|..].
    + intros id e He. destruct (yi_event _ I id e He). split; [done|by eapply backed_le].
    + apply I.
    + intros id e He (tx & Htx)%(yi_posted _ I id e He). exists tx. by eapply event_posting_le.
    + apply I.
    + intros id i Hi Hs. destruct (yi_settled _ I id i Hi Hs) as (eid & e & tx & ? & ? & ? & ?).
      exists eid, e, tx. split_and!; [done..|by eapply event_posting_le].
    + intros c' [->|Hc']%elem_of_cons; [by eapply credits_event_le|].
      eapply credits_event_le; [exact Lw|]. by apply (yi_posts _ I).
    + intros k v tx [Hk Ht]. destruct (post_new c _ r l tx Hl Hp Ht) as [[Hold Hkeys]|[Hown _]].
      * destruct (yi_origin _ I k v tx) as (c' & ? & ? & ?); [split; auto|]. exists c'. split_and!; [by right|done..].
      * destruct (keyed_key _ _ _ _ _ _ (post_lok _ _ _ _ Hl Hp) Hown Hk) as [? ?].
        exists c. split_and!; [left|done..].
  - simpl. intros Hr. destruct r as [err|]; [by eapply Halready|]. by apply (post_success c _ l Hl Hp).
Qed.
End threads.
