(* ===== verification/PayinHandlers.v ===== *)
(** * Every handler of the payin service is a safe thread *)
From stdpp Require Import prelude gmap strings list relations.
From Stdlib Require Import QArith.
From S2P Require Import Prelude Decimal Errors Currency Processors Flow VendorRouting.
From S2P Require Import LedgerService LedgerApi PayinRepo PayinFlow PayinInv.
Open Scope Z_scope.

Section handlers.
Context `{DEC : !Decimal} `{UT : !UuidText} `{LED : !PostingLedger}.
Context (m : PayinModule).
Notation psafe := (safe payin_discipline).
Notation fine := (fine payin_discipline).
Notation Safe p w := (psafe p (fun _ _ => True) w).
Notation inv := payin_inv.
Notation le := payin_le.

Lemma safe_sql {A} (s : query A) Pre Post w :
  query_ok s Pre Post -> (forall w', le w w' -> Pre w') ->
  psafe (perform (Sql s)) (fun r w' => match r with inr a => Post a w' | inl _ => True end) w.
Proof. intros Hs. apply (safe_op payin_discipline). by apply sql_ok. Qed.
Lemma fine_sql {A} (s : query A) Post : query_ok s (fun _ => True) Post -> fine (perform (Sql s)).
Proof. intros Hs w. eapply safe_weaken; [eapply safe_sql; [exact Hs|done]|done]. Qed.
Lemma fine_payin_reads {A} (s : query A) : (forall ch d, exists r, s ch d = inr (r, d)) -> fine (perform (Sql s)).
Proof.
  intros Hs. eapply (fine_sql s (fun _ _ => True)), payin_read_ok. intros w ch a d _ E.
  destruct (Hs ch (yw_db w)) as [r Hr]. rewrite Hr in E. by injection E as _ <-.
Qed.
Lemma safe_quiet {A B} (o : call B) (k : B -> Flow.prog call A) w :
  quiet_op payin_discipline o -> (forall b w', le w w' -> Safe (k b) w') -> Safe (Do o k) w.
Proof. apply (same_world payin_discipline). Qed.

(** ** Storing the event *)
Lemma safe_GetOrInsert ev w :
  (forall ev' w', prepare_event ev = inr ev' -> le w w' -> insertable ev' w') ->
  psafe (GetOrInsert m ev) (fun r w' => match r with inr stored => known_event stored w' | inl _ => True end) w.
Proof.
  intros Hi. unfold GetOrInsert. destruct (prepare_event ev) as [|ev'] eqn:E; [done|].
  apply safe_bind. eapply safe_weaken; [eapply safe_sql; [apply InsertEvent_ok|]|].
  { intros w' L. by apply Hi. }
  intros [err|[]] w' _ HP; [|done]. destruct (negb _); [done|].
  apply (safe_wrap payin_discipline). eapply safe_sql; [apply getByVendorEventID_ok|done].
Qed.

(** ** Posting it *)
Lemma known_financials ev gateway w :
  known_event ev w ->
  exists e, event w (ev_ID ev) = Some e /\ describes ev e /\ dec_is_zero (ev_TotalDebit ev) = false /\
    forall f, event_financials ev gateway = inr f -> f_payinID f = uuid_Nil /\
      (dec_val (f_principal f) == inject_Z (we_total_debit e - we_fee_amount e))%Q /\
      (dec_val (f_total f) == inject_Z (we_total_debit e))%Q.
Proof.
  intros (e & He & Hd). exists e. split_and!; [done..| |].
  - apply not_true_iff_false. rewrite dec_is_zero_val, (ds_total _ _ Hd). change 0%Q with (inject_Z 0).
    intros H%inject_Z_inj. pose proof (ds_positive _ _ Hd). lia.
  - unfold event_financials. intros f. destruct (dec_is_zero _) eqn:Ez.
    + apply dec_is_zero_val in Ez. rewrite (ds_total _ _ Hd) in Ez. change 0%Q with (inject_Z 0) in Ez.
      apply inject_Z_inj in Ez. pose proof (ds_positive _ _ Hd). lia.
    + simpl. destruct (_ || _ || _); [done|]. intros [= <-]. simpl. split_and!; [done| |apply Hd].
      rewrite dec_sub_val, (ds_total _ _ Hd), (ds_fee _ _ Hd). unfold Z.sub. by rewrite inject_Z_plus, inject_Z_opp.
Qed.
(** A stored row always has its split, so the intent is never read again and the
    key is the event's. *)
Lemma intent_financials_skipped ev f w :
  known_event ev w -> intent_financials ev f = Ret (inr f).
Proof.
  intros (e & He & _ & Hz & _)%(known_financials ev EmptyString). unfold intent_financials. by rewrite Hz, andb_false_r.
Qed.
Lemma payin_command_credits ev e f :
  describes ev e -> f_payinID f = uuid_Nil ->
  (dec_val (f_principal f) == inject_Z (we_total_debit e - we_fee_amount e))%Q ->
  (dec_val (f_total f) == inject_Z (we_total_debit e))%Q -> credits (payin_command ev f) e.
Proof.
  intros Hd Hn Hp Ht. destruct Hd as [E1 E2 E3 E4 E5 E6 _ _ _].
  unfold payin_command. rewrite Hn. split; cbn [IdempotencyKey IdempotencyScope Type_ Amount UserID MerchantTenantID Currency_];
    rewrite ?bool_decide_true by done; rewrite ?E1, ?E2, ?E4, ?E5, ?E6; try done; by case_bool_decide.
Qed.

Lemma fine_MarkFailed id reason : fine (perform (Sql (MarkFailed id reason))).
Proof. by eapply fine_sql, unposted_ok. Qed.
Lemma safe_finalize ev postErr w :
  known_event ev w ->
  (match postErr with None => true | Some err => isLedgerAlreadyPosted err end = true ->
     exists tx, posted_under (yw_ledger w) (eventIdempotencyKey (ev_Vendor ev) (ev_VendorEventID ev))
                  (eventScope (ev_Vendor ev)) tx) ->
  Safe (finalize ev postErr) w.
Proof.
  intros Hk Hp. unfold finalize. destruct (match postErr with None => true | Some _ => _ end) eqn:Eok.
  - destruct (Hp eq_refl) as [tx Htx].
    assert (K : forall w', le w w' -> exists e tx, event w' (ev_ID ev) = Some e /\
      we_external_ref e = ev_ExternalRef ev /\ event_posting (yw_ledger w') e tx).
    { intros w' L. apply (known_event_le _ _ _ L) in Hk as (e & He & []). exists e, tx. split_and!; [done..|].
      unfold event_posting. rewrite ds_vendor, ds_event. eapply posted_under_le; [apply L|done]. }
    eapply safe_seq; [eapply safe_logged, safe_sql; [apply MarkPosted_ok|]|].
    { intros w' L. destruct (K w' L) as (e & tx' & ? & _ & ?). eauto. }
    intros [] w1 L1 _. eapply safe_seq with (Q := fun _ _ => True); [|done].
    case_bool_decide; [done|].
    eapply safe_logged, safe_sql; [apply MarkTopupIntentSettled_ok|].
    intros w' L. destruct (K w') as (e & tx' & ? & ? & ?); [by transitivity w1|eauto].
  - destruct postErr as [err|]; [|done]. destruct (isBusinessFailure err); [|done].
    apply (fine_seq payin_discipline); [apply fine_logged, fine_MarkFailed|done].
Qed.
Lemma safe_post_checked ev f w :
  known_event ev w -> f_payinID f = uuid_Nil ->
  (forall w' e, le w w' -> event w' (ev_ID ev) = Some e -> describes ev e -> credits (payin_command ev f) e) ->
  Safe (let* postErr := perform (Post (payin_command ev f)) in finalize ev postErr) w.
Proof.
  intros Hk Hn Hc. eapply safe_seq; [apply (safe_op payin_discipline _ _ _ _ (Post_ok _))|].
  - intros w' L. destruct (known_event_le _ _ _ L Hk) as (e & He & Hd). exists (ev_ID ev), e. eauto.
  - intros r w' L Hr. apply safe_finalize; [by eapply known_event_le|].
    intros Hok. destruct (Hr Hok) as [tx Htx]. exists tx. unfold payin_command in Htx.
    cbn [IdempotencyKey IdempotencyScope] in Htx. by rewrite Hn, !bool_decide_true in Htx.
Qed.
Lemma screen_event_fine ev total : fine (screen_event m ev total).
Proof.
  unfold screen_event. destruct (_ && _); [|done].
  apply (fine_seq payin_discipline); [by apply (fine_quiet payin_discipline); intros ???|].
  intros [[] reason| |]; try done. apply (fine_seq payin_discipline); [|done].
  apply fine_logged. by eapply fine_sql, unposted_ok.
Qed.
Lemma safe_postAndFinalize ev gateway w : known_event ev w -> Safe (postAndFinalize m ev gateway) w.
Proof.
  intros Hk. unfold postAndFinalize. destruct (known_financials ev gateway w Hk) as (e & He & Hd & _ & Hf).
  destruct (event_financials ev gateway) as [|f]; [done|]. destruct (Hf f eq_refl) as (Hn & Hp & Ht).
  rewrite (intent_financials_skipped ev f w Hk). cbn [ebind pbind].
  eapply safe_ebind with (Q := fun _ _ => True).
  { eapply safe_weaken; [apply screen_event_fine|]. by intros []. }
  intros [] w1 L1 _. destruct (_ && _); [done|]. apply safe_post_checked; [by eapply known_event_le|done|].
  intros w' e' L He' Hd'. apply payin_command_credits; [done..| |].
  - apply (yl_event _ _ L1) in He as (e1 & He1 & Le1). apply (yl_event _ _ L) in He1 as (e2 & He2 & Le2).
    simplify_eq. by rewrite (el_total _ _ Le2), (el_total _ _ Le1), (el_fee _ _ Le2), (el_fee _ _ Le1).
  - apply (yl_event _ _ L1) in He as (e1 & He1 & Le1). apply (yl_event _ _ L) in He1 as (e2 & He2 & Le2).
    simplify_eq. by rewrite (el_total _ _ Le2), (el_total _ _ Le1).
Qed.

(** ** Callbacks and replays *)
Lemma fine_gateway vendor : fine (perform (Sql (GetVendorGateway vendor))).
Proof. apply fine_payin_reads. intros ch d. by eexists. Qed.
Lemma safe_settle_event stored gateway status unknown reason w :
  known_event stored w -> Safe (settle_event m stored gateway status unknown reason) w.
Proof.
  intros Hk. unfold settle_event. case_bool_decide; [done|]. destruct (_ || _); [done|].
  destruct (negb _); [apply (fine_ebind payin_discipline); [apply fine_MarkFailed|done]|].
  destruct (negb _); [apply (fine_ebind payin_discipline); [apply fine_MarkFailed|done]|].
  eapply safe_seq; [by apply safe_postAndFinalize|]. by intros [[]|[]].
Qed.

Definition bare (ev : WebhookEvent) : Prop :=
  ownerless (ev_UserID ev) (ev_MerchantTenantID ev).
(** The event as it will be stored, whether it matched or not. *)
Definition storable (ev : WebhookEvent) w : Prop :=
  bare ev \/ exists t, known_intent t w /\ in_Reference t = ev_ExternalRef ev /\
    in_Vendor t = ev_Vendor ev /\ in_Currency t = ev_Currency ev /\ in_UserID t = ev_UserID ev /\
    in_MerchantTenantID t = ev_MerchantTenantID ev /\
    dec_equal (in_TotalDebit t) (ev_Amount ev) = true /\ in_FeeAmount t = ev_FeeAmount ev.
Lemma storable_insertable ev ev' w : storable ev w -> prepare_event ev = inr ev' -> insertable ev' w.
Proof.
  intros Hs (total & fee & [Hid Hv He Hr Hu Hm Hc Ha Hsame Ht Hf Hfs [Rt Rf]])%prepare_event_spec.
  exists total, fee. split_and!; try done. destruct Hs as [Hb|(t & (i & zf & Hi & E1 & E2 & E3 & E4 & E5 & Ef & Et & _) & H)].
  - left. unfold bare in Hb. by rewrite Hu, Hm.
  - right. exists (in_ID t), i. destruct H as (R1 & R2 & R3 & R4 & R5 & R6%dec_equal_val & R7).
    split_and!; try congruence.
    rewrite Et, <- Hsame, Ha in R6. apply inject_Z_inj in R6.
    rewrite R7, <- Hfs, Hf in Ef. apply inject_Z_inj in Ef. lia.
Qed.
Lemma storable_le ev w w' : le w w' -> storable ev w -> storable ev w'.
Proof. intros L [?|(t & ? & ?)]; [by left|right; exists t; split; [by eapply known_intent_le|done]]. Qed.

Lemma safe_match_intent ev t w :
  bare ev -> match t with Some t => known_intent t w /\ in_Reference t = ev_ExternalRef ev | None => True end ->
  psafe (match_intent ev t) (fun r w' => storable r.1 w') w.
Proof.
  intros Hb Ht. unfold match_intent. destruct t as [t|]; [|by (simpl; left)]. destruct Ht as [Hk Hr].
  apply normalize_known in Hk. destruct (negb (bool_decide (in_Vendor _ = _))) eqn:Ev; [by (simpl; left)|].
  destruct (negb (bool_decide (in_Status _ = _))); [by (simpl; left)|]. intros w1 L I1 now w2 ->. split_and!; [done|done|]. cbn [pbind].
  destruct (negb (now <? _)); [by (simpl; left)|]. destruct (_ || _) eqn:E; [by (simpl; left)|].
  apply orb_false_iff in E as [Ea Ec]. apply negb_false_iff in Ea, Ec, Ev.
  apply bool_decide_eq_true in Ec, Ev. simpl. right. exists (NormalizeFinancials t). split_and!; try done.
  by eapply known_intent_le.
Qed.
Lemma payin_callback_fine vendor eventID ref amount currency status inbox rid unknown :
  fine (HandleVendorCallback m vendor eventID ref amount currency status inbox rid unknown).
Proof.
  unfold HandleVendorCallback. destruct (ValidateCode _); [done|]. destruct (dec_of_string _) as [a|]; [|done].
  case_bool_decide; [done|]. apply (fine_ebind payin_discipline); [apply fine_gateway|].
  intros mapping. apply (fine_seq payin_discipline); [by apply (fine_quiet payin_discipline); intros ???|].
  intros id w. set (ev := bare_event _ _ _ _ _ _ _ _). assert (Hb : bare ev) by done.
  eapply safe_ebind with (Q := fun r w' => storable r.1 w').
  { destruct mapping as [gateway|]; [|by left].
    apply (safe_bind payin_discipline), (safe_bind payin_discipline).
    eapply safe_weaken; [eapply safe_sql; [apply GetTopupIntentByReference_ok|done]|].
    intros [err|t] w1 _ Ht; [done|]. simpl. apply (safe_bind payin_discipline).
    eapply safe_weaken; [by apply safe_match_intent|]. intros r w2 _ Hr. exact Hr. }
  intros [ev' reason] w1 L1 Hs. simpl in Hs.
  eapply safe_ebind; [apply (safe_wrap payin_discipline), safe_GetOrInsert|].
  { intros ev'' w' E L. eapply storable_insertable; [by eapply storable_le|done]. }
  intros stored w2 L2 Hk. by apply safe_settle_event.
Qed.
Lemma ReplayEvent_fine id : fine (ReplayEvent m id).
Proof.
  intros w. unfold ReplayEvent. eapply safe_seq; [eapply safe_sql; [apply GetEvent_ok|done]|].
  intros [err|ev] w1 L1 Hk; [done|]. case_bool_decide; [done|].
  eapply safe_seq with (Q := fun _ _ => True); [by eapply safe_weaken; [apply fine_gateway|]|].
  intros [err|[gateway|]] w2 L2 _; [done| |done]. apply safe_postAndFinalize. by eapply known_event_le.
Qed.

(** ** Intents *)
Lemma fine_quiet_op {B} (o : call B) : (forall w b w', call_step B o w b w' -> w' = w) -> fine (perform o).
Proof. apply (fine_quiet payin_discipline). Qed.
Ltac quiet := apply fine_quiet_op; by intros ???.
Lemma AskBreaker_fine v : fine (perform (AskBreaker v)).
Proof.
  eapply (fine_op payin_discipline _ (fun _ _ => True)). intros w b w' I _ (now & _ & ->).
  split_and!; [by destruct I|by split; [intros ? x ?; exists x..|reflexivity]|done].
Qed.
Lemma first_topup_candidate_fine currency cs mm cc : fine (first_topup_candidate m currency cs mm cc).
Proof.
  revert mm cc. induction cs as [|c cs IH]; intros mm cc; simpl; [done|].
  destruct (_ !! _); [|apply IH]. destruct (negb _); [apply IH|].
  apply (fine_seq payin_discipline); [destruct (y_breaker m); [apply AskBreaker_fine|done]|].
  intros []; [done|apply IH].
Qed.
Lemma ResolveTopupRoute_fine user currency amount : fine (ResolveTopupRoute m user currency amount).
Proof.
  apply (fine_ebind payin_discipline); [apply fine_payin_reads; intros ch d; by eexists|].
  intros [|c cs]; [done|apply first_topup_candidate_fine].
Qed.
Lemma resolveTopupFinancials_fine owner txType gateway currency amount quote ref :
  fine (resolveTopupFinancials owner txType gateway currency amount quote ref).
Proof.
  unfold resolveTopupFinancials. destruct quote.
  - apply (fine_ebind payin_discipline); [apply fine_wrap; quiet|]. intros [fee g]. destruct (not_minor _); [done|].
    apply (fine_seq payin_discipline); [quiet|done].
  - apply (fine_ebind payin_discipline); [apply fine_wrap; quiet|]. intros [[fee g] ok]. destruct (negb _); [done|].
    by destruct (not_minor _).
Qed.
Lemma completeQuotedIntent_fine t : fine (completeQuotedIntent t).
Proof.
  unfold completeQuotedIntent. destruct (in_FeeQuoteID t); [|done]. destruct (_ && _); [done|].
  apply (fine_ebind payin_discipline).
  { unfold recover_gateway. destruct (_ && _); [|done]. apply (fine_ebind payin_discipline).
    - apply fine_wrap, fine_gateway.
    - by intros []. }
  intros gateway. apply (fine_ebind payin_discipline); [apply resolveTopupFinancials_fine|].
  intros [[fee g] [at_|]]; (destruct (negb _); [done|]); [|done].
  apply (fine_ebind payin_discipline); [eapply fine_wrap, fine_sql, UpdateTopupFeeSnapshot_ok|done].
Qed.
Lemma payin_intake_fine : fine (ensureIntakeOpen m).
Proof.
  unfold ensureIntakeOpen. destruct (negb _); [done|]. apply (fine_ebind payin_discipline).
  - apply fine_wrap, fine_payin_reads. intros ch d. by eexists.
  - by intros [].
Qed.
Lemma payin_policy_fine currency : fine (check_policy m currency).
Proof. unfold check_policy. destruct (y_validatesCurrency m); [|done]. apply fine_seq; [quiet|by intros []]. Qed.
Lemma open_session_fine vendor id total currency rid : fine (open_session m vendor id total currency rid).
Proof. unfold open_session. destruct (y_session m); [|done]. apply fine_seq; [quiet|by intros []]. Qed.
Lemma createTopupIntent_fine user amount currency quote rid : fine (createTopupIntent m user amount currency quote rid).
Proof.
  unfold createTopupIntent. case_bool_decide; [done|]. destruct (ValidatePositiveMinorAmount _); [done|].
  destruct (negb _); [done|]. apply fine_ebind; [apply payin_intake_fine|intros _].
  apply fine_ebind; [|intros cur; apply fine_ebind; [apply payin_policy_fine|intros _]].
  { unfold intent_currency. case_bool_decide; [apply fine_wrap; quiet|by destruct (ValidateCode _)]. }
  apply fine_ebind; [|intros _; apply fine_ebind; [apply ResolveTopupRoute_fine|intros [vendor gateway]]].
  { unfold check_account. destruct (y_readsAccounts m); [|done]. apply fine_ebind; [apply fine_wrap; quiet|by intros []]. }
  apply fine_seq; [quiet|intros id]. apply fine_seq; [quiet|intros ref]. apply fine_seq; [quiet|intros now].
  apply fine_ebind; [|intros t; apply fine_ebind; [apply open_session_fine|done]].
  destruct quote as [quote|].
  - unfold quoted_intent. apply fine_seq; [eapply fine_sql, InsertTopupIntent_ok|].
    intros [err|_]; [|apply completeQuotedIntent_fine].
    apply fine_ebind; [eapply fine_wrap, fine_sql, intent_where_ok|]. intros [t|]; [|done].
    destruct (_ || _); [done|apply completeQuotedIntent_fine].
  - unfold unquoted_intent. apply fine_ebind; [apply resolveTopupFinancials_fine|]. intros [[fee g] at_].
    destruct (dec_is_positive fee); [done|]. destruct (negb _); [done|].
    apply fine_ebind; [eapply fine_wrap, fine_sql, InsertTopupIntent_ok|done].
Qed.
Lemma GetTopupIntent_row_fine id : fine (perform (Sql (GetTopupIntent_row id))).
Proof.
  eapply (fine_sql _ (fun _ _ => True)), payin_read_ok. intros w ch a d _. unfold GetTopupIntent_row.
  case_match; [|done]. by intros [= _ <-].
Qed.
Lemma GetTopupIntent_fine id : fine (GetTopupIntent id).
Proof.
  unfold GetTopupIntent. apply fine_seq; [apply GetTopupIntent_row_fine|]. intros [err|t]; [done|].
  apply fine_ebind; [destruct (_ && _ && _); [apply completeQuotedIntent_fine|done]|].
  intros t'. case_bool_decide; [|done]. apply fine_seq; [quiet|]. intros now. destruct (_ <? _); [done|].
  apply fine_seq; [eapply fine_sql, MarkTopupIntentExpired_ok|done].
Qed.
Lemma CreateMerchantTopupIntent_fine tenant env currency amount key rid :
  fine (CreateMerchantTopupIntent m tenant env currency amount key rid).
Proof.
  unfold CreateMerchantTopupIntent. case_bool_decide; [done|]. case_bool_decide; [done|].
  destruct (ValidatePositiveMinorAmount _); [done|]. apply fine_ebind; [apply payin_intake_fine|intros _].
  destruct (ValidateCode _); [done|]. apply fine_ebind; [apply payin_policy_fine|intros _].
  apply fine_ebind; [|intros vendor; apply fine_ebind; [apply fine_gateway|intros [gateway|]; [|done]]].
  { unfold resolveMerchantVendor. case_bool_decide.
    - destruct (_ !! _); [|done]. by destruct (negb _).
    - apply fine_ebind; [apply ResolveTopupRoute_fine|by intros []]. }
  apply fine_ebind; [apply resolveTopupFinancials_fine|]. intros [[fee g] at_].
  destruct (dec_is_positive fee); [done|]. destruct (negb _); [done|].
  apply fine_seq; [quiet|intros id]. apply fine_seq; [quiet|intros ref]. apply fine_seq; [quiet|intros now].
  apply fine_ebind; [eapply fine_wrap, fine_sql, InsertMerchantTopupIntent_ok|intros stored].
  apply fine_ebind; [by apply fine_wrap|intros t]. destruct (negb _); [done|].
  apply fine_ebind; [apply open_session_fine|done].
Qed.

(** ** Every reachable state satisfies the invariant *)
Lemma payin_entry_fine p : payin_entry m p -> fine p.
Proof.
  destruct 1; apply fine_logged.
  - apply payin_callback_fine.
  - apply ReplayEvent_fine.
  - apply createTopupIntent_fine.
  - unfold CreateTopupIntentWithCurrencyAndFeeQuote. case_bool_decide; [done|apply createTopupIntent_fine].
  - apply CreateMerchantTopupIntent_fine.
  - apply GetTopupIntent_fine.
  - apply fine_ebind; [apply GetTopupIntent_fine|]. intros t. by destruct (negb _).
Qed.
Lemma payin_env_ok w w' : inv w -> payin_env w w' -> inv w' /\ le w w'.
Proof.
  intros I [c r l Hsc Hp|gateways rules paused|P].
  - pose proof (yi_ledger _ I) as Hl. pose proof (post_ledger_le _ _ _ _ Hl Hp) as L.
    assert (Lw : le w (set_yledger w l)) by (split; [by intros id x Hx; exists x..|done]). split; [|done].
    split; simpl; [by eapply post_lok|..].
    + intros id e He. destruct (yi_event _ I id e He). split; [done|by eapply backed_le].
    + apply I.
    + intros id e He (tx & Htx)%(yi_posted _ I id e He). exists tx. by eapply event_posting_le.
    + apply I.
    + intros id i Hi Hs. destruct (yi_settled _ I id i Hi Hs) as (eid & e & tx & ? & ? & ? & ?).
      exists eid, e, tx. split_and!; [done..|by eapply event_posting_le].
    + intros c' Hc'. eapply credits_event_le; [exact Lw|]. by apply (yi_posts _ I).
    + intros k v tx [Hk Ht]. destruct (post_new c _ r l tx Hl Hp Ht) as [[Hold Hkeys]|[Hown _]].
      * apply (yi_origin _ I k v tx). split; auto.
      * destruct (keyed_key _ _ _ _ _ _ (post_lok _ _ _ _ Hl Hp) Hown Hk) as [_ E]. by destruct (Hsc v).
  - split; [destruct I; by split|]. split; [by intros id x Hx; exists x..|reflexivity].
  - apply inv_set_ydb; [done|..].
    + intros id e He. exists (if P id e then redact e else e). simpl. rewrite lookup_set_where.
      unfold event in He. rewrite He. split; [done|]. by destruct (P id e).
    + intros id i Hi. by exists i.
    + intros id e'. simpl. rewrite lookup_set_where. intros (e & He & ->)%fmap_Some.
      destruct (yi_event _ I id e He) as [Hr Hb]. pose proof (yi_posted _ I id e He) as Hp.
      assert (Hb' : backed w (redact e)).
      { destruct Hb as [?|(i & x & ? & [])]; [by left|right]. by exists i, x. }
      destruct (P id e); (split_and!; [exact Hr|done|exact Hp]).
    + intros id1 id2 e1 e2. simpl. rewrite !lookup_set_where. intros (x1 & H1 & ->)%fmap_Some (x2 & H2 & ->)%fmap_Some Hv He.
      apply (yi_one _ I id1 id2 x1 x2 H1 H2); [by destruct (P id1 x1), (P id2 x2)..].
    + intros id i Hi. split; [by eapply (yi_intent _ I)|]. intros Hs. left. exists i. by split_and!.
Qed.
Lemma payin_reachable_inv w ps : payin_reachable m (w, ps) -> inv w.
Proof.
  intros ([w0 ps0] & (E1 & E2 & Hl & Hk & Hp & Hn) & Hr). simpl in *. subst ps0.
  eapply (reachable_ok payin_discipline (payin_entry m) payin_env); [apply payin_entry_fine|apply payin_env_ok| |exact Hr].
  split; unfold event, intent; rewrite ?E1, ?E2, ?Hp; try done; try (intros *; rewrite lookup_empty; done).
  - by intros c Hc%not_elem_of_nil.
  - intros k v tx [Hkd _]. by destruct (Hk v k tx).
Qed.
End handlers.
