(* ===== verification/PayinTheorems.v ===== *)
(** * What the payin service guarantees

    In every state any interleaving of callbacks, replays, intent creation and
    reads can reach, with crashes and lost answers, over any ledger that keeps the
    promises of LedgerApi.
    Then whole runs of the service, with concrete collaborators. *)
From Stdlib Require Import QArith String.
From stdpp Require Import prelude gmap strings list relations.
From S2P Require Import Prelude Decimal Errors Currency Events Store TxRepo Repos Processors Handle Frames.
From S2P Require Import Lawful Postings Invariant Engine Outcome Components Scenarios Effects Flow.
From S2P Require Import VendorRouting PayoutRepo LedgerApi LedgerService PayoutRun.
From S2P Require Import PayinRepo PayinFlow PayinInv PayinHandlers.
Open Scope Z_scope.
Lemma eventScope_inj v v' : eventScope v = eventScope v' -> v = v'.
Proof. unfold eventScope. intros H. by injection H. Qed.

Lemma intent_one_owner i :
  intent_row_ok i = true -> ti_merchant_tenant_id i <> uuid_Nil -> ti_user_id i = uuid_Nil.
Proof.
  unfold intent_row_ok. rewrite !andb_true_iff. intros [[[[[_ H] _] _] _] _] Hm.
  rewrite (bool_decide_false (ti_merchant_tenant_id i = uuid_Nil)) in H by done.
  by destruct (decide (ti_user_id i = uuid_Nil)) as [|Hn]; [|rewrite bool_decide_false in H by done].
Qed.

Section reachable.
Context `{DEC : !Decimal} `{UT : !UuidText} `{LED : !PostingLedger}.
Context (m : PayinModule).

(** C6: Payin credits what was promised: whatever transaction the ledger has posted
    in payin's scope of a vendor was ordered by one command that carries the key of a
    recorded event of that vendor, and the command credits either nobody (no intent
    matched the event) or exactly one owner: the owner of an intent which that
    vendor's event quoted, in the intent's currency and, for a user, for the intent's
    principal, the fee left out. *)
Theorem payin_credits_what_was_promised w ps k v tx :
  payin_reachable m (w, ps) -> posted_under (yw_ledger w) k (eventScope v) tx ->
  exists c id e, c ∈ yw_posts w /\ event w id = Some e /\ we_vendor e = v /\
    k = eventIdempotencyKey v (we_vendor_event_id e) /\ IdempotencyKey c = k /\ credits c e /\
    (ownerless (UserID c) (MerchantTenantID c) \/
     exists iid i, intent w iid = Some i /\ ti_reference i = we_external_ref e /\ ti_vendor i = v /\
       ti_user_id i = UserID c /\ ti_merchant_tenant_id i = MerchantTenantID c /\
       ti_currency i = Currency_ c /\
       (MerchantTenantID c = uuid_Nil -> (dec_val (Amount c) == inject_Z (ti_amount i))%Q)).
Proof.
  intros I%payin_reachable_inv Hp. destruct (yi_origin _ I _ _ _ Hp) as (c & Hc & Hk & Hs).
  destruct (yi_posts _ I c Hc) as (id & e & He & Hcr). destruct (yi_event _ I id e He) as [_ Hb].
  assert (Hv : we_vendor e = v) by (apply eventScope_inj; rewrite <- Hs; symmetry; apply Hcr).
  exists c, id, e. split_and!; [done..|by rewrite <- Hk, (cr_key _ _ Hcr), Hv|done|done|].
  destruct Hcr as [_ _ _ Ha Hu Hm Hcur]. rewrite Hu, Hm, Hcur. destruct Hb as [[E1 E2]|(iid & i & Hi & [])].
  - left. rewrite E2, bool_decide_true by done. by split.
  - right. exists iid, i. pose proof (intent_one_owner i (yi_intent _ I iid i Hi)) as Hone.
    assert (Hx : ti_user_id i = if bool_decide (we_merchant_tenant_id e = uuid_Nil) then we_user_id e else uuid_Nil).
    { destruct (decide (we_merchant_tenant_id e = uuid_Nil)).
      - by rewrite bool_decide_true by done.
      - rewrite bool_decide_false by done. apply Hone. congruence. }
    split_and!; try congruence. intros Hm0. rewrite Ha, bool_decide_true by done. by rewrite bk_amount.
Qed.

(** C32: Payin's records agree with the ledger: an event marked posted has exactly one
    posted ledger transaction under its own key, no two rows record the same vendor
    event, and a settled intent was settled by an event that quotes it and is posted. *)
Theorem payin_records_agree_with_the_ledger w ps :
  payin_reachable m (w, ps) ->
  (forall id e, event w id = Some e -> we_status e = "posted" ->
     exists tx, event_posting (yw_ledger w) e tx /\
       forall tx', event_posting (yw_ledger w) e tx' -> tx' = tx) /\
  (forall id id' e e', event w id = Some e -> event w id' = Some e' ->
     we_vendor e = we_vendor e' -> we_vendor_event_id e = we_vendor_event_id e' -> id = id') /\
  (forall iid i, intent w iid = Some i -> ti_status i = TopupStatusSettled ->
     exists eid e tx, ti_settled_event_id i = Some eid /\ event w eid = Some e /\
       we_external_ref e = ti_reference i /\ event_posting (yw_ledger w) e tx).
Proof.
  intros I%payin_reachable_inv. split_and!; [|apply I|apply I]. intros id e He Hs.
  destruct (yi_posted _ I id e He Hs) as (tx & Hk & Ht). exists tx. split; [done|].
  intros tx' [Hk' _]. by eapply keyed_unique; [apply I| |].
Qed.
End reachable.

#[local] Existing Instance QDecimal.decimal.
#[local] Existing Instance NumUuid.uuid_text.

Section run.
Context {LED : PostingLedger} (R : ledger_runner LED).
(** An id no table has. *)
Definition fresh_id (d : payin_db) : uuid :=
  N.of_nat (1 + size (payin_topup_intents d) + 10 * size (payin_webhook_events d)).
Definition payin_now : Z := 1000.
(** A runner whose ledger claims ALREADY_POSTED of nothing. *)
Definition modest : Prop := forall c l e, (run_post R c l).1 = Some e -> isLedgerAlreadyPosted e = false.
Definition respond B (fails : bool) (o : call B) : yworld -> B * yworld :=
  match o with
  | PayinFlow.Sql s => fun w =>
      if fails then (inl (Plain "connection lost"), w)
      else match s (DbChoice payin_now 0 ∅ 0 false) (yw_db w) with
           | inl e => (inl e, w) | inr (a, d) => (inr a, set_ydb w d)
           end
  | FreshID => fun w => (fresh_id (yw_db w), w)
  | TimeNow => fun w => (payin_now, w)
  | PayinFlow.Post c => fun w => let '(r, l) := run_post R c (yw_ledger w) in (r, sent c l w)
  | UserCurrency _ => fun w => (inr "IDR", w)
  | ValidateCurrency _ _ => fun w => (None, w)
  | AccountEnabled _ _ => fun w => (inr true, w)
  | ResolveFee _ _ _ _ _ => fun w => (inr (dec_zero, EmptyString, false), w)
  | ConsumeFeeQuote _ _ _ _ _ _ _ => fun w => (inr (dec_of_Z 25, "bca"), w)
  | Screen _ _ _ => fun w => (Verdict false EmptyString, w)
  | CreatePayinSession _ _ _ _ _ => fun w => (None, w)
  | AskBreaker v => fun w =>
      let r := Allow (yw_breaker w) v payin_now in (r.1, set_ybreaker w r.2)
  end.
Lemma respond_step B fails (o : call B) w :
  modest -> call_step B o w (respond B fails o w).1 (respond B fails o w).2.
Proof.
  intros Hm. destruct o; simpl; try done.
  - destruct fails; [right; by eauto|].
    destruct (s _ (yw_db w)) as [e|[a d]] eqn:E; [right; by eauto|].
    left. exists (DbChoice payin_now 0 ∅ 0 false), a, d. simpl. auto.
  - pose proof (run_post_ok _ R c (yw_ledger w)) as Hp. specialize (Hm c (yw_ledger w)).
    destruct (run_post R c (yw_ledger w)) as [r l]. exists l. split_and!; [done..|].
    intros e He Ha. simpl in Hm. rewrite Hm in Ha by done. done.
  - by exists payin_now.
Qed.
Definition payin_run_all (ps : list (Flow.prog call unit * list bool)) (w : yworld) : yworld :=
  exec_all respond ps w.
Lemma payin_run_reachable m ps w :
  modest -> payin_initial (w, []) -> Forall (fun pf => payin_entry m pf.1) ps ->
  payin_reachable m (payin_run_all ps w, []).
Proof.
  intros Hm Hi He. exists (w, []). split; [done|].
  apply exec_all_steps; [intros; by apply respond_step|done].
Qed.
End run.

(** ** A worked service *)
Definition payin_demo : PayinModule :=
  MkPayin demo_ring {["vendora" := demo_provider]} true true true true true true 0.
Definition topup_rule : RoutingRule := MkRule "topup" 1 true None None None None "vendora".
Definition payin_demo_db : payin_db :=
  PayinDb ∅ ∅ {["vendora" := "bca"]} {[1%N := topup_rule]} false.
Definition user_topup : Flow.prog call unit :=
  logged (CreateTopupIntentWithCurrency payin_demo 1%N (dec_of_Z 500) "IDR" "req-1").
Definition topup_reference : string := "TOP-" +:+ uuid_string 1%N.
Definition paid (eventID : string) : Flow.prog call unit :=
  logged (HandleVendorCallback payin_demo "vendora" eventID topup_reference "500" "IDR" "settled"
            "inbox-1" "req-2" EmptyString).
Definition spec_payin : yworld (LED := SpecLedger) :=
  YWorld (LED := SpecLedger) payin_demo_db (SpecState ∅ ∅ 100%N) (NewHealthTracker 5 0) [].
Definition credited : yworld (LED := SpecLedger) :=
  payin_run_all spec_runner [(user_topup, []); (paid "ev-1", [])] spec_payin.

Lemma spec_modest : modest spec_runner.
Proof.
  intros c l e. simpl. unfold spec_post. repeat case_match; simpl; try done. by intros [= <-].
Qed.
Lemma spec_payin_initial : payin_initial (spec_payin, []).
Proof. repeat split; simpl; try done; intros *; by rewrite lookup_empty. Qed.
Lemma spec_payin_reachable ps :
  Forall (fun pf => payin_entry payin_demo pf.1) ps ->
  payin_reachable payin_demo (payin_run_all spec_runner ps spec_payin, []).
Proof. apply payin_run_reachable; [exact spec_modest|exact spec_payin_initial]. Qed.
Lemma credited_reachable : payin_reachable payin_demo (credited, []).
Proof. apply spec_payin_reachable. repeat constructor. Qed.

Definition event_is `{LED : !PostingLedger} (w : yworld) id (P : event_row -> bool) : bool :=
  match event w id with Some e => P e | None => false end.
Lemma event_exists `{LED : !PostingLedger} (w : yworld) id P :
  event_is w id P = true -> exists e, event w id = Some e /\ P e = true.
Proof. unfold event_is. destruct (event w id) as [e|]; [by exists e|done]. Qed.

Lemma payin_credits_what_was_promised_witness :
  posted_under (yw_ledger credited) (eventIdempotencyKey "vendora" "ev-1") (eventScope "vendora") 100%N /\
  exists c id e, c ∈ yw_posts credited /\ event credited id = Some e /\ we_vendor e = "vendora" /\
    eventIdempotencyKey "vendora" "ev-1" = eventIdempotencyKey "vendora" (we_vendor_event_id e) /\
    IdempotencyKey c = eventIdempotencyKey "vendora" "ev-1" /\ credits c e /\
    (ownerless (UserID c) (MerchantTenantID c) \/
     exists iid i, intent credited iid = Some i /\ ti_reference i = we_external_ref e /\
       ti_vendor i = "vendora" /\ ti_user_id i = UserID c /\
       ti_merchant_tenant_id i = MerchantTenantID c /\ ti_currency i = Currency_ c /\
       (MerchantTenantID c = uuid_Nil -> (dec_val (Amount c) == inject_Z (ti_amount i))%Q)).
Proof.
  assert (Hp : posted_under (yw_ledger credited) (eventIdempotencyKey "vendora" "ev-1") (eventScope "vendora") 100%N).
  { split; [vm_compute; reflexivity|]. exists (eventIdempotencyKey "vendora" "ev-1", eventScope "vendora").
    vm_compute. reflexivity. }
  split; [exact Hp|].
  exact (payin_credits_what_was_promised payin_demo credited [] (eventIdempotencyKey "vendora" "ev-1")
           "vendora" 100%N credited_reachable Hp).
Defined.

Lemma payin_records_agree_with_the_ledger_witness :
  exists e tx, event credited 2%N = Some e /\ we_status e = "posted" /\ event_posting (yw_ledger credited) e tx.
Proof.
  destruct (event_exists credited 2%N (fun e => bool_decide (we_status e = "posted"))) as (e & He & Hs);
    [vm_compute; reflexivity|]. apply bool_decide_eq_true in Hs.
  destruct (proj1 (payin_records_agree_with_the_ledger payin_demo credited [] credited_reachable) 2%N e He Hs)
    as (tx & Htx & _).
  exists e, tx. split; [exact He|]. split; [exact Hs|exact Htx].
Defined.

(** ** When a mark is lost *)
Definition lost (n : nat) : list bool := replicate n false ++ [true].
Definition events_of `{LED : !PostingLedger} (w : yworld) : list (string * string * option string) :=
  (fun e => (we_vendor_event_id e.2, we_status e.2, we_error_message e.2)) <$>
    map_to_list (payin_webhook_events (yw_db w)).
Definition intents_of `{LED : !PostingLedger} (w : yworld) : list string :=
  (fun i => ti_status i.2) <$> map_to_list (payin_topup_intents (yw_db w)).
Definition orders_of `{LED : !PostingLedger} (w : yworld) : list (uuid * Z) :=
  (fun c => (UserID c, dec_int_part (Amount c))) <$> yw_posts w.

(** The statement that settles the intent is lost once; a second event of the vendor
    for the same reference then credits the same intent again: the key of the
    posting is the event's, never the intent's. *)
Definition credited_twice : yworld (LED := SpecLedger) :=
  payin_run_all spec_runner [(user_topup, []); (paid "ev-1", lost 8); (paid "ev-2", [])] spec_payin.
Lemma one_intent_is_credited_by_two_events :
  payin_reachable payin_demo (credited_twice, []) /\
  intents_of credited_twice = [TopupStatusSettled] /\
  events_of credited_twice = [("ev-2", "posted", None); ("ev-1", "posted", None)] /\
  orders_of credited_twice = [(1%N, 500); (1%N, 500)] /\
  size (sl_keys (yw_ledger credited_twice)) = 2%nat.
Proof.
  split; [apply spec_payin_reachable; repeat constructor|]. split_and!; vm_compute; reflexivity.
Qed.
(** The statement that marks the event posted is lost; the redelivered event is then
    recorded as failed although its money moved. *)
Definition marked_failed : yworld (LED := SpecLedger) :=
  payin_run_all spec_runner [(user_topup, []); (paid "ev-1", lost 7); (paid "ev-1", [])] spec_payin.
Lemma a_posted_event_is_marked_failed :
  payin_reachable payin_demo (marked_failed, []) /\
  events_of marked_failed = [("ev-1", "failed", Some "payin intent is not pending: settled")] /\
  orders_of marked_failed = [(1%N, 500)] /\ size (sl_keys (yw_ledger marked_failed)) = 1%nat.
Proof.
  split; [apply spec_payin_reachable; repeat constructor|]. split_and!; vm_compute; reflexivity.
Qed.
