(* ===== verification/Executor.v ===== *)
(** * The execution boundary: services/ledger/internal/ledger/command

    context.go and executor.go: what a command passes before the posting service
    sees it (amount, subject, policy, audit), over the execution-subject projection
    and the append-only decision table of migrations 000042 and 000043.  The policy
    engine answers as it likes. *)
From Stdlib Require Import Ascii String QArith.
From stdpp Require Import prelude gmap strings list.
From S2P Require Import Prelude Decimal Errors Currency Processors Flow LedgerApi.
Open Scope Z_scope.

(** ** model/execution_subject.go, model/policy_decision.go *)
Record ExecutionSubject := MkSubject {
  sj_Status : string;
  sj_KYCLevel : Z;
  sj_KYCVerifiedUntil : option Z;
  sj_TenantStatus : string;
}.
Record PolicyDecision := MkDecision {
  pd_ID : uuid; pd_ActorID : uuid; pd_TenantID : uuid; pd_UserID : uuid; pd_Source : string;
  pd_CorrelationID : string; pd_RequestOrigin : string; pd_TransactionType : string;
  pd_Currency : string; pd_AmountMinor : Z; pd_Allowed : bool; pd_Reason : string;
  pd_Detail : string; pd_EffectiveAt : Z }.

(** ** The tables *)
Record exec_db := ExecDb {
  execution_subjects : gmap (uuid * option uuid) ExecutionSubject;   (* (user_id, tenant_id) *)
  policy_decisions : list PolicyDecision;                            (* oldest first *)
}.
Definition exec_query (A : Type) : Type := db_choice -> exec_db -> error + (A * exec_db).
Definition nullableUUID (id : uuid) : option uuid := if bool_decide (id = uuid_Nil) then None else Some id.
(** The tenant's own row first, then the row without a tenant. *)
Definition subject_row (d : exec_db) (user tenant : uuid) : option ExecutionSubject :=
  match nullableUUID tenant with
  | None => execution_subjects d !! (user, None)
  | Some t => match execution_subjects d !! (user, Some t) with
              | Some s => Some s | None => execution_subjects d !! (user, None) end
  end.
Definition GetExecutionSubject (user tenant : uuid) : exec_query ExecutionSubject := fun _ d =>
  match subject_row d user tenant with None => inl ErrNoRows | Some s => inr (s, d) end.
Definition subject_statuses : list string := ["active"; "disabled"; "closing"; "closed"].
Definition subject_checks (s : ExecutionSubject) : bool :=
  bool_decide (sj_Status s ∈ subject_statuses) && bool_decide (sj_TenantStatus s ∈ subject_statuses)
  && (0 <=? sj_KYCLevel s).
Definition store_subject (user tenant : uuid) (s : ExecutionSubject) (d : exec_db) : error + exec_db :=
  if subject_checks s then
    inr (ExecDb (<[(user, nullableUUID tenant) := s]> (execution_subjects d)) (policy_decisions d))
  else inl (PgError "23514" "violates check constraint").
Definition UpsertExecutionSubject (user tenant : uuid) (s : ExecutionSubject) : exec_query unit := fun _ d =>
  match store_subject user tenant s d with inl err => inl err | inr d' => inr (tt, d') end.
Definition EnsureExecutionSubjectBaseline (user tenant : uuid) (s : ExecutionSubject)
    : exec_query unit := fun _ d =>
  match execution_subjects d !! (user, nullableUUID tenant) with
  | Some _ => inr (tt, d)
  | None => match store_subject user tenant s d with inl err => inl err | inr d' => inr (tt, d') end
  end.
(** CHECK (amount_minor >= 0) *)
Definition RecordPolicyDecision (r : PolicyDecision) : exec_query unit := fun _ d =>
  if 0 <=? pd_AmountMinor r then inr (tt, ExecDb (execution_subjects d) (policy_decisions d ++ [r]))
  else inl (PgError "23514" "violates check constraint").

Section executor.
Context `{DEC : !Decimal} `{UT : !UuidText}.

(** ** Calls to the outside *)
Inductive exec_call : Type -> Type :=
  | ExecSql {A} (s : exec_query A) : exec_call (error + A)
  | NewUUID : exec_call uuid
  | Clock : exec_call Z
  | CheckPolicy (user : uuid) (txType : string) (amount : dec) (currency : option string)
      : exec_call (error + (bool * string * string))
  | RecordUsage (user : uuid) (txType : string) (amount : dec) (currency : option string)
      : exec_call unit
  | HandleCommand (c : Command) : exec_call (option error).
Notation prog := (Flow.prog exec_call).

(** ** ExecutionContext: context.go
    AuthorizationClaims are copied and never read. *)
Record ExecutionContext := MkContext {
  xc_ActorID : uuid; xc_TenantID : uuid; xc_Source : string; xc_CorrelationID : string;
  xc_EffectiveTime : Z; xc_RequestOrigin : string; xc_Currency : string }.
Definition normalized (c : ExecutionContext) (commandUserID : uuid) : prog ExecutionContext :=
  let actor := if bool_decide (xc_ActorID c = uuid_Nil) then commandUserID else xc_ActorID c in
  let source := if bool_decide (xc_Source c = EmptyString) then "unknown" else xc_Source c in
  let* correlation := if bool_decide (xc_CorrelationID c = EmptyString)
                      then (let* id := perform NewUUID in Ret (uuid_string id))
                      else Ret (xc_CorrelationID c) in
  let* effective := if xc_EffectiveTime c =? 0 then perform Clock else Ret (xc_EffectiveTime c) in
  let origin := if bool_decide (xc_RequestOrigin c = EmptyString) then source else xc_RequestOrigin c in
  Ret (MkContext actor (xc_TenantID c) source correlation effective origin (xc_Currency c)).
Definition with_exec_currency (c : ExecutionContext) (currency : string) : ExecutionContext :=
  if bool_decide (xc_Currency c = EmptyString)
  then MkContext (xc_ActorID c) (xc_TenantID c) (xc_Source c) (xc_CorrelationID c)
         (xc_EffectiveTime c) (xc_RequestOrigin c) currency
  else c.

(** ** Which sources are trusted *)
Definition trusted_sources : list string := ["internal-service"; "internal-worker"; "system"].
Definition policyApplies (source : string) : bool :=
  negb (bool_decide (ToLower source ∈ trusted_sources)).
Definition subjectGateApplies (source : string) : bool :=
  negb (bool_decide (ToLower (TrimSpace source) ∈ trusted_sources)).

(** ** The executor *)
Record SubjectAuthorizer := MkAuthorizer { au_Reader : bool; au_MinKYC : Z }.
Record Executor := MkExecutor {
  x_policy : bool;
  x_currencyPolicy : bool;         (* the policy has CheckWithCurrency *)
  x_authorizer : option SubjectAuthorizer;
  x_audit : bool;
}.
Context (x : Executor).
Notation sql s := (perform (ExecSql s)).

(** The static text of an error. *)
Fixpoint error_text (err : error) : string :=
  match err with
  | Plain text | LedgerError _ text => text
  | Wrap ctx e => ctx +:+ ": " +:+ error_text e
  | _ => EmptyString
  end.
Definition minKYC (a : SubjectAuthorizer) : Z := if au_MinKYC a =? 0 then 1 else au_MinKYC a.
(** What Authorize makes of the subject it read: a reason and an error, or nothing. *)
Definition judge_subject (a : SubjectAuthorizer) (s : ExecutionSubject) (now : Z)
    : option (string * error) :=
  if negb (bool_decide (sj_Status s = EmptyString)) && negb (bool_decide (sj_Status s = "active")) then
    Some ("subject_disabled", LedgerError ErrSubjectDisabled "subject status is not active")
  else if negb (bool_decide (sj_TenantStatus s = EmptyString))
          && negb (bool_decide (sj_TenantStatus s = "active")) then
    Some ("tenant_disabled", LedgerError ErrSubjectDisabled "tenant status is not active")
  else if sj_KYCLevel s <? minKYC a then
    Some ("kyc_required", LedgerError ErrKYCRequired "KYC level is below required level")
  else match sj_KYCVerifiedUntil s with
  | Some until => if until <=? now then Some ("kyc_expired", LedgerError ErrKYCExpired "KYC verification expired")
                  else None
  | None => None
  end.
Definition Authorize (a : SubjectAuthorizer) (cmd : Command) (exec : ExecutionContext)
    : prog (option (string * error)) :=
  if negb (au_Reader a) then
    Ret (Some ("subject_state_unavailable", Plain "execution subject reader is not configured"))
  else
    let* state := sql (GetExecutionSubject (UserID cmd) (xc_TenantID exec)) in
    match state with
    | inl err => Ret (Some ("subject state unavailable", Wrap "execution subject lookup" err))
    | inr s => Ret (judge_subject a s (xc_EffectiveTime exec))
    end.
Definition authorizeSubject (cmd : Command) (exec : ExecutionContext) : prog (option (string * error)) :=
  if bool_decide (UserID cmd = uuid_Nil) || negb (subjectGateApplies (xc_Source exec)) then Ret None
  else match x_authorizer x with
  | None => Ret (Some ("subject_authorizer_unavailable",
                       Plain "money-movement subject authorizer is not configured"))
  | Some a => Authorize a cmd exec
  end.

Definition decimalToInt64 (amount : dec) : Z :=
  if negb (dec_equal amount (dec_truncate amount))
     || negb (in_int64 (Z.quot (Qnum (dec_val amount)) (Zpos (Qden (dec_val amount))))) then 0
  else dec_int_part amount.
Definition decision (id : uuid) (cmd : Command) (exec : ExecutionContext) (allowed : bool)
    (reason detail : string) : PolicyDecision :=
  MkDecision id (xc_ActorID exec) (xc_TenantID exec) (UserID cmd) (xc_Source exec)
    (xc_CorrelationID exec) (xc_RequestOrigin exec) (Type_ cmd) (xc_Currency exec)
    (decimalToInt64 (Amount cmd)) allowed reason detail (xc_EffectiveTime exec).
Definition recordDecision (cmd : Command) (exec : ExecutionContext) (allowed : bool)
    (reason detail : string) : prog (error + unit) :=
  if negb (x_audit x) then ok
  else
    let* id := perform NewUUID in
    pwrap "money-movement policy audit"
      (sql (RecordPolicyDecision (decision id cmd exec allowed reason detail))).
(** A refusal is recorded before it is reported. *)
Definition refuse (cmd : Command) (exec : ExecutionContext) (reason detail : string) (err : error)
    : prog (error + unit) :=
  let? _ := recordDecision cmd exec false reason detail in Ret (inl err).

Definition policy_currency (exec : ExecutionContext) : option string :=
  if x_currencyPolicy x && negb (bool_decide (xc_Currency exec = EmptyString))
  then Some (xc_Currency exec) else None.
Definition checkPolicy (cmd : Command) (exec : ExecutionContext)
    : prog (error + (bool * string * string)) :=
  perform (CheckPolicy (UserID cmd) (Type_ cmd) (Amount cmd) (policy_currency exec)).
Definition recordPolicyUsage (cmd : Command) (exec : ExecutionContext) : prog unit :=
  perform (RecordUsage (UserID cmd) (Type_ cmd) (Amount cmd) (policy_currency exec)).
Definition policy_engaged (exec : ExecutionContext) : bool := x_policy x && policyApplies (xc_Source exec).
(** The policy's word, and the decision on record. *)
Definition apply_policy (cmd : Command) (exec : ExecutionContext) : prog (error + unit) :=
  if policy_engaged exec then
    let* verdict := checkPolicy cmd exec in
    match verdict with
    | inl err => refuse cmd exec "policy_error" (error_text err) (Wrap "money-movement policy check" err)
    | inr (allowed, reason, detail) =>
        if negb (allowed : bool) then
          refuse cmd exec reason detail (LedgerError ErrPolicyLimitExceeded "policy limit exceeded")
        else recordDecision cmd exec true EmptyString EmptyString
    end
  else recordDecision cmd exec true "policy_not_applicable" EmptyString.

Definition post_and_count (cmd : Command) (exec : ExecutionContext) : prog (error + unit) :=
  let* posted := perform (HandleCommand cmd) in
  match posted with
  | Some err => Ret (inl err)
  | None =>
      let* _ := if policy_engaged exec then recordPolicyUsage cmd exec else Ret tt in
      Ret (inr tt)
  end.
Definition Execute (cmd : Command) (exec : ExecutionContext) : prog (error + unit) :=
  let* exec := normalized exec (UserID cmd) in
  let exec := with_exec_currency exec (Currency_ cmd) in
  if subjectGateApplies (xc_Source exec) && negb (x_audit x) then
    Ret (inl (Plain "money-movement policy audit sink is not configured"))
  else match ValidatePositiveMinorAmount (Amount cmd) with
  | Some err => refuse cmd exec "amount_invalid" (error_text err) err
  | None =>
      let* refusal := authorizeSubject cmd exec in
      match refusal with
      | Some (reason, err) => refuse cmd exec reason (error_text err) err
      | None =>
          let? _ := apply_policy cmd exec in
          post_and_count cmd exec
      end
  end.
(** The adapter of trusted internal workers. *)
Definition Executor_Handle (cmd : Command) : prog (error + unit) :=
  Execute cmd (MkContext uuid_Nil uuid_Nil "internal-service" EmptyString 0 "internal-service" EmptyString).
End executor.
