(* ===== verification/ExecutorFacts.v ===== *)
(** * What the executor lets through

    One execution, whoever else runs: a command reaches the ledger at most once, and
    only with a valid amount, an acceptable subject where the source is gated, and
    an allowed decision on record; and the rule by which workflows that execute
    commands are shown safe. *)
From Stdlib Require Import String QArith.
From stdpp Require Import prelude gmap strings list.
From S2P Require Import Prelude Decimal Errors Currency Processors Flow LedgerApi Executor.
Open Scope Z_scope.

(** ** The trusted sources *)
Lemma gate_covers_policy source : subjectGateApplies source = true -> policyApplies (TrimSpace source) = true.
Proof. done. Qed.

(** ** Who may move money *)
Record may_move (a : SubjectAuthorizer) (s : ExecutionSubject) (now : Z) : Prop := {
  mm_active : sj_Status s = EmptyString \/ sj_Status s = "active";
  mm_tenant : sj_TenantStatus s = EmptyString \/ sj_TenantStatus s = "active";
  mm_kyc : minKYC a <= sj_KYCLevel s;
  mm_verified u : sj_KYCVerifiedUntil s = Some u -> now < u;
}.
Lemma judge_subject_spec a s now : judge_subject a s now = None <-> may_move a s now.
Proof.
  unfold judge_subject. split.
  - destruct (negb _ && _) eqn:E1; [done|]. destruct (negb _ && _) eqn:E2 in |- *; [done|].
    destruct (Z.ltb_spec (sj_KYCLevel s) (minKYC a)); [done|].
    apply andb_false_iff in E1, E2. rewrite !negb_false_iff, !bool_decide_eq_true in E1, E2.
    intros Hu. split; [done..|]. intros u Hv. rewrite Hv in Hu.
    destruct (Z.leb_spec u now); [done|lia].
  - intros [H1 H2 H3 H4].
    rewrite (proj2 (andb_false_iff _ _)) by (rewrite !negb_false_iff, !bool_decide_eq_true; done).
    rewrite (proj2 (andb_false_iff _ _)) by (rewrite !negb_false_iff, !bool_decide_eq_true; done).
    destruct (Z.ltb_spec (sj_KYCLevel s) (minKYC a)); [lia|].
    destruct (sj_KYCVerifiedUntil s) as [u|]; [|done]. specialize (H4 u eq_refl).
    by destruct (Z.leb_spec u now); [lia|].
Qed.

Section executor.
Context `{DEC : !Decimal} `{UT : !UuidText}.

(** A decision about a command. *)
Record decides (cmd : Command) (allowed : bool) (d : PolicyDecision) : Prop := {
  de_user : pd_UserID d = UserID cmd;
  de_type : pd_TransactionType d = Type_ cmd;
  de_amount : pd_AmountMinor d = decimalToInt64 (Amount cmd);
  de_allowed : pd_Allowed d = allowed;
}.
Lemma decision_decides id cmd exec allowed reason detail :
  decides cmd allowed (decision id cmd exec allowed reason detail).
Proof. by split. Qed.

(** ** One execution over its own world *)
Section alone.
Context `{LED : !PostingLedger}.
Record xworld := XWorld {
  xw_db : exec_db;
  xw_ledger : lstate;
  xw_handed : list Command;      (* commands given to the posting service *)
}.
Definition set_xdb (w : xworld) d := XWorld d (xw_ledger w) (xw_handed w).
Definition exec_step B (o : exec_call B) : xworld -> B -> xworld -> Prop :=
  match o with
  | ExecSql s => fun w r w' =>
      (exists ch a d, s ch (xw_db w) = inr (a, d) /\ w' = set_xdb w d /\ (r = inr a \/ exists e, r = inl e)) \/
      (w' = w /\ exists e, r = inl e)
  | NewUUID | Clock | CheckPolicy _ _ _ _ | RecordUsage _ _ _ _ => fun w _ w' => w' = w
  | HandleCommand c => fun w r w' => exists l,
      post c (xw_ledger w) r l /\ w' = XWorld (xw_db w) l (c :: xw_handed w)
  end.
Notation runs := (runs exec_step).

(** Calls that only ask. *)
Definition asks {B} (o : exec_call B) : Prop := forall w b w', exec_step B o w b w' -> w' = w.
Lemma runs_ask {A B} (o : exec_call B) (k : B -> Flow.prog exec_call A) w r w' :
  asks o -> runs (pbind (perform o) k) w r w' -> exists b, runs (k b) w r w'.
Proof. intros Ho (b & w1 & H1 & H2). apply Ho in H1 as ->. eauto. Qed.

Lemma runs_normalized c u w e w' :
  runs (normalized c u) w e w' ->
  w' = w /\ xc_Source e = (if bool_decide (xc_Source c = EmptyString) then "unknown" else xc_Source c) /\
  xc_TenantID e = xc_TenantID c /\ (xc_EffectiveTime c <> 0 -> xc_EffectiveTime e = xc_EffectiveTime c).
Proof.
  unfold normalized. rewrite runs_bind. intros (cor & w1 & H1 & H2).
  assert (w1 = w) as ->.
  { destruct (bool_decide (xc_CorrelationID c = EmptyString)); [|by destruct H1].
    apply runs_ask in H1 as [? [_ ->]]; [done|by intros ???]. }
  destruct (Z.eqb_spec (xc_EffectiveTime c) 0) as [Hz|Hz].
  - apply runs_ask in H2 as [? [-> ->]]; [|by intros ???]. split_and!; [done..|]. by intros ?.
  - by destruct H2 as [-> ->].
Qed.
Lemma with_exec_currency_keeps e cur :
  xc_Source (with_exec_currency e cur) = xc_Source e /\ xc_TenantID (with_exec_currency e cur) = xc_TenantID e /\
  xc_EffectiveTime (with_exec_currency e cur) = xc_EffectiveTime e.
Proof. unfold with_exec_currency. by case_bool_decide. Qed.

Context (x : Executor).
Definition decided (cmd : Command) (allowed : bool) (w w' : xworld) : Prop :=
  xw_ledger w' = xw_ledger w /\ xw_handed w' = xw_handed w /\
  execution_subjects (xw_db w') = execution_subjects (xw_db w) /\
  exists d, policy_decisions (xw_db w') = policy_decisions (xw_db w) ++ [d] /\ decides cmd allowed d.
Definition audit_failed (r : error + unit) : Prop := exists e, r = inl (Wrap "money-movement policy audit" e).
(** Recording leaves one decision more or fails. *)
Lemma runs_recordDecision cmd exec allowed reason detail w r w' :
  runs (recordDecision x cmd exec allowed reason detail) w r w' ->
  (w' = w \/ decided cmd allowed w w') /\ (r = inr tt \/ audit_failed r) /\
  (r = inr tt -> x_audit x = true -> decided cmd allowed w w').
Proof.
  unfold recordDecision. destruct (x_audit x); simpl negb; [|by intros [-> ->]; split_and!; [left|left|]].
  intros H. apply runs_ask in H as [id H]; [|by intros ???].
  apply runs_bind in H as (r1 & w2 & H & [-> ->]). apply runs_perform in H as [H|[-> [e ->]]].
  - destruct H as (ch & [] & d & Hs & -> & Hr). unfold RecordPolicyDecision in Hs.
    destruct (0 <=? _); [|done]. injection Hs as <-.
    assert (Hd : decided cmd allowed w (set_xdb w (ExecDb (execution_subjects (xw_db w))
      (policy_decisions (xw_db w) ++ [decision id cmd exec allowed reason detail])))).
    { split_and!; [done..|]. eexists. split; [done|]. apply decision_decides. }
    split; [by right|]. split; [|done]. destruct Hr as [->|[e ->]]; [by left|right; by eexists].
  - split; [by left|]. split; [right; by eexists|done].
Qed.
(** A run that ends before the ledger. *)
Record refused cmd w (r : error + unit) w' : Prop := {
  rf_error : exists e, r = inl e;
  rf_handed : xw_handed w' = xw_handed w;
  rf_ledger : xw_ledger w' = xw_ledger w;
  rf_recorded : x_audit x = true -> decided cmd false w w' \/ audit_failed r;
}.
Lemma runs_refuse cmd exec reason detail err w r w' :
  runs (refuse x cmd exec reason detail err) w r w' -> refused cmd w r w'.
Proof.
  unfold refuse, ebind. rewrite runs_bind. intros (r1 & w1 & H & H2).
  apply runs_recordDecision in H as (Hw & Hr & Hd).
  assert (Hs : w' = w1 /\ r = match r1 with inl e => inl e | inr _ => inl err end)
    by (destruct r1 as [e|[]]; destruct H2; done).
  destruct Hs as [-> ->]. split.
  - destruct r1; eauto.
  - by destruct Hw as [->|(_ & ? & _)].
  - by destruct Hw as [->|(? & _)].
  - intros Ha. destruct r1 as [e|[]]; [|left; by apply Hd].
    destruct Hr as [?|(e' & [= ->])]; [done|right; by eexists].
Qed.

(** *** The gates *)
Definition source_of (exec : ExecutionContext) : string :=
  if bool_decide (xc_Source exec = EmptyString) then "unknown" else xc_Source exec.
(** The command's subject was read, and may move money. *)
Definition subject_may_move cmd exec w : Prop :=
  exists a s now, x_authorizer x = Some a /\
    subject_row (xw_db w) (UserID cmd) (xc_TenantID exec) = Some s /\ may_move a s now /\
    (xc_EffectiveTime exec <> 0 -> now = xc_EffectiveTime exec).
Lemma runs_authorizeSubject cmd exec w r w' :
  runs (authorizeSubject x cmd exec) w r w' ->
  w' = w /\ (r = None -> subjectGateApplies (xc_Source exec) = true -> UserID cmd <> uuid_Nil ->
    exists a s, x_authorizer x = Some a /\
      subject_row (xw_db w) (UserID cmd) (xc_TenantID exec) = Some s /\ may_move a s (xc_EffectiveTime exec)).
Proof.
  unfold authorizeSubject. destruct (bool_decide (UserID cmd = uuid_Nil)) eqn:En.
  { apply bool_decide_eq_true in En. intros [-> ->]. by split. }
  destruct (subjectGateApplies (xc_Source exec)) eqn:Eg; simpl; [|intros [-> ->]; by split].
  destruct (x_authorizer x) as [a|]; [|intros [-> ->]; by split].
  unfold Authorize. destruct (au_Reader a); simpl negb; [|intros [-> ->]; by split].
  rewrite runs_bind. intros (r1 & w1 & H & H2). apply (runs_perform exec_step) in H. simpl in H.
  assert (Hq : w1 = w /\ forall s, r1 = inr s -> subject_row (xw_db w) (UserID cmd) (xc_TenantID exec) = Some s).
  { destruct H as [(ch & s & d & Hs & -> & Hr)|[-> [e ->]]]; [|by split].
    unfold GetExecutionSubject in Hs. destruct (subject_row _ _ _) as [s'|]; [|done].
    injection Hs as <- <-. split; [by destruct w|]. intros s2 ->. by destruct Hr as [[= ->]|[? ?]]. }
  destruct Hq as [-> Hq]. destruct r1 as [e|s]; destruct H2 as [-> ->]; split; try done.
  intros Hj%judge_subject_spec _ _. exists a, s. split_and!; [done|by apply Hq|done].
Qed.
(** The policy's part ends in an allowed decision or before the ledger. *)
Lemma runs_apply_policy cmd exec w r w' :
  runs (apply_policy x cmd exec) w r w' ->
  xw_ledger w' = xw_ledger w /\ xw_handed w' = xw_handed w /\
  (r = inr tt -> x_audit x = true -> decided cmd true w w') /\ (r <> inr tt -> refused cmd w r w').
Proof.
  assert (Hrec : forall reason detail, runs (recordDecision x cmd exec true reason detail) w r w' ->
    xw_ledger w' = xw_ledger w /\ xw_handed w' = xw_handed w /\
    (r = inr tt -> x_audit x = true -> decided cmd true w w') /\ (r <> inr tt -> refused cmd w r w')).
  { intros reason detail (Hw & Hr & Hd)%runs_recordDecision.
    assert (xw_ledger w' = xw_ledger w /\ xw_handed w' = xw_handed w) as [? ?].
    { destruct Hw as [->|(? & ? & _)]; done. }
    split_and!; [done..|]. intros Hn. destruct Hr as [?|Ha]; [done|].
    split; [destruct Ha; eauto|done..|by right]. }
  unfold apply_policy. destruct (policy_engaged x exec); [|apply Hrec].
  intros H. apply runs_ask in H as [v H]; [|by intros ???].
  assert (Href : forall reason detail err, runs (refuse x cmd exec reason detail err) w r w' ->
    xw_ledger w' = xw_ledger w /\ xw_handed w' = xw_handed w /\
    (r = inr tt -> x_audit x = true -> decided cmd true w w') /\ (r <> inr tt -> refused cmd w r w')).
  { intros reason detail err Hf%runs_refuse. destruct Hf as [[e ->] ? ? Hr]. split_and!; [done..|].
    intros _. split; eauto. }
  destruct v as [e|[[[] reason] detail]]; simpl in H; [by eapply Href|by eapply Hrec|by eapply Href].
Qed.

Lemma runs_post_and_count cmd exec w r w' :
  runs (post_and_count x cmd exec) w r w' ->
  exists posted, post cmd (xw_ledger w) posted (xw_ledger w') /\
    w' = XWorld (xw_db w) (xw_ledger w') (cmd :: xw_handed w) /\
    r = match posted with Some err => inl err | None => inr tt end.
Proof.
  unfold post_and_count. rewrite runs_bind. intros (posted & w1 & (l & Hp & ->)%(runs_perform exec_step) & H).
  exists posted. destruct posted as [err|].
  - by destruct H as [-> ->].
  - destruct (policy_engaged x exec); [|by destruct H as [-> ->]].
    by apply runs_ask in H as [? [-> ->]]; [|intros ???].
Qed.

(** C23: The executor gates every command.  One execution gives the posting service
    the command at most once, and only when its amount is a positive number of minor
    units.  From a source that is not one of the three trusted ones, it does so only
    with an audit sink configured, an allowed decision naming user, type and amount
    on record, and, when the command names a user, that user read from the database
    and allowed to move money (active account and tenant, KYC level reached and not
    expired); a command without a user passes with no subject read.  From a trusted
    source no subject is read, and the allowed decision is on record if there is a
    sink.  In every other case the ledger is untouched and the call fails, and with a
    sink a denied decision is on record unless recording itself failed.  Success
    means posted. *)
Theorem executor_gates_every_command cmd exec w r w' :
  runs (Execute x cmd exec) w r w' ->
  refused cmd w r w' \/
  (subjectGateApplies (source_of exec) = true /\ x_audit x = false /\ w' = w /\ exists e, r = inl e) \/
  exists posted,
    post cmd (xw_ledger w) posted (xw_ledger w') /\ xw_handed w' = cmd :: xw_handed w /\
    r = match posted with Some err => inl err | None => inr tt end /\
    ValidatePositiveMinorAmount (Amount cmd) = None /\
    (subjectGateApplies (source_of exec) = true ->
       x_audit x = true /\ (UserID cmd = uuid_Nil \/ subject_may_move cmd exec w)) /\
    (x_audit x = true -> exists d, decides cmd true d /\
       policy_decisions (xw_db w') = policy_decisions (xw_db w) ++ [d]).
Proof.
  unfold Execute. rewrite runs_bind. intros (e0 & w1 & (-> & Hsrc & Hten & Heff)%runs_normalized & H).
  destruct (with_exec_currency_keeps e0 (Currency_ cmd)) as (Es & Et & Ee).
  set (ec := with_exec_currency e0 (Currency_ cmd)) in *. clearbody ec.
  assert (Esrc : xc_Source ec = source_of exec) by (unfold source_of; congruence). clear Hsrc Es.
  destruct (subjectGateApplies (xc_Source ec) && negb (x_audit x)) eqn:Eg.
  { apply andb_true_iff in Eg as [Eg Ha]. apply negb_true_iff in Ha. destruct H as [-> ->].
    right. left. rewrite <- Esrc. split_and!; [done..|by eexists]. }
  destruct (ValidatePositiveMinorAmount (Amount cmd)) as [err|] eqn:Eamt;
    [left; by eapply runs_refuse|].
  apply runs_bind in H as (ref & w2 & [-> Hsub]%runs_authorizeSubject & H).
  destruct ref as [[reason err]|]; [left; by eapply runs_refuse|].
  apply runs_bind in H as (dec & w3 & (Hl & Hh & Hd & Hr)%runs_apply_policy & H).
  destruct dec as [err|[]].
  { left. destruct H as [-> ->]. by apply Hr. }
  right. right. apply runs_post_and_count in H as (posted & Hp & Hw & Hres). exists posted.
  rewrite Hw. simpl. rewrite <- Hl, <- Hh. split_and!; [done..| |].
  - intros Hg. split; [rewrite Esrc, Hg in Eg; by destruct (x_audit x)|].
    destruct (decide (UserID cmd = uuid_Nil)) as [Hn|Hu]; [by left|right].
    rewrite <- Esrc in Hg. destruct (Hsub eq_refl Hg Hu) as (a & s & Ha & Hs & Hm).
    exists a, s, (xc_EffectiveTime ec). rewrite Et, Hten in Hs. split_and!; [done..|]. intros Hz.
    by rewrite Ee, Heff.
  - intros Ha. destruct (Hd eq_refl Ha) as (_ & _ & _ & d & Hpd & Hdec). by exists d.
Qed.
End alone.

(** ** An execution among other threads *)
Section inside.
Context {W : Type} (D : discipline exec_call W) (decisions : W -> list PolicyDecision).
(** What a workflow's world offers the executor. *)
Record executor_host : Prop := {
  eh_uuid : op_ok D NewUUID (fun _ => True) (fun _ _ => True);
  eh_clock : op_ok D Clock (fun _ => True) (fun _ _ => True);
  eh_check u t a c : op_ok D (CheckPolicy u t a c) (fun _ => True) (fun _ _ => True);
  eh_usage u t a c : op_ok D (RecordUsage u t a c) (fun _ => True) (fun _ _ => True);
  eh_subject u t : op_ok D (ExecSql (GetExecutionSubject u t)) (fun _ => True) (fun _ _ => True);
  eh_record d : op_ok D (ExecSql (RecordPolicyDecision d)) (fun _ => True)
    (fun r w' => r = inr tt -> d ∈ decisions w');
  eh_grow w w' d : d_le D w w' -> d ∈ decisions w -> d ∈ decisions w';
}.
Context (x : Executor) (Hhost : executor_host).
Notation fine := (fine D).
Definition on_record (cmd : Command) (w : W) : Prop :=
  x_audit x = true -> exists d, d ∈ decisions w /\ decides cmd true d.

Lemma safe_recordDecision cmd exec allowed reason detail w :
  safe D (recordDecision x cmd exec allowed reason detail)
    (fun r w' => match r with
                 | inr _ => x_audit x = true -> exists d, d ∈ decisions w' /\ decides cmd allowed d
                 | inl _ => True end) w.
Proof.
  unfold recordDecision. destruct (x_audit x); simpl negb; [|done].
  apply safe_bind. eapply safe_weaken; [by eapply safe_op; [apply Hhost|]|]. intros id w1 _ _.
  apply safe_wrap with (Q := fun _ w' => true = true -> exists d, d ∈ decisions w' /\ decides cmd allowed d).
  eapply safe_weaken; [by eapply safe_op; [apply eh_record; exact Hhost|]|].
  intros [e|[]] w2 _ Hd; [done|]. intros _. eexists. split; [by apply Hd|apply decision_decides].
Qed.
Lemma fine_recordDecision cmd exec allowed reason detail :
  fine (recordDecision x cmd exec allowed reason detail).
Proof. intros w. eapply safe_weaken; [apply safe_recordDecision|done]. Qed.
Lemma safe_refuse cmd exec reason detail err (Q : error + unit -> W -> Prop) w :
  (forall e w', Q (inl e) w') -> safe D (refuse x cmd exec reason detail err) Q w.
Proof.
  intros HQ. unfold refuse, ebind. apply safe_bind. eapply safe_weaken; [apply fine_recordDecision|].
  intros [e|[]] w' _ _; apply HQ.
Qed.
Lemma fine_normalized c u : fine (normalized c u).
Proof.
  unfold normalized. apply fine_seq.
  - destruct (bool_decide _); [|apply fine_ret]. apply fine_seq; [eapply fine_op, Hhost|intros; apply fine_ret].
  - intros cor. apply fine_seq; [destruct (_ =? _); [eapply fine_op, Hhost|apply fine_ret]|].
    intros; apply fine_ret.
Qed.
Lemma fine_authorizeSubject cmd exec : fine (authorizeSubject x cmd exec).
Proof.
  unfold authorizeSubject. destruct (_ || _); [apply fine_ret|].
  destruct (x_authorizer x) as [a|]; [|apply fine_ret]. unfold Authorize.
  destruct (negb _); [apply fine_ret|]. apply fine_seq; [eapply fine_op, Hhost|].
  intros [e|s]; apply fine_ret.
Qed.
Lemma safe_apply_policy cmd exec w :
  safe D (apply_policy x cmd exec)
    (fun r w' => match r with inr _ => on_record cmd w' | inl _ => True end) w.
Proof.
  unfold apply_policy. destruct (policy_engaged x exec); [|apply safe_recordDecision].
  apply safe_bind. eapply safe_weaken; [by eapply safe_op; [apply Hhost|]|].
  intros [e|[[[] reason] detail]] w1 _ _; simpl;
    [by apply safe_refuse|apply safe_recordDecision|by apply safe_refuse].
Qed.
(** A command that may be handed over under [P] and an allowed decision on record. *)
Lemma safe_Execute cmd exec (P Q : W -> Prop) w :
  (forall u u', d_le D u u' -> P u -> P u') -> (forall u u', d_le D u u' -> Q u -> Q u') ->
  op_ok D (HandleCommand cmd) (fun w => P w /\ on_record cmd w) (fun r w' => r = None -> Q w') ->
  P w -> safe D (Execute x cmd exec) (fun r w' => match r with inr _ => Q w' | inl _ => True end) w.
Proof.
  intros HP HQ Hop Pw. unfold Execute. apply safe_bind. eapply safe_weaken; [apply fine_normalized|].
  intros e0 w1 L1 _. set (ec := with_exec_currency e0 _). clearbody ec.
  destruct (_ && _); [done|]. destruct (ValidatePositiveMinorAmount _); [by apply safe_refuse|].
  apply safe_bind. eapply safe_weaken; [apply fine_authorizeSubject|]. intros [[reason err]|] w2 L2 _;
    [by apply safe_refuse|].
  unfold ebind. apply safe_bind. eapply safe_weaken; [apply safe_apply_policy|].
  intros [err|[]] w3 L3 Hrec; [done|]. unfold post_and_count. apply safe_bind.
  eapply safe_weaken.
  { eapply safe_op; [exact Hop|]. intros w4 L4. split.
    - eapply HP, HP, HP, HP; [exact L4|exact L3|exact L2|exact L1|exact Pw].
    - intros Ha. destruct (Hrec Ha) as (d & Hd & Hde). exists d. split; [by eapply eh_grow|done]. }
  intros [err|] w4 _ HQ4; [done|]. specialize (HQ4 eq_refl).
  destruct (policy_engaged x ec); [|exact HQ4].
  apply safe_bind. eapply safe_weaken; [by eapply safe_op; [apply Hhost|]|].
  intros [] w5 L5 _. by eapply HQ.
Qed.
End inside.
End executor.
