(* ===== verification/Adjustments.v ===== *)
(** * Maker-checker adjustments: services/ledger/internal/ledger/adjustments

    adjustments.go and governance/, over repository/pending_adjustment_repository.go
    and migration 000006: who requests a manual movement of money cannot be who
    approves it.  Each handler is a sequence of calls; the approved command goes
    through the executor. *)
From stdpp Require Import prelude gmap strings list sorting.
From S2P Require Import Prelude Decimal Errors Currency Events Processors Flow LedgerApi Executor.
Open Scope Z_scope.

(** ** governance *)
Definition pending_adjustment_types : list string :=
  ["adjustment_credit"; "adjustment_debit"; "adjustment_suspense_credit"; "adjustment_suspense_debit";
   "reversal"; "chargeback"; "freeze_release"; "freeze_confiscate"; "fx_rebalance_credit";
   "fx_rebalance_debit"].
Definition IsPendingAdjustmentType (t : string) : bool := bool_decide (t ∈ pending_adjustment_types).
Definition IsWorkflowOnlyPostType (t : string) : bool :=
  IsPendingAdjustmentType t || bool_decide (t = "fx_out") || bool_decide (t = "fx_in").
Definition ValidGateways : list string := ["bca"; "gopay"; "platform"].
Definition suspenseTypes : list string := ["adjustment_suspense_credit"; "adjustment_suspense_debit"].
Definition fxRebalanceTypes : list string := ["fx_rebalance_credit"; "fx_rebalance_debit"].
Definition referenceIDTypes : list string := ["reversal"].

(** ** The table: migration 000006 *)
(** The stored JSON.  The metadata came out of a JSON body, so it survives being
    stored as one; the amount is stored as text. *)
Record cmdPayload := MkPayload {
  pl_Type : string; pl_Amount : string; pl_UserID : uuid; pl_Metadata : metadata;
  pl_ReferenceID : uuid; pl_Currency : string }.
Record adjustment_row := AdjustmentRow {
  pa_requested_by : string;
  pa_approved_by : option string;
  pa_cmd_payload : option cmdPayload;     (* None: JSON that does not decode *)
  pa_reason : string;
  pa_status : string;
  pa_executed_tx_id : option uuid;        (* a ledger_transactions row, never deleted *)
  pa_error_message : option string;
  pa_created_at : Z;
}.
Definition adjustment_statuses : list string := ["pending"; "approved"; "rejected"; "executed"; "failed"].
Definition adjustment_row_ok (r : adjustment_row) : bool :=
  bool_decide (pa_status r ∈ adjustment_statuses)
  && negb (bool_decide (pa_approved_by r = Some (pa_requested_by r))).

(** contracts/events/ledger: AdjustmentDecided *)
Record AdjustmentDecided := MkDecided {
  ad_SchemaVersion : Z; ad_EventID : option uuid; ad_PendingID : uuid; ad_RequestedBy : string;
  ad_ApprovedBy : string; ad_Decision : string; ad_ExecutedTxID : option uuid; ad_OccurredAt : Z }.
Definition TypeAdjustmentDecided : string := "ledger.adjustment.decided.v1".
Definition NewAdjustmentDecided `{UT : !UuidText} (pendingID : uuid) (requestedBy approvedBy dec : string)
    (executedTxID : option uuid) (occurredAt : Z) : AdjustmentDecided :=
  MkDecided 1 (logicalEventID TypeAdjustmentDecided (uuid_string pendingID +:+ ":" +:+ dec))
    pendingID requestedBy approvedBy dec executedTxID occurredAt.
Definition AdjustmentDecided_Validate (e : AdjustmentDecided) : bool :=
  bool_decide (ad_SchemaVersion e = 1) && negb (bool_decide (ad_PendingID e = uuid_Nil))
  && negb (bool_decide (ad_RequestedBy e = EmptyString)) && negb (bool_decide (ad_ApprovedBy e = EmptyString))
  && bool_decide (ad_Decision e ∈ ["approved"; "rejected"]) && negb (ad_OccurredAt e =? 0).

Record adj_db := AdjDb {
  pending_adjustments : gmap uuid adjustment_row;
  decided_events : list AdjustmentDecided;       (* outbox rows of these aggregates *)
}.
Definition adj_query (A : Type) : Type := db_choice -> adj_db -> error + (A * adj_db).

(** ** pending_adjustment_repository.go *)
Definition adjustment_refused : error := PgError "23514" "violates check constraint".
Definition CreateAdjustment (id : uuid) (requestedBy : string) (payload : cmdPayload) (reason : string)
    : adj_query unit := fun ch d =>
  let r := AdjustmentRow requestedBy None (Some payload) reason "pending" None None (ch_now ch) in
  match pending_adjustments d !! id with
  | Some _ => inl (Wrap "create pending adjustment" (PgError "23505" "duplicate key value"))
  | None =>
      if adjustment_row_ok r
      then inr (tt, AdjDb (<[id := r]> (pending_adjustments d)) (decided_events d))
      else inl (Wrap "create pending adjustment" adjustment_refused)
  end.
Definition GetAdjustment (id : uuid) : adj_query adjustment_row := fun _ d =>
  match pending_adjustments d !! id with
  | None => inl (wrapf ErrPendingAdjustmentNotFound EmptyString)
  | Some r => inr (r, d)
  end.
(** UPDATE ... WHERE id = $1 [AND status = 'pending']: the number of rows. *)
Definition update_adjustment (ctx : string) (id : uuid) (only_pending : bool)
    (f : adjustment_row -> adjustment_row) (d : adj_db) : error + (Z * adj_db) :=
  match pending_adjustments d !! id with
  | Some r =>
      if only_pending && negb (bool_decide (pa_status r = "pending")) then inr (0, d)
      else if adjustment_row_ok (f r)
      then inr (1, AdjDb (<[id := f r]> (pending_adjustments d)) (decided_events d))
      else inl (Wrap ctx adjustment_refused)
  | None => inr (0, d)
  end.
Definition set_decided (status approvedBy : string) (r : adjustment_row) : adjustment_row :=
  AdjustmentRow (pa_requested_by r) (Some approvedBy) (pa_cmd_payload r) (pa_reason r) status
    (pa_executed_tx_id r) (pa_error_message r) (pa_created_at r).
Definition MarkApproved (id : uuid) (approvedBy : string) : adj_query Z := fun _ d =>
  update_adjustment "mark approved" id true (set_decided "approved" approvedBy) d.
(** Rejection and its event, one transaction. *)
Definition add_event (e : AdjustmentDecided) (d : adj_db) : adj_db :=
  AdjDb (pending_adjustments d) (decided_events d ++ [e]).
Definition MarkRejected (id : uuid) (approvedBy : string) : adj_query Z := fun _ d =>
  update_adjustment "mark rejected" id true (set_decided "rejected" approvedBy) d.
Definition set_executed (tx : uuid) (r : adjustment_row) : adjustment_row :=
  AdjustmentRow (pa_requested_by r) (pa_approved_by r) (pa_cmd_payload r) (pa_reason r) "executed"
    (Some tx) (pa_error_message r) (pa_created_at r).
Definition MarkExecuted (id tx : uuid) : adj_query Z := fun _ d =>
  update_adjustment "mark executed" id false (set_executed tx) d.
Definition set_failed (msg : string) (r : adjustment_row) : adjustment_row :=
  AdjustmentRow (pa_requested_by r) (pa_approved_by r) (pa_cmd_payload r) (pa_reason r) "failed"
    (pa_executed_tx_id r) (Some msg) (pa_created_at r).
Definition MarkAdjustmentFailed (id : uuid) (msg : string) : adj_query Z := fun _ d =>
  update_adjustment "mark failed" id false (set_failed msg) d.
(** ORDER BY created_at DESC LIMIT n; an empty status does not filter. *)
Definition adjustment_newest (a b : uuid * adjustment_row) : Prop := pa_created_at b.2 <= pa_created_at a.2.
#[export] Instance adjustment_newest_dec : RelDecision adjustment_newest.
Proof. intros a b. unfold adjustment_newest. apply _. Defined.
Definition ListAdjustments (status : string) (limit : nat) : adj_query (list (uuid * adjustment_row)) := fun _ d =>
  let wanted (_ : uuid) (r : adjustment_row) :=
    bool_decide (status = EmptyString) || bool_decide (pa_status r = status) in
  inr (take limit (merge_sort adjustment_newest (rows_where wanted (pending_adjustments d))), d).

Section adjustments.
Context `{DEC : !Decimal} `{UT : !UuidText}.

(** ** Calls *)
Inductive adj_call : Type -> Type :=
  | AdjSql {A} (s : adj_query A) : adj_call (error + A)
  | AdjExec {A} (o : exec_call A) : adj_call A
  | GetByIdempotencyKey (key : string) : adj_call (error + uuid).   (* header of a key without scope *)
Notation prog := (Flow.prog adj_call).
Notation sql s := (perform (AdjSql s)).
Context (x : Executor).

(** ** Create *)
Definition invalid_adjustment (msg : string) : error := wrapf ErrValidation msg.
(** The currency in the metadata, in canonical form, or none. *)
Definition payload_currency (metadata_ : metadata) : error + (string * metadata) :=
  let raw := TrimSpace (MetaString_ metadata_ "currency") in
  if bool_decide (raw = EmptyString) then inr (EmptyString, metadata_)
  else
    let code := ToUpper raw in
    match ValidateCode code with
    | Some err => inl (Wrap2 ErrCurrencyInvalid err)
    | None => inr (code, <["currency" := MString code]> metadata_)
    end.
Definition target_error (adjType currencyCode : string) (targetUserID referenceID : uuid)
    (metadata_ : metadata) : option error :=
  if bool_decide (adjType ∈ suspenseTypes) then
    if bool_decide (MetaString_ metadata_ "gateway" ∈ ValidGateways) then None
    else Some (invalid_adjustment "requires a valid 'gateway' in metadata")
  else if bool_decide (adjType ∈ referenceIDTypes) then
    if bool_decide (referenceID = uuid_Nil) then
      Some (invalid_adjustment "requires reference_id (the transaction being acted on)")
    else None
  else if bool_decide (adjType ∈ fxRebalanceTypes) then
    if bool_decide (TrimSpace (MetaString_ metadata_ "pair") = EmptyString)
       || bool_decide (currencyCode = EmptyString) then
      Some (invalid_adjustment "requires metadata 'pair' and 'currency'")
    else None
  else if bool_decide (targetUserID = uuid_Nil) then Some (invalid_adjustment "user_id is required")
  else None.
(** The checks of Create, in order: the payload to store. *)
Definition adjustment_payload (requestedBy adjType : string) (amount : dec)
    (targetUserID referenceID : uuid) (metadata_ : metadata) (reason : string) : error + cmdPayload :=
  if negb (IsPendingAdjustmentType adjType) then
    inl (invalid_adjustment "type is not an approved adjustment or FX rebalance type")
  else if negb (dec_is_positive amount) || negb (dec_equal amount (dec_truncate amount)) then
    inl (invalid_adjustment "amount must be a positive integer (minor units)")
  else if bool_decide (adjType = "freeze_release")
          && bool_decide (TrimSpace (MetaString_ metadata_ "case_id") = EmptyString) then
    inl (invalid_adjustment "freeze_release requires metadata 'case_id'")
  else match payload_currency metadata_ with
  | inl err => inl err
  | inr (currencyCode, metadata_) =>
      match target_error adjType currencyCode targetUserID referenceID metadata_ with
      | Some err => inl err
      | None =>
          if bool_decide (reason = EmptyString) then inl (invalid_adjustment "reason is required")
          else if bool_decide (requestedBy = EmptyString) then
            inl (invalid_adjustment "requested_by (caller identity) is required")
          else inr (MkPayload adjType (dec_string amount) targetUserID metadata_ referenceID currencyCode)
      end
  end.
Definition Adjustment_Create (requestedBy adjType : string) (amount : dec)
    (targetUserID referenceID : uuid) (metadata_ : metadata) (reason : string) : prog (error + uuid) :=
  match adjustment_payload requestedBy adjType amount targetUserID referenceID metadata_ reason with
  | inl err => Ret (inl err)
  | inr payload =>
      let* id := perform (AdjExec NewUUID) in
      let? _ := sql (CreateAdjustment id requestedBy payload reason) in Ret (inr id)
  end.

(** ** Approve *)
Definition adjustmentIdempotencyKey (id : uuid) : string := "adj:" +:+ uuid_string id.
Definition already_decided : error := LedgerError ErrAdjustmentAlreadyDecided "adjustment was already decided".
(** The approver authorises the movement, not the requester. *)
Definition authorized_metadata (payload : cmdPayload) (approverID reason : string) : metadata :=
  let meta := <["authorized_by" := MString approverID]> (pl_Metadata payload) in
  match meta !! "reason" with Some _ => meta | None => <["reason" := MString reason]> meta end.
Definition adjustment_command (id : uuid) (payload : cmdPayload) (amount : dec)
    (approverID reason : string) : Command :=
  {| IdempotencyKey := adjustmentIdempotencyKey id; IdempotencyScope := EmptyString;
     Type_ := pl_Type payload; Amount := amount; UserID := pl_UserID payload;
     TargetUserID := uuid_Nil; PocketCode := EmptyString; Currency_ := pl_Currency payload;
     ReferenceID := pl_ReferenceID payload; Metadata := authorized_metadata payload approverID reason;
     QuoteID := EmptyString; MerchantTenantID := uuid_Nil |}.
Definition approval_context (id : uuid) (approverID currency : string) : ExecutionContext :=
  MkContext (default uuid_Nil (uuid_parse approverID)) uuid_Nil "admin-correction" (uuid_string id) 0
    "pending-adjustment-approval" currency.
Definition markFailedTx (id : uuid) (msg : string) : prog (error + Z) := sql (MarkAdjustmentFailed id msg).

(** The approved command, executed and recorded. *)
Definition execute_adjustment (id : uuid) (pa : adjustment_row) (approverID : string)
    (payload : cmdPayload) (amount : dec) : prog (error + uuid) :=
  let cmd := adjustment_command id payload amount approverID (pa_reason pa) in
  let* posted := embed (@AdjExec) (Execute x cmd (approval_context id approverID (pl_Currency payload))) in
  match posted with
  | inl postErr =>
      let* _ := logged (markFailedTx id (error_text postErr)) in Ret (inl postErr)
  | inr _ =>
      let? tx := pwrap "adjustment posted but lookup failed"
                   (perform (GetByIdempotencyKey (IdempotencyKey cmd))) in
      let* now := perform (AdjExec Clock) in
      let decided := NewAdjustmentDecided id (pa_requested_by pa) approverID "approved" (Some tx) now in
      let? _ := pwrap "adjustment posted but mark-executed failed"
        (sql (fun ch d => match MarkExecuted id tx ch d with
                          | inl err => inl err | inr (_, d') => inr (tt, add_event decided d') end)) in
      Ret (inr tx)
  end.
Definition Approve (id : uuid) (approverID : string) : prog (error + uuid) :=
  let? pa := sql (GetAdjustment id) in
  if bool_decide (pa_requested_by pa = approverID) then
    Ret (inl (LedgerError ErrSelfApproval "cannot approve your own adjustment request"))
  else
    let? rows := sql (MarkApproved id approverID) in
    if rows =? 0 then Ret (inl already_decided)
    else match pa_cmd_payload pa with
    | None =>
        let* _ := logged (markFailedTx id "corrupt cmd_payload") in
        Ret (inl (Plain "unmarshal payload"))
    | Some payload =>
        match dec_of_string (pl_Amount payload) with
        | None =>
            let* _ := logged (markFailedTx id "corrupt stored amount") in
            Ret (inl (Plain "parse stored amount"))
        | Some amount => execute_adjustment id pa approverID payload amount
        end
    end.

(** ** Reject, Get, List *)
Definition Reject (id : uuid) (approverID : string) : prog (error + unit) :=
  let? pa := sql (GetAdjustment id) in
  if bool_decide (pa_requested_by pa = approverID) then
    Ret (inl (LedgerError ErrSelfApproval "cannot reject your own adjustment request"))
  else
    let* now := perform (AdjExec Clock) in
    let decided := NewAdjustmentDecided id (pa_requested_by pa) approverID "rejected" None now in
    let? rows := sql (fun ch d => match MarkRejected id approverID ch d with
                                  | inl err => inl err
                                  | inr (rows, d') => inr (rows, if rows =? 0 then d' else add_event decided d')
                                  end) in
    if rows =? 0 then Ret (inl already_decided) else Ret (inr tt).
Definition Adjustment_Get (id : uuid) : prog (error + adjustment_row) := sql (GetAdjustment id).
Definition list_limit (limit : Z) : nat := Z.to_nat (if (limit <=? 0) || (200 <? limit) then 50 else limit).
Definition Adjustment_List (status : string) (limit : Z) : prog (error + list (uuid * adjustment_row)) :=
  sql (ListAdjustments status (list_limit limit)).
End adjustments.
