(* ===== verification/AdjustmentsSafe.v ===== *)
(** * Every interleaving of the maker-checker workflow

    Requests, approvals, rejections and reads by any identities run as threads over
    one database and one ledger, with crashes and lost answers; what every reachable
    state satisfies, and that no adjustment reaches the ledger on one person's word. *)
From stdpp Require Import prelude gmap strings list relations.
From S2P Require Import Prelude Decimal Errors Currency Processors Flow LedgerApi Executor ExecutorFacts Adjustments.
Open Scope Z_scope.

Section adjustments.
Context `{DEC : !Decimal} `{UT : !UuidText} `{LED : !PostingLedger}.

Record aworld := AWorld {
  aw_adj : adj_db;
  aw_exec : exec_db;
  aw_ledger : lstate;
  aw_sent : list Command;       (* commands given to the posting service *)
}.
Definition set_adj (w : aworld) d := AWorld d (aw_exec w) (aw_ledger w) (aw_sent w).
Definition set_exec (w : aworld) d := AWorld (aw_adj w) d (aw_ledger w) (aw_sent w).
Definition set_aledger (w : aworld) l := AWorld (aw_adj w) (aw_exec w) l (aw_sent w).
Definition sent_to (c : Command) l (w : aworld) := AWorld (aw_adj w) (aw_exec w) l (c :: aw_sent w).
Definition under (l : lstate) (key : string) (tx : uuid) : Prop := keyed l key EmptyString tx /\ is_posted l tx.

Lemma adjustment_key_inj id id' : adjustmentIdempotencyKey id = adjustmentIdempotencyKey id' -> id = id'.
Proof.
  unfold adjustmentIdempotencyKey. intros H%(inj (String.append "adj:")). by apply uuid_string_inj.
Qed.

(** ** One call *)
Definition inner_step B (o : exec_call B) : aworld -> B -> aworld -> Prop :=
  match o with
  | ExecSql s => fun w r w' =>
      (exists ch a d, s ch (aw_exec w) = inr (a, d) /\ w' = set_exec w d /\ (r = inr a \/ exists e, r = inl e)) \/
      (w' = w /\ exists e, r = inl e)
  | NewUUID | Clock | CheckPolicy _ _ _ _ | RecordUsage _ _ _ _ => fun w _ w' => w' = w
  | HandleCommand c => fun w r w' => exists l, post c (aw_ledger w) r l /\ w' = sent_to c l w
  end.
Definition adj_step B (o : adj_call B) : aworld -> B -> aworld -> Prop :=
  match o with
  | AdjSql s => fun w r w' =>
      (exists ch a d, s ch (aw_adj w) = inr (a, d) /\ w' = set_adj w d /\ (r = inr a \/ exists e, r = inl e)) \/
      (w' = w /\ exists e, r = inl e)
  | AdjExec o => fun w r w' => inner_step _ o w r w'
  | GetByIdempotencyKey key => fun w r w' => w' = w /\
      match r with inr tx => keyed (aw_ledger w) key EmptyString tx | inl _ => True end
  end.

(** ** What can run *)
Inductive adj_entry (x : Executor) : Flow.prog adj_call unit -> Prop :=
  | ae_create by_ t amount user ref meta reason :
      adj_entry x (logged (Adjustment_Create by_ t amount user ref meta reason))
  | ae_approve id who : adj_entry x (logged (Approve x id who))
  | ae_reject id who : adj_entry x (logged (Reject id who))
  | ae_get id : adj_entry x (logged (Adjustment_Get id))
  | ae_list status limit : adj_entry x (logged (Adjustment_List status limit)).
(** Others post under keys of their own, write the subject projection and record
    decisions of their own commands. *)
Inductive adj_env (w : aworld) : aworld -> Prop :=
  | av_ledger c r l :
      (IdempotencyScope c = EmptyString -> forall id, IdempotencyKey c <> adjustmentIdempotencyKey id) ->
      post c (aw_ledger w) r l -> adj_env w (set_aledger w l)
  | av_exec subjects more :
      adj_env w (set_exec w (ExecDb subjects (policy_decisions (aw_exec w) ++ more))).
Definition adj_initial (c : aworld * list (Flow.prog adj_call unit)) : Prop :=
  let w := c.1 in
  pending_adjustments (aw_adj w) = ∅ /\ decided_events (aw_adj w) = [] /\ lok (aw_ledger w) /\
  (forall id tx, ~ keyed (aw_ledger w) (adjustmentIdempotencyKey id) EmptyString tx) /\
  aw_sent w = [] /\ c.2 = [].
Definition adj_reachable (x : Executor) c : Prop :=
  exists c0, adj_initial c0 /\ rtc (sys_step adj_step (adj_entry x) adj_env) c0 c.

(** ** The invariant *)
Implicit Types (w : aworld) (r : adjustment_row).
Definition adjustment w id := pending_adjustments (aw_adj w) !! id.
Definition decisions_of w := policy_decisions (aw_exec w).
Definition authorised_statuses : list string := ["approved"; "executed"; "failed"].
(** [who] approved the request. *)
Definition approved_by_ r (who : string) : Prop :=
  pa_approved_by r = Some who /\ pa_status r ∈ authorised_statuses.
(** The command is what the row asks for, in the approver's name. *)
Record ordered_by w (c : Command) id r who : Prop := {
  ob_row : adjustment w id = Some r;
  ob_approved : approved_by_ r who;
  ob_command : exists p amount, pa_cmd_payload r = Some p /\ dec_of_string (pl_Amount p) = Some amount /\
    c = adjustment_command id p amount who (pa_reason r);
}.
Definition commanded (x : Executor) w (c : Command) : Prop :=
  (exists id r who, ordered_by w c id r who) /\ on_record decisions_of x c w.
Definition event_true w (e : AdjustmentDecided) : Prop :=
  exists r, adjustment w (ad_PendingID e) = Some r /\ ad_RequestedBy e = pa_requested_by r /\
    pa_approved_by r = Some (ad_ApprovedBy e) /\
    ((ad_Decision e = "rejected" /\ pa_status r = "rejected" /\ ad_ExecutedTxID e = None) \/
     (ad_Decision e = "approved" /\ approved_by_ r (ad_ApprovedBy e) /\
      exists tx, ad_ExecutedTxID e = Some tx /\
        under (aw_ledger w) (adjustmentIdempotencyKey (ad_PendingID e)) tx)).
Record adj_inv (x : Executor) w : Prop := {
  ai_ledger : lok (aw_ledger w);
  ai_row id r : adjustment w id = Some r ->
    adjustment_row_ok r = true /\ (pa_status r = "pending" <-> pa_approved_by r = None);
  ai_sent c : c ∈ aw_sent w -> commanded x w c;
  ai_origin id tx : under (aw_ledger w) (adjustmentIdempotencyKey id) tx ->
    exists c, c ∈ aw_sent w /\ IdempotencyKey c = adjustmentIdempotencyKey id;
  ai_executed id r : adjustment w id = Some r -> pa_status r = "executed" ->
    exists tx, pa_executed_tx_id r = Some tx /\ under (aw_ledger w) (adjustmentIdempotencyKey id) tx;
  ai_event e : e ∈ decided_events (aw_adj w) -> event_true w e;
}.

(** ** How the world evolves *)
Record row_le r r' : Prop := {
  rl_requested : pa_requested_by r' = pa_requested_by r;
  rl_payload : pa_cmd_payload r' = pa_cmd_payload r;
  rl_reason : pa_reason r' = pa_reason r;
  rl_approved who : pa_approved_by r = Some who -> pa_approved_by r' = Some who;
  rl_authorised : pa_status r ∈ authorised_statuses -> pa_status r' ∈ authorised_statuses;
  rl_rejected : pa_status r = "rejected" -> pa_status r' = "rejected";
}.
Record adj_le w w' : Prop := {
  al_row id r : adjustment w id = Some r -> exists r', adjustment w' id = Some r' /\ row_le r r';
  al_decision d : d ∈ decisions_of w -> d ∈ decisions_of w';
  al_ledger : ledger_le (aw_ledger w) (aw_ledger w');
}.
#[export] Instance row_le_preorder : PreOrder row_le.
Proof.
  split; [by intros r|]. intros r1 r2 r3 [? ? ? A1 S1 R1] [? ? ? A2 S2 R2]. split; try congruence; auto.
Qed.
#[export] Instance adj_le_preorder : PreOrder adj_le.
Proof.
  split.
  - intros w. split; [|done|reflexivity]. intros id r Hr. exists r. split; [done|reflexivity].
  - intros w1 w2 w3 [R1 D1 L1] [R2 D2 L2]. split; [|auto|by transitivity (aw_ledger w2)].
    intros id r (r2 & H2 & ?)%R1. apply R2 in H2 as (r3 & ? & ?). exists r3. split; [done|by transitivity r2].
Qed.

Lemma under_le l l' k tx : ledger_le l l' -> under l k tx -> under l' k tx.
Proof. intros [] [? ?]. split; auto. Qed.
Lemma approved_le r r' who : row_le r r' -> approved_by_ r who -> approved_by_ r' who.
Proof. intros [] [? ?]. split; auto. Qed.
Lemma ordered_le w w' c id r who :
  adj_le w w' -> ordered_by w c id r who -> exists r', ordered_by w' c id r' who.
Proof.
  intros Hw [Hr Ha (p & amount & Hp & Hd & ->)]. apply (al_row _ _ Hw) in Hr as (r' & Hr' & Hle).
  exists r'. split; [done|by eapply approved_le|]. exists p, amount.
  rewrite (rl_payload _ _ Hle), (rl_reason _ _ Hle). done.
Qed.
Lemma on_record_le x c w w' : adj_le w w' -> on_record decisions_of x c w -> on_record decisions_of x c w'.
Proof. intros Hw Hr Ha. destruct (Hr Ha) as (d & ? & ?). exists d. split; [by eapply al_decision|done]. Qed.
Lemma commanded_le x c w w' : adj_le w w' -> commanded x w c -> commanded x w' c.
Proof.
  intros Hw [(i & q & who & H) Hrec]. split; [|by eapply on_record_le].
  eapply ordered_le in H as [q' H]; [eauto|exact Hw].
Qed.
Lemma event_le_true w w' e : adj_le w w' -> event_true w e -> event_true w' e.
Proof.
  intros Hw (r & Hr & Hq & Ha & Hcase). apply (al_row _ _ Hw) in Hr as (r' & Hr' & Hle).
  exists r'. split; [done|]. split; [rewrite Hq; symmetry; apply Hle|]. split; [by apply Hle|].
  destruct Hcase as [(? & Hs & ?)|(? & Hs & tx & ? & Hu)]; [left|right].
  - split_and!; [done|by apply Hle|done].
  - split_and!; [done|by eapply approved_le|]. exists tx. split; [done|]. eapply under_le; [apply Hw|done].
Qed.

(** ** Statements *)
Context (x : Executor).
Definition adj_discipline : discipline adj_call aworld := {|
  d_step := adj_step; d_inv := adj_inv x; d_le := adj_le; d_preorder := adj_le_preorder |}.
Notation D := adj_discipline.
Notation fine := (fine D).
Notation inv := (adj_inv x).

(** A row that evolves, and the events of its transaction. *)
Lemma store_row w id r r' more :
  let w' := set_adj w (AdjDb (<[id := r']> (pending_adjustments (aw_adj w))) (decided_events (aw_adj w) ++ more)) in
  inv w -> adjustment w id = Some r -> row_le r r' -> adjustment_row_ok r' = true ->
  (pa_status r' = "pending" <-> pa_approved_by r' = None) ->
  (pa_status r' = "executed" ->
     exists tx, pa_executed_tx_id r' = Some tx /\ under (aw_ledger w) (adjustmentIdempotencyKey id) tx) ->
  (forall e, e ∈ more -> event_true w' e) -> inv w' /\ adj_le w w'.
Proof.
  intros w' I Hr Hle Hok Hp He Hm.
  assert (Hw : adj_le w w').
  { split; [|done|reflexivity]. intros i q Hq. unfold adjustment, w'. simpl.
    destruct (decide (i = id)) as [->|Hne].
    - rewrite lookup_insert_eq. exists r'. split; [done|]. by rewrite Hr in Hq; injection Hq as <-.
    - rewrite lookup_insert_ne by done. exists q. split; [done|reflexivity]. }
  split; [|done]. destruct I as [I1 I2 I3 I4 I5 I6]. split.
  - exact I1.
  - intros i q. unfold adjustment, w'. simpl. intros [[<- <-]|[_ Hq]]%lookup_insert_Some; [done|by eapply I2].
  - intros c H%I3. by eapply commanded_le.
  - exact I4.
  - intros i q. unfold adjustment, w'. simpl. intros [[<- <-]|[_ Hq]]%lookup_insert_Some; [done|by eapply I5].
  - intros e. unfold w'. simpl. intros [Hin|Hin]%elem_of_app; [|by apply Hm].
    eapply event_le_true; [exact Hw|by apply I6].
Qed.
Lemma adj_sql_ok {A} (s : adj_query A) (Pre : aworld -> Prop) (Q : A -> aworld -> Prop) :
  (forall ch w a d, inv w -> Pre w -> s ch (aw_adj w) = inr (a, d) ->
     inv (set_adj w d) /\ adj_le w (set_adj w d) /\ Q a (set_adj w d)) ->
  op_ok D (AdjSql s) Pre (fun res w' => match res with inr a => Q a w' | inl _ => True end).
Proof.
  intros H w res w' I HP [(ch & a & d & Hs & -> & Hr)|[-> [e ->]]].
  - destruct (H ch w a d I HP Hs) as (? & ? & ?). split_and!; [done..|]. by destruct Hr as [->|[e ->]].
  - split_and!; [done|reflexivity|done].
Qed.
Lemma set_adj_same w : set_adj w (aw_adj w) = w.
Proof. by destruct w. Qed.
Lemma adj_read_ok {A} (s : adj_query A) (Q : A -> aworld -> Prop) :
  (forall ch w a d, s ch (aw_adj w) = inr (a, d) -> d = aw_adj w /\ Q a w) ->
  op_ok D (AdjSql s) (fun _ => True) (fun res w' => match res with inr a => Q a w' | inl _ => True end).
Proof.
  intros H. apply adj_sql_ok. intros ch w a d I _ Hs. destruct (H ch w a d Hs) as [-> Hq].
  rewrite set_adj_same. split_and!; [done|reflexivity|done].
Qed.

Lemma GetAdjustment_ok id :
  op_ok D (AdjSql (GetAdjustment id)) (fun _ => True)
    (fun res w' => match res with inr pa => adjustment w' id = Some pa | inl _ => True end).
Proof.
  apply adj_read_ok. unfold GetAdjustment, adjustment. intros ch w a d H.
  destruct (pending_adjustments (aw_adj w) !! id) as [pa|]; [|done]. by injection H as <- <-.
Qed.
Lemma CreateAdjustment_ok id who p reason :
  op_ok D (AdjSql (CreateAdjustment id who p reason)) (fun _ => True)
    (fun res w' => match res with inr _ => True | inl _ => True end).
Proof.
  apply adj_sql_ok. intros ch w [] d I _. unfold CreateAdjustment.
  destruct (pending_adjustments (aw_adj w) !! id) eqn:Hn; [done|].
  set (r := AdjustmentRow _ _ _ _ _ _ _ _). destruct (adjustment_row_ok r) eqn:Hok; [|done].
  intros [= <-].
  assert (Hw : adj_le w (set_adj w (AdjDb (<[id := r]> (pending_adjustments (aw_adj w))) (decided_events (aw_adj w))))).
  { split; [|done|reflexivity]. intros i q Hq. exists q. split; [|reflexivity]. unfold adjustment. simpl.
    rewrite lookup_insert_ne; [done|]. intros <-. unfold adjustment in Hq. congruence. }
  split; [|done]. destruct I as [I1 I2 I3 I4 I5 I6]. split.
  - exact I1.
  - intros i q. unfold adjustment. simpl. intros [[<- <-]|[_ Hq]]%lookup_insert_Some; [done|by eapply I2].
  - intros c H%I3. by eapply commanded_le.
  - exact I4.
  - intros i q. unfold adjustment. simpl. intros [[<- <-]|[_ Hq]]%lookup_insert_Some; [done|by eapply I5].
  - intros e He. eapply event_le_true; [exact Hw|by apply I6].
Qed.

(** What a conditional update did. *)
Lemma update_adjustment_cases ctx id only f d n d' :
  update_adjustment ctx id only f d = inr (n, d') ->
  (n = 0 /\ d' = d /\ (only = false -> pending_adjustments d !! id = None)) \/
  exists r, n = 1 /\ pending_adjustments d !! id = Some r /\ (only = true -> pa_status r = "pending") /\
    adjustment_row_ok (f r) = true /\
    d' = AdjDb (<[id := f r]> (pending_adjustments d)) (decided_events d).
Proof.
  unfold update_adjustment. destruct (pending_adjustments d !! id) as [r|]; [|by intros [= <- <-]; left].
  destruct only; simpl.
  - case_bool_decide; simpl; [|by intros [= <- <-]; left].
    destruct (adjustment_row_ok (f r)) eqn:E; [|done]. intros [= <- <-]. right. by exists r.
  - destruct (adjustment_row_ok (f r)) eqn:E; [|done]. intros [= <- <-]. right. by exists r.
Qed.
Lemma pending_not_authorised : "pending" ∉ authorised_statuses.
Proof. unfold authorised_statuses. intros H. repeat (apply elem_of_cons in H as [H|H]; [done|]). by apply not_elem_of_nil in H. Qed.
Lemma rejected_not_authorised : "rejected" ∉ authorised_statuses.
Proof. unfold authorised_statuses. intros H. repeat (apply elem_of_cons in H as [H|H]; [done|]). by apply not_elem_of_nil in H. Qed.
Lemma decide_row_le r status who :
  pa_status r = "pending" -> pa_approved_by r = None -> row_le r (set_decided status who r).
Proof. intros Hs Ha. split; simpl; try done; [congruence| |congruence].
  rewrite Hs. intros H. by destruct (pending_not_authorised H).
Qed.
Definition seen id r w : Prop := exists r', adjustment w id = Some r' /\ row_le r r'.
Definition approved id r who w : Prop :=
  exists r', adjustment w id = Some r' /\ row_le r r' /\ approved_by_ r' who.
Lemma seen_le id r w w' : adj_le w w' -> seen id r w -> seen id r w'.
Proof.
  intros Hw (r1 & H1 & ?). apply (al_row _ _ Hw) in H1 as (r2 & ? & ?). exists r2. split; [done|by transitivity r1].
Qed.
Lemma approved_le_ id r who w w' : adj_le w w' -> approved id r who w -> approved id r who w'.
Proof.
  intros Hw (r1 & H1 & ? & ?). apply (al_row _ _ Hw) in H1 as (r2 & ? & ?). exists r2.
  split_and!; [done|by transitivity r1|by eapply approved_le].
Qed.
Lemma MarkApproved_ok id r who :
  op_ok D (AdjSql (MarkApproved id who)) (seen id r)
    (fun n w' => match n with inr n => n <> 0 -> approved id r who w' | inl _ => True end).
Proof.
  apply adj_sql_ok. intros ch w n d I (r0 & Hr0 & Hle) Hs.
  apply update_adjustment_cases in Hs as [(-> & -> & Hmiss)|(r1 & -> & Hr1 & Hp & Hok & ->)].
  { rewrite set_adj_same. split_and!; [done|reflexivity|done]. }
  assert (r1 = r0) as -> by (unfold adjustment in Hr0; congruence). specialize (Hp eq_refl).
  assert (Hn : pa_approved_by r0 = None) by by apply (ai_row _ _ I id r0).
  assert (Hrow := decide_row_le r0 "approved" who Hp Hn).
  rewrite <- (app_nil_r (decided_events (aw_adj w))).
  destruct (store_row w id r0 (set_decided "approved" who r0) [] I Hr0 Hrow Hok) as [I' Hw];
    [done|done|by intros e ?%not_elem_of_nil|].
  split_and!; [done..|]. intros _. exists (set_decided "approved" who r0). unfold adjustment. simpl.
  rewrite lookup_insert_eq. split_and!; [done|by transitivity r0|]. split; [done|].
  unfold authorised_statuses. left.
Qed.
Lemma MarkAdjustmentFailed_ok id msg pa who :
  op_ok D (AdjSql (MarkAdjustmentFailed id msg)) (approved id pa who)
    (fun res w' => match res with inr _ => True | inl _ => True end).
Proof.
  apply adj_sql_ok. intros ch w n d I (r0 & Hr0 & _ & Ha & Hst) Hs.
  apply update_adjustment_cases in Hs as [(-> & -> & Hmiss)|(r1 & -> & Hr1 & _ & Hok & ->)].
  { rewrite set_adj_same. split_and!; [done|reflexivity|done]. }
  assert (r1 = r0) as -> by (unfold adjustment in Hr0; congruence).
  rewrite <- (app_nil_r (decided_events (aw_adj w))).
  destruct (store_row w id r0 (set_failed msg r0) [] I Hr0) as [I' Hw]; [|done| |done| |done].
  - split; simpl; try done; [intros _; unfold authorised_statuses; set_solver|].
    intros Hj. rewrite Hj in Hst. by destruct (rejected_not_authorised Hst).
  - simpl. by rewrite Ha.
  - by intros e ?%not_elem_of_nil.
Qed.
Lemma record_executed_ok id tx pa who decided :
  ad_PendingID decided = id -> ad_RequestedBy decided = pa_requested_by pa -> ad_ApprovedBy decided = who ->
  ad_Decision decided = "approved" -> ad_ExecutedTxID decided = Some tx ->
  op_ok D (AdjSql (fun ch d => match MarkExecuted id tx ch d with
                               | inl err => inl err | inr (_, d') => inr (tt, add_event decided d') end))
    (fun w => approved id pa who w /\ under (aw_ledger w) (adjustmentIdempotencyKey id) tx)
    (fun res w' => match res with inr _ => True | inl _ => True end).
Proof.
  intros E1 E2 E3 E4 E5. apply adj_sql_ok. intros ch w [] d I [(r0 & Hr0 & Hle & Ha & Hst) Hu] Hs.
  destruct (MarkExecuted id tx ch (aw_adj w)) as [e|[n d1]] eqn:Hm; [done|]. injection Hs as <-.
  unfold adjustment in Hr0.
  apply update_adjustment_cases in Hm as [(-> & -> & Hmiss)|(r1 & -> & Hr1 & _ & Hok & ->)].
  { by rewrite Hmiss in Hr0. }
  assert (r1 = r0) as -> by congruence.
  destruct (store_row w id r0 (set_executed tx r0) [decided] I Hr0) as [I' Hw]; [|done| | | |done].
  - split; simpl; try done; [intros _; unfold authorised_statuses; set_solver|].
    intros Hj. rewrite Hj in Hst. by destruct (rejected_not_authorised Hst).
  - simpl. by rewrite Ha.
  - intros _. by exists tx.
  - intros e [->|?%not_elem_of_nil]%elem_of_cons; [|done]. rewrite <- E1. exists (set_executed tx r0).
    unfold adjustment. simpl. rewrite E1, lookup_insert_eq. split; [done|].
    split; [rewrite E2; symmetry; apply Hle|]. split; [by rewrite E3|]. right. split; [done|].
    split; [|by exists tx]. split; simpl; [by rewrite E3|]. unfold authorised_statuses. set_solver.
Qed.
Lemma record_rejected_ok id pa who decided :
  ad_PendingID decided = id -> ad_RequestedBy decided = pa_requested_by pa -> ad_ApprovedBy decided = who ->
  ad_Decision decided = "rejected" -> ad_ExecutedTxID decided = None ->
  op_ok D (AdjSql (fun ch d => match MarkRejected id who ch d with
                               | inl err => inl err
                               | inr (rows, d') => inr (rows, if rows =? 0 then d' else add_event decided d') end))
    (seen id pa) (fun res w' => match res with inr _ => True | inl _ => True end).
Proof.
  intros E1 E2 E3 E4 E5. apply adj_sql_ok. intros ch w n d I (r0 & Hr0 & Hle) Hs.
  destruct (MarkRejected id who ch (aw_adj w)) as [e|[n1 d1]] eqn:Hm; [done|]. injection Hs as <- <-.
  unfold adjustment in Hr0.
  apply update_adjustment_cases in Hm as [(-> & -> & _)|(r1 & -> & Hr1 & Hp & Hok & ->)].
  { simpl. rewrite set_adj_same. split_and!; [done|reflexivity|done]. }
  assert (r1 = r0) as -> by congruence. specialize (Hp eq_refl).
  assert (Hn : pa_approved_by r0 = None) by by apply (ai_row _ _ I id r0).
  destruct (store_row w id r0 (set_decided "rejected" who r0) [decided] I Hr0) as [I' Hw];
    [by apply decide_row_le|done|done|done| |done].
  intros e [->|?%not_elem_of_nil]%elem_of_cons; [|done]. exists (set_decided "rejected" who r0).
  unfold adjustment. simpl. rewrite E1, lookup_insert_eq. split; [done|].
  split; [rewrite E2; symmetry; apply Hle|]. split; [by rewrite E3|]. left. done.
Qed.

(** ** The executor's calls *)
Notation XD := (pulled (@AdjExec _) D).
Lemma quiet_ok {B} (o : exec_call B) :
  (forall w b w', inner_step B o w b w' -> w' = w) -> op_ok XD o (fun _ => True) (fun _ _ => True).
Proof. intros Ho w b w' I _ H. apply Ho in H as ->. split_and!; [done|reflexivity|done]. Qed.
(** The executor's tables, when decisions are only added. *)
Lemma exec_grows w d :
  inv w -> (forall p, p ∈ policy_decisions (aw_exec w) -> p ∈ policy_decisions d) ->
  inv (set_exec w d) /\ adj_le w (set_exec w d).
Proof.
  intros I Hd. assert (Hw : adj_le w (set_exec w d)).
  { split; [|done|reflexivity]. intros i q Hq. exists q. by split. }
  split; [|done]. destruct I as [I1 I2 I3 I4 I5 I6]. split; try done.
  intros c H%I3. by eapply commanded_le.
Qed.
(** The ledger answers a call; [more] is what was sent to it. *)
Lemma ledger_grows w c res l more :
  let w' := AWorld (aw_adj w) (aw_exec w) l (more ++ aw_sent w) in
  inv w -> post c (aw_ledger w) res l ->
  (forall id, IdempotencyScope c = EmptyString -> IdempotencyKey c = adjustmentIdempotencyKey id -> c ∈ more) ->
  (forall c', c' ∈ more -> commanded x w c') ->
  inv w' /\ adj_le w w'.
Proof.
  intros w' I Hp Hours Hmore. destruct I as [I1 I2 I3 I4 I5 I6].
  assert (Hl := post_ledger_le _ _ _ _ I1 Hp).
  assert (Hw : adj_le w w').
  { split; [|done|done]. intros i q Hq. exists q. by split. }
  split; [|done]. split; try done.
  - by eapply post_lok.
  - intros c' [H|H]%elem_of_app; (eapply commanded_le; [exact Hw|]); [by apply Hmore|by apply I3].
  - intros id tx [Hk Ht]. destruct (post_new _ _ _ _ _ I1 Hp Ht) as [[Hold Hback]|[Hkey _]].
    + destruct (I4 id tx) as (c' & Hc' & ?); [split; [by apply Hback|done]|].
      exists c'. split; [apply elem_of_app; by right|done].
    + assert (Hl' : lok l) by by eapply post_lok.
      destruct (keyed_key _ _ _ _ _ _ Hl' Hk Hkey) as [Ek Es].
      exists c. split; [apply elem_of_app; left; by eapply Hours|done].
  - intros i q Hq Hs. destruct (I5 i q Hq Hs) as (tx & ? & ?). exists tx. split; [done|by eapply under_le].
  - intros e He. eapply event_le_true; [exact Hw|by apply I6].
Qed.
Lemma exec_sql_ok {A} (s : exec_query A) (Q : A -> aworld -> Prop) :
  (forall ch w a d, s ch (aw_exec w) = inr (a, d) ->
     (forall p, p ∈ policy_decisions (aw_exec w) -> p ∈ policy_decisions d) /\ Q a (set_exec w d)) ->
  op_ok XD (ExecSql s) (fun _ => True) (fun res w' => match res with inr a => Q a w' | inl _ => True end).
Proof.
  intros H w res w' I _ [(ch & a & d & Hs & -> & Hr)|[-> [e ->]]].
  - destruct (H ch w a d Hs) as [Hd HQ]. destruct (exec_grows w d I Hd).
    split_and!; [done..|by destruct Hr as [->|[e ->]]].
  - split_and!; [done|reflexivity|done].
Qed.
Lemma adjustments_host : executor_host XD decisions_of.
Proof.
  split; try (intros; apply quiet_ok; done).
  - intros u t w res w' I HT Hs.
    destruct (exec_sql_ok (GetExecutionSubject u t) (fun _ _ => True)) with w res w' as (? & ? & _);
      [|done..|by split_and!].
    intros ch v a d. unfold GetExecutionSubject. destruct (subject_row _ _ _); [|done]. by intros [= <- <-].
  - intros d w res w' I HT Hs.
    destruct (exec_sql_ok (RecordPolicyDecision d) (fun _ v => d ∈ decisions_of v)) with w res w' as (? & ? & HQ);
      [|done..|].
    + intros ch v [] d1. unfold RecordPolicyDecision. destruct (0 <=? _); [|done]. intros [= <-].
      simpl. split; [intros p Hp; apply elem_of_app; by left|].
      unfold decisions_of. simpl. apply elem_of_app. right. by left.
    + split_and!; [done..|]. intros ->. exact HQ.
  - intros w w' d Hw. apply (al_decision _ _ Hw).
Qed.
(** A command that carries out an approved request. *)
Definition carries_out (c : Command) id pa who w : Prop :=
  approved id pa who w /\ exists p amount, pa_cmd_payload pa = Some p /\
    dec_of_string (pl_Amount p) = Some amount /\ c = adjustment_command id p amount who (pa_reason pa).
Lemma carries_out_ordered c id pa who w : carries_out c id pa who w -> exists r, ordered_by w c id r who.
Proof.
  intros [(r & Hr & Hle & Ha) (p & amount & Hp & Hd & ->)]. exists r. split; [done..|].
  exists p, amount. by rewrite (rl_payload _ _ Hle), (rl_reason _ _ Hle).
Qed.
Lemma HandleCommand_ok c id pa who :
  op_ok XD (HandleCommand c) (fun w => carries_out c id pa who w /\ on_record decisions_of x c w)
    (fun res w' => res = None -> exists tx, under (aw_ledger w') (adjustmentIdempotencyKey id) tx).
Proof.
  intros w res w' I [Hc Hrec] (l & Hp & ->).
  assert (Hk : IdempotencyKey c = adjustmentIdempotencyKey id /\ IdempotencyScope c = EmptyString).
  { by destruct Hc as [_ (p & amount & _ & _ & ->)]. }
  destruct Hk as [Hk Hs]. destruct (ledger_grows w c res l [c] I Hp) as [I' Hw].
  - intros i _ _. by left.
  - intros c' [->|?%not_elem_of_nil]%elem_of_cons; [|done]. split; [|done].
    destruct (carries_out_ordered _ _ _ _ _ Hc) as [r Hr]. by exists id, r, who.
  - split_and!; [done..|]. intros ->.
    destruct (post_success _ _ _ (ai_ledger _ _ I) Hp) as (tx & Ht & ?). rewrite Hk, Hs in Ht. by exists tx.
Qed.

(** ** Handlers *)
Lemma lookup_key_ok key :
  op_ok D (GetByIdempotencyKey key) (fun _ => True)
    (fun res w' => match res with inr tx => keyed (aw_ledger w') key EmptyString tx | inl _ => True end).
Proof. intros w res w' I _ [-> H]. split_and!; [done|reflexivity|done]. Qed.
Lemma adj_uuid_ok : op_ok D (AdjExec NewUUID) (fun _ => True) (fun _ _ => True).
Proof. intros w b w' I _ ->. split_and!; [done|reflexivity|done]. Qed.
Lemma adj_clock_ok : op_ok D (AdjExec Clock) (fun _ => True) (fun _ _ => True).
Proof. intros w b w' I _ ->. split_and!; [done|reflexivity|done]. Qed.
Lemma markFailedTx_fine id msg pa who w :
  approved id pa who w -> safe D (markFailedTx id msg) (fun _ _ => True) w.
Proof.
  intros Ha. eapply safe_weaken; [eapply safe_op; [apply MarkAdjustmentFailed_ok|]|done].
  intros w' Hw. by eapply approved_le_.
Qed.
Lemma safe_execute_adjustment id pa who p amount w :
  approved id pa who w -> pa_cmd_payload pa = Some p -> dec_of_string (pl_Amount p) = Some amount ->
  safe D (execute_adjustment x id pa who p amount) (fun _ _ => True) w.
Proof.
  intros Ha Hp Hd. unfold execute_adjustment. set (cmd := adjustment_command _ _ _ _ _).
  apply safe_bind. eapply safe_weaken.
  { apply safe_embed. eapply (safe_Execute XD decisions_of x adjustments_host cmd _
      (carries_out cmd id pa who) (fun w' => exists tx, under (aw_ledger w') (adjustmentIdempotencyKey id) tx)).
    - intros u u' Hu [H1 H2]. split; [by eapply approved_le_|done].
    - intros u u' Hu (tx & Ht). exists tx. eapply under_le; [apply Hu|done].
    - apply HandleCommand_ok.
    - split; [done|]. by exists p, amount. }
  intros [err|[]] w1 L1 Hq.
  { eapply safe_seq; [eapply safe_logged, markFailedTx_fine; by eapply approved_le_|]. done. }
  destruct Hq as (tx0 & Ht0).
  eapply safe_ebind with (Q := fun tx w' => under (aw_ledger w') (adjustmentIdempotencyKey id) tx).
  { apply safe_wrap with (Q := fun tx w' => under (aw_ledger w') (adjustmentIdempotencyKey id) tx).
    intros w2 L2 I2 res w3 Hs. destruct (lookup_key_ok _ w2 res w3 I2 Logic.I Hs) as (I3 & L3 & Hres).
    split_and!; [done..|]. destruct res as [e|tx]; [done|]. simpl.
    assert (Ht3 : under (aw_ledger w3) (adjustmentIdempotencyKey id) tx0).
    { eapply under_le; [|exact Ht0]. transitivity (aw_ledger w2); [apply L2|apply L3]. }
    assert (tx = tx0) as -> by (eapply keyed_unique; [apply I3|exact Hres|apply Ht3]). done. }
  intros tx w2 L2 Ht. apply safe_bind. eapply safe_weaken; [by eapply safe_op; [apply adj_clock_ok|]|].
  intros now w3 L3 _. eapply safe_ebind with (Q := fun _ _ => True); [|done].
  apply safe_wrap with (Q := fun _ _ => True). eapply safe_weaken.
  { eapply safe_op; [by eapply (record_executed_ok id tx pa who)|]. intros w4 L4. split.
    - eapply approved_le_; [|exact Ha]. transitivity w1; [done|]. transitivity w2; [done|]. by transitivity w3.
    - eapply under_le; [|exact Ht]. transitivity (aw_ledger w3); [apply L3|apply L4]. }
  by intros [].
Qed.
Lemma Approve_fine id who : fine (Approve x id who).
Proof.
  intros w. unfold Approve. eapply safe_ebind; [by eapply safe_op; [apply GetAdjustment_ok|]|].
  intros pa w1 L1 Hpa. case_bool_decide; [done|].
  eapply safe_ebind with (Q := fun n w' => n <> 0 -> approved id pa who w').
  { eapply safe_op; [apply (MarkApproved_ok id pa who)|]. intros w2 L2. eapply seen_le; [exact L2|].
    exists pa. split; [done|reflexivity]. }
  intros n w2 L2 Ha. destruct (Z.eqb_spec n 0) as [|Hn]; [done|]. specialize (Ha Hn).
  destruct (pa_cmd_payload pa) as [p|] eqn:Ep.
  - destruct (dec_of_string (pl_Amount p)) as [amount|] eqn:Ed; [by apply safe_execute_adjustment|].
    eapply safe_seq; [by eapply safe_logged, markFailedTx_fine|done].
  - eapply safe_seq; [by eapply safe_logged, markFailedTx_fine|done].
Qed.
Lemma Reject_fine id who : fine (Reject id who).
Proof.
  intros w. unfold Reject. eapply safe_ebind; [by eapply safe_op; [apply GetAdjustment_ok|]|].
  intros pa w1 L1 Hpa. case_bool_decide; [done|].
  apply safe_bind. eapply safe_weaken; [by eapply safe_op; [apply adj_clock_ok|]|].
  intros now w2 L2 _. eapply safe_ebind with (Q := fun _ _ => True).
  { eapply safe_op; [by eapply (record_rejected_ok id pa who)|]. intros w3 L3. eapply seen_le; [exact L3|].
    eapply seen_le; [exact L2|]. exists pa. split; [done|reflexivity]. }
  intros n w3 _ _. by destruct (n =? 0).
Qed.
Lemma Adjustment_Create_fine by_ t amount user ref meta reason :
  fine (Adjustment_Create by_ t amount user ref meta reason).
Proof.
  unfold Adjustment_Create. destruct (adjustment_payload _ _ _ _ _ _ _) as [e|p]; [apply fine_ret|].
  apply fine_seq; [eapply fine_op, adj_uuid_ok|]. intros id.
  apply fine_ebind; [eapply fine_op, CreateAdjustment_ok|intros; apply fine_ret].
Qed.
Lemma adj_entry_fine p : adj_entry x p -> fine p.
Proof.
  destruct 1; apply fine_logged.
  - apply Adjustment_Create_fine.
  - apply Approve_fine.
  - apply Reject_fine.
  - eapply fine_op, GetAdjustment_ok.
  - eapply fine_op, (adj_read_ok _ (fun _ _ => True)). unfold ListAdjustments. by intros ch w a d [= <- <-].
Qed.
Lemma adj_env_ok w w' : inv w -> adj_env w w' -> inv w' /\ adj_le w w'.
Proof.
  intros I [c r l Hk Hp|subjects more].
  - apply (ledger_grows w c r l [] I Hp).
    + intros id Hs E. by destruct (Hk Hs id).
    + by intros c' ?%not_elem_of_nil.
  - apply exec_grows; [done|]. intros p Hp. apply elem_of_app. by left.
Qed.
Lemma adj_reachable_inv w ps : adj_reachable x (w, ps) -> inv w.
Proof.
  intros ([w0 ps0] & (Hr & He & Hl & Hk & Hs & Hps) & Hsteps). simpl in *. subst ps0.
  eapply (reachable_ok adj_discipline (adj_entry x) adj_env adj_entry_fine adj_env_ok); [|exact Hsteps].
  split; unfold adjustment.
  - done.
  - intros id r. by rewrite Hr, lookup_empty.
  - intros c. by rewrite Hs, elem_of_nil.
  - intros id tx [H _]. by destruct (Hk id tx).
  - intros id r. by rewrite Hr, lookup_empty.
  - intros e. by rewrite He, elem_of_nil.
Qed.
End adjustments.
