(* ===== verification/AdjustmentsRun.v ===== *)
(** * No adjustment on one person's word

    What every interleaving of the maker-checker workflow guarantees, the executor
    and the workflow at work on the specification ledger, and runs that show what
    they do when an answer of the ledger is lost or an amount is negative. *)
From Stdlib Require Import String.
From stdpp Require Import prelude gmap strings list relations.
From S2P Require Import Prelude Decimal Errors Currency Processors Scenarios Flow LedgerApi.
From S2P Require Import Executor ExecutorFacts Adjustments AdjustmentsSafe.
Open Scope Z_scope.

Section reachable.
Context `{DEC : !Decimal} `{UT : !UuidText} `{LED : !PostingLedger}.

(** C17: No adjustment on one person's word: in every reachable state of the
    maker-checker workflow, whatever transaction the ledger has posted under the key
    of an adjustment is the only one, its request was approved by somebody other than
    the requester, the command was that request's type, amount, user and reference
    with the approver as authoriser, and the executor had an allowed decision for it
    on record; an executed request names that transaction; and every event of the
    audit trail names who asked, who decided and what came of it. *)
Theorem adjustments_need_two_people (x : Executor) w ps :
  adj_reachable x (w, ps) ->
  (forall id tx, under (aw_ledger w) (adjustmentIdempotencyKey id) tx ->
     exists r who p amount,
       adjustment w id = Some r /\ approved_by_ r who /\ who <> pa_requested_by r /\
       pa_cmd_payload r = Some p /\ dec_of_string (pl_Amount p) = Some amount /\
       adjustment_command id p amount who (pa_reason r) ∈ aw_sent w /\
       on_record decisions_of x (adjustment_command id p amount who (pa_reason r)) w /\
       forall tx', under (aw_ledger w) (adjustmentIdempotencyKey id) tx' -> tx' = tx) /\
  (forall id r, adjustment w id = Some r -> pa_status r = "executed" ->
     exists tx, pa_executed_tx_id r = Some tx /\ under (aw_ledger w) (adjustmentIdempotencyKey id) tx) /\
  (forall e, e ∈ decided_events (aw_adj w) -> event_true w e).
Proof.
  intros I%adj_reachable_inv. split_and!; [|apply I|apply I]. intros id tx Ht.
  destruct (ai_origin _ _ I id tx Ht) as (c & Hc & Hk).
  destruct (ai_sent _ _ I c Hc) as [(i & r & who & [Hr Ha (p & amount & Hp & Hd & ->)]) Hrec].
  assert (i = id) as -> by by apply adjustment_key_inj.
  exists r, who, p, amount. split_and!; try done.
  - intros ->. apply (ai_row _ _ I) in Hr as [Hok _]. destruct Ha as [Ha _].
    unfold adjustment_row_ok in Hok. rewrite Ha in Hok. rewrite (bool_decide_true (Some _ = Some _)) in Hok by done.
    by rewrite andb_false_r in Hok.
  - intros tx' Ht'. eapply keyed_unique; [apply I|apply Ht'|apply Ht].
Qed.
End reachable.

(** ** Running on the specification ledger *)
#[local] Existing Instance QDecimal.decimal.
#[local] Existing Instance NumUuid.uuid_text.
Definition run_choice : db_choice := DbChoice 1000 0 ∅ 0 false.
Definition run_id (w : aworld) : uuid :=
  N.of_nat (1 + size (pending_adjustments (aw_adj w)) + 10 * length (policy_decisions (aw_exec w))).
(** A call that fails does nothing, except that the ledger posts and its answer is lost. *)
Definition lost_answer : error := Plain "connection lost".
Definition respond_exec B (fails : bool) (o : exec_call B) : aworld -> B * aworld :=
  match o with
  | ExecSql s => fun w =>
      if fails then (inl lost_answer, w)
      else match s run_choice (aw_exec w) with
           | inl e => (inl e, w) | inr (a, d) => (inr a, set_exec w d) end
  | NewUUID => fun w => (run_id w, w)
  | Clock => fun w => (1000, w)
  | CheckPolicy _ _ _ _ => fun w => (inr (true, EmptyString, EmptyString), w)
  | RecordUsage _ _ _ _ => fun w => (tt, w)
  | HandleCommand c => fun w =>
      let '(r, l) := spec_post c (aw_ledger w) in
      (if fails then Some lost_answer else r, sent_to (LED := SpecLedger) c l w)
  end.
Definition respond B (fails : bool) (o : adj_call B) : aworld (LED := SpecLedger) -> B * aworld :=
  match o with
  | AdjSql s => fun w =>
      if fails then (inl lost_answer, w)
      else match s run_choice (aw_adj w) with
           | inl e => (inl e, w) | inr (a, d) => (inr a, set_adj w d) end
  | AdjExec o => respond_exec _ fails o
  | GetByIdempotencyKey key => fun w =>
      (match sl_keys (aw_ledger w) !! (key, EmptyString) with Some tx => inr tx | None => inl ErrNoRows end, w)
  end.
Lemma respond_exec_step B fails (o : exec_call B) w :
  inner_step B o w (respond_exec B fails o w).1 (respond_exec B fails o w).2.
Proof.
  destruct o; simpl; try done.
  - destruct fails; [right; by eauto|].
    destruct (s run_choice (aw_exec w)) as [e|[a d]] eqn:E; [right; by eauto|].
    left. exists run_choice, a, d. simpl. auto.
  - destruct (spec_post c (aw_ledger w)) as [r l] eqn:E. exists l. split; [|done]. left. rewrite E.
    split; [done|]. destruct fails; [by right; eexists|by left].
Qed.
Lemma adj_respond_step B fails (o : adj_call B) w :
  adj_step B o w (respond B fails o w).1 (respond B fails o w).2.
Proof.
  destruct o; simpl.
  - destruct fails; [right; by eauto|].
    destruct (s run_choice (aw_adj w)) as [e|[a d]] eqn:E; [right; by eauto|].
    left. exists run_choice, a, d. simpl. auto.
  - apply respond_exec_step.
  - split; [done|]. by destruct (sl_keys _ !! _) eqn:E.
Qed.

Definition demo_executor : Executor := MkExecutor true true (Some (MkAuthorizer true 0)) true.
Definition demo_subject : ExecutionSubject := MkSubject "active" 1 None "active".
Definition adj_start : aworld (LED := SpecLedger) :=
  AWorld (LED := SpecLedger) (AdjDb ∅ []) (ExecDb {[(1%N, None) := demo_subject]} []) (SpecState ∅ ∅ 100%N) [].
Definition request : Flow.prog adj_call unit :=
  logged (Adjustment_Create "alice" "adjustment_credit" (dec_of_Z 500) 1%N 0%N ∅ "refund of a fee").
Definition approval (who : string) : Flow.prog adj_call unit := logged (Approve demo_executor 1%N who).
Definition adj_run (ps : list (Flow.prog adj_call unit * list bool)) : aworld (LED := SpecLedger) :=
  exec_all respond ps adj_start.
Lemma adj_run_reachable ps :
  Forall (fun pf => adj_entry demo_executor pf.1) ps -> adj_reachable demo_executor (adj_run ps, []).
Proof.
  intros He. exists (adj_start, []). split.
  - repeat split; done.
  - apply exec_all_steps; [intros; apply adj_respond_step|done].
Qed.
Definition statuses (w : aworld (LED := SpecLedger)) : list (string * option string * option uuid) :=
  (fun r => (pa_status r.2, pa_approved_by r.2, pa_executed_tx_id r.2)) <$>
    map_to_list (pending_adjustments (aw_adj w)).

(** The requester cannot approve; somebody else can, once. *)
Definition approved_run : aworld (LED := SpecLedger) :=
  adj_run [(request, []); (approval "alice", []); (approval "bob", []); (approval "carol", [])].
Example approved_run_ends :
  statuses approved_run = [("executed", Some "bob", Some 100%N)] /\
  (pd_Allowed <$> policy_decisions (aw_exec approved_run)) = [true].
Proof. split; vm_compute; reflexivity. Qed.

Lemma adjustments_need_two_people_witness :
  under (LED := SpecLedger) (aw_ledger approved_run) (adjustmentIdempotencyKey 1%N) 100%N /\
  exists r who, adjustment approved_run 1%N = Some r /\ approved_by_ r who /\ who <> pa_requested_by r.
Proof.
  assert (Ht : under (LED := SpecLedger) (aw_ledger approved_run) (adjustmentIdempotencyKey 1%N) 100%N).
  { split; [vm_compute; reflexivity|]. exists (adjustmentIdempotencyKey 1%N, EmptyString). vm_compute. reflexivity. }
  split; [exact Ht|].
  assert (Hr : adj_reachable demo_executor (approved_run, [])) by (apply adj_run_reachable; repeat constructor).
  destruct (proj1 (adjustments_need_two_people demo_executor approved_run [] Hr) 1%N 100%N Ht)
    as (r & who & p & amount & H1 & H2 & H3 & _).
  exists r, who. split; [exact H1|]. split; [exact H2|exact H3].
Defined.

(** ** The ledger's answer is lost
    The row ends as failed, which the repository's comment reads as "Post() itself
    errors", and asks for a new request: the money has moved, and the new request
    moves it again. *)
Definition second_approval : Flow.prog adj_call unit := logged (Approve demo_executor 12%N "bob").
Definition lost_run : aworld (LED := SpecLedger) :=
  adj_run [(request, []); (approval "bob", replicate 7 false ++ [true]); (request, []); (second_approval, [])].
Lemma a_failed_adjustment_has_moved_money :
  adj_reachable demo_executor (lost_run, []) /\
  statuses lost_run = [("executed", Some "bob", Some 101%N); ("failed", Some "bob", None)] /\
  under (LED := SpecLedger) (aw_ledger lost_run) (adjustmentIdempotencyKey 1%N) 100%N.
Proof.
  split; [apply adj_run_reachable; repeat constructor|]. split; [vm_compute; reflexivity|].
  split; [vm_compute; reflexivity|]. exists (adjustmentIdempotencyKey 1%N, EmptyString). vm_compute. reflexivity.
Qed.

(** ** The executor alone *)
Definition answer_exec B (fails : bool) (o : exec_call B) : xworld (LED := SpecLedger) -> B * xworld :=
  match o with
  | ExecSql s => fun w =>
      match s run_choice (xw_db w) with
      | inl e => (inl e, w) | inr (a, d) => (inr a, set_xdb w d) end
  | NewUUID => fun w => (1%N, w)
  | Clock => fun w => (1000, w)
  | CheckPolicy _ _ _ _ => fun w => (inr (true, EmptyString, EmptyString), w)
  | RecordUsage _ _ _ _ => fun w => (tt, w)
  | HandleCommand c => fun w =>
      let '(r, l) := spec_post c (xw_ledger w) in
      (r, XWorld (LED := SpecLedger) (xw_db w) l (c :: xw_handed w))
  end.
Lemma answer_exec_step B fails (o : exec_call B) w :
  exec_step B o w (answer_exec B fails o w).1 (answer_exec B fails o w).2.
Proof.
  destruct o; simpl; try done.
  - destruct (s run_choice (xw_db w)) as [e|[a d]] eqn:E; [right; by eauto|].
    left. exists run_choice, a, d. simpl. auto.
  - destruct (spec_post c (xw_ledger w)) as [r l] eqn:E. exists l. split; [|done]. left. rewrite E.
    split; [done|by left].
Qed.
Definition exec_start : xworld (LED := SpecLedger) :=
  XWorld (LED := SpecLedger) (ExecDb {[(1%N, None) := demo_subject]} []) (SpecState ∅ ∅ 100%N) [].
Definition from_app : ExecutionContext := MkContext 1%N 0%N "mobile" "corr" 1000 "app" EmptyString.
Definition exec_run (c : Command) : (error + unit) * xworld (LED := SpecLedger) :=
  exec answer_exec (Execute demo_executor c from_app) [] exec_start.
Lemma executor_gates_every_command_witness :
  xw_handed (exec_run (p2p "k1" 300)).2 = [p2p "k1" 300] /\
  exists d a s now, decides (p2p "k1" 300) true d /\ policy_decisions (xw_db (exec_run (p2p "k1" 300)).2) = [d] /\
    x_authorizer demo_executor = Some a /\ subject_row (xw_db exec_start) 1%N 0%N = Some s /\ may_move a s now.
Proof.
  assert (Hh : xw_handed (exec_run (p2p "k1" 300)).2 = [p2p "k1" 300]) by (vm_cast_no_check (eq_refl [p2p "k1" 300])).
  split; [exact Hh|].
  destruct (executor_gates_every_command (LED := SpecLedger) demo_executor (p2p "k1" 300) from_app exec_start
              (exec_run (p2p "k1" 300)).1 (exec_run (p2p "k1" 300)).2
              (exec_runs exec_step answer_exec answer_exec_step _ [] exec_start))
    as [[_ Hs _ _]|[(_ & Ha & _)|(posted & _ & _ & _ & _ & Hg & Hd)]].
  - rewrite Hh in Hs. discriminate Hs.
  - discriminate Ha.
  - destruct (Hg eq_refl) as [Ha [Hn|(a & s & now & Hx & Hs & Hm & _)]]; [discriminate Hn|].
    destruct (Hd Ha) as (d & Hdec & Hp). exists d, a, s, now.
    exact (conj Hdec (conj Hp (conj Hx (conj Hs Hm)))).
Defined.
(** A negative amount: the denied decision violates the table's check, so the caller
    sees a failure of the audit instead of the rejection, and no denial is recorded. *)
Lemma negative_amount_is_reported_as_an_audit_failure :
  (exec_run (p2p "k1" (-5))).1 =
    inl (Wrap "money-movement policy audit" (PgError "23514" "violates check constraint")) /\
  policy_decisions (xw_db (exec_run (p2p "k1" (-5))).2) = [].
Proof. split; vm_compute; reflexivity. Qed.
