(* ===== verification/Workflow.v ===== *)
(** * Workflows over the ledger

    The services inside the ledger that keep rows of their own and post commands
    through the executor have one shape: statements on their tables, calls of the
    command executor, and the lookup of a transaction by its key.  What such a
    workflow promises about its rows is the class [Workflow]; this file shows once
    that every interleaving of its handlers, with crashes, lost answers and other
    users of the ledger, keeps it, and what it says of the ledger's transactions. *)
From Stdlib Require Import Ascii String.
From stdpp Require Import prelude gmap strings list relations.
From S2P Require Import Prelude Decimal Errors Currency Events Money MoneyFacts Processors Flow LedgerApi Executor ExecutorFacts.
Open Scope Z_scope.

Notation "'let~' x := e 'in' k" := (match e with inl err => inl err | inr x => k end)
  (at level 200, x pattern, e at level 100, k at level 200, right associativity).
(** What PostgreSQL answers a row its table refuses. *)
Definition pg_check : error := PgError "23514" "violates check constraint".
Definition pg_unique : error := PgError "23505" "duplicate key value".
Definition pg_foreign : error := PgError "23503" "violates foreign key constraint".
Definition pg_range : error := PgError "22003" "value out of range".
Definition pg_raise (msg : string) : error := PgError "P0001" msg.
Definition wrap_query {A} (ctx : string) (r : error + A) : error + A :=
  match r with inl err => inl (Wrap ctx err) | inr a => inr a end.

(** ** Keys end in a part without a colon *)
Definition no_colon (c : Ascii.ascii) : bool := negb (Ascii.eqb c ":").
Lemma digit_no_colon c : is_digit c = true -> no_colon c = true.
Proof. by destruct c as [[] [] [] [] [] [] [] []]. Qed.
Lemma last_colon_inj a b s t : forall_chars no_colon s = true -> forall_chars no_colon t = true ->
  a +:+ (":" +:+ s) = b +:+ (":" +:+ t) -> a = b /\ s = t.
Proof.
  intros Hs Ht. revert b. induction a as [|c a IH]; intros [|c' b] H.
  - by apply (inj (String.append ":")) in H as ->.
  - injection H as _ H. change (s = b +:+ (":" +:+ t)) in H. exfalso.
    rewrite H, forall_chars_app in Hs. by apply andb_true_iff in Hs as [_ Hs].
  - injection H as _ H. change (a +:+ (":" +:+ s) = t) in H. exfalso.
    rewrite <- H, forall_chars_app in Ht. by apply andb_true_iff in Ht as [_ Ht].
  - injection H as -> H. by destruct (IH b H) as [-> ->].
Qed.
Lemma number_no_colon n : 0 <= n -> forall_chars no_colon (Z_text n) = true.
Proof. intros H. eapply forall_chars_mono; [exact digit_no_colon|by apply Z_text_digits]. Qed.

(** ** Calls *)
Section calls.
Context `{DEC : !Decimal} `{UT : !UuidText} {DB : Type}.
Definition wf_query (A : Type) : Type := db_choice -> DB -> error + (A * DB).
Inductive wf_call : Type -> Type :=
  | WfSql {A} (q : wf_query A) : wf_call (error + A)
  | WfExec {A} (o : exec_call A) : wf_call A
  | WfLookup (key scope : string) : wf_call (error + uuid).
Definition wf_read {A} (f : DB -> A) : wf_query A := fun _ d => inr (f d, d).
Definition wf_now : Flow.prog wf_call Z := perform (WfExec Clock).
Definition wf_new : Flow.prog wf_call uuid := perform (WfExec NewUUID).
Definition wf_execute (x : Executor) (c : Command) (exec : ExecutionContext) : Flow.prog wf_call (error + unit) :=
  embed (@WfExec) (Execute x c exec).
End calls.
Arguments wf_call {DEC} DB _.
Arguments wf_query DB A : clear implicits.

(** ** The world *)
Section world.
Context `{DEC : !Decimal} `{LED : !PostingLedger} {DB : Type}.
Record wf_world := WfWorld {
  ww_db : DB;
  ww_exec : exec_db;
  ww_ledger : lstate;
  ww_sent : list Command;       (* commands given to the posting service *)
}.
Definition set_wdb (w : wf_world) d := WfWorld d (ww_exec w) (ww_ledger w) (ww_sent w).
Definition set_wexec (w : wf_world) d := WfWorld (ww_db w) d (ww_ledger w) (ww_sent w).
Definition set_wledger (w : wf_world) l := WfWorld (ww_db w) (ww_exec w) l (ww_sent w).
Definition wf_exec_step B (o : exec_call B) : wf_world -> B -> wf_world -> Prop :=
  match o with
  | ExecSql q => fun w r w' =>
      (exists ch a d, q ch (ww_exec w) = inr (a, d) /\ w' = set_wexec w d /\ (r = inr a \/ exists e, r = inl e)) \/
      (w' = w /\ exists e, r = inl e)
  | NewUUID | Clock | CheckPolicy _ _ _ _ | RecordUsage _ _ _ _ => fun w _ w' => w' = w
  | HandleCommand c => fun w r w' => exists l, post c (ww_ledger w) r l /\
      w' = WfWorld (ww_db w) (ww_exec w) l (c :: ww_sent w)
  end.
Definition wf_step B (o : wf_call DB B) : wf_world -> B -> wf_world -> Prop :=
  match o with
  | WfSql q => fun w r w' =>
      (exists ch a d, q ch (ww_db w) = inr (a, d) /\ w' = set_wdb w d /\ (r = inr a \/ exists e, r = inl e)) \/
      (w' = w /\ exists e, r = inl e)
  | WfExec o => fun w r w' => wf_exec_step _ o w r w'
  | WfLookup key scope => fun w r w' => w' = w /\
      match r with inr tx => keyed (ww_ledger w) key scope tx | inl _ => True end
  end.
Definition wf_decisions (w : wf_world) := policy_decisions (ww_exec w).
Definition under_key (l : lstate) (k sc : string) (tx : uuid) : Prop := keyed l k sc tx /\ is_posted l tx.
Definition wf_linked (l : lstate) (k sc : string) (tx : option uuid) : Prop := exists t, tx = Some t /\ keyed l k sc t.
Lemma wf_linked_le l l' k sc tx : ledger_le l l' -> wf_linked l k sc tx -> wf_linked l' k sc tx.
Proof. intros L (t & ? & ?). exists t. split; [done|by apply (ll_keyed _ _ L)]. Qed.
End world.
Arguments wf_world {DEC LED} DB.

(** ** What a workflow promises of its rows *)
Class Workflow `{DEC : !Decimal} `{LED : !PostingLedger} (DB : Type) := {
  rows_ok : DB -> lstate -> Prop;               (* the invariant of the tables *)
  rows_le : DB -> DB -> Prop;                   (* how they evolve *)
  grounds : DB -> Command -> Prop;              (* what a command may be sent for *)
  mine : string -> string -> Prop;              (* the idempotency keys of the workflow *)
  rows_le_preorder :: PreOrder rows_le;
  rows_ok_ledger d l l' : ledger_le l l' -> rows_ok d l -> rows_ok d l';
  grounds_le d d' c : rows_le d d' -> grounds d c -> grounds d' c;
}.

Section workflow.
Context `{DEC : !Decimal} `{UT : !UuidText} `{LED : !PostingLedger} {DB : Type} `{WF : !Workflow DB} (x : Executor).
Implicit Types (w : wf_world DB).
Record wf_inv w : Prop := {
  wi_ledger : lok (ww_ledger w);
  wi_rows : rows_ok (ww_db w) (ww_ledger w);
  wi_sent c : c ∈ ww_sent w -> grounds (ww_db w) c;
  wi_origin k sc tx : mine k sc -> under_key (ww_ledger w) k sc tx ->
    exists c, c ∈ ww_sent w /\ IdempotencyKey c = k /\ IdempotencyScope c = sc;
}.
Record wf_le w w' : Prop := {
  wl_rows : rows_le (ww_db w) (ww_db w');
  wl_decision d : d ∈ wf_decisions w -> d ∈ wf_decisions w';
  wl_ledger : ledger_le (ww_ledger w) (ww_ledger w');
}.
#[export] Instance wf_le_preorder : PreOrder wf_le.
Proof.
  split; [intros w; by split|]. intros w1 w2 w3 [A1 B1 C1] [A2 B2 C2].
  split; [by transitivity (ww_db w2)|auto|by transitivity (ww_ledger w2)].
Qed.
Definition wf_discipline : discipline (wf_call DB) (wf_world DB) := {|
  d_step := wf_step; d_inv := wf_inv; d_le := wf_le; d_preorder := wf_le_preorder |}.
Notation D := wf_discipline.
Notation inv := wf_inv.
Notation fine := (fine D).
Notation XD := (pulled (@WfExec _ DB) D).

(** *** The executor's calls *)
Lemma wquiet_ok {B} (o : exec_call B) :
  (forall w b w', wf_exec_step B o w b w' -> w' = w) -> op_ok XD o (fun _ => True) (fun _ _ => True).
Proof. intros Ho w b w' I _ H. apply Ho in H as ->. split_and!; [done|reflexivity|done]. Qed.
Lemma wexec_grows w d :
  inv w -> (forall p, p ∈ policy_decisions (ww_exec w) -> p ∈ policy_decisions d) ->
  inv (set_wexec w d) /\ wf_le w (set_wexec w d).
Proof. intros I Hd. split; [split; apply I|split; [reflexivity|exact Hd|reflexivity]]. Qed.
Lemma wledger_grows w c res l more :
  let w' := WfWorld (ww_db w) (ww_exec w) l (more ++ ww_sent w) in
  inv w -> post c (ww_ledger w) res l ->
  (mine (IdempotencyKey c) (IdempotencyScope c) -> c ∈ more) ->
  (forall c', c' ∈ more -> grounds (ww_db w) c') -> inv w' /\ wf_le w w'.
Proof.
  intros w' I Hp Hours Hmore. assert (I1 := wi_ledger _ I). assert (Hl := post_ledger_le _ _ _ _ I1 Hp).
  split; [|split; [reflexivity|done|exact Hl]]. split; simpl.
  - by eapply post_lok.
  - eapply rows_ok_ledger; [exact Hl|apply I].
  - intros c' [H|H]%elem_of_app; [by apply Hmore|by apply (wi_sent _ I)].
  - intros k sc tx Hk [Ht Hposted]. destruct (post_new _ _ _ _ _ I1 Hp Hposted) as [[Hold Hback]|[Hkey _]].
    + destruct (wi_origin _ I k sc tx Hk) as (c' & Hc' & ?); [split; [by apply Hback|done]|].
      exists c'. split; [apply elem_of_app; by right|done].
    + assert (Hl' : lok l) by by eapply post_lok.
      destruct (keyed_key _ _ _ _ _ _ Hl' Ht Hkey) as [Ek Es]. subst k sc.
      exists c. split; [apply elem_of_app; left; by apply Hours|done].
Qed.
Lemma wexec_sql_ok {A} (q : exec_query A) (Q : A -> wf_world DB -> Prop) :
  (forall ch w a d, q ch (ww_exec w) = inr (a, d) ->
     (forall p, p ∈ policy_decisions (ww_exec w) -> p ∈ policy_decisions d) /\ Q a (set_wexec w d)) ->
  op_ok XD (ExecSql q) (fun _ => True) (fun res w' => match res with inr a => Q a w' | inl _ => True end).
Proof.
  intros H w res w' I _ [(ch & a & d & Hs & -> & Hr)|[-> [e ->]]].
  - destruct (H ch w a d Hs) as [Hd HQ]. destruct (wexec_grows w d I Hd).
    split_and!; [done..|by destruct Hr as [->|[e ->]]].
  - split_and!; [done|reflexivity|done].
Qed.
Lemma wf_host : executor_host XD wf_decisions.
Proof.
  split; try (intros; apply wquiet_ok; done).
  - intros u t w res w' I HT Hs.
    destruct (wexec_sql_ok (GetExecutionSubject u t) (fun _ _ => True)) with w res w' as (? & ? & _);
      [|done..|by split_and!].
    intros ch v a d. unfold GetExecutionSubject. destruct (subject_row _ _ _); [|done]. by intros [= <- <-].
  - intros d w res w' I HT Hs.
    destruct (wexec_sql_ok (RecordPolicyDecision d) (fun _ v => d ∈ wf_decisions v)) with w res w' as (? & ? & HQ);
      [|done..|].
    + intros ch v [] d1. unfold RecordPolicyDecision. destruct (0 <=? _); [|done]. intros [= <-].
      simpl. split; [intros p Hp; apply elem_of_app; by left|].
      unfold wf_decisions. simpl. apply elem_of_app. right. by left.
    + split_and!; [done..|]. intros ->. exact HQ.
  - intros w w' d Hw. apply (wl_decision _ _ Hw).
Qed.
Lemma wHandle_ok c (P : wf_world DB -> Prop) (Q : wf_world DB -> Prop) :
  (forall w, P w -> grounds (ww_db w) c) ->
  (forall w tx, under_key (ww_ledger w) (IdempotencyKey c) (IdempotencyScope c) tx -> Q w) ->
  op_ok XD (HandleCommand c) (fun w => P w /\ on_record wf_decisions x c w) (fun res w' => res = None -> Q w').
Proof.
  intros HP HQ w res w' I [Hc Hrec] (l & Hp & ->). destruct (wledger_grows w c res l [c] I Hp) as [I' Hw].
  - intros _. by left.
  - intros c' [->|?%not_elem_of_nil]%elem_of_cons; [by apply HP|done].
  - split_and!; [done..|]. intros ->. destruct (post_success _ _ _ (wi_ledger _ I) Hp) as (tx & Hk & Ht). by apply (HQ _ tx).
Qed.
(** A command the workflow has grounds for may be executed; an answer without an
    error says it is posted. *)
Lemma safe_execute c exec w : grounds (ww_db w) c ->
  safe D (wf_execute x c exec) (fun r w' => r = inr tt ->
    exists tx, under_key (ww_ledger w') (IdempotencyKey c) (IdempotencyScope c) tx) w.
Proof.
  intros Hc. apply safe_embed. eapply safe_weaken.
  { apply (safe_Execute XD wf_decisions x wf_host c exec (fun w => grounds (ww_db w) c)
             (fun w => exists tx, under_key (ww_ledger w) (IdempotencyKey c) (IdempotencyScope c) tx)).
    - intros u u' L. by apply grounds_le, (wl_rows _ _ L).
    - intros u u' L (tx & Hk & Ht). exists tx. split; [by apply (ll_keyed _ _ (wl_ledger _ _ L))|by apply (ll_posted _ _ (wl_ledger _ _ L))].
    - apply wHandle_ok; [done|]. intros u tx H. by exists tx.
    - exact Hc. }
  intros [e|[]] w' _ H; [done|]. intros _. exact H.
Qed.

(** *** The workflow's own calls *)
Lemma wf_now_fine : fine wf_now.
Proof. apply (fine_op D _ (fun _ _ => True)). intros w b w' I _ ->. split_and!; [done|reflexivity|done]. Qed.
Lemma wf_new_fine : fine wf_new.
Proof. apply (fine_op D _ (fun _ _ => True)). intros w b w' I _ ->. split_and!; [done|reflexivity|done]. Qed.
Lemma safe_wf_lookup key scope w : safe D (perform (WfLookup key scope))
  (fun r w' => match r with inr tx => keyed (ww_ledger w') key scope tx | inl _ => True end) w.
Proof. intros w1 L1 I1 r w2 [-> Hr]. split_and!; [done|reflexivity|]. exact Hr. Qed.
(** A statement, from what it needs to what it leaves. *)
Lemma wsql_ok {A} (q : wf_query DB A) (Pre : wf_world DB -> Prop) (Q : A -> wf_world DB -> Prop) :
  (forall ch w a d, inv w -> Pre w -> q ch (ww_db w) = inr (a, d) ->
     rows_ok d (ww_ledger w) /\ rows_le (ww_db w) d /\ Q a (set_wdb w d)) ->
  op_ok D (WfSql q) Pre (fun r w' => match r with inr a => Q a w' | inl _ => True end).
Proof.
  intros H w r w' I HP [(ch & a & d & Hs & -> & Hr)|[-> [e ->]]].
  - destruct (H ch w a d I HP Hs) as (Hok & Hle & HQ). split; [|split].
    + split; [apply I|done| |apply I]. intros c Hc. eapply grounds_le; [exact Hle|by apply (wi_sent _ I)].
    + split; [done|done|reflexivity].
    + by destruct Hr as [->|[e ->]].
  - split_and!; [done|reflexivity|done].
Qed.
Lemma fine_wwrite {A} (q : wf_query DB A) :
  (forall ch w a d, inv w -> q ch (ww_db w) = inr (a, d) -> rows_ok d (ww_ledger w) /\ rows_le (ww_db w) d) ->
  fine (perform (WfSql q)).
Proof.
  intros H. eapply fine_op, (wsql_ok q _ (fun _ _ => True)). intros ch w a d I _ Hs.
  destruct (H ch w a d I Hs). by split_and!.
Qed.
Lemma wread_ok {A} (f : DB -> A) (Q : A -> wf_world DB -> Prop) : (forall w, inv w -> Q (f (ww_db w)) w) ->
  op_ok D (WfSql (wf_read f)) (fun _ => True) (fun r w' => match r with inr a => Q a w' | inl _ => True end).
Proof.
  intros H. apply wsql_ok. intros ch w a d I _ [= <- <-]. split_and!; [apply I|reflexivity|].
  destruct w. by apply H.
Qed.
Lemma fine_wread {A} (f : DB -> A) : fine (perform (WfSql (wf_read f))).
Proof. eapply fine_op, (wread_ok f (fun _ _ => True)). done. Qed.

(** *** Every reachable state *)
Context (entry : Flow.prog (wf_call DB) unit -> Prop) (outside : DB -> DB -> Prop).
Inductive wf_env w : wf_world DB -> Prop :=
  | we_ledger c r l :
      ~ mine (IdempotencyKey c) (IdempotencyScope c) -> post c (ww_ledger w) r l -> wf_env w (set_wledger w l)
  | we_outside d : outside (ww_db w) d -> wf_env w (set_wdb w d)
  | we_exec subjects more :
      wf_env w (set_wexec w (ExecDb subjects (policy_decisions (ww_exec w) ++ more))).
Definition wf_initial (start : DB -> Prop) (c : wf_world DB * list (Flow.prog (wf_call DB) unit)) : Prop :=
  start (ww_db c.1) /\ lok (ww_ledger c.1) /\ (forall k sc tx, mine k sc -> ~ keyed (ww_ledger c.1) k sc tx) /\
  ww_sent c.1 = [] /\ c.2 = [].
Definition wf_reachable (start : DB -> Prop) c : Prop :=
  exists c0, wf_initial start c0 /\ rtc (sys_step wf_step entry wf_env) c0 c.
Context (start : DB -> Prop) (Hstart : forall d l, start d -> rows_ok d l).
Context (Hentry : forall p, entry p -> fine p).
Context (Houtside : forall d d' l, rows_ok d l -> outside d d' -> rows_ok d' l /\ rows_le d d').
Lemma wf_env_ok w w' : inv w -> wf_env w w' -> inv w' /\ wf_le w w'.
Proof.
  intros I [c r l Hk Hp|d Hd|subjects more].
  - apply (wledger_grows w c r l [] I Hp).
    + intros H. exfalso. exact (Hk H).
    + intros c' H. exfalso. exact (not_elem_of_nil _ H).
  - destruct (Houtside _ _ _ (wi_rows _ I) Hd) as [Hok Hle]. split; [split; [apply I|done| |apply I]|by split].
    intros c Hc. eapply grounds_le; [exact Hle|by apply (wi_sent _ I)].
  - apply wexec_grows; [done|]. intros p Hp. apply elem_of_app. by left.
Qed.
Lemma wf_reachable_ok c : wf_reachable start c -> system_ok D c.
Proof.
  intros ([w0 ps0] & (Hd & Hl & Hk & Hs & Hps) & Hsteps). simpl in *. subst ps0.
  eapply (steps_ok D entry wf_env Hentry wf_env_ok); [|exact Hsteps]. apply system_start. split.
  - done.
  - by apply Hstart.
  - intros c'. by rewrite Hs, elem_of_nil.
  - intros k sc tx H [H' _]. by destruct (Hk k sc tx H).
Qed.
Lemma wf_reachable_inv w ps : wf_reachable start (w, ps) -> inv w.
Proof. intros H. apply (wf_reachable_ok (w, ps) H). Qed.
Lemma wf_steps_le c c' : wf_reachable start c -> rtc (sys_step wf_step entry wf_env) c c' -> wf_le c.1 c'.1.
Proof.
  intros Hr Hs. eapply (steps_ok D entry wf_env Hentry wf_env_ok); [|exact Hs]. by apply wf_reachable_ok.
Qed.
(** Whatever is posted under a key of the workflow is the one transaction there, and
    was commanded on grounds. *)
Lemma wf_origin w ps k sc tx : wf_reachable start (w, ps) -> mine k sc -> under_key (ww_ledger w) k sc tx ->
  (forall tx', under_key (ww_ledger w) k sc tx' -> tx' = tx) /\
  exists c, c ∈ ww_sent w /\ IdempotencyKey c = k /\ IdempotencyScope c = sc /\ grounds (ww_db w) c.
Proof.
  intros I%wf_reachable_inv Hk Ht. split.
  - intros tx' [Ht' _]. destruct Ht. eapply keyed_unique; [apply I|done..].
  - destruct (wi_origin _ I k sc tx Hk Ht) as (c & Hc & E1 & E2). exists c. split_and!; [done..|by apply (wi_sent _ I)].
Qed.
End workflow.

(** ** Handlers that read nothing they rely on
    A tree of calls each of which keeps the invariant. *)
Lemma fine_ok `{Workflow DB} : fine (wf_discipline (DB := DB)) ok.
Proof. apply fine_ret. Qed.
Create HintDb workflow.
#[export] Hint Resolve fine_ret fine_ok wf_now_fine wf_new_fine fine_wread : workflow.
Ltac walk := repeat first
  [ solve [eauto 3 with workflow]
  | apply fine_ebind; [|intros ?]
  | apply fine_seq; [|intros ?]
  | apply fine_logged
  | apply fine_wrap
  | match goal with |- context [match ?b with _ => _ end] => destruct b end ].
Ltac by_fine := match goal with |- safe _ ?p _ ?w => apply (fun H : fine _ p => H w) end; walk.

(** ** Running a workflow on the specification ledger
    A failing statement has no effect; a failing post has, and its answer is lost. *)
Section respond.
Context `{DEC : !Decimal} `{UT : !UuidText} {DB : Type}.
Notation world := (wf_world (LED := SpecLedger) DB).
Context (now : Z) (fresh : world -> uuid).
Definition wf_choice : db_choice := DbChoice now 0 ∅ 0 false.
Definition wf_lost : error := Plain "connection lost".
Definition wf_respond_exec B (fails : bool) (o : exec_call B) : world -> B * world :=
  match o with
  | ExecSql q => fun w =>
      if fails then (inl wf_lost, w)
      else match q wf_choice (ww_exec w) with
           | inl e => (inl e, w) | inr (a, d) => (inr a, set_wexec w d) end
  | NewUUID => fun w => (fresh w, w)
  | Clock => fun w => (now, w)
  | CheckPolicy _ _ _ _ => fun w => (inr (true, EmptyString, EmptyString), w)
  | RecordUsage _ _ _ _ => fun w => (tt, w)
  | HandleCommand c => fun w =>
      let '(r, l) := spec_post c (ww_ledger w) in
      (if fails then Some wf_lost else r, WfWorld (LED := SpecLedger) (ww_db w) (ww_exec w) l (c :: ww_sent w))
  end.
Definition wf_respond B (fails : bool) (o : wf_call DB B) : world -> B * world :=
  match o with
  | WfSql q => fun w =>
      if fails then (inl wf_lost, w)
      else match q wf_choice (ww_db w) with
           | inl e => (inl e, w) | inr (a, d) => (inr a, set_wdb w d) end
  | WfExec o => wf_respond_exec _ fails o
  | WfLookup key scope => fun w =>
      (match sl_keys (ww_ledger w) !! (key, scope) with Some tx => inr tx | None => inl ErrNoRows end, w)
  end.
Lemma wf_respond_step B fails (o : wf_call DB B) w :
  wf_step B o w (wf_respond B fails o w).1 (wf_respond B fails o w).2.
Proof.
  destruct o as [A q|A o|key scope]; simpl.
  - destruct fails; [right; by eauto|].
    destruct (q wf_choice (ww_db w)) as [e|[a d]] eqn:E; [right; by eauto|].
    left. exists wf_choice, a, d. simpl. auto.
  - destruct o; simpl; try done.
    + destruct fails; [right; by eauto|].
      destruct (s _ (ww_exec w)) as [e|[a d]] eqn:E; [right; by eauto|]. left. eexists _, a, d. simpl. eauto.
    + destruct (spec_post c (ww_ledger w)) as [r l] eqn:E. exists l. split; [|done]. left. rewrite E.
      split; [done|]. destruct fails; [by right; eexists|by left].
  - split; [done|]. by destruct (sl_keys _ !! _) eqn:E.
Qed.
(** Handlers one after the other, from a world in which nothing has happened. *)
Definition wf_zero (d : DB) (subjects : gmap (uuid * option uuid) ExecutionSubject) : world :=
  WfWorld (LED := SpecLedger) d (ExecDb subjects []) (SpecState ∅ ∅ 100%N) [].
Lemma wf_zero_initial `{WF : !Workflow DB} (start : DB -> Prop) d subjects :
  start d -> wf_initial start (wf_zero d subjects, []).
Proof.
  intros Hd. split; [done|]. split; [split; intros k tx; intros; simpl in *; simplify_map_eq|].
  split; [|done]. intros k sc tx _ H. simpl in H. by rewrite lookup_empty in H.
Qed.
Lemma wf_run_steps `{WF : !Workflow DB} (entry : Flow.prog (wf_call DB) unit -> Prop) outside w ps :
  Forall (fun pf => entry pf.1) ps ->
  rtc (sys_step wf_step entry (wf_env outside)) (w, []) (exec_all wf_respond ps w, []).
Proof. apply exec_all_steps. intros. apply wf_respond_step. Qed.
End respond.
