(* ===== verification/Disbursement.v ===== *)
(** * Batch disbursements: services/ledger/internal/ledger/disbursement

    One manifest, many payments: an import creates a batch nobody has approved, a
    second person approves it, and Run pays its items a slice at a time, each under
    a key of its own.  Tables of migrations 000015, 000038, 000039 and 000045. *)
From stdpp Require Import prelude gmap strings list sorting.
From S2P Require Import Prelude Decimal Errors Currency Processors Flow LedgerApi Executor Workflow.
Open Scope Z_scope.

Record disbursement_batch := DisbursementBatch {
  bt_SourceFilename : string; bt_RowCount : Z; bt_Status : string; bt_CreatedBy : string;
  bt_ApprovedBy : option string; bt_ApprovedAt : option Z; bt_DecisionReason : option string }.
Record disbursement_item := DisbursementItem {
  di_BatchID : uuid; di_ItemNo : Z; di_UserID : uuid; di_Amount : Z; di_Currency : string; di_Note : string;
  di_Status : string; di_Error : option string; di_PostedTxID : option uuid }.
Record disb_db := DisbDb {
  disbursement_batches : gmap uuid disbursement_batch;
  disbursement_items : gmap uuid disbursement_item;
  registered_currencies : gset string;      (* what the foreign key refers to *)
}.
Definition set_batches d t := DisbDb t (disbursement_items d) (registered_currencies d).
Definition set_disbursement_items d t := DisbDb (disbursement_batches d) t (registered_currencies d).

(** ** Constraints *)
Definition batch_statuses : list string :=
  ["pending_approval"; "rejected"; "processing"; "completed"; "completed_with_errors"].
Definition approved_statuses : list string := ["processing"; "completed"; "completed_with_errors"].
Definition batch_ok (b : disbursement_batch) : bool :=
  bool_decide (bt_Status b ∈ batch_statuses)
  && negb (bool_decide (bt_ApprovedBy b = Some (bt_CreatedBy b)))
  && (negb (bool_decide (bt_Status b ∈ approved_statuses))
      || bool_decide (is_Some (bt_ApprovedBy b)) && bool_decide (is_Some (bt_ApprovedAt b))).
(** An update of a batch: fn_disbursement_approval_fields_immutable, then the checks. *)
Definition update_batch (id : uuid) (old new : disbursement_batch) (d : disb_db) : error + disb_db :=
  if bool_decide (bt_Status old ∈ approved_statuses)
     && negb (bool_decide (bt_ApprovedBy new = bt_ApprovedBy old) && bool_decide (bt_ApprovedAt new = bt_ApprovedAt old)) then
    inl (pg_raise "approval fields cannot change after disbursement processing begins")
  else if batch_ok new then inr (set_batches d (<[id := new]> (disbursement_batches d)))
  else inl pg_check.
Definition item_ok (it : disbursement_item) : bool :=
  (0 <? di_Amount it) && in_int64 (di_Amount it) && codePattern (di_Currency it)
  && bool_decide (di_Status it ∈ ["pending"; "posted"; "failed"]).
Definition item_numbered (d : disb_db) (batch : uuid) (no : Z) : bool :=
  existsb (fun kr => bool_decide (di_BatchID kr.2 = batch) && (di_ItemNo kr.2 =? no)) (map_to_list (disbursement_items d)).
Definition insert_disbursement_item (id : uuid) (it : disbursement_item) (d : disb_db) : error + disb_db :=
  if bool_decide (is_Some (disbursement_items d !! id)) || item_numbered d (di_BatchID it) (di_ItemNo it) then inl pg_unique
  else if negb (item_ok it) then inl pg_check
  else if negb (bool_decide (di_Currency it ∈ registered_currencies d)) then inl pg_foreign
  else inr (set_disbursement_items d (<[id := it]> (disbursement_items d))).
Fixpoint insert_disbursement_items (items : list (uuid * disbursement_item)) (d : disb_db) : error + disb_db :=
  match items with
  | [] => inr d
  | it :: items =>
      let~ d := wrap_query "insert disbursement item" (insert_disbursement_item it.1 it.2 d) in
      insert_disbursement_items items d
  end.

(** ** disbursement_repository.go *)
Definition CreateBatchWithItems (id : uuid) (batch : disbursement_batch) (items : list (uuid * disbursement_item))
    : wf_query disb_db unit := fun _ d =>
  let b := DisbursementBatch (bt_SourceFilename batch) (bt_RowCount batch) "pending_approval" (bt_CreatedBy batch) None None None in
  if bool_decide (is_Some (disbursement_batches d !! id)) then inl (Wrap "create disbursement batch" pg_unique)
  else
    let~ d := insert_disbursement_items items (set_batches d (<[id := b]> (disbursement_batches d))) in
    inr (tt, d).
Definition GetBatch (id : uuid) : wf_query disb_db disbursement_batch := fun _ d =>
  match disbursement_batches d !! id with
  | None => inl (wrapf ErrDisbursementBatchNotFound EmptyString)
  | Some b => inr (b, d)
  end.
Definition batch_with_status (b : disbursement_batch) (status : string) (approvedBy : option string) (approvedAt : option Z)
    (reason : option string) : disbursement_batch :=
  DisbursementBatch (bt_SourceFilename b) (bt_RowCount b) status (bt_CreatedBy b) approvedBy approvedAt reason.
Definition UpdateBatchStatus (id : uuid) (status : string) : wf_query disb_db unit := fun _ d =>
  match disbursement_batches d !! id with
  | None => inr (tt, d)
  | Some b =>
      let~ d := wrap_query "update disbursement batch status"
        (update_batch id b (batch_with_status b status (bt_ApprovedBy b) (bt_ApprovedAt b) (bt_DecisionReason b)) d) in
      inr (tt, d)
  end.
(** The rows changed. *)
Definition decide_batch (ctx status : string) (reason : disbursement_batch -> option string) (id : uuid) (approverID : string)
    : wf_query disb_db Z := fun ch d =>
  match disbursement_batches d !! id with
  | Some b =>
      if bool_decide (bt_Status b = "pending_approval") then
        let~ d := wrap_query ctx (update_batch id b (batch_with_status b status (Some approverID) (Some (ch_now ch)) (reason b)) d) in
        inr (1, d)
      else inr (0, d)
  | None => inr (0, d)
  end.
Definition repo_ApproveBatch (id : uuid) (approverID : string) : wf_query disb_db Z :=
  decide_batch "approve disbursement batch" "processing" bt_DecisionReason id approverID.
Definition repo_RejectBatch (id : uuid) (approverID reason : string) : wf_query disb_db Z :=
  decide_batch "reject disbursement batch" "rejected" (fun _ => nullString reason) id approverID.
Definition items_of (batch : uuid) (P : disbursement_item -> bool) (d : disb_db) : list (uuid * disbursement_item) :=
  ordered_rows (fun it => Some (di_ItemNo it)) (fun _ it => bool_decide (di_BatchID it = batch) && P it) (disbursement_items d).
(** SELECT status, count( * ) ... GROUP BY status *)
Definition GetCounts (batch : uuid) : wf_query disb_db (gmap string Z) :=
  wf_read (fun d => foldr (fun kr counts => <[di_Status kr.2 := default 0 (counts !! di_Status kr.2) + 1]> counts) ∅
                      (items_of batch (fun _ => true) d)).
Definition ListItems (batch : uuid) (status : string) (limit offset : Z) : wf_query disb_db (list (uuid * disbursement_item)) :=
  wf_read (fun d => take (Z.to_nat limit) (drop (Z.to_nat offset)
    (items_of batch (fun it => bool_decide (status = EmptyString) || bool_decide (di_Status it = status)) d))).
Definition ListItemsToProcess (batch : uuid) (includeFailed : bool) (limit : Z)
    : wf_query disb_db (list (uuid * disbursement_item)) :=
  let statuses := "pending" :: (if includeFailed then ["failed"] else []) in
  wf_read (fun d => take (Z.to_nat limit) (items_of batch (fun it => bool_decide (di_Status it ∈ statuses)) d)).
Definition item_marked (it : disbursement_item) (status : string) (err : option string) (tx : option uuid) : disbursement_item :=
  DisbursementItem (di_BatchID it) (di_ItemNo it) (di_UserID it) (di_Amount it) (di_Currency it) (di_Note it) status err tx.
Definition mark_item (id : uuid) (f : disbursement_item -> disbursement_item) : wf_query disb_db unit := fun _ d =>
  inr (tt, set_disbursement_items d (alter f id (disbursement_items d))).
Definition MarkItemPosted (id tx : uuid) : wf_query disb_db unit :=
  mark_item id (fun it => item_marked it "posted" None (Some tx)).
Definition MarkItemFailed (id : uuid) (errMsg : string) : wf_query disb_db unit :=
  mark_item id (fun it => item_marked it "failed" (Some errMsg) (di_PostedTxID it)).

(** ** disbursement.go *)
Section disbursement.
Context `{DEC : !Decimal} `{UT : !UuidText}.
Notation prog := (Flow.prog (wf_call disb_db)).
Notation sql s := (perform (WfSql s)).
Record DisbursementImportRow := MkImportRow { ir_UserID : uuid; ir_Amount : dec; ir_Currency : string; ir_Note : string }.
Definition maxImportRows : nat := 50000.
Definition import_currency (r : DisbursementImportRow) : string :=
  if bool_decide (ir_Currency r = EmptyString) then "IDR" else ir_Currency r.
Definition invalid_row (r : DisbursementImportRow) : option error :=
  if bool_decide (ir_UserID r = uuid_Nil) then Some (wrapf ErrValidation "row has an empty user_id")
  else if negb (dec_is_positive (ir_Amount r)) || negb (dec_equal (ir_Amount r) (dec_truncate (ir_Amount r))) then
    Some (wrapf ErrValidation "row has a non-integral or non-positive amount")
  else match ValidateCode (import_currency r) with
  | Some err => Some (wrapf ErrValidation "row has invalid currency")
  | None => None
  end.
Fixpoint first_invalid (rows : list DisbursementImportRow) : option error :=
  match rows with
  | [] => None
  | r :: rows => match invalid_row r with Some err => Some err | None => first_invalid rows end
  end.
Fixpoint new_items (batch : uuid) (no : Z) (rows : list DisbursementImportRow) : prog (list (uuid * disbursement_item)) :=
  match rows with
  | [] => Ret []
  | r :: rows =>
      let* id := wf_new in
      let* rest := new_items batch (no + 1) rows in
      Ret ((id, DisbursementItem batch no (ir_UserID r) (dec_int_part (ir_Amount r)) (import_currency r) (ir_Note r)
                  "pending" None None) :: rest)
  end.
Definition Import (filename : string) (rows : list DisbursementImportRow) (createdBy : string) : prog (error + uuid) :=
  if bool_decide (rows = []) then Ret (inl (wrapf ErrValidation "batch has no rows"))
  else if bool_decide (maxImportRows < length rows)%nat then Ret (inl (wrapf ErrCSVTooManyRows "rows exceed the cap per batch"))
  else if bool_decide (createdBy = EmptyString) then
    Ret (inl (wrapf ErrValidation "created_by (caller identity) is required"))
  else match first_invalid rows with
  | Some err => Ret (inl err)
  | None =>
      let* batchID := wf_new in
      let batch := DisbursementBatch filename (Z.of_nat (length rows)) EmptyString createdBy None None None in
      let* items := new_items batchID 1 rows in
      let? _ := sql (CreateBatchWithItems batchID batch items) in
      Ret (inr batchID)
  end.
Definition batch_decided : error := NewBizErr ErrDisbursementBatchAlreadyDecided "disbursement batch was already decided".
Definition ApproveBatch (batchID : uuid) (approverID : string) : prog (error + unit) :=
  let? batch := sql (GetBatch batchID) in
  if bool_decide (bt_CreatedBy batch = approverID) then
    Ret (inl (NewBizErr ErrSelfApproval "cannot approve your own disbursement batch"))
  else
    let? rows := sql (repo_ApproveBatch batchID approverID) in
    if rows =? 0 then Ret (inl batch_decided) else Ret (inr tt).
Definition RejectBatch (batchID : uuid) (approverID reason : string) : prog (error + unit) :=
  let? batch := sql (GetBatch batchID) in
  if bool_decide (bt_CreatedBy batch = approverID) then
    Ret (inl (NewBizErr ErrSelfApproval "cannot reject your own disbursement batch"))
  else if bool_decide (reason = EmptyString) then Ret (inl (wrapf ErrValidation "reason is required"))
  else
    let? rows := sql (repo_RejectBatch batchID approverID reason) in
    if rows =? 0 then Ret (inl batch_decided) else Ret (inr tt).

(** ** Run *)
Record DisbursementRunResult := MkRunResult { rr_Processed : Z; rr_Posted : Z; rr_Failed : Z; rr_Done : bool }.
Definition disbursementIdempotencyKey (batchID : uuid) (itemNo : Z) : string :=
  "batch:" +:+ (uuid_string batchID +:+ (":" +:+ Z_text itemNo)).
Definition disbursement_command (batchID : uuid) (it : disbursement_item) : Command :=
  {| IdempotencyKey := disbursementIdempotencyKey batchID (di_ItemNo it); IdempotencyScope := EmptyString;
     Type_ := "disbursement"; Amount := dec_of_Z (di_Amount it); UserID := di_UserID it;
     TargetUserID := uuid_Nil; PocketCode := EmptyString; Currency_ := di_Currency it; ReferenceID := uuid_Nil;
     Metadata := list_to_map [("batch_id", MString (uuid_string batchID)); ("item_no", MString (Z_text (di_ItemNo it)));
                              ("currency_inflight", MBool true)];
     QuoteID := EmptyString; MerchantTenantID := uuid_Nil |}.
Definition disbursement_context (batchID : uuid) (batch : disbursement_batch) (it : disbursement_item) : ExecutionContext :=
  MkContext (default uuid_Nil (uuid_parse (default EmptyString (bt_ApprovedBy batch)))) uuid_Nil "bulk-disbursement"
    (uuid_string batchID) 0 "approved-disbursement-batch" (di_Currency it).
(** The outcome of one item: was it posted, and could that be recorded. *)
Definition run_item (x : Executor) (batchID : uuid) (batch : disbursement_batch) (it : uuid * disbursement_item)
    : prog (bool * (error + unit)) :=
  let key := disbursementIdempotencyKey batchID (di_ItemNo it.2) in
  let* posted := wf_execute x (disbursement_command batchID it.2) (disbursement_context batchID batch it.2) in
  match posted with
  | inr _ =>
      let* found := perform (WfLookup key EmptyString) in
      match found with
      | inl err => Ret (true, inl (Wrap "posted but lookup failed" err))
      | inr tx => let* marked := sql (MarkItemPosted it.1 tx) in Ret (true, marked)
      end
  | inl err => let* marked := sql (MarkItemFailed it.1 (error_text err)) in Ret (false, marked)
  end.
Definition count_item (r : DisbursementRunResult) (outcome : bool * (error + unit)) : DisbursementRunResult :=
  match outcome with
  | (true, inr _) => MkRunResult (rr_Processed r + 1) (rr_Posted r + 1) (rr_Failed r) (rr_Done r)
  | _ => MkRunResult (rr_Processed r + 1) (rr_Posted r) (rr_Failed r + 1) (rr_Done r)
  end.
Fixpoint run_items (x : Executor) (batchID : uuid) (batch : disbursement_batch) (items : list (uuid * disbursement_item))
    (r : DisbursementRunResult) : prog DisbursementRunResult :=
  match items with
  | [] => Ret r
  | it :: items =>
      let* outcome := run_item x batchID batch it in
      run_items x batchID batch items (count_item r outcome)
  end.
Definition finish_run (batchID : uuid) (batch : disbursement_batch) (retryFailed : bool) (r : DisbursementRunResult)
    : prog (error + DisbursementRunResult) :=
  let? remaining := pwrap "disbursement: check remaining" (sql (ListItemsToProcess batchID retryFailed 1)) in
  if negb (bool_decide (remaining = [])) then Ret (inr r)
  else
    let? counts := pwrap "disbursement: get counts" (sql (GetCounts batchID)) in
    let status := if 0 <? default 0 (counts !! "failed") then "completed_with_errors" else "completed" in
    let? _ := if bool_decide (bt_Status batch = status) then ok
              else pwrap "disbursement: update batch status" (sql (UpdateBatchStatus batchID status)) in
    Ret (inr (MkRunResult (rr_Processed r) (rr_Posted r) (rr_Failed r) true)).
Definition Run (x : Executor) (maxItemsPerRun : Z) (batchID : uuid) (retryFailed : bool) : prog (error + DisbursementRunResult) :=
  let? batch := sql (GetBatch batchID) in
  if negb (bool_decide (bt_Status batch = "processing")) then
    Ret (inl (NewBizErr ErrDisbursementBatchNotApproved "disbursement batch must be approved before it can run"))
  else
    let? items := pwrap "disbursement: list items to process" (sql (ListItemsToProcess batchID retryFailed maxItemsPerRun)) in
    let* r := run_items x batchID batch items (MkRunResult 0 0 0 false) in
    finish_run batchID batch retryFailed r.
Definition GetReport (batchID : uuid) (status : string) (limit offset : Z)
    : prog (error + (disbursement_batch * gmap string Z * list (uuid * disbursement_item))) :=
  let? batch := sql (GetBatch batchID) in
  let? counts := pwrap "disbursement: get counts" (sql (GetCounts batchID)) in
  let limit := if (limit <=? 0) || (200 <? limit) then 50 else limit in
  let? items := pwrap "disbursement: list items" (sql (ListItems batchID status limit offset)) in
  Ret (inr (batch, counts, items)).
End disbursement.
