(* ===== verification/DisbursementTheorems.v ===== *)
(** * Every approved item is paid once

    The rows of a batch as a [Workflow]: who approved it, what its manifest says and
    what each item was paid with, under every interleaving of imports, decisions and
    runs; and runs where the code does not do what its comments say. *)
From Stdlib Require Import String.
From stdpp Require Import prelude gmap strings list sorting relations.
From S2P Require Import Prelude Decimal Errors Currency MoneyFacts Processors Flow LedgerApi Executor ExecutorFacts.
From S2P Require Import AdjustmentsRun Workflow Disbursement.
Open Scope Z_scope.

(** ** Keys *)
Section keys.
Context `{UT : !UuidText}.
Lemma item_key_inj b n b' n' : 0 <= n -> 0 <= n' ->
  disbursementIdempotencyKey b n = disbursementIdempotencyKey b' n' -> b = b' /\ n = n'.
Proof.
  unfold disbursementIdempotencyKey. intros Hn Hm H%(inj (String.append "batch:")).
  apply last_colon_inj in H as [H%uuid_string_inj E%Z_text_inj]; auto using number_no_colon.
Qed.
End keys.

Section safe.
Context `{DEC : !Decimal} `{UT : !UuidText} `{LED : !PostingLedger}.
Notation batch d id := (disbursement_batches d !! id).
Notation item d id := (disbursement_items d !! id).
Implicit Types (d : disb_db) (l : lstate).

(** ** The workflow *)
(** [who] approved the batch, which somebody else imported. *)
Definition approved_batch (b : disbursement_batch) (who : string) : Prop :=
  bt_Status b ∈ approved_statuses /\ bt_ApprovedBy b = Some who.
Record batch_terms (b b' : disbursement_batch) : Prop := {
  bm_count : bt_RowCount b' = bt_RowCount b; bm_creator : bt_CreatedBy b' = bt_CreatedBy b;
  bm_approved who : approved_batch b who -> approved_batch b' who }.
Record line_terms (it it' : disbursement_item) : Prop := {
  im_batch : di_BatchID it' = di_BatchID it; im_no : di_ItemNo it' = di_ItemNo it;
  im_user : di_UserID it' = di_UserID it; im_amount : di_Amount it' = di_Amount it;
  im_currency : di_Currency it' = di_Currency it }.
Definition paid_key (it : disbursement_item) : string := disbursementIdempotencyKey (di_BatchID it) (di_ItemNo it).
Record disb_ok d l : Prop := {
  do_batch id b : batch d id = Some b -> batch_ok b = true;
  do_line id it : item d id = Some it -> 0 < di_Amount it /\ 0 < di_ItemNo it /\ is_Some (batch d (di_BatchID it));
  do_number id it id' it' : item d id = Some it -> item d id' = Some it' ->
    di_BatchID it = di_BatchID it' -> di_ItemNo it = di_ItemNo it' -> id = id';
  do_posted id it : item d id = Some it -> di_Status it = "posted" -> wf_linked l (paid_key it) EmptyString (di_PostedTxID it);
}.
Record disb_le d d' : Prop := {
  dl_batch id b : batch d id = Some b -> exists b', batch d' id = Some b' /\ batch_terms b b';
  dl_line id it : item d id = Some it -> exists it', item d' id = Some it' /\ line_terms it it';
  dl_manifest id it : item d' id = Some it -> is_Some (batch d (di_BatchID it)) -> is_Some (item d id);
}.
Definition disb_grounds d (c : Command) : Prop := exists id it b who,
  item d id = Some it /\ batch d (di_BatchID it) = Some b /\ approved_batch b who /\
  c = disbursement_command (di_BatchID it) it.
Inductive disb_key : string -> string -> Prop :=
  | dk_item b n : 0 < n -> disb_key (disbursementIdempotencyKey b n) EmptyString.

#[export] Instance batch_terms_preorder : PreOrder batch_terms.
Proof. split; [by split|]. intros ? ? ? [] []. split; [congruence..|auto]. Qed.
#[export] Instance line_terms_preorder : PreOrder line_terms.
Proof. split; [by split|]. intros ? ? ? [] []. split; congruence. Qed.
#[export] Instance disb_le_preorder : PreOrder disb_le.
Proof.
  split.
  - intros d. split; try (intros id r H; exists r; split; [exact H|reflexivity]). intros id it H _. by exists it.
  - intros d1 d2 d3 [A1 B1 C1] [A2 B2 C2]. split.
    + intros id b (b2 & H & ?)%A1. apply A2 in H as (b3 & ? & ?). exists b3. split; [done|by transitivity b2].
    + intros id b (b2 & H & ?)%B1. apply B2 in H as (b3 & ? & ?). exists b3. split; [done|by transitivity b2].
    + intros id it H [b Hb]. destruct (A1 _ _ Hb) as (b2 & Hb2 & _). destruct (C2 id it H) as [it2 H2]; [by exists b2|].
      apply (C1 id it2 H2). destruct (B2 _ _ H2) as (it3 & H3 & T). rewrite H in H3. injection H3 as <-.
      rewrite <- (im_batch _ _ T). by exists b.
Qed.
Lemma command_terms b it it' : line_terms it it' -> disbursement_command b it' = disbursement_command b it.
Proof. intros [_ E1 E2 E3 E4]. unfold disbursement_command. by rewrite E1, E2, E3, E4. Qed.
#[export] Program Instance disbursements : Workflow disb_db := {|
  rows_ok := disb_ok; rows_le := disb_le; grounds := disb_grounds; mine := disb_key |}.
Next Obligation.
  intros d l l' L [A B C P]. split; [done..|]. intros id it H Hs. eapply wf_linked_le; [exact L|by eapply P].
Qed.
Next Obligation.
  intros d d' c L (id & it & b & who & Hi & Hb & Ha & ->).
  destruct (dl_line _ _ L _ _ Hi) as (it' & Hi' & T). destruct (dl_batch _ _ L _ _ Hb) as (b' & Hb' & TB).
  exists id, it', b', who. rewrite (im_batch _ _ T). split_and!; [done..|by apply (bm_approved _ _ TB)|].
  symmetry. by apply command_terms.
Qed.
Context (x : Executor).
Notation D := (wf_discipline (DB := disb_db)).
Notation fine := (fine D).
Implicit Types (w : wf_world disb_db).
Notation inv := (wf_inv (DB := disb_db)).

(** ** Statements *)
Definition knows_batch id b w : Prop := exists b', batch (ww_db w) id = Some b' /\ batch_terms b b'.
Definition knows_line id it w : Prop := exists it', item (ww_db w) id = Some it' /\ line_terms it it'.
Lemma knows_batch_le id b w w' : wf_le w w' -> knows_batch id b w -> knows_batch id b w'.
Proof.
  intros L (b1 & H & T). destruct (dl_batch _ _ (wl_rows _ _ L) _ _ H) as (b2 & H2 & T2).
  exists b2. split; [done|by transitivity b1].
Qed.
Lemma knows_line_le id it w w' : wf_le w w' -> knows_line id it w -> knows_line id it w'.
Proof.
  intros L (b1 & H & T). destruct (dl_line _ _ (wl_rows _ _ L) _ _ H) as (b2 & H2 & T2).
  exists b2. split; [done|by transitivity b1].
Qed.
Lemma wrap_query_inr {A} ctx (r : error + A) a : wrap_query ctx r = inr a -> r = inr a.
Proof. by destruct r. Qed.
Lemma batch_update d l id b b' d' : disb_ok d l -> batch d id = Some b -> batch_terms b b' ->
  update_batch id b b' d = inr d' -> disb_ok d' l /\ disb_le d d'.
Proof.
  intros [A B C P] Hb T. unfold update_batch. destruct (_ && _); [done|]. destruct (batch_ok b') eqn:Eb; [|done].
  intros [= <-]. split; split; simpl; try done.
  - intros i c [[<- <-]|[_ H]]%lookup_insert_Some; [done|by eapply A].
  - intros i it Hi. destruct (B _ _ Hi) as (? & ? & Hs). split_and!; [done..|].
    destruct (decide (id = di_BatchID it)) as [->|Hn]; [rewrite lookup_insert_eq|rewrite lookup_insert_ne]; done.
  - intros i c Hi. destruct (decide (id = i)) as [->|Hn].
    + exists b'. rewrite lookup_insert_eq. split; [done|]. by replace c with b by congruence.
    + exists c. rewrite lookup_insert_ne by done. by split.
  - intros i it Hi. exists it. by split.
Qed.
Lemma decide_batch_good ctx st reason id who ch d l n d' : st ∈ batch_statuses ->
  disb_ok d l -> decide_batch ctx st reason id who ch d = inr (n, d') -> disb_ok d' l /\ disb_le d d'.
Proof.
  intros Hst I. unfold decide_batch. destruct (batch d id) as [b|] eqn:Hb; [|intros [= _ <-]; by split].
  case_bool_decide as Es; [|intros [= _ <-]; by split].
  destruct (wrap_query _ _) as [|d1] eqn:E; [done|]. intros [= _ <-]. apply wrap_query_inr in E.
  eapply batch_update; [done|exact Hb| |exact E]. split; [done..|]. intros w [H _]. exfalso.
  rewrite Es in H. unfold approved_statuses in H.
  repeat (apply elem_of_cons in H as [H|H]; [done|]). by apply not_elem_of_nil in H.
Qed.
Lemma UpdateBatchStatus_ok id b who st : st ∈ ["completed"; "completed_with_errors"] -> approved_batch b who ->
  op_ok D (WfSql (UpdateBatchStatus id st)) (knows_batch id b) (fun r _ => match r with inr _ => True | inl _ => True end).
Proof.
  intros Hst Hb. apply (wsql_ok _ _ (fun _ _ => True)). intros ch w u d I (b' & H & T). unfold UpdateBatchStatus. rewrite H.
  destruct (wrap_query _ _) as [|d1] eqn:E; [done|]. intros [= _ <-]. apply wrap_query_inr in E.
  assert (Hs : batch_terms b' (batch_with_status b' st (bt_ApprovedBy b') (bt_ApprovedAt b') (bt_DecisionReason b'))).
  { split; [done..|]. intros who' [_ Ha]. split; [|exact Ha]. simpl. by right. }
  destruct (batch_update _ _ _ _ _ _ (wi_rows _ I) H Hs E). by split_and!.
Qed.
Lemma alter_line d l id f : disb_ok d l -> (forall it, item d id = Some it -> line_terms it (f it) /\
    (di_Status (f it) = "posted" -> wf_linked l (paid_key it) EmptyString (di_PostedTxID (f it)))) ->
  disb_ok (set_disbursement_items d (alter f id (disbursement_items d))) l /\
  disb_le d (set_disbursement_items d (alter f id (disbursement_items d))).
Proof.
  intros [A B C P] Hf.
  assert (Hold : forall i it', alter f id (disbursement_items d) !! i = Some it' ->
    exists it, item d i = Some it /\ line_terms it it' /\
      (di_Status it' = "posted" -> wf_linked l (paid_key it) EmptyString (di_PostedTxID it'))).
  { intros i it' H. destruct (decide (id = i)) as [->|Hn].
    - rewrite lookup_alter_eq in H. destruct (item d i) as [it|] eqn:E; [|done]. injection H as <-.
      exists it. split; [done|by apply Hf].
    - rewrite lookup_alter_ne in H by done. exists it'. split; [done|]. split; [reflexivity|]. by eapply P. }
  split; split; simpl; try done.
  - intros i it' (it & Hi & T & _)%Hold. rewrite (im_amount _ _ T), (im_no _ _ T), (im_batch _ _ T). by eapply B.
  - intros i it' j jt' (it & Hi & T & _)%Hold (jt & Hj & TJ & _)%Hold.
    rewrite (im_no _ _ T), (im_batch _ _ T), (im_no _ _ TJ), (im_batch _ _ TJ). by apply C.
  - intros i it' (it & Hi & T & Hp)%Hold Hs. unfold paid_key. rewrite (im_batch _ _ T), (im_no _ _ T). by apply Hp.
  - intros i b Hb. exists b. by split.
  - intros i it Hi. destruct (decide (id = i)) as [->|Hn].
    + exists (f it). rewrite lookup_alter_eq, Hi. split; [done|by apply Hf].
    + exists it. rewrite lookup_alter_ne by done. by split.
  - intros i it' (it & Hi & _)%Hold _. by exists it.
Qed.
Lemma MarkItemPosted_ok id it tx : op_ok D (WfSql (MarkItemPosted id tx))
  (fun w => knows_line id it w /\ keyed (ww_ledger w) (paid_key it) EmptyString tx)
  (fun r _ => match r with inr _ => True | inl _ => True end).
Proof.
  apply (wsql_ok _ _ (fun _ _ => True)). intros ch w u d I [(it' & Hi & T) Hk] [= _ <-].
  destruct (alter_line _ _ id (fun it => item_marked it "posted" None (Some tx)) (wi_rows _ I)); [|by split_and!].
  intros it1 H1. rewrite Hi in H1. injection H1 as <-. split; [by split|]. intros _. exists tx. split; [done|].
  unfold paid_key. by rewrite (im_batch _ _ T), (im_no _ _ T).
Qed.
Lemma MarkItemFailed_fine id msg : fine (perform (WfSql (MarkItemFailed id msg))).
Proof.
  apply fine_wwrite. intros ch w u d I [= _ <-]. apply alter_line; [apply I|]. intros it H. split; [by split|done].
Qed.
(** An import: rows of a batch that was not there. *)
Definition fresh_line (id : uuid) (no : Z) (kr : uuid * disbursement_item) : Prop :=
  di_BatchID kr.2 = id /\ no <= di_ItemNo kr.2 /\ di_Status kr.2 = "pending".
Lemma insert_lines_good id items d l d' : disb_ok d l -> is_Some (batch d id) -> Forall (fresh_line id 1) items ->
  insert_disbursement_items items d = inr d' ->
  disb_ok d' l /\ disbursement_batches d' = disbursement_batches d /\
  (forall i it, item d i = Some it -> item d' i = Some it) /\
  (forall i it, item d' i = Some it -> item d i = Some it \/ di_BatchID it = id).
Proof.
  revert d. induction items as [|[i it] items IH]; intros d I Hb HF H; simpl in H.
  { injection H as <-. split_and!; auto. }
  apply Forall_cons in HF as [(E1 & E2 & E3) HF]. simpl in *. destruct (wrap_query _ _) as [|d1] eqn:E; [done|].
  apply wrap_query_inr in E. unfold insert_disbursement_item in E. destruct (_ || _) eqn:Eu; [done|].
  apply orb_false_iff in Eu as [Ei En]. apply bool_decide_eq_false, eq_None_not_Some in Ei.
  destruct (negb (item_ok it)) eqn:Eok; [done|]. apply negb_false_iff in Eok. unfold item_ok in Eok.
  rewrite !andb_true_iff in Eok. destruct Eok as [[[Ea _] _] _]. apply Z.ltb_lt in Ea.
  destruct (negb _); [done|]. injection E as <-. destruct I as [A B C P].
  assert (Hn : forall j jt, item d j = Some jt -> di_BatchID jt = di_BatchID it -> di_ItemNo jt <> di_ItemNo it).
  { intros j jt Hj Hjb Hjn. apply not_true_iff_false in En. destruct En. apply existsb_exists. exists (j, jt).
    split; [by apply list_elem_of_In, elem_of_map_to_list|]. simpl. by rewrite Hjb, bool_decide_eq_true_2, Hjn, Z.eqb_refl. }
  destruct (IH (set_disbursement_items d (<[i:=it]> (disbursement_items d)))) as (I2 & Eb & Hk & Hb2); [|done..|].
  - split; simpl; try done.
    + intros j jt [[<- <-]|[_ Hj]]%lookup_insert_Some; [|by eapply B]. split_and!; [done|lia|by rewrite E1].
    + intros j jt k kt [[<- <-]|[Hij Hj]]%lookup_insert_Some [[<- <-]|[Hik Hk]]%lookup_insert_Some Eb En'; [done| | |].
      * exfalso. by apply (Hn _ _ Hk).
      * exfalso. by apply (Hn _ _ Hj).
      * by eapply C.
    + intros j jt [[<- <-]|[_ Hj]]%lookup_insert_Some Hs; [by rewrite E3 in Hs|by eapply P].
  - split; [done|]. split; [done|]. split.
    + intros j jt Hj. apply Hk. simpl. rewrite lookup_insert_ne; [done|]. congruence.
    + intros j jt [Hj|?]%Hb2; [|by right]. simpl in Hj. apply lookup_insert_Some in Hj as [[<- <-]|[_ Hj]]; [by right|by left].
Qed.
Lemma CreateBatchWithItems_good id b items ch d l u d' : disb_ok d l -> Forall (fresh_line id 1) items ->
  CreateBatchWithItems id b items ch d = inr (u, d') -> disb_ok d' l /\ disb_le d d'.
Proof.
  intros I HF. unfold CreateBatchWithItems. case_bool_decide as En; [done|]. apply eq_None_not_Some in En.
  cbv zeta. set (nb := DisbursementBatch _ _ _ _ _ _ _). destruct (insert_disbursement_items _ _) as [|d1] eqn:E; [done|].
  intros [= _ <-]. set (d0 := set_batches d (<[id:=nb]> (disbursement_batches d))) in *.
  assert (I0 : disb_ok d0 l).
  { destruct I as [A B C P]. split; simpl; try done.
    - intros i c [[<- <-]|[_ H]]%lookup_insert_Some; [done|by eapply A].
    - intros i it Hi. destruct (B _ _ Hi) as (? & ? & [c Hc]). split_and!; [done..|]. exists c.
      rewrite lookup_insert_ne; [done|]. congruence. }
  destruct (insert_lines_good id items d0 l d1) as (I1 & Eb & Hk & Hb); [done| |done..|].
  { exists nb. simpl. by rewrite lookup_insert_eq. }
  split; [done|]. split.
  - intros i c Hc. exists c. rewrite Eb. simpl. rewrite lookup_insert_ne by congruence. by split.
  - intros i it Hi. exists it. split; [by apply Hk|reflexivity].
  - intros i it [Hi|Hi]%Hb Hs; [by exists it|]. rewrite Hi, En in Hs. by destruct Hs.
Qed.

(** ** Handlers *)
Lemma GetBatch_ok id : op_ok D (WfSql (GetBatch id)) (fun _ => True)
  (fun r w => match r with inr b => knows_batch id b w /\ batch_ok b = true | inl _ => True end).
Proof.
  apply wsql_ok. intros ch w b d I _. unfold GetBatch. destruct (batch (ww_db w) id) as [b0|] eqn:Hb; [|done].
  intros [= <- <-]. split_and!; [apply I|reflexivity| |by eapply (do_batch _ _ (wi_rows _ I))].
  exists b0. by split.
Qed.
Lemma safe_new_items id no rows w : 0 < no ->
  safe D (new_items id no rows) (fun items _ => Forall (fresh_line id 1) items) w.
Proof.
  revert no w. induction rows as [|r rows IH]; intros no w Hno; [by constructor|]. cbn [new_items]. apply safe_bind.
  eapply safe_weaken; [apply wf_new_fine|]. intros i w1 _ _. apply safe_bind.
  eapply safe_weaken; [apply (IH (no + 1)); lia|]. intros items w2 _ HF. constructor; [|exact HF]. split_and!; simpl; lia || done.
Qed.
Lemma Import_fine filename rows who : fine (Import filename rows who).
Proof.
  intros w. unfold Import. case_bool_decide; [done|]. case_bool_decide; [done|]. case_bool_decide; [done|].
  destruct (first_invalid rows); [done|]. eapply safe_seq; [apply wf_new_fine|]. intros id w1 _ _. cbv zeta.
  eapply safe_seq; [by apply safe_new_items|]. intros items w2 _ HF. apply fine_ebind; [|intros; apply fine_ret].
  apply fine_wwrite. intros ch w3 u d I3. apply CreateBatchWithItems_good; [apply I3|done].
Qed.
Lemma decide_fine ctx st reason id who : st ∈ batch_statuses -> fine (perform (WfSql (decide_batch ctx st reason id who))).
Proof. intros Hst. apply fine_wwrite. intros ch w n d I. apply decide_batch_good; [done|apply I]. Qed.
Lemma in_statuses st : (if bool_decide (st ∈ batch_statuses) then true else false) = true -> st ∈ batch_statuses.
Proof. by case_bool_decide. Qed.
Lemma ApproveBatch_fine id who : fine (ApproveBatch id who).
Proof.
  unfold ApproveBatch. apply fine_ebind; [by eapply fine_op; apply GetBatch_ok|]. intros b.
  case_bool_decide; [apply fine_ret|]. apply fine_ebind; [by apply decide_fine, in_statuses|]. intros n.
  destruct (n =? 0); apply fine_ret.
Qed.
Lemma RejectBatch_fine id who reason : fine (RejectBatch id who reason).
Proof.
  unfold RejectBatch. apply fine_ebind; [by eapply fine_op; apply GetBatch_ok|]. intros b.
  case_bool_decide; [apply fine_ret|]. case_bool_decide; [apply fine_ret|].
  apply fine_ebind; [by apply decide_fine, in_statuses|]. intros n. destruct (n =? 0); apply fine_ret.
Qed.
Lemma items_of_known id P w : Forall (fun kr => knows_line kr.1 kr.2 w /\ di_BatchID kr.2 = id) (items_of id P (ww_db w)).
Proof.
  apply Forall_forall. intros [i it] H. unfold items_of, ordered_rows in H. rewrite merge_sort_Permutation in H.
  apply elem_of_rows_where in H as [Hi Hp]. apply andb_true_iff in Hp as [Hp _]. apply bool_decide_eq_true in Hp.
  split; [|done]. exists it. by split.
Qed.
Lemma ListItemsToProcess_ok id retry n : op_ok D (WfSql (ListItemsToProcess id retry n)) (fun _ => True)
  (fun r w => match r with
              | inr l => Forall (fun kr => knows_line kr.1 kr.2 w /\ di_BatchID kr.2 = id) l
              | inl _ => True end).
Proof. apply wread_ok. intros w I. apply Forall_take, items_of_known. Qed.
Lemma safe_run_item id b who it w : knows_batch id b w -> approved_batch b who ->
  knows_line it.1 it.2 w -> di_BatchID it.2 = id -> safe D (run_item x id b it) (fun _ _ => True) w.
Proof.
  intros (b' & Hb & TB) Ha (it' & Hi & T) E. unfold run_item. cbv zeta. eapply safe_seq.
  { apply safe_execute. exists it.1, it', b', who. rewrite (im_batch _ _ T), E. split_and!; [done..|by apply (bm_approved _ _ TB)|].
    symmetry. by apply command_terms. }
  intros [err|[]] w1 L1 _.
  { eapply safe_seq; [apply MarkItemFailed_fine|]. intros; done. }
  eapply safe_seq; [apply safe_wf_lookup|]. intros [err|tx] w2 L2 Hk; [done|]. eapply safe_seq with (Q := fun _ _ => True); [|done].
  eapply safe_weaken; [eapply safe_op; [apply (MarkItemPosted_ok it.1 it.2 tx)|]|done].
  intros w3 L3. split.
  - eapply knows_line_le; [exact L3|]. eapply knows_line_le; [exact L2|]. eapply knows_line_le; [exact L1|]. by exists it'.
  - unfold paid_key. rewrite E. by apply (ll_keyed _ _ (wl_ledger _ _ L3)).
Qed.
Lemma safe_run_items id b who items r w : knows_batch id b w -> approved_batch b who ->
  Forall (fun kr => knows_line kr.1 kr.2 w /\ di_BatchID kr.2 = id) items ->
  safe D (run_items x id b items r) (fun _ _ => True) w.
Proof.
  intros Hb Ha. revert r w Hb. induction items as [|it items IH]; intros r w Hb HF; [done|].
  apply Forall_cons in HF as [[Hi E] HF]. cbn [run_items]. eapply safe_seq; [by eapply safe_run_item|].
  intros o w1 L1 _. apply IH; [by eapply knows_batch_le|]. eapply Forall_impl; [exact HF|].
  intros j [Hj Ej]. split; [by eapply knows_line_le|done].
Qed.
Lemma processing_approved b : batch_ok b = true -> bt_Status b = "processing" -> exists who, approved_batch b who.
Proof.
  unfold batch_ok. intros H Hs. rewrite Hs in H. rewrite !andb_true_iff in H. destruct H as [_ H].
  rewrite orb_false_l, andb_true_iff in H. destruct H as [H _]. apply bool_decide_eq_true in H as [who H].
  exists who. split; [|done]. rewrite Hs. by left.
Qed.
Lemma safe_items ctx id retry n w : safe D (pwrap ctx (perform (WfSql (ListItemsToProcess id retry n))))
  (fun r w => match r with
              | inr l => Forall (fun kr => knows_line kr.1 kr.2 w /\ di_BatchID kr.2 = id) l
              | inl _ => True end) w.
Proof.
  apply (safe_wrap D _ _ (fun rows w => Forall (fun kr => knows_line kr.1 kr.2 w /\ di_BatchID kr.2 = id) rows)).
  eapply safe_op; [apply ListItemsToProcess_ok|done].
Qed.
Lemma Run_fine n id retry : fine (Run x n id retry).
Proof.
  intros w. unfold Run. eapply safe_ebind; [by eapply safe_op; [apply GetBatch_ok|]|]. intros b w1 L1 [Hb Hok].
  case_bool_decide as Es; cbn [negb]; [|done]. destruct (processing_approved b Hok Es) as [who Ha].
  eapply safe_ebind; [by apply safe_items|]. intros items w2 L2 HF.
  eapply safe_seq; [eapply safe_run_items; [by eapply knows_batch_le|done|done]|]. intros r w3 L3 _.
  unfold finish_run. eapply safe_ebind; [by apply safe_items|]. intros rest w4 L4 _. destruct (negb _); [done|].
  eapply safe_ebind with (Q := fun _ _ => True).
  { eapply safe_weaken; [apply fine_wrap, fine_wread|by intros []]. }
  intros counts w5 L5 _. cbv zeta. eapply safe_ebind with (Q := fun _ _ => True); [|done].
  case_bool_decide; [done|]. apply safe_wrap. eapply safe_weaken.
  { eapply safe_op; [apply (UpdateBatchStatus_ok id b who _); [|done]|].
    - destruct (0 <? _); [right|]; left.
    - intros w6 L6. eapply knows_batch_le; [exact L6|]. eapply knows_batch_le; [exact L5|]. eapply knows_batch_le; [exact L4|].
      eapply knows_batch_le; [exact L3|]. by eapply knows_batch_le. }
  by intros [].
Qed.

(** ** Every reachable state *)
Inductive disb_entry : Flow.prog (wf_call disb_db) unit -> Prop :=
  | de_import filename rows who : disb_entry (logged (Import filename rows who))
  | de_approve id who : disb_entry (logged (ApproveBatch id who))
  | de_reject id who reason : disb_entry (logged (RejectBatch id who reason))
  | de_run n id retry : disb_entry (logged (Run x n id retry)).
(** Currencies are registered elsewhere. *)
Definition disb_outside d d' : Prop :=
  exists cur, d' = DisbDb (disbursement_batches d) (disbursement_items d) cur.
Definition disb_start d : Prop := disbursement_batches d = ∅ /\ disbursement_items d = ∅.
Definition disb_reachable := wf_reachable disb_entry disb_outside disb_start.
Lemma disb_entry_fine p : disb_entry p -> fine p.
Proof.
  destruct 1; apply fine_logged; [apply Import_fine|apply ApproveBatch_fine|apply RejectBatch_fine|apply Run_fine].
Qed.
Lemma disb_outside_ok d d' l : disb_ok d l -> disb_outside d d' -> disb_ok d' l /\ disb_le d d'.
Proof.
  intros [A B C P] [cur ->]. split; [by split|].
  split; try (intros id r H; exists r; split; [exact H|reflexivity]). intros id it H _. by exists it.
Qed.
Lemma disb_start_ok d l : disb_start d -> disb_ok d l.
Proof. intros [Hb Hi]. split; rewrite ?Hb, ?Hi; done. Qed.

(** C18: An item is paid at most once, and only as a line of an approved batch.  In
    every state any interleaving of imports, decisions, runs, crashes and lost answers
    can reach, what the ledger has posted under the key of a line of a batch is the
    only transaction there, and was commanded for the one item on that line, its user,
    its amount and its currency; its batch stands approved (processing, completed
    or completed with errors, never pending or rejected) by somebody other than its
    importer; an item marked posted names that transaction; and from then on
    the line keeps its terms, and the batch neither loses its approval nor gains a line. *)
Theorem approved_items_are_paid_once w ps w' ps' :
  disb_reachable (w, ps) -> rtc (sys_step wf_step disb_entry (wf_env disb_outside)) (w, ps) (w', ps') ->
  (forall b n tx, 0 < n -> under_key (ww_ledger w) (disbursementIdempotencyKey b n) EmptyString tx ->
     (forall tx', under_key (ww_ledger w) (disbursementIdempotencyKey b n) EmptyString tx' -> tx' = tx) /\
     exists id it r who, item (ww_db w) id = Some it /\ di_BatchID it = b /\ di_ItemNo it = n /\
       batch (ww_db w) b = Some r /\ approved_batch r who /\ who <> bt_CreatedBy r /\
       disbursement_command b it ∈ ww_sent w /\
       forall id' it', item (ww_db w) id' = Some it' -> di_BatchID it' = b -> di_ItemNo it' = n -> id' = id) /\
  (forall id it, item (ww_db w) id = Some it -> di_Status it = "posted" ->
     exists tx, di_PostedTxID it = Some tx /\ keyed (ww_ledger w) (paid_key it) EmptyString tx) /\
  (forall id it, item (ww_db w) id = Some it -> exists it', item (ww_db w') id = Some it' /\ line_terms it it') /\
  (forall id b who, batch (ww_db w) id = Some b -> approved_batch b who ->
     exists b', batch (ww_db w') id = Some b' /\ approved_batch b' who /\
       forall i it, item (ww_db w') i = Some it -> di_BatchID it = id -> is_Some (item (ww_db w) i)).
Proof.
  intros Hr Hs. assert (I := wf_reachable_inv _ _ _ disb_start_ok disb_entry_fine disb_outside_ok _ _ Hr).
  assert (L := wf_steps_le _ _ _ disb_start_ok disb_entry_fine disb_outside_ok _ _ Hr Hs). cbn [fst] in L.
  split_and!.
  - intros b n tx Hn Ht.
    destruct (wf_origin (WF := disbursements) _ _ _ disb_start_ok disb_entry_fine disb_outside_ok w ps _ _ tx Hr (dk_item b n Hn) Ht)
      as (Hu & c & Hc & Ek & _ & (id & it & r & who & Hi & Hb & Ha & ->)). split; [exact Hu|].
    destruct (do_line _ _ (wi_rows _ I) _ _ Hi) as (_ & Hno & _).
    apply item_key_inj in Ek as [Eb En]; [|simpl; lia..]. simpl in Eb, En. subst b n.
    exists id, it, r, who. pose proof (do_batch _ _ (wi_rows _ I) _ _ Hb) as Hok. pose proof (proj2 Ha) as Ha2.
    split_and!; try done.
    + intros ->. unfold batch_ok in Hok. by rewrite Ha2, (bool_decide_true (Some _ = Some _)), andb_false_r in Hok.
    + intros id' it' Hi' E1 E2. by apply (do_number _ _ (wi_rows _ I) _ _ _ _ Hi' Hi).
  - intros id it Hi. apply (do_posted _ _ (wi_rows _ I) _ _ Hi).
  - apply (dl_line _ _ (wl_rows _ _ L)).
  - intros id b who Hb Ha. destruct (dl_batch _ _ (wl_rows _ _ L) _ _ Hb) as (b' & Hb' & T).
    exists b'. split_and!; [done|by apply (bm_approved _ _ T)|]. intros i it Hi <-.
    apply (dl_manifest _ _ (wl_rows _ _ L) _ _ Hi). by exists b.
Qed.
End safe.

(** ** Running on the specification ledger *)
#[local] Existing Instance QDecimal.decimal.
#[local] Existing Instance NumUuid.uuid_text.
Notation dworld := (wf_world (LED := SpecLedger) disb_db).
Notation dprog := (Flow.prog (wf_call disb_db) unit).
Definition disb_id (w : dworld) : uuid :=
  N.of_nat (1 + size (disbursement_batches (ww_db w)) + 10 * length (policy_decisions (ww_exec w))).
Definition disb_zero : dworld :=
  wf_zero (DisbDb ∅ ∅ {["IDR"]}) {[(5%N, None) := demo_subject]}.
Definition one_payment : dprog * list bool :=
  (logged (Import "bonus.csv" [MkImportRow 5%N (dec_of_Z 700) EmptyString "bonus"] "alice"), []).
Definition approved_by_bob : dprog * list bool := (logged (ApproveBatch 1%N "bob"), []).
Definition pay (retry : bool) : dprog := logged (Run demo_executor 200 1%N retry).
Definition disb_run (ps : list (dprog * list bool)) (w : dworld) : dworld := exec_all (wf_respond 1000 disb_id) ps w.
Definition item_states (w : dworld) : list (string * option uuid) :=
  (fun r => (di_Status r.2, di_PostedTxID r.2)) <$> map_to_list (disbursement_items (ww_db w)).
Definition batch_states (w : dworld) : list string :=
  (fun r => bt_Status r.2) <$> map_to_list (disbursement_batches (ww_db w)).
Notation reaches := (disb_reachable (LED := SpecLedger) demo_executor).
Notation steps := (rtc (sys_step wf_step (disb_entry demo_executor) (wf_env disb_outside))).
Lemma disb_run_steps w ps : Forall (fun pf => disb_entry demo_executor pf.1) ps -> steps (w, []) (disb_run ps w, []).
Proof. apply wf_run_steps. Qed.
Lemma disb_run_reaches ps : Forall (fun pf => disb_entry demo_executor pf.1) ps -> reaches (disb_run ps disb_zero, []).
Proof.
  intros He. exists (disb_zero, []). split; [apply wf_zero_initial; by split|by apply disb_run_steps].
Qed.
Definition approved_payment : list (dprog * list bool) := [one_payment; approved_by_bob].
Definition paid_batch : dworld := disb_run (approved_payment ++ [(pay false, [])]) disb_zero.
Lemma approved_items_are_paid_once_witness :
  reaches (paid_batch, []) /\ (item_states paid_batch, batch_states paid_batch) = ([("posted", Some 100%N)], ["completed"]) /\
  under_key (ww_ledger paid_batch) (disbursementIdempotencyKey 1%N 1) EmptyString 100%N /\
  exists id it r who, disbursement_items (ww_db paid_batch) !! id = Some it /\
    disbursement_batches (ww_db paid_batch) !! 1%N = Some r /\ approved_batch r who /\ who <> bt_CreatedBy r /\
    disbursement_command 1%N it ∈ ww_sent paid_batch.
Proof.
  assert (Hr : reaches (paid_batch, [])) by (apply disb_run_reaches; repeat constructor).
  split; [exact Hr|]. split; [vm_compute; reflexivity|].
  assert (Ht : under_key (ww_ledger paid_batch) (disbursementIdempotencyKey 1%N 1) EmptyString 100%N).
  { split; [vm_compute; reflexivity|]. exists (disbursementIdempotencyKey 1%N 1, EmptyString). vm_compute. reflexivity. }
  split; [exact Ht|].
  destruct (approved_items_are_paid_once demo_executor paid_batch [] paid_batch [] Hr ltac:(reflexivity)) as (H & _).
  destruct (H 1%N 1 100%N ltac:(lia) Ht) as (_ & id & it & r & who & H1 & _ & _ & H2 & H3 & H4 & H5 & _).
  exists id, it, r, who. exact (conj H1 (conj H2 (conj H3 (conj H4 H5)))).
Defined.

(** ** Where the code and its comments part
    A failed item of a batch that was run to its end is not retried: Run asks for a
    batch still processing, and the run that fails its last item completes it. *)
Definition failed_batch : dworld := disb_run (approved_payment ++ [(pay false, replicate 3 false ++ [true])]) disb_zero.
Lemma a_failed_item_is_not_retried :
  reaches (failed_batch, []) /\ (item_states failed_batch, batch_states failed_batch) = ([("failed", None)], ["completed_with_errors"]) /\
  length (ww_sent failed_batch) = 0%nat /\
  forall retry n, (exec (wf_respond 1000 disb_id) (Run demo_executor n 1%N retry) [] failed_batch).1 =
    inl (NewBizErr ErrDisbursementBatchNotApproved "disbursement batch must be approved before it can run").
Proof.
  split; [apply disb_run_reaches; repeat constructor|]. split; [vm_compute; reflexivity|].
  split; [vm_compute; reflexivity|]. intros retry n. vm_compute. reflexivity.
Qed.
(** Two runs of one batch: the slower one's answer is lost after the faster one has
    recorded the payment, and its failure overwrites the posted item. *)
Definition slow_run : dprog * dworld :=
  exec_part (wf_respond 1000 disb_id) 3 (pay false) [] (disb_run approved_payment disb_zero).
Definition fast_run : dworld := (exec (wf_respond 1000 disb_id) (pay false) [] slow_run.2).2.
Definition overwritten : dworld := (exec (wf_respond 1000 disb_id) slow_run.1 [true] fast_run).2.
Lemma a_late_run_unposts_an_item :
  reaches (overwritten, []) /\
  (item_states fast_run, batch_states fast_run) = ([("posted", Some 100%N)], ["completed"]) /\
  (item_states overwritten, batch_states overwritten) = ([("failed", Some 100%N)], ["completed_with_errors"]).
Proof.
  split; [|split; vm_compute; reflexivity].
  exists (disb_zero, []). split; [apply wf_zero_initial; by split|]. etransitivity.
  { apply (disb_run_steps disb_zero approved_payment). repeat constructor. }
  assert (Hd : disb_entry demo_executor (pay false)) by constructor.
  eapply rtc_l; [apply ss_start, Hd|]. etransitivity.
  { apply (exec_part_steps _ _ (wf_respond_step 1000 disb_id) _ _ 3 (pay false) [] (disb_run approved_payment disb_zero) []). }
  eapply rtc_l; [apply ss_start, Hd|]. etransitivity.
  { apply (exec_steps _ _ (wf_respond_step 1000 disb_id) _ _ (pay false) []). }
  eapply rtc_l; [apply (ss_stop _ _ _ _ [] _ [slow_run.1])|]. etransitivity.
  { apply (exec_steps _ _ (wf_respond_step 1000 disb_id) _ _ slow_run.1 [true] fast_run []). }
  apply rtc_once, (ss_stop _ _ _ _ [] _ []).
Qed.
