(* ===== verification/SchedulePlan.v ===== *)
(** * When a schedule runs: services/ledger/internal/ledger/schedule/policy.go

    The missed-run policy of a schedule and the planner that turns a range of time
    into the dates to run and the dates to skip, with what it promises: the dates due
    in the range, each once and in order, the newest of them planned, at most seven.
    A date is the instant of its midnight in the schedule's location. *)
From Stdlib Require Import Ascii String.
From stdpp Require Import prelude strings list sorting.
From S2P Require Import Prelude Decimal Errors Currency Events Calendar.
Open Scope Z_scope.

Record ScheduledPolicy := MkPolicy {
  po_MissedRunPolicy : string; po_CatchUpLimit : Z; po_MaxInfrastructureAttempts : Z; po_RetryWindowSeconds : Z;
  po_ConsecutiveFailureThreshold : Z; po_FeeMode : string; po_MaxFeeAmount : option Z }.
Definition defaultCatchUpLimit : Z := 7.
Definition defaultInfrastructureAttempts : Z := 5.
Definition defaultRetryWindowSeconds : Z := 24 * 60 * 60.
Definition defaultFailureThreshold : Z := 3.
Definition maximumCatchUpLimit : Z := 7.
Definition maximumInfrastructureAttempts : Z := 20.
Definition maximumFailureThreshold : Z := 20.
Definition maximumSchedulePlanningHorizon : nat := 3660.
Definition defaultScheduleLocalTime : Z := 30.       (* 00:30, in minutes *)
Definition consentCapMode : string := "current_policy_with_consent_cap".

Definition DefaultPolicy (kind : string) : ScheduledPolicy :=
  MkPolicy (if bool_decide (kind = "daily") then "skip" else "run_once_latest") defaultCatchUpLimit
    defaultInfrastructureAttempts defaultRetryWindowSeconds defaultFailureThreshold consentCapMode None.
Definition or_text (s default : string) : string := if bool_decide (s = EmptyString) then default else s.
Definition or_number (n default : Z) : Z := if n =? 0 then default else n.
Definition NormalizePolicy (kind : string) (p : ScheduledPolicy) : error + ScheduledPolicy :=
  let defaults := DefaultPolicy kind in
  let p := MkPolicy (or_text (po_MissedRunPolicy p) (po_MissedRunPolicy defaults))
             (or_number (po_CatchUpLimit p) (po_CatchUpLimit defaults))
             (or_number (po_MaxInfrastructureAttempts p) (po_MaxInfrastructureAttempts defaults))
             (or_number (po_RetryWindowSeconds p) (po_RetryWindowSeconds defaults))
             (or_number (po_ConsecutiveFailureThreshold p) (po_ConsecutiveFailureThreshold defaults))
             (or_text (po_FeeMode p) (po_FeeMode defaults)) (po_MaxFeeAmount p) in
  let invalid msg := inl (wrapf ErrValidation msg) in
  if negb (bool_decide (po_MissedRunPolicy p ∈ ["skip"; "run_once_latest"; "catch_up_bounded"])) then
    invalid "invalid missed_run_policy"
  else if (po_CatchUpLimit p <? 0) || (maximumCatchUpLimit <? po_CatchUpLimit p) then
    invalid "catch_up_limit must be between 0 and 7"
  else if bool_decide (po_MissedRunPolicy p = "catch_up_bounded") && (po_CatchUpLimit p =? 0) then
    invalid "catch_up_bounded requires catch_up_limit"
  else if (po_MaxInfrastructureAttempts p <? 1) || (maximumInfrastructureAttempts <? po_MaxInfrastructureAttempts p) then
    invalid "max_infrastructure_attempts must be between 1 and 20"
  else if po_RetryWindowSeconds p <? 1 then invalid "retry_window_seconds must be positive"
  else if (po_ConsecutiveFailureThreshold p <? 1) || (maximumFailureThreshold <? po_ConsecutiveFailureThreshold p) then
    invalid "consecutive_failure_threshold must be between 1 and 20"
  else if match po_MaxFeeAmount p with Some cap => cap <? 0 | None => false end then
    invalid "max_fee_amount cannot be negative"
  else if negb (bool_decide (po_FeeMode p = po_FeeMode defaults)) then invalid "unsupported fee_mode"
  else inr p.

(** ** The planner *)
Record OccurrencePlan := MkPlan { pl_Planned : list Z; pl_Skipped : list Z }.
Definition dateIn (value : Z) (loc : Location) : Z := from_local loc (local_day loc value * Day).
Definition date_at (loc : Location) (t : Z) : date := date_of_day (local_day loc t).
(** One element per round of the loop, [room] of them at most. *)
Fixpoint daily_dates (room : nat) (loc : Location) (end_ cursor : Z) : list Z :=
  match room with
  | O => []
  | S room => if end_ <? cursor then [] else cursor :: daily_dates room loc end_ (AddDate 0 0 1 loc cursor)
  end.
(** Only the first and the last round can add nothing, so the loop ends within two
    rounds more than it has room for. *)
Fixpoint monthly_dates (rounds room : nat) (loc : Location) (start end_ day cursor : Z) : list Z :=
  match rounds, room with
  | S rounds, S room' =>
      if end_ <? cursor then []
      else
        let c := date_at loc cursor in
        let candidate := Date (d_year c) (d_month c) day 0 loc in
        let next := AddDate 0 1 0 loc cursor in
        if negb (candidate <? start) && negb (end_ <? candidate)
        then candidate :: monthly_dates rounds room' loc start end_ day next
        else monthly_dates rounds room loc start end_ day next
  | _, _ => []
  end.
Definition first_of_month (loc : Location) (t : Z) : Z := Date (d_year (date_at loc t)) (d_month (date_at loc t)) 1 0 loc.
Definition bad_day_of_month (dayOfMonth : option Z) : bool :=
  match dayOfMonth with Some day => (day <? 1) || (28 <? day) | None => true end.
Definition candidate_dates (kind : string) (loc : Location) (start end_ : Z) (dayOfMonth : option Z) : option (list Z) :=
  if bool_decide (kind = "once") then Some [start]
  else if bool_decide (kind = "daily") then Some (daily_dates maximumSchedulePlanningHorizon loc end_ start)
  else if bool_decide (kind = "monthly") then
    Some (monthly_dates (maximumSchedulePlanningHorizon + 2) maximumSchedulePlanningHorizon loc start end_
            (default 0 dayOfMonth) (first_of_month loc start))
  else None.
(** dates[:len-n] and dates[len-n:] *)
Definition split_last (n : nat) (dates : list Z) : OccurrencePlan :=
  MkPlan (drop (length dates - n) dates) (take (length dates - n) dates).
Definition select_dates (p : ScheduledPolicy) (end_ : Z) (dates : list Z) : error + OccurrencePlan :=
  if bool_decide (po_MissedRunPolicy p = "skip") then
    if bool_decide (last dates = Some end_) then inr (split_last 1 dates) else inr (MkPlan [] dates)
  else if bool_decide (po_MissedRunPolicy p = "run_once_latest") then inr (split_last 1 dates)
  else if bool_decide (po_MissedRunPolicy p = "catch_up_bounded") then
    inr (split_last (Nat.min (Z.to_nat (po_CatchUpLimit p)) (length dates)) dates)
  else inl (wrapf ErrValidation "unsupported missed_run_policy").
Definition PlanMissed (kind : string) (startDate asOf : Z) (dayOfMonth : option Z) (policy : ScheduledPolicy)
    (loc : Location) : error + OccurrencePlan :=
  match NormalizePolicy kind policy with
  | inl err => inl err
  | inr policy =>
      let start := dateIn startDate loc in
      let end_ := dateIn asOf loc in
      if end_ <? start then inr (MkPlan [] [])
      else if bool_decide (kind = "monthly") && bad_day_of_month dayOfMonth then
        inl (wrapf ErrValidation "monthly schedule day_of_month must be between 1 and 28")
      else match candidate_dates kind loc start end_ dayOfMonth with
      | None => inl (wrapf ErrValidation "unknown schedule kind")
      | Some [] => inr (MkPlan [] [])
      | Some dates => select_dates policy end_ dates
      end
  end.

(** ** Instants and keys of an occurrence *)
Definition clock_digit (c : ascii) : Z := Z.of_nat (nat_of_ascii c) - 48.
(** time.Parse("15:04", s), in minutes: an hour of one or two digits, a minute of two. *)
Definition parse_minute (hour : Z) (s : string) : option Z :=
  match s with
  | String ":" (String a (String b EmptyString)) =>
      if is_digit a && is_digit b && (hour <? 24) && (10 * clock_digit a + clock_digit b <? 60)
      then Some (hour * 60 + (10 * clock_digit a + clock_digit b)) else None
  | _ => None
  end.
Definition parse_clock (s : string) : option Z :=
  match s with
  | String a (String b rest) =>
      if negb (is_digit a) then None
      else if is_digit b then parse_minute (10 * clock_digit a + clock_digit b) rest
      else parse_minute (clock_digit a) (String b rest)
  | _ => None
  end.
(** The local time of a row is a TIME: it always parses. *)
Definition OccurrenceTime (localDate : Z) (localTime : Z) (loc : Location) : Z :=
  from_local loc (local_day loc (dateIn localDate loc) * Day + localTime * Minute).
Definition OccurrenceIdempotencyKey `{UT : !UuidText} (scheduleID : uuid) (localDay : Z) : string :=
  "sched:" +:+ (uuid_string scheduleID +:+ (":" +:+ date_text localDay)).
Definition containsDate (dates : list Z) (candidate : Z) : bool := existsb (Z.eqb candidate) dates.

(** ** The calendar by months since March of year 0 *)
Lemma day_of_date_march y m d (n := 12 * y + m - 3) :
  day_of_date y m d = 365 * (n / 12) + n / 12 / 4 - n / 12 / 100 + n / 12 / 400 + (153 * (n mod 12) + 2) / 5 + d - 1 - 719468.
Proof.
  unfold day_of_date, n. cbv zeta.
  set (y1 := y + (m - 1) / 12). set (m1 := (m - 1) mod 12 + 1).
  assert (Hm : 1 <= m1 <= 12) by (unfold m1; Z.to_euclidean_division_equations; lia).
  assert (E : 12 * y + m - 3 = 12 * y1 + m1 - 3) by (unfold y1, m1; Z.to_euclidean_division_equations; lia).
  rewrite E. destruct (Z.leb_spec m1 2).
  - replace ((12 * y1 + m1 - 3) / 12) with (y1 - 1) by (Z.to_euclidean_division_equations; lia).
    replace ((12 * y1 + m1 - 3) mod 12) with ((m1 + 9) mod 12) by (Z.to_euclidean_division_equations; lia).
    set (q := (153 * _ + 2) / 5). Z.to_euclidean_division_equations. lia.
  - replace ((12 * y1 + m1 - 3) / 12) with y1 by (Z.to_euclidean_division_equations; lia).
    replace ((12 * y1 + m1 - 3) mod 12) with ((m1 + 9) mod 12) by (Z.to_euclidean_division_equations; lia).
    set (q := (153 * _ + 2) / 5). Z.to_euclidean_division_equations. lia.
Qed.
Lemma year_of_day yoe doy (doe := yoe * 365 + yoe / 4 - yoe / 100 + doy) : 0 <= yoe < 400 -> 0 <= doy <= 364 ->
  0 <= doe < 146097 /\ (doe - doe / 1460 + doe / 36524 - doe / 146096) / 365 = yoe.
Proof. intros H1 H2. unfold doe. split; Z.to_euclidean_division_equations; lia. Qed.
(** A date whose day every month has is the date of its day. *)
Lemma date_of_day_of_date y m d : 1 <= m <= 12 -> 1 <= d <= 28 -> date_of_day (day_of_date y m d) = MkDate y m d.
Proof.
  intros Hm Hd. unfold date_of_day. cbv zeta. rewrite day_of_date_march. set (n := 12 * y + m - 3).
  assert (Hp : 0 <= n mod 12 < 12) by (apply Z.mod_pos_bound; lia).
  assert (Hn : n = 12 * (n / 12) + n mod 12) by (apply Z.div_mod; lia).
  set (Y := n / 12) in *. set (mp := n mod 12) in *. set (doy := (153 * mp + 2) / 5 + (d - 1)).
  assert (Hdoy : 0 <= doy <= 364) by (unfold doy; Z.to_euclidean_division_equations; lia).
  destruct (year_of_day (Y mod 400) doy ltac:(apply Z.mod_pos_bound; lia) Hdoy) as [Hdoe Hyoe]. cbv zeta in Hdoe, Hyoe.
  set (doe := Y mod 400 * 365 + Y mod 400 / 4 - Y mod 400 / 100 + doy) in *.
  assert (E : 365 * Y + Y / 4 - Y / 100 + Y / 400 + (153 * mp + 2) / 5 + d - 1 - 719468 + 719468 = doe + Y / 400 * 146097).
  { unfold doe, doy. set (q := (153 * mp + 2) / 5). Z.to_euclidean_division_equations. lia. }
  rewrite E, Z.div_add, Z.mod_add, (Z.div_small doe), (Z.mod_small doe) by lia. rewrite Hyoe.
  assert (Edoy : doe - (365 * (Y mod 400) + Y mod 400 / 4 - Y mod 400 / 100) = doy) by (unfold doe; lia). rewrite Edoy.
  assert (Emp : (5 * doy + 2) / 153 = mp) by (unfold doy; Z.to_euclidean_division_equations; lia). rewrite Emp.
  assert (EY : Y mod 400 + (0 + Y / 400) * 400 = Y) by (Z.to_euclidean_division_equations; lia).
  unfold n in Hn. assert (Hc : m <= 2 /\ mp = m + 9 /\ Y = y - 1 \/ 2 < m /\ mp = m - 3 /\ Y = y) by lia.
  rewrite EY. replace (doy - (153 * mp + 2) / 5 + 1) with d by (unfold doy; lia).
  destruct Hc as [(H & Hmp & HY)|(H & Hmp & HY)].
  - rewrite (proj2 (Z.ltb_ge mp 10)), (proj2 (Z.leb_le (mp - 9) 2)) by lia. f_equal; lia.
  - rewrite (proj2 (Z.ltb_lt mp 10)), (proj2 (Z.leb_gt (mp + 3) 2)) by lia. f_equal; lia.
Qed.
(** Months in a row: [day_in_month n d] is the [d]th of the [n]th month. *)
Definition month_of_day (z : Z) : Z := 12 * d_year (date_of_day z) + (d_month (date_of_day z) - 1).
Definition day_in_month (n d : Z) : Z := day_of_date (n / 12) (n mod 12 + 1) d.
Lemma day_of_month y m d : day_of_date y m d = day_in_month (12 * y + (m - 1)) d.
Proof.
  unfold day_in_month. rewrite !day_of_date_march.
  replace (12 * ((12 * y + (m - 1)) / 12) + ((12 * y + (m - 1)) mod 12 + 1) - 3) with (12 * y + m - 3); [done|].
  Z.to_euclidean_division_equations. lia.
Qed.
Lemma date_in_month n d : 1 <= d <= 28 -> date_of_day (day_in_month n d) = MkDate (n / 12) (n mod 12 + 1) d.
Proof. intros H. apply date_of_day_of_date; [|done]. pose proof (Z.mod_pos_bound n 12). lia. Qed.
Lemma month_grows n d : day_in_month n d + 28 <= day_in_month (n + 1) d.
Proof.
  unfold day_in_month. rewrite !day_of_date_march.
  replace (12 * (n / 12) + (n mod 12 + 1) - 3) with (n - 2) by (Z.to_euclidean_division_equations; lia).
  replace (12 * ((n + 1) / 12) + ((n + 1) mod 12 + 1) - 3) with (n - 2 + 1) by (Z.to_euclidean_division_equations; lia).
  set (k := n - 2). assert (H : k mod 12 = 11 /\ (k + 1) mod 12 = 0 /\ (k + 1) / 12 = k / 12 + 1 \/
    0 <= k mod 12 < 11 /\ (k + 1) mod 12 = k mod 12 + 1 /\ (k + 1) / 12 = k / 12) by (Z.to_euclidean_division_equations; lia).
  destruct H as [(-> & -> & ->)|(? & -> & ->)]; set (Y := k / 12); [|set (mp := k mod 12) in *];
    Z.to_euclidean_division_equations; lia.
Qed.
Lemma month_le n n' d : n <= n' -> day_in_month n d + 28 * (n' - n) <= day_in_month n' d.
Proof.
  intros H. pattern n'. apply Z.right_induction with (z := n); [solve_proper| |intros m Hm IH|exact H].
  - lia.
  - rewrite <- Z.add_1_r. pose proof (month_grows m d). lia.
Qed.
Lemma later_in_month n d : day_in_month n d = day_in_month n 1 + (d - 1).
Proof. unfold day_in_month. rewrite !day_of_date_march. lia. Qed.
Lemma own_month z : z = day_in_month (month_of_day z) (d_day (date_of_day z)).
Proof. unfold month_of_day. rewrite <- day_of_month. symmetry. apply day_of_date_of_day. Qed.
Lemma month_start_before z : day_in_month (month_of_day z) 1 <= z.
Proof.
  pose proof (own_month z). pose proof (later_in_month (month_of_day z) (d_day (date_of_day z))).
  destruct (date_of_day_bounds z). lia.
Qed.
Lemma day_at_most z : d_day (date_of_day z) <= 366.
Proof.
  unfold date_of_day. cbv zeta. cbn [d_day].
  pose proof (Z.mod_pos_bound (z + 719468) 146097 ltac:(lia)) as Hdoe.
  set (doe := (z + 719468) mod 146097) in *. destruct (year_of_era doe Hdoe) as [_ Hd].
  set (yoe := (doe - doe / 1460 + _ - _) / 365) in *. set (doy := doe - (365 * yoe + yoe / 4 - yoe / 100)) in *.
  Z.to_euclidean_division_equations. lia.
Qed.
Lemma month_of_day_in_month n d : 1 <= d <= 28 -> month_of_day (day_in_month n d) = n.
Proof. intros H. unfold month_of_day. rewrite date_in_month by done. cbn [d_year d_month]. pose proof (Z.div_mod n 12). lia. Qed.

(** ** Zones without surprises at midnight
    What the planner relies on of a location: no clock change moves a midnight off
    its day or past another midnight.  Every fixed offset, Jakarta's among them, is
    such a zone. *)
Class RegularZone (loc : Location) : Prop := {
  midnight_day d : local_day loc (from_local loc (d * Day)) = d;
  midnight_clock d : local_clock loc (from_local loc (d * Day)) = 0;
  midnight_lt a b : a < b -> from_local loc (a * Day) < from_local loc (b * Day);
}.
#[export] Instance fixed_regular offset : RegularZone (FixedZone offset).
Proof.
  split.
  - intros d. apply fixed_midnight.
  - intros d. unfold local_clock, from_local, FixedZone. rewrite Z.sub_add. by apply Z.mod_mul.
  - intros a b H. unfold from_local, FixedZone, Day, Hour, Minute, Second. lia.
Qed.
Section planner.
Context (loc : Location) `{!RegularZone loc}.
Definition midnight (d : Z) : Z := from_local loc (d * Day).
Lemma midnight_leb a b : (midnight a <? midnight b) = (a <? b).
Proof.
  destruct (Z.ltb_spec a b) as [H|H].
  - apply Z.ltb_lt. by apply midnight_lt.
  - apply Z.ltb_ge. destruct (decide (a = b)) as [->|]; [lia|]. apply Z.lt_le_incl, midnight_lt. lia.
Qed.
Lemma midnight_inj a b : midnight a = midnight b -> a = b.
Proof. unfold midnight. intros E. by rewrite <- (midnight_day a), <- (midnight_day b), E. Qed.
Lemma day_at d : local_day loc (midnight d) = d.
Proof. apply midnight_day. Qed.
Lemma clock_at d : local_clock loc (midnight d) = 0.
Proof. apply midnight_clock. Qed.
Lemma Date_midnight y m d : Date y m d 0 loc = midnight (day_of_date y m d).
Proof. unfold Date, midnight. f_equal. lia. Qed.
Lemma next_day d : AddDate 0 0 1 loc (midnight d) = midnight (d + 1).
Proof.
  unfold AddDate. cbv zeta. rewrite day_at, clock_at, Date_midnight. f_equal. rewrite !Z.add_0_r.
  rewrite <- (day_of_date_of_day d) at 4. rewrite !day_of_date_march. lia.
Qed.
Lemma next_month n : AddDate 0 1 0 loc (midnight (day_in_month n 1)) = midnight (day_in_month (n + 1) 1).
Proof.
  unfold AddDate. cbv zeta. rewrite day_at, clock_at, Date_midnight. f_equal.
  rewrite date_in_month by lia. cbn [d_year d_month d_day]. rewrite day_of_month. f_equal.
  pose proof (Z.div_mod n 12). lia.
Qed.
Lemma date_at_midnight d : date_at loc (midnight d) = date_of_day d.
Proof. unfold date_at. by rewrite day_at. Qed.

(** The days a kind of schedule is due on, from its first day to the last. *)
Definition due_day (kind : string) (dayOfMonth : option Z) (a b d : Z) : Prop :=
  a <= d <= b /\
  (kind = "once" /\ d = a \/ kind = "daily" \/ kind = "monthly" /\ dayOfMonth = Some (d_day (date_of_day d))).
(** Strictly ascending midnights of exactly the days in [P]. *)
Definition lists_days (P : Z -> Prop) (dates : list Z) : Prop :=
  StronglySorted Z.lt dates /\ forall t, t ∈ dates <-> exists d, t = midnight d /\ P d.
Lemma lists_cons (P Q : Z -> Prop) d dates : P d -> (forall x, Q x <-> P x /\ d < x) -> (forall x, P x -> d <= x) ->
  lists_days Q dates -> lists_days P (midnight d :: dates).
Proof.
  intros Hd HQ Hmin [Hs Hin]. split.
  - constructor; [done|]. apply Forall_forall. intros t (x & -> & [_ Hx]%HQ)%Hin. by apply midnight_lt.
  - intros t. rewrite elem_of_cons, Hin. split.
    + intros [->|(x & -> & [Hx _]%HQ)]; eauto.
    + intros (x & -> & Hx). destruct (decide (x = d)) as [->|Hn]; [by left|]. right. exists x. split; [done|].
      apply HQ. split; [done|]. apply Hmin in Hx. lia.
Qed.
Lemma lists_nil (P : Z -> Prop) : (forall x, ~ P x) -> lists_days P [].
Proof. intros H. split; [constructor|]. intros t. rewrite elem_of_nil. split; [done|]. intros (d & _ & Hd). by apply (H d). Qed.
Lemma daily_lists room b a : b - a < Z.of_nat room ->
  lists_days (fun d => a <= d <= b) (daily_dates room loc (midnight b) (midnight a)).
Proof.
  revert a. induction room as [|room IH]; intros a H; [apply lists_nil; intros; lia|]. cbn [daily_dates].
  rewrite midnight_leb. destruct (Z.ltb_spec b a); [apply lists_nil; intros; lia|]. rewrite next_day.
  eapply lists_cons; [lia| | |apply IH; lia]; simpl; intros; lia.
Qed.
Lemma monthly_lists rounds room a b dom n : 1 <= dom <= 28 ->
  b < day_in_month n 1 + 28 * Z.of_nat rounds -> b < day_in_month n 1 + 28 * Z.of_nat room ->
  lists_days (fun d => a <= d <= b /\ exists n', n <= n' /\ d = day_in_month n' dom)
    (monthly_dates rounds room loc (midnight a) (midnight b) dom (midnight (day_in_month n 1))).
Proof.
  intros Hd.
  assert (Hnone : forall n, b < day_in_month n 1 -> forall d, ~ (a <= d <= b /\ exists n', n <= n' /\ d = day_in_month n' dom)).
  { intros k Hb d (? & n' & ? & ->). pose proof (month_le k n' 1 ltac:(done)). pose proof (later_in_month n' dom). lia. }
  revert room n. induction rounds as [|rounds IH]; intros [|room] n H1 H2; try (apply lists_nil, Hnone; lia).
  cbn [monthly_dates]. rewrite midnight_leb. destruct (Z.ltb_spec b (day_in_month n 1)) as [Hb|Hb].
  { by apply lists_nil, Hnone. }
  rewrite date_at_midnight, date_in_month, Date_midnight, next_month by lia. cbn [d_year d_month].
  change (day_of_date (n / 12) (n mod 12 + 1) dom) with (day_in_month n dom). rewrite !midnight_leb.
  pose proof (month_grows n 1) as Hg.
  assert (Hlater : forall n', n < n' -> day_in_month n dom < day_in_month n' dom).
  { intros n' Hn. pose proof (month_le n n' dom ltac:(lia)). lia. }
  destruct (negb _ && negb _) eqn:E.
  - rewrite andb_true_iff, !negb_true_iff, !Z.ltb_ge in E.
    eapply lists_cons; [| | |apply (IH room (n + 1)); lia]; simpl.
    + split; [lia|]. by exists n.
    + intros d. split.
      * intros (? & n' & ? & ->). split; [split; [done|exists n'; split; [lia|done]]|apply Hlater; lia].
      * intros [(? & n' & ? & ->) Hlt]. split; [done|]. exists n'. split; [|done].
        destruct (decide (n = n')) as [->|]; lia.
    + intros d (? & n' & ? & ->). destruct (decide (n = n')) as [->|]; [done|]. apply Z.lt_le_incl, Hlater. lia.
  - assert (Hout : ~ a <= day_in_month n dom <= b).
    { intros Hr. apply not_true_iff_false in E. apply E. rewrite andb_true_iff, !negb_true_iff, !Z.ltb_ge. lia. }
    destruct (IH (S room) (n + 1)) as [Hs Hin]; [lia..|]. split; [done|]. intros t. rewrite Hin.
    split; intros (d & -> & Hr & n' & Hn & ->); exists (day_in_month n' dom).
    + split; [done|]. split; [done|]. exists n'. split; [lia|done].
    + split; [done|]. split; [done|]. exists n'. split; [|done]. destruct (decide (n = n')) as [->|]; [done|lia].
Qed.
Lemma horizon_value : Z.of_nat maximumSchedulePlanningHorizon = 3660.
Proof. vm_compute. reflexivity. Qed.
#[local] Opaque maximumSchedulePlanningHorizon.
Lemma candidates_list kind a b dom : a <= b -> b - a < Z.of_nat maximumSchedulePlanningHorizon ->
  kind ∈ ["once"; "daily"; "monthly"] -> (kind = "monthly" -> bad_day_of_month dom = false) ->
  exists dates, candidate_dates kind loc (midnight a) (midnight b) dom = Some dates /\ lists_days (due_day kind dom a b) dates.
Proof.
  intros Hab Hh Hk Hdom. unfold candidate_dates.
  repeat (apply elem_of_cons in Hk as [->|Hk]); [..|by apply not_elem_of_nil in Hk]; simpl; eexists; (split; [reflexivity|]).
  - eapply lists_cons with (Q := fun _ => False); [| | |apply lists_nil; intros ? []]; unfold due_day; simpl.
    + split; [lia|by left].
    + intros x. split; [done|]. intros [[_ [[_ ->]|[?|[? _]]]] ?]; [lia|done..].
    + intros x [? _]. lia.
  - destruct (daily_lists maximumSchedulePlanningHorizon b a Hh) as [Hs Hin]. split; [done|]. intros t. rewrite Hin.
    split; intros (d & -> & H); exists d; (split; [done|]).
    + split; [exact H|]. right. by left.
    + exact (proj1 H).
  - specialize (Hdom eq_refl). destruct dom as [dom|]; [|done]. simpl in Hdom. apply orb_false_iff in Hdom as [H1 H2].
    apply Z.ltb_ge in H1, H2. unfold first_of_month. rewrite date_at_midnight, Date_midnight, day_of_month.
    change (12 * d_year (date_of_day a) + (d_month (date_of_day a) - 1)) with (month_of_day a).
    pose proof (month_start_before a) as Ha. pose proof (own_month a) as Ea.
    assert (Hm : a <= day_in_month (month_of_day a) 1 + 365).
    { pose proof (later_in_month (month_of_day a) (d_day (date_of_day a))). pose proof (day_at_most a). lia. }
    destruct (monthly_lists (maximumSchedulePlanningHorizon + 2) maximumSchedulePlanningHorizon a b dom (month_of_day a)) as [Hs Hin];
      [pose proof horizon_value; lia..|]. split; [done|]. intros t. simpl default. rewrite Hin. split.
    + intros (d & -> & Hr & n & Hn & ->). eexists. split; [done|]. split; [done|]. right. right.
      rewrite date_in_month by lia. by split.
    + intros (d & -> & Hr & [[? _]|[?|[_ Edom]]]); [done..|]. apply (inj Some) in Edom. subst dom. exists d. split; [done|]. split; [done|].
      exists (month_of_day d). split; [|apply own_month].
      destruct (Z.le_gt_cases (month_of_day a) (month_of_day d)) as [|Hlt]; [done|exfalso].
      pose proof (own_month d) as Ed. pose proof (later_in_month (month_of_day d) (d_day (date_of_day d))).
      pose proof (month_le (month_of_day d) (month_of_day a) 1 ltac:(lia)). lia.
Qed.

(** *** The policy's choice *)
Lemma split_last_parts n dates (p := split_last n dates) :
  pl_Skipped p ++ pl_Planned p = dates /\ length (pl_Planned p) = Nat.min n (length dates).
Proof. split; [apply take_drop|]. simpl. rewrite length_drop. lia. Qed.
Lemma last_of_sorted (dates : list Z) t : StronglySorted Z.lt dates -> t ∈ dates -> (forall u, u ∈ dates -> u <= t) -> last dates = Some t.
Proof.
  induction dates as [|x dates IH]; intros Hs Ht Hmax; [by apply not_elem_of_nil in Ht|].
  apply StronglySorted_inv in Hs as [Hs Hx]. rewrite Forall_forall in Hx. destruct dates as [|y dates].
  - apply list_elem_of_singleton in Ht as ->. done.
  - apply elem_of_cons in Ht as [->|Ht].
    + specialize (Hx y ltac:(left)). specialize (Hmax y ltac:(right; left)). lia.
    + apply (IH Hs Ht). intros u Hu. apply Hmax. by right.
Qed.
Lemma NormalizePolicy_ok kind policy p : NormalizePolicy kind policy = inr p ->
  po_MissedRunPolicy p ∈ ["skip"; "run_once_latest"; "catch_up_bounded"] /\ 0 <= po_CatchUpLimit p <= 7.
Proof.
  unfold NormalizePolicy. cbv zeta. cbn [po_MissedRunPolicy po_CatchUpLimit po_MaxInfrastructureAttempts
    po_RetryWindowSeconds po_ConsecutiveFailureThreshold po_FeeMode po_MaxFeeAmount].
  case_bool_decide as Hm; simpl negb; cbv iota; [|done]. destruct (_ || _) eqn:Ec; [done|].
  repeat (case_match; [done|]). destruct (negb _); [done|]. intros E. apply (inj inr) in E. subst p. cbn [po_MissedRunPolicy po_CatchUpLimit]. split; [done|].
  unfold maximumCatchUpLimit in Ec. lia.
Qed.

Lemma select_dates_ok p b dates (P : Z -> Prop) :
  po_MissedRunPolicy p ∈ ["skip"; "run_once_latest"; "catch_up_bounded"] -> 0 <= po_CatchUpLimit p <= 7 ->
  lists_days P dates -> (forall d, P d -> d <= b) ->
  exists plan, (match dates with [] => inr (MkPlan [] []) | _ => select_dates p (midnight b) dates end) = inr plan /\
    pl_Skipped plan ++ pl_Planned plan = dates /\ (length (pl_Planned plan) <= 7)%nat /\
    (po_MissedRunPolicy p = "skip" -> forall t, t ∈ pl_Planned plan <-> t = midnight b /\ P b) /\
    (po_MissedRunPolicy p = "run_once_latest" -> length (pl_Planned plan) = Nat.min 1 (length dates)) /\
    (po_MissedRunPolicy p = "catch_up_bounded" -> length (pl_Planned plan) = Nat.min (Z.to_nat (po_CatchUpLimit p)) (length dates)).
Proof.
  intros Hm Hc [Hs Hin] Hmax.
  assert (Hb : P b <-> midnight b ∈ dates).
  { rewrite Hin. split; [by exists b|]. by intros (d & <-%midnight_inj & Hd). }
  destruct dates as [|x rest].
  { exists (MkPlan [] []). split_and!; [done|done|simpl; lia| |simpl; lia..]. intros _ t. rewrite Hb, !elem_of_nil. tauto. }
  set (dates := x :: rest) in *. unfold select_dates.
  destruct (split_last_parts 1 dates) as [E1 E2].
  destruct (split_last_parts (Nat.min (Z.to_nat (po_CatchUpLimit p)) (length dates)) dates) as [E3 E4].
  repeat (apply elem_of_cons in Hm as [Hm|Hm]); [..|by apply not_elem_of_nil in Hm]; rewrite Hm.
  - rewrite (bool_decide_true ("skip" = "skip")) by done. case_bool_decide as Hl.
    + eexists. split_and!; [reflexivity|done|rewrite E2; lia| |done..]. intros _ t.
      apply last_Some in Hl as [front Hl]. rewrite Hb, Hl. unfold split_last. cbn [pl_Planned].
      rewrite drop_app_length' by (rewrite length_app; simpl; lia). rewrite list_elem_of_singleton.
      split; [intros ->; split; [done|apply elem_of_app; right; left]|by intros [-> _]].
    + eexists. split_and!; [reflexivity|by rewrite app_nil_r|simpl; lia| |done..]. intros _ t. simpl.
      split; [by intros ?%not_elem_of_nil|]. intros [_ Hd]. destruct Hl. apply last_of_sorted; [done|by apply Hb|].
      intros u (d & -> & Hu)%Hin. apply Hmax in Hu. pose proof (midnight_leb b d) as Hle.
      rewrite (proj2 (Z.ltb_ge b d)) in Hle by done. by apply Z.ltb_ge in Hle.
  - eexists. split_and!; [reflexivity|done|rewrite E2; lia|done|by rewrite E2|done].
  - eexists. split_and!; [reflexivity|done|rewrite E4; lia|done|done|intros _; rewrite E4; lia].
Qed.

(** C33: Missed runs are planned once, and boundedly: of a schedule with a valid policy,
    over any range of less than ten years and in any zone whose clock changes spare
    midnight, the plan holds every date the schedule is due on exactly once, in order,
    skipped dates before planned ones; it plans at most seven: all but today are
    skipped under skip, all but the latest under run_once_latest, all but the latest
    [catch_up_limit] under catch_up_bounded. *)
Theorem missed_runs_are_planned_once kind startDate asOf dom policy p
    (a := local_day loc startDate) (b := local_day loc asOf) :
  NormalizePolicy kind policy = inr p -> kind ∈ ["once"; "daily"; "monthly"] ->
  (kind = "monthly" -> bad_day_of_month dom = false) -> b - a < 3660 ->
  exists plan, PlanMissed kind startDate asOf dom policy loc = inr plan /\
    lists_days (due_day kind dom a b) (pl_Skipped plan ++ pl_Planned plan) /\ (length (pl_Planned plan) <= 7)%nat /\
    let dates := length (pl_Skipped plan ++ pl_Planned plan) in
    (po_MissedRunPolicy p = "skip" -> forall t, t ∈ pl_Planned plan <-> t = midnight b /\ due_day kind dom a b b) /\
    (po_MissedRunPolicy p = "run_once_latest" -> length (pl_Planned plan) = Nat.min 1 dates) /\
    (po_MissedRunPolicy p = "catch_up_bounded" -> length (pl_Planned plan) = Nat.min (Z.to_nat (po_CatchUpLimit p)) dates).
Proof.
  intros Hp Hk Hdom Hh. unfold PlanMissed. rewrite Hp. cbv zeta.
  change (dateIn startDate loc) with (midnight a). change (dateIn asOf loc) with (midnight b). clearbody a b.
  destruct (NormalizePolicy_ok _ _ _ Hp) as [Hm Hc]. rewrite midnight_leb. destruct (Z.ltb_spec b a) as [Hba|Hab].
  { exists (MkPlan [] []). split; [done|]. simpl. assert (Hnone : forall d, ~ due_day kind dom a b d) by (intros d [? _]; lia).
    split; [by apply lists_nil|]. split; [lia|]. split_and!; intros ?; [|lia..]. intros t.
    rewrite elem_of_nil. split; [done|]. intros [_ Hd]. by apply (Hnone b). }
  destruct (candidates_list kind a b dom Hab) as (dates & Ed & Hs & Hin); [by rewrite horizon_value|done|done|].
  replace (bool_decide (kind = "monthly") && bad_day_of_month dom) with false
    by (case_bool_decide; simpl; [by rewrite Hdom|done]). rewrite Ed.
  destruct (select_dates_ok p b dates (due_day kind dom a b)) as (plan & Esel & Eparts & Hlen & Hpol); [done|done|by split|intros d [? _]; lia|].
  exists plan. rewrite Eparts. split; [by destruct dates as [|t dates]|]. split; [by split|]. split; [done|]. exact Hpol.
Qed.
End planner.

(** ** The planner at work *)
Definition WIB : Location := FixedZone (7 * 3600).
Definition catch_up (n : Z) : ScheduledPolicy := MkPolicy "catch_up_bounded" n 0 0 0 EmptyString None.
Definition no_policy : ScheduledPolicy := MkPolicy EmptyString 0 0 0 0 EmptyString None.
(** From 15 January 2024 to 20 April, on the 10th: two of three months are caught up. *)
Definition spring_plan : OccurrencePlan :=
  MkPlan [19792 * Day - 7 * Hour; 19823 * Day - 7 * Hour] [19763 * Day - 7 * Hour].
Lemma missed_runs_are_planned_once_witness :
  PlanMissed "monthly" (19737 * Day) (19833 * Day) (Some 10) (catch_up 2) WIB = inr spring_plan /\
  date_text <$> (local_day WIB <$> pl_Skipped spring_plan) = ["2024-02-10"] /\
  date_text <$> (local_day WIB <$> pl_Planned spring_plan) = ["2024-03-10"; "2024-04-10"] /\
  lists_days WIB (due_day "monthly" (Some 10) (local_day WIB (19737 * Day)) (local_day WIB (19833 * Day)))
    (pl_Skipped spring_plan ++ pl_Planned spring_plan).
Proof.
  assert (Ex : PlanMissed "monthly" (19737 * Day) (19833 * Day) (Some 10) (catch_up 2) WIB = inr spring_plan)
    by (vm_compute; reflexivity).
  destruct (missed_runs_are_planned_once WIB "monthly" (19737 * Day) (19833 * Day) (Some 10) (catch_up 2)
              (MkPolicy "catch_up_bounded" 2 5 86400 3 consentCapMode None)) as (plan & E & H & _).
  - vm_compute. reflexivity.
  - right. right. left.
  - intros _. reflexivity.
  - vm_compute. reflexivity.
  - assert (Ep : plan = spring_plan) by congruence. subst plan.
    split; [exact Ex|]. split; [vm_compute; reflexivity|]. split; [vm_compute; reflexivity|]. exact H.
Defined.
(** A DATE is read as midnight UTC and then taken into the schedule's zone: west of
    Greenwich that is the day before, so a schedule for 15 January runs on the 14th. *)
Lemma a_western_schedule_runs_a_day_early :
  let new_york := FixedZone (-5 * 3600) in
  exists plan, PlanMissed "once" (19737 * Day) (19736 * Day + 12 * Hour) None no_policy new_york = inr plan /\
    date_text 19737 = "2024-01-15" /\ date_text <$> (local_day new_york <$> pl_Planned plan) = ["2024-01-14"].
Proof. eexists. split; [vm_compute; reflexivity|]. split; vm_compute; reflexivity. Qed.
