(* ===== verification/Schedule.v ===== *)
(** * Scheduled transactions: services/ledger/internal/ledger/schedule

    A schedule is a stored command and a rule for its dates.  The durable runner of
    durable.go makes an occurrence of every date the planner of SchedulePlan selects,
    claims it under a lease and posts it under a key of its own; the older runner of
    schedule.go posts what is due today from the schedule's row alone.  Tables of
    migrations 000014 and 000040.  The services are wired as NewModule does: with an
    executor, a fee policy, a transaction lookup and an outbox. *)
From Stdlib Require Import Ascii String QArith.
From stdpp Require Import prelude gmap strings list sorting.
From S2P Require Import Prelude Decimal Errors Currency Events Processors Calendar Flow LedgerService LedgerApi Executor.
From S2P Require Import Workflow SchedulePlan.
Open Scope Z_scope.

(** ** Tables *)
Record ScheduleCommand := MkScheduleCommand {
  sc_Type : string; sc_Version : Z; sc_Amount : string; sc_Currency : string; sc_TargetUserID : uuid;
  sc_PocketCode : string; sc_Metadata : metadata }.
(** The stored payload; [None] is a text no command can be decoded from.  The digests
    PostgreSQL and crypto/md5 compute of its text and of its canonical encoding. *)
Class CommandDigests := {
  text_digest : option ScheduleCommand -> string;
  canonical_digest : option ScheduleCommand -> string }.
Record schedule_terms := ScheduleTerms {
  st_UserID : uuid; st_CmdPayload : option ScheduleCommand; st_ScheduleKind : string; st_RunAtDate : Z;
  st_DayOfMonth : option Z; st_CommandType : string; st_CommandVersion : Z; st_CommandDigest : string; st_CreatedBy : string }.
Record schedule_row := ScheduleRow {
  st_terms : schedule_terms; st_Currency : string; st_Timezone : string; st_LocalTime : Z; st_policy : ScheduledPolicy;
  st_Status : string; st_FailureCount : Z; st_LastPlannedAt : option Z; st_Version : Z; st_PausedReason : option string;
  st_LastRunDate : option Z; st_LastError : option string }.
Record occurrence_row := OccurrenceRow {
  so_ScheduleID : uuid; so_ScheduleVersion : Z; so_ScheduledFor : Z; so_ScheduledLocalDate : Z; so_Status : string;
  so_IdempotencyKey : string; so_PolicySnapshot : ScheduledPolicy; so_FeeAmount : option Z;
  so_LedgerTransactionID : option uuid; so_AttemptCount : Z; so_NextAttemptAt : option Z; so_LeaseOwner : option string;
  so_LeaseExpiresAt : option Z; so_ErrorCode : option string }.
Record attempt_row := AttemptRow {
  sa_Phase : string; sa_Result : string; sa_Retryable : bool; sa_ErrorCode : option string;
  sa_LedgerTransactionID : option uuid; sa_StartedAt : Z; sa_FinishedAt : option Z }.
Inductive schedule_event :=
  | OccurrenceSucceeded (occurrence schedule : uuid) (tx : uuid) (amount fee : string) (at_ : Z)
  | OccurrenceFailed (occurrence schedule : uuid) (status code : string) (retryable : bool) (at_ : Z)
  | SchedulePaused (schedule : uuid) (reason : string) (at_ : Z).
Section tables.
Context `{DEC : !Decimal}.
Record sched_db := SchedDb {
  scheduled_transactions : gmap uuid schedule_row;
  scheduled_occurrences : gmap uuid occurrence_row;
  scheduled_execution_attempts : gmap (uuid * Z) attempt_row;
  sched_outbox : list schedule_event;
  (* feepolicy's answer to a user, a type, a gateway, a currency and an amount *)
  fee_policy : uuid -> string -> string -> string -> dec -> dec * string * bool;
}.
Definition set_schedules d t :=
  SchedDb t (scheduled_occurrences d) (scheduled_execution_attempts d) (sched_outbox d) (fee_policy d).
Definition set_occurrences d t :=
  SchedDb (scheduled_transactions d) t (scheduled_execution_attempts d) (sched_outbox d) (fee_policy d).
Definition set_attempts d t :=
  SchedDb (scheduled_transactions d) (scheduled_occurrences d) t (sched_outbox d) (fee_policy d).
Definition set_sched_outbox d t :=
  SchedDb (scheduled_transactions d) (scheduled_occurrences d) (scheduled_execution_attempts d) t (fee_policy d).

Definition schedule_statuses : list string := ["active"; "paused"; "finished"; "failed"; "blocked"].
Definition schedule_row_ok (r : schedule_row) : bool :=
  let t := st_terms r in let p := st_policy r in
  bool_decide (st_ScheduleKind t ∈ ["once"; "daily"; "monthly"])
  && match st_DayOfMonth t with Some day => (1 <=? day) && (day <=? 28) | None => true end
  && bool_decide (st_Status r ∈ schedule_statuses)
  && bool_decide (po_MissedRunPolicy p ∈ [EmptyString; "skip"; "run_once_latest"; "catch_up_bounded"])
  && (0 <=? po_CatchUpLimit p) && (po_CatchUpLimit p <=? 7)
  && match po_MaxFeeAmount p with Some cap => 0 <=? cap | None => true end
  && (1 <=? po_MaxInfrastructureAttempts p) && (po_MaxInfrastructureAttempts p <=? 20)
  && (0 <? po_RetryWindowSeconds p) && bool_decide (po_FeeMode p = consentCapMode)
  && (1 <=? po_ConsecutiveFailureThreshold p) && (po_ConsecutiveFailureThreshold p <=? 20)
  && (0 <=? st_FailureCount r) && (0 <? st_CommandVersion t).
Definition occurrence_statuses : list string :=
  ["planned"; "due"; "screening"; "ready"; "processing"; "retry_wait"; "succeeded"; "failed_business"; "failed_terminal";
   "blocked"; "skipped_missed"; "skipped_superseded"; "cancelled"; "expired"].
Definition occurrence_ok (o : occurrence_row) : bool :=
  bool_decide (so_Status o ∈ occurrence_statuses) && match so_FeeAmount o with Some fee => 0 <=? fee | None => true end
  && (0 <=? so_AttemptCount o).
(** UPDATE ... WHERE id = $1 AND guard: the rows changed. *)
Definition write_schedule (id : uuid) (guard : schedule_row -> bool) (f : schedule_row -> schedule_row) (d : sched_db)
    : error + (Z * sched_db) :=
  match scheduled_transactions d !! id with
  | Some r =>
      if negb (guard r) then inr (0, d)
      else if schedule_row_ok (f r) then inr (1, set_schedules d (<[id := f r]> (scheduled_transactions d)))
      else inl pg_check
  | None => inr (0, d)
  end.
Definition write_occurrence (id : uuid) (guard : occurrence_row -> bool) (f : occurrence_row -> occurrence_row) (d : sched_db)
    : error + (Z * sched_db) :=
  match scheduled_occurrences d !! id with
  | Some o =>
      if negb (guard o) then inr (0, d)
      else if occurrence_ok (f o) then inr (1, set_occurrences d (<[id := f o]> (scheduled_occurrences d)))
      else inl pg_check
  | None => inr (0, d)
  end.
Definition always {R} : R -> bool := fun _ => true.
Definition exec_write (ctx : string) (w : sched_db -> error + (Z * sched_db)) : wf_query sched_db unit := fun _ d =>
  let~ (_, d) := wrap_query ctx (w d) in inr (tt, d).

(** *** scheduled_transaction_repository.go *)
Definition with_state (r : schedule_row) (status : string) (count : Z) (reason : option string) (last : option Z)
    (err : option string) (bump : Z) : schedule_row :=
  ScheduleRow (st_terms r) (st_Currency r) (st_Timezone r) (st_LocalTime r) (st_policy r) status count
    (st_LastPlannedAt r) (st_Version r + bump) reason last err.
Definition with_policy (r : schedule_row) (currency timezone : string) (localTime : Z) (p : ScheduledPolicy) : schedule_row :=
  ScheduleRow (st_terms r) currency timezone localTime p (st_Status r) (st_FailureCount r) (st_LastPlannedAt r)
    (st_Version r + 1) (st_PausedReason r) (st_LastRunDate r) (st_LastError r).
Definition new_schedule `{DG : !CommandDigests} (userID : uuid) (payload : ScheduleCommand) (kind : string) (runAtDate : Z)
    (dayOfMonth : option Z) (createdBy : string) : schedule_row :=
  ScheduleRow (ScheduleTerms userID (Some payload) kind runAtDate dayOfMonth (sc_Type payload) 1
                 (text_digest (Some payload)) createdBy)
    EmptyString "Asia/Jakarta" defaultScheduleLocalTime
    (MkPolicy (if bool_decide (kind = "daily") then "skip" else "run_once_latest") 0 5 86400 3 consentCapMode None)
    "active" 0 None 1 None None None.
Definition Schedule_Create `{DG : !CommandDigests} (id userID : uuid) (payload : ScheduleCommand) (kind : string)
    (runAtDate : Z) (dayOfMonth : option Z) (createdBy : string) : wf_query sched_db unit := fun _ d =>
  let r := new_schedule userID payload kind runAtDate dayOfMonth createdBy in
  if bool_decide (is_Some (scheduled_transactions d !! id)) then inl (Wrap "create scheduled transaction" pg_unique)
  else if schedule_row_ok r then inr (tt, set_schedules d (<[id := r]> (scheduled_transactions d)))
  else inl (Wrap "create scheduled transaction" pg_check).
Definition UpdatePolicy (id : uuid) (p : ScheduledPolicy) (currency timezone : string) (localTime : option Z)
    : wf_query sched_db unit :=
  exec_write "update scheduled transaction C5 policy" (write_schedule id always (fun r =>
    with_policy r currency (or_text timezone "Asia/Jakarta") (default defaultScheduleLocalTime localTime) p)).
Definition GetByID (id : uuid) : wf_query sched_db schedule_row := fun _ d =>
  match scheduled_transactions d !! id with
  | Some r => inr (r, d)
  | None => inl (wrapf ErrScheduledTransactionNotFound EmptyString)
  end.
(** The day of asOf's date. *)
Definition due_today (today : Z) (r : schedule_row) : bool :=
  let t := st_terms r in
  bool_decide (st_Status r = "active") && (st_RunAtDate t <=? today)
  && match st_LastRunDate r with Some day => day <? today | None => true end
  && (bool_decide (st_ScheduleKind t ∈ ["once"; "daily"])
      || bool_decide (st_ScheduleKind t = "monthly") && bool_decide (st_DayOfMonth t = Some (d_day (date_of_day today)))).
Definition id_le (a b : uuid * schedule_row) : Prop := (a.1 <= b.1)%N.
#[export] Instance id_le_dec : RelDecision id_le.
Proof. intros a b. unfold id_le. apply _. Defined.
Definition schedules_by_id (P : schedule_row -> bool) (d : sched_db) : list (uuid * schedule_row) :=
  merge_sort id_le (rows_where (fun _ => P) (scheduled_transactions d)).
Definition ListDue (today : Z) : wf_query sched_db (list (uuid * schedule_row)) := wf_read (schedules_by_id (due_today today)).
Definition ListAllActive : wf_query sched_db (list (uuid * schedule_row)) :=
  wf_read (schedules_by_id (fun r => bool_decide (st_Status r = "active"))).
Definition MarkSuccess (id : uuid) (today : Z) (finish : bool) : wf_query sched_db unit :=
  exec_write "mark scheduled transaction success" (write_schedule id always (fun r =>
    with_state r (if finish then "finished" else "active") (st_FailureCount r) (st_PausedReason r) (Some today) None 0)).
Definition MarkBusinessFailure (id : uuid) (errMsg : string) (terminal : bool) : wf_query sched_db unit :=
  exec_write (if terminal then "mark scheduled transaction failed" else "mark scheduled transaction business failure") (write_schedule id always (fun r =>
    with_state r (if terminal then "failed" else st_Status r) (st_FailureCount r) (st_PausedReason r) (st_LastRunDate r)
      (Some errMsg) 0)).
Definition transition_query (ctx : string) (from : list string) (f : schedule_row -> schedule_row) (id : uuid)
    : wf_query sched_db Z := fun _ d =>
  wrap_query ctx (write_schedule id (fun r => bool_decide (st_Status r ∈ from)) f d).
Definition repo_Pause : uuid -> wf_query sched_db Z :=
  transition_query "pause scheduled transaction" ["active"] (fun r =>
    with_state r "paused" (st_FailureCount r) (st_PausedReason r) (st_LastRunDate r) (st_LastError r) 0).
Definition repo_Resume : uuid -> wf_query sched_db Z :=
  transition_query "resume scheduled transaction" ["paused"; "blocked"] (fun r =>
    with_state r "active" 0 None (st_LastRunDate r) None 1).
Definition repo_Cancel : uuid -> wf_query sched_db Z :=
  transition_query "cancel scheduled transaction" ["active"; "paused"] (fun r =>
    with_state r "finished" (st_FailureCount r) (st_PausedReason r) (st_LastRunDate r) (st_LastError r) 0).

(** *** schedule_repository.go *)
Definition with_run (o : occurrence_row) (status : string) (tx : option uuid) (attempts : Z) (next : option Z)
    (owner : option string) (expires : option Z) (code : option string) : occurrence_row :=
  OccurrenceRow (so_ScheduleID o) (so_ScheduleVersion o) (so_ScheduledFor o) (so_ScheduledLocalDate o) status
    (so_IdempotencyKey o) (so_PolicySnapshot o) (so_FeeAmount o) tx attempts next owner expires code.
Definition with_fee (o : occurrence_row) (fee : Z) : occurrence_row :=
  OccurrenceRow (so_ScheduleID o) (so_ScheduleVersion o) (so_ScheduledFor o) (so_ScheduledLocalDate o) (so_Status o)
    (so_IdempotencyKey o) (so_PolicySnapshot o) (Some fee) (so_LedgerTransactionID o) (so_AttemptCount o)
    (so_NextAttemptAt o) (so_LeaseOwner o) (so_LeaseExpiresAt o) (so_ErrorCode o).
Definition same_slot (schedule : uuid) (scheduledFor : Z) (o : occurrence_row) : bool :=
  bool_decide (so_ScheduleID o = schedule) && (so_ScheduledFor o =? scheduledFor).
Definition any_occurrence (P : occurrence_row -> bool) (d : sched_db) : bool :=
  existsb (fun kr => P kr.2) (map_to_list (scheduled_occurrences d)).
(** INSERT ... ON CONFLICT (schedule_id, scheduled_for) DO NOTHING *)
Definition insert_occurrence (id : uuid) (o : occurrence_row) : wf_query sched_db unit := fun _ d =>
  wrap_query "create scheduled occurrence"
    (if negb (occurrence_ok o) then inl pg_check
     else if any_occurrence (same_slot (so_ScheduleID o) (so_ScheduledFor o)) d then inr (tt, d)
     else if bool_decide (is_Some (scheduled_occurrences d !! id))
             || any_occurrence (fun o' => bool_decide (so_IdempotencyKey o' = so_IdempotencyKey o)) d then inl pg_unique
     else if negb (bool_decide (is_Some (scheduled_transactions d !! so_ScheduleID o))) then inl pg_foreign
     else inr (tt, set_occurrences d (<[id := o]> (scheduled_occurrences d)))).
Definition select_occurrence (schedule : uuid) (scheduledFor : Z) : wf_query sched_db (uuid * occurrence_row) := fun _ d =>
  match head (rows_where (fun _ => same_slot schedule scheduledFor) (scheduled_occurrences d)) with
  | Some row => inr (row, d)
  | None => inl (Wrap "read scheduled occurrence after create" ErrNoRows)
  end.
Definition Occurrence_Get (id : uuid) : wf_query sched_db occurrence_row := fun _ d =>
  match scheduled_occurrences d !! id with
  | Some o => inr (o, d)
  | None => inl (Wrap "scheduled occurrence" ErrNoRows)
  end.
(** ORDER BY o.scheduled_for DESC, o.id DESC *)
Definition newer (a b : uuid * occurrence_row) : Prop :=
  so_ScheduledFor b.2 < so_ScheduledFor a.2 \/ so_ScheduledFor b.2 = so_ScheduledFor a.2 /\ (b.1 <= a.1)%N.
#[export] Instance newer_dec : RelDecision newer.
Proof. intros a b. unfold newer. apply _. Defined.
Definition Occurrence_List (schedule userID : uuid) (limit offset : Z) : wf_query sched_db (list (uuid * occurrence_row)) :=
  let limit := if (limit <=? 0) || (500 <? limit) then 100 else limit in
  let offset := Z.max 0 offset in
  wf_read (fun d =>
    let owned := bool_decide (userID = uuid_Nil)
                 || match scheduled_transactions d !! schedule with
                    | Some r => bool_decide (st_UserID (st_terms r) = userID) | None => false end in
    take (Z.to_nat limit) (drop (Z.to_nat offset)
      (merge_sort newer (rows_where (fun _ o => bool_decide (so_ScheduleID o = schedule) && owned) (scheduled_occurrences d))))).
Definition claimable_occurrence (now : Z) (o : occurrence_row) : bool :=
  bool_decide (so_Status o ∈ ["planned"; "due"; "ready"; "retry_wait"])
    && match so_NextAttemptAt o with Some at_ => at_ <=? now | None => true end
  || bool_decide (so_Status o = "processing") && match so_LeaseExpiresAt o with Some at_ => at_ <? now | None => false end.
Definition claim_occurrence (id : uuid) (owner : string) (now : Z) : wf_query sched_db occurrence_row := fun _ d =>
  let f o := with_run o "processing" (so_LedgerTransactionID o) (so_AttemptCount o + 1) (so_NextAttemptAt o) (Some owner)
               (Some (now + 2 * Minute)) (so_ErrorCode o) in
  match scheduled_occurrences d !! id with
  | Some o =>
      if claimable_occurrence now o then
        let~ (_, d) := write_occurrence id always f d in inr (f o, d)
      else inl ErrNoRows
  | None => inl ErrNoRows
  end.
Definition set_attempts_where (P : uuid * Z -> attempt_row -> bool) (f : attempt_row -> attempt_row) (d : sched_db) : sched_db :=
  set_attempts d (map_imap (fun k a => Some (if P k a then f a else a)) (scheduled_execution_attempts d)).
Definition unfinished (a : attempt_row) : bool := bool_decide (sa_FinishedAt a = None).
Definition close_attempts (id : uuid) (now count : Z) : wf_query sched_db unit := fun _ d =>
  inr (tt, set_attempts_where (fun k a => bool_decide (k.1 = id) && (k.2 <? count) && unfinished a)
    (fun a => AttemptRow (sa_Phase a) "lease_expired" true (Some "LEASE_EXPIRED") (sa_LedgerTransactionID a) (sa_StartedAt a)
                (Some now)) d).
Definition RecordAttempt (id : uuid) (number : Z) (a : attempt_row) : wf_query sched_db unit := fun _ d =>
  wrap_query "record scheduled execution attempt"
    (if number <=? 0 then inl pg_check
     else if negb (bool_decide (is_Some (scheduled_occurrences d !! id))) then inl pg_foreign
     else
       let started := match scheduled_execution_attempts d !! (id, number) with
                      | Some old => sa_StartedAt old | None => sa_StartedAt a end in
       inr (tt, set_attempts d (<[(id, number) := AttemptRow (sa_Phase a) (sa_Result a) (sa_Retryable a) (sa_ErrorCode a)
                                    (sa_LedgerTransactionID a) started (sa_FinishedAt a)]> (scheduled_execution_attempts d)))).
Definition FinishAttempt (id : uuid) (finishedAt : Z) (result : string) (retryable : bool) (code : string) (tx : option uuid)
    : wf_query sched_db unit := fun _ d =>
  inr (tt, set_attempts_where (fun k a => bool_decide (k.1 = id) && unfinished a)
    (fun a => AttemptRow (sa_Phase a) result retryable (nullString code) tx (sa_StartedAt a) (Some finishedAt)) d).
Definition Occurrence_SetStatus (id : uuid) (status code : string) (next : option Z) (tx : option uuid) : wf_query sched_db unit :=
  exec_write "set scheduled occurrence status" (write_occurrence id always (fun o =>
    with_run o status (match tx with Some _ => tx | None => so_LedgerTransactionID o end) (so_AttemptCount o) next None None
      (nullString code))).
Definition if_active {A} (r : schedule_row) (yes no : A) : A := if bool_decide (st_Status r = "active") then yes else no.
Definition RecordScheduleSuccess (id : uuid) : wf_query sched_db unit :=
  exec_write "record scheduled success" (write_schedule id always (fun r =>
    with_state r (st_Status r) (if_active r 0 (st_FailureCount r)) (if_active r None (st_PausedReason r)) (st_LastRunDate r)
      (if_active r None (st_LastError r)) 1)).
(** Whether the failure blocked the schedule; no active schedule is an error. *)
Definition RecordScheduleBusinessFailure (id : uuid) (code : string) (threshold : Z) : wf_query sched_db bool := fun _ d =>
  let failed r :=
    let over := threshold <=? st_FailureCount r + 1 in
    with_state r (if over then "blocked" else st_Status r) (st_FailureCount r + 1)
      (if over then Some "consecutive_business_failures" else st_PausedReason r) (st_LastRunDate r) (Some code) 1 in
  wrap_query "record scheduled business failure"
    (match scheduled_transactions d !! id with
     | Some r =>
         if bool_decide (st_Status r = "active") then
           let~ (_, d) := write_schedule id always failed d in inr (bool_decide (st_Status (failed r) = "blocked"), d)
         else inl ErrNoRows
     | None => inl ErrNoRows
     end).
(** [at_] is stored as its UTC date. *)
Definition SetScheduleLastRun (id : uuid) (at_ : Z) (finish : bool) : wf_query sched_db unit :=
  exec_write "set scheduled last run" (write_schedule id always (fun r =>
    with_state r (if_active r (if finish then "finished" else "active") (st_Status r)) (st_FailureCount r) (st_PausedReason r)
      (Some (local_day UTC at_)) (if_active r None (st_LastError r)) 1)).
Definition SetScheduleLastPlanned (id : uuid) (at_ : Z) : wf_query sched_db unit :=
  exec_write "set scheduled last planned" (write_schedule id (fun r => bool_decide (st_Status r = "active")) (fun r =>
    ScheduleRow (st_terms r) (st_Currency r) (st_Timezone r) (st_LocalTime r) (st_policy r) (st_Status r) (st_FailureCount r)
      (Some at_) (st_Version r) (st_PausedReason r) (st_LastRunDate r) (st_LastError r))).
Definition SetFee (id : uuid) (fee : Z) : wf_query sched_db unit :=
  exec_write "set scheduled occurrence fee" (write_occurrence id always (fun o => with_fee o fee)).
Definition consent_reasons : list string := ["fee_cap_exceeded"; "fee_consent_required"].
Definition BlockSchedule (id : uuid) (reason : string) : wf_query sched_db unit :=
  exec_write "block scheduled transaction" (write_schedule id
    (fun r => bool_decide (st_Status r = "active") || bool_decide (st_Status r = "blocked") && bool_decide (reason ∈ consent_reasons))
    (fun r => with_state r "blocked" (st_FailureCount r) (Some reason) (st_LastRunDate r) (st_LastError r) 1)).
Definition requeued (o : occurrence_row) : occurrence_row :=
  with_run o "ready" (so_LedgerTransactionID o) (so_AttemptCount o) None None None None.
Definition Occurrence_Retry (id : uuid) : wf_query sched_db unit := fun _ d =>
  match scheduled_occurrences d !! id with
  | Some o =>
      if bool_decide (so_Status o ∈ ["failed_business"; "blocked"])
         && match scheduled_transactions d !! so_ScheduleID o with
            | Some r => bool_decide (st_Status r ∈ ["active"; "paused"]) | None => false end
      then let~ (_, d) := write_occurrence id always requeued d in inr (tt, d)
      else inl ErrNoRows
  | None => inl ErrNoRows
  end.
Definition consent_codes : list string :=
  ["SCHEDULE_FEE_CAP_EXCEEDED"; "SCHEDULE_FEE_CONSENT_REQUIRED"; "FEE_EXCEEDS_CONSENT"; "FEE_CONSENT_REQUIRED"].
Definition awaits_consent (schedule : uuid) (o : occurrence_row) : bool :=
  bool_decide (so_ScheduleID o = schedule) && bool_decide (so_Status o = "blocked")
  && match so_ErrorCode o with Some code => bool_decide (code ∈ consent_codes) | None => false end.
Definition with_cap (p : ScheduledPolicy) (cap : Z) : ScheduledPolicy :=
  MkPolicy (po_MissedRunPolicy p) (po_CatchUpLimit p) (po_MaxInfrastructureAttempts p) (po_RetryWindowSeconds p)
    (po_ConsecutiveFailureThreshold p) (po_FeeMode p) (Some cap).
Definition confirmed (cap : Z) (r : schedule_row) : schedule_row :=
  ScheduleRow (st_terms r) (st_Currency r) (st_Timezone r) (st_LocalTime r) (with_cap (st_policy r) cap) "active" 0
    (st_LastPlannedAt r) (st_Version r + 1) None (st_LastRunDate r) None.
Definition repo_ConfirmFeeCap (id userID : uuid) (cap : Z) : wf_query sched_db unit := fun _ d =>
  let~ (rows, d) := write_schedule id (fun r =>
    bool_decide (st_UserID (st_terms r) = userID) && bool_decide (st_Status r ∈ ["paused"; "blocked"])
    && match st_PausedReason r with Some reason => bool_decide (reason ∈ consent_reasons) | None => false end) (confirmed cap) d in
  if rows =? 0 then inl ErrNoRows
  else inr (tt, set_occurrences d (set_where (fun _ => awaits_consent id) requeued (scheduled_occurrences d))).
Definition InsertScheduleEvent (e : schedule_event) : wf_query sched_db unit := fun _ d =>
  inr (tt, set_sched_outbox d (sched_outbox d ++ [e])).
End tables.

(** ** Stored commands *)
Section service.
Context `{DEC : !Decimal} `{UT : !UuidText} `{ZN : !Zones} `{DG : !CommandDigests} (x : Executor) (loc : Location) (reg : registry).
Notation prog := (Flow.prog (wf_call sched_db)).
Notation sql s := (perform (WfSql s)).
Definition allowedTypes : list string := ["transfer_p2p"; "transfer_pocket"].
Definition allowedKinds : list string := ["once"; "daily"; "monthly"].
Definition dec_fits_int64 (a : dec) : bool := in_int64 (Z.quot (Qnum (dec_val a)) (Zpos (Qden (dec_val a)))).
Definition integral_positive (a : dec) : bool := dec_is_positive a && dec_equal a (dec_truncate a).
Definition mustDecimal (raw : string) : dec := default dec_zero (dec_of_string raw).
Definition invalid {A} (msg : string) : error + A := inl (wrapf ErrValidation msg).
Definition commandFromRow (row : schedule_row) : error + ScheduleCommand :=
  let t := st_terms row in
  match st_CmdPayload t with
  | None => invalid "cannot decode schedule command"
  | Some c =>
      if negb (st_CommandVersion t =? 1) then invalid "unsupported schedule command version"
      else if negb (or_number (sc_Version c) (st_CommandVersion t) =? 1) then invalid "unsupported schedule command version"
      else
        let type := or_text (sc_Type c) (st_CommandType t) in
        if negb (bool_decide (type ∈ allowedTypes)) then invalid "command type is not schedulable"
        else if negb (bool_decide (st_CommandType t = EmptyString)) && negb (bool_decide (st_CommandType t = type)) then
          invalid "command type digest mismatch"
        else if negb (bool_decide (st_CommandDigest t ∈ [EmptyString; text_digest (st_CmdPayload t); canonical_digest (st_CmdPayload t)])) then
          invalid "command digest mismatch"
        else if bool_decide (sc_Amount c = EmptyString) then invalid "schedule amount is missing"
        else match dec_of_string (sc_Amount c) with
        | Some amount =>
            if negb (integral_positive amount && dec_fits_int64 amount) then invalid "schedule amount is invalid"
            else if negb (bool_decide (st_Currency row = EmptyString)) && negb (bool_decide (sc_Currency c = EmptyString))
                    && negb (bool_decide (st_Currency row = sc_Currency c)) then
              invalid "schedule command currency does not match schedule"
            else inr (MkScheduleCommand type 1 (sc_Amount c) (sc_Currency c) (sc_TargetUserID c) (sc_PocketCode c) (sc_Metadata c))
        | None => invalid "schedule amount is invalid"
        end
  end.
(** strings.Contains *)
Fixpoint Contains (s sub : string) : bool :=
  String.prefix sub s || match s with String _ s => Contains s sub | EmptyString => false end.
Definition scheduleCommandErrorCode (err : error) : string :=
  if Contains (error_text err) "unsupported schedule command version" then "SCHEDULE_COMMAND_VERSION_UNSUPPORTED"
  else if Contains (error_text err) "command digest mismatch" then "SCHEDULE_COMMAND_DIGEST_MISMATCH"
  else "SCHEDULE_COMMAND_INVALID".
Definition policyFromSchedule (row : schedule_row) : ScheduledPolicy :=
  let p := st_policy row in
  MkPolicy (or_text (po_MissedRunPolicy p) (po_MissedRunPolicy (DefaultPolicy (st_ScheduleKind (st_terms row)))))
    (or_number (po_CatchUpLimit p) defaultCatchUpLimit)
    (or_number (po_MaxInfrastructureAttempts p) defaultInfrastructureAttempts)
    (or_number (po_RetryWindowSeconds p) defaultRetryWindowSeconds)
    (or_number (po_ConsecutiveFailureThreshold p) defaultFailureThreshold)
    (or_text (po_FeeMode p) consentCapMode) (po_MaxFeeAmount p).
Definition scheduleLocation (timezone : string) : Location :=
  if bool_decide (timezone = EmptyString) then loc else default loc (LoadLocation timezone).
Definition is_business_failure (err : error) : bool := bool_decide (is_Some (as_ledger_error err)).

(** ** Outbox *)
Definition emit (e : Z -> schedule_event) : prog (error + unit) := let* now := wf_now in sql (InsertScheduleEvent (e now)).
Definition emitScheduleFailure (occurrence schedule : uuid) (status code : string) : prog (error + unit) :=
  emit (OccurrenceFailed occurrence schedule status code false).
Definition emitSchedulePaused (schedule : uuid) (reason : string) : prog (error + unit) := emit (SchedulePaused schedule reason).

(** ** PlanSchedule *)
Definition CreateOrGet (o : occurrence_row) : prog (error + (uuid * occurrence_row)) :=
  let* id := wf_new in
  let? _ := sql (insert_occurrence id o) in
  sql (select_occurrence (so_ScheduleID o) (so_ScheduledFor o)).
Definition new_occurrence (id : uuid) (row : schedule_row) (policy : ScheduledPolicy) (zone : Location) (date : Z) : occurrence_row :=
  OccurrenceRow id (st_Version row) (OccurrenceTime date (st_LocalTime row) zone) (local_day zone date) "planned"
    (OccurrenceIdempotencyKey id (local_day zone date)) policy None None 0 None None None None.
Definition skip_status (policy : ScheduledPolicy) : string * string :=
  if bool_decide (po_MissedRunPolicy policy = "skip") then ("skipped_missed", "MISSED_RUN_POLICY")
  else ("skipped_superseded",
        if bool_decide (po_MissedRunPolicy policy = "catch_up_bounded") then "MISSED_BACKLOG_TRUNCATED" else "MISSED_RUN_SUPERSEDED").
Definition runnable_statuses : list string := ["due"; "planned"; "ready"; "retry_wait"].
Definition block_unreadable (id : uuid) (stored : uuid * occurrence_row) (code : string) : prog (error + unit) :=
  let* now := wf_now in
  let? _ := sql (RecordAttempt stored.1 1 (AttemptRow "validation" "blocked" false (Some code) None now (Some now))) in
  let? _ := sql (Occurrence_SetStatus stored.1 "blocked" code None None) in
  emitScheduleFailure stored.1 id "blocked" code.
(** One date of the plan: whether it was skipped, and the occurrence if it is to run. *)
Definition plan_date (id : uuid) (row : schedule_row) (policy : ScheduledPolicy) (zone : Location) (skipped : bool)
    (commandErr : option error) (date : Z) : prog (error + (bool * option (uuid * occurrence_row))) :=
  let? stored := CreateOrGet (new_occurrence id row policy zone date) in
  let skip := skipped && bool_decide (so_Status stored.2 = "planned") in
  let? _ := if skip then sql (Occurrence_SetStatus stored.1 (skip_status policy).1 (skip_status policy).2 None None) else ok in
  let status := if skip then (skip_status policy).1 else so_Status stored.2 in
  match commandErr with
  | Some err =>
      let? _ := if negb skipped && bool_decide (status ∈ runnable_statuses)
                then block_unreadable id stored (scheduleCommandErrorCode err) else ok in
      Ret (inr (skip, None))
  | None => Ret (inr (skip, if bool_decide (status ∈ runnable_statuses) then Some stored else None))
  end.
(** The latest date skipped, and the occurrences to run. *)
Fixpoint plan_dates (id : uuid) (row : schedule_row) (policy : ScheduledPolicy) (zone : Location) (skips : list Z)
    (commandErr : option error) (dates : list Z) (latest : option Z) (found : list (uuid * occurrence_row))
    : prog (error + (option Z * list (uuid * occurrence_row))) :=
  match dates with
  | [] => Ret (inr (latest, found))
  | date :: dates =>
      let? (skipped, item) := plan_date id row policy zone (containsDate skips date) commandErr date in
      let latest := if skipped then Some (match latest with Some t => Z.max t date | None => date end) else latest in
      plan_dates id row policy zone skips commandErr dates latest
        (match item with Some item => found ++ [item] | None => found end)
  end.
Definition planning_start (row : schedule_row) : Z :=
  match st_LastRunDate row with
  | Some day => AddDate 0 0 1 UTC (day * Day)
  | None => st_RunAtDate (st_terms row) * Day
  end.
Definition PlanSchedule (id : uuid) (asOf : Z) : prog (error + list (uuid * occurrence_row)) :=
  let? row := sql (GetByID id) in
  if negb (bool_decide (st_Status row = "active")) then Ret (inr [])
  else
    let policy := policyFromSchedule row in
    let zone := scheduleLocation (st_Timezone row) in
    match PlanMissed (st_ScheduleKind (st_terms row)) (planning_start row) asOf (st_DayOfMonth (st_terms row)) policy zone with
    | inl err => Ret (inl err)
    | inr plan =>
        let commandErr := match commandFromRow row with inl err => Some err | inr _ => None end in
        let once := bool_decide (st_ScheduleKind (st_terms row) = "once") in
        let? (latest, found) :=
          plan_dates id row policy zone (pl_Skipped plan) commandErr (pl_Skipped plan ++ pl_Planned plan) None [] in
        let? _ := match latest with Some date => sql (SetScheduleLastRun id date once) | None => ok end in
        let? _ := sql (SetScheduleLastPlanned id asOf) in
        match commandErr with
        | Some err =>
            let? _ := sql (BlockSchedule id (scheduleCommandErrorCode err)) in
            let? _ := emitSchedulePaused id (scheduleCommandErrorCode err) in
            Ret (inr found)
        | None => Ret (inr found)
        end
    end.

(** ** ExecuteOccurrence *)
Definition Claim (id : uuid) (owner : string) (now : Z) : prog (error + occurrence_row) :=
  let? o := sql (claim_occurrence id owner now) in
  if 1 <? so_AttemptCount o then
    let? _ := pwrap "close expired scheduled attempt" (sql (close_attempts id now (so_AttemptCount o))) in Ret (inr o)
  else Ret (inr o).
Definition pause_reason (code : string) : string :=
  if bool_decide (code ∈ ["SCHEDULE_FEE_CAP_EXCEEDED"; "FEE_EXCEEDS_CONSENT"]) then "fee_cap_exceeded"
  else if bool_decide (code ∈ ["SCHEDULE_FEE_CONSENT_REQUIRED"; "FEE_CONSENT_REQUIRED"]) then "fee_consent_required"
  else EmptyString.
Definition businessFailure (id : uuid) (o : occurrence_row) (row : schedule_row) (code : string) (cause : error)
    : prog (error + bool) :=
  let schedule := so_ScheduleID o in
  let once := bool_decide (st_ScheduleKind (st_terms row) = "once") in
  let* now := wf_now in
  let* _ := logged (sql (FinishAttempt id now "business_failure" false code None)) in
  let? blocked := sql (RecordScheduleBusinessFailure schedule code (po_ConsecutiveFailureThreshold (policyFromSchedule row))) in
  let? _ := if once && negb blocked then sql (BlockSchedule schedule "once_occurrence_terminal_failure") else ok in
  let paused := pause_reason code in
  let? _ := if bool_decide (paused = EmptyString) then ok else sql (BlockSchedule schedule paused) in
  let blocked := blocked || negb (bool_decide (paused = EmptyString)) in
  let status := if blocked then "blocked" else if once then "failed_terminal" else "failed_business" in
  let? _ := sql (Occurrence_SetStatus id status code None None) in
  let? _ := emitScheduleFailure id schedule status code in
  let? _ := if blocked || once then
              emitSchedulePaused schedule (or_text paused (if once then "once_occurrence_terminal_failure" else "consecutive_business_failures"))
            else ok in
  Ret (inl (Wrap code cause)).
(** What the fee policy asks now; an invalid fee is an error code. *)
Definition resolveFee (row : schedule_row) (c : ScheduleCommand) (currency : string) : prog (error + (dec * string)) :=
  let gateway := match sc_Metadata c !! "gateway" with Some (MString g) => g | _ => EmptyString end in
  let* answer := sql (wf_read (fun d => fee_policy d (st_UserID (st_terms row)) (sc_Type c) gateway currency (mustDecimal (sc_Amount c)))) in
  match answer with
  | inr (fee, feeGateway, true) =>
      if dec_is_negative fee || negb (dec_equal fee (dec_truncate fee)) then Ret (inl (Plain "FEE_POLICY_INVALID"))
      else Ret (inr (fee, feeGateway))
  | _ => Ret (inr (dec_zero, EmptyString))
  end.
(** The fee the user has consented to, or why not. *)
Definition fee_refusal (row : schedule_row) (fee : dec) (feeGateway : string) : option (string * error) :=
  if negb (dec_is_positive fee) then None
  else if bool_decide (feeGateway = EmptyString) then Some ("FEE_POLICY_INVALID", Plain "resolved fee gateway is missing")
  else match po_MaxFeeAmount (st_policy row) with
  | None => Some ("SCHEDULE_FEE_CONSENT_REQUIRED", Plain "fee consent cap is missing")
  | Some cap =>
      if negb (dec_fits_int64 fee) then Some ("FEE_POLICY_INVALID", Plain "resolved fee exceeds int64")
      else if dec_gt fee (dec_of_Z cap) then Some ("SCHEDULE_FEE_CAP_EXCEEDED", Plain "resolved fee exceeds stored consent cap")
      else None
  end.
Definition priced_metadata (m : metadata) (fee : dec) (feeGateway : string) : metadata :=
  let m := delete "fee_application" (delete "fee_gateway" (delete "fee_amount" m)) in
  if dec_is_positive fee then
    <["fee_application" := MString "deducted_from_transfer"]>
      (<["fee_gateway" := MString feeGateway]> (<["fee_amount" := MString (dec_string fee)]> m))
  else m.
Definition schedule_scope (userID : uuid) : string := "schedule:" +:+ uuid_string userID.
Definition occurrence_command (key : string) (userID : uuid) (c : ScheduleCommand) (currency : string) (m : metadata) : Command :=
  {| IdempotencyKey := key; IdempotencyScope := schedule_scope userID; Type_ := sc_Type c; Amount := mustDecimal (sc_Amount c);
     UserID := userID; TargetUserID := sc_TargetUserID c; PocketCode := sc_PocketCode c; Currency_ := currency;
     ReferenceID := uuid_Nil; Metadata := m; QuoteID := EmptyString; MerchantTenantID := uuid_Nil |}.
Definition occurrence_context (id userID : uuid) (key currency : string) : ExecutionContext :=
  MkContext userID uuid_Nil "scheduler" key 0 ("durable-schedule-occurrence:" +:+ uuid_string id) currency.
Definition succeed (id : uuid) (o : occurrence_row) (row : schedule_row) (c : ScheduleCommand) (fee : dec) : prog (error + bool) :=
  let schedule := so_ScheduleID o in
  let? tx := pwrap "schedule: recover posted transaction"
    (perform (WfLookup (so_IdempotencyKey o) (schedule_scope (st_UserID (st_terms row))))) in
  let* now := wf_now in
  let? _ := sql (FinishAttempt id now "succeeded" false EmptyString (Some tx)) in
  let? _ := sql (Occurrence_SetStatus id "succeeded" EmptyString None (Some tx)) in
  let? _ := sql (RecordScheduleSuccess schedule) in
  let? _ := sql (SetScheduleLastRun schedule (so_ScheduledLocalDate o * Day) (bool_decide (st_ScheduleKind (st_terms row) = "once"))) in
  let? _ := emit (OccurrenceSucceeded id schedule tx (sc_Amount c) (Z_text (dec_int_part fee))) in
  Ret (inr true).
Definition infrastructure_failure (id : uuid) (o : occurrence_row) (row : schedule_row) (postErr : error) : prog (error + bool) :=
  let schedule := so_ScheduleID o in
  let policy := policyFromSchedule row in
  let* now := wf_now in
  let* _ := logged (sql (FinishAttempt id now "infra_failure" true "LEDGER_INFRA_FAILURE" None)) in
  if po_MaxInfrastructureAttempts policy <=? so_AttemptCount o then
    let* _ := logged (sql (BlockSchedule schedule "infrastructure_retry_exhausted")) in
    let? _ := sql (Occurrence_SetStatus id "blocked" "INFRA_RETRY_EXHAUSTED" None None) in
    let? _ := emitScheduleFailure id schedule "blocked" "INFRA_RETRY_EXHAUSTED" in
    let? _ := emitSchedulePaused schedule "infrastructure_retry_exhausted" in
    Ret (inl postErr)
  else
    let* now := wf_now in
    let? _ := sql (Occurrence_SetStatus id "retry_wait" "LEDGER_INFRA_FAILURE" (Some (now + po_RetryWindowSeconds policy * Second)) None) in
    Ret (inl postErr).
Definition post_occurrence (id : uuid) (o : occurrence_row) (row : schedule_row) (c : ScheduleCommand) (currency : string)
    (fee : dec) (feeGateway : string) (started : Z) : prog (error + bool) :=
  let? _ := if dec_is_negative fee then ok else sql (SetFee id (dec_int_part fee)) in
  let? _ := sql (RecordAttempt id (Z.max (so_AttemptCount o) 1) (AttemptRow "ledger_post" "started" false None None started None)) in
  let userID := st_UserID (st_terms row) in
  let* posted := wf_execute x (occurrence_command (so_IdempotencyKey o) userID c currency (priced_metadata (sc_Metadata c) fee feeGateway))
                   (occurrence_context id userID (so_IdempotencyKey o) currency) in
  match posted with
  | inr _ => succeed id o row c fee
  | inl err =>
      if errors_is err ErrAlreadyPosted then succeed id o row c fee
      else if is_business_failure err then businessFailure id o row "LEDGER_BUSINESS_FAILURE" err
      else infrastructure_failure id o row err
  end.
Definition ExecuteOccurrence (id : uuid) (owner : string) : prog (error + bool) :=
  let* now := wf_now in
  let* claimed := Claim id owner now in
  match claimed with
  | inl err => if is_no_rows err then Ret (inr false) else Ret (inl err)
  | inr o =>
      let* started := wf_now in
      let? _ := sql (RecordAttempt id (Z.max (so_AttemptCount o) 1) (AttemptRow "screening" "started" false None None started None)) in
      let? row := sql (GetByID (so_ScheduleID o)) in
      if negb (bool_decide (st_Status row = "active")) then
        let* now := wf_now in
        let* _ := logged (sql (FinishAttempt id now "cancelled" false "SCHEDULE_NOT_ACTIVE" None)) in
        let* _ := logged (sql (Occurrence_SetStatus id "cancelled" "SCHEDULE_NOT_ACTIVE" None None)) in
        Ret (inr false)
      else match commandFromRow row with
      | inl err => businessFailure id o row "COMMAND_INVALID" err
      | inr c =>
          let currency := or_text (sc_Currency c) (st_Currency row) in
          let* resolved := resolveFee row c currency in
          match resolved with
          | inl err => businessFailure id o row (error_text err) err
          | inr (fee, feeGateway) =>
              match fee_refusal row fee feeGateway with
              | Some (code, err) => businessFailure id o row code err
              | None => post_occurrence id o row c currency fee feeGateway started
              end
          end
      end
  end.

(** ** The durable runner and what users and operators may do *)
Definition schedule_worker : string := "schedule-worker".
Definition run_planned (schedule : uuid) (once : bool) (asOf : Z) (item : uuid * occurrence_row) : prog (Z * Z) :=
  if asOf <? so_ScheduledFor item.2 then Ret (0, 0)
  else if bool_decide (so_Status item.2 = "skipped_missed") then
    let* _ := logged (sql (SetScheduleLastRun schedule (so_ScheduledLocalDate item.2 * Day) once)) in Ret (0, 0)
  else
    let* done := ExecuteOccurrence item.1 schedule_worker in
    Ret (match done with inl _ => (0, 1) | inr true => (1, 0) | inr false => (0, 0) end).
Fixpoint run_each {A} (f : A -> prog (Z * Z)) (items : list A) (executed failed : Z) : prog (Z * Z) :=
  match items with
  | [] => Ret (executed, failed)
  | item :: items => let* n := f item in run_each f items (executed + n.1) (failed + n.2)
  end.
Definition run_schedule (asOf : Z) (row : uuid * schedule_row) : prog (Z * Z) :=
  let* planned := PlanSchedule row.1 asOf in
  match planned with
  | inl _ => Ret (0, 1)
  | inr items => run_each (run_planned row.1 (bool_decide (st_ScheduleKind (st_terms row.2) = "once")) asOf) items 0 0
  end.
Definition RunDurable (asOf : Z) : prog (error + (Z * Z)) :=
  let? rows := pwrap "schedule: list durable candidates" (sql ListAllActive) in
  let* n := run_each (run_schedule asOf) rows 0 0 in
  Ret (inr n).
Definition foreign_to (userID : uuid) (row : schedule_row) : bool :=
  negb (bool_decide (userID = uuid_Nil)) && negb (bool_decide (st_UserID (st_terms row) = userID)).
Definition ListOccurrences (schedule userID : uuid) (limit offset : Z) : prog (error + list (uuid * occurrence_row)) :=
  let? row := sql (GetByID schedule) in
  if foreign_to userID row then Ret (inl (wrapf ErrScheduledTransactionNotOwned EmptyString))
  else sql (Occurrence_List schedule userID limit offset).
Definition GetOccurrence (id userID : uuid) : prog (error + occurrence_row) :=
  let? item := sql (Occurrence_Get id) in
  let? row := sql (GetByID (so_ScheduleID item)) in
  if foreign_to userID row then Ret (inl (wrapf ErrScheduledTransactionNotOwned EmptyString)) else Ret (inr item).
Definition no_rows_means (msg : string) (r : error + unit) : error + unit :=
  match r with inl err => if is_no_rows err then invalid msg else inl err | inr _ => inr tt end.
Definition RetryOccurrence (id : uuid) : prog (error + unit) :=
  let? item := sql (Occurrence_Get id) in
  if negb (bool_decide (so_Status item ∈ ["failed_business"; "blocked"])) then Ret (invalid "occurrence is not retryable")
  else
    let? row := sql (GetByID (so_ScheduleID item)) in
    if bool_decide (st_Status row = "blocked") then Ret (invalid "schedule is blocked")
    else let* done := sql (Occurrence_Retry id) in Ret (no_rows_means "occurrence is no longer retryable" done).
Definition ConfirmFeeCap (schedule userID : uuid) (cap : Z) : prog (error + unit) :=
  if cap <? 0 then Ret (invalid "max fee amount must not be negative")
  else
    let? row := sql (GetByID schedule) in
    if negb (bool_decide (st_UserID (st_terms row) = userID)) then Ret (inl (Sentinel ErrScheduledTransactionNotOwned))
    else
      let* done := sql (repo_ConfirmFeeCap schedule userID cap) in
      Ret (no_rows_means "schedule is not awaiting fee-cap confirmation" done).

(** ** schedule.go *)
Record ScheduleRequest := MkScheduleRequest {
  rq_UserID : uuid; rq_Type : string; rq_Amount : dec; rq_TargetUserID : uuid; rq_PocketCode : string; rq_Metadata : metadata;
  rq_Kind : string; rq_RunAtDate : Z; rq_DayOfMonth : option Z; rq_CreatedBy : string }.
Definition invalid_request (q : ScheduleRequest) (requestedCurrency : string) : option string :=
  if negb (bool_decide (rq_Type q ∈ allowedTypes)) then Some "type must be one of transfer_p2p, transfer_pocket"
  else if negb (integral_positive (rq_Amount q)) then Some "amount must be a positive integer (minor units)"
  else if negb (bool_decide (rq_Kind q ∈ allowedKinds)) then Some "schedule_kind must be one of once, daily, monthly"
  else if bool_decide (rq_Kind q = "monthly") && bad_day_of_month (rq_DayOfMonth q) then
    Some "monthly schedules require day_of_month between 1 and 28"
  else if negb (bool_decide (rq_Kind q = "monthly")) && bool_decide (is_Some (rq_DayOfMonth q)) then
    Some "day_of_month is only valid for monthly schedules"
  else if bool_decide (rq_Type q = "transfer_p2p") && bool_decide (rq_TargetUserID q = uuid_Nil) then
    Some "transfer_p2p requires target_user_id"
  else if bool_decide (rq_Type q = "transfer_p2p") && bool_decide (rq_TargetUserID q = rq_UserID q) then
    Some "cannot schedule a transfer to yourself"
  else if bool_decide (rq_Type q = "transfer_pocket") && bool_decide (rq_PocketCode q = EmptyString) then
    Some "transfer_pocket requires pocket_code"
  else if bool_decide (rq_CreatedBy q = EmptyString) then Some "created_by (caller identity) is required"
  else if negb (bool_decide (requestedCurrency = EmptyString))
          && match ValidateCode requestedCurrency with Some _ => true | None => false end then Some "currency"
  else None.
Definition schedule_payload (q : ScheduleRequest) (currency : string) : ScheduleCommand :=
  MkScheduleCommand (rq_Type q) 1 (dec_string (rq_Amount q)) currency (rq_TargetUserID q) (rq_PocketCode q) (rq_Metadata q).
Definition CreateWithCurrency (q : ScheduleRequest) (requestedCurrency : string) : prog (error + uuid) :=
  match invalid_request q requestedCurrency with
  | Some msg => Ret (invalid msg)
  | None =>
      let* id := wf_new in
      let? _ := sql (Schedule_Create id (rq_UserID q) (schedule_payload q requestedCurrency) (rq_Kind q) (rq_RunAtDate q)
                       (rq_DayOfMonth q) (rq_CreatedBy q)) in
      Ret (inr id)
  end.
Definition CreateSchedule (q : ScheduleRequest) : prog (error + uuid) := CreateWithCurrency q EmptyString.
Definition CreateWithPolicy (q : ScheduleRequest) (policy : ScheduledPolicy) (currency timezone localTime : string)
    : prog (error + uuid) :=
  match NormalizePolicy (rq_Kind q) policy with
  | inl err => Ret (inl err)
  | inr policy =>
      if negb (bool_decide (currency = EmptyString)) && negb (IsValid reg currency) then Ret (invalid "schedule currency is invalid")
      else if negb (bool_decide (timezone = EmptyString)) && match LoadLocation timezone with None => true | Some _ => false end then
        Ret (invalid "schedule timezone is invalid")
      else if negb (bool_decide (localTime = EmptyString)) && bool_decide (parse_clock localTime = None) then
        Ret (invalid "schedule local_time must be HH:MM")
      else
        let? id := CreateSchedule q in
        let* updated := sql (UpdatePolicy id policy currency timezone (parse_clock localTime)) in
        match updated with
        | inr _ => Ret (inr id)
        | inl err =>
            let* paused := sql (repo_Pause id) in
            Ret (inl (match paused with inl pauseErr => Wrap "failed to quarantine schedule" err | inr _ => err end))
        end
  end.
Definition transition_schedule (id userID : uuid) (f : uuid -> wf_query sched_db Z) : prog (error + unit) :=
  let? st := sql (GetByID id) in
  if negb (bool_decide (st_UserID (st_terms st) = userID)) then Ret (inl (wrapf ErrScheduledTransactionNotOwned EmptyString))
  else
    let? rows := sql (f id) in
    if rows =? 0 then Ret (inl (wrapf ErrScheduledTransactionAlreadyTerminal EmptyString)) else Ret (inr tt).
Definition Pause (id userID : uuid) : prog (error + unit) := transition_schedule id userID repo_Pause.
Definition Resume (id userID : uuid) : prog (error + unit) := transition_schedule id userID repo_Resume.
Definition Cancel (id userID : uuid) : prog (error + unit) := transition_schedule id userID repo_Cancel.

(** ** RunDue, the older runner *)
Definition legacy_command (id : uuid) (t : schedule_terms) (c : ScheduleCommand) (amount : dec) (today : Z) : Command :=
  {| IdempotencyKey := OccurrenceIdempotencyKey id today; IdempotencyScope := uuid_string (st_UserID t); Type_ := sc_Type c;
     Amount := amount; UserID := st_UserID t; TargetUserID := sc_TargetUserID c; PocketCode := sc_PocketCode c;
     Currency_ := sc_Currency c; ReferenceID := uuid_Nil; Metadata := <["currency_inflight" := MBool true]> (sc_Metadata c);
     QuoteID := EmptyString; MerchantTenantID := uuid_Nil |}.
Definition legacy_context (t : schedule_terms) (key currency : string) : ExecutionContext :=
  MkContext (st_UserID t) uuid_Nil "scheduler" key 0 "legacy-schedule-runner" currency.
Definition run_due_row (today : Z) (row : uuid * schedule_row) : prog (Z * Z) :=
  let t := st_terms row.2 in
  let once := bool_decide (st_ScheduleKind t = "once") in
  let fail msg := let* _ := logged (sql (MarkBusinessFailure row.1 msg once)) in Ret (0, 1) in
  match st_CmdPayload t with
  | None => fail "corrupt cmd_payload"
  | Some c =>
      match dec_of_string (sc_Amount c) with
      | None => fail "corrupt stored amount"
      | Some amount =>
          let cmd := legacy_command row.1 t c amount today in
          let* posted := wf_execute x cmd (legacy_context t (IdempotencyKey cmd) (Currency_ cmd)) in
          let done := match posted with inr _ => true | inl err => errors_is err ErrAlreadyPosted end in
          if done then
            let* marked := sql (MarkSuccess row.1 today once) in
            Ret (match marked with inr _ => (1, 0) | inl _ => (0, 1) end)
          else match posted with
          | inl err => if is_business_failure err then fail (error_text err) else Ret (0, 1)
          | inr _ => Ret (0, 1)
          end
      end
  end.
Definition RunDue (today : Z) : prog (error + (Z * Z)) :=
  let? rows := pwrap "schedule: list due" (sql (ListDue today)) in
  let* n := run_each (run_due_row today) rows 0 0 in
  Ret (inr n).
End service.
