(* ===== verification/ScheduleTheorems.v ===== *)
(** * Each runner pays a date at most once

    The rows of schedules and occurrences as a [Workflow], under every interleaving of
    both runners, of users and of operators; and runs where the code does not do what
    its comments say. *)
From Stdlib Require Import Ascii String QArith.
From stdpp Require Import prelude gmap strings list sorting relations.
From S2P Require Import Prelude Decimal Errors Currency Events Money MoneyFacts Processors Calendar Flow LedgerService LedgerApi.
From S2P Require Import Executor ExecutorFacts AdjustmentsRun Workflow SchedulePlan Schedule.
Open Scope Z_scope.

(** ** Keys *)
Lemma number_text_no_colon z w : forall_chars no_colon (appendInt z w) = true.
Proof.
  unfold appendInt. rewrite !forall_chars_app. destruct (zeros_facts (w - String.length (Z_text (Z.abs z)))) as (_ & Hz & _).
  rewrite number_no_colon by lia. rewrite (forall_chars_mono _ no_colon _ digit_no_colon Hz). by destruct (z <? 0).
Qed.
Lemma date_no_colon day : forall_chars no_colon (date_text day) = true.
Proof.
  unfold date_text, Format_date. rewrite !forall_chars_app, !number_text_no_colon. done.
Qed.
Lemma occurrence_key_inj `{UT : !UuidText} id day id' day' :
  OccurrenceIdempotencyKey id day = OccurrenceIdempotencyKey id' day' -> id = id' /\ day = day'.
Proof.
  unfold OccurrenceIdempotencyKey. intros H%(inj (String.append "sched:")).
  apply last_colon_inj in H as [H1%uuid_string_inj H2%date_text_inj]; auto using date_no_colon.
Qed.
Lemma schedule_scope_inj `{UT : !UuidText} u v : schedule_scope u = schedule_scope v -> u = v.
Proof. unfold schedule_scope. intros H%(inj (String.append "schedule:")). by apply uuid_string_inj. Qed.

Lemma schedule_scope_not_user `{UT : !UuidText} u v :
  forall_chars no_colon (uuid_string u) = true -> uuid_string u <> schedule_scope v.
Proof. intros H E. rewrite E in H. discriminate H. Qed.

Section safe.
Context `{DEC : !Decimal} `{UT : !UuidText} `{ZN : !Zones} `{DG : !CommandDigests} `{LED : !PostingLedger}.
Notation schedule d id := (scheduled_transactions d !! id).
Notation occurrence d id := (scheduled_occurrences d !! id).
Implicit Types (d : sched_db) (l : lstate) (r : schedule_row) (o : occurrence_row).

(** ** The workflow *)
(** What a stored payload says is to be posted. *)
Definition stored_command (t : schedule_terms) (c : ScheduleCommand) : Prop :=
  exists p amount, st_CmdPayload t = Some p /\ sc_Type c ∈ allowedTypes /\ sc_Type c = or_text (sc_Type p) (st_CommandType t) /\
    sc_Amount c = sc_Amount p /\ dec_of_string (sc_Amount p) = Some amount /\ integral_positive amount = true /\
    sc_Currency c = sc_Currency p /\ sc_TargetUserID c = sc_TargetUserID p /\ sc_PocketCode c = sc_PocketCode p /\
    sc_Metadata c = sc_Metadata p.
Record same_occurrence o o' : Prop := {
  eo_schedule : so_ScheduleID o' = so_ScheduleID o; eo_for : so_ScheduledFor o' = so_ScheduledFor o;
  eo_date : so_ScheduledLocalDate o' = so_ScheduledLocalDate o; eo_key : so_IdempotencyKey o' = so_IdempotencyKey o }.
Definition owner_of d o : option uuid := st_UserID ∘ st_terms <$> schedule d (so_ScheduleID o).
Record sched_ok d l : Prop := {
  sk_key id o : occurrence d id = Some o ->
    so_IdempotencyKey o = OccurrenceIdempotencyKey (so_ScheduleID o) (so_ScheduledLocalDate o) /\
    is_Some (schedule d (so_ScheduleID o));
  sk_unique id o id' o' : occurrence d id = Some o -> occurrence d id' = Some o' ->
    so_IdempotencyKey o = so_IdempotencyKey o' -> id = id';
  sk_done id o u : occurrence d id = Some o -> so_Status o = "succeeded" -> owner_of d o = Some u ->
    wf_linked l (so_IdempotencyKey o) (schedule_scope u) (so_LedgerTransactionID o);
}.
Record sched_le d d' : Prop := {
  se_schedule id r : schedule d id = Some r -> exists r', schedule d' id = Some r' /\ st_terms r' = st_terms r;
  se_occurrence id o : occurrence d id = Some o -> exists o', occurrence d' id = Some o' /\ same_occurrence o o';
}.
Definition occurrence_ground d (c : Command) : Prop := exists id o r sc currency m,
  occurrence d id = Some o /\ schedule d (so_ScheduleID o) = Some r /\ stored_command (st_terms r) sc /\
  c = occurrence_command (so_IdempotencyKey o) (st_UserID (st_terms r)) sc (or_text (sc_Currency sc) currency) m.
Definition legacy_ground d (c : Command) : Prop := exists id r p amount today,
  schedule d id = Some r /\ st_CmdPayload (st_terms r) = Some p /\ dec_of_string (sc_Amount p) = Some amount /\
  c = legacy_command id (st_terms r) p amount today.
Inductive sched_key : string -> string -> Prop :=
  | sk_date id day u : sched_key (OccurrenceIdempotencyKey id day) (schedule_scope u).

#[export] Instance same_occurrence_preorder : PreOrder same_occurrence.
Proof. split; [by split|]. intros ? ? ? [] []. split; congruence. Qed.
#[export] Instance sched_le_preorder : PreOrder sched_le.
Proof.
  split.
  - intros d. split; intros id r H; exists r; (split; [exact H|reflexivity]).
  - intros d1 d2 d3 [A1 B1] [A2 B2]. split.
    + intros id r (r2 & H & E)%A1. apply A2 in H as (r3 & ? & ?). exists r3. split; [done|congruence].
    + intros id o (o2 & H & ?)%B1. apply B2 in H as (o3 & ? & ?). exists o3. split; [done|by transitivity o2].
Qed.
Lemma grounds_grow d d' c : sched_le d d' -> occurrence_ground d c \/ legacy_ground d c -> occurrence_ground d' c \/ legacy_ground d' c.
Proof.
  intros L [(id & o & r & sc & cur & m & Ho & Hr & Hs & ->)|(id & r & p & a & day & Hr & Hp & Ha & ->)].
  - left. destruct (se_occurrence _ _ L _ _ Ho) as (o' & Ho' & E). destruct (se_schedule _ _ L _ _ Hr) as (r' & Hr' & Et).
    exists id, o', r', sc, cur, m. by rewrite (eo_schedule _ _ E), (eo_key _ _ E), Et.
  - right. destruct (se_schedule _ _ L _ _ Hr) as (r' & Hr' & Et). exists id, r', p, a, day. by rewrite Et.
Qed.
#[export] Program Instance schedules : Workflow sched_db := {|
  rows_ok := sched_ok; rows_le := sched_le; grounds d c := occurrence_ground d c \/ legacy_ground d c; mine := sched_key |}.
Next Obligation. intros d l l' L [A B C]. split; [done..|]. intros. eapply wf_linked_le; [exact L|by eapply C]. Qed.
Next Obligation. intros d d' c L H. by eapply grounds_grow. Qed.

Context (x : Executor) (loc : Location) (reg : registry).
Notation D := (wf_discipline (DB := sched_db)).
Notation fine := (fine D).
Notation inv := (wf_inv (DB := sched_db)).
Implicit Types (w : wf_world sched_db).

(** ** Statements *)
Definition knows_occurrence id o w : Prop := exists o', occurrence (ww_db w) id = Some o' /\ same_occurrence o o'.
Definition knows_schedule id r w : Prop := exists r', schedule (ww_db w) id = Some r' /\ st_terms r' = st_terms r.
Lemma knows_occurrence_le id o w w' : wf_le w w' -> knows_occurrence id o w -> knows_occurrence id o w'.
Proof.
  intros L (o1 & H & E). destruct (se_occurrence _ _ (wl_rows _ _ L) _ _ H) as (o2 & H2 & E2).
  exists o2. split; [done|by transitivity o1].
Qed.
Lemma knows_schedule_le id r w w' : wf_le w w' -> knows_schedule id r w -> knows_schedule id r w'.
Proof.
  intros L (r1 & H & E). destruct (se_schedule _ _ (wl_rows _ _ L) _ _ H) as (r2 & H2 & E2). exists r2. split; [done|congruence].
Qed.
Lemma owner_of_write d o i r r' : schedule d i = Some r -> st_terms r' = st_terms r ->
  owner_of (set_schedules d (<[i := r']> (scheduled_transactions d))) o = owner_of d o.
Proof.
  intros Hr Et. unfold owner_of. simpl. destruct (decide (i = so_ScheduleID o)) as [->|Hn].
  - rewrite lookup_insert_eq, Hr. simpl. by rewrite Et.
  - by rewrite lookup_insert_ne.
Qed.
(** Rows whose terms stay. *)
Lemma put_schedule_good d l id r r' : sched_ok d l -> schedule d id = Some r -> st_terms r' = st_terms r ->
  sched_ok (set_schedules d (<[id := r']> (scheduled_transactions d))) l /\
  sched_le d (set_schedules d (<[id := r']> (scheduled_transactions d))).
Proof.
  intros [A B C] Hr Et. split; split; simpl; try done.
  - intros i o Ho. destruct (A _ _ Ho) as [Ek Hs]. split; [done|].
    destruct (decide (id = so_ScheduleID o)) as [->|Hn]; [rewrite lookup_insert_eq; eauto|by rewrite lookup_insert_ne].
  - intros i o u Ho Hs. rewrite (owner_of_write _ _ _ _ _ Hr Et). by apply C with i.
  - intros i s Hs. destruct (decide (id = i)) as [->|Hn].
    + exists r'. rewrite lookup_insert_eq. split; [done|]. congruence.
    + exists s. by rewrite lookup_insert_ne.
  - intros i o Ho. exists o. by split.
Qed.
Lemma write_schedule_good d l id guard f n d' : (forall r, st_terms (f r) = st_terms r) -> sched_ok d l ->
  write_schedule id guard f d = inr (n, d') -> sched_ok d' l /\ sched_le d d'.
Proof.
  intros Hf I. unfold write_schedule. destruct (schedule d id) as [r|] eqn:Hr; [|intros [= _ <-]; by split].
  destruct (negb (guard r)); [intros [= _ <-]; by split|]. destruct (schedule_row_ok (f r)); [|done]. intros [= _ <-].
  by eapply put_schedule_good.
Qed.
(** A row of an occurrence that stays that occurrence, linked once it succeeds. *)
Lemma put_occurrence_good d l id o o' : sched_ok d l -> occurrence d id = Some o -> same_occurrence o o' ->
  (so_Status o' = "succeeded" -> so_Status o = "succeeded" /\ so_LedgerTransactionID o' = so_LedgerTransactionID o \/
     forall u, owner_of d o' = Some u -> wf_linked l (so_IdempotencyKey o') (schedule_scope u) (so_LedgerTransactionID o')) ->
  sched_ok (set_occurrences d (<[id := o']> (scheduled_occurrences d))) l /\
  sched_le d (set_occurrences d (<[id := o']> (scheduled_occurrences d))).
Proof.
  intros [A B C] Ho E Hd. split; split; simpl; try done.
  - intros i p [[<- <-]|[_ Hp]]%lookup_insert_Some; [|by eapply A].
    rewrite (eo_schedule _ _ E), (eo_date _ _ E), (eo_key _ _ E). by eapply A.
  - assert (Hold : forall i p, <[id := o']> (scheduled_occurrences d) !! i = Some p ->
      exists q, occurrence d i = Some q /\ so_IdempotencyKey p = so_IdempotencyKey q).
    { intros i p [[<- <-]|[_ Hp]]%lookup_insert_Some; [exists o; split; [done|apply E]|by exists p]. }
    intros i p j q (p' & Hp & Ep)%Hold (q' & Hq & Eq)%Hold Ek. eapply B; [exact Hp|exact Hq|congruence].
  - intros i p u [[<- <-]|[_ Hp]]%lookup_insert_Some Hs Hu; [|by eapply C].
    destruct (Hd Hs) as [[Hs' Etx]|H]; [|by apply H]. rewrite (eo_key _ _ E), Etx. eapply C; [exact Ho|done|].
    unfold owner_of in *. simpl in Hu. by rewrite <- (eo_schedule _ _ E).
  - intros i r Hr. exists r. by split.
  - intros i p Hp. destruct (decide (id = i)) as [->|Hn].
    + exists o'. rewrite lookup_insert_eq. split; [done|]. by replace p with o by congruence.
    + exists p. rewrite lookup_insert_ne by done. by split.
Qed.
Lemma write_occurrence_good d l id guard f n d' : sched_ok d l ->
  (forall o, occurrence d id = Some o -> same_occurrence o (f o) /\ (so_Status (f o) = "succeeded" ->
     so_Status o = "succeeded" /\ so_LedgerTransactionID (f o) = so_LedgerTransactionID o \/
     forall u, owner_of d (f o) = Some u -> wf_linked l (so_IdempotencyKey (f o)) (schedule_scope u) (so_LedgerTransactionID (f o)))) ->
  write_occurrence id guard f d = inr (n, d') -> sched_ok d' l /\ sched_le d d'.
Proof.
  intros I Hf. unfold write_occurrence. destruct (occurrence d id) as [o|] eqn:Ho; [|intros [= _ <-]; by split].
  destruct (negb (guard o)); [intros [= _ <-]; by split|]. destruct (occurrence_ok (f o)); [|done]. intros [= _ <-].
  destruct (Hf o eq_refl). by eapply put_occurrence_good.
Qed.

Lemma wrap_inr {A} ctx (r : error + A) a : wrap_query ctx r = inr a -> r = inr a.
Proof. by destruct r. Qed.
Lemma exec_write_inv ctx f ch d u d' : exec_write ctx f ch d = inr (u, d') -> exists n, f d = inr (n, d').
Proof.
  unfold exec_write. destruct (wrap_query ctx (f d)) as [|[n d1]] eqn:E; [done|]. intros [= _ <-]. apply wrap_inr in E. by exists n.
Qed.
Lemma fine_schedule_write ctx id guard f : (forall r, st_terms (f r) = st_terms r) ->
  fine (perform (WfSql (exec_write ctx (write_schedule id guard f)))).
Proof.
  intros Hf. apply fine_wwrite. intros ch w u d I (n & H)%exec_write_inv. eapply write_schedule_good; [exact Hf|apply I|exact H].
Qed.
Lemma fine_transition ctx from f id : (forall r, st_terms (f r) = st_terms r) ->
  fine (perform (WfSql (transition_query ctx from f id))).
Proof.
  intros Hf. apply fine_wwrite. intros ch w u d I H%wrap_inr. eapply write_schedule_good; [exact Hf|apply I|exact H].
Qed.
(** A status that is not success, or a column that is none of the identity. *)
Definition plain_write (f : occurrence_row -> occurrence_row) : Prop :=
  forall o, same_occurrence o (f o) /\ (so_Status (f o) = "succeeded" ->
    so_Status o = "succeeded" /\ so_LedgerTransactionID (f o) = so_LedgerTransactionID o).
Lemma plain_write_good d l id guard f n d' : sched_ok d l -> plain_write f -> write_occurrence id guard f d = inr (n, d') ->
  sched_ok d' l /\ sched_le d d'.
Proof. intros I Hf. apply write_occurrence_good; [done|]. intros o _. split; [apply Hf|]. intros H. left. by apply Hf. Qed.
Lemma fine_occurrence_write ctx id guard f : plain_write f -> fine (perform (WfSql (exec_write ctx (write_occurrence id guard f)))).
Proof.
  intros Hf. apply fine_wwrite. intros ch w u d I (n & H)%exec_write_inv. eapply plain_write_good; [apply I|exact Hf|exact H].
Qed.
Lemma plain_status status tx next code : status <> "succeeded" ->
  plain_write (fun o => with_run o status (match tx with Some _ => tx | None => so_LedgerTransactionID o end)
                          (so_AttemptCount o) next None None code).
Proof. intros Hn o. split; [by split|]. intros H. simpl in H. by destruct Hn. Qed.
Lemma fine_SetStatus id status code next : status <> "succeeded" -> fine (perform (WfSql (Occurrence_SetStatus id status code next None))).
Proof. intros H. by apply fine_occurrence_write, (plain_status status None). Qed.
Lemma fine_SetFee id fee : fine (perform (WfSql (SetFee id fee))).
Proof. apply fine_occurrence_write. intros o. split; [by split|]. by intros. Qed.
Lemma other_tables_good d l d' : sched_ok d l -> scheduled_transactions d' = scheduled_transactions d ->
  scheduled_occurrences d' = scheduled_occurrences d -> sched_ok d' l /\ sched_le d d'.
Proof.
  intros [A B C] E1 E2. split; split; unfold owner_of in *; rewrite ?E1, ?E2; try done;
    intros id r H; exists r; (split; [done|reflexivity]).
Qed.
Lemma fine_other {A} (q : wf_query sched_db A) :
  (forall ch d a d', q ch d = inr (a, d') -> scheduled_transactions d' = scheduled_transactions d /\
     scheduled_occurrences d' = scheduled_occurrences d) -> fine (perform (WfSql q)).
Proof.
  intros Hq. apply fine_wwrite. intros ch w u d I H. destruct (Hq _ _ _ _ H). eapply other_tables_good; [apply I|done..].
Qed.
Lemma fine_RecordAttempt id n a : fine (perform (WfSql (RecordAttempt id n a))).
Proof.
  apply fine_other. intros ch d u d' H%wrap_inr. destruct (n <=? 0); [done|]. destruct (negb _); [done|]. by injection H as _ <-.
Qed.
Lemma fine_FinishAttempt id at_ res retry code tx : fine (perform (WfSql (FinishAttempt id at_ res retry code tx))).
Proof. apply fine_other. intros ch d u d' [= _ <-]. done. Qed.
Lemma fine_close_attempts id now n : fine (perform (WfSql (close_attempts id now n))).
Proof. apply fine_other. intros ch d u d' [= _ <-]. done. Qed.
Lemma fine_InsertEvent e : fine (perform (WfSql (InsertScheduleEvent e))).
Proof. apply fine_other. intros ch d u d' [= _ <-]. done. Qed.
Lemma fine_RecordFailure id code n : fine (perform (WfSql (RecordScheduleBusinessFailure id code n))).
Proof.
  apply fine_wwrite. intros ch w b d I H%wrap_inr. destruct (schedule (ww_db w) id) as [r|]; [|done].
  destruct (bool_decide _); [|done]. destruct (write_schedule _ _ _ _) as [|[m d1]] eqn:E; [done|]. injection H as _ <-.
  eapply write_schedule_good; [|apply I|exact E]. done.
Qed.
Lemma fine_GetByID id : fine (perform (WfSql (GetByID id))).
Proof. apply fine_other. intros ch d r d'. unfold GetByID. destruct (schedule d id); [|done]. by intros [= _ <-]. Qed.
Lemma fine_Occurrence_Get id : fine (perform (WfSql (Occurrence_Get id))).
Proof. apply fine_other. intros ch d r d'. unfold Occurrence_Get. destruct (occurrence d id); [|done]. by intros [= _ <-]. Qed.
Lemma fine_Retry id : fine (perform (WfSql (Occurrence_Retry id))).
Proof.
  apply fine_wwrite. intros ch w u d I. unfold Occurrence_Retry. destruct (occurrence (ww_db w) id) as [o|]; [|done].
  destruct (_ && _); [|done]. destruct (write_occurrence _ _ _ _) as [|[m d1]] eqn:E; [done|]. intros [= _ <-].
  eapply plain_write_good; [apply I| |exact E]. intros o'. split; [by split|]. done.
Qed.
Lemma requeue_good d l P : sched_ok d l ->
  sched_ok (set_occurrences d (set_where P requeued (scheduled_occurrences d))) l /\
  sched_le d (set_occurrences d (set_where P requeued (scheduled_occurrences d))).
Proof.
  intros [A B C].
  assert (Hold : forall i p, set_where P requeued (scheduled_occurrences d) !! i = Some p ->
    exists q, occurrence d i = Some q /\ same_occurrence q p /\ (so_Status p = "succeeded" -> p = q)).
  { intros i p. rewrite lookup_set_where. destruct (occurrence d i) as [q|]; [|done]. intros [= <-]. exists q.
    split; [done|]. split; by destruct (P i q). }
  split; split; simpl.
  - intros i p (q & Hq & E & _)%Hold. rewrite (eo_schedule _ _ E), (eo_date _ _ E), (eo_key _ _ E). by eapply A.
  - intros i p j q (p' & Hp & E & _)%Hold (q' & Hq & E' & _)%Hold. rewrite (eo_key _ _ E), (eo_key _ _ E'). by apply B.
  - intros i p u (q & Hq & _ & E)%Hold Hs Hu. specialize (E Hs). subst p. by apply (C i q u).
  - intros i r Hr. by exists r.
  - intros i p Hp. rewrite lookup_set_where, Hp. simpl. eexists. split; [done|]. by destruct (P i p).
Qed.
Lemma fine_repo_ConfirmFeeCap id u cap : fine (perform (WfSql (repo_ConfirmFeeCap id u cap))).
Proof.
  apply fine_wwrite. intros ch w v d I. unfold repo_ConfirmFeeCap. destruct (write_schedule _ _ _ _) as [|[n d1]] eqn:E; [done|].
  apply write_schedule_good with (l := ww_ledger w) in E as [I1 L1]; [|done|apply I]. destruct (n =? 0); [done|]. intros [= _ <-].
  destruct (requeue_good d1 (ww_ledger w) (fun _ => awaits_consent id) I1) as [I2 L2]. split; [done|by transitivity d1].
Qed.
Lemma fine_Schedule_Create id u p k day dom who : fine (perform (WfSql (Schedule_Create id u p k day dom who))).
Proof.
  apply fine_wwrite. intros ch w v d I. unfold Schedule_Create. cbv zeta. case_bool_decide as Hn; [done|].
  apply eq_None_not_Some in Hn. destruct (schedule_row_ok _); [|done]. intros [= _ <-]. destruct (wi_rows _ I) as [A B C].
  split; split; simpl; try done.
  - intros i o Ho. destruct (A _ _ Ho) as [Ek [r Hr]]. split; [done|]. exists r. rewrite lookup_insert_ne; [done|]. congruence.
  - intros i o v' Ho Hs. destruct (A _ _ Ho) as [_ [r Hr]]. unfold owner_of. simpl. rewrite lookup_insert_ne by congruence. by apply C with i.
  - intros i r Hr. exists r. rewrite lookup_insert_ne by congruence. by split.
  - intros i o Ho. exists o. by split.
Qed.
Lemma fine_insert_occurrence i id row policy zone date :
  fine (perform (WfSql (insert_occurrence i (new_occurrence id row policy zone date)))).
Proof.
  apply fine_wwrite. intros ch w u d I H%wrap_inr. set (n := new_occurrence id row policy zone date) in *.
  destruct (negb (occurrence_ok n)); [done|]. destruct (any_occurrence (same_slot _ _) _); [injection H as _ <-; split; [apply I|reflexivity]|].
  destruct (_ || _) eqn:Eu; [done|]. apply orb_false_iff in Eu as [Ei En]. apply bool_decide_eq_false, eq_None_not_Some in Ei.
  destruct (negb (bool_decide (is_Some _))) eqn:Es; [done|]. apply negb_false_iff, bool_decide_eq_true in Es.
  injection H as _ <-. destruct (wi_rows _ I) as [A B C].
  assert (Hn : forall j p, occurrence (ww_db w) j = Some p -> so_IdempotencyKey p <> so_IdempotencyKey n).
  { intros j p Hj E. apply not_true_iff_false in En. destruct En. apply existsb_exists. exists (j, p).
    split; [by apply list_elem_of_In, elem_of_map_to_list|]. by apply bool_decide_eq_true. }
  split; split; simpl; try done.
  - intros j p [[<- <-]|[_ Hp]]%lookup_insert_Some; [|by eapply A]. by split.
  - intros j p k q [[<- <-]|[_ Hp]]%lookup_insert_Some [[<- <-]|[_ Hq]]%lookup_insert_Some E; [done| | |by eapply B].
    + by destruct (Hn _ _ Hq).
    + by destruct (Hn _ _ Hp).
  - intros j p v [[<- <-]|[_ Hp]]%lookup_insert_Some Hs; [done|by eapply C].
  - intros j r Hr. by exists r.
  - intros j p Hp. exists p. rewrite lookup_insert_ne by congruence. by split.
Qed.
Lemma fine_select_occurrence id t : fine (perform (WfSql (select_occurrence id t))).
Proof. apply fine_other. intros ch d r d'. unfold select_occurrence. destruct (head _); [|done]. by intros [= _ <-]. Qed.

(** ** Handlers that post nothing *)
(** The statements that write a schedule's row. *)
Ltac row_statement := cbv delta [BlockSchedule SetScheduleLastRun SetScheduleLastPlanned RecordScheduleSuccess UpdatePolicy
  MarkSuccess MarkBusinessFailure repo_Pause repo_Resume repo_Cancel]; cbv beta;
  solve [apply fine_schedule_write; done | apply fine_transition; done].
#[local] Hint Extern 2 (fine (perform (WfSql _))) => row_statement : workflow.
#[local] Hint Extern 0 (st_terms _ = st_terms _) => reflexivity : workflow.
#[local] Hint Extern 1 (_ <> "succeeded") => discriminate : workflow.
#[local] Hint Resolve fine_schedule_write fine_transition fine_SetStatus fine_SetFee
  fine_RecordAttempt fine_FinishAttempt fine_close_attempts fine_InsertEvent fine_RecordFailure fine_GetByID fine_Occurrence_Get
  fine_Retry fine_repo_ConfirmFeeCap fine_Schedule_Create fine_insert_occurrence fine_select_occurrence : workflow.
Lemma emit_fine e : fine (emit e).
Proof. unfold emit. walk. Qed.
#[local] Hint Resolve emit_fine : workflow.
Lemma businessFailure_fine id o row code cause : fine (businessFailure id o row code cause).
Proof.
  unfold businessFailure, emitScheduleFailure, emitSchedulePaused. cbv zeta. apply fine_seq; [walk|]. intros now.
  apply fine_seq; [walk|]. intros _. apply fine_ebind; [walk|]. intros b. apply fine_ebind; [walk|]. intros _.
  apply fine_ebind; [walk|]. intros _. apply fine_ebind.
  { apply fine_SetStatus. by repeat case_match. }
  intros _. walk.
Qed.
#[local] Hint Resolve businessFailure_fine : workflow.
Lemma infrastructure_failure_fine id o row err : fine (infrastructure_failure id o row err).
Proof. unfold infrastructure_failure, emitScheduleFailure, emitSchedulePaused. cbv zeta. walk. Qed.
Lemma plan_date_fine id row policy zone skipped err date : fine (plan_date id row policy zone skipped err date).
Proof.
  unfold plan_date, CreateOrGet, block_unreadable, emitScheduleFailure. apply fine_ebind; [walk|]. intros [i o]. cbv zeta.
  apply fine_ebind.
  { destruct (_ && _); [|walk]. apply fine_SetStatus. unfold skip_status. by destruct (bool_decide _). }
  intros _. walk.
Qed.
Lemma plan_dates_fine id row policy zone skips err dates latest found :
  fine (plan_dates id row policy zone skips err dates latest found).
Proof.
  revert latest found. induction dates as [|date dates IH]; intros latest found; [apply fine_ret|]. cbn [plan_dates].
  apply fine_ebind; [apply plan_date_fine|]. intros [b item]. apply IH.
Qed.
Lemma PlanSchedule_fine id asOf : fine (PlanSchedule loc id asOf).
Proof.
  unfold PlanSchedule, emitSchedulePaused. apply fine_ebind; [walk|]. intros row. destruct (negb _); [walk|]. cbv zeta.
  destruct (PlanMissed _ _ _ _ _ _) as [|plan]; [walk|]. apply fine_ebind; [apply plan_dates_fine|]. intros [latest found]. walk.
Qed.
Lemma run_all_fine {A} (f : A -> Flow.prog (wf_call sched_db) (Z * Z)) items e n : (forall a, fine (f a)) -> fine (run_each f items e n).
Proof.
  intros Hf. revert e n. induction items as [|a items IH]; intros e n; [apply fine_ret|]. cbn [run_each].
  apply fine_seq; [apply Hf|]. intros k. apply IH.
Qed.
Lemma requests_fine : (forall id u limit offset, fine (ListOccurrences id u limit offset)) /\
  (forall id u, fine (GetOccurrence id u)) /\ (forall id, fine (RetryOccurrence id)) /\ (forall id u cap, fine (ConfirmFeeCap id u cap)) /\
  (forall id u, fine (Pause id u)) /\ (forall id u, fine (Resume id u)) /\ (forall id u, fine (Cancel id u)).
Proof.
  unfold Pause, Resume, Cancel. split_and!; intros;
    unfold ListOccurrences, GetOccurrence, RetryOccurrence, ConfirmFeeCap, transition_schedule, Occurrence_List; walk.
Qed.
Lemma CreateWithCurrency_fine q currency : fine (CreateWithCurrency q currency).
Proof. unfold CreateWithCurrency. walk. Qed.
Lemma CreateWithPolicy_fine q policy currency zone at_ : fine (CreateWithPolicy reg q policy currency zone at_).
Proof.
  unfold CreateWithPolicy, CreateSchedule. destruct (NormalizePolicy _ _); [walk|]. do 3 (destruct (_ && _); [walk|]).
  apply fine_ebind; [apply CreateWithCurrency_fine|]. intros id. walk.
Qed.

(** ** Handlers that post *)
Lemma GetByID_ok id : op_ok D (WfSql (GetByID id)) (fun _ => True)
  (fun res w => match res with inr r => knows_schedule id r w | inl _ => True end).
Proof.
  apply wsql_ok. intros ch w r d I _. unfold GetByID. destruct (schedule (ww_db w) id) as [r0|] eqn:Hr; [|done].
  intros [= <- <-]. split_and!; [apply I|reflexivity|]. by exists r0.
Qed.
Lemma claim_ok id owner now : op_ok D (WfSql (claim_occurrence id owner now)) (fun _ => True)
  (fun res w => match res with inr o => knows_occurrence id o w | inl _ => True end).
Proof.
  apply wsql_ok. intros ch w o d I _. unfold claim_occurrence. cbv zeta.
  destruct (occurrence (ww_db w) id) as [o0|] eqn:Ho; [|done]. destruct (claimable_occurrence now o0); [|done].
  unfold write_occurrence. rewrite Ho. cbn [always negb]. destruct (occurrence_ok _); [|done]. intros [= <- <-].
  destruct (put_occurrence_good (ww_db w) (ww_ledger w) id o0 (with_run o0 "processing" (so_LedgerTransactionID o0)
    (so_AttemptCount o0 + 1) (so_NextAttemptAt o0) (Some owner) (Some (now + 2 * Minute)) (so_ErrorCode o0))) as [I1 L1];
    [apply I|done|by split|done|].
  split_and!; [done..|]. eexists. simpl. rewrite lookup_insert_eq. split; [done|reflexivity].
Qed.
Lemma SetStatus_done_ok id o r tx : op_ok D (WfSql (Occurrence_SetStatus id "succeeded" EmptyString None (Some tx)))
  (fun w => knows_occurrence id o w /\ knows_schedule (so_ScheduleID o) r w /\
     keyed (ww_ledger w) (so_IdempotencyKey o) (schedule_scope (st_UserID (st_terms r))) tx)
  (fun res _ => match res with inr _ => True | inl _ => True end).
Proof.
  unfold Occurrence_SetStatus. apply (wsql_ok _ _ (fun _ _ => True)).
  intros ch w u d I [(o' & Ho & E) [(r' & Hr & Et) Hk]] (n & H)%exec_write_inv.
  apply write_occurrence_good with (l := ww_ledger w) in H as [I1 L1]; [by split_and!|apply I|].
  intros p Hp. assert (p = o') as -> by congruence. split; [by split|]. intros _. right. intros v. unfold owner_of. simpl.
  rewrite (eo_schedule _ _ E), Hr. simpl. intros [= <-]. exists tx. split; [done|]. by rewrite (eo_key _ _ E), Et.
Qed.
Lemma safe_succeed id o r c fee w : knows_occurrence id o w -> knows_schedule (so_ScheduleID o) r w ->
  safe D (succeed id o r c fee) (fun _ _ => True) w.
Proof.
  intros Ho Hr. unfold succeed. cbv zeta. eapply safe_ebind.
  { apply (safe_wrap D _ _ (fun tx w' => keyed (ww_ledger w') (so_IdempotencyKey o) (schedule_scope (st_UserID (st_terms r))) tx)).
    apply safe_wf_lookup. }
  intros tx w1 L1 Hk. eapply safe_seq; [apply wf_now_fine|]. intros now w2 L2 _.
  eapply safe_ebind with (Q := fun _ _ => True).
  { eapply safe_weaken; [apply fine_FinishAttempt|by intros []]. }
  intros _ w3 L3 _. eapply safe_ebind with (Q := fun _ _ => True).
  { eapply safe_weaken; [eapply safe_op; [apply (SetStatus_done_ok id o r tx)|]|by intros []].
    intros w4 L4. assert (L : wf_le w w4) by (etransitivity; [exact L1|]; etransitivity; [exact L2|]; by etransitivity).
    split_and!; [by eapply knows_occurrence_le|by eapply knows_schedule_le|].
    apply (ll_keyed _ _ (wl_ledger _ _ L4)), (ll_keyed _ _ (wl_ledger _ _ L3)), (ll_keyed _ _ (wl_ledger _ _ L2)), Hk. }
  intros _ w4 _ _. by_fine.
Qed.
Lemma commandFromRow_stored r c : commandFromRow r = inr c -> stored_command (st_terms r) c.
Proof.
  unfold commandFromRow. cbv zeta. destruct (st_CmdPayload (st_terms r)) as [p|] eqn:Ep; [|done].
  destruct (negb (_ =? 1)); [done|]. destruct (negb (_ =? 1)); [done|]. destruct (negb (bool_decide (_ ∈ allowedTypes))) eqn:Et; [done|].
  apply negb_false_iff, bool_decide_eq_true in Et. destruct (_ && _); [done|]. destruct (negb _); [done|]. destruct (bool_decide _); [done|].
  destruct (dec_of_string (sc_Amount p)) as [a|] eqn:Ea; [|done]. destruct (negb (_ && _)) eqn:Eok; [done|].
  apply negb_false_iff, andb_true_iff in Eok as [Eok _]. destruct (_ && _); [done|]. intros E. apply (inj inr) in E. subst c.
  exists p, a. by split_and!.
Qed.
Lemma safe_post_occurrence id o r c cur fee gw t w : knows_occurrence id o w -> knows_schedule (so_ScheduleID o) r w ->
  stored_command (st_terms r) c -> safe D (post_occurrence x id o r c (or_text (sc_Currency c) cur) fee gw t) (fun _ _ => True) w.
Proof.
  intros Ho Hr Hc. unfold post_occurrence. eapply safe_ebind with (Q := fun _ _ => True).
  { eapply safe_weaken; [|by intros []]. by_fine. }
  intros _ w1 L1 _. eapply safe_ebind with (Q := fun _ _ => True).
  { eapply safe_weaken; [apply fine_RecordAttempt|by intros []]. }
  intros _ w2 L2 _. cbv zeta.
  assert (L : wf_le w w2) by (by etransitivity). apply (knows_occurrence_le _ _ _ _ L) in Ho. apply (knows_schedule_le _ _ _ _ L) in Hr.
  eapply safe_seq.
  { apply safe_execute. left. destruct Ho as (o' & Ho & E), Hr as (r' & Hr & Et).
    exists id, o', r', c, cur, (priced_metadata (sc_Metadata c) fee gw). by rewrite (eo_schedule _ _ E), (eo_key _ _ E), Et. }
  intros [err|[]] w3 L3 _; apply (knows_occurrence_le _ _ _ _ L3) in Ho; apply (knows_schedule_le _ _ _ _ L3) in Hr.
  - destruct (errors_is err ErrAlreadyPosted); [by apply safe_succeed|]. destruct (is_business_failure err); [apply businessFailure_fine|].
    apply infrastructure_failure_fine.
  - by apply safe_succeed.
Qed.
Lemma ExecuteOccurrence_fine id owner : fine (ExecuteOccurrence x id owner).
Proof.
  intros w. unfold ExecuteOccurrence. eapply safe_seq; [apply wf_now_fine|]. intros now w1 L1 _.
  eapply (safe_seq D _ _ (fun res w' => match res with inr o => knows_occurrence id o w' | inl _ => True end)).
  { unfold Claim. apply safe_bind. eapply safe_weaken; [eapply safe_op; [apply (claim_ok id owner now)|done]|].
    intros [err|o] w2 L2 Ho; [done|]. destruct (1 <? so_AttemptCount o); [|exact Ho]. apply safe_bind.
    eapply safe_weaken; [apply fine_wrap, fine_close_attempts|]. intros [err|[]] w3 L3 _; [done|]. by eapply knows_occurrence_le. }
  intros [err|o] w2 L2 Ho; [by destruct (is_no_rows err)|]. eapply safe_seq; [apply wf_now_fine|]. intros started w3 L3 _.
  apply (knows_occurrence_le _ _ _ _ L3) in Ho. eapply safe_ebind with (Q := fun _ _ => True).
  { eapply safe_weaken; [apply fine_RecordAttempt|by intros []]. }
  intros _ w4 L4 _. apply (knows_occurrence_le _ _ _ _ L4) in Ho. eapply safe_ebind; [by eapply safe_op; [apply GetByID_ok|]|].
  intros r w5 L5 Hr. apply (knows_occurrence_le _ _ _ _ L5) in Ho. destruct (negb _); [by_fine|].
  destruct (commandFromRow r) as [err|c] eqn:Ec; [apply businessFailure_fine|]. apply commandFromRow_stored in Ec. cbv zeta.
  eapply (safe_seq D _ _ (fun _ _ => True)).
  { unfold resolveFee. cbv zeta. by_fine. }
  intros [err|[fee gw]] w6 L6 _; [apply businessFailure_fine|]. destruct (fee_refusal r fee gw) as [[code err]|]; [apply businessFailure_fine|].
  apply safe_post_occurrence; [by eapply knows_occurrence_le|by eapply knows_schedule_le|done].
Qed.
Lemma RunDurable_fine asOf : fine (RunDurable x loc asOf).
Proof.
  unfold RunDurable, ListAllActive. apply fine_ebind; [walk|]. intros rows. apply fine_seq; [|walk]. apply run_all_fine. intros [id r].
  unfold run_schedule. apply fine_seq; [apply PlanSchedule_fine|]. intros [err|items]; [walk|]. apply run_all_fine. intros [i o].
  unfold run_planned. destruct (_ <? _); [walk|]. destruct (bool_decide _); [walk|]. apply fine_seq; [apply ExecuteOccurrence_fine|]. walk.
Qed.
Lemma ListDue_ok today : op_ok D (WfSql (ListDue today)) (fun _ => True)
  (fun res w => match res with inr rows => Forall (fun kr => knows_schedule kr.1 kr.2 w) rows | inl _ => True end).
Proof.
  apply wread_ok. intros w I. apply Forall_forall. intros [id r] H. unfold schedules_by_id in H.
  rewrite merge_sort_Permutation in H. apply elem_of_rows_where in H as [H _]. by exists r.
Qed.
Lemma safe_run_due_row today id r w : knows_schedule id r w -> safe D (run_due_row x today (id, r)) (fun _ _ => True) w.
Proof.
  intros (r' & Hr & Et). unfold run_due_row. cbv zeta. cbn [fst snd].
  destruct (st_CmdPayload (st_terms r)) as [p|] eqn:Ep; [|by_fine].
  destruct (dec_of_string (sc_Amount p)) as [a|] eqn:Ea; [|by_fine]. eapply safe_seq.
  { apply safe_execute. right. exists id, r', p, a, today. by rewrite Et. }
  intros posted w1 _ _. by_fine.
Qed.
Lemma RunDue_fine today : fine (RunDue x today).
Proof.
  intros w. unfold RunDue. eapply safe_ebind.
  { apply (safe_wrap D _ _ (fun rows w' => Forall (fun kr => knows_schedule kr.1 kr.2 w') rows)).
    eapply safe_op; [apply ListDue_ok|done]. }
  intros rows w1 _ HF. eapply (safe_seq D _ _ (fun _ _ => True)); [|done].
  generalize 0 at 1. generalize 0. revert w1 HF. induction rows as [|[id r] rows IH]; intros w1 HF n e; [done|].
  apply Forall_cons in HF as [Hr HF]. cbn [run_each]. eapply safe_seq; [by apply safe_run_due_row|]. intros k w2 L2 _. apply IH.
  eapply Forall_impl; [exact HF|]. intros kr. by apply knows_schedule_le.
Qed.

(** ** Every reachable state *)
Inductive sched_entry : Flow.prog (wf_call sched_db) unit -> Prop :=
  | se_create q currency : sched_entry (logged (CreateWithCurrency q currency))
  | se_create_policy q policy currency zone at_ : sched_entry (logged (CreateWithPolicy reg q policy currency zone at_))
  | se_pause id u : sched_entry (logged (Pause id u))
  | se_resume id u : sched_entry (logged (Resume id u))
  | se_cancel id u : sched_entry (logged (Cancel id u))
  | se_plan id asOf : sched_entry (logged (PlanSchedule loc id asOf))
  | se_execute id owner : sched_entry (logged (ExecuteOccurrence x id owner))
  | se_durable asOf : sched_entry (logged (RunDurable x loc asOf))
  | se_due today : sched_entry (logged (RunDue x today))
  | se_retry id : sched_entry (logged (RetryOccurrence id))
  | se_confirm id u cap : sched_entry (logged (ConfirmFeeCap id u cap)).
(** Fee rules change, and the relay takes events away. *)
Definition sched_outside d d' : Prop :=
  scheduled_transactions d' = scheduled_transactions d /\ scheduled_occurrences d' = scheduled_occurrences d.
Definition sched_start d : Prop := scheduled_transactions d = ∅ /\ scheduled_occurrences d = ∅.
Definition sched_reachable := wf_reachable sched_entry sched_outside sched_start.
Lemma sched_entry_fine p : sched_entry p -> fine p.
Proof.
  destruct requests_fine as (_ & _ & Hretry & Hcap & Hpause & Hresume & Hcancel).
  destruct 1; apply fine_logged; auto using CreateWithCurrency_fine, CreateWithPolicy_fine, PlanSchedule_fine,
    ExecuteOccurrence_fine, RunDurable_fine, RunDue_fine.
Qed.
Lemma sched_outside_ok d d' l : sched_ok d l -> sched_outside d d' -> sched_ok d' l /\ sched_le d d'.
Proof. intros I [E1 E2]. by eapply other_tables_good. Qed.
Lemma sched_start_ok d l : sched_start d -> sched_ok d l.
Proof. intros [Hs Ho]. split; unfold owner_of; rewrite ?Hs, ?Ho; done. Qed.

(** C19: Each runner pays a schedule's date at most once, as the schedule says.  The
    durable runner and the older one post under the same key but in different scopes,
    schedule:<owner> and <owner>.  In every state any interleaving of the two runners,
    users, operators, changing fee rules, crashes and lost answers can reach: what the
    ledger has posted under a schedule's date in the durable runner's scope is the only
    transaction there, and was commanded for the one occurrence of that schedule and
    date, with its owner and the type, amount, target and pocket stored when it was
    created; in the older runner's scope there is at most one transaction under that
    key too, and the commands the runners send in it are those of that schedule for its
    owner, with its stored payload and amount; an occurrence marked succeeded names the
    durable runner's transaction; and no schedule's terms and no occurrence's date ever
    change.  So a date is paid at most twice in all, once in each scope, and
    both_runners_pay_one_date shows that it may be: nothing keeps the two runners from
    paying the same date.  (Only the schedule: scopes are taken to be the runner's own;
    a user's own requests share the bare scope.) *)
Theorem each_runner_pays_a_date_once (Huuid : forall u, forall_chars no_colon (uuid_string u) = true) w ps w' ps' :
  sched_reachable (w, ps) -> rtc (sys_step wf_step sched_entry (wf_env sched_outside)) (w, ps) (w', ps') ->
  (forall id day u tx, under_key (ww_ledger w) (OccurrenceIdempotencyKey id day) (schedule_scope u) tx ->
     (forall tx', under_key (ww_ledger w) (OccurrenceIdempotencyKey id day) (schedule_scope u) tx' -> tx' = tx) /\
     exists i o r sc currency m, occurrence (ww_db w) i = Some o /\ so_ScheduleID o = id /\ so_ScheduledLocalDate o = day /\
       schedule (ww_db w) id = Some r /\ st_UserID (st_terms r) = u /\ stored_command (st_terms r) sc /\
       occurrence_command (OccurrenceIdempotencyKey id day) u sc (or_text (sc_Currency sc) currency) m ∈ ww_sent w /\
       forall j o', occurrence (ww_db w) j = Some o' -> so_ScheduleID o' = id -> so_ScheduledLocalDate o' = day -> j = i) /\
  (forall id day u,
     (forall tx tx', under_key (ww_ledger w) (OccurrenceIdempotencyKey id day) (uuid_string u) tx ->
        under_key (ww_ledger w) (OccurrenceIdempotencyKey id day) (uuid_string u) tx' -> tx' = tx) /\
     forall c, c ∈ ww_sent w -> IdempotencyKey c = OccurrenceIdempotencyKey id day -> IdempotencyScope c = uuid_string u ->
       exists r p amount, schedule (ww_db w) id = Some r /\ st_UserID (st_terms r) = u /\ st_CmdPayload (st_terms r) = Some p /\
         dec_of_string (sc_Amount p) = Some amount /\ c = legacy_command id (st_terms r) p amount day) /\
  (forall i o r, occurrence (ww_db w) i = Some o -> so_Status o = "succeeded" -> schedule (ww_db w) (so_ScheduleID o) = Some r ->
     exists tx, so_LedgerTransactionID o = Some tx /\
       keyed (ww_ledger w) (OccurrenceIdempotencyKey (so_ScheduleID o) (so_ScheduledLocalDate o))
         (schedule_scope (st_UserID (st_terms r))) tx) /\
  (forall id r, schedule (ww_db w) id = Some r -> exists r', schedule (ww_db w') id = Some r' /\ st_terms r' = st_terms r) /\
  (forall i o, occurrence (ww_db w) i = Some o -> exists o', occurrence (ww_db w') i = Some o' /\ same_occurrence o o').
Proof.
  intros Hr Hs. assert (I := wf_reachable_inv _ _ _ sched_start_ok sched_entry_fine sched_outside_ok _ _ Hr).
  assert (L := wf_steps_le _ _ _ sched_start_ok sched_entry_fine sched_outside_ok _ _ Hr Hs). cbn [fst] in L.
  split; [|split; [|split; [|split; [apply (se_schedule _ _ (wl_rows _ _ L))|apply (se_occurrence _ _ (wl_rows _ _ L))]]]].
  - intros id day u tx Ht.
    destruct (wf_origin (WF := schedules) _ _ _ sched_start_ok sched_entry_fine sched_outside_ok w ps _ _ tx Hr (sk_date id day u) Ht)
      as (Hu & c & Hc & Ek & Es & [(i & o & r & sc & cur & m & Ho & Hrow & Hsc & ->)|(i & r & p & a & today & _ & _ & _ & ->)]).
    + split; [exact Hu|]. destruct (sk_key _ _ (wi_rows _ I) _ _ Ho) as [Hkey _]. simpl in Ek, Es.
      apply schedule_scope_inj in Es. rewrite Hkey in Ek. apply occurrence_key_inj in Ek as [<- <-].
      exists i, o, r, sc, cur, m. split_and!; try done; [by rewrite <- Es, <- Hkey|].
      intros j o' Hj E1 E2. apply (sk_unique _ _ (wi_rows _ I) _ _ _ _ Hj Ho).
      rewrite Hkey. destruct (sk_key _ _ (wi_rows _ I) _ _ Hj) as [-> _]. by rewrite E1, E2.
    + by apply schedule_scope_not_user in Es.
  - intros id day u. split.
    { intros tx tx' [Ht _] [Ht' _]. eapply keyed_unique; [apply I|done..]. }
    intros c Hc Ek Es. destruct (wi_sent _ I c Hc) as [(i & o & r & sc & cur & m & _ & _ & _ & ->)|(i & r & p & a & today & Hrow & Hp & Ha & ->)].
    + symmetry in Es. by apply schedule_scope_not_user in Es.
    + apply occurrence_key_inj in Ek as [-> ->]. exists r, p, a. by apply uuid_string_inj in Es.
  - intros i o r Ho Hd Hrow. destruct (sk_key _ _ (wi_rows _ I) _ _ Ho) as [<- _]. eapply (sk_done _ _ (wi_rows _ I)); [done..|].
    unfold owner_of. by rewrite Hrow.
Qed.
End safe.

(** ** Running on the specification ledger *)
#[local] Existing Instance QDecimal.decimal.
#[local] Existing Instance NumUuid.uuid_text.
#[local] Instance wib_only : Zones := fun _ => Some WIB.
#[local] Instance demo_digests : CommandDigests := {| text_digest _ := "text"; canonical_digest _ := "canonical" |}.
Notation sworld := (wf_world (LED := SpecLedger) sched_db).
Notation sprog := (Flow.prog (wf_call sched_db) unit).
Definition sched_new_id (w : sworld) : uuid :=
  N.of_nat (1 + size (scheduled_transactions (ww_db w)) + size (scheduled_occurrences (ww_db w))
            + 10 * length (policy_decisions (ww_exec w))).
Definition no_fees : uuid -> string -> string -> string -> dec -> dec * string * bool := fun _ _ _ _ a => (dec_of_Z 0, EmptyString, false).
Definition sched_zero : sworld :=
  wf_zero (SchedDb ∅ ∅ ∅ [] no_fees) {[(5%N, None) := demo_subject]}.
Definition rent (kind : string) : ScheduleRequest :=
  MkScheduleRequest 5%N "transfer_p2p" (dec_of_Z 700) 6%N EmptyString ∅ kind 20000 None "alice".
Definition created (kind : string) : sprog * list bool := (logged (CreateSchedule (rent kind)), []).
(** Noon of the n-th day after the schedule's first. *)
Definition noon (n : Z) : Z := (20000 + n) * Day + 5 * Hour.
Definition durable (n : Z) : sprog := logged (RunDurable demo_executor WIB (noon n)).
Definition older (n : Z) : sprog := logged (RunDue demo_executor (20000 + n)).
(** On the n-th day's noon. *)
Definition sched_on (n : Z) (ps : list (sprog * list bool)) (w : sworld) : sworld := exec_all (wf_respond (noon n) sched_new_id) ps w.
Definition occurrence_states (w : sworld) : list (Z * string * option uuid) :=
  (fun r => (so_ScheduledLocalDate r.2 - 20000, so_Status r.2, so_LedgerTransactionID r.2)) <$> map_to_list (scheduled_occurrences (ww_db w)).
Definition schedule_states (w : sworld) : list string := (fun r => st_Status r.2) <$> map_to_list (scheduled_transactions (ww_db w)).
Notation reaches := (sched_reachable (LED := SpecLedger) demo_executor WIB init_registry).
Notation steps := (rtc (sys_step wf_step (sched_entry demo_executor WIB init_registry) (wf_env sched_outside))).
Notation is_entry := (sched_entry demo_executor WIB init_registry).
Definition stays (w : sworld) : Prop := reaches (w, []).
Lemma sched_zero_reaches : stays sched_zero.
Proof. exists (sched_zero, []). split; [apply wf_zero_initial; by split|reflexivity]. Qed.
Lemma reaches_on w n ps : stays w -> Forall (fun pf => is_entry pf.1) ps -> stays (sched_on n ps w).
Proof.
  intros (c0 & H0 & Hs) He. exists c0. split; [exact H0|]. etransitivity; [exact Hs|]. by apply wf_run_steps.
Qed.
Ltac run_reaches := repeat (apply reaches_on; [|repeat constructor]); apply sched_zero_reaches.

Lemma num_uuid_no_colon u : forall_chars no_colon (uuid_string u) = true.
Proof. cbn. apply number_no_colon. lia. Qed.
Definition paid_once : sworld := sched_on 0 [created "once"; (durable 0, [])] sched_zero.
Lemma durable_tx : under_key (ww_ledger paid_once) (OccurrenceIdempotencyKey 1%N 20000) (schedule_scope 5%N) 100%N.
Proof. split; [vm_compute; reflexivity|]. exists (OccurrenceIdempotencyKey 1%N 20000, schedule_scope 5%N). vm_compute. reflexivity. Qed.
Lemma each_runner_pays_a_date_once_witness :
  stays paid_once /\ (occurrence_states paid_once, schedule_states paid_once) = ([(0, "succeeded", Some 100%N)], ["finished"]) /\
  under_key (ww_ledger paid_once) (OccurrenceIdempotencyKey 1%N 20000) (schedule_scope 5%N) 100%N /\
  exists sc currency m, occurrence_command (OccurrenceIdempotencyKey 1%N 20000) 5%N sc (or_text (sc_Currency sc) currency) m ∈ ww_sent paid_once.
Proof.
  assert (Hr : stays paid_once) by run_reaches.
  split; [exact Hr|]. split; [vm_compute; reflexivity|]. split; [exact durable_tx|].
  destruct (each_runner_pays_a_date_once demo_executor WIB init_registry num_uuid_no_colon paid_once [] paid_once [] Hr
    ltac:(reflexivity)) as (H & _).
  destruct (H 1%N 20000 5%N 100%N durable_tx) as (_ & _ & _ & _ & sc & currency & m & _ & _ & _ & _ & _ & _ & Hc & _).
  exists sc, currency, m. exact Hc.
Defined.

(** ** Where the code and its comments part
    A run that fails between claiming an occurrence and recording its outcome leaves it
    processing under a lease.  Once the lease is over the occurrence could be claimed
    again, but no later run comes back to it: planning passes over what is processing,
    so the lease recovery the code relies on never happens.  Here the payment was
    posted and the occurrence never says so; *)
Definition unrecorded (ps : list (sprog * list bool)) : sworld :=
  sched_on 0 ([created "once"; (durable 0, replicate 23 false ++ [true])] ++ ps) sched_zero.
Lemma a_posted_occurrence_stays_processing :
  stays (unrecorded []) /\ occurrence_states (unrecorded []) = [(0, "processing", None)] /\
  under_key (ww_ledger (unrecorded [])) (OccurrenceIdempotencyKey 1%N 20000) (schedule_scope 5%N) 100%N /\
  Forall (fun n => occurrence_states (sched_on n [(durable n, [])] (unrecorded [])) = [(0, "processing", None)]) [0; 1; 2; 30].
Proof.
  split; [run_reaches|]. split; [vm_compute; reflexivity|]. split; [|repeat constructor; vm_compute; reflexivity].
  split; [vm_compute; reflexivity|]. exists (OccurrenceIdempotencyKey 1%N 20000, schedule_scope 5%N). vm_compute. reflexivity.
Qed.
(** and here it was not posted, and never is. *)
Definition claimed_only : sworld := sched_on 0 [created "once"; (durable 0, replicate 9 false ++ [true])] sched_zero.
Lemma a_claimed_occurrence_is_never_paid :
  stays claimed_only /\ occurrence_states claimed_only = [(0, "processing", None)] /\
  Forall (fun n => let w := sched_on n [(durable n, [])] claimed_only in
    occurrence_states w = [(0, "processing", None)] /\ length (ww_sent w) = 0%nat) [0; 1; 2; 30].
Proof.
  split; [run_reaches|]. split; [vm_compute; reflexivity|].
  repeat constructor; vm_compute; reflexivity.
Qed.
(** The two runners post under different scopes, so what one has posted and not
    recorded the other posts again. *)
Definition both_runners : sworld :=
  sched_on 0 [created "once"; (older 0, replicate 8 false ++ [true]); (durable 0, [])] sched_zero.
Lemma both_runners_pay_one_date :
  stays both_runners /\ occurrence_states both_runners = [(0, "succeeded", Some 101%N)] /\
  sl_keys (ww_ledger both_runners) !! (OccurrenceIdempotencyKey 1%N 20000, schedule_scope 5%N) = Some 101%N /\
  sl_keys (ww_ledger both_runners) !! (OccurrenceIdempotencyKey 1%N 20000, uuid_string 5%N) = Some 100%N.
Proof. split; [run_reaches|]. split; [vm_compute; reflexivity|]. split; vm_compute; reflexivity. Qed.
(** A schedule created with a policy exists before it has it: the durable runner may
    come in between and pay at half past midnight in Jakarta what was to be paid at
    eleven in the evening, or not at all above a fee of nothing. *)
Definition asked : sprog :=
  logged (CreateWithPolicy init_registry (rent "once") (MkPolicy EmptyString 0 0 0 0 EmptyString (Some 0)) EmptyString "UTC" "23:00").
Definition half_created : sprog * sworld := exec_part (wf_respond (noon 0) sched_new_id) 2 asked [] sched_zero.
Definition ran_between : sworld := sched_on 0 [(durable 0, [])] half_created.2.
Definition asked_first : sworld := sched_on 0 [(asked, []); (durable 0, [])] sched_zero.
Lemma a_half_created_schedule_runs :
  reaches (ran_between, [half_created.1]) /\ occurrence_states ran_between = [(0, "succeeded", Some 100%N)] /\
  stays asked_first /\ occurrence_states asked_first = [(0, "planned", None)].
Proof.
  split; [|split; [vm_compute; reflexivity|split; [run_reaches|vm_compute; reflexivity]]].
  exists (sched_zero, []). split; [apply wf_zero_initial; by split|].
  assert (Ha : is_entry asked) by constructor. assert (Hd : is_entry (durable 0)) by constructor.
  eapply rtc_l; [apply ss_start, Ha|]. etransitivity.
  { apply (exec_part_steps _ _ (wf_respond_step (noon 0) sched_new_id) _ _ 2 asked [] sched_zero []). }
  eapply rtc_l; [apply ss_start, Hd|]. etransitivity.
  { apply (exec_steps _ _ (wf_respond_step (noon 0) sched_new_id) _ _ (durable 0) [] half_created.2 [half_created.1]). }
  apply rtc_once, (ss_stop _ _ _ _ [] _ [half_created.1]).
Qed.
