(* ===== verification/Dispute.v ===== *)
(** * Chargeback disputes: services/ledger/internal/ledger/dispute

    The case record of a disputed charge: opened against a posted transaction, moved by
    evidence, a decision or its deadline, every move logged and announced.  Tables of
    migrations 000035, 000037, 000046 and 000047, over the ledger's own tables, whose
    transactions and accounts the cases refer to.  The repository is wired with an
    outbox, as NewModule does; the clock of an event is read before its transaction. *)
From Stdlib Require Import String.
From stdpp Require Import prelude gmap strings list sorting.
From S2P Require Import Prelude Decimal Errors Currency Events Processors Store Flow LedgerApi Executor Workflow.
Open Scope Z_scope.

(** ** Tables *)
Record dispute_row := DisputeRow {
  cd_original_tx_id : uuid; cd_chargeback_tx_id : option uuid; cd_dispute_ref : string; cd_card_network : string;
  cd_reason_code : option string; cd_amount : Z; cd_currency : string; cd_status : string; cd_evidence_due_at : option Z;
  cd_evidence_ref : option string; cd_resolved_at : option Z; cd_resolved_by : option string;
  cd_resolution_reason : option string; cd_created_by : string; cd_created_at : Z }.
Record status_change := StatusChange {
  cs_dispute_id : uuid; cs_from_status : string; cs_to_status : string; cs_reason : string; cs_changed_by : string;
  cs_created_at : Z }.
(** contracts/events/ledger: DisputeLifecycle *)
Record DisputeLifecycle := MkLifecycle {
  dy_SchemaVersion : Z; dy_EventID : option uuid; dy_DisputeID : uuid; dy_OriginalTxID : uuid;
  dy_RecipientUserID : option uuid; dy_DisputeRef : string; dy_CardNetwork : string; dy_ReasonCode : string;
  dy_Amount : string; dy_Currency : string; dy_FromStatus : string; dy_ToStatus : string; dy_EvidenceDueAt : option Z;
  dy_OccurredAt : Z }.
Definition TypeDisputeLifecycle : string := "ledger.dispute.lifecycle.v1".
Record dispute_db := DisputeDb {
  chargeback_disputes : gmap uuid dispute_row;
  chargeback_dispute_status_changes : list status_change;
  dispute_events : list DisputeLifecycle;       (* their rows of outbox_events *)
  ledger_db : database;
}.
Definition set_disputes d t := DisputeDb t (chargeback_dispute_status_changes d) (dispute_events d) (ledger_db d).
Definition add_change (c : status_change) d :=
  DisputeDb (chargeback_disputes d) (chargeback_dispute_status_changes d ++ [c]) (dispute_events d) (ledger_db d).
Definition add_lifecycle (e : DisputeLifecycle) d :=
  DisputeDb (chargeback_disputes d) (chargeback_dispute_status_changes d) (dispute_events d ++ [e]) (ledger_db d).

Definition card_networks : list string := ["visa"; "mastercard"; "jcb"; "amex"].
Definition open_statuses : list string := ["open"; "evidence_submitted"].
Definition terminal_statuses : list string := ["won"; "lost"; "expired"].
Definition is_open (r : dispute_row) : bool := bool_decide (cd_status r ∈ open_statuses).
Definition is_terminal (r : dispute_row) : bool := bool_decide (cd_status r ∈ terminal_statuses).
Definition dispute_row_ok (r : dispute_row) : bool :=
  bool_decide (cd_card_network r ∈ card_networks) && (0 <? cd_amount r) && in_int64 (cd_amount r)
  && bool_decide (cd_status r ∈ open_statuses ++ terminal_statuses)
  && bool_decide (is_terminal r = bool_decide (is_Some (cd_resolved_at r)) && bool_decide (is_Some (cd_resolved_by r))).
(** fn_validate_chargeback_dispute_amount: what it raises. *)
Definition amount_refused (d : dispute_db) (r : dispute_row) : option string :=
  match ledger_transactions (ledger_db d) !! cd_original_tx_id r with
  | None => Some "original ledger transaction does not exist"
  | Some t =>
      if t_amount t <? cd_amount r then Some "chargeback amount cannot exceed original transaction amount"
      else if negb (bool_decide (cd_currency r = t_currency t)) then
        Some "chargeback currency must match original transaction currency"
      else None
  end.
Definition insert_dispute (id : uuid) (r : dispute_row) (d : dispute_db) : error + dispute_db :=
  match amount_refused d r with
  | Some msg => inl (pg_raise msg)
  | None =>
      if negb (dispute_row_ok r) then inl pg_check
      else if bool_decide (is_Some (chargeback_disputes d !! id))
              || existsb (fun kr => bool_decide (cd_dispute_ref kr.2 = cd_dispute_ref r)) (map_to_list (chargeback_disputes d)) then
        inl pg_unique
      else inr (set_disputes d (<[id := r]> (chargeback_disputes d)))
  end.
(** A row with its transaction link replaced. *)
Definition linked_to (r : dispute_row) (tx : option uuid) : dispute_row :=
  DisputeRow (cd_original_tx_id r) tx (cd_dispute_ref r) (cd_card_network r) (cd_reason_code r) (cd_amount r)
    (cd_currency r) (cd_status r) (cd_evidence_due_at r) (cd_evidence_ref r) (cd_resolved_at r) (cd_resolved_by r)
    (cd_resolution_reason r) (cd_created_by r) (cd_created_at r).
#[export] Instance dispute_row_eq_dec : EqDecision dispute_row.
Proof. solve_decision. Defined.
(** An update: fn_chargeback_dispute_terminal_immutable, the checks and the reference. *)
Definition update_dispute (id : uuid) (old new : dispute_row) (d : dispute_db) : error + dispute_db :=
  if is_terminal old && negb (bool_decide (linked_to new None = linked_to old None)) then
    inl (pg_raise "terminal chargeback dispute fields are immutable")
  else if negb (dispute_row_ok new) then inl pg_check
  else if match cd_chargeback_tx_id new with
          | Some tx => bool_decide (ledger_transactions (ledger_db d) !! tx = None) | None => false end then inl pg_foreign
  else inr (set_disputes d (<[id := new]> (chargeback_disputes d))).

Section dispute.
Context `{DEC : !Decimal} `{UT : !UuidText}.
Notation prog := (Flow.prog (wf_call dispute_db)).
Notation sql s := (perform (WfSql s)).

(** ** Lifecycle events *)
(** ORDER BY CASE WHEN a.id = t.source_account_id THEN 0 ELSE 1 END, a.id LIMIT 1 *)
Definition user_side (d : database) (account : option uuid) : option account_row :=
  a ← account; row ← accounts d !! a; if bool_decide (a_owner_type row = "user") then Some row else None.
Definition disputeRecipient (d : database) (originalTxID : uuid) : option uuid :=
  match ledger_transactions d !! originalTxID with
  | None => None
  | Some t =>
      match user_side d (t_source_account_id t) with
      | Some row => a_owner_id row
      | None => user_side d (t_destination_account_id t) ≫= a_owner_id
      end
  end.
Definition NewDisputeLifecycle (disputeID originalTxID : uuid) (recipient : option uuid)
    (disputeRef cardNetwork reasonCode amount currency fromStatus toStatus : string) (evidenceDueAt : option Z) (occurredAt : Z)
    : DisputeLifecycle :=
  MkLifecycle 1
    (logicalEventID TypeDisputeLifecycle (uuid_string disputeID +:+ (":" +:+ (fromStatus +:+ (":" +:+ toStatus)))))
    disputeID originalTxID recipient disputeRef cardNetwork reasonCode amount currency fromStatus toStatus evidenceDueAt occurredAt.
Definition not_nil (u : option uuid) : option uuid :=
  match u with Some id => if bool_decide (id = uuid_Nil) then None else Some id | None => None end.
Definition insertLifecycleEvent (at_ : Z) (id : uuid) (r : dispute_row) (fromStatus toStatus : string) (d : dispute_db) : dispute_db :=
  add_lifecycle (NewDisputeLifecycle id (cd_original_tx_id r) (not_nil (disputeRecipient (ledger_db d) (cd_original_tx_id r)))
    (cd_dispute_ref r) (cd_card_network r) (default EmptyString (cd_reason_code r)) (Z_text (cd_amount r)) (cd_currency r)
    fromStatus toStatus (cd_evidence_due_at r) at_) d.

(** ** chargeback_dispute_repository.go *)
Record ChargebackDispute := MkDispute {
  dp_OriginalTxID : uuid; dp_DisputeRef : string; dp_CardNetwork : string; dp_ReasonCode : string; dp_Amount : dec;
  dp_Currency : string; dp_EvidenceDueAt : option Z; dp_CreatedBy : string }.
Definition opened (p : ChargebackDispute) (now : Z) : dispute_row :=
  DisputeRow (dp_OriginalTxID p) None (dp_DisputeRef p) (dp_CardNetwork p) (nullString (dp_ReasonCode p))
    (dec_int_part (dp_Amount p)) (dp_Currency p) "open" (dp_EvidenceDueAt p) None None None None (dp_CreatedBy p) now.
Definition CreateDispute (id : uuid) (p : ChargebackDispute) (at_ : Z) : wf_query dispute_db unit := fun ch d =>
  let r := opened p (ch_now ch) in
  match insert_dispute id r d with
  | inl err => if IsDuplicateKey err then inl (wrapf ErrValidation "dispute_ref already has a case")
               else inl (Wrap "create chargeback dispute" err)
  | inr d => inr (tt, insertLifecycleEvent at_ id r EmptyString "open" d)
  end.
Definition no_dispute {A} : error + A := inl (wrapf ErrChargebackDisputeNotFound EmptyString).
Definition GetDispute (id : uuid) : wf_query dispute_db dispute_row := fun _ d =>
  match chargeback_disputes d !! id with Some r => inr (r, d) | None => no_dispute end.
Definition GetDisputeByRef (ref : string) : wf_query dispute_db (uuid * dispute_row) := fun _ d =>
  match head (rows_where (fun _ r => bool_decide (cd_dispute_ref r = ref)) (chargeback_disputes d)) with
  | Some row => inr (row, d) | None => no_dispute end.
Definition ListDisputesByOriginalTx (tx : uuid) : wf_query dispute_db (list (uuid * dispute_row)) :=
  wf_read (fun d => ordered_rows (fun r => Some (cd_created_at r)) (fun _ r => bool_decide (cd_original_tx_id r = tx))
    (chargeback_disputes d)).
(** ORDER BY evidence_due_at ASC NULLS LAST, created_at ASC *)
Definition more_urgent (a b : uuid * dispute_row) : Prop :=
  match cd_evidence_due_at a.2, cd_evidence_due_at b.2 with
  | Some x, Some y => x < y \/ x = y /\ cd_created_at a.2 <= cd_created_at b.2
  | Some _, None => True
  | None, Some _ => False
  | None, None => cd_created_at a.2 <= cd_created_at b.2
  end.
#[export] Instance more_urgent_dec : RelDecision more_urgent.
Proof. intros a b. unfold more_urgent. destruct (cd_evidence_due_at a.2), (cd_evidence_due_at b.2); apply _. Defined.
Definition repo_ListOpenDisputes (limit offset : Z) : wf_query dispute_db (list (uuid * dispute_row)) :=
  wf_read (fun d => take (Z.to_nat limit) (drop (Z.to_nat offset)
    (merge_sort more_urgent (rows_where (fun _ => is_open) (chargeback_disputes d))))).
Definition with_outcome (r : dispute_row) (status : string) (evidence : option string) (at_ : option Z) (by_ reason : option string)
    : dispute_row :=
  DisputeRow (cd_original_tx_id r) (cd_chargeback_tx_id r) (cd_dispute_ref r) (cd_card_network r) (cd_reason_code r)
    (cd_amount r) (cd_currency r) status (cd_evidence_due_at r) evidence at_ by_ reason (cd_created_by r) (cd_created_at r).
(** The update, its row of the audit trail, and its event. *)
Definition move_dispute (id : uuid) (old new : dispute_row) (reason changedBy : string) (now at_ : Z) (d : dispute_db)
    : error + dispute_db :=
  let~ d := update_dispute id old new d in
  inr (insertLifecycleEvent at_ id old (cd_status old) (cd_status new)
         (add_change (StatusChange id (cd_status old) (cd_status new) reason changedBy now) d)).
Definition before_deadline (now : Z) (r : dispute_row) : bool :=
  match cd_evidence_due_at r with Some due => now <? due | None => true end.
Definition repo_SubmitEvidence (id : uuid) (evidenceRef changedBy : string) (at_ : Z) : wf_query dispute_db Z := fun ch d =>
  wrap_query "submit chargeback dispute evidence"
    match chargeback_disputes d !! id with
    | Some r =>
        if bool_decide (cd_status r = "open") && before_deadline (ch_now ch) r then
          let~ d := move_dispute id r (with_outcome r "evidence_submitted" (nullString evidenceRef) (cd_resolved_at r)
                                         (cd_resolved_by r) (cd_resolution_reason r)) EmptyString changedBy (ch_now ch) at_ d in
          inr (1, d)
        else inr (0, d)
    | None => inr (0, d)
    end.
Definition resolved (r : dispute_row) (status by_ : string) (reason : option string) (now : Z) : dispute_row :=
  with_outcome r status (cd_evidence_ref r) (Some now) (Some by_) reason.
Definition repo_ResolveDispute (id : uuid) (status resolvedBy reason : string) (at_ : Z) : wf_query dispute_db Z := fun ch d =>
  wrap_query "resolve chargeback dispute"
    match chargeback_disputes d !! id with
    | Some r =>
        if is_open r then
          let~ d := move_dispute id r (resolved r status resolvedBy (nullString reason) (ch_now ch)) reason resolvedBy (ch_now ch) at_ d in
          inr (1, d)
        else inr (0, d)
    | None => inr (0, d)
    end.
(** ORDER BY evidence_due_at ASC, id ASC *)
Definition due_first (a b : uuid * dispute_row) : Prop :=
  default 0 (cd_evidence_due_at a.2) < default 0 (cd_evidence_due_at b.2)
  \/ default 0 (cd_evidence_due_at a.2) = default 0 (cd_evidence_due_at b.2) /\ (a.1 <= b.1)%N.
#[export] Instance due_first_dec : RelDecision due_first.
Proof. intros a b. unfold due_first. apply _. Defined.
Definition past_due (now : Z) (r : dispute_row) : bool :=
  is_open r && match cd_evidence_due_at r with Some due => due <=? now | None => false end.
Definition listDueTransitionCandidates (ch : db_choice) (now : Z) (d : dispute_db) : list (uuid * dispute_row) :=
  take 100 (filter (fun kr => kr.1 ∉ ch_locked ch)
    (merge_sort due_first (rows_where (fun _ => past_due now) (chargeback_disputes d)))).
(** The candidates are locked: each update changes its row. *)
Fixpoint expire_candidates (actor reason : string) (now at_ : Z) (rows : list (uuid * dispute_row)) (d : dispute_db)
    : error + dispute_db :=
  match rows with
  | [] => inr d
  | (id, r) :: rows =>
      let~ d := move_dispute id r (resolved r "expired" actor (Some reason) now) reason actor now at_ d in
      expire_candidates actor reason now at_ rows d
  end.
Definition repo_ExpireDueDisputes (now : Z) (actor reason : string) (at_ : Z) : wf_query dispute_db Z := fun ch d =>
  wrap_query "expire due chargeback disputes"
    (let rows := listDueTransitionCandidates ch now d in
     let~ d := expire_candidates actor reason (ch_now ch) at_ rows d in
     inr (Z.of_nat (length rows), d)).
Definition repo_LinkChargebackTx (id tx : uuid) : wf_query dispute_db Z := fun _ d =>
  wrap_query "link chargeback transaction"
    match chargeback_disputes d !! id with
    | Some r =>
        if bool_decide (cd_chargeback_tx_id r = None) then
          let~ d := update_dispute id r (linked_to r (Some tx)) d in inr (1, d)
        else inr (0, d)
    | None => inr (0, d)
    end.
(** ORDER BY created_at ASC *)
Definition change_before (a b : status_change) : Prop := cs_created_at a <= cs_created_at b.
#[export] Instance change_before_dec : RelDecision change_before.
Proof. intros a b. unfold change_before. apply _. Defined.
Definition ListStatusChanges (id : uuid) : wf_query dispute_db (list status_change) :=
  wf_read (fun d => merge_sort change_before (filter (fun c => cs_dispute_id c = id) (chargeback_dispute_status_changes d))).
(** ledger_transaction_repository.go: GetByID *)
Definition transaction_GetByID (id : uuid) : wf_query dispute_db tx_row := fun _ d =>
  match ledger_transactions (ledger_db d) !! id with
  | Some t => inr (t, d) | None => inl (wrapf ErrTransactionNotFound EmptyString) end.

(** ** dispute.go *)
Definition invalid_dispute {A} (msg : string) : error + A := inl (wrapf ErrValidation msg).
Definition OpenDispute (p : ChargebackDispute) : prog (error + uuid) :=
  if bool_decide (dp_DisputeRef p = EmptyString) then Ret (invalid_dispute "dispute_ref is required")
  else if negb (bool_decide (dp_CardNetwork p ∈ card_networks)) then
    Ret (invalid_dispute "card_network must be one of visa/mastercard/jcb/amex")
  else if negb (dec_is_positive (dp_Amount p)) || negb (dec_equal (dp_Amount p) (dec_truncate (dp_Amount p))) then
    Ret (invalid_dispute "amount must be a positive integer")
  else if bool_decide (dp_CreatedBy p = EmptyString) then Ret (invalid_dispute "created_by (caller identity) is required")
  else
    let* in_time := match dp_EvidenceDueAt p with Some due => let* now := wf_now in Ret (now <? due) | None => Ret true end in
    if negb in_time then Ret (invalid_dispute "evidence_due_at must be in the future")
    else
      let* found := sql (transaction_GetByID (dp_OriginalTxID p)) in
      match found with
      | inl err => Ret (inl (Wrap2 ErrOriginalNotFound err))
      | inr original =>
          if negb (bool_decide (t_status original = "posted")) then
            Ret (inl (wrapf ErrNotReversible "original transaction must be posted"))
          else if negb (0 <? t_amount original) || dec_gt (dp_Amount p) (dec_of_Z (t_amount original)) then
            Ret (invalid_dispute "dispute amount exceeds original transaction amount")
          else
            let currency := if bool_decide (dp_Currency p = EmptyString) then t_currency original else dp_Currency p in
            if negb (bool_decide (currency = t_currency original)) then
              Ret (inl (wrapf ErrCurrencyMismatch "dispute currency does not match original transaction currency"))
            else
              let* id := wf_new in
              let* at_ := wf_now in
              let? _ := sql (CreateDispute id (MkDispute (dp_OriginalTxID p) (dp_DisputeRef p) (dp_CardNetwork p)
                          (dp_ReasonCode p) (dp_Amount p) currency (dp_EvidenceDueAt p) (dp_CreatedBy p)) at_) in
              Ret (inr id)
      end.
Definition or_default (s default : string) : string := if bool_decide (s = EmptyString) then default else s.
Definition ExpireDueDisputes (now : Z) (actor reason : string) : prog (error + Z) :=
  let* at_ := wf_now in
  sql (repo_ExpireDueDisputes now (or_default actor "ledger-dispute-expiry-worker") (or_default reason "evidence deadline expired") at_).
Definition ListOpenDisputes (limit offset : Z) : prog (error + list (uuid * dispute_row)) :=
  sql (repo_ListOpenDisputes (if (limit <=? 0) || (500 <? limit) then 100 else limit) (Z.max 0 offset)).
Definition diagnoseNoRows (id : uuid) : prog (error + unit) :=
  let? _ := sql (GetDispute id) in
  Ret (inl (wrapf ErrChargebackDisputeAlreadyResolved EmptyString)).
Definition SubmitEvidence (id : uuid) (evidenceRef changedBy : string) : prog (error + unit) :=
  if bool_decide (evidenceRef = EmptyString) then Ret (invalid_dispute "evidence_ref is required")
  else if bool_decide (changedBy = EmptyString) then Ret (invalid_dispute "changed_by (caller identity) is required")
  else
    let* at_ := wf_now in
    let? rows := sql (repo_SubmitEvidence id evidenceRef changedBy at_) in
    if rows =? 0 then diagnoseNoRows id else Ret (inr tt).
Definition resolvableStatuses : list string := ["won"; "lost"; "expired"].
Definition ResolveDispute (id : uuid) (status resolvedBy reason : string) : prog (error + unit) :=
  if negb (bool_decide (status ∈ resolvableStatuses)) then Ret (invalid_dispute "status must be won/lost/expired")
  else if bool_decide (resolvedBy = EmptyString) then Ret (invalid_dispute "resolved_by (caller identity) is required")
  else if bool_decide (reason = EmptyString) then Ret (invalid_dispute "resolution reason is required")
  else
    let? current := sql (GetDispute id) in
    if bool_decide (cd_created_by current = resolvedBy) then Ret (invalid_dispute "dispute creator cannot resolve the same case")
    else
      let* at_ := wf_now in
      let? rows := sql (repo_ResolveDispute id status resolvedBy reason at_) in
      if rows =? 0 then diagnoseNoRows id else Ret (inr tt).
Definition LinkChargebackTx (id tx : uuid) : prog (error + unit) :=
  let? rows := sql (repo_LinkChargebackTx id tx) in
  if rows =? 0 then
    let? _ := sql (GetDispute id) in
    Ret (inl (wrapf ErrChargebackDisputeAlreadyResolved "dispute already has a linked chargeback transaction"))
  else Ret (inr tt).
End dispute.
