(* ===== verification/InterestRepo.v ===== *)
(** * The savings tables: migration 000040

    The rows of products, rates, enrollments, periods, accruals, capitalization
    items, checks and corrections, with the constraints and triggers that guard
    them.  A DATE is the number of its day, a time is in microseconds.  Columns no
    statement reads back (public ids, names, labels with one legal value, audit
    times) are left out.
    Then the statements of interest_repository.go. *)
From stdpp Require Import prelude gmap strings list sorting.
From S2P Require Import Prelude Decimal Errors Currency Events Money InterestMath Calendar Flow.
Open Scope Z_scope.
Record product_row := ProductRow {
  sp_ProductCode : string; sp_Currency : string; sp_EligibleAccountTypes : list string;
  sp_Status : string; sp_Timezone : string; sp_MinimumEligibleBalance : Z; sp_Version : Z;
  sp_CreatedBy : string; sp_UpdatedBy : string }.
Record rate_row := RateRow {
  rv_ProductID : uuid; rv_AnnualRateBps : Z; rv_Status : string; rv_EffectiveFrom : Z;
  rv_EffectiveUntil : option Z; rv_ContentHash : string; rv_CreatedBy : string;
  rv_SubmittedBy : option string; rv_ApprovedBy : option string; rv_RejectedBy : option string;
  rv_RejectionReason : option string }.
Record enrollment_row := EnrollmentRow {
  se_ProductID : uuid; se_AccountID : uuid; se_UserID : uuid; se_Status : string; se_Mode : string;
  se_EffectiveFrom : Z; se_EffectiveUntil : option Z; se_CarryNumerator : Z; se_CarryDenominator : Z;
  se_Version : Z; se_CreatedBy : string; se_UpdatedBy : string; se_CreatedAt : Z }.
Record history_row := HistoryRow { sh_Status : string; sh_ChangedBy : string }.
Record period_row := PeriodRow {
  ip_ProductID : uuid; ip_Currency : string; ip_Year : Z; ip_Month : Z; ip_StartAt : Z; ip_EndAt : Z;
  ip_AccrualCutoffAt : Z; ip_CloseNotBeforeAt : Z; ip_Status : string;
  ip_ExpectedItemCount : Z; ip_CompletedItemCount : Z; ip_BlockedItemCount : Z;
  ip_TotalAccruedAmount : Z; ip_TotalCapitalizedAmount : Z;
  ip_OpenedAt : option Z; ip_ClosingStartedAt : option Z; ip_ClosedAt : option Z; ip_FailedAt : option Z;
  ip_LastErrorCode : option string }.
(** The columns a worker claims, finishes, fails and retries a row by. *)
Record work := Work {
  wk_Status : string; wk_AttemptCount : Z; wk_NextAttemptAt : option Z; wk_LeaseOwner : option string;
  wk_LeaseExpiresAt : option Z; wk_LedgerTransactionID : option uuid; wk_ErrorCode : option string }.
(** The columns SaveDailyCalculation writes, NULL together until then.  The four
    NUMERIC ones are text in the program, an integer in decimal. *)
Record accrual_calc := AccrualCalc {
  ac_SnapshotID : option uuid; ac_ClosingBalance : Z; ac_RateVersionID : uuid; ac_AnnualRateBps : Z;
  ac_ExactNumerator : Z; ac_Denominator : Z; ac_OpeningCarryNumerator : Z; ac_RecognizedAmount : Z;
  ac_ClosingCarryNumerator : Z }.
Record accrual_row := AccrualRow {
  da_PeriodID : uuid; da_EnrollmentID : uuid; da_AccountID : uuid; da_AccrualDate : Z;
  da_calc : option accrual_calc; da_work : work }.
Record item_row := ItemRow {
  ci_PeriodID : uuid; ci_EnrollmentID : uuid; ci_AccountID : uuid; ci_CapitalizationAmount : Z;
  ci_work : work }.
Record check_row := CheckRow {
  pc_Status : string; pc_ExpectedValue : string; pc_ActualValue : string; pc_Severity : string;
  pc_CheckedAt : Z }.
Record correction_row := CorrectionRow {
  cr_SourcePeriodID : uuid; cr_EnrollmentID : uuid; cr_SourceAccrualID : option uuid;
  cr_SourceCapitalizationID : option uuid; cr_Amount : Z; cr_Direction : string; cr_Status : string;
  cr_Reason : string; cr_CreatedBy : string; cr_ApprovedBy : option string;
  cr_LedgerTransactionID : option uuid }.
(** What the statements read of the ledger's own tables. *)
Record account_view := AccountView { av_Status : string; av_Currency : string; av_Type : string }.

(** contracts/events/ledger: the four events of this workflow *)
Inductive interest_event : Type :=
  | InterestAccrued (id : option uuid) (accrual period enrollment account : uuid) (date amount currency : string)
      (tx : option uuid) (at_ : Z)
  | InterestCapitalized (id : option uuid) (item period enrollment account : uuid) (amount currency : string)
      (tx : option uuid) (at_ : Z)
  | InterestPeriodClosed (id : option uuid) (period product : uuid) (currency : string) (year month : Z)
      (accrued capitalized : string) (at_ : Z)
  | InterestAdjusted (id : option uuid) (correction period enrollment : uuid)
      (amount direction stage currency : string) (tx : option uuid) (at_ : Z).

Record interest_db := InterestDb {
  savings_products : gmap uuid product_row;
  savings_rate_versions : gmap uuid rate_row;
  savings_enrollments : gmap uuid enrollment_row;
  enrollment_history : gmap (uuid * Z) history_row;           (* (enrollment, effective from) *)
  interest_periods : gmap uuid period_row;
  interest_daily_accruals : gmap uuid accrual_row;
  interest_capitalization_items : gmap uuid item_row;
  interest_period_checks : gmap (uuid * string) check_row;    (* (period, check) *)
  interest_adjustments : gmap uuid correction_row;
  balance_snapshots : gmap (uuid * Z) (uuid * Z);             (* (account, day): id, closing balance *)
  account_views : gmap uuid account_view;
  interest_outbox : list interest_event;                      (* oldest first *)
}.
Definition set_products d t := InterestDb t (savings_rate_versions d) (savings_enrollments d)
  (enrollment_history d) (interest_periods d) (interest_daily_accruals d) (interest_capitalization_items d)
  (interest_period_checks d) (interest_adjustments d) (balance_snapshots d) (account_views d) (interest_outbox d).
Definition set_rates d t := InterestDb (savings_products d) t (savings_enrollments d)
  (enrollment_history d) (interest_periods d) (interest_daily_accruals d) (interest_capitalization_items d)
  (interest_period_checks d) (interest_adjustments d) (balance_snapshots d) (account_views d) (interest_outbox d).
Definition set_enrollments d t h := InterestDb (savings_products d) (savings_rate_versions d) t
  h (interest_periods d) (interest_daily_accruals d) (interest_capitalization_items d)
  (interest_period_checks d) (interest_adjustments d) (balance_snapshots d) (account_views d) (interest_outbox d).
Definition set_periods d t := InterestDb (savings_products d) (savings_rate_versions d) (savings_enrollments d)
  (enrollment_history d) t (interest_daily_accruals d) (interest_capitalization_items d)
  (interest_period_checks d) (interest_adjustments d) (balance_snapshots d) (account_views d) (interest_outbox d).
Definition set_accruals d t := InterestDb (savings_products d) (savings_rate_versions d) (savings_enrollments d)
  (enrollment_history d) (interest_periods d) t (interest_capitalization_items d)
  (interest_period_checks d) (interest_adjustments d) (balance_snapshots d) (account_views d) (interest_outbox d).
Definition set_items d t := InterestDb (savings_products d) (savings_rate_versions d) (savings_enrollments d)
  (enrollment_history d) (interest_periods d) (interest_daily_accruals d) t
  (interest_period_checks d) (interest_adjustments d) (balance_snapshots d) (account_views d) (interest_outbox d).
Definition set_checks d t := InterestDb (savings_products d) (savings_rate_versions d) (savings_enrollments d)
  (enrollment_history d) (interest_periods d) (interest_daily_accruals d) (interest_capitalization_items d)
  t (interest_adjustments d) (balance_snapshots d) (account_views d) (interest_outbox d).
Definition set_corrections d t := InterestDb (savings_products d) (savings_rate_versions d) (savings_enrollments d)
  (enrollment_history d) (interest_periods d) (interest_daily_accruals d) (interest_capitalization_items d)
  (interest_period_checks d) t (balance_snapshots d) (account_views d) (interest_outbox d).
Definition add_outbox d e := InterestDb (savings_products d) (savings_rate_versions d) (savings_enrollments d)
  (enrollment_history d) (interest_periods d) (interest_daily_accruals d) (interest_capitalization_items d)
  (interest_period_checks d) (interest_adjustments d) (balance_snapshots d) (account_views d)
  (interest_outbox d ++ [e]).

(** ** Constraints and triggers *)
Definition check_violation : error := PgError "23514" "violates check constraint".
Definition unique_violation : error := PgError "23505" "duplicate key value".
Definition out_of_range : error := PgError "22003" "value out of range".
Definition raised (msg : string) : error := PgError "P0001" msg.
Definition product_statuses : list string := ["draft"; "active"; "intake_paused"; "retired"].
Definition rate_statuses : list string := ["draft"; "pending_approval"; "active"; "retired"; "rejected"].
Definition enrollment_statuses : list string := ["pending"; "active"; "accrual_paused"; "ended"].
Definition period_statuses : list string :=
  ["planned"; "open"; "closing"; "closed"; "failed"; "cancelled_before_open"].
Definition accrual_statuses : list string :=
  ["pending"; "processing"; "completed_zero"; "completed_posted"; "retry_wait"; "blocked"; "failed"; "adjusted"].
Definition item_statuses : list string :=
  ["pending"; "processing"; "posted"; "completed_zero"; "retry_wait"; "blocked"; "failed"; "adjusted"].
Definition correction_statuses : list string := ["draft"; "pending_approval"; "approved"; "rejected"; "posted"].
Definition window_ok (from : Z) (until : option Z) : bool := match until with None => true | Some u => from <? u end.
Definition rate_row_ok (r : rate_row) : bool :=
  (0 <=? rv_AnnualRateBps r) && (rv_AnnualRateBps r <=? 2000) && bool_decide (rv_Status r ∈ rate_statuses)
  && window_ok (rv_EffectiveFrom r) (rv_EffectiveUntil r)
  && negb (bool_decide (rv_ApprovedBy r = Some (rv_CreatedBy r))).
Definition enrollment_row_ok (r : enrollment_row) : bool :=
  bool_decide (se_Status r ∈ enrollment_statuses)
  && bool_decide (se_Mode r ∈ ["legacy_daily_capitalization"; "monthly_liability_capitalization"])
  && (0 <=? se_CarryNumerator r) && (0 <? se_CarryDenominator r) && (0 <? se_Version r)
  && window_ok (se_EffectiveFrom r) (se_EffectiveUntil r).
Definition period_row_ok (r : period_row) : bool :=
  bool_decide (ip_Status r ∈ period_statuses) && (2000 <=? ip_Year r) && (ip_Year r <=? 9999)
  && (1 <=? ip_Month r) && (ip_Month r <=? 12) && (ip_StartAt r <? ip_EndAt r)
  && (0 <=? ip_ExpectedItemCount r) && (0 <=? ip_CompletedItemCount r) && (0 <=? ip_BlockedItemCount r)
  && (0 <=? ip_TotalAccruedAmount r) && (0 <=? ip_TotalCapitalizedAmount r).
(** NUMERIC(78,0) *)
Definition numeric_ok (z : Z) : bool := Z.abs z <? 10 ^ 78.
Definition calc_ok (c : accrual_calc) : bool :=
  (0 <=? ac_RecognizedAmount c) && numeric_ok (ac_ExactNumerator c) && numeric_ok (ac_Denominator c)
  && numeric_ok (ac_OpeningCarryNumerator c) && numeric_ok (ac_ClosingCarryNumerator c).
Definition correction_row_ok (r : correction_row) : bool :=
  (0 <? cr_Amount r) && bool_decide (cr_Direction r ∈ ["positive"; "negative"])
  && bool_decide (cr_Status r ∈ correction_statuses)
  && negb (bool_decide (cr_ApprovedBy r = Some (cr_CreatedBy r))).
(** fn_prevent_c5_closed_period_mutation and fn_prevent_c5_closed_period_item_mutation *)
Definition period_closed (d : interest_db) (period : uuid) : bool :=
  match interest_periods d !! period with Some p => bool_decide (ip_Status p = "closed") | None => false end.
Definition closed_period_immutable : error := raised "closed interest periods are immutable".
Definition closed_evidence_immutable : error := raised "evidence for a closed interest period is immutable".
(** One row of each guarded table, updated. *)
Definition put_period (id : uuid) (f : period_row -> period_row) (d : interest_db) : error + interest_db :=
  match interest_periods d !! id with
  | None => inr d
  | Some p =>
      if bool_decide (ip_Status p = "closed") then inl closed_period_immutable
      else if negb (period_row_ok (f p)) then inl check_violation
      else if negb (in_int64 (ip_TotalAccruedAmount (f p)) && in_int64 (ip_TotalCapitalizedAmount (f p))) then
        inl out_of_range
      else inr (set_periods d (<[id := f p]> (interest_periods d)))
  end.
Definition put_accrual (id : uuid) (r : accrual_row) (d : interest_db) : error + interest_db :=
  if period_closed d (da_PeriodID r) then inl closed_evidence_immutable
  else if negb (bool_decide (wk_Status (da_work r) ∈ accrual_statuses)) then inl check_violation
  else if negb (match da_calc r with Some c => calc_ok c | None => true end) then inl check_violation
  else inr (set_accruals d (<[id := r]> (interest_daily_accruals d))).
Definition put_item (id : uuid) (r : item_row) (d : interest_db) : error + interest_db :=
  if period_closed d (ci_PeriodID r) then inl closed_evidence_immutable
  else if negb (bool_decide (wk_Status (ci_work r) ∈ item_statuses)) then inl check_violation
  else inr (set_items d (<[id := r]> (interest_capitalization_items d))).

(** ** The work columns *)
Definition new_work : work := Work "pending" 0 None None None None None.
Definition claimable (k : work) (now : Z) : bool :=
  bool_decide (wk_Status k ∈ ["pending"; "retry_wait"])
  && (match wk_NextAttemptAt k with None => true | Some t => t <=? now end)
  || bool_decide (wk_Status k = "processing")
     && (match wk_LeaseExpiresAt k with None => false | Some t => t <? now end).
Definition leased (owner : string) (now : Z) (k : work) : work :=
  Work "processing" (wk_AttemptCount k + 1) (wk_NextAttemptAt k) (Some owner) (Some (now + 2 * Minute))
    (wk_LedgerTransactionID k) (wk_ErrorCode k).
Definition finished (status : string) (tx : option uuid) (k : work) : work :=
  Work status (wk_AttemptCount k) None None None tx (wk_ErrorCode k).
Definition work_failed (status code : string) (next : option Z) (k : work) : work :=
  Work status (wk_AttemptCount k) next None None (wk_LedgerTransactionID k) (Some code).
Definition retryable (k : work) : bool := bool_decide (wk_Status k ∈ ["blocked"; "failed"; "retry_wait"]).
Definition retried (k : work) : work :=
  Work "pending" (wk_AttemptCount k) None None None (wk_LedgerTransactionID k) None.
Definition no_error (k : work) : work :=
  Work (wk_Status k) (wk_AttemptCount k) (wk_NextAttemptAt k) (wk_LeaseOwner k) (wk_LeaseExpiresAt k)
    (wk_LedgerTransactionID k) None.
Definition with_work (r : accrual_row) (k : work) : accrual_row :=
  AccrualRow (da_PeriodID r) (da_EnrollmentID r) (da_AccountID r) (da_AccrualDate r) (da_calc r) k.
Definition with_calc (r : accrual_row) (c : accrual_calc) (k : work) : accrual_row :=
  AccrualRow (da_PeriodID r) (da_EnrollmentID r) (da_AccountID r) (da_AccrualDate r) (Some c) k.
Definition item_with (r : item_row) (k : work) : item_row :=
  ItemRow (ci_PeriodID r) (ci_EnrollmentID r) (ci_AccountID r) (ci_CapitalizationAmount r) k.
Definition terminal_accrual (status : string) : bool :=
  bool_decide (status ∈ ["completed_zero"; "completed_posted"; "adjusted"]).
Definition terminal_item (status : string) : bool :=
  bool_decide (status ∈ ["posted"; "completed_zero"; "adjusted"]).

(** What the database brings: the choices of any statement, and gen_random_uuid()
    for the row of each enrollment. *)
Record int_choice := IntChoice { ic_ch : db_choice; ic_uuid : uuid -> uuid }.
Definition int_query (A : Type) : Type := int_choice -> interest_db -> error + (A * interest_db).
Definition int_read {A} (f : interest_db -> A) : int_query A := fun _ d => inr (f d, d).
Notation "'let~' x := e 'in' k" := (match e with inl err => inl err | inr x => k end)
  (at level 200, x pattern, e at level 100, k at level 200, right associativity).
Definition requireRows {A} (operation : string) : error + A := inl (Plain (operation +:+ ": no eligible row")).
Definition wrap_sql {A} (ctx : string) (r : error + A) : error + A :=
  match r with inl err => inl (Wrap ctx err) | inr a => inr a end.

(** ORDER BY two columns *)
Definition lex_le (a b : Z * Z) : Prop := a.1 < b.1 \/ a.1 = b.1 /\ a.2 <= b.2.
#[export] Instance lex_le_dec a b : Decision (lex_le a b).
Proof. unfold lex_le. apply _. Defined.
Definition by_keys {R} (key : uuid * R -> Z * Z) (l : list (uuid * R)) : list (uuid * R) :=
  merge_sort (fun a b => lex_le (key a) (key b)) l.

(** ** Products *)
Definition CreateProduct (id : uuid) (p : product_row) : int_query unit := fun _ d =>
  if bool_decide (is_Some (savings_products d !! id))
     || existsb (fun q => bool_decide (sp_ProductCode q.2 = sp_ProductCode p)) (map_to_list (savings_products d)) then
    inl (Wrap "create savings product" unique_violation)
  else if negb (bool_decide (sp_Status p ∈ product_statuses) && (0 <=? sp_MinimumEligibleBalance p)
                && (0 <? sp_Version p)) then inl (Wrap "create savings product" check_violation)
  else inr (tt, set_products d (<[id := p]> (savings_products d))).
Definition GetProduct (id : uuid) : int_query product_row := fun _ d =>
  match savings_products d !! id with
  | None => inl (wrapf ErrAccountNotFound "savings product")
  | Some p => inr (p, d)
  end.
Definition product_transition (from to : string) : bool :=
  bool_decide (to = "active") && bool_decide (from ∈ ["draft"; "intake_paused"])
  || bool_decide (to = "intake_paused") && bool_decide (from = "active")
  || bool_decide (to = "retired") && bool_decide (from ∈ ["active"; "intake_paused"]).
Definition UpdateProductStatus (id : uuid) (status checker : string) : int_query unit := fun _ d =>
  match savings_products d !! id with
  | Some p =>
      if negb (bool_decide (sp_CreatedBy p = checker)) && product_transition (sp_Status p) status then
        inr (tt, set_products d (<[id := ProductRow (sp_ProductCode p) (sp_Currency p) (sp_EligibleAccountTypes p)
          status (sp_Timezone p) (sp_MinimumEligibleBalance p) (sp_Version p + 1) (sp_CreatedBy p) checker]>
          (savings_products d)))
      else requireRows "update savings product status"
  | None => requireRows "update savings product status"
  end.

(** ** Rates *)
Definition put_rate (id : uuid) (r : rate_row) (d : interest_db) : error + (unit * interest_db) :=
  if rate_row_ok r then inr (tt, set_rates d (<[id := r]> (savings_rate_versions d))) else inl check_violation.
Definition CreateRate (id : uuid) (r : rate_row) : int_query unit := fun _ d =>
  if bool_decide (is_Some (savings_rate_versions d !! id)) then inl (Wrap "create savings rate" unique_violation)
  else if negb (bool_decide (is_Some (savings_products d !! rv_ProductID r))) then
    inl (Wrap "create savings rate" (PgError "23503" "violates foreign key constraint"))
  else wrap_sql "create savings rate" (put_rate id r d).
Definition rate_with (r : rate_row) (status : string) (submitted approved rejected reason : option string) : rate_row :=
  RateRow (rv_ProductID r) (rv_AnnualRateBps r) status (rv_EffectiveFrom r) (rv_EffectiveUntil r)
    (rv_ContentHash r) (rv_CreatedBy r) submitted approved rejected reason.
Definition SubmitRate (id : uuid) (submittedBy : string) : int_query unit := fun _ d =>
  match savings_rate_versions d !! id with
  | Some r =>
      if bool_decide (rv_Status r = "draft") then
        put_rate id (rate_with r "pending_approval" (Some submittedBy) (rv_ApprovedBy r) (rv_RejectedBy r)
                       (rv_RejectionReason r)) d
      else requireRows "submit savings rate"
  | None => requireRows "submit savings rate"
  end.
(** Two windows, open-ended ones up to the last date. *)
Definition windows_overlap (from : Z) (until : option Z) (from' : Z) (until' : option Z) : bool :=
  let last := day_of_date 9999 12 31 in
  (from' <? default last until) && (from <? default last until').
Definition ApproveRate (id : uuid) (checker : string) : int_query unit := fun _ d =>
  match savings_rate_versions d !! id with
  | Some r =>
      match savings_products d !! rv_ProductID r with
      | Some p =>
          if negb (bool_decide (rv_Status r = "pending_approval")) then
            inl (Wrap "load savings rate for approval" ErrNoRows)
          else if bool_decide (rv_CreatedBy r = checker) then
            inl (wrapf ErrValidation "rate maker and checker must differ")
          else if bool_decide (sp_Status p = "retired") then
            inl (wrapf ErrValidation "retired savings products cannot activate rates")
          else if existsb (fun q => bool_decide (rv_ProductID q.2 = rv_ProductID r) && negb (bool_decide (q.1 = id))
                                    && bool_decide (rv_Status q.2 = "active")
                                    && windows_overlap (rv_EffectiveFrom r) (rv_EffectiveUntil r)
                                         (rv_EffectiveFrom q.2) (rv_EffectiveUntil q.2))
                          (map_to_list (savings_rate_versions d)) then
            inl (wrapf ErrValidation "active savings rate window overlaps")
          else wrap_sql "approve savings rate"
                 (put_rate id (rate_with r "active" (rv_SubmittedBy r) (Some checker) (rv_RejectedBy r)
                                 (rv_RejectionReason r)) d)
      | None => inl (Wrap "load savings rate for approval" ErrNoRows)
      end
  | None => inl (Wrap "load savings rate for approval" ErrNoRows)
  end.
Definition RejectRate (id : uuid) (checker reason : string) : int_query unit := fun _ d =>
  match savings_rate_versions d !! id with
  | Some r =>
      if bool_decide (rv_Status r = "pending_approval") && negb (bool_decide (rv_CreatedBy r = checker)) then
        put_rate id (rate_with r "rejected" (rv_SubmittedBy r) (rv_ApprovedBy r) (Some checker) (Some reason)) d
      else requireRows "reject savings rate"
  | None => requireRows "reject savings rate"
  end.
Definition rate_in_window (product : uuid) (day : Z) (r : rate_row) : bool :=
  bool_decide (rv_ProductID r = product) && bool_decide (rv_Status r = "active") && (rv_EffectiveFrom r <=? day)
  && match rv_EffectiveUntil r with None => true | Some u => day <? u end.
Definition rates_for (product : uuid) (day : Z) (d : interest_db) : list (uuid * rate_row) :=
  by_keys (fun r => (- rv_EffectiveFrom r.2, - Z.of_N r.1))
    (rows_where (fun _ r => rate_in_window product day r) (savings_rate_versions d)).
Definition GetRateForDate (product : uuid) (day : Z) : int_query (uuid * rate_row) := fun _ d =>
  match rates_for product day d with
  | [] => inl (Wrap "get savings rate" ErrNoRows)
  | r :: _ => inr (r, d)
  end.

(** ** Enrollments and their history *)
Definition live_enrollment (r : enrollment_row) : bool :=
  bool_decide (se_Status r ∈ ["pending"; "active"; "accrual_paused"]).
Definition enrollment_clash (r q : enrollment_row) : bool :=
  bool_decide (se_ProductID q = se_ProductID r) && bool_decide (se_AccountID q = se_AccountID r)
  && (bool_decide (se_EffectiveFrom q = se_EffectiveFrom r) || live_enrollment q && live_enrollment r).
Definition CreateEnrollment (id : uuid) (r : enrollment_row) : int_query unit := fun _ d =>
  if bool_decide (is_Some (savings_enrollments d !! id))
     || existsb (fun q => enrollment_clash r q.2) (map_to_list (savings_enrollments d)) then
    inl (Wrap "create savings enrollment" unique_violation)
  else if negb (enrollment_row_ok r) then inl (Wrap "create savings enrollment" check_violation)
  else inr (tt, set_enrollments d (<[id := r]> (savings_enrollments d))
                  (<[(id, se_EffectiveFrom r) := HistoryRow (se_Status r) (se_CreatedBy r)]> (enrollment_history d))).
Definition GetEnrollment (id : uuid) : int_query enrollment_row := fun _ d =>
  match savings_enrollments d !! id with
  | None => inl (wrapf ErrSavingsConfigNotFound "savings enrollment")
  | Some r => inr (r, d)
  end.
Definition enrollment_transition (from to : string) : bool :=
  bool_decide (to = "accrual_paused") && bool_decide (from = "active")
  || bool_decide (to = "active") && bool_decide (from = "accrual_paused")
  || bool_decide (to = "ended") && bool_decide (from ∈ ["active"; "accrual_paused"]).
Definition UpdateEnrollmentStatusWithEffectiveDate (id : uuid) (status actor : string) (effectiveFrom : Z)
    (effectiveUntil : option Z) : int_query unit := fun _ d =>
  match savings_enrollments d !! id with
  | Some r =>
      if negb (bool_decide (se_CreatedBy r = actor)) && enrollment_transition (se_Status r) status then
        let until := match effectiveUntil with
                     | Some u => if bool_decide (status = "ended") then Some (Z.min (default u (se_EffectiveUntil r)) u)
                                 else se_EffectiveUntil r
                     | None => se_EffectiveUntil r
                     end in
        let r' := EnrollmentRow (se_ProductID r) (se_AccountID r) (se_UserID r) status (se_Mode r)
                    (se_EffectiveFrom r) until (se_CarryNumerator r) (se_CarryDenominator r) (se_Version r)
                    (se_CreatedBy r) actor (se_CreatedAt r) in
        if enrollment_row_ok r' then
          inr (tt, set_enrollments d (<[id := r']> (savings_enrollments d))
                     (<[(id, effectiveFrom) := HistoryRow status actor]> (enrollment_history d)))
        else inl (Wrap "update savings enrollment status" check_violation)
      else inl (Wrap "update savings enrollment status" ErrNoRows)
  | None => inl (Wrap "update savings enrollment status" ErrNoRows)
  end.
(** LEAD(effective_from) OVER (PARTITION BY enrollment_id ORDER BY effective_from) *)
Definition history_days (d : interest_db) (e : uuid) : list Z :=
  omap (fun kr => if bool_decide (kr.1.1 = e) then Some kr.1.2 else None) (map_to_list (enrollment_history d)).
Definition min_list (l : list Z) : option Z :=
  match l with [] => None | x :: rest => Some (foldr Z.min x rest) end.
Definition max_list (l : list Z) : option Z :=
  match l with [] => None | x :: rest => Some (foldr Z.max x rest) end.
Definition next_effective (d : interest_db) (e : uuid) (from : Z) : option Z :=
  min_list (filter (fun x => from < x) (history_days d e)).
(** The spells an enrollment was active: from a day to the next change. *)
Definition active_spells (d : interest_db) (e : uuid) : list (Z * option Z) :=
  omap (fun kr => if bool_decide (kr.1.1 = e) && bool_decide (sh_Status kr.2 = "active")
                  then Some (kr.1.2, next_effective d e kr.1.2) else None) (map_to_list (enrollment_history d)).
Definition account_fits (d : interest_db) (account : uuid) (p : product_row) : bool :=
  match account_views d !! account with
  | Some a => bool_decide (av_Currency a = sp_Currency p) && bool_decide (av_Type a ∈ sp_EligibleAccountTypes p)
  | None => false
  end.
Definition active_on (d : interest_db) (day : Z) (id : uuid) (e : enrollment_row) : bool :=
  match savings_products d !! se_ProductID e, account_views d !! se_AccountID e with
  | Some p, Some a =>
      negb (bool_decide (sp_Status p = "draft")) && bool_decide (av_Status a = "active")
      && account_fits d (se_AccountID e) p
      && existsb (fun s => (s.1 <=? day) && match s.2 with None => true | Some n => day <? n end) (active_spells d id)
      && (se_EffectiveFrom e <=? day) && match se_EffectiveUntil e with None => true | Some u => day <? u end
  | _, _ => false
  end.
Definition ListActiveEnrollments (day : Z) : int_query (list (uuid * enrollment_row)) :=
  int_read (fun d => by_keys (fun e => (Z.of_N e.1, 0)) (rows_where (active_on d day) (savings_enrollments d))).
Definition ListEnrollments (user : uuid) : int_query (list (uuid * enrollment_row)) :=
  int_read (fun d => merge_sort (key_le (fun e => Some (- se_CreatedAt e)))
                       (rows_where (fun _ e => bool_decide (se_UserID e = user)) (savings_enrollments d))).
Definition ListEnrollmentAccruals (enrollment : uuid) : int_query (list (uuid * accrual_row)) :=
  int_read (fun d => merge_sort (key_le (fun r => Some (- da_AccrualDate r)))
                       (rows_where (fun _ r => bool_decide (da_EnrollmentID r = enrollment)) (interest_daily_accruals d))).
Definition ListEnrollmentCapitalizations (enrollment : uuid) : int_query (list (uuid * item_row)) :=
  int_read (fun d => by_keys (fun r => (Z.of_N (ci_PeriodID r.2), 0))
    (rows_where (fun _ r => bool_decide (ci_EnrollmentID r = enrollment)) (interest_capitalization_items d))).
Definition ListEnrollmentPeriods (enrollment : uuid) : int_query (list (uuid * period_row)) :=
  int_read (fun d => merge_sort (key_le (fun p => Some (- ip_StartAt p)))
    (rows_where (fun id _ => existsb (fun kr => bool_decide (da_EnrollmentID kr.2 = enrollment) && bool_decide (da_PeriodID kr.2 = id))
                               (map_to_list (interest_daily_accruals d))) (interest_periods d))).

Section zones.
Context `{ZN : !Zones}.

(** ** Periods *)
Definition period_key (p q : period_row) : bool :=
  bool_decide (ip_ProductID p = ip_ProductID q) && (ip_Year p =? ip_Year q) && (ip_Month p =? ip_Month q).
Definition sql_insert_period (id : uuid) (p : period_row) : int_query unit := fun _ d =>
  if existsb (fun q => period_key q.2 p) (map_to_list (interest_periods d)) then inr (tt, d)
  else if bool_decide (is_Some (interest_periods d !! id)) then inl (Wrap "ensure interest period" unique_violation)
  else if negb (period_row_ok p) then inl (Wrap "ensure interest period" check_violation)
  else inr (tt, set_periods d (<[id := p]> (interest_periods d))).
Definition sql_select_period_of_month (product : uuid) (year month : Z) : int_query (uuid * period_row) := fun _ d =>
  match rows_where (fun _ p => bool_decide (ip_ProductID p = product) && (ip_Year p =? year) && (ip_Month p =? month))
          (interest_periods d) with
  | r :: _ => inr (r, d)
  | [] => inl (Wrap "read interest period" ErrNoRows)
  end.
Definition GetPeriod (id : uuid) : int_query period_row := fun _ d =>
  match interest_periods d !! id with Some p => inr (p, d) | None => inl (Wrap "get interest period" ErrNoRows) end.
(** The newest period of the product that starts before this one is closed; none, or
    no such period, counts as closed. *)
Definition previous_periods (d : interest_db) (p : period_row) : list (uuid * period_row) :=
  rows_where (fun _ q => bool_decide (ip_ProductID q = ip_ProductID p) && (ip_StartAt q <? ip_StartAt p)) (interest_periods d).
Definition previous_closed (d : interest_db) (id : uuid) : bool :=
  match interest_periods d !! id with
  | None => true
  | Some p => match merge_sort (key_le (fun q => Some (- ip_StartAt q))) (previous_periods d p) with
              | [] => true
              | q :: _ => bool_decide (ip_Status q.2 = "closed")
              end
  end.
Definition IsPreviousPeriodClosed (id : uuid) : int_query bool := int_read (fun d => previous_closed d id).
Definition ListDuePeriods (now : Z) : int_query (list (uuid * period_row)) :=
  int_read (fun d => ordered_rows (fun p => Some (ip_StartAt p))
    (fun _ p => bool_decide (ip_Status p ∈ ["open"; "failed"; "closing"]) && (ip_CloseNotBeforeAt p <=? now))
    (interest_periods d)).

(** The days of a period in its product's zone, the last one excluded. *)
Definition unknown_zone : error := PgError "22023" "time zone not recognized".
Definition period_window (d : interest_db) (p : period_row) : error + option (product_row * Z * Z) :=
  match savings_products d !! ip_ProductID p with
  | None => inr None
  | Some sp => match LoadLocation (sp_Timezone sp) with
               | None => inl unknown_zone
               | Some loc => inr (Some (sp, local_day loc (ip_StartAt p), local_day loc (ip_EndAt p)))
               end
  end.
(** The spells of an enrollment that meet the period. *)
Definition spells_in (d : interest_db) (first last : Z) (id : uuid) (e : enrollment_row) : list (Z * option Z) :=
  if (se_EffectiveFrom e <? last + 1) && match se_EffectiveUntil e with None => true | Some u => first <? u end then
    filter (fun s => ((s.1 <? last + 1) && match s.2 with None => true | Some n => first <? n end) = true) (active_spells d id)
  else [].
Definition enrolled_in (d : interest_db) (p : period_row) (id : uuid) (e : enrollment_row) : bool :=
  bool_decide (se_ProductID e = ip_ProductID p).
Definition counted_in (d : interest_db) (p : period_row) (sp : product_row) (id : uuid) (e : enrollment_row) : bool :=
  enrolled_in d p id e && negb (bool_decide (sp_Status sp = "draft")) && account_fits d (se_AccountID e) sp.
Definition nonempty {A} (l : list A) : bool := match l with [] => false | _ => true end.
(** The days of a spell inside the period and the enrollment. *)
Definition spell_days (first last : Z) (e : enrollment_row) (s : Z * option Z) : Z :=
  Z.max 0 (Z.min (Z.min (default last (se_EffectiveUntil e)) (default last s.2)) last
           - Z.max (Z.max (se_EffectiveFrom e) s.1) first).
Definition with_counts (p : period_row) (expected completed blocked accrued capitalized : Z) : period_row :=
  PeriodRow (ip_ProductID p) (ip_Currency p) (ip_Year p) (ip_Month p) (ip_StartAt p) (ip_EndAt p)
    (ip_AccrualCutoffAt p) (ip_CloseNotBeforeAt p) (ip_Status p) expected completed blocked accrued capitalized
    (ip_OpenedAt p) (ip_ClosingStartedAt p) (ip_ClosedAt p) (ip_FailedAt p) (ip_LastErrorCode p).
Definition RefreshExpectedItemCount (id : uuid) : int_query unit := fun _ d =>
  match interest_periods d !! id with
  | None => inr (tt, d)
  | Some p =>
      if bool_decide (ip_Status p = "closed") then inr (tt, d)
      else
        let~ w := period_window d p in
        let n := match w with
                 | None => 0
                 | Some (sp, first, last) =>
                     sumZ (fun kr => sumZ (spell_days first last kr.2) (spells_in d first last kr.1 kr.2))
                       (rows_where (counted_in d p sp) (savings_enrollments d))
                 end in
        let~ d' := wrap_sql "refresh expected interest items"
          (put_period id (fun p => with_counts p n (ip_CompletedItemCount p) (ip_BlockedItemCount p)
                                     (ip_TotalAccruedAmount p) (ip_TotalCapitalizedAmount p)) d) in
        inr (tt, d')
  end.
Definition eligible_enrollments (d : interest_db) (id : uuid) : error + list (uuid * enrollment_row) :=
  match interest_periods d !! id with
  | None => inr []
  | Some p =>
      let~ w := period_window d p in
      inr (match w with
           | None => []
           | Some (sp, first, last) =>
               rows_where (fun i e => counted_in d p sp i e && nonempty (spells_in d first last i e)) (savings_enrollments d)
           end)
  end.
Definition CountEligibleEnrollments (id : uuid) : int_query Z := fun _ d =>
  let~ l := eligible_enrollments d id in inr (Z.of_nat (length l), d).
Definition HasNonActiveCapitalizationAccount (id : uuid) : int_query bool := fun _ d =>
  let~ l := eligible_enrollments d id in
  inr (existsb (fun e => match account_views d !! se_AccountID e.2 with
                         | Some a => negb (bool_decide (av_Status a = "active")) | None => false end) l, d).
Definition period_transition (from to : string) : bool :=
  bool_decide (to ∈ ["closing"; "failed"]) && bool_decide (from ∈ ["open"; "failed"; "closing"])
  || bool_decide (to = "closed") && bool_decide (from = "closing").
Definition mark_period (status code : string) (now : Z) (p : period_row) : period_row :=
  let stamp (s : string) (t : option Z) :=
    if bool_decide (status = s) then Some (default now t) else t in
  PeriodRow (ip_ProductID p) (ip_Currency p) (ip_Year p) (ip_Month p) (ip_StartAt p) (ip_EndAt p)
    (ip_AccrualCutoffAt p) (ip_CloseNotBeforeAt p) status (ip_ExpectedItemCount p) (ip_CompletedItemCount p)
    (ip_BlockedItemCount p) (ip_TotalAccruedAmount p) (ip_TotalCapitalizedAmount p)
    (stamp "open" (ip_OpenedAt p)) (stamp "closing" (ip_ClosingStartedAt p)) (stamp "closed" (ip_ClosedAt p))
    (if bool_decide (status = "failed") then Some now else ip_FailedAt p) (nullString code).
Definition MarkPeriodStatus (id : uuid) (status code : string) : int_query unit := fun ic d =>
  match interest_periods d !! id with
  | Some p =>
      if period_transition (ip_Status p) status then
        let~ d' := wrap_sql "mark interest period status" (put_period id (mark_period status code (ch_now (ic_ch ic))) d) in
        inr (tt, d')
      else requireRows "mark interest period status"
  | None => requireRows "mark interest period status"
  end.

(** ** Daily accruals *)
Definition period_in (d : interest_db) (id : uuid) (statuses : list string) : bool :=
  match interest_periods d !! id with Some p => bool_decide (ip_Status p ∈ statuses) | None => false end.
Definition accrual_of (enrollment : uuid) (day : Z) (r : accrual_row) : bool :=
  bool_decide (da_EnrollmentID r = enrollment) && (da_AccrualDate r =? day).
Definition accrual_on (d : interest_db) (enrollment : uuid) (day : Z) : option (uuid * accrual_row) :=
  head (rows_where (fun _ => accrual_of enrollment day) (interest_daily_accruals d)).
Definition sql_insert_accrual (id period enrollment account : uuid) (day : Z) : int_query unit := fun _ d =>
  if negb (period_in d period ["open"; "failed"]) then inr (tt, d)
  else if bool_decide (is_Some (accrual_on d enrollment day)) then inr (tt, d)
  else if bool_decide (is_Some (interest_daily_accruals d !! id)) then
    inl (Wrap "create daily interest accrual" unique_violation)
  else inr (tt, set_accruals d (<[id := AccrualRow period enrollment account day None new_work]> (interest_daily_accruals d))).
Definition sql_select_accrual (enrollment : uuid) (day : Z) : int_query (uuid * accrual_row) := fun _ d =>
  match accrual_on d enrollment day with
  | Some r => inr (r, d)
  | None => inl (Wrap "read daily interest accrual" ErrNoRows)
  end.
Definition accrual_claimable (d : interest_db) (now : Z) (r : accrual_row) : bool :=
  claimable (da_work r) now && period_in d (da_PeriodID r) ["open"; "failed"].
Definition claim_accrual (id : uuid) (r : accrual_row) (owner : string) (now : Z) (d : interest_db)
    : error + ((uuid * accrual_row) * interest_db) :=
  let r' := with_work r (leased owner now (da_work r)) in
  let~ d' := put_accrual id r' d in inr ((id, r'), d').
(** ORDER BY accrual_date, id FOR UPDATE SKIP LOCKED LIMIT 1 *)
Definition ClaimDailyAccrual (owner : string) (now : Z) : int_query (uuid * accrual_row) := fun ic d =>
  match by_keys (fun r => (da_AccrualDate r.2, Z.of_N r.1))
          (rows_where (fun id r => accrual_claimable d now r && negb (bool_decide (id ∈ ch_locked (ic_ch ic))))
             (interest_daily_accruals d)) with
  | (id, r) :: _ => claim_accrual id r owner now d
  | [] => inl ErrNoRows
  end.
Definition ClaimDailyAccrualForID (id : uuid) (owner : string) (now : Z) : int_query (uuid * accrual_row) := fun _ d =>
  match interest_daily_accruals d !! id with
  | Some r => if accrual_claimable d now r then claim_accrual id r owner now d else inl ErrNoRows
  | None => inl ErrNoRows
  end.

(** The statements of GetCarryBeforeDate. *)
Definition terminalCarry (r : accrual_row) : error + (Z * Z) :=
  if negb (terminal_accrual (wk_Status (da_work r))) then inl (Plain "prior interest accrual is not terminal")
  else match da_calc r with
       | None => inl (Plain "prior interest accrual has incomplete carry")
       | Some c => inr (ac_ClosingCarryNumerator c, ac_Denominator c)
       end.
Definition sql_accrual_on (enrollment : uuid) (day : Z) : int_query (option accrual_row) :=
  int_read (fun d => snd <$> accrual_on d enrollment day).
Definition status_on (d : interest_db) (enrollment : uuid) (day : Z) : option string :=
  match max_list (filter (fun x => x <= day) (history_days d enrollment)) with
  | Some from => sh_Status <$> enrollment_history d !! (enrollment, from)
  | None => se_Status <$> savings_enrollments d !! enrollment
  end.
Definition sql_status_on (enrollment : uuid) (day : Z) : int_query (option string) :=
  int_read (fun d => status_on d enrollment day).
Definition accruals_before (d : interest_db) (enrollment : uuid) (day : Z) : list (uuid * accrual_row) :=
  merge_sort (key_le (fun r => Some (- da_AccrualDate r)))
    (rows_where (fun _ r => bool_decide (da_EnrollmentID r = enrollment) && (da_AccrualDate r <? day)) (interest_daily_accruals d)).
Definition sql_has_earlier (enrollment : uuid) (day : Z) : int_query bool :=
  int_read (fun d => nonempty (accruals_before d enrollment day)).
Definition sql_last_before (enrollment : uuid) (day : Z) : int_query (option accrual_row) :=
  int_read (fun d => snd <$> head (accruals_before d enrollment day)).

Definition SaveDailyCalculation (id : uuid) (c : accrual_calc) : int_query unit := fun _ d =>
  match interest_daily_accruals d !! id with
  | Some r =>
      if bool_decide (wk_Status (da_work r) = "processing") then
        let~ d' := wrap_sql "save daily interest calculation" (put_accrual id (with_calc r c (no_error (da_work r))) d) in
        inr (tt, d')
      else inr (tt, d)
  | None => inr (tt, d)
  end.
(** SET blocked_item_count = (SELECT count of the blocked and failed rows of the period) *)
Definition blocked_count (d : interest_db) (period : uuid) : Z :=
  Z.of_nat (length (rows_where (fun _ r => bool_decide (da_PeriodID r = period)
    && bool_decide (wk_Status (da_work r) ∈ ["blocked"; "failed"])) (interest_daily_accruals d))).
Definition recount_blocked (period : uuid) (d : interest_db) : error + interest_db :=
  put_period period (fun p => with_counts p (ip_ExpectedItemCount p) (ip_CompletedItemCount p) (blocked_count d period)
                                (ip_TotalAccruedAmount p) (ip_TotalCapitalizedAmount p)) d.
Definition add_accrued (period : uuid) (amount : Z) (d : interest_db) : error + interest_db :=
  if 0 <? amount then
    put_period period (fun p => with_counts p (ip_ExpectedItemCount p) (ip_CompletedItemCount p) (ip_BlockedItemCount p)
                                  (ip_TotalAccruedAmount p + amount) (ip_TotalCapitalizedAmount p)) d
  else inr d.
Definition add_completed (period : uuid) (d : interest_db) : error + interest_db :=
  put_period period (fun p => with_counts p (ip_ExpectedItemCount p) (ip_CompletedItemCount p + 1) (ip_BlockedItemCount p)
                                (ip_TotalAccruedAmount p) (ip_TotalCapitalizedAmount p)) d.
Definition carry_enrollment (id : uuid) (numerator denominator : Z) (d : interest_db) : error + interest_db :=
  match savings_enrollments d !! id with
  | None => inr d
  | Some e =>
      let e' := EnrollmentRow (se_ProductID e) (se_AccountID e) (se_UserID e) (se_Status e) (se_Mode e)
                  (se_EffectiveFrom e) (se_EffectiveUntil e) numerator denominator (se_Version e + 1)
                  (se_CreatedBy e) (se_UpdatedBy e) (se_CreatedAt e) in
      if enrollment_row_ok e' then inr (set_enrollments d (<[id := e']> (savings_enrollments d)) (enrollment_history d))
      else inl (Wrap "update interest carry" check_violation)
  end.
Definition recognized (r : accrual_row) : Z := match da_calc r with Some c => ac_RecognizedAmount c | None => 0 end.
Definition CompleteDailyAccrual (id : uuid) (status : string) (tx : option uuid) (numerator denominator : Z)
    (d : interest_db) : error + interest_db :=
  match interest_daily_accruals d !! id with
  | None => inl (Wrap "load daily accrual completion" ErrNoRows)
  | Some r =>
      let current := wk_Status (da_work r) in
      if terminal_accrual current then inr d
      else if negb (bool_decide (current = "processing")) then inl (Plain "complete daily interest accrual: row is not processing")
      else if bool_decide (status = "completed_posted") && (0 <? recognized r) && bool_decide (tx = None) then
        inl (Plain "complete daily interest accrual: posted row requires a ledger transaction")
      else
        let~ d := carry_enrollment (da_EnrollmentID r) numerator denominator d in
        let~ d := wrap_sql "complete daily interest accrual" (put_accrual id (with_work r (finished status tx (da_work r))) d) in
        let~ d := wrap_sql "update interest period accrued total" (add_accrued (da_PeriodID r) (recognized r) d) in
        let~ d := wrap_sql "update interest period completed count" (add_completed (da_PeriodID r) d) in
        wrap_sql "update interest period blocked count" (recount_blocked (da_PeriodID r) d)
  end.
Definition sql_fail_accrual (id : uuid) (status code : string) (next : option Z) : int_query unit := fun _ d =>
  match interest_daily_accruals d !! id with
  | None => inr (tt, d)
  | Some r =>
      let~ d' := wrap_sql "fail daily interest accrual" (put_accrual id (with_work r (work_failed status code next (da_work r))) d) in
      inr (tt, d')
  end.
Definition sql_recount_of_accrual (id : uuid) : int_query unit := fun _ d =>
  match interest_daily_accruals d !! id with
  | None => inr (tt, d)
  | Some r => let~ d' := recount_blocked (da_PeriodID r) d in inr (tt, d')
  end.
(** The number of rows set back to pending. *)
Definition sql_retry_accrual (id : uuid) : int_query Z := fun _ d =>
  match interest_daily_accruals d !! id with
  | Some r =>
      if retryable (da_work r) && period_in d (da_PeriodID r) ["open"; "closing"; "failed"] then
        let~ d' := wrap_sql "retry daily interest accrual" (put_accrual id (with_work r (retried (da_work r))) d) in
        inr (1, d')
      else inr (0, d)
  | None => inr (0, d)
  end.
Definition ListPeriodAccruals (period : uuid) : int_query (list (uuid * accrual_row)) :=
  int_read (fun d => by_keys (fun r => (da_AccrualDate r.2, Z.of_N (da_EnrollmentID r.2)))
    (rows_where (fun _ r => bool_decide (da_PeriodID r = period)) (interest_daily_accruals d))).

(** ** Capitalization items *)
Definition earned (d : interest_db) (period enrollment : uuid) : Z :=
  sumZ (fun kr => recognized kr.2)
    (rows_where (fun _ r => bool_decide (da_PeriodID r = period) && bool_decide (da_EnrollmentID r = enrollment))
       (interest_daily_accruals d)).
Definition item_for (d : interest_db) (period enrollment : uuid) : bool :=
  existsb (fun kr => bool_decide (ci_PeriodID kr.2 = period) && bool_decide (ci_EnrollmentID kr.2 = enrollment))
    (map_to_list (interest_capitalization_items d)).
(** One row of the INSERT ... SELECT ... ON CONFLICT DO NOTHING. *)
Definition insert_item (period : uuid) (new_id : uuid -> uuid) (e : uuid * enrollment_row) (d : interest_db)
    : error + interest_db :=
  if item_for d period e.1 then inr d
  else if bool_decide (is_Some (interest_capitalization_items d !! new_id e.1)) then inl unique_violation
  else if negb (0 <=? earned d period e.1) then inl check_violation
  else if negb (in_int64 (earned d period e.1)) then inl out_of_range
  else inr (set_items d (<[new_id e.1 := ItemRow period e.1 (se_AccountID e.2) (earned d period e.1) new_work]>
                           (interest_capitalization_items d))).
Fixpoint insert_items (period : uuid) (new_id : uuid -> uuid) (l : list (uuid * enrollment_row)) (d : interest_db)
    : error + interest_db :=
  match l with [] => inr d | e :: l => let~ d := insert_item period new_id e d in insert_items period new_id l d end.
Definition EnsureCapitalizationItems (period : uuid) : int_query unit := fun ic d =>
  match interest_periods d !! period with
  | None => inr (tt, d)
  | Some p =>
      let~ w := period_window d p in
      match w with
      | None => inr (tt, d)
      | Some (_, first, last) =>
          let~ d' := wrap_sql "ensure capitalization items"
            (insert_items period (ic_uuid ic)
               (rows_where (fun i e => enrolled_in d p i e && nonempty (spells_in d first last i e)) (savings_enrollments d)) d) in
          inr (tt, d')
      end
  end.
Definition ListCapitalizationItems (period : uuid) : int_query (list (uuid * item_row)) :=
  int_read (fun d => by_keys (fun r => (Z.of_N (ci_EnrollmentID r.2), 0))
    (rows_where (fun _ r => bool_decide (ci_PeriodID r = period)) (interest_capitalization_items d))).
Definition StartCapitalization (id : uuid) (owner : string) (now : Z) : int_query (uuid * item_row) := fun _ d =>
  match interest_capitalization_items d !! id with
  | Some r =>
      if claimable (ci_work r) now then
        let r' := item_with r (leased owner now (ci_work r)) in
        let~ d' := put_item id r' d in inr ((id, r'), d')
      else inl ErrNoRows
  | None => inl ErrNoRows
  end.
Definition add_capitalized (period : uuid) (amount : Z) (d : interest_db) : error + interest_db :=
  put_period period (fun p => with_counts p (ip_ExpectedItemCount p) (ip_CompletedItemCount p) (ip_BlockedItemCount p)
                                (ip_TotalAccruedAmount p) (ip_TotalCapitalizedAmount p + amount)) d.
Definition CompleteCapitalization (id : uuid) (status : string) (tx : option uuid) (d : interest_db) : error + interest_db :=
  match interest_capitalization_items d !! id with
  | None => inl (Wrap "load capitalization completion" ErrNoRows)
  | Some r =>
      let current := wk_Status (ci_work r) in
      if terminal_item current then inr d
      else if negb (bool_decide (current = "processing")) then inl (Plain "complete capitalization item: row is not processing")
      else if bool_decide (status = "posted") && (0 <? ci_CapitalizationAmount r) && bool_decide (tx = None) then
        inl (Plain "complete capitalization item: posted row requires a ledger transaction")
      else
        let~ d := wrap_sql "complete capitalization item" (put_item id (item_with r (finished status tx (ci_work r))) d) in
        if (0 <? ci_CapitalizationAmount r) && bool_decide (status = "posted") then
          wrap_sql "update capitalized period total" (add_capitalized (ci_PeriodID r) (ci_CapitalizationAmount r) d)
        else inr d
  end.
Definition FailCapitalization (id : uuid) (status code : string) (next : option Z) : int_query unit := fun _ d =>
  match interest_capitalization_items d !! id with
  | None => inr (tt, d)
  | Some r =>
      let~ d' := wrap_sql "fail capitalization item" (put_item id (item_with r (work_failed status code next (ci_work r))) d) in
      inr (tt, d')
  end.
Definition sql_retry_item (id : uuid) : int_query Z := fun _ d =>
  match interest_capitalization_items d !! id with
  | Some r =>
      if retryable (ci_work r) && period_in d (ci_PeriodID r) ["open"; "closing"; "failed"] then
        let~ d' := wrap_sql "retry capitalization item" (put_item id (item_with r (retried (ci_work r))) d) in
        inr (1, d')
      else inr (0, d)
  | None => inr (0, d)
  end.
Definition sql_recount_of_item (id : uuid) : int_query unit := fun _ d =>
  match interest_capitalization_items d !! id with
  | None => inr (tt, d)
  | Some r => let~ d' := recount_blocked (ci_PeriodID r) d in inr (tt, d')
  end.

(** ** Checks: an upsert; the trigger guards the update, not the insert *)
Definition PutPeriodCheck (period : uuid) (name status expected actual severity : string) (checkedAt : Z)
    : int_query unit := fun _ d =>
  if bool_decide (is_Some (interest_period_checks d !! (period, name))) && period_closed d period then
    inl (Wrap "put interest period check" closed_evidence_immutable)
  else inr (tt, set_checks d (<[(period, name) := CheckRow status expected actual severity checkedAt]> (interest_period_checks d))).

(** ** Corrections *)
Definition correction_linked (r : correction_row) (d : interest_db) : bool :=
  match interest_periods d !! cr_SourcePeriodID r, savings_enrollments d !! cr_EnrollmentID r with
  | Some p, Some e =>
      bool_decide (se_ProductID e = ip_ProductID p) &&
      match cr_SourceAccrualID r, cr_SourceCapitalizationID r with
      | Some a, None => match interest_daily_accruals d !! a with
                        | Some r' => bool_decide (da_PeriodID r' = cr_SourcePeriodID r)
                                     && bool_decide (da_EnrollmentID r' = cr_EnrollmentID r)
                        | None => false end
      | None, Some c => match interest_capitalization_items d !! c with
                        | Some r' => bool_decide (ci_PeriodID r' = cr_SourcePeriodID r)
                                     && bool_decide (ci_EnrollmentID r' = cr_EnrollmentID r)
                        | None => false end
      | _, _ => false
      end
  | _, _ => false
  end.
Definition put_correction (id : uuid) (r : correction_row) (d : interest_db) : error + (unit * interest_db) :=
  if correction_row_ok r then inr (tt, set_corrections d (<[id := r]> (interest_adjustments d))) else inl check_violation.
Definition InsertCorrection (id : uuid) (r : correction_row) : int_query unit := fun _ d =>
  if negb (correction_linked r d) then inl (wrapf ErrValidation "adjustment source is not linked to period and enrollment")
  else if bool_decide (is_Some (interest_adjustments d !! id)) then inl (Wrap "create interest adjustment" unique_violation)
  else wrap_sql "create interest adjustment" (put_correction id r d).
Definition GetCorrection (id : uuid) : int_query correction_row := fun _ d =>
  match interest_adjustments d !! id with
  | None => inl (Wrap "interest adjustment" ErrNoRows)
  | Some r => inr (r, d)
  end.
Definition correction_with (r : correction_row) (status : string) (approver : option string) (tx : option uuid) : correction_row :=
  CorrectionRow (cr_SourcePeriodID r) (cr_EnrollmentID r) (cr_SourceAccrualID r) (cr_SourceCapitalizationID r)
    (cr_Amount r) (cr_Direction r) status (cr_Reason r) (cr_CreatedBy r) approver tx.
Definition ApproveCorrection (id : uuid) (checker : string) : int_query unit := fun _ d =>
  match interest_adjustments d !! id with
  | Some r =>
      if bool_decide (cr_Status r = "pending_approval") && negb (bool_decide (cr_CreatedBy r = checker)) then
        wrap_sql "approve interest adjustment" (put_correction id (correction_with r "approved" (Some checker) (cr_LedgerTransactionID r)) d)
      else requireRows "approve interest adjustment"
  | None => requireRows "approve interest adjustment"
  end.
Definition MarkAdjustmentPostedTx (id : uuid) (tx : option uuid) (d : interest_db) : error + interest_db :=
  match tx with
  | None => inl (Plain "mark interest adjustment posted: ledger transaction is required")
  | Some _ =>
      match interest_adjustments d !! id with
      | Some r =>
          if bool_decide (cr_Status r = "approved")
             || bool_decide (cr_Status r = "posted") && bool_decide (cr_LedgerTransactionID r = tx) then
            let~ (_, d') := wrap_sql "mark interest adjustment posted"
              (put_correction id (correction_with r "posted" (cr_ApprovedBy r) tx) d) in inr d'
          else requireRows "mark interest adjustment posted"
      | None => requireRows "mark interest adjustment posted"
      end
  end.
(** snapshot_repository.go *)
Definition SnapshotAt (account : uuid) (day : Z) : int_query (option (uuid * Z)) :=
  int_read (fun d => balance_snapshots d !! (account, day)).
End zones.
