(* ===== verification/Interest.v ===== *)
(** * Savings interest: services/ledger/internal/ledger/interest/service.go

    The daily accrual of every enrollment, the recovery of what was left behind,
    the monthly close that capitalizes what was earned, and the corrections of a
    closed month.  Each handler is a sequence of calls: statements, the command
    executor, the transaction lookup, the clock.  Retention of the snapshot reader
    without snapshots (BalanceAsOf) is not used in production and is left out. *)
From Stdlib Require Import QArith.
From stdpp Require Import prelude gmap strings list sorting.
From S2P Require Import Prelude Decimal Errors Currency Events Money Calendar InterestMath Processors Flow LedgerService LedgerApi Executor.
From S2P Require Import InterestRepo.
Open Scope Z_scope.

Section interest.
Context `{DEC : !Decimal} `{UT : !UuidText} `{ZN : !Zones}.

(** ** Calls *)
Inductive int_call : Type -> Type :=
  | IntSql {A} (s : int_query A) : int_call (error + A)
  | IntExec {A} (o : exec_call A) : int_call A
  | LookupTransaction (key scope : string) : int_call (error + uuid).
Notation prog := (Flow.prog int_call).
Notation sql s := (perform (IntSql s)).
Definition time_Now : prog Z := perform (IntExec Clock).
Definition uuid_New : prog uuid := perform (IntExec NewUUID).
(** A transaction that returns nothing. *)
Definition in_tx (f : int_choice -> interest_db -> error + interest_db) : prog (error + unit) :=
  sql (fun ic d => match f ic d with inl err => inl err | inr d' => inr (tt, d') end).

(** ** The service *)
Record InterestService := MkService { sv_loc : Location; sv_txLookup : bool; sv_outbox : bool }.
Context (x : Executor) (s : InterestService).
(** time.FixedZone("Asia/Jakarta", 7*60*60), the default location *)
Definition Jakarta : Location := FixedZone (7 * 60 * 60).
Definition the_day (date : Z) : Z := local_day (sv_loc s) date.
Definition date_string (date : Z) : string := date_text (the_day date).
Definition insertOutbox (e : interest_event) (d : interest_db) : interest_db :=
  if sv_outbox s then add_outbox d e else d.
Definition TypeInterestAccrued : string := "ledger.interest_accrued.v1".
Definition TypeInterestCapitalized : string := "ledger.interest_capitalized.v1".
Definition TypeInterestPeriodClosed : string := "ledger.interest_period.closed.v1".
Definition TypeInterestAdjusted : string := "ledger.interest_adjusted.v1".
Definition NewInterestAccrued (accrual period enrollment account : uuid) (date amount currency : string)
    (tx : option uuid) (at_ : Z) : interest_event :=
  InterestAccrued (logicalEventID TypeInterestAccrued (uuid_string accrual)) accrual period enrollment account
    date amount currency tx at_.
Definition NewInterestCapitalized (item period enrollment account : uuid) (amount currency : string)
    (tx : option uuid) (at_ : Z) : interest_event :=
  InterestCapitalized (logicalEventID TypeInterestCapitalized (uuid_string item)) item period enrollment account
    amount currency tx at_.
Definition NewInterestPeriodClosed (period product : uuid) (currency : string) (year month : Z)
    (accrued capitalized : string) (at_ : Z) : interest_event :=
  InterestPeriodClosed (logicalEventID TypeInterestPeriodClosed (uuid_string period)) period product currency
    year month accrued capitalized at_.
Definition NewInterestAdjusted (correction period enrollment : uuid) (amount direction stage currency : string)
    (tx : option uuid) (at_ : Z) : interest_event :=
  InterestAdjusted (logicalEventID TypeInterestAdjusted (uuid_string correction)) correction period enrollment
    amount direction stage currency tx at_.

(** ** Failures of a day *)
Definition hard_codes : list string :=
  ["INTEREST_BALANCE_NOT_INTEGER"; "INTEREST_CALCULATION_INVALID"; "INTEREST_AMOUNT_OVERFLOW";
   "INTEREST_CARRY_DENOMINATOR_INVALID"; "INTEREST_LIABILITY_POST_BLOCKED"].
Definition FailDailyAccrual (id : uuid) (status code : string) (next : option Z) : prog (error + unit) :=
  let? _ := sql (sql_fail_accrual id status code next) in
  pwrap "update blocked interest item count" (sql (sql_recount_of_accrual id)).
Definition blockOrRetry (period : period_row) (id : uuid) (code : string) (cause : error) : prog (error + unit) :=
  let* t := time_Now in
  let* past := if bool_decide (code ∈ hard_codes) then Ret true
               else if ip_AccrualCutoffAt period =? 0 then Ret false
               else (let* now := time_Now in Ret (ip_AccrualCutoffAt period <=? now)) in
  let '(status, next) := if past : bool then ("blocked", None) else ("retry_wait", Some (t + 5 * Minute)) in
  let* r := FailDailyAccrual id status code next in
  Ret (inl (Wrap code cause)).
Definition isBusinessFailure (err : error) : bool := bool_decide (is_Some (as_ledger_error err)).
Definition classifyPostError (err : error) : string :=
  if isBusinessFailure err then "INTEREST_LIABILITY_POST_BLOCKED" else "INTEREST_LIABILITY_POST_RETRY".
Definition isTerminalAccrual (status : string) : bool := terminal_accrual status.

(** ** Integers *)
Definition balanceInt64 (balance : dec) : error + Z :=
  if negb (dec_equal balance (dec_truncate balance)) then
    inl (Plain "interest: snapshot balance is not an integer minor-unit value")
  else if negb (dec_is_integer balance) then inl (Plain "interest: snapshot balance is not integral")
  else if negb (in_int64 (Z.quot (Qnum (dec_val balance)) (Zpos (Qden (dec_val balance))))) then
    inl (Plain "interest: snapshot balance exceeds int64")
  else inr (dec_int_part balance).
Definition bigIntInt64 (value : Z) : error + Z :=
  if in_int64 value then inr value else inl (Plain "interest: recognized amount exceeds int64").
Definition uuidPtrOrNil (id : uuid) : option uuid := if bool_decide (id = uuid_Nil) then None else Some id.
(** The carry of the previous day, or of the last day before a pause. *)
Definition previous_day (date : Z) : Z := local_day (sv_loc s) (AddDate 0 0 (-1) (sv_loc s) date).
Definition GetCarryBeforeDate (enrollment : uuid) (date : Z) : prog (error + option (Z * Z)) :=
  let found (r : accrual_row) : prog (error + option (Z * Z)) :=
    Ret (match terminalCarry r with inl err => inl err | inr c => inr (Some c) end) in
  let? prior := pwrap "get prior interest carry" (sql (sql_accrual_on enrollment (previous_day date))) in
  match prior with
  | Some r => found r
  | None =>
      let? status := pwrap "read enrollment status before interest date" (sql (sql_status_on enrollment (previous_day date))) in
      let? hasEarlier := pwrap "check prior interest accrual gap" (sql (sql_has_earlier enrollment (previous_day date))) in
      if bool_decide (status = Some "active") && hasEarlier then Ret (inl (Plain "prior interest accrual date is missing"))
      else
        let? last := pwrap "get prior interest carry across lifecycle gap" (sql (sql_last_before enrollment (the_day date))) in
        match last with Some r => found r | None => Ret (inr None) end
  end.

(** ** One day of one enrollment *)
Definition liability_key (enrollment : uuid) (date : Z) : string :=
  "interest-liability:" +:+ (uuid_string enrollment +:+ (":" +:+ date_string date)).
Definition liability_command (enrollment account period : uuid) (rate amount date : Z) : Command :=
  {| IdempotencyKey := liability_key enrollment date; IdempotencyScope := uuid_string enrollment;
     Type_ := "interest_liability_accrue"; Amount := dec_of_Z amount; UserID := uuid_Nil;
     TargetUserID := uuid_Nil; PocketCode := EmptyString; Currency_ := EmptyString; ReferenceID := uuid_Nil;
     Metadata := list_to_map [("account_id", MString (uuid_string account)); ("enrollment_id", MString (uuid_string enrollment));
                              ("period_id", MString (uuid_string period)); ("accrual_date", MString (date_string date));
                              ("rate_bps", MString (Z_text rate))];
     QuoteID := EmptyString; MerchantTenantID := uuid_Nil |}.
Definition worker_context (correlation origin : string) : ExecutionContext :=
  MkContext uuid_Nil uuid_Nil "internal-worker" correlation 0 origin EmptyString.
Definition already_posted (err : error) : bool := errors_is err ErrAlreadyPosted.
(** The transaction of a command just posted: its id, when a lookup is wired. *)
Definition find_tx (key scope : string) : prog (error + option uuid) :=
  if sv_txLookup s then (let? tx := perform (LookupTransaction key scope) in Ret (inr (Some tx))) else Ret (inr None).

Definition eligible_balance (balance minimum : Z) : Z :=
  if (balance <=? 0) || ((0 <? minimum) && (balance <? minimum)) then 0 else balance.
Definition completeDailyAccrual (product : product_row) (id : uuid) (item : accrual_row) (c : accrual_calc)
    (status : string) (tx : option uuid) : prog (error + unit) :=
  let* now := time_Now in
  in_tx (fun _ d =>
    let~ d := CompleteDailyAccrual id status tx (ac_ClosingCarryNumerator c) (ac_Denominator c) d in
    inr (insertOutbox (NewInterestAccrued id (da_PeriodID item) (da_EnrollmentID item) (da_AccountID item)
                         (date_text (da_AccrualDate item)) (Z_text (ac_RecognizedAmount c)) (sp_Currency product) tx now) d)).
(** The calculation of a day, or the code and cause of its failure. *)
Definition day_calculation (product : product_row) (snapshotID : uuid) (balanceInt : Z) (rateID : uuid) (rate : rate_row)
    (carry : Z * Z) : (string * error) + accrual_calc :=
  let '(carryNumerator, carryDenominator) := carry in
  if negb (carryDenominator =? DailyDenominator) then
    inl ("INTEREST_CARRY_DENOMINATOR_INVALID", Plain "carry denominator must be 3650000")
  else match CalculateDailyFromStrings (eligible_balance balanceInt (sp_MinimumEligibleBalance product))
               (rv_AnnualRateBps rate) (Z_text carryNumerator) with
  | inl err => inl ("INTEREST_CALCULATION_INVALID", err)
  | inr c =>
      match bigIntInt64 (dc_RecognizedMinor c) with
      | inl err => inl ("INTEREST_AMOUNT_OVERFLOW", err)
      | inr recognized =>
          inr (AccrualCalc (uuidPtrOrNil snapshotID) balanceInt rateID (rv_AnnualRateBps rate) (dc_ExactNumerator c)
                 (dc_Denominator c) (dc_OpeningCarryNumerator c) recognized (dc_ClosingCarryNumerator c))
      end
  end.
(** Posting the recognised amount, and closing the day. *)
Definition post_accrual (enrollment : uuid * enrollment_row) (product : product_row) (period : uuid * period_row)
    (id : uuid) (item : accrual_row) (c : accrual_calc) (date : Z) : prog (error + unit) :=
  if ac_RecognizedAmount c =? 0 then completeDailyAccrual product id item c "completed_zero" None
  else
    let key := liability_key enrollment.1 date in
    let cmd := liability_command enrollment.1 (se_AccountID enrollment.2) period.1 (ac_AnnualRateBps c)
                 (ac_RecognizedAmount c) date in
    let* posted := embed (@IntExec) (Execute x cmd (worker_context key "interest-period-accrual")) in
    let refused := match posted with
                   | inl err => if already_posted err then None else Some err
                   | inr _ => None
                   end in
    match refused with
    | Some err => blockOrRetry period.2 id (classifyPostError err) err
    | None =>
        let* found := find_tx key (uuid_string enrollment.1) in
        match found with
        | inl err => blockOrRetry period.2 id "INTEREST_TRANSACTION_LOOKUP_FAILED" err
        | inr tx => completeDailyAccrual product id item c "completed_posted" tx
        end
    end.
Definition processClaimedAccrual (enrollment : uuid * enrollment_row) (product : product_row)
    (period : uuid * period_row) (item : uuid * accrual_row) (date : Z) : prog (error + unit) :=
  let* snapshot := sql (SnapshotAt (se_AccountID enrollment.2) (the_day date)) in
  match snapshot with
  | inl err => blockOrRetry period.2 item.1 "INTEREST_SNAPSHOT_READ_FAILED" err
  | inr None => blockOrRetry period.2 item.1 "INTEREST_SNAPSHOT_MISSING" (Plain "interest snapshot missing")
  | inr (Some (snapshotID, balance)) =>
      let* rate := sql (GetRateForDate (se_ProductID enrollment.2) (the_day date)) in
      match rate with
      | inl err => blockOrRetry period.2 item.1 "SAVINGS_RATE_MISSING" (Wrap "savings rate missing" err)
      | inr (rateID, rate) =>
          match balanceInt64 (dec_of_Z balance) with
          | inl err => blockOrRetry period.2 item.1 "INTEREST_BALANCE_NOT_INTEGER" err
          | inr balanceInt =>
              let* prior := GetCarryBeforeDate enrollment.1 date in
              match prior with
              | inl err => blockOrRetry period.2 item.1 "INTEREST_PRIOR_ACCRUAL_INCOMPLETE"
                             (Wrap "prior interest accrual is incomplete" err)
              | inr prior =>
                  let carry := default (se_CarryNumerator enrollment.2, se_CarryDenominator enrollment.2) prior in
                  match day_calculation product snapshotID balanceInt rateID rate carry with
                  | inl (code, err) => blockOrRetry period.2 item.1 code err
                  | inr c =>
                      let? _ := sql (SaveDailyCalculation item.1 c) in
                      post_accrual enrollment product period item.1 item.2 c date
                  end
              end
          end
      end
  end.

(** ** The daily run *)
Definition EnsurePeriod (p : period_row) : prog (error + (uuid * period_row)) :=
  let* id := uuid_New in
  let? _ := sql (sql_insert_period id p) in
  sql (sql_select_period_of_month (ip_ProductID p) (ip_Year p) (ip_Month p)).
(** The month of the date, in the product's zone. *)
Definition month_period (product : uuid * product_row) (date : Z) : period_row :=
  let loc := default (sv_loc s) (LoadLocation (sp_Timezone product.2)) in
  let local := date_of_day (local_day loc date) in
  let start := Date (d_year local) (d_month local) 1 0 loc in
  let end_ := AddDate 0 1 0 loc start in
  let first := date_of_day (local_day loc start) in
  PeriodRow product.1 (sp_Currency product.2) (d_year first) (d_month first) start end_ end_ (end_ + 75 * Minute) "open"
    0 0 0 0 0 None None None None None.
Definition ensurePeriodForDate (product : uuid * product_row) (date : Z) : prog (error + (uuid * period_row)) :=
  EnsurePeriod (month_period product date).
Definition CreateOrGetDailyAccrual (period enrollment account : uuid) (date : Z) : prog (error + (uuid * accrual_row)) :=
  let* id := uuid_New in
  let? _ := sql (sql_insert_accrual id period enrollment account (the_day date)) in
  sql (sql_select_accrual enrollment (the_day date)).
Definition accrueOne (enrollment : uuid * enrollment_row) (date : Z) : prog (error + unit) :=
  let? product := sql (GetProduct (se_ProductID enrollment.2)) in
  let? period := ensurePeriodForDate (se_ProductID enrollment.2, product) date in
  let? item := CreateOrGetDailyAccrual period.1 enrollment.1 (se_AccountID enrollment.2) date in
  if isTerminalAccrual (wk_Status (da_work item.2)) then ok
  else
    let* owner := uuid_New in
    let* now := time_Now in
    let? item := sql (ClaimDailyAccrualForID item.1 ("interest-" +:+ uuid_string owner) now) in
    if negb (bool_decide (wk_Status (da_work item.2) = "processing")) then ok
    else processClaimedAccrual enrollment product period item date.
(** A claimed row whose enrollment, product or period cannot be read. *)
Definition give_up_row (id : uuid) (code : string) : prog unit :=
  let* t := time_Now in logged (FailDailyAccrual id "retry_wait" code (Some (t + 5 * Minute))).
Definition recover_row (item : uuid * accrual_row) : prog unit :=
  let* enrollment := sql (GetEnrollment (da_EnrollmentID item.2)) in
  match enrollment with
  | inl _ => give_up_row item.1 "INTEREST_ENROLLMENT_READ_FAILED"
  | inr enrollment =>
      let* product := sql (GetProduct (se_ProductID enrollment)) in
      match product with
      | inl _ => give_up_row item.1 "INTEREST_PRODUCT_READ_FAILED"
      | inr product =>
          let* period := sql (GetPeriod (da_PeriodID item.2)) in
          match period with
          | inl _ => give_up_row item.1 "INTEREST_PERIOD_READ_FAILED"
          | inr period =>
              logged (processClaimedAccrual (da_EnrollmentID item.2, enrollment) product (da_PeriodID item.2, period)
                        item (da_AccrualDate item.2 * Day))
          end
      end
  end.
(** The loop ends when no row is due; [rounds] bounds the rows one run takes. *)
Fixpoint recoverPending (rounds : nat) : prog unit :=
  match rounds with
  | O => Ret tt
  | S rounds =>
      let* owner := uuid_New in
      let* now := time_Now in
      let* item := sql (ClaimDailyAccrual ("interest-recovery-" +:+ uuid_string owner) now) in
      match item with
      | inl _ => Ret tt
      | inr item => let* _ := recover_row item in recoverPending rounds
      end
  end.
Fixpoint each {A} (f : A -> prog unit) (l : list A) : prog unit :=
  match l with [] => Ret tt | a :: l => let* _ := f a in each f l end.
Definition RunDaily (rounds : nat) (date : Z) : prog unit :=
  let* enrollments := sql (ListActiveEnrollments (the_day date)) in
  let* _ := match enrollments with
            | inl _ => Ret tt
            | inr l => each (fun e => logged (accrueOne e date)) l
            end in
  recoverPending rounds.

(** ** The close of a month *)
Record PeriodPreview := MkPreview {
  pp_EligibleEnrollments : Z; pp_ExpectedItems : Z; pp_DailyAccruals : Z; pp_ZeroAccruals : Z; pp_PostedLiability : Z;
  pp_BlockedItems : Z; pp_MissingItems : Z; pp_ExpectedCapitalization : Z; pp_SnapshotComplete : bool;
  pp_CarryChainContinuous : bool; pp_RateCoverageComplete : bool; pp_AccountCloseBlocked : bool; pp_Ready : bool;
  pp_Reason : string }.
(** What the loop over the accruals keeps: the counters, the flags, the last carry of
    each enrollment. *)
Record tally := MkTally {
  ty_zero : Z; ty_posted : Z; ty_blocked : Z; ty_missing : Z; ty_snapshots : bool; ty_carries : bool;
  ty_rates : bool; ty_lastCarry : gmap uuid Z }.
Definition tally_row (t : tally) (item : accrual_row) : tally :=
  let status := wk_Status (da_work item) in
  let terminal := isTerminalAccrual status in
  let previous := ty_lastCarry t !! da_EnrollmentID item in
  let '(snapshots, carries, rates, last) :=
    if terminal then
      match da_calc item with
      | None => (false, false, false, ty_lastCarry t)
      | Some c =>
          (ty_snapshots t && bool_decide (is_Some (ac_SnapshotID c)),
           ty_carries t && (ac_Denominator c =? DailyDenominator)
             && match previous with Some p => p =? ac_OpeningCarryNumerator c | None => true end,
           ty_rates t, <[da_EnrollmentID item := ac_ClosingCarryNumerator c]> (ty_lastCarry t))
      end
    else (ty_snapshots t, ty_carries t, ty_rates t, ty_lastCarry t) in
  let unlinked := bool_decide (status = "completed_posted") && (0 <? recognized item)
                  && bool_decide (wk_LedgerTransactionID (da_work item) = None) in
  if bool_decide (status = "completed_zero") then
    MkTally (ty_zero t + 1) (ty_posted t) (ty_blocked t) (ty_missing t) snapshots carries rates last
  else if bool_decide (status ∈ ["completed_posted"; "adjusted"]) then
    MkTally (ty_zero t) (ty_posted t + recognized item) (ty_blocked t)
      (if unlinked then ty_missing t + 1 else ty_missing t) snapshots carries rates last
  else if bool_decide (status ∈ ["blocked"; "failed"]) then
    MkTally (ty_zero t) (ty_posted t) (ty_blocked t + 1) (ty_missing t) snapshots carries rates last
  else MkTally (ty_zero t) (ty_posted t) (ty_blocked t) (ty_missing t + 1) snapshots carries rates last.
Definition tally_rows (rows : list (uuid * accrual_row)) : tally :=
  foldl (fun t kr => tally_row t kr.2) (MkTally 0 0 0 0 true true true ∅) rows.
Definition one_if (b : bool) : Z := if b then 1 else 0.
Definition missing_items (t : tally) (expected found : Z) : Z :=
  ty_missing t + one_if (negb (ty_snapshots t)) + one_if (negb (ty_rates t)) + one_if (negb (ty_carries t))
  + (if found <? expected then expected - found else 0).
Definition complete_inventory (t : tally) (missing : Z) (closeBlocked : bool) : bool :=
  (ty_blocked t =? 0) && (missing =? 0) && negb closeBlocked && ty_snapshots t && ty_carries t && ty_rates t.
Definition put_check (period : uuid) (name : string) (pass : bool) (expected actual : string) : prog (error + unit) :=
  let* now := time_Now in
  sql (PutPeriodCheck period name (if pass then "pass" else "fail") expected actual "critical" now).
Definition bool_text (b : bool) : string := if b then "true" else "false".
Definition closed (p : period_row) : bool := bool_decide (ip_Status p = "closed").
(** The period, with its expected number of accruals refreshed unless it is closed. *)
Definition refreshed_period (id : uuid) : prog (error + period_row) :=
  let? period := sql (GetPeriod id) in
  if closed period then Ret (inr period)
  else let? _ := sql (RefreshExpectedItemCount id) in sql (GetPeriod id).
Definition preview_checks (id : uuid) (period : period_row) (t : tally) (found missing : Z) (closeBlocked : bool)
    : prog (error + bool) :=
  if closed period then Ret (inr true)
  else
    let? _ := put_check id "daily_accrual_inventory" (complete_inventory t missing closeBlocked)
                (Z_text (ip_ExpectedItemCount period)) (Z_text found) in
    let? _ := put_check id "liability_reconciliation" (ip_TotalAccruedAmount period =? ty_posted t)
                (Z_text (ip_TotalAccruedAmount period)) (Z_text (ty_posted t)) in
    let? previous := sql (IsPreviousPeriodClosed id) in
    let? _ := put_check id "previous_period_closed" previous "true" (bool_text previous) in
    Ret (inr previous).
Definition PreviewPeriodClose (id : uuid) : prog (error + PeriodPreview) :=
  let? period := refreshed_period id in
  let? accruals := sql (ListPeriodAccruals id) in
  let? eligible := sql (CountEligibleEnrollments id) in
  let? closeBlocked := sql (HasNonActiveCapitalizationAccount id) in
  let t := tally_rows accruals in
  let found := Z.of_nat (length accruals) in
  let missing := missing_items t (ip_ExpectedItemCount period) found in
  let preview (ready : bool) (reason : string) :=
    MkPreview eligible (ip_ExpectedItemCount period) found (ty_zero t) (ty_posted t) (ty_blocked t) missing
      (if ready then ty_posted t else 0) (ty_snapshots t) (ty_carries t) (ty_rates t) closeBlocked ready reason in
  let? previousClosed := preview_checks id period t found missing closeBlocked in
  if complete_inventory t missing closeBlocked && negb (closed period) then
    if negb previousClosed then Ret (inr (preview false "previous period is not closed"))
    else
      let* now := time_Now in
      if now <? ip_CloseNotBeforeAt period then Ret (inr (preview false "close window has not opened"))
      else Ret (inr (preview true EmptyString))
  else if closed period then Ret (inr (preview false "period is already closed"))
  else if closeBlocked then Ret (inr (preview false "an enrolled account is not active"))
  else Ret (inr (preview false "daily accrual inventory is incomplete")).

Definition capitalize_key (enrollment period : uuid) : string :=
  "interest-capitalize:" +:+ (uuid_string enrollment +:+ (":" +:+ uuid_string period)).
Definition capitalize_command (enrollment account period : uuid) (amount : Z) (actor : string) : Command :=
  {| IdempotencyKey := capitalize_key enrollment period; IdempotencyScope := uuid_string period;
     Type_ := "interest_capitalize"; Amount := dec_of_Z amount; UserID := uuid_Nil;
     TargetUserID := uuid_Nil; PocketCode := EmptyString; Currency_ := EmptyString; ReferenceID := uuid_Nil;
     Metadata := list_to_map [("account_id", MString (uuid_string account)); ("enrollment_id", MString (uuid_string enrollment));
                              ("period_id", MString (uuid_string period)); ("close_actor", MString actor)];
     QuoteID := EmptyString; MerchantTenantID := uuid_Nil |}.
Definition completeCapitalization (period : uuid * period_row) (id : uuid) (item : item_row) (status : string)
    (tx : option uuid) : prog (error + unit) :=
  let* now := time_Now in
  in_tx (fun _ d =>
    let~ d := CompleteCapitalization id status tx d in
    inr (insertOutbox (NewInterestCapitalized id (ci_PeriodID item) (ci_EnrollmentID item) (ci_AccountID item)
                         (Z_text (ci_CapitalizationAmount item)) (ip_Currency period.2) tx now) d)).
(** The claimed item, posted and recorded. *)
Definition capitalize_claimed (period : uuid * period_row) (actor : string) (item : uuid * item_row) : prog (error + unit) :=
  let key := capitalize_key (ci_EnrollmentID item.2) period.1 in
  let cmd := capitalize_command (ci_EnrollmentID item.2) (ci_AccountID item.2) period.1
               (ci_CapitalizationAmount item.2) actor in
  let* posted := embed (@IntExec) (Execute x cmd (worker_context key "interest-period-close")) in
  let refused := match posted with
                 | inl err => if already_posted err then None else Some err
                 | inr _ => None
                 end in
  match refused with
  | Some err =>
      let* t := time_Now in
      let '(status, next) := if isBusinessFailure err then ("blocked", None) else ("retry_wait", Some (t + 5 * Minute)) in
      let? _ := sql (FailCapitalization item.1 status "INTEREST_CAPITALIZATION_POST_FAILED" next) in
      Ret (inl err)
  | None =>
      let* found := find_tx key (uuid_string period.1) in
      match found with
      | inl err =>
          let* t := time_Now in
          let? _ := sql (FailCapitalization item.1 "retry_wait" "INTEREST_TRANSACTION_LOOKUP_FAILED" (Some (t + 5 * Minute))) in
          Ret (inl err)
      | inr tx => completeCapitalization period item.1 item.2 "posted" tx
      end
  end.
Definition capitalize_item (period : uuid * period_row) (actor : string) (item : uuid * item_row) : prog (error + unit) :=
  if terminal_item (wk_Status (ci_work item.2)) then ok
  else if ci_CapitalizationAmount item.2 =? 0 then completeCapitalization period item.1 item.2 "completed_zero" None
  else
    let* owner := uuid_New in
    let* now := time_Now in
    let* claim := sql (StartCapitalization item.1 ("close-" +:+ uuid_string owner) now) in
    match claim with
    | inl err => if is_no_rows err then ok else Ret (inl err)
    | inr item => capitalize_claimed period actor item
    end.
Fixpoint capitalize_items (period : uuid * period_row) (actor : string) (items : list (uuid * item_row)) : prog (error + unit) :=
  match items with
  | [] => ok
  | item :: items => let? _ := capitalize_item period actor item in capitalize_items period actor items
  end.
Definition period_not_ready (reason : string) : error := Wrap reason (Plain "interest period not ready").
Definition item_done (item : item_row) : bool :=
  terminal_item (wk_Status (ci_work item))
  && negb (bool_decide (wk_Status (ci_work item) = "posted") && (0 <? ci_CapitalizationAmount item)
           && bool_decide (wk_LedgerTransactionID (ci_work item) = None)).
(** What ClosePeriod does once the period is marked closing; any error of it marks
    the period failed. *)
Definition close_body (period : uuid * period_row) (actor : string) : prog (error + period_row) :=
  let? _ := sql (EnsureCapitalizationItems period.1) in
  let? items := sql (ListCapitalizationItems period.1) in
  let? _ := capitalize_items period actor items in
  let? finalItems := sql (ListCapitalizationItems period.1) in
  if negb (forallb (fun kr => item_done kr.2) finalItems) then
    Ret (inl (period_not_ready "a capitalization item is not done"))
  else
    let? finalPeriod := sql (GetPeriod period.1) in
    if negb (ip_TotalCapitalizedAmount finalPeriod =? ip_TotalAccruedAmount finalPeriod) then
      Ret (inl (period_not_ready "accrued and capitalized differ"))
    else
      let? _ := put_check period.1 "capitalization_reconciliation" true
                  (Z_text (ip_TotalAccruedAmount finalPeriod)) (Z_text (ip_TotalCapitalizedAmount finalPeriod)) in
      Ret (inr finalPeriod).
Definition set_period_status (period : uuid) (status code : string) : prog (error + unit) := sql (MarkPeriodStatus period status code).
Definition failClose (period : uuid) (cause : error) : prog (error + unit) :=
  let* r := set_period_status period "failed" "INTEREST_PERIOD_CLOSE_FAILED" in Ret (inl cause).
Definition finish_close (period : uuid * period_row) (final : period_row) : prog (error + unit) :=
  let* closedAt := time_Now in
  in_tx (fun ic d =>
    let~ (_, d) := MarkPeriodStatus period.1 "closed" EmptyString ic d in
    inr (insertOutbox (NewInterestPeriodClosed period.1 (ip_ProductID period.2) (ip_Currency period.2) (ip_Year period.2)
                         (ip_Month period.2) (Z_text (ip_TotalAccruedAmount final))
                         (Z_text (ip_TotalCapitalizedAmount final)) closedAt) d)).
Definition ClosePeriod (id : uuid) (actor : string) : prog (error + unit) :=
  if bool_decide (actor = EmptyString) then Ret (inl (wrapf ErrValidation "close actor is required"))
  else
    let? current := sql (GetPeriod id) in
    if closed current then Ret (inl (Plain "closed interest period is immutable"))
    else
      let? preview := PreviewPeriodClose id in
      if negb (pp_Ready preview) then Ret (inl (period_not_ready (pp_Reason preview)))
      else
        let? period := sql (GetPeriod id) in
        let? _ := set_period_status id "closing" EmptyString in
        let* body := close_body (id, period) actor in
        match body with
        | inl err => failClose id err
        | inr final => finish_close (id, period) final
        end.
Fixpoint close_each (actor : string) (periods : list (uuid * period_row)) (closed_ failed_ : Z) : prog (Z * Z) :=
  match periods with
  | [] => Ret (closed_, failed_)
  | p :: periods =>
      let* r := ClosePeriod p.1 actor in
      match r with
      | inl _ => close_each actor periods closed_ (failed_ + 1)
      | inr _ => close_each actor periods (closed_ + 1) failed_
      end
  end.
Definition CloseDuePeriods (now : Z) (actor : string) : prog (error + (Z * Z)) :=
  let? periods := sql (ListDuePeriods now) in
  let* r := close_each actor periods 0 0 in Ret (inr r).

(** ** Retrying an item *)
Definition RetryDailyAccrual (id : uuid) : prog (error + unit) :=
  let? n := sql (sql_retry_accrual id) in
  if n =? 0 then Ret (inl ErrNoRows)
  else pwrap "update blocked interest item count after retry" (sql (sql_recount_of_accrual id)).
Definition RetryCapitalization (id : uuid) : prog (error + unit) :=
  let? n := sql (sql_retry_item id) in
  if n =? 0 then Ret (inl ErrNoRows)
  else pwrap "update blocked interest item count after capitalization retry" (sql (sql_recount_of_item id)).
Definition RetryPeriodItem (id : uuid) : prog (error + unit) :=
  let* r := RetryDailyAccrual id in
  match r with
  | inr _ => ok
  | inl err =>
      if negb (is_no_rows err) then Ret (inl err)
      else
        let* r := RetryCapitalization id in
        match r with
        | inr _ => ok
        | inl err =>
            if negb (is_no_rows err) then Ret (inl err)
            else Ret (inl (wrapf ErrValidation "interest period item is not retryable or does not exist"))
        end
  end.

(** ** Corrections *)
Definition invalid_correction (r : correction_row) : option error :=
  if bool_decide (cr_CreatedBy r = EmptyString) || bool_decide (cr_Reason r = EmptyString) || (cr_Amount r <=? 0) then
    Some (wrapf ErrValidation "adjustment reason, amount, and creator are required")
  else if bool_decide (cr_SourcePeriodID r = uuid_Nil) || bool_decide (cr_EnrollmentID r = uuid_Nil) then
    Some (wrapf ErrValidation "adjustment period and enrollment are required")
  else if negb (bool_decide (cr_Direction r ∈ ["positive"; "negative"])) then
    Some (wrapf ErrValidation "adjustment direction must be positive or negative")
  else match cr_SourceAccrualID r, cr_SourceCapitalizationID r with
  | None, None => Some (wrapf ErrValidation "adjustment must link an accrual or capitalization item")
  | Some _, Some _ => Some (wrapf ErrValidation "adjustment must link exactly one source item")
  | _, _ => None
  end.
(** Module.CreateInterestAdjustment and Service.CreateAdjustment: no handler sets a
    status, an approver or a transaction. *)
Definition CreateCorrection (r : correction_row) : prog (error + uuid) :=
  match invalid_correction r with
  | Some err => Ret (inl err)
  | None =>
      let? period := sql (GetPeriod (cr_SourcePeriodID r)) in
      if negb (closed period) then Ret (inl (wrapf ErrValidation "corrections require a closed source period"))
      else
        let* id := uuid_New in
        let? _ := sql (InsertCorrection id (correction_with r "pending_approval" None None)) in Ret (inr id)
  end.
Definition adjustmentStage (r : correction_row) : string :=
  match cr_SourceAccrualID r with Some _ => "accrual" | None => "capitalization" end.
Definition correction_key (id : uuid) : string := "interest-adjustment:" +:+ uuid_string id.
Definition correction_command (id : uuid) (r : correction_row) (e : enrollment_row) : Command :=
  {| IdempotencyKey := correction_key id; IdempotencyScope := correction_key id;
     Type_ := "interest_adjustment"; Amount := dec_of_Z (cr_Amount r); UserID := se_UserID e;
     TargetUserID := uuid_Nil; PocketCode := EmptyString; Currency_ := EmptyString; ReferenceID := uuid_Nil;
     Metadata := list_to_map [("account_id", MString (uuid_string (se_AccountID e))); ("adjustment_id", MString (uuid_string id));
                              ("period_id", MString (uuid_string (cr_SourcePeriodID r)));
                              ("enrollment_id", MString (uuid_string (cr_EnrollmentID r)));
                              ("direction", MString (cr_Direction r)); ("reason", MString (cr_Reason r));
                              ("correction_stage", MString (adjustmentStage r))];
     QuoteID := EmptyString; MerchantTenantID := uuid_Nil |}.
Definition post_correction (id : uuid) (r : correction_row) : prog (error + unit) :=
  let? enrollment := sql (GetEnrollment (cr_EnrollmentID r)) in
  let? product := sql (GetProduct (se_ProductID enrollment)) in
  let key := correction_key id in
  let* posted := embed (@IntExec) (Execute x (correction_command id r enrollment)
                                     (worker_context key "interest-adjustment-approval")) in
  let refused := match posted with
                 | inl err => if already_posted err then None else Some err
                 | inr _ => None
                 end in
  match refused with
  | Some err => Ret (inl err)
  | None =>
      let? tx := find_tx key key in
      let* now := time_Now in
      in_tx (fun _ d =>
        let~ d := MarkAdjustmentPostedTx id tx d in
        inr (insertOutbox (NewInterestAdjusted id (cr_SourcePeriodID r) (cr_EnrollmentID r) (Z_text (cr_Amount r))
                             (cr_Direction r) (adjustmentStage r) (sp_Currency product) tx now) d))
  end.
Definition ApproveAdjustment (id : uuid) (checker : string) : prog (error + unit) :=
  if bool_decide (checker = EmptyString) then Ret (inl (wrapf ErrValidation "adjustment checker is required"))
  else
    let? r := sql (GetCorrection id) in
    if bool_decide (cr_Status r = "posted") then ok
    else
      let? r := if bool_decide (cr_Status r = "pending_approval")
                then (let? _ := sql (ApproveCorrection id checker) in sql (GetCorrection id))
                else Ret (inr r) in
      if negb (bool_decide (cr_Status r = "approved")) then
        Ret (inl (wrapf ErrValidation "adjustment is not approved"))
      else post_correction id r.
End interest.
