(* ===== verification/InterestInv.v ===== *)
(** * The savings invariant

    Daily runs, recoveries, closes, retries, corrections and the administration of
    products run as threads over one database and one ledger, with crashes and lost
    answers.  The invariant of every reachable state: days are unique and each saved
    calculation is exact, what is marked posted is in the ledger under its own key,
    whatever the ledger holds under such a key was commanded for a row, and
    corrections are approved by another person. *)
From stdpp Require Import prelude gmap strings list relations.
From S2P Require Import Prelude Decimal Errors Currency Events Money Calendar InterestMath Processors Flow LedgerApi.
From S2P Require Import Executor ExecutorFacts InterestRepo Interest.
Open Scope Z_scope.

Section interest.
Context `{DEC : !Decimal} `{UT : !UuidText} `{ZN : !Zones} `{LED : !PostingLedger}.
Context (x : Executor) (s : InterestService).

Record iworld := IWorld {
  iw_db : interest_db;
  iw_exec : exec_db;
  iw_ledger : lstate;
  iw_sent : list Command;       (* commands given to the posting service *)
}.
Definition set_db (w : iworld) d := IWorld d (iw_exec w) (iw_ledger w) (iw_sent w).
Definition set_iexec (w : iworld) d := IWorld (iw_db w) d (iw_ledger w) (iw_sent w).
Definition set_iledger (w : iworld) l := IWorld (iw_db w) (iw_exec w) l (iw_sent w).

(** ** One call *)
Definition exec_inner_step B (o : exec_call B) : iworld -> B -> iworld -> Prop :=
  match o with
  | ExecSql q => fun w r w' =>
      (exists ch a d, q ch (iw_exec w) = inr (a, d) /\ w' = set_iexec w d /\ (r = inr a \/ exists e, r = inl e)) \/
      (w' = w /\ exists e, r = inl e)
  | NewUUID | Clock | CheckPolicy _ _ _ _ | RecordUsage _ _ _ _ => fun w _ w' => w' = w
  | HandleCommand c => fun w r w' => exists l, post c (iw_ledger w) r l /\
      w' = IWorld (iw_db w) (iw_exec w) l (c :: iw_sent w)
  end.
Definition int_step B (o : int_call B) : iworld -> B -> iworld -> Prop :=
  match o with
  | IntSql q => fun w r w' =>
      (exists ic a d, q ic (iw_db w) = inr (a, d) /\ w' = set_db w d /\ (r = inr a \/ exists e, r = inl e)) \/
      (w' = w /\ exists e, r = inl e)
  | IntExec o => fun w r w' => exec_inner_step _ o w r w'
  | LookupTransaction key scope => fun w r w' => w' = w /\
      match r with inr tx => keyed (iw_ledger w) key scope tx | inl _ => True end
  end.

(** ** What can run *)
Notation sql q := (perform (IntSql q)).
Inductive int_entry : Flow.prog int_call unit -> Prop :=
  | ie_daily rounds date : int_entry (RunDaily x s rounds date)
  | ie_close period actor : int_entry (logged (ClosePeriod x s period actor))
  | ie_close_due now actor : int_entry (logged (CloseDuePeriods x s now actor))
  | ie_preview period : int_entry (logged (PreviewPeriodClose period))
  | ie_retry id : int_entry (logged (RetryPeriodItem id))
  | ie_correction r : int_entry (logged (CreateCorrection r))
  | ie_approve id who : int_entry (logged (ApproveAdjustment x s id who))
  | ie_product id p : int_entry (logged (sql (CreateProduct id p)))
  | ie_product_status id status who : int_entry (logged (sql (UpdateProductStatus id status who)))
  | ie_rate id r : rv_Status r = "draft" -> int_entry (logged (sql (CreateRate id r)))
  | ie_submit id who : int_entry (logged (sql (SubmitRate id who)))
  | ie_approve_rate id who : int_entry (logged (sql (ApproveRate id who)))
  | ie_reject id who why : int_entry (logged (sql (RejectRate id who why)))
  | ie_enroll id e : int_entry (logged (sql (CreateEnrollment id e)))
  | ie_enrollment_status id status who from until :
      int_entry (logged (sql (UpdateEnrollmentStatusWithEffectiveDate id status who from until))).
(** The idempotency keys of this service. *)
Definition liability_text (enrollment : uuid) (day : Z) : string :=
  "interest-liability:" +:+ (uuid_string enrollment +:+ (":" +:+ date_text day)).
Inductive interest_key : string -> string -> Prop :=
  | ik_liability e day : interest_key (liability_text e day) (uuid_string e)
  | ik_capitalize e p : interest_key (capitalize_key e p) (uuid_string p)
  | ik_correction id : interest_key (correction_key id) (correction_key id).
(** Others post under keys of their own, write balances, snapshots and accounts, and
    record decisions of their own commands. *)
Definition set_ledger_views (d : interest_db) snapshots accounts : interest_db :=
  InterestDb (savings_products d) (savings_rate_versions d) (savings_enrollments d) (enrollment_history d)
    (interest_periods d) (interest_daily_accruals d) (interest_capitalization_items d) (interest_period_checks d)
    (interest_adjustments d) snapshots accounts (interest_outbox d).
Inductive int_env (w : iworld) : iworld -> Prop :=
  | iv_ledger c r l :
      ~ interest_key (IdempotencyKey c) (IdempotencyScope c) -> post c (iw_ledger w) r l -> int_env w (set_iledger w l)
  | iv_views snapshots accounts : int_env w (set_db w (set_ledger_views (iw_db w) snapshots accounts))
  | iv_exec subjects more :
      int_env w (set_iexec w (ExecDb subjects (policy_decisions (iw_exec w) ++ more))).
Definition int_initial (c : iworld * list (Flow.prog int_call unit)) : Prop :=
  let w := c.1 in
  iw_db w = InterestDb ∅ ∅ ∅ ∅ ∅ ∅ ∅ ∅ ∅ (balance_snapshots (iw_db w)) (account_views (iw_db w)) [] /\
  lok (iw_ledger w) /\ (forall k sc tx, interest_key k sc -> ~ keyed (iw_ledger w) k sc tx) /\
  iw_sent w = [] /\ c.2 = [].
Definition int_reachable c : Prop :=
  exists c0, int_initial c0 /\ rtc (sys_step int_step int_entry int_env) c0 c.

(** ** The invariant *)
Implicit Types (w : iworld).
Definition product w id := savings_products (iw_db w) !! id.
Definition rate_version w id := savings_rate_versions (iw_db w) !! id.
Definition enrollment w id := savings_enrollments (iw_db w) !! id.
Definition period w id := interest_periods (iw_db w) !! id.
Definition accrual w id := interest_daily_accruals (iw_db w) !! id.
Definition item w id := interest_capitalization_items (iw_db w) !! id.
Definition correction w id := interest_adjustments (iw_db w) !! id.
Definition is_closed w id : Prop := period_closed (iw_db w) id = true.
Definition decisions_in w := policy_decisions (iw_exec w).
Definition under_key (l : lstate) (k sc : string) (tx : uuid) : Prop := keyed l k sc tx /\ is_posted l tx.

(** Columns that never change. *)
Record product_terms (p p' : product_row) : Prop := {
  pt_currency : sp_Currency p' = sp_Currency p;
  pt_minimum : sp_MinimumEligibleBalance p' = sp_MinimumEligibleBalance p }.
Record rate_terms (r r' : rate_row) : Prop := {
  rt_product : rv_ProductID r' = rv_ProductID r; rt_bps : rv_AnnualRateBps r' = rv_AnnualRateBps r;
  rt_from : rv_EffectiveFrom r' = rv_EffectiveFrom r; rt_until : rv_EffectiveUntil r' = rv_EffectiveUntil r }.
Record enrollment_terms (e e' : enrollment_row) : Prop := {
  et_product : se_ProductID e' = se_ProductID e; et_account : se_AccountID e' = se_AccountID e;
  et_user : se_UserID e' = se_UserID e }.
Record accrual_terms (r r' : accrual_row) : Prop := {
  at_period : da_PeriodID r' = da_PeriodID r; at_enrollment : da_EnrollmentID r' = da_EnrollmentID r;
  at_account : da_AccountID r' = da_AccountID r; at_date : da_AccrualDate r' = da_AccrualDate r }.
Record item_terms (r r' : item_row) : Prop := {
  it_period : ci_PeriodID r' = ci_PeriodID r; it_enrollment : ci_EnrollmentID r' = ci_EnrollmentID r;
  it_account : ci_AccountID r' = ci_AccountID r; it_amount : ci_CapitalizationAmount r' = ci_CapitalizationAmount r }.
Definition decided_statuses : list string := ["approved"; "posted"].
(** [who] approved the correction, and did not ask for it. *)
Definition checked_by (r : correction_row) (who : string) : Prop :=
  cr_ApprovedBy r = Some who /\ who <> cr_CreatedBy r /\ cr_Status r ∈ decided_statuses.
Record correction_terms (r r' : correction_row) : Prop := {
  ct_same : correction_with r' EmptyString None None = correction_with r EmptyString None None;
  ct_checked who : checked_by r who -> checked_by r' who }.

(** A calculation is exact: a rate of the enrollment's product, in force that day, on
    the part of the balance the product remunerates. *)
Record calc_true w (r : accrual_row) (c : accrual_calc) : Prop := CalcTrue {
  cx_enrollment : enrollment_row; cx_product : product_row; cx_rate : rate_row;
  cx_enrolled : enrollment w (da_EnrollmentID r) = Some cx_enrollment;
  cx_of : product w (se_ProductID cx_enrollment) = Some cx_product;
  cx_version : rate_version w (ac_RateVersionID c) = Some cx_rate;
  cx_rated : rv_ProductID cx_rate = se_ProductID cx_enrollment;
  cx_bps : rv_AnnualRateBps cx_rate = ac_AnnualRateBps c;
  cx_window : rv_EffectiveFrom cx_rate <= da_AccrualDate r /\
    match rv_EffectiveUntil cx_rate with None => True | Some u => da_AccrualDate r < u end;
  cx_exact : exact_day (eligible_balance (ac_ClosingBalance c) (sp_MinimumEligibleBalance cx_product))
    (ac_AnnualRateBps c)
    (MkDaily (ac_ExactNumerator c) (ac_Denominator c) (ac_OpeningCarryNumerator c) (ac_RecognizedAmount c)
             (ac_ClosingCarryNumerator c)) }.
Definition linked w (k sc : string) (tx : option uuid) : Prop := exists t, tx = Some t /\ keyed (iw_ledger w) k sc t.
Record accrual_true w (r : accrual_row) : Prop := {
  ax_enrolled : exists e, enrollment w (da_EnrollmentID r) = Some e /\ se_AccountID e = da_AccountID r;
  ax_calc c : da_calc r = Some c -> calc_true w r c;
  ax_posted : wk_Status (da_work r) = "completed_posted" -> 0 < recognized r ->
    linked w (liability_text (da_EnrollmentID r) (da_AccrualDate r)) (uuid_string (da_EnrollmentID r))
      (wk_LedgerTransactionID (da_work r)) }.
Record item_true w (i : item_row) : Prop := {
  ix_amount : 0 <= ci_CapitalizationAmount i;
  ix_zero : ci_CapitalizationAmount i = 0 -> ci_work i = new_work;
  ix_posted : wk_Status (ci_work i) = "posted" ->
    linked w (capitalize_key (ci_EnrollmentID i) (ci_PeriodID i)) (uuid_string (ci_PeriodID i))
      (wk_LedgerTransactionID (ci_work i)) }.
Record correction_true w (id : uuid) (r : correction_row) : Prop := {
  kx_row : correction_row_ok r = true;
  kx_checked : cr_Status r ∈ decided_statuses -> exists who, checked_by r who;
  kx_posted : cr_Status r = "posted" -> linked w (correction_key id) (correction_key id) (cr_LedgerTransactionID r) }.

(** What a command sent to the ledger was sent for. *)
Definition liability_sent w (c : Command) : Prop := exists id r p calc date,
  accrual w id = Some r /\ the_day s date = da_AccrualDate r /\ calc_true w r calc /\ ac_RecognizedAmount calc <> 0 /\
  c = liability_command s (da_EnrollmentID r) (da_AccountID r) p (ac_AnnualRateBps calc) (ac_RecognizedAmount calc) date.
Definition capitalize_sent w (c : Command) : Prop := exists id i actor,
  item w id = Some i /\ ci_CapitalizationAmount i <> 0 /\
  c = capitalize_command (ci_EnrollmentID i) (ci_AccountID i) (ci_PeriodID i) (ci_CapitalizationAmount i) actor.
Definition correction_sent w (c : Command) : Prop := exists id r who e,
  correction w id = Some r /\ checked_by r who /\ enrollment w (cr_EnrollmentID r) = Some e /\
  c = correction_command id r e.
Definition sent_for w (c : Command) : Prop := liability_sent w c \/ capitalize_sent w c \/ correction_sent w c.

Record int_inv w : Prop := {
  ii_ledger : lok (iw_ledger w);
  ii_accrual id r : accrual w id = Some r -> accrual_true w r;
  ii_day id r id' r' : accrual w id = Some r -> accrual w id' = Some r' ->
    da_EnrollmentID r = da_EnrollmentID r' -> da_AccrualDate r = da_AccrualDate r' -> id = id';
  ii_item id i : item w id = Some i -> item_true w i;
  ii_month id i id' i' : item w id = Some i -> item w id' = Some i' ->
    ci_PeriodID i = ci_PeriodID i' -> ci_EnrollmentID i = ci_EnrollmentID i' -> id = id';
  ii_correction id r : correction w id = Some r -> correction_true w id r;
  ii_sent c : c ∈ iw_sent w -> sent_for w c;
  ii_origin k sc tx : interest_key k sc -> under_key (iw_ledger w) k sc tx ->
    exists c, c ∈ iw_sent w /\ IdempotencyKey c = k /\ IdempotencyScope c = sc;
}.

(** ** How the world evolves *)
Record int_le w w' : Prop := {
  il_product id p : product w id = Some p -> exists p', product w' id = Some p' /\ product_terms p p';
  il_rate id r : rate_version w id = Some r -> exists r', rate_version w' id = Some r' /\ rate_terms r r';
  il_enrollment id e : enrollment w id = Some e -> exists e', enrollment w' id = Some e' /\ enrollment_terms e e';
  il_period id p : period w id = Some p -> ip_Status p = "closed" -> period w' id = Some p;
  il_accrual id r : accrual w id = Some r -> exists r', accrual w' id = Some r' /\ accrual_terms r r' /\
    (is_closed w (da_PeriodID r) -> r' = r);
  il_new id r : accrual w' id = Some r -> is_closed w (da_PeriodID r) -> accrual w id = Some r;
  il_item id i : item w id = Some i -> exists i', item w' id = Some i' /\ item_terms i i' /\
    (is_closed w (ci_PeriodID i) -> i' = i);
  il_correction id r : correction w id = Some r -> exists r', correction w' id = Some r' /\ correction_terms r r';
  il_decision d : d ∈ decisions_in w -> d ∈ decisions_in w';
  il_ledger : ledger_le (iw_ledger w) (iw_ledger w');
}.

Ltac same_terms := by split.
#[export] Instance product_terms_preorder : PreOrder product_terms.
Proof. split; [by split|]. intros ? ? ? [] []. split; congruence. Qed.
#[export] Instance rate_terms_preorder : PreOrder rate_terms.
Proof. split; [by split|]. intros ? ? ? [] []. split; congruence. Qed.
#[export] Instance enrollment_terms_preorder : PreOrder enrollment_terms.
Proof. split; [by split|]. intros ? ? ? [] []. split; congruence. Qed.
#[export] Instance accrual_terms_preorder : PreOrder accrual_terms.
Proof. split; [by split|]. intros ? ? ? [] []. split; congruence. Qed.
#[export] Instance item_terms_preorder : PreOrder item_terms.
Proof. split; [by split|]. intros ? ? ? [] []. split; congruence. Qed.
#[export] Instance correction_terms_preorder : PreOrder correction_terms.
Proof. split; [by split|]. intros ? ? ? [] []. split; [congruence|auto]. Qed.

Lemma is_closed_period w id : is_closed w id <-> exists p, period w id = Some p /\ ip_Status p = "closed".
Proof.
  unfold is_closed, period_closed, period. destruct (interest_periods (iw_db w) !! id) as [p|].
  - rewrite bool_decide_eq_true. naive_solver.
  - naive_solver.
Qed.
Lemma is_closed_le w w' id : int_le w w' -> is_closed w id -> is_closed w' id.
Proof.
  intros Hw (p & Hp & Hs)%is_closed_period. apply is_closed_period. exists p. split; [|done]. by eapply il_period.
Qed.
#[export] Instance int_le_preorder : PreOrder int_le.
Proof.
  split.
  - intros w. split; try done; try reflexivity; intros id r Hr; eexists; (split; [exact Hr|]); try reflexivity;
      split; reflexivity || done.
  - intros w1 w2 w3 H12 H23. split.
    + intros id p (p2 & H2 & ?)%(il_product _ _ H12). apply (il_product _ _ H23) in H2 as (p3 & ? & ?).
      exists p3. split; [done|by transitivity p2].
    + intros id p (p2 & H2 & ?)%(il_rate _ _ H12). apply (il_rate _ _ H23) in H2 as (p3 & ? & ?).
      exists p3. split; [done|by transitivity p2].
    + intros id p (p2 & H2 & ?)%(il_enrollment _ _ H12). apply (il_enrollment _ _ H23) in H2 as (p3 & ? & ?).
      exists p3. split; [done|by transitivity p2].
    + intros id p Hp Hs. by apply (il_period _ _ H23), Hs; apply (il_period _ _ H12).
    + intros id r (r2 & H2 & T2 & C2)%(il_accrual _ _ H12). apply (il_accrual _ _ H23) in H2 as (r3 & ? & ? & C3).
      exists r3. split; [done|]. split; [by transitivity r2|]. intros Hc. rewrite C3, C2; [done..|].
      rewrite (at_period _ _ T2). by eapply is_closed_le.
    + intros id r Hr Hc. apply (il_new _ _ H12); [|done]. apply (il_new _ _ H23); [done|]. by eapply is_closed_le.
    + intros id r (r2 & H2 & T2 & C2)%(il_item _ _ H12). apply (il_item _ _ H23) in H2 as (r3 & ? & ? & C3).
      exists r3. split; [done|]. split; [by transitivity r2|]. intros Hc. rewrite C3, C2; [done..|].
      rewrite (it_period _ _ T2). by eapply is_closed_le.
    + intros id r (r2 & H2 & ?)%(il_correction _ _ H12). apply (il_correction _ _ H23) in H2 as (r3 & ? & ?).
      exists r3. split; [done|by transitivity r2].
    + intros d Hd. by apply (il_decision _ _ H23), (il_decision _ _ H12).
    + transitivity (iw_ledger w2); [apply H12|apply H23].
Qed.

(** *** What stays true *)
Lemma linked_le w w' k sc tx : int_le w w' -> linked w k sc tx -> linked w' k sc tx.
Proof. intros Hw (t & ? & ?). exists t. split; [done|]. by apply (ll_keyed _ _ (il_ledger _ _ Hw)). Qed.
Lemma calc_true_le w w' r r' c : int_le w w' -> accrual_terms r r' -> calc_true w r c -> calc_true w' r' c.
Proof.
  intros Hw [_ Hr _ Hd] [e p v He Hp Hv Hpr Hb Hwin Hx].
  destruct (il_enrollment _ _ Hw _ _ He) as (e' & He' & Te). destruct (il_product _ _ Hw _ _ Hp) as (p' & Hp' & Tp).
  destruct (il_rate _ _ Hw _ _ Hv) as (v' & Hv' & Tv).
  eapply (CalcTrue w' r' c e' p' v'); rewrite ?Hr, ?Hd, ?(et_product _ _ Te), ?(pt_minimum _ _ Tp), ?(rt_product _ _ Tv),
    ?(rt_bps _ _ Tv), ?(rt_from _ _ Tv), ?(rt_until _ _ Tv); done.
Qed.
Lemma accrual_true_le w w' r : int_le w w' -> accrual_true w r -> accrual_true w' r.
Proof.
  intros Hw [(e & He & Ha) Hc Hp]. split.
  - destruct (il_enrollment _ _ Hw _ _ He) as (e' & He' & Te). exists e'. split; [done|]. by rewrite (et_account _ _ Te).
  - intros c Hr. eapply calc_true_le; [exact Hw|reflexivity|by apply Hc].
  - intros Hs Hr. eapply linked_le; [exact Hw|by apply Hp].
Qed.
Lemma item_true_le w w' i : int_le w w' -> item_true w i -> item_true w' i.
Proof. intros Hw [Ha Hz Hp]. split; [done..|]. intros Hs. eapply linked_le; [exact Hw|by apply Hp]. Qed.
Lemma correction_true_le w w' id r : int_le w w' -> correction_true w id r -> correction_true w' id r.
Proof. intros Hw [Ha Hz Hp]. split; [done..|]. intros Hs. eapply linked_le; [exact Hw|by apply Hp]. Qed.
Lemma correction_fields r r' : correction_terms r r' ->
  cr_SourcePeriodID r' = cr_SourcePeriodID r /\ cr_EnrollmentID r' = cr_EnrollmentID r /\
  cr_SourceAccrualID r' = cr_SourceAccrualID r /\ cr_Amount r' = cr_Amount r /\
  cr_Direction r' = cr_Direction r /\ cr_Reason r' = cr_Reason r /\ cr_CreatedBy r' = cr_CreatedBy r.
Proof. intros [Hs _]. destruct r, r'. unfold correction_with in Hs. simpl in *. injection Hs. intros. subst. done. Qed.
Lemma correction_command_terms id r r' e e' :
  correction_terms r r' -> enrollment_terms e e' -> correction_command id r' e' = correction_command id r e.
Proof.
  intros (E1 & E2 & E3 & E4 & E5 & E6 & _)%correction_fields [_ Ea Eu].
  unfold correction_command, adjustmentStage. by rewrite E1, E2, E3, E4, E5, E6, Ea, Eu.
Qed.
Lemma sent_for_le w w' c : int_le w w' -> sent_for w c -> sent_for w' c.
Proof.
  intros Hw [(id & r & p & cal & date & Hr & Hd & Hc & Hn & ->)|[(id & i & actor & Hi & Hn & ->)|(id & r & who & e & Hr & Hc & He & ->)]].
  - left. destruct (il_accrual _ _ Hw _ _ Hr) as (r' & Hr' & T & _). exists id, r', p, cal, date.
    split; [done|]. rewrite (at_date _ _ T), (at_enrollment _ _ T), (at_account _ _ T).
    split_and!; [done| |done|done]. by eapply calc_true_le.
  - right; left. destruct (il_item _ _ Hw _ _ Hi) as (i' & Hi' & T & _). exists id, i', actor.
    rewrite (it_period _ _ T), (it_enrollment _ _ T), (it_account _ _ T), (it_amount _ _ T). done.
  - right; right. destruct (il_correction _ _ Hw _ _ Hr) as (r' & Hr' & T).
    destruct (il_enrollment _ _ Hw _ _ He) as (e' & He' & Te). exists id, r', who, e'.
    assert (Hf := correction_fields _ _ T). destruct Hf as (_ & -> & _).
    split_and!; [done|by apply (ct_checked _ _ T)|done|]. symmetry. by apply correction_command_terms.
Qed.
End interest.
