(* ===== verification/InterestSafe.v ===== *)
(** * The savings statements keep the invariant

    One lemma per table for what a statement may write there, then one per statement
    of the repository. *)
From stdpp Require Import prelude gmap strings list relations sorting.
From S2P Require Import Prelude Decimal Errors Currency Events Money MoneyFacts Calendar InterestMath Processors Flow LedgerApi.
From S2P Require Import Executor ExecutorFacts InterestRepo Interest InterestInv.
Open Scope Z_scope.

Section interest.
Context `{DEC : !Decimal} `{UT : !UuidText} `{ZN : !Zones} `{LED : !PostingLedger}.
Context (x : Executor) (s : InterestService).
Implicit Types (w : iworld).
Notation inv := (int_inv s).

(** ** Writes *)
(** A row found again after a write elsewhere. *)
Ltac keep := intros; first
  [ done | eexists; split; [eassumption|reflexivity]
  | eexists; split; [eassumption|split; [reflexivity|done]] ].
Definition good w d : Prop := inv (set_db w d) /\ int_le w (set_db w d).
Lemma good_same w : inv w -> good w (iw_db w).
Proof. intros I. unfold good. replace (set_db w (iw_db w)) with w by by destruct w. split; [done|reflexivity]. Qed.
Lemma good_trans w d1 d2 : good w d1 -> (inv (set_db w d1) -> good (set_db w d1) d2) -> good w d2.
Proof. intros [I1 L1] H2. destruct (H2 I1) as [I2 L2]. split; [done|by transitivity (set_db w d1)]. Qed.

(** The invariant of a write, from its effect on the rows it speaks of. *)
Lemma good_write w d :
  inv w -> int_le w (set_db w d) ->
  (forall id r, accrual (set_db w d) id = Some r -> accrual w id = Some r \/ accrual_true (set_db w d) r) ->
  (forall id r id' r', accrual (set_db w d) id = Some r -> accrual (set_db w d) id' = Some r' ->
     da_EnrollmentID r = da_EnrollmentID r' -> da_AccrualDate r = da_AccrualDate r' -> id = id') ->
  (forall id i, item (set_db w d) id = Some i -> item w id = Some i \/ item_true (set_db w d) i) ->
  (forall id i id' i', item (set_db w d) id = Some i -> item (set_db w d) id' = Some i' ->
     ci_PeriodID i = ci_PeriodID i' -> ci_EnrollmentID i = ci_EnrollmentID i' -> id = id') ->
  (forall id r, correction (set_db w d) id = Some r -> correction w id = Some r \/ correction_true (set_db w d) id r) ->
  good w d.
Proof.
  intros I L Ha Hd Hi Hm Hc. split; [|done]. split; try done.
  - apply I.
  - intros id r Hr. destruct (Ha id r Hr) as [H|]; [|done]. eapply accrual_true_le; [exact L|by eapply ii_accrual].
  - intros id r Hr. destruct (Hi id r Hr) as [H|]; [|done]. eapply item_true_le; [exact L|by eapply ii_item].
  - intros id r Hr. destruct (Hc id r Hr) as [H|]; [|done]. eapply correction_true_le; [exact L|by eapply ii_correction].
  - intros c H. eapply sent_for_le; [exact L|by eapply ii_sent].
  - apply I.
Qed.
(** A write to a table the invariant only reads. *)
Lemma good_elsewhere w d :
  inv w -> int_le w (set_db w d) -> interest_daily_accruals d = interest_daily_accruals (iw_db w) ->
  interest_capitalization_items d = interest_capitalization_items (iw_db w) ->
  interest_adjustments d = interest_adjustments (iw_db w) -> good w d.
Proof.
  intros I L Ea Ei Ec. apply good_write; [done..| | | | |]; unfold accrual, item, correction; simpl;
    rewrite ?Ea, ?Ei, ?Ec; eauto.
  - intros id r id' r' ? ?. by eapply (ii_day _ w).
  - intros id r id' r' ? ?. by eapply (ii_month _ w).
Qed.

Lemma put_period_inr id f d d' : put_period id f d = inr d' ->
  d' = d \/ exists p, interest_periods d !! id = Some p /\ ip_Status p <> "closed" /\
    d' = set_periods d (<[id := f p]> (interest_periods d)).
Proof.
  unfold put_period. destruct (interest_periods d !! id) as [p|]; [|intros [= <-]; by left].
  case_bool_decide; [done|]. destruct (negb (period_row_ok _)); [done|]. destruct (negb _); [done|].
  intros [= <-]. right. eauto.
Qed.
Lemma good_insert_period w id p : inv w -> (forall q, period w id = Some q -> ip_Status q <> "closed") ->
  good w (set_periods (iw_db w) (<[id := p]> (interest_periods (iw_db w)))).
Proof.
  intros I Hn. apply good_elsewhere; [done| |done..]. split; try by keep.
  intros i q Hq Hc. unfold period. simpl. rewrite lookup_insert_ne; [done|]. intros <-. by destruct (Hn q).
Qed.
Lemma good_period w id f d : inv w -> put_period id f (iw_db w) = inr d -> good w d.
Proof.
  intros I [->|(p & Hp & Hs & ->)]%put_period_inr; [by apply good_same|]. apply good_insert_period; [done|].
  intros q Hq. unfold period in Hq. congruence.
Qed.
Lemma good_outbox w d e : good w d -> good w (add_outbox d e).
Proof.
  intros H. eapply good_trans; [exact H|]. intros I. apply good_elsewhere; [done| |done..]. split; by keep.
Qed.
Lemma good_event w d e : good w d -> good w (insertOutbox s e d).
Proof. intros H. unfold insertOutbox. destruct (sv_outbox s); [by apply good_outbox|done]. Qed.
Lemma good_check w k c : inv w -> good w (set_checks (iw_db w) (<[k := c]> (interest_period_checks (iw_db w)))).
Proof. intros I. apply good_elsewhere; [done| |done..]. split; by keep. Qed.
Lemma good_product w id p : inv w -> (forall q, product w id = Some q -> product_terms q p) ->
  good w (set_products (iw_db w) (<[id := p]> (savings_products (iw_db w)))).
Proof.
  intros I Ht. apply good_elsewhere; [done| |done..]. split; try by keep.
  intros i q Hq. unfold product. simpl. destruct (decide (i = id)) as [->|].
  - rewrite lookup_insert_eq. eauto.
  - rewrite lookup_insert_ne by done. keep.
Qed.
Lemma good_rate w id p : inv w -> (forall q, rate_version w id = Some q -> rate_terms q p) ->
  good w (set_rates (iw_db w) (<[id := p]> (savings_rate_versions (iw_db w)))).
Proof.
  intros I Ht. apply good_elsewhere; [done| |done..]. split; try by keep.
  intros i q Hq. unfold rate_version. simpl. destruct (decide (i = id)) as [->|].
  - rewrite lookup_insert_eq. eauto.
  - rewrite lookup_insert_ne by done. keep.
Qed.
Lemma good_enrollment w id e h : inv w -> (forall q, enrollment w id = Some q -> enrollment_terms q e) ->
  good w (set_enrollments (iw_db w) (<[id := e]> (savings_enrollments (iw_db w))) h).
Proof.
  intros I Ht. apply good_elsewhere; [done| |done..]. split; try by keep.
  intros i q Hq. unfold enrollment. simpl. destruct (decide (i = id)) as [->|].
  - rewrite lookup_insert_eq. eauto.
  - rewrite lookup_insert_ne by done. keep.
Qed.

(** An accrual, rewritten: same day of the same enrollment. *)
Lemma put_accrual_inr id r d d' : put_accrual id r d = inr d' ->
  period_closed d (da_PeriodID r) = false /\ d' = set_accruals d (<[id := r]> (interest_daily_accruals d)).
Proof.
  unfold put_accrual. destruct (period_closed _ _); [done|]. destruct (negb _); [done|].
  destruct (negb _); [done|]. by intros [= <-].
Qed.
Lemma good_accrual w id r r' d :
  inv w -> put_accrual id r' (iw_db w) = inr d -> accrual w id = Some r -> accrual_terms r r' ->
  (forall w', int_le w w' -> accrual_true w' r') -> good w d.
Proof.
  intros I [Hcl ->]%put_accrual_inr Hr T Ht.
  assert (L : int_le w (set_db w (set_accruals (iw_db w) (<[id := r']> (interest_daily_accruals (iw_db w)))))).
  { split; try by keep.
    - intros i q Hq. unfold accrual. simpl. destruct (decide (i = id)) as [->|].
      + rewrite lookup_insert_eq. exists r'. assert (q = r) as -> by congruence. split_and!; [done..|].
        intros Hc. unfold is_closed in Hc. rewrite <- (at_period _ _ T) in Hc. congruence.
      + rewrite lookup_insert_ne by done. keep.
    - intros i q. unfold accrual. simpl. intros [[<- <-]|[_ Hq]]%lookup_insert_Some Hc; [|done].
      unfold is_closed in Hc. congruence. }
  apply good_write; [done|done| | | | |]; unfold accrual, item, correction; simpl; eauto.
  - intros i q [[<- <-]|[_ Hq]]%lookup_insert_Some; [right; by apply Ht|by left].
  - intros i q i' q' H H' He Hd.
    assert (Hold : forall j p, <[id := r']> (interest_daily_accruals (iw_db w)) !! j = Some p -> exists p0,
      accrual w j = Some p0 /\ da_EnrollmentID p0 = da_EnrollmentID p /\ da_AccrualDate p0 = da_AccrualDate p).
    { intros j p [[<- <-]|[_ Hp]]%lookup_insert_Some; [|by exists p].
      exists r. split; [done|]. by rewrite (at_enrollment _ _ T), (at_date _ _ T). }
    apply Hold in H as (p & Hp & E1 & E2), H' as (p' & Hp' & E1' & E2').
    eapply (ii_day _ w I); [exact Hp|exact Hp'|congruence..].
  - intros i q i' q' ? ?. by eapply (ii_month _ w I).
Qed.
Lemma good_new_accrual w id r : inv w -> accrual w id = None -> ~ is_closed w (da_PeriodID r) ->
  (forall i q, accrual w i = Some q -> da_EnrollmentID q = da_EnrollmentID r -> da_AccrualDate q <> da_AccrualDate r) ->
  (forall w', int_le w w' -> accrual_true w' r) ->
  good w (set_accruals (iw_db w) (<[id := r]> (interest_daily_accruals (iw_db w)))).
Proof.
  intros I Hn Hcl Hu Ht.
  assert (L : int_le w (set_db w (set_accruals (iw_db w) (<[id := r]> (interest_daily_accruals (iw_db w)))))).
  { split; try by keep.
    - intros i q Hq. unfold accrual. simpl. rewrite lookup_insert_ne by (intros <-; congruence). keep.
    - intros i q. unfold accrual. simpl. by intros [[<- <-]|[_ Hq]]%lookup_insert_Some Hc. }
  apply good_write; [done|done| | | | |]; unfold accrual, item, correction; simpl; eauto.
  - intros i q [[<- <-]|[_ Hq]]%lookup_insert_Some; [right; by apply Ht|by left].
  - intros i q i' q' [[<- <-]|[Hi Hq]]%lookup_insert_Some [[<- <-]|[Hi' Hq']]%lookup_insert_Some He Hd; try done.
    + by destruct (Hu i' q').
    + by destruct (Hu i q).
    + by eapply (ii_day _ w I).
  - intros i q i' q' ? ?. by eapply (ii_month _ w I).
Qed.

(** An item, likewise. *)
Lemma put_item_inr id r d d' : put_item id r d = inr d' ->
  period_closed d (ci_PeriodID r) = false /\ d' = set_items d (<[id := r]> (interest_capitalization_items d)).
Proof.
  unfold put_item. destruct (period_closed _ _); [done|]. destruct (negb _); [done|]. by intros [= <-].
Qed.
Lemma good_item w id r r' d :
  inv w -> put_item id r' (iw_db w) = inr d -> item w id = Some r -> item_terms r r' ->
  (forall w', int_le w w' -> item_true w' r') -> good w d.
Proof.
  intros I [Hcl ->]%put_item_inr Hr T Ht.
  assert (L : int_le w (set_db w (set_items (iw_db w) (<[id := r']> (interest_capitalization_items (iw_db w)))))).
  { split; try by keep. intros i q Hq. unfold item. simpl. destruct (decide (i = id)) as [->|].
    - rewrite lookup_insert_eq. exists r'. assert (q = r) as -> by congruence. split_and!; [done..|].
      intros Hc. unfold is_closed in Hc. rewrite <- (it_period _ _ T) in Hc. congruence.
    - rewrite lookup_insert_ne by done. keep. }
  apply good_write; [done|done| | | | |]; unfold accrual, item, correction; simpl; eauto.
  - intros i q i' q' ? ?. by eapply (ii_day _ w I).
  - intros i q [[<- <-]|[_ Hq]]%lookup_insert_Some; [right; by apply Ht|by left].
  - intros i q i' q' H H' He Hd.
    assert (Hold : forall j p, <[id := r']> (interest_capitalization_items (iw_db w)) !! j = Some p -> exists p0,
      item w j = Some p0 /\ ci_PeriodID p0 = ci_PeriodID p /\ ci_EnrollmentID p0 = ci_EnrollmentID p).
    { intros j p [[<- <-]|[_ Hp]]%lookup_insert_Some; [|by exists p].
      exists r. split; [done|]. by rewrite (it_enrollment _ _ T), (it_period _ _ T). }
    apply Hold in H as (p & Hp & E1 & E2), H' as (p' & Hp' & E1' & E2').
    eapply (ii_month _ w I); [exact Hp|exact Hp'|congruence..].
Qed.
Lemma good_new_item w id i : inv w -> item w id = None ->
  (forall j q, item w j = Some q -> ci_PeriodID q = ci_PeriodID i -> ci_EnrollmentID q <> ci_EnrollmentID i) ->
  (forall w', int_le w w' -> item_true w' i) ->
  good w (set_items (iw_db w) (<[id := i]> (interest_capitalization_items (iw_db w)))).
Proof.
  intros I Hn Hu Ht.
  assert (L : int_le w (set_db w (set_items (iw_db w) (<[id := i]> (interest_capitalization_items (iw_db w)))))).
  { split; try by keep. intros j q Hq. unfold item. simpl. rewrite lookup_insert_ne by (intros <-; congruence). keep. }
  apply good_write; [done|done| | | | |]; unfold accrual, item, correction; simpl; eauto.
  - intros j q j' q' ? ?. by eapply (ii_day _ w I).
  - intros j q [[<- <-]|[_ Hq]]%lookup_insert_Some; [right; by apply Ht|by left].
  - intros j q j' q' [[<- <-]|[Hi Hq]]%lookup_insert_Some [[<- <-]|[Hi' Hq']]%lookup_insert_Some He Hd; try done.
    + by destruct (Hu j' q').
    + by destruct (Hu j q).
    + by eapply (ii_month _ w I).
Qed.
Lemma good_correction w id r d u : inv w -> put_correction id r (iw_db w) = inr (u, d) ->
  (forall q, correction w id = Some q -> correction_terms q r) ->
  (correction_row_ok r = true -> forall w', int_le w w' -> correction_true w' id r) -> good w d.
Proof.
  intros I H Hq Ht. unfold put_correction in H. destruct (correction_row_ok r) eqn:Ek; [|done].
  injection H as _ <-. specialize (Ht eq_refl).
  assert (L : int_le w (set_db w (set_corrections (iw_db w) (<[id := r]> (interest_adjustments (iw_db w)))))).
  { split; try by keep. intros j q Hj. unfold correction. simpl. destruct (decide (j = id)) as [->|].
    - rewrite lookup_insert_eq. eauto.
    - rewrite lookup_insert_ne by done. keep. }
  apply good_write; [done|done| | | | |]; unfold accrual, item, correction; simpl; eauto.
  - intros j q j' q' ? ?. by eapply (ii_day _ w I).
  - intros j q j' q' ? ?. by eapply (ii_month _ w I).
  - intros j q [[<- <-]|[_ Hj]]%lookup_insert_Some; [right; by apply Ht|by left].
Qed.

(** ** What a thread knows of a row it has read *)
Definition known_product id p w : Prop := exists p', product w id = Some p' /\ product_terms p p'.
Definition known_rate id r w : Prop := exists r', rate_version w id = Some r' /\ rate_terms r r'.
Definition known_enrollment id e w : Prop := exists e', enrollment w id = Some e' /\ enrollment_terms e e'.
Definition known_accrual id r w : Prop := exists r', accrual w id = Some r' /\ accrual_terms r r'.
Definition known_item id i w : Prop := exists i', item w id = Some i' /\ item_terms i i'.
Definition known_correction id r w : Prop := exists r', correction w id = Some r' /\ correction_terms r r'.
Lemma known_product_le id p w w' : int_le w w' -> known_product id p w -> known_product id p w'.
Proof. intros L (p1 & H & T). destruct (il_product _ _ L _ _ H) as (p2 & ? & ?). exists p2. split; [done|by transitivity p1]. Qed.
Lemma known_rate_le id p w w' : int_le w w' -> known_rate id p w -> known_rate id p w'.
Proof. intros L (p1 & H & T). destruct (il_rate _ _ L _ _ H) as (p2 & ? & ?). exists p2. split; [done|by transitivity p1]. Qed.
Lemma known_enrollment_le id p w w' : int_le w w' -> known_enrollment id p w -> known_enrollment id p w'.
Proof. intros L (p1 & H & T). destruct (il_enrollment _ _ L _ _ H) as (p2 & ? & ?). exists p2. split; [done|by transitivity p1]. Qed.
Lemma known_accrual_le id p w w' : int_le w w' -> known_accrual id p w -> known_accrual id p w'.
Proof. intros L (p1 & H & T). destruct (il_accrual _ _ L _ _ H) as (p2 & ? & ? & _). exists p2. split; [done|by transitivity p1]. Qed.
Lemma known_item_le id p w w' : int_le w w' -> known_item id p w -> known_item id p w'.
Proof. intros L (p1 & H & T). destruct (il_item _ _ L _ _ H) as (p2 & ? & ? & _). exists p2. split; [done|by transitivity p1]. Qed.
Lemma known_correction_le id p w w' : int_le w w' -> known_correction id p w -> known_correction id p w'.
Proof. intros L (p1 & H & T). destruct (il_correction _ _ L _ _ H) as (p2 & ? & ?). exists p2. split; [done|by transitivity p1]. Qed.

(** ** Statements *)
Definition int_discipline : discipline int_call iworld := {|
  d_step := int_step; d_inv := int_inv s; d_le := int_le; d_preorder := int_le_preorder |}.
Notation D := int_discipline.
Lemma int_sql_ok {A} (q : int_query A) (Pre : iworld -> Prop) (Q : A -> iworld -> Prop) :
  (forall ic w a d, inv w -> Pre w -> q ic (iw_db w) = inr (a, d) -> good w d /\ Q a (set_db w d)) ->
  op_ok D (IntSql q) Pre (fun r w' => match r with inr a => Q a w' | inl _ => True end).
Proof.
  intros H w r w' I HP [(ic & a & d & Hs & -> & Hr)|[-> [e ->]]].
  - destruct (H ic w a d I HP Hs) as [[? ?] ?]. split_and!; [done..|]. by destruct Hr as [->|[e ->]].
  - split_and!; [done|reflexivity|done].
Qed.
Lemma int_write_ok {A} (q : int_query A) (Pre : iworld -> Prop) :
  (forall ic w a d, inv w -> Pre w -> q ic (iw_db w) = inr (a, d) -> good w d) ->
  op_ok D (IntSql q) Pre (fun r w' => match r with inr _ => True | inl _ => True end).
Proof. intros H. apply int_sql_ok. intros ic w a d I HP Hs. split; [by eapply H|done]. Qed.
Lemma int_select_ok {A} (q : int_query A) (Q : A -> iworld -> Prop) :
  (forall ic w a d, inv w -> q ic (iw_db w) = inr (a, d) -> d = iw_db w /\ Q a w) ->
  op_ok D (IntSql q) (fun _ => True) (fun r w' => match r with inr a => Q a w' | inl _ => True end).
Proof.
  intros H. apply int_sql_ok. intros ic w a d I _ Hs. destruct (H ic w a d I Hs) as [-> Hq].
  split; [by apply good_same|]. by replace (set_db w (iw_db w)) with w by by destruct w.
Qed.
Lemma int_read_ok {A} (f : interest_db -> A) (Q : A -> iworld -> Prop) :
  (forall w, inv w -> Q (f (iw_db w)) w) ->
  op_ok D (IntSql (int_read f)) (fun _ => True) (fun r w' => match r with inr a => Q a w' | inl _ => True end).
Proof. intros H. apply int_select_ok. intros ic w a d I [= <- <-]. split; [done|by apply H]. Qed.
Lemma fine_read {A} (f : interest_db -> A) : fine D (perform (IntSql (int_read f))).
Proof. eapply fine_op, (int_read_ok f (fun _ _ => True)). done. Qed.
Lemma wrap_sql_inr {A} ctx (r : error + A) a : wrap_sql ctx r = inr a -> r = inr a.
Proof. by destruct r. Qed.

(** *** Reads *)
Lemma GetProduct_ok id : op_ok D (IntSql (GetProduct id)) (fun _ => True)
  (fun r w' => match r with inr p => known_product id p w' | inl _ => True end).
Proof.
  apply int_select_ok. unfold GetProduct. intros ic w p d I H. destruct (savings_products (iw_db w) !! id) as [q|] eqn:E; [|done].
  injection H as <- <-. split; [done|]. exists q. split; [done|reflexivity].
Qed.
Lemma GetEnrollment_ok id : op_ok D (IntSql (GetEnrollment id)) (fun _ => True)
  (fun r w' => match r with inr e => known_enrollment id e w' | inl _ => True end).
Proof.
  apply int_select_ok. unfold GetEnrollment. intros ic w p d I H. destruct (savings_enrollments (iw_db w) !! id) as [q|] eqn:E; [|done].
  injection H as <- <-. split; [done|]. exists q. split; [done|reflexivity].
Qed.
Lemma GetPeriod_fine id : fine D (perform (IntSql (GetPeriod id))).
Proof.
  eapply fine_op, (int_select_ok _ (fun _ _ => True)). unfold GetPeriod. intros ic w p d I H.
  destruct (_ !! id); [|done]. by injection H as _ <-.
Qed.
Definition in_window product day (r : rate_row) : Prop := rv_ProductID r = product /\ rv_EffectiveFrom r <= day /\
  match rv_EffectiveUntil r with None => True | Some u => day < u end.
Lemma elem_of_by_keys {R} key (l : list (uuid * R)) a : a ∈ by_keys key l <-> a ∈ l.
Proof. unfold by_keys. by rewrite merge_sort_Permutation. Qed.
Lemma rates_for_in product day d r : r ∈ rates_for product day d ->
  savings_rate_versions d !! r.1 = Some r.2 /\ in_window product day r.2.
Proof.
  unfold rates_for. rewrite elem_of_by_keys. destruct r as [id r]. intros [Hr Hw]%elem_of_rows_where.
  split; [done|]. unfold rate_in_window in Hw. apply andb_true_iff in Hw as [Hw H4], Hw as [Hw H3], Hw as [H1 _].
  apply bool_decide_eq_true in H1. split; [done|]. split; [by apply Z.leb_le|].
  simpl. destruct (rv_EffectiveUntil r); [by apply Z.ltb_lt|done].
Qed.
Lemma GetRateForDate_ok product day : op_ok D (IntSql (GetRateForDate product day)) (fun _ => True)
  (fun r w' => match r with inr r => known_rate r.1 r.2 w' /\ in_window product day r.2 | inl _ => True end).
Proof.
  apply int_select_ok. unfold GetRateForDate. intros ic w r d I H.
  pose proof (rates_for_in product day (iw_db w)) as Hin. destruct (rates_for product day (iw_db w)) as [|r0 rest]; [done|].
  injection H as <- <-. split; [done|]. destruct (Hin r0) as [Hr Hw]; [left|].
  split; [|done]. eexists. split; [exact Hr|reflexivity].
Qed.

(** *** Products, rates, enrollments *)
Lemma CreateProduct_good ic w id p u d : inv w -> CreateProduct id p ic (iw_db w) = inr (u, d) -> good w d.
Proof.
  unfold CreateProduct. intros I H. destruct (bool_decide _ || _) eqn:E; [done|]. destruct (negb _); [done|].
  injection H as _ <-. apply good_product; [done|]. intros q Hq. apply orb_false_iff in E as [E _].
  apply bool_decide_eq_false in E. destruct E. by exists q.
Qed.
Lemma UpdateProductStatus_good ic w id st who u d : inv w -> UpdateProductStatus id st who ic (iw_db w) = inr (u, d) -> good w d.
Proof.
  unfold UpdateProductStatus. intros I H. destruct (savings_products (iw_db w) !! id) as [p|] eqn:E; [|done].
  destruct (_ && _); [|done]. injection H as _ <-. apply good_product; [done|]. intros q Hq. unfold product in Hq.
  rewrite E in Hq. injection Hq as <-. by split.
Qed.
Lemma put_rate_good w id r u d : inv w -> (forall q, rate_version w id = Some q -> rate_terms q r) ->
  put_rate id r (iw_db w) = inr (u, d) -> good w d.
Proof. unfold put_rate. intros I Hq H. destruct (rate_row_ok r); [|done]. injection H as _ <-. by apply good_rate. Qed.
Lemma CreateRate_good ic w id r u d : inv w -> CreateRate id r ic (iw_db w) = inr (u, d) -> good w d.
Proof.
  unfold CreateRate. intros I H. case_bool_decide as E; [done|]. destruct (negb _); [done|].
  apply wrap_sql_inr in H. eapply put_rate_good; [done| |exact H]. intros q Hq. destruct E. by exists q.
Qed.
Lemma rate_change_good w id r st a b c e u d : inv w -> rate_version w id = Some r ->
  put_rate id (rate_with r st a b c e) (iw_db w) = inr (u, d) -> good w d.
Proof. intros I Hr H. eapply put_rate_good; [done| |exact H]. intros q Hq. assert (q = r) as -> by congruence. by split. Qed.
Lemma SubmitRate_good ic w id who u d : inv w -> SubmitRate id who ic (iw_db w) = inr (u, d) -> good w d.
Proof.
  unfold SubmitRate. intros I H. destruct (_ !! id) as [r|] eqn:E; [|done]. case_bool_decide; [|done].
  by eapply rate_change_good.
Qed.
Lemma RejectRate_good ic w id who why u d : inv w -> RejectRate id who why ic (iw_db w) = inr (u, d) -> good w d.
Proof.
  unfold RejectRate. intros I H. destruct (_ !! id) as [r|] eqn:E; [|done]. destruct (_ && _); [|done].
  by eapply rate_change_good.
Qed.
Lemma ApproveRate_good ic w id who u d : inv w -> ApproveRate id who ic (iw_db w) = inr (u, d) -> good w d.
Proof.
  unfold ApproveRate. intros I H. destruct (savings_rate_versions (iw_db w) !! id) as [r|] eqn:E; [|done].
  destruct (savings_products _ !! _); [|done]. destruct (negb _); [done|]. case_bool_decide; [done|]. case_bool_decide; [done|].
  destruct (existsb _ _); [done|]. apply wrap_sql_inr in H. by eapply rate_change_good.
Qed.
Lemma CreateEnrollment_good ic w id e u d : inv w -> CreateEnrollment id e ic (iw_db w) = inr (u, d) -> good w d.
Proof.
  unfold CreateEnrollment. intros I H. destruct (bool_decide _ || _) eqn:E; [done|]. destruct (negb _); [done|].
  injection H as _ <-. apply good_enrollment; [done|]. intros q Hq. apply orb_false_iff in E as [E _].
  apply bool_decide_eq_false in E. destruct E. by exists q.
Qed.
Lemma UpdateEnrollment_good ic w id st who from until u d : inv w ->
  UpdateEnrollmentStatusWithEffectiveDate id st who from until ic (iw_db w) = inr (u, d) -> good w d.
Proof.
  unfold UpdateEnrollmentStatusWithEffectiveDate. intros I H. destruct (savings_enrollments (iw_db w) !! id) as [e|] eqn:E; [|done].
  destruct (_ && _); [|done]. cbv zeta in H. destruct (enrollment_row_ok _); [|done]. injection H as _ <-.
  apply good_enrollment; [done|]. intros q Hq. unfold enrollment in Hq. rewrite E in Hq. injection Hq as <-. by split.
Qed.
Lemma carry_good w id n m d : inv w -> carry_enrollment id n m (iw_db w) = inr d ->
  good w d /\ interest_daily_accruals d = interest_daily_accruals (iw_db w).
Proof.
  unfold carry_enrollment. intros I H. destruct (savings_enrollments (iw_db w) !! id) as [e|] eqn:E.
  - cbv zeta in H. destruct (enrollment_row_ok _); [|done]. injection H as <-. split; [|done].
    apply good_enrollment; [done|]. intros q Hq. unfold enrollment in Hq. rewrite E in Hq. injection Hq as <-. by split.
  - injection H as <-. split; [by apply good_same|done].
Qed.

(** *** Periods and checks *)
Lemma insert_period_good ic w id p u d : inv w -> sql_insert_period id p ic (iw_db w) = inr (u, d) -> good w d.
Proof.
  unfold sql_insert_period. intros I H. destruct (existsb _ _); [injection H as _ <-; by apply good_same|].
  case_bool_decide as E; [done|]. destruct (negb _); [done|]. injection H as _ <-. apply good_insert_period; [done|].
  intros q Hq. destruct E. by exists q.
Qed.
Lemma MarkPeriodStatus_good ic w id st code u d : inv w -> MarkPeriodStatus id st code ic (iw_db w) = inr (u, d) -> good w d.
Proof.
  unfold MarkPeriodStatus. intros I H. destruct (_ !! id); [|done]. destruct (period_transition _ _); [|done].
  destruct (wrap_sql _ _) as [|d'] eqn:E; [done|]. injection H as _ <-. apply wrap_sql_inr in E. by eapply good_period.
Qed.
Lemma RefreshExpected_good ic w id u d : inv w -> RefreshExpectedItemCount id ic (iw_db w) = inr (u, d) -> good w d.
Proof.
  unfold RefreshExpectedItemCount. intros I H. destruct (_ !! id); [|injection H as _ <-; by apply good_same].
  case_bool_decide; [injection H as _ <-; by apply good_same|]. destruct (period_window _ _); [done|]. cbv zeta in H.
  destruct (wrap_sql _ _) as [|d'] eqn:E; [done|]. injection H as _ <-. apply wrap_sql_inr in E. by eapply good_period.
Qed.
Lemma PutPeriodCheck_good ic w id n st a b c t u d : inv w ->
  PutPeriodCheck id n st a b c t ic (iw_db w) = inr (u, d) -> good w d.
Proof. unfold PutPeriodCheck. intros I H. destruct (_ && _); [done|]. injection H as _ <-. by apply good_check. Qed.
Lemma recount_good w id d : inv w -> recount_blocked id (iw_db w) = inr d -> good w d.
Proof. apply good_period. Qed.
Lemma recount_of_accrual_good ic w id u d : inv w -> sql_recount_of_accrual id ic (iw_db w) = inr (u, d) -> good w d.
Proof.
  unfold sql_recount_of_accrual. intros I H. destruct (_ !! id); [|injection H as _ <-; by apply good_same].
  destruct (recount_blocked _ _) as [|d'] eqn:E; [done|]. injection H as _ <-. by eapply recount_good.
Qed.
Lemma recount_of_item_good ic w id u d : inv w -> sql_recount_of_item id ic (iw_db w) = inr (u, d) -> good w d.
Proof.
  unfold sql_recount_of_item. intros I H. destruct (_ !! id); [|injection H as _ <-; by apply good_same].
  destruct (recount_blocked _ _) as [|d'] eqn:E; [done|]. injection H as _ <-. by eapply recount_good.
Qed.

(** *** Accruals *)
(** The work columns change, the calculation does not; the status is not the posted one. *)
Lemma rework_good w id r k d : inv w -> accrual w id = Some r -> wk_Status k <> "completed_posted" ->
  put_accrual id (with_work r k) (iw_db w) = inr d -> good w d.
Proof.
  intros I Hr Hk H. eapply good_accrual; [done|exact H|exact Hr|by split|]. intros w' L.
  assert (T : accrual_true w' r) by (eapply accrual_true_le; [exact L|by eapply ii_accrual]). destruct T as [T1 T2 T3].
  split; [done| |done]. intros c Hc. eapply calc_true_le; [reflexivity| |by apply T2]. by split.
Qed.
Lemma claim_accrual_good w id r owner now a d : inv w -> accrual w id = Some r ->
  claim_accrual id r owner now (iw_db w) = inr (a, d) ->
  good w d /\ a.1 = id /\ accrual_terms r a.2 /\ known_accrual id a.2 (set_db w d).
Proof.
  unfold claim_accrual. intros I Hr H. cbv zeta in H. destruct (put_accrual _ _ _) as [|d'] eqn:E; [done|].
  injection H as <- <-. split; [eapply (rework_good w id r); [done|exact Hr| |exact E]; done|]. split; [done|]. split; [by split|].
  apply put_accrual_inr in E as [_ ->]. eexists. unfold accrual. simpl. rewrite lookup_insert_eq. split; [done|reflexivity].
Qed.
Lemma ClaimForID_ok id r owner now : op_ok D (IntSql (ClaimDailyAccrualForID id owner now)) (known_accrual id r)
  (fun res w' => match res with inr a => a.1 = id /\ accrual_terms r a.2 /\ known_accrual id a.2 w' | inl _ => True end).
Proof.
  apply int_sql_ok. unfold ClaimDailyAccrualForID. intros ic w a d I (r0 & H0 & T0) H. unfold accrual in H0. rewrite H0 in H.
  destruct (accrual_claimable _ _ _); [|done]. destruct (claim_accrual_good w id r0 owner now a d I H0 H) as (? & ? & ? & ?).
  split_and!; [done|done|by transitivity r0|done].
Qed.
Lemma ClaimDailyAccrual_ok owner now : op_ok D (IntSql (ClaimDailyAccrual owner now)) (fun _ => True)
  (fun res w' => match res with inr a => known_accrual a.1 a.2 w' | inl _ => True end).
Proof.
  apply int_sql_ok. unfold ClaimDailyAccrual. intros ic w a d I _ H.
  destruct (by_keys _ _) as [|[id r] l] eqn:E; [done|].
  assert (Hin : (id, r) ∈ (id, r) :: l) by left. rewrite <- E, elem_of_by_keys in Hin.
  apply elem_of_rows_where in Hin as [Hr _].
  destruct (claim_accrual_good w id r owner now a d I Hr H) as (? & <- & _ & ?). by split.
Qed.
Lemma accrual_on_spec d e day : match accrual_on d e day with
  | Some (id, r) => interest_daily_accruals d !! id = Some r /\ da_EnrollmentID r = e /\ da_AccrualDate r = day
  | None => forall id r, interest_daily_accruals d !! id = Some r -> da_EnrollmentID r = e -> da_AccrualDate r <> day end.
Proof.
  unfold accrual_on. destruct (rows_where _ _) as [|[id r] l] eqn:E; simpl.
  - intros id r Hr He Hd. assert (Hin : (id, r) ∈ rows_where (fun _ => accrual_of e day) (interest_daily_accruals d)).
    { apply elem_of_rows_where. split; [done|]. unfold accrual_of. rewrite He, Hd. by rewrite bool_decide_eq_true_2, Z.eqb_refl. }
    rewrite E in Hin. by apply not_elem_of_nil in Hin.
  - assert (Hin : (id, r) ∈ (id, r) :: l) by left. rewrite <- E in Hin. apply elem_of_rows_where in Hin as [Hr Hp].
    unfold accrual_of in Hp. apply andb_true_iff in Hp as [H1 H2]. apply bool_decide_eq_true in H1. split_and!; [done..|by apply Z.eqb_eq].
Qed.
Lemma insert_accrual_ok id p e a day er : op_ok D (IntSql (sql_insert_accrual id p e a day))
  (fun w => known_enrollment e er w /\ se_AccountID er = a)
  (fun res w' => match res with inr _ => True | inl _ => True end).
Proof.
  apply int_write_ok. unfold sql_insert_accrual. intros ic w u d I [(e1 & He & T) Ha] H.
  destruct (negb (period_in _ _ _)) eqn:Ep; [injection H as _ <-; by apply good_same|].
  pose proof (accrual_on_spec (iw_db w) e day) as Hon.
  case_bool_decide as E1; [injection H as _ <-; by apply good_same|].
  case_bool_decide as E2; [done|]. injection H as _ <-. destruct (accrual_on _ _ _) as [|]; [by destruct E1|].
  apply good_new_accrual; [done| | | |].
  - unfold accrual. destruct (_ !! id) eqn:E; [by destruct E2|done].
  - intros Hc. apply negb_false_iff in Ep. unfold period_in in Ep. apply is_closed_period in Hc as (q & Hq & Hs).
    unfold period in Hq. simpl in Hq. rewrite Hq, Hs in Ep. done.
  - intros i q Hq He' Hd. simpl in He', Hd. by destruct (Hon i q Hq He').
  - intros w' L. split; [|done|done]. destruct (il_enrollment _ _ L _ _ He) as (e2 & He2 & T2). exists e2. split; [done|].
    simpl. rewrite (et_account _ _ T2), (et_account _ _ T). done.
Qed.
Lemma select_accrual_ok e day : op_ok D (IntSql (sql_select_accrual e day)) (fun _ => True)
  (fun res w' => match res with
                 | inr a => known_accrual a.1 a.2 w' /\ da_EnrollmentID a.2 = e /\ da_AccrualDate a.2 = day
                 | inl _ => True end).
Proof.
  apply int_select_ok. unfold sql_select_accrual. intros ic w [id r] d I H.
  pose proof (accrual_on_spec (iw_db w) e day) as Hon. destruct (accrual_on _ _ _) as [[id' r']|]; [|done].
  injection H as <- <- <-. destruct Hon as (Hr & He & Hd). split; [done|]. simpl. split_and!; [|done..].
  exists r'. by split; [|reflexivity].
Qed.
Lemma SaveDailyCalculation_ok id item c e er : op_ok D (IntSql (SaveDailyCalculation id c))
  (fun w => known_accrual id item w /\ calc_true w item c /\ known_enrollment e er w /\ da_EnrollmentID item = e)
  (fun res w' => match res with inr _ => se_AccountID er = da_AccountID item | inl _ => True end).
Proof.
  apply int_sql_ok. unfold SaveDailyCalculation. intros ic w u d I ((r & Hr & T) & Hc & (e1 & He1 & Te) & <-) H.
  assert (Hacc : se_AccountID er = da_AccountID item).
  { destruct (ax_enrolled _ _ (ii_accrual _ _ I _ _ Hr)) as (e2 & He2 & Ha). rewrite (at_enrollment _ _ T) in He2.
    assert (e2 = e1) as -> by congruence. by rewrite <- (et_account _ _ Te), Ha, (at_account _ _ T). }
  split; [|done]. unfold accrual in Hr. rewrite Hr in H. case_bool_decide as Hp; [|injection H as _ <-; by apply good_same].
  destruct (wrap_sql _ _) as [|d'] eqn:E; [done|]. injection H as _ <-. apply wrap_sql_inr in E.
  eapply good_accrual; [done|exact E|exact Hr|by split|]. intros w' L.
  destruct (accrual_true_le w w' r L (ii_accrual _ _ I _ _ Hr)) as [T1 T2 T3]. split; [done| |].
  - simpl. intros c' [= <-]. eapply (calc_true_le w w' item); [exact L| |exact Hc]. destruct T. by split.
  - simpl. rewrite Hp. done.
Qed.
Lemma fail_accrual_good ic w id st code next u d : inv w -> st <> "completed_posted" ->
  sql_fail_accrual id st code next ic (iw_db w) = inr (u, d) -> good w d.
Proof.
  unfold sql_fail_accrual. intros I Hst H. destruct (_ !! id) as [r|] eqn:Hr; [|injection H as _ <-; by apply good_same].
  destruct (wrap_sql _ _) as [|d'] eqn:E; [done|]. injection H as _ <-. apply wrap_sql_inr in E. eapply (rework_good w id r); [done|exact Hr| |exact E]; done.
Qed.
Lemma retry_accrual_good ic w id n d : inv w -> sql_retry_accrual id ic (iw_db w) = inr (n, d) -> good w d.
Proof.
  unfold sql_retry_accrual. intros I H. destruct (_ !! id) as [r|] eqn:Hr; [|injection H as _ <-; by apply good_same].
  destruct (_ && _); [|injection H as _ <-; by apply good_same].
  destruct (wrap_sql _ _) as [|d'] eqn:E; [done|]. injection H as _ <-. apply wrap_sql_inr in E. eapply (rework_good w id r); [done|exact Hr| |exact E]; done.
Qed.
(** Completion: the link of a posted day is under the key of that day. *)
Lemma CompleteDailyAccrual_good w id item st tx n m d : inv w -> known_accrual id item w ->
  (forall t, st = "completed_posted" -> tx = Some t -> keyed (iw_ledger w)
     (liability_text (da_EnrollmentID item) (da_AccrualDate item)) (uuid_string (da_EnrollmentID item)) t) ->
  CompleteDailyAccrual id st tx n m (iw_db w) = inr d -> good w d.
Proof.
  intros I (r & Hr & T) Hk H. unfold CompleteDailyAccrual in H. unfold accrual in Hr. rewrite Hr in H. cbv zeta in H.
  destruct (terminal_accrual _); [injection H as <-; by apply good_same|].
  destruct (negb _); [done|]. destruct (_ && _) eqn:Ep; [done|].
  destruct (carry_enrollment _ _ _ _) as [|d1] eqn:E1; [done|]. destruct (carry_good _ _ _ _ _ I E1) as [G1 Ea].
  destruct (wrap_sql _ (put_accrual _ _ _)) as [|d2] eqn:E2; [done|]. apply wrap_sql_inr in E2.
  destruct (wrap_sql _ (add_accrued _ _ _)) as [|d3] eqn:E3; [done|]. apply wrap_sql_inr in E3.
  destruct (wrap_sql _ (add_completed _ _)) as [|d4] eqn:E4; [done|]. apply wrap_sql_inr in E4. apply wrap_sql_inr in H.
  eapply good_trans; [exact G1|]. intros I1. destruct G1 as [_ L1].
  assert (Hr1 : accrual (set_db w d1) id = Some r) by (unfold accrual; simpl; by rewrite Ea).
  eapply (good_trans _ d2).
  { eapply good_accrual; [done|exact E2|exact Hr1|by split|]. intros w' L.
    destruct (accrual_true_le _ w' r L (ii_accrual _ _ I1 _ _ Hr1)) as [T1 T2 T3]. split; [done| |].
    - simpl. intros c Hc. eapply calc_true_le; [reflexivity| |by apply T2]. by split.
    - simpl. intros -> Hrec. destruct tx as [t|].
      + exists t. split; [done|]. simpl. rewrite (at_enrollment _ _ T), (at_date _ _ T).
        apply (ll_keyed _ _ (il_ledger _ _ L)). simpl. apply Hk; [done|done].
      + rewrite bool_decide_eq_true_2 in Ep by done. change (recognized r) with (recognized (with_work r (da_work r))) in Ep.
        rewrite (proj2 (Z.ltb_lt 0 _)) in Ep by exact Hrec. done. }
  intros I2. eapply (good_trans _ d3).
  { unfold add_accrued in E3. destruct (0 <? _); [by eapply good_period|]. injection E3 as <-. by apply (good_same (set_db w d2)). }
  intros I3. eapply (good_trans _ d4); [by eapply (good_period (set_db w d3))|]. intros I4. by eapply (recount_good (set_db w d4)).
Qed.

(** *** Capitalization items *)
Lemma item_for_spec d p e : item_for d p e = false ->
  forall id i, interest_capitalization_items d !! id = Some i -> ci_PeriodID i = p -> ci_EnrollmentID i <> e.
Proof.
  unfold item_for. intros H id i Hi Hp He. apply not_true_iff_false in H. destruct H. apply existsb_exists.
  exists (id, i). split; [by apply list_elem_of_In, elem_of_map_to_list|]. simpl. by rewrite !bool_decide_eq_true_2.
Qed.
Lemma insert_item_good w p new_id e d : inv w -> insert_item p new_id e (iw_db w) = inr d -> good w d.
Proof.
  unfold insert_item. intros I H. destruct (item_for _ _ _) eqn:Ef; [injection H as <-; by apply good_same|].
  case_bool_decide as En; [done|]. destruct (negb (0 <=? _)) eqn:E0; [done|]. destruct (in_int64 _); [|done]. injection H as <-.
  apply good_new_item; [done| | |].
  - unfold item. destruct (_ !! new_id e.1) eqn:E; [by destruct En|done].
  - intros j q Hq. by eapply item_for_spec.
  - intros w' _. apply negb_false_iff, Z.leb_le in E0. by split.
Qed.
Lemma insert_items_good l w p new_id d : inv w -> insert_items p new_id l (iw_db w) = inr d -> good w d.
Proof.
  revert w. induction l as [|e l IH]; intros w I H; simpl in H; [injection H as <-; by apply good_same|].
  destruct (insert_item _ _ _ _) as [|d1] eqn:E; [done|]. eapply good_trans; [by eapply insert_item_good|].
  intros I1. by apply (IH (set_db w d1)).
Qed.
Lemma EnsureItems_good ic w p u d : inv w -> EnsureCapitalizationItems p ic (iw_db w) = inr (u, d) -> good w d.
Proof.
  unfold EnsureCapitalizationItems. intros I H. destruct (_ !! p); [|injection H as _ <-; by apply good_same].
  destruct (period_window _ _) as [|[[[sp f] l]|]]; [done| |injection H as _ <-; by apply good_same].
  destruct (wrap_sql _ _) as [|d'] eqn:E; [done|]. injection H as _ <-. apply wrap_sql_inr in E. by eapply insert_items_good.
Qed.
Lemma ListCapitalizationItems_ok p : op_ok D (IntSql (ListCapitalizationItems p)) (fun _ => True)
  (fun res w' => match res with
                 | inr l => Forall (fun kr => known_item kr.1 kr.2 w' /\ ci_PeriodID kr.2 = p) l
                 | inl _ => True end).
Proof.
  apply int_read_ok. intros w I. apply Forall_forall. intros [id i] [Hi Hp]%elem_of_by_keys%elem_of_rows_where. simpl.
  apply bool_decide_eq_true in Hp. split; [|done]. exists i. split; [done|reflexivity].
Qed.
(** The work columns of an item that is worth something, when the status is not the posted one. *)
Lemma reitem_good w id i k d : inv w -> item w id = Some i -> ci_CapitalizationAmount i <> 0 -> wk_Status k <> "posted" ->
  put_item id (item_with i k) (iw_db w) = inr d -> good w d.
Proof.
  intros I Hi Hn Hk H. eapply good_item; [done|exact H|exact Hi|by split|]. intros w' L.
  destruct (item_true_le w w' i L (ii_item _ _ I _ _ Hi)) as [T1 T2 T3]. split; [done| |]; simpl; done.
Qed.
Lemma StartCapitalization_ok id i owner now : op_ok D (IntSql (StartCapitalization id owner now))
  (fun w => known_item id i w /\ ci_CapitalizationAmount i <> 0)
  (fun res w' => match res with inr a => a.1 = id /\ item_terms i a.2 /\ known_item id a.2 w' | inl _ => True end).
Proof.
  apply int_sql_ok. unfold StartCapitalization. intros ic w a d I [(r & Hr & T) Hn] H. unfold item in Hr. rewrite Hr in H.
  destruct (claimable _ _); [|done]. cbv zeta in H. destruct (put_item _ _ _) as [|d'] eqn:E; [done|]. injection H as <- <-.
  split.
  - eapply (reitem_good w id r); [done|exact Hr|by rewrite (it_amount _ _ T)| |exact E]; done.
  - split; [done|]. split; [destruct T; by split|]. apply put_item_inr in E as [_ ->]. eexists. unfold item. simpl.
    rewrite lookup_insert_eq. split; [done|reflexivity].
Qed.
Lemma FailCapitalization_ok id i st code next : st <> "posted" ->
  op_ok D (IntSql (FailCapitalization id st code next)) (fun w => known_item id i w /\ ci_CapitalizationAmount i <> 0)
    (fun res w' => match res with inr _ => True | inl _ => True end).
Proof.
  intros Hst. apply int_write_ok. unfold FailCapitalization. intros ic w u d I [(r & Hr & T) Hn] H. unfold item in Hr.
  rewrite Hr in H. destruct (wrap_sql _ _) as [|d'] eqn:E; [done|]. injection H as _ <-. apply wrap_sql_inr in E.
  eapply (reitem_good w id r); [done|exact Hr|by rewrite (it_amount _ _ T)| |exact E]; done.
Qed.
Lemma retry_item_good ic w id n d : inv w -> sql_retry_item id ic (iw_db w) = inr (n, d) -> good w d.
Proof.
  unfold sql_retry_item. intros I H. destruct (_ !! id) as [r|] eqn:Hr; [|injection H as _ <-; by apply good_same].
  destruct (_ && _) eqn:Et; [|injection H as _ <-; by apply good_same].
  destruct (wrap_sql _ _) as [|d'] eqn:E; [done|]. injection H as _ <-. apply wrap_sql_inr in E.
  eapply (reitem_good w id r); [done|exact Hr| | |exact E]; [|done].
  intros Hz. pose proof (ix_zero _ _ (ii_item _ _ I _ _ Hr) Hz) as Hw. rewrite Hw in Et. done.
Qed.
Lemma CompleteCapitalization_good w id i st tx d : inv w -> known_item id i w ->
  (forall t, st = "posted" -> tx = Some t -> keyed (iw_ledger w)
     (capitalize_key (ci_EnrollmentID i) (ci_PeriodID i)) (uuid_string (ci_PeriodID i)) t) ->
  CompleteCapitalization id st tx (iw_db w) = inr d -> good w d.
Proof.
  intros I (r & Hr & T) Hk H. unfold CompleteCapitalization in H. unfold item in Hr. rewrite Hr in H. cbv zeta in H.
  destruct (terminal_item _); [injection H as <-; by apply good_same|].
  case_bool_decide as Es; simpl negb in H; [|done]. destruct (_ && _ && _) eqn:Ep; [done|].
  destruct (wrap_sql _ (put_item _ _ _)) as [|d2] eqn:E2; [done|]. apply wrap_sql_inr in E2.
  destruct (ii_item _ _ I _ _ Hr) as [T1 T2 T3].
  assert (Hn : ci_CapitalizationAmount r <> 0) by (intros Hz; by rewrite (T2 Hz) in Es).
  eapply (good_trans _ d2).
  { eapply good_item; [done|exact E2|exact Hr|by split|]. intros w' L. split; [done|done|].
    simpl. intros ->. destruct tx as [t|].
    - exists t. split; [done|]. rewrite (it_enrollment _ _ T), (it_period _ _ T).
      apply (ll_keyed _ _ (il_ledger _ _ L)). by apply Hk.
    - rewrite (proj2 (Z.ltb_lt 0 _)) in Ep by lia. done. }
  intros I2. clear Ep. destruct (_ && _); [|injection H as <-; by apply (good_same (set_db w d2))].
  apply wrap_sql_inr in H. by eapply (good_period (set_db w d2)).
Qed.

(** *** Corrections *)
Lemma InsertCorrection_good ic w id r u d : inv w -> cr_Status r = "pending_approval" ->
  InsertCorrection id r ic (iw_db w) = inr (u, d) -> good w d.
Proof.
  unfold InsertCorrection. intros I Hs H. destruct (negb _); [done|]. case_bool_decide as E; [done|].
  apply wrap_sql_inr in H. eapply good_correction; [done|exact H| |].
  - intros q Hq. destruct E. by exists q.
  - intros Hok w' _. split; [done|..]; rewrite Hs; [|done]. intros Hd. exfalso. unfold decided_statuses in Hd.
    repeat (apply elem_of_cons in Hd as [Hd|Hd]; [done|]). by apply not_elem_of_nil in Hd.
Qed.
Lemma GetCorrection_ok id : op_ok D (IntSql (GetCorrection id)) (fun _ => True)
  (fun res w' => match res with
                 | inr r => known_correction id r w' /\ (cr_Status r = "approved" -> exists who, checked_by r who)
                 | inl _ => True end).
Proof.
  apply int_select_ok. unfold GetCorrection. intros ic w r d I H. destruct (_ !! id) as [q|] eqn:E; [|done].
  injection H as <- <-. split; [done|]. split; [exists q; split; [done|reflexivity]|].
  intros Hs. apply (kx_checked _ _ _ (ii_correction _ _ I _ _ E)). rewrite Hs. left.
Qed.
Lemma correction_with_terms r st who tx : ~ cr_Status r ∈ decided_statuses \/ (cr_ApprovedBy r = who /\ st ∈ decided_statuses) ->
  correction_terms r (correction_with r st who tx).
Proof.
  intros H. split; [done|]. intros a (Ha & Hne & Hs). destruct H as [H|[H1 H2]]; [done|].
  split_and!; simpl; [congruence|done|done].
Qed.
Lemma ApproveCorrection_good ic w id who u d : inv w -> ApproveCorrection id who ic (iw_db w) = inr (u, d) -> good w d.
Proof.
  unfold ApproveCorrection. intros I H. destruct (interest_adjustments (iw_db w) !! id) as [r|] eqn:E; [|done].
  destruct (_ && _) eqn:Ec; [|done]. apply andb_true_iff in Ec as [Es Ew]. apply bool_decide_eq_true in Es.
  apply negb_true_iff, bool_decide_eq_false in Ew. apply wrap_sql_inr in H. eapply good_correction; [done|exact H| |].
  - intros q Hq. unfold correction in Hq. rewrite E in Hq. injection Hq as <-. apply correction_with_terms. left.
    rewrite Es. intros Hd. unfold decided_statuses in Hd.
    repeat (apply elem_of_cons in Hd as [Hd|Hd]; [done|]). by apply not_elem_of_nil in Hd.
  - intros Hok w' _. split; [done|simpl|done]. intros _. exists who. split; [done|]. split; [by intros Hx; apply Ew|]. left.
Qed.
Lemma MarkAdjustmentPosted_good w id tx d : inv w ->
  (forall t, tx = Some t -> keyed (iw_ledger w) (correction_key id) (correction_key id) t) ->
  MarkAdjustmentPostedTx id tx (iw_db w) = inr d -> good w d.
Proof.
  unfold MarkAdjustmentPostedTx. intros I Hk H. destruct tx as [t|]; [|done].
  destruct (interest_adjustments (iw_db w) !! id) as [r|] eqn:E; [|done]. destruct (_ || _) eqn:Ec; [|done].
  destruct (wrap_sql _ _) as [|[u d']] eqn:E2; [done|]. injection H as <-. apply wrap_sql_inr in E2.
  assert (Hd : cr_Status r ∈ decided_statuses).
  { unfold decided_statuses. apply orb_true_iff in Ec as [Ec|Ec].
    - apply bool_decide_eq_true in Ec as ->. left.
    - apply andb_true_iff in Ec as [Ec _]. apply bool_decide_eq_true in Ec as ->. right. left. }
  eapply good_correction; [done|exact E2| |].
  - intros q Hq. unfold correction in Hq. rewrite E in Hq. injection Hq as <-. apply correction_with_terms. right.
    split; [done|]. right. left.
  - intros Hok w' L. destruct (ii_correction _ _ I _ _ E) as [_ K2 _]. split; [done| |].
    + intros _. destruct (K2 Hd) as (who & H1 & H2 & _). exists who. split_and!; [done..|]. right. left.
    + intros _. exists t. split; [done|]. apply (ll_keyed _ _ (il_ledger _ _ L)). by apply Hk.
Qed.
End interest.
