(* ===== verification/InterestThreads.v ===== *)
(** * Every interleaving of the savings service keeps the invariant

    The executor and the lookup among the service's calls, then every handler, then
    every reachable state and how it evolves. *)
From stdpp Require Import prelude gmap strings list relations.
From S2P Require Import Prelude Decimal Errors Currency Events Money MoneyFacts Calendar InterestMath Processors Flow LedgerApi.
From S2P Require Import Executor ExecutorFacts InterestRepo Interest InterestInv InterestSafe.
Open Scope Z_scope.

Section interest.
Context `{DEC : !Decimal} `{UT : !UuidText} `{ZN : !Zones} `{LED : !PostingLedger}.
Context (x : Executor) (s : InterestService).
Implicit Types (w : iworld).
Notation inv := (int_inv s).
Notation D := (int_discipline s).
Notation fine := (fine D).

(** ** The executor's calls *)
Notation XD := (pulled (@IntExec _) D).
Lemma iquiet_ok {B} (o : exec_call B) :
  (forall w b w', exec_inner_step B o w b w' -> w' = w) -> op_ok XD o (fun _ => True) (fun _ _ => True).
Proof. intros Ho w b w' I _ H. apply Ho in H as ->. split_and!; [done|reflexivity|done]. Qed.
Ltac keep := intros; first
  [ done | eexists; split; [eassumption|reflexivity]
  | eexists; split; [eassumption|split; [reflexivity|done]] ].
(** A step of the rest of the world. *)
Lemma inv_same_db w w' : inv w -> int_le w w' -> iw_db w' = iw_db w -> lok (iw_ledger w') ->
  (forall c, c ∈ iw_sent w' -> sent_for s w' c) ->
  (forall k sc tx, interest_key k sc -> under_key (iw_ledger w') k sc tx ->
     exists c, c ∈ iw_sent w' /\ IdempotencyKey c = k /\ IdempotencyScope c = sc) -> inv w'.
Proof.
  intros [I1 I2 I3 I4 I5 I6 I7 I8] L E Hl Hs Ho. unfold accrual, item, correction in *.
  split; unfold accrual, item, correction; rewrite ?E; try done.
  - intros id r H. eapply accrual_true_le; [exact L|by eapply I2].
  - intros id r H. eapply item_true_le; [exact L|by eapply I4].
  - intros id r H. eapply correction_true_le; [exact L|by eapply I6].
Qed.
Lemma iexec_grows w d :
  inv w -> (forall p, p ∈ policy_decisions (iw_exec w) -> p ∈ policy_decisions d) ->
  inv (set_iexec w d) /\ int_le w (set_iexec w d).
Proof.
  intros I Hd. assert (Hw : int_le w (set_iexec w d)) by (split; keep || apply Hd || reflexivity).
  split; [|done]. eapply inv_same_db; [exact I|exact Hw|done|apply I| |apply I].
  intros c H. eapply sent_for_le; [exact Hw|by eapply ii_sent].
Qed.
Lemma iledger_grows w c res l more :
  let w' := IWorld (iw_db w) (iw_exec w) l (more ++ iw_sent w) in
  inv w -> post c (iw_ledger w) res l ->
  (interest_key (IdempotencyKey c) (IdempotencyScope c) -> c ∈ more) ->
  (forall c', c' ∈ more -> sent_for s w c') -> inv w' /\ int_le w w'.
Proof.
  intros w' I Hp Hours Hmore. assert (I1 := ii_ledger _ _ I). assert (Hl := post_ledger_le _ _ _ _ I1 Hp).
  assert (Hw : int_le w w') by (split; keep || exact Hl).
  split; [|done]. eapply inv_same_db; [exact I|exact Hw|done|by eapply post_lok| |].
  - intros c' [H|H]%elem_of_app; (eapply sent_for_le; [exact Hw|]); [by apply Hmore|by eapply ii_sent].
  - intros k sc tx Hk [Ht Hposted]. destruct (post_new _ _ _ _ _ I1 Hp Hposted) as [[Hold Hback]|[Hkey _]].
    + destruct (ii_origin _ _ I k sc tx Hk) as (c' & Hc' & ?); [split; [by apply Hback|done]|].
      exists c'. split; [apply elem_of_app; by right|done].
    + assert (Hl' : lok l) by by eapply post_lok.
      destruct (keyed_key _ _ _ _ _ _ Hl' Ht Hkey) as [Ek Es]. subst k sc.
      exists c. split; [apply elem_of_app; left; by apply Hours|done].
Qed.
Lemma iexec_sql_ok {A} (q : exec_query A) (Q : A -> iworld -> Prop) :
  (forall ch w a d, q ch (iw_exec w) = inr (a, d) ->
     (forall p, p ∈ policy_decisions (iw_exec w) -> p ∈ policy_decisions d) /\ Q a (set_iexec w d)) ->
  op_ok XD (ExecSql q) (fun _ => True) (fun res w' => match res with inr a => Q a w' | inl _ => True end).
Proof.
  intros H w res w' I _ [(ch & a & d & Hs & -> & Hr)|[-> [e ->]]].
  - destruct (H ch w a d Hs) as [Hd HQ]. destruct (iexec_grows w d I Hd).
    split_and!; [done..|by destruct Hr as [->|[e ->]]].
  - split_and!; [done|reflexivity|done].
Qed.
Lemma interest_host : executor_host XD decisions_in.
Proof.
  split; try (intros; apply iquiet_ok; done).
  - intros u t w res w' I HT Hs.
    destruct (iexec_sql_ok (GetExecutionSubject u t) (fun _ _ => True)) with w res w' as (? & ? & _);
      [|done..|by split_and!].
    intros ch v a d. unfold GetExecutionSubject. destruct (subject_row _ _ _); [|done]. by intros [= <- <-].
  - intros d w res w' I HT Hs.
    destruct (iexec_sql_ok (RecordPolicyDecision d) (fun _ v => d ∈ decisions_in v)) with w res w' as (? & ? & HQ);
      [|done..|].
    + intros ch v [] d1. unfold RecordPolicyDecision. destruct (0 <=? _); [|done]. intros [= <-].
      simpl. split; [intros p Hp; apply elem_of_app; by left|].
      unfold decisions_in. simpl. apply elem_of_app. right. by left.
    + split_and!; [done..|]. intros ->. exact HQ.
  - intros w w' d Hw. apply (il_decision _ _ Hw).
Qed.
Lemma iHandle_ok c : op_ok XD (HandleCommand c) (fun w => sent_for s w c /\ on_record decisions_in x c w)
    (fun res w' => res = None -> True).
Proof.
  intros w res w' I [Hc Hrec] (l & Hp & ->). destruct (iledger_grows w c res l [c] I Hp) as [I' Hw].
  - intros _. by left.
  - intros c' [->|?%not_elem_of_nil]%elem_of_cons; done.
  - split_and!; done.
Qed.
(** A command the service has grounds for may be executed. *)
Lemma safe_command c exec w : sent_for s w c -> safe D (embed (@IntExec _) (Execute x c exec)) (fun _ _ => True) w.
Proof.
  intros Hc. apply safe_embed. eapply safe_weaken; [|intros; exact Logic.I].
  apply (safe_Execute XD decisions_in x interest_host c exec (fun w => sent_for s w c) (fun _ => True)).
  - intros u u' L H. by eapply sent_for_le.
  - done.
  - apply iHandle_ok.
  - done.
Qed.
Lemma clock_ok : op_ok D (IntExec Clock) (fun _ => True) (fun _ _ => True).
Proof. intros w b w' I _ ->. split_and!; [done|reflexivity|done]. Qed.
Lemma new_uuid_ok : op_ok D (IntExec NewUUID) (fun _ => True) (fun _ _ => True).
Proof. intros w b w' I _ ->. split_and!; [done|reflexivity|done]. Qed.
Lemma time_fine : fine time_Now.
Proof. eapply fine_op, clock_ok. Qed.
Lemma uuid_fine : fine uuid_New.
Proof. eapply fine_op, new_uuid_ok. Qed.
Lemma safe_find_tx key scope w : safe D (find_tx s key scope)
  (fun r w' => match r with inr (Some tx) => keyed (iw_ledger w') key scope tx | _ => True end) w.
Proof.
  unfold find_tx. destruct (sv_txLookup s); [|done]. intros w1 L1 I1 r w2 [-> Hr]. split_and!; [done|reflexivity|].
  by destruct r.
Qed.

(** ** Small handlers *)
Lemma fine_write {A} (q : int_query A) :
  (forall ic w a d, inv w -> q ic (iw_db w) = inr (a, d) -> good s w d) -> fine (perform (IntSql q)).
Proof. intros H. eapply fine_op, int_write_ok. intros ic w a d I _. by apply H. Qed.
Lemma fine_in_tx f : (forall ic w d, inv w -> f ic (iw_db w) = inr d -> good s w d) -> fine (in_tx f).
Proof.
  intros H. apply fine_write. intros ic w u d I. destruct (f ic (iw_db w)) as [|d'] eqn:E; [done|].
  intros [= _ <-]. by eapply H.
Qed.
Lemma safe_in_tx f (P : iworld -> Prop) w : (forall u u', int_le u u' -> P u -> P u') -> P w ->
  (forall ic w d, inv w -> P w -> f ic (iw_db w) = inr d -> good s w d) -> safe D (in_tx f) (fun _ _ => True) w.
Proof.
  intros HP Hw H. eapply safe_weaken; [eapply safe_op|done].
  - apply (int_write_ok s _ P). intros ic w1 u d I1 P1. destruct (f ic (iw_db w1)) as [|d'] eqn:E; [done|].
    intros [= _ <-]. by eapply H.
  - intros w' L. by eapply HP.
Qed.
Lemma FailDailyAccrual_fine id st code next : st <> "completed_posted" -> fine (FailDailyAccrual id st code next).
Proof.
  intros Hst. apply fine_ebind.
  - apply fine_write. intros ic w u d I. by apply fail_accrual_good.
  - intros _. apply fine_wrap, fine_write. intros ic w u d I. apply recount_of_accrual_good. done.
Qed.
Lemma blockOrRetry_fine p id code cause : fine (blockOrRetry p id code cause).
Proof.
  unfold blockOrRetry. apply fine_seq; [apply time_fine|]. intros t. apply fine_seq.
  - destruct (bool_decide _); [apply fine_ret|]. destruct (_ =? _); [apply fine_ret|].
    apply fine_seq; [apply time_fine|intros; apply fine_ret].
  - intros past. destruct past; (apply fine_seq; [by apply FailDailyAccrual_fine|intros; apply fine_ret]).
Qed.
Lemma GetCarryBeforeDate_fine e date : fine (GetCarryBeforeDate s e date).
Proof.
  unfold GetCarryBeforeDate. cbv zeta. apply fine_ebind; [apply fine_wrap, fine_read|]. intros [r|]; [apply fine_ret|].
  apply fine_ebind; [apply fine_wrap, fine_read|]. intros st. apply fine_ebind; [apply fine_wrap, fine_read|].
  intros b. destruct (_ && _); [apply fine_ret|]. apply fine_ebind; [apply fine_wrap, fine_read|].
  intros [r|]; apply fine_ret.
Qed.

(** ** A day *)
(** What the worker of a row knows: its day, its enrollment, the product. *)
Record day_known (e : uuid * enrollment_row) (item : uuid * accrual_row) date w : Prop := {
  dk_accrual : known_accrual item.1 item.2 w;
  dk_enrollment : known_enrollment e.1 e.2 w;
  dk_same : da_EnrollmentID item.2 = e.1;
  dk_date : the_day s date = da_AccrualDate item.2 }.
Lemma day_known_le e item date w w' : int_le w w' -> day_known e item date w -> day_known e item date w'.
Proof. intros L []. split; [by eapply known_accrual_le|by eapply known_enrollment_le|done..]. Qed.
Lemma CalculateDailyFromStrings_exact b r t c : CalculateDailyFromStrings b r t = inr c -> exact_day b r c.
Proof.
  unfold CalculateDailyFromStrings. destruct (bool_decide _); [by intros [? _]%CalculateDaily_inr|].
  destruct (Int_SetString t); [|done]. by intros [? _]%CalculateDaily_inr.
Qed.
Lemma day_calculation_true e item date w p sid b rid rv carry c :
  day_known e item date w -> known_product (se_ProductID e.2) p w -> known_rate rid rv w ->
  in_window (se_ProductID e.2) (the_day s date) rv -> day_calculation p sid b rid rv carry = inr c ->
  calc_true w item.2 c.
Proof.
  intros [_ (e' & He & Te) Hs Hd] (p' & Hp & Tp) (rv' & Hv & Tv) (Hw1 & Hw2 & Hw3) H. unfold day_calculation in H.
  destruct carry as [n m]. destruct (negb _); [done|].
  destruct (CalculateDailyFromStrings _ _ _) as [|dc] eqn:Ec; [done|].
  unfold bigIntInt64 in H. destruct (in_int64 _); [|done]. injection H as <-. apply CalculateDailyFromStrings_exact in Ec.
  eapply (CalcTrue w item.2 _ e' p' rv'); simpl; rewrite ?Hs, <- ?Hd, ?(et_product _ _ Te), ?(rt_product _ _ Tv),
    ?(rt_bps _ _ Tv), ?(rt_from _ _ Tv), ?(rt_until _ _ Tv), ?(pt_minimum _ _ Tp); try done.
  by destruct dc.
Qed.
Lemma safe_complete_day e item date p c st tx w :
  day_known e item date w ->
  (forall t, st = "completed_posted" -> tx = Some t -> keyed (iw_ledger w) (liability_key s e.1 date) (uuid_string e.1) t) ->
  safe D (completeDailyAccrual s p item.1 item.2 c st tx) (fun _ _ => True) w.
Proof.
  intros K Hk. unfold completeDailyAccrual. eapply safe_seq; [apply time_fine|]. intros now w1 L1 _.
  eapply (safe_in_tx _ (fun w => day_known e item date w /\
    (forall t, st = "completed_posted" -> tx = Some t -> keyed (iw_ledger w) (liability_key s e.1 date) (uuid_string e.1) t))).
  - intros u u' L [K' Hk']. split; [by eapply day_known_le|]. intros t H1 H2. apply (ll_keyed _ _ (il_ledger _ _ L)). by apply Hk'.
  - split; [by eapply day_known_le|]. intros t H1 H2. apply (ll_keyed _ _ (il_ledger _ _ L1)). by apply Hk.
  - intros ic w2 d I2 [K2 Hk2]. destruct (CompleteDailyAccrual _ _ _ _ _ _) as [|d'] eqn:E; [done|]. intros [= <-].
    apply good_event. destruct K2 as [K1 _ Hs Hd]. eapply CompleteDailyAccrual_good; [exact I2|exact K1| |exact E].
    intros t H1 H2. rewrite Hs, <- Hd. by apply Hk2.
Qed.
Lemma safe_post_accrual e p period item c date w :
  day_known e item date w -> calc_true w item.2 c -> se_AccountID e.2 = da_AccountID item.2 ->
  safe D (post_accrual x s e p period item.1 item.2 c date) (fun _ _ => True) w.
Proof.
  intros K Hc Ha. unfold post_accrual. destruct (Z.eqb_spec (ac_RecognizedAmount c) 0) as [|Hn].
  { by eapply safe_complete_day. }
  cbv zeta. eapply safe_seq.
  { apply safe_command. left. destruct K as [(r & Hr & T) _ Hs Hd]. exists item.1, r, period.1, c, date.
    rewrite (at_date _ _ T), (at_enrollment _ _ T), (at_account _ _ T), Hs, Ha. split_and!; try done.
    eapply calc_true_le; [reflexivity|exact T|exact Hc]. }
  intros posted w1 L1 _. destruct (match posted with inl _ => _ | inr _ => _ end); [apply blockOrRetry_fine|].
  eapply safe_seq; [apply safe_find_tx|]. intros [err|tx] w2 L2 Ht; [apply blockOrRetry_fine|].
  eapply safe_complete_day; [eapply day_known_le; [exact L2|by eapply day_known_le]|].
  intros t _ ->. exact Ht.
Qed.
Lemma safe_processClaimedAccrual e p period item date w :
  day_known e item date w -> known_product (se_ProductID e.2) p w ->
  safe D (processClaimedAccrual x s e p period item date) (fun _ _ => True) w.
Proof.
  intros K Hp. unfold processClaimedAccrual. eapply safe_seq; [apply fine_read|]. intros [err|[[sid b]|]] w1 L1 _;
    [apply blockOrRetry_fine| |apply blockOrRetry_fine].
  eapply safe_seq; [by eapply safe_op; [apply (GetRateForDate_ok s)|]|]. intros [err|[rid rv]] w2 L2 Hr; [apply blockOrRetry_fine|].
  destruct Hr as [Hrate Hwin]. simpl in Hrate, Hwin. destruct (balanceInt64 _) as [err|bi]; [apply blockOrRetry_fine|].
  eapply safe_seq; [apply GetCarryBeforeDate_fine|]. intros [err|prior] w3 L3 _; [apply blockOrRetry_fine|].
  cbv zeta. destruct (day_calculation _ _ _ _ _ _) as [[code err]|c] eqn:Ec; [apply blockOrRetry_fine|].
  assert (K3 : day_known e item date w3) by (eapply day_known_le; [exact L3|eapply day_known_le; [exact L2|by eapply day_known_le]]).
  assert (Hc : calc_true w3 item.2 c).
  { eapply day_calculation_true; [exact K3| | |exact Hwin|exact Ec].
    - eapply known_product_le; [exact L3|eapply known_product_le; [exact L2|by eapply known_product_le]].
    - by eapply known_rate_le. }
  eapply safe_ebind with (Q := fun _ _ => se_AccountID e.2 = da_AccountID item.2).
  { eapply safe_op; [apply (SaveDailyCalculation_ok s item.1 item.2 c e.1 e.2)|]. intros w4 L4.
    destruct (day_known_le _ _ _ _ _ L4 K3). split_and!; [done| |done..]. eapply calc_true_le; [exact L4|reflexivity|exact Hc]. }
  intros _ w4 L4 Ha. eapply safe_weaken; [apply safe_post_accrual|done]; [by eapply day_known_le| |done].
  eapply calc_true_le; [exact L4|reflexivity|exact Hc].
Qed.

(** ** Runs *)
Context (Hloc : forall t, 0 <= sv_loc s t < Day).
Lemma the_day_midnight day : the_day s (day * Day) = day.
Proof.
  unfold the_day, local_day. specialize (Hloc (day * Day)). rewrite Z.add_comm, Z.div_add by done.
  rewrite Z.div_small by done. lia.
Qed.
Lemma safe_accrueOne e date w : known_enrollment e.1 e.2 w -> safe D (accrueOne x s e date) (fun _ _ => True) w.
Proof.
  intros He. unfold accrueOne. eapply safe_ebind; [by eapply safe_op; [apply (GetProduct_ok s)|]|]. intros p w1 L1 Hp.
  eapply safe_ebind with (Q := fun _ _ => True).
  { eapply safe_weaken; [|by intros []]. apply fine_seq; [apply uuid_fine|]. intros id. apply fine_ebind.
    - apply fine_write. intros ic v u d I. by apply insert_period_good.
    - intros _. eapply fine_op, (int_select_ok s _ (fun _ _ => True)). unfold sql_select_period_of_month.
      intros ic v r d I H. destruct (rows_where _ _); [done|]. by injection H as _ <-. }
  intros period w2 L2 _.
  eapply safe_ebind with (Q := fun item w => day_known e item date w).
  { unfold CreateOrGetDailyAccrual. apply safe_bind. eapply safe_weaken; [apply uuid_fine|]. intros id w3 L3 _.
    unfold ebind. apply safe_bind. eapply safe_weaken.
    { eapply safe_op; [apply (insert_accrual_ok s id period.1 e.1 (se_AccountID e.2) (the_day s date) e.2)|].
      intros w4 L4. split; [|done]. eapply known_enrollment_le; [exact L4|]. eapply known_enrollment_le; [exact L3|].
      eapply known_enrollment_le; [exact L2|]. by eapply known_enrollment_le. }
    intros [err|[]] w4 L4 _; [done|]. eapply safe_weaken; [by eapply safe_op; [apply (select_accrual_ok s)|]|].
    intros [err|item] w5 L5 H; [done|]. destruct H as (H1 & H2 & H3). split; [done| |done|done].
    eapply known_enrollment_le; [exact L5|]. eapply known_enrollment_le; [exact L4|]. eapply known_enrollment_le; [exact L3|].
    eapply known_enrollment_le; [exact L2|]. by eapply known_enrollment_le. }
  intros item w3 L3 K. destruct (isTerminalAccrual _); [done|].
  eapply safe_seq; [apply uuid_fine|]. intros owner w4 L4 _. eapply safe_seq; [apply time_fine|]. intros now w5 L5 _.
  eapply safe_ebind.
  { eapply safe_op; [apply (ClaimForID_ok s item.1 item.2)|]. intros w6 L6. eapply known_accrual_le; [exact L6|].
    eapply known_accrual_le; [exact L5|]. eapply known_accrual_le; [exact L4|]. apply K. }
  intros item' w6 L6 (E1 & E2 & E3). destruct (negb _); [done|]. apply safe_processClaimedAccrual.
  - destruct K as [_ K2 K3 K4]. split; [by rewrite E1| | |].
    + eapply known_enrollment_le; [exact L6|]. eapply known_enrollment_le; [exact L5|]. by eapply known_enrollment_le.
    + by rewrite (at_enrollment _ _ E2).
    + by rewrite (at_date _ _ E2).
  - eapply known_product_le; [exact L6|]. eapply known_product_le; [exact L5|]. eapply known_product_le; [exact L4|].
    eapply known_product_le; [exact L3|]. by eapply known_product_le.
Qed.
Lemma give_up_fine id code : fine (give_up_row id code).
Proof. apply fine_seq; [apply time_fine|]. intros t. by apply fine_logged, FailDailyAccrual_fine. Qed.
Lemma safe_recover_row item w : known_accrual item.1 item.2 w -> safe D (recover_row x s item) (fun _ _ => True) w.
Proof.
  intros Hk. unfold recover_row. eapply safe_seq; [by eapply safe_op; [apply (GetEnrollment_ok s)|]|].
  intros [err|e] w1 L1 He; [apply give_up_fine|].
  eapply safe_seq; [by eapply safe_op; [apply (GetProduct_ok s)|]|]. intros [err|p] w2 L2 Hp; [apply give_up_fine|].
  eapply safe_seq; [apply GetPeriod_fine|]. intros [err|q] w3 L3 _; [apply give_up_fine|].
  eapply safe_logged, safe_processClaimedAccrual.
  - split; simpl; [|eapply known_enrollment_le; [exact L3|by eapply known_enrollment_le]|done|by rewrite the_day_midnight].
    eapply known_accrual_le; [exact L3|]. eapply known_accrual_le; [exact L2|]. by eapply known_accrual_le.
  - by eapply known_product_le.
Qed.
Lemma recoverPending_fine rounds : fine (recoverPending x s rounds).
Proof.
  induction rounds as [|n IH]; intros w; [done|]. cbn [recoverPending]. eapply safe_seq; [apply uuid_fine|]. intros owner w1 L1 _.
  eapply safe_seq; [apply time_fine|]. intros now w2 L2 _.
  eapply safe_seq; [by eapply safe_op; [apply (ClaimDailyAccrual_ok s)|]|]. intros [err|item] w3 L3 Hk; [done|].
  eapply safe_seq; [by apply safe_recover_row|]. intros _ w4 _ _. apply IH.
Qed.
Lemma safe_each {A} (P : A -> iworld -> Prop) (f : A -> Flow.prog int_call unit) l w :
  (forall a u u', int_le u u' -> P a u -> P a u') -> (forall a u, P a u -> safe D (f a) (fun _ _ => True) u) ->
  Forall (fun a => P a w) l -> safe D (each f l) (fun _ _ => True) w.
Proof.
  intros HP Hf. revert w. induction l as [|a l IH]; intros w HF; [done|]. apply Forall_cons in HF as [Ha HF].
  cbn [each]. eapply safe_seq; [by apply Hf|]. intros _ w' L _. apply IH. eapply Forall_impl; [exact HF|]. intros b. by apply HP.
Qed.
Lemma RunDaily_fine rounds date : fine (RunDaily x s rounds date).
Proof.
  intros w. unfold RunDaily. eapply safe_seq.
  { eapply safe_op; [apply (int_read_ok s _ (fun l w => Forall (fun e => known_enrollment e.1 e.2 w) l))|done].
    intros w1 I1. apply Forall_forall. intros [id e] [He _]%elem_of_by_keys%elem_of_rows_where. exists e. split; [done|reflexivity]. }
  intros [err|l] w1 L1 Hl; (eapply safe_seq with (Q := fun _ _ => True); [|intros; apply recoverPending_fine]).
  { done. }
  eapply (safe_each (fun e w => known_enrollment e.1 e.2 w)); [intros e u u'; by apply known_enrollment_le| |exact Hl].
  intros e u He. by eapply safe_logged, safe_accrueOne.
Qed.

(** ** The close *)
Lemma put_check_fine p name pass a b : fine (put_check p name pass a b).
Proof. apply fine_seq; [apply time_fine|]. intros t. apply fine_write. intros ic w u d I. by apply PutPeriodCheck_good. Qed.
Lemma refreshed_period_fine id : fine (refreshed_period id).
Proof.
  apply fine_ebind; [apply GetPeriod_fine|]. intros p. destruct (closed p); [apply fine_ret|].
  apply fine_ebind; [|intros; apply GetPeriod_fine]. apply fine_write. intros ic w u d I. by apply RefreshExpected_good.
Qed.
Lemma eligible_fine {A} (f : interest_db -> error + A) :
  fine (perform (IntSql (fun _ d => match f d with inl err => inl err | inr a => inr (a, d) end))).
Proof.
  eapply fine_op, (int_select_ok s _ (fun _ _ => True)). intros ic w a d I H.
  destruct (f (iw_db w)); [done|]. by injection H as _ <-.
Qed.
Lemma CountEligible_fine id : fine (perform (IntSql (CountEligibleEnrollments id))).
Proof.
  eapply fine_op, (int_select_ok s _ (fun _ _ => True)). unfold CountEligibleEnrollments. intros ic w a d I H.
  destruct (eligible_enrollments _ _); [done|]. by injection H as _ <-.
Qed.
Lemma HasNonActive_fine id : fine (perform (IntSql (HasNonActiveCapitalizationAccount id))).
Proof.
  eapply fine_op, (int_select_ok s _ (fun _ _ => True)). unfold HasNonActiveCapitalizationAccount. intros ic w a d I H.
  destruct (eligible_enrollments _ _); [done|]. by injection H as _ <-.
Qed.
Lemma preview_checks_fine id p t found missing b : fine (preview_checks id p t found missing b).
Proof.
  unfold preview_checks. destruct (closed p); [apply fine_ret|].
  apply fine_ebind; [apply put_check_fine|]. intros _. apply fine_ebind; [apply put_check_fine|]. intros _.
  apply fine_ebind; [apply fine_read|]. intros prev. apply fine_ebind; [apply put_check_fine|]. intros; apply fine_ret.
Qed.
Lemma PreviewPeriodClose_fine id : fine (PreviewPeriodClose id).
Proof.
  unfold PreviewPeriodClose. apply fine_ebind; [apply refreshed_period_fine|]. intros p.
  apply fine_ebind; [apply fine_read|]. intros rows. apply fine_ebind; [apply CountEligible_fine|]. intros n.
  apply fine_ebind; [apply HasNonActive_fine|]. intros b. cbv zeta. apply fine_ebind; [apply preview_checks_fine|].
  intros prev. destruct (_ && _).
  - destruct (negb prev); [apply fine_ret|]. apply fine_seq; [apply time_fine|]. intros now.
    destruct (now <? _); apply fine_ret.
  - destruct (closed p); [apply fine_ret|]. destruct b; apply fine_ret.
Qed.
Lemma set_period_status_fine p st code : fine (set_period_status p st code).
Proof. apply fine_write. intros ic w u d I. by apply MarkPeriodStatus_good. Qed.
Definition item_known p (item : uuid * item_row) w : Prop := known_item item.1 item.2 w /\ ci_PeriodID item.2 = p.
Lemma item_known_le p item w w' : int_le w w' -> item_known p item w -> item_known p item w'.
Proof. intros L [H E]. split; [by eapply known_item_le|done]. Qed.
Lemma safe_complete_item period item st tx w : item_known period.1 item w ->
  (forall t, st = "posted" -> tx = Some t ->
     keyed (iw_ledger w) (capitalize_key (ci_EnrollmentID item.2) period.1) (uuid_string period.1) t) ->
  safe D (completeCapitalization s period item.1 item.2 st tx) (fun _ _ => True) w.
Proof.
  intros K Hk. unfold completeCapitalization. eapply safe_seq; [apply time_fine|]. intros now w1 L1 _.
  eapply (safe_in_tx _ (fun w => item_known period.1 item w /\ (forall t, st = "posted" -> tx = Some t ->
     keyed (iw_ledger w) (capitalize_key (ci_EnrollmentID item.2) period.1) (uuid_string period.1) t))).
  - intros u u' L [K' Hk']. split; [by eapply item_known_le|]. intros t H1 H2. apply (ll_keyed _ _ (il_ledger _ _ L)). by apply Hk'.
  - split; [by eapply item_known_le|]. intros t H1 H2. apply (ll_keyed _ _ (il_ledger _ _ L1)). by apply Hk.
  - intros ic w2 d I2 [[K2 E2] Hk2]. destruct (CompleteCapitalization _ _ _ _) as [|d'] eqn:E; [done|]. intros [= <-].
    apply good_event. eapply CompleteCapitalization_good; [exact I2|exact K2| |exact E]. rewrite E2. exact Hk2.
Qed.
Lemma safe_fail_item id i st code next w : st <> "posted" -> known_item id i w -> ci_CapitalizationAmount i <> 0 ->
  safe D (perform (IntSql (FailCapitalization id st code next))) (fun _ _ => True) w.
Proof.
  intros Hst Hk Hn. eapply safe_weaken; [eapply safe_op; [by apply (FailCapitalization_ok s id i)|]|done].
  intros w' L. split; [by eapply known_item_le|done].
Qed.
Lemma safe_capitalize_claimed period actor item w : item_known period.1 item w -> ci_CapitalizationAmount item.2 <> 0 ->
  safe D (capitalize_claimed x s period actor item) (fun _ _ => True) w.
Proof.
  intros [K E] Hn. unfold capitalize_claimed. cbv zeta. eapply safe_seq.
  { apply safe_command. right; left. destruct K as (i & Hi & T). exists item.1, i, actor.
    rewrite (it_enrollment _ _ T), (it_account _ _ T), (it_period _ _ T), (it_amount _ _ T), E. done. }
  intros posted w1 L1 _. destruct (match posted with inl _ => _ | inr _ => _ end) as [err|].
  - eapply safe_seq; [apply time_fine|]. intros t w2 L2 _. assert (K2 : known_item item.1 item.2 w2).
    { eapply known_item_le; [exact L2|by eapply known_item_le]. }
    destruct (isBusinessFailure err); (eapply safe_ebind with (Q := fun _ _ => True); [|done]);
      (eapply safe_weaken; [by eapply safe_fail_item|by intros []]).
  - eapply safe_seq; [apply safe_find_tx|]. intros [err|tx] w2 L2 Ht.
    + eapply safe_seq; [apply time_fine|]. intros t w3 L3 _. eapply safe_ebind with (Q := fun _ _ => True); [|done].
      eapply safe_weaken; [eapply safe_fail_item; [done| |done]|by intros []].
      eapply known_item_le; [exact L3|]. eapply known_item_le; [exact L2|by eapply known_item_le].
    + apply safe_complete_item.
      * split; [|done]. eapply known_item_le; [exact L2|by eapply known_item_le].
      * intros t _ ->. exact Ht.
Qed.
Lemma safe_capitalize_item period actor item w : item_known period.1 item w ->
  safe D (capitalize_item x s period actor item) (fun _ _ => True) w.
Proof.
  intros K. unfold capitalize_item. destruct (terminal_item _); [done|].
  destruct (Z.eqb_spec (ci_CapitalizationAmount item.2) 0) as [|Hn]; [by apply safe_complete_item|].
  eapply safe_seq; [apply uuid_fine|]. intros owner w1 L1 _. eapply safe_seq; [apply time_fine|]. intros now w2 L2 _.
  eapply safe_seq.
  { eapply safe_op; [apply (StartCapitalization_ok s item.1 item.2)|]. intros w3 L3. split; [|done]. destruct K as [K _].
    eapply known_item_le; [exact L3|]. eapply known_item_le; [exact L2|]. by eapply known_item_le. }
  intros [err|item'] w3 L3 Hc; [by destruct (is_no_rows err)|]. destruct Hc as (E1 & E2 & E3). destruct K as [_ E].
  apply safe_capitalize_claimed; [|by rewrite (it_amount _ _ E2)]. split; [by rewrite E1|by rewrite (it_period _ _ E2)].
Qed.
Lemma safe_capitalize_items period actor items w : Forall (fun i => item_known period.1 i w) items ->
  safe D (capitalize_items x s period actor items) (fun _ _ => True) w.
Proof.
  revert w. induction items as [|i items IH]; intros w HF; [done|]. apply Forall_cons in HF as [Hi HF]. cbn [capitalize_items].
  eapply safe_ebind with (Q := fun _ _ => True); [eapply safe_weaken; [by apply safe_capitalize_item|by intros []]|].
  intros _ w' L _. apply IH. eapply Forall_impl; [exact HF|]. intros j. by apply item_known_le.
Qed.
Lemma close_body_fine period actor : fine (close_body x s period actor).
Proof.
  intros w. unfold close_body. eapply safe_ebind with (Q := fun _ _ => True).
  { eapply safe_weaken; [apply fine_write|by intros []]. intros ic v u d I. by apply EnsureItems_good. }
  intros _ w1 L1 _. eapply safe_ebind; [by eapply safe_op; [apply (ListCapitalizationItems_ok s)|]|].
  intros items w2 L2 Hi. eapply safe_ebind with (Q := fun _ _ => True).
  { eapply safe_weaken; [by apply safe_capitalize_items|by intros []]. }
  intros _ w3 L3 _. apply fine_ebind; [apply fine_read|]. intros final. destruct (negb _); [apply fine_ret|].
  apply fine_ebind; [apply GetPeriod_fine|]. intros q. destruct (negb _); [apply fine_ret|].
  apply fine_ebind; [apply put_check_fine|]. intros; apply fine_ret.
Qed.
Lemma finish_close_fine period final : fine (finish_close s period final).
Proof.
  apply fine_seq; [apply time_fine|]. intros t. apply fine_in_tx. intros ic w d I H.
  destruct (MarkPeriodStatus _ _ _ _ _) as [|[u d']] eqn:E; [done|]. injection H as <-. apply good_event. by eapply MarkPeriodStatus_good.
Qed.
Lemma ClosePeriod_fine id actor : fine (ClosePeriod x s id actor).
Proof.
  unfold ClosePeriod. destruct (bool_decide _); [apply fine_ret|]. apply fine_ebind; [apply GetPeriod_fine|]. intros p.
  destruct (closed p); [apply fine_ret|]. apply fine_ebind; [apply PreviewPeriodClose_fine|]. intros pv.
  destruct (negb _); [apply fine_ret|]. apply fine_ebind; [apply GetPeriod_fine|]. intros q.
  apply fine_ebind; [apply set_period_status_fine|]. intros _. apply fine_seq; [apply close_body_fine|].
  intros [err|final]; [|apply finish_close_fine]. apply fine_seq; [apply set_period_status_fine|intros; apply fine_ret].
Qed.
Lemma close_each_fine actor l a b : fine (close_each x s actor l a b).
Proof.
  revert a b. induction l as [|p l IH]; intros a b; cbn [close_each]; [apply fine_ret|].
  apply fine_seq; [apply ClosePeriod_fine|]. intros [e|u]; apply IH.
Qed.

(** ** The rest *)
Lemma RetryPeriodItem_fine id : fine (RetryPeriodItem id).
Proof.
  unfold RetryPeriodItem. apply fine_seq.
  { apply fine_ebind; [apply fine_write; intros ic w u d I; by apply retry_accrual_good|]. intros n.
    destruct (n =? 0); [apply fine_ret|]. apply fine_wrap, fine_write. intros ic w u d I. by apply recount_of_accrual_good. }
  intros [err|u]; [|apply fine_ret]. destruct (negb _); [apply fine_ret|]. apply fine_seq.
  { apply fine_ebind; [apply fine_write; intros ic w u d I; by apply retry_item_good|]. intros n.
    destruct (n =? 0); [apply fine_ret|]. apply fine_wrap, fine_write. intros ic w u d I. by apply recount_of_item_good. }
  intros [err'|u]; [|apply fine_ret]. destruct (negb _); apply fine_ret.
Qed.
Lemma CreateCorrection_fine r : fine (CreateCorrection r).
Proof.
  unfold CreateCorrection. destruct (invalid_correction r); [apply fine_ret|]. apply fine_ebind; [apply GetPeriod_fine|].
  intros p. destruct (negb _); [apply fine_ret|]. apply fine_seq; [apply uuid_fine|]. intros id.
  apply fine_ebind; [|intros; apply fine_ret]. apply fine_write. intros ic w u d I. by apply InsertCorrection_good.
Qed.
Lemma safe_post_correction id r w : known_correction id r w -> (exists who, checked_by r who) ->
  safe D (post_correction x s id r) (fun _ _ => True) w.
Proof.
  intros Hk [who Hw]. unfold post_correction. eapply safe_ebind; [by eapply safe_op; [apply (GetEnrollment_ok s)|]|].
  intros e w1 L1 He. eapply safe_ebind; [by eapply safe_op; [apply (GetProduct_ok s)|]|]. intros p w2 L2 _. cbv zeta.
  assert (K2 : known_correction id r w2) by (eapply known_correction_le; [exact L2|by eapply known_correction_le]).
  eapply safe_seq.
  { apply safe_command. right; right. destruct K2 as (r' & Hr & T).
    destruct (known_enrollment_le _ _ _ _ L2 He) as (e' & He' & Te). exists id, r', who, e'.
    assert (Hf := correction_fields _ _ T). destruct Hf as (_ & -> & _).
    split_and!; [done|by apply (ct_checked _ _ T)|done|]. symmetry. by apply correction_command_terms. }
  intros posted w3 L3 _. destruct (match posted with inl _ => _ | inr _ => _ end) as [err|]; [done|].
  eapply safe_ebind with (Q := fun tx w => forall t, tx = Some t -> keyed (iw_ledger w) (correction_key id) (correction_key id) t).
  { eapply safe_weaken; [apply safe_find_tx|]. intros [err|tx] w4 L4 H; [done|]. by intros t ->. }
  intros tx w4 L4 Ht. eapply safe_seq; [apply time_fine|]. intros now w5 L5 _.
  eapply (safe_in_tx _ (fun w => forall t, tx = Some t -> keyed (iw_ledger w) (correction_key id) (correction_key id) t)).
  - intros u u' L H t Et. apply (ll_keyed _ _ (il_ledger _ _ L)). by apply H.
  - intros t Et. apply (ll_keyed _ _ (il_ledger _ _ L5)). by apply Ht.
  - intros ic w6 d I6 H E. destruct (MarkAdjustmentPostedTx _ _ _) as [|d'] eqn:Em; [done|]. injection E as <-.
    apply good_event. by eapply MarkAdjustmentPosted_good.
Qed.
Lemma ApproveAdjustment_fine id who : fine (ApproveAdjustment x s id who).
Proof.
  intros w. unfold ApproveAdjustment. destruct (bool_decide _); [done|].
  eapply safe_ebind; [by eapply safe_op; [apply (GetCorrection_ok s)|]|]. intros r w1 L1 [Hr Hc]. case_bool_decide; [done|].
  eapply safe_ebind with (Q := fun r w => known_correction id r w /\ (cr_Status r = "approved" -> exists who, checked_by r who)).
  - case_bool_decide; [|done]. unfold ebind. apply safe_bind. eapply safe_weaken.
    { apply fine_write. intros ic v u d I. by apply ApproveCorrection_good. }
    intros [err|u] w2 L2 _; [done|]. by eapply safe_op; [apply (GetCorrection_ok s)|].
  - intros r' w2 L2 [Hr' Hc']. case_bool_decide; simpl; [|done]. apply safe_post_correction; [done|]. by apply Hc'.
Qed.

(** ** Every reachable state *)
Lemma int_entry_fine p : int_entry x s p -> fine p.
Proof.
  destruct 1; [apply RunDaily_fine|..]; apply fine_logged.
  - apply ClosePeriod_fine.
  - apply fine_ebind; [apply fine_read|]. intros l. apply fine_seq; [apply close_each_fine|intros; apply fine_ret].
  - apply PreviewPeriodClose_fine.
  - apply RetryPeriodItem_fine.
  - apply CreateCorrection_fine.
  - apply ApproveAdjustment_fine.
  - apply fine_write. intros ic w u d I. by apply CreateProduct_good.
  - apply fine_write. intros ic w u d I. by apply UpdateProductStatus_good.
  - apply fine_write. intros ic w u d I. by apply CreateRate_good.
  - apply fine_write. intros ic w u d I. by apply SubmitRate_good.
  - apply fine_write. intros ic w u d I. by apply ApproveRate_good.
  - apply fine_write. intros ic w u d I. by apply RejectRate_good.
  - apply fine_write. intros ic w u d I. by apply CreateEnrollment_good.
  - apply fine_write. intros ic w u d I. by apply UpdateEnrollment_good.
Qed.
Lemma int_env_ok w w' : inv w -> int_env w w' -> inv w' /\ int_le w w'.
Proof.
  intros I [c r l Hk Hp|snaps accounts|subjects more].
  - apply (iledger_grows w c r l [] I Hp).
    + intros H. exfalso. exact (Hk H).
    + intros c' H. exfalso. exact (not_elem_of_nil _ H).
  - apply good_elsewhere; [done| |done..]. split; keep.
  - apply iexec_grows; [done|]. intros p Hp. apply elem_of_app. by left.
Qed.
Lemma int_initial_inv c : int_initial c -> inv c.1 /\ c.2 = [].
Proof.
  intros (Hd & Hl & Hk & Hs & Hps). split; [|done].
  assert (Ha : interest_daily_accruals (iw_db c.1) = ∅) by (by rewrite Hd).
  assert (Hi : interest_capitalization_items (iw_db c.1) = ∅) by (by rewrite Hd).
  assert (Hc : interest_adjustments (iw_db c.1) = ∅) by (by rewrite Hd). clear Hd.
  split; unfold accrual, item, correction; rewrite ?Ha, ?Hi, ?Hc; try done.
  - intros c'. by rewrite Hs, elem_of_nil.
  - intros k sc tx H [H' _]. by destruct (Hk k sc tx H).
Qed.
Definition int_system_ok := system_ok (int_discipline s).
Lemma int_reachable_ok c : int_reachable x s c -> int_system_ok c.
Proof.
  intros ([w0 ps0] & [I0 Hps]%int_initial_inv & Hsteps). simpl in *. subst ps0.
  eapply (steps_ok (int_discipline s) (int_entry x s) int_env int_entry_fine int_env_ok); [|exact Hsteps].
  by apply system_start.
Qed.
Lemma int_reachable_inv w ps : int_reachable x s (w, ps) -> inv w.
Proof. intros H. apply (int_reachable_ok (w, ps) H). Qed.
Lemma int_steps_le c c' : int_reachable x s c -> rtc (sys_step int_step (int_entry x s) int_env) c c' -> int_le c.1 c'.1.
Proof.
  intros Hr Hs. eapply (steps_ok (int_discipline s) (int_entry x s) int_env int_entry_fine int_env_ok); [|exact Hs].
  by apply int_reachable_ok.
Qed.
End interest.
