(* ===== verification/InterestTheorems.v ===== *)
(** * What the savings service guarantees

    What holds of every reachable state of the savings tables and the ledger, whatever
    the daily runs, closes, retries and corrections in flight: interest is exact and
    posted once, what is capitalized is what was recorded, a closed month does not
    change, a correction takes two people; and a month with nothing to capitalize for
    one enrollment never closes.  Runs on the specification ledger witness each. *)
From Stdlib Require Import String.
From stdpp Require Import prelude gmap strings list relations.
From S2P Require Import Prelude Decimal Errors Currency Events Money Calendar InterestMath Processors Flow LedgerApi PayoutThreads.
From S2P Require Import Executor ExecutorFacts InterestRepo Interest InterestInv InterestSafe InterestThreads AdjustmentsRun.
Open Scope Z_scope.

(** ** Keys *)
Section keys.
Context `{UT : !UuidText}.
Lemma liability_text_inj e day e' day' :
  liability_text e day = liability_text e' day' -> uuid_string e = uuid_string e' -> e = e' /\ day = day'.
Proof.
  unfold liability_text. intros H Hs. apply uuid_string_inj in Hs as ->. split; [done|].
  apply (inj (String.append "interest-liability:")) in H. apply (inj (String.append (uuid_string e'))) in H.
  apply (inj (String.append ":")) in H. by apply date_text_inj.
Qed.
Lemma capitalize_key_inj e p e' p' :
  capitalize_key e p = capitalize_key e' p' -> uuid_string p = uuid_string p' -> e = e' /\ p = p'.
Proof.
  unfold capitalize_key. intros H Hs. rewrite Hs in H. apply uuid_string_inj in Hs as ->. split; [|done].
  apply (inj (String.append "interest-capitalize:")), app_suffix_inj in H. by apply uuid_string_inj.
Qed.
Lemma correction_key_inj id id' : correction_key id = correction_key id' -> id = id'.
Proof. unfold correction_key. intros H%(inj (String.append "interest-adjustment:")). by apply uuid_string_inj. Qed.
Lemma keys_apart e day e' p id : liability_text e day <> capitalize_key e' p /\
  liability_text e day <> correction_key id /\ capitalize_key e' p <> correction_key id.
Proof. split_and!; discriminate. Qed.
End keys.

Section reachable.
Context `{DEC : !Decimal} `{UT : !UuidText} `{ZN : !Zones} `{LED : !PostingLedger}.
Context (x : Executor) (s : InterestService).
Implicit Types (w : iworld).

(** What was sent under each kind of key. *)
Lemma origin_liability w e day tx : int_inv s w -> under_key (iw_ledger w) (liability_text e day) (uuid_string e) tx ->
  exists id r p c, accrual w id = Some r /\ da_EnrollmentID r = e /\ da_AccrualDate r = day /\ calc_true w r c /\
    ac_RecognizedAmount c <> 0 /\ exists date, the_day s date = day /\
    liability_command s e (da_AccountID r) p (ac_AnnualRateBps c) (ac_RecognizedAmount c) date ∈ iw_sent w.
Proof.
  intros I Ht. destruct (ii_origin _ _ I _ _ tx (ik_liability e day) Ht) as (c & Hc & Ek & Es).
  destruct (ii_sent _ _ I c Hc) as [(id & r & p & cal & date & Hr & Hd & Hx & Hn & Ec)|[(id & i & a & _ & _ & ->)|(id & r & a & en & _ & _ & _ & ->)]].
  - subst c. simpl in Ek, Es. destruct (liability_text_inj _ _ _ _ Ek Es) as [E1 E2].
    exists id, r, p, cal. split_and!; [done|done|by rewrite <- Hd, <- E2|done|done|]. exists date. split; [done|by rewrite <- E1].
  - by destruct (keys_apart e day (ci_EnrollmentID i) (ci_PeriodID i) 0%N) as (H & _ & _); destruct H.
  - by destruct (keys_apart e day 0%N 0%N id) as (_ & H & _); destruct H.
Qed.
Lemma origin_capitalize w e p tx : int_inv s w -> under_key (iw_ledger w) (capitalize_key e p) (uuid_string p) tx ->
  exists id i actor, item w id = Some i /\ ci_EnrollmentID i = e /\ ci_PeriodID i = p /\ ci_CapitalizationAmount i <> 0 /\
    capitalize_command e (ci_AccountID i) p (ci_CapitalizationAmount i) actor ∈ iw_sent w.
Proof.
  intros I Ht. destruct (ii_origin _ _ I _ _ tx (ik_capitalize e p) Ht) as (c & Hc & Ek & Es).
  destruct (ii_sent _ _ I c Hc) as [(id & r & q & cal & date & _ & _ & _ & _ & ->)|[(id & i & a & Hi & Hn & Ec)|(id & r & a & en & _ & _ & _ & ->)]].
  - by destruct (keys_apart (da_EnrollmentID r) (the_day s date) e p 0%N) as (H & _ & _); destruct H.
  - subst c. simpl in Ek, Es. destruct (capitalize_key_inj _ _ _ _ Ek Es) as [E1 E2].
    exists id, i, a. split_and!; [done..|]. by rewrite <- E1, <- E2.
  - by destruct (keys_apart 0%N 0 e p id) as (_ & _ & H); destruct H.
Qed.
Lemma origin_correction w id tx : int_inv s w -> under_key (iw_ledger w) (correction_key id) (correction_key id) tx ->
  exists r who e, correction w id = Some r /\ checked_by r who /\ enrollment w (cr_EnrollmentID r) = Some e /\
    correction_command id r e ∈ iw_sent w.
Proof.
  intros I Ht. destruct (ii_origin _ _ I _ _ tx (ik_correction id) Ht) as (c & Hc & Ek & _).
  destruct (ii_sent _ _ I c Hc) as [(i & r & q & cal & date & _ & _ & _ & _ & ->)|[(i & r & a & _ & _ & ->)|(i & r & a & en & Hr & Hk & He & Ec)]].
  - by destruct (keys_apart (da_EnrollmentID r) (the_day s date) 0%N 0%N id) as (_ & H & _); destruct H.
  - by destruct (keys_apart 0%N 0 (ci_EnrollmentID r) (ci_PeriodID r) id) as (_ & _ & H); destruct H.
  - subst c. simpl in Ek. apply correction_key_inj in Ek as ->. by exists r, a, en.
Qed.

(** ** A handler that cannot succeed, whatever runs meanwhile *)
Notation D := (int_discipline s).
Definition refuses {A} (p : Flow.prog int_call (error + A)) w : Prop := safe D p (fun r _ => exists err, r = inl err) w.
Lemma refuses_here {A} err w : refuses (A := A) (Ret (inl err)) w.
Proof. by exists err. Qed.
Lemma refuses_after {A B} (p : Flow.prog int_call (error + A)) (k : A -> Flow.prog int_call (error + B)) (Q : A -> iworld -> Prop) w :
  safe D p (fun r w' => match r with inr a => Q a w' | inl _ => True end) w ->
  (forall a w', int_le w w' -> Q a w' -> refuses (k a) w') -> refuses (ebind p k) w.
Proof.
  intros Hp Hk. apply safe_bind. eapply safe_weaken; [exact Hp|]. intros [err|a] w' L HQ; [by exists err|by apply Hk].
Qed.
Lemma refuses_then {A B} (p : Flow.prog int_call (error + A)) (k : A -> Flow.prog int_call (error + B)) w :
  fine D p -> (forall a w', int_le w w' -> refuses (k a) w') -> refuses (ebind p k) w.
Proof.
  intros Hp Hk. apply (refuses_after _ _ (fun _ _ => True)); [|intros; by apply Hk].
  eapply safe_weaken; [apply Hp|by intros []].
Qed.
(** An item of nothing is listed undone. *)
Definition owes_nothing w id p : Prop := exists i, item w id = Some i /\ ci_PeriodID i = p /\ ci_CapitalizationAmount i = 0.
Lemma owes_nothing_le w w' id p : int_le w w' -> owes_nothing w id p -> owes_nothing w' id p.
Proof.
  intros L (i & Hi & Hp & Hz). destruct (il_item _ _ L _ _ Hi) as (i' & Hi' & T & _).
  exists i'. by rewrite (it_period _ _ T), (it_amount _ _ T).
Qed.
Lemma listed_undone id p : op_ok D (IntSql (ListCapitalizationItems p)) (fun _ => True)
  (fun res w => match res with
                | inr l => owes_nothing w id p -> forallb (fun kr => item_done kr.2) l = false
                | inl _ => True end).
Proof.
  apply (int_read_ok s _ (fun l w => owes_nothing w id p -> forallb (fun kr => item_done kr.2) l = false)).
  intros w I (i & Hi & Hp & Hz). apply not_true_iff_false. rewrite forallb_forall. intros H.
  assert (Hin : In (id, i) (by_keys (fun r => (Z.of_N (ci_EnrollmentID r.2), 0))
    (rows_where (fun _ r => bool_decide (ci_PeriodID r = p)) (interest_capitalization_items (iw_db w))))).
  { apply list_elem_of_In, elem_of_by_keys, elem_of_rows_where. split; [exact Hi|by apply bool_decide_eq_true]. }
  apply H in Hin. simpl in Hin. unfold item_done in Hin. rewrite (ix_zero _ _ (ii_item _ _ I _ _ Hi) Hz) in Hin. done.
Qed.
Lemma refuses_close_body id p row actor w : owes_nothing w id p -> refuses (close_body x s (p, row) actor) w.
Proof.
  intros Hz. unfold close_body. apply refuses_then.
  { apply fine_write. intros ic v u d I. by apply EnsureItems_good. }
  intros _ w1 L1. eapply refuses_after; [by eapply safe_op; [apply (ListCapitalizationItems_ok s)|]|].
  intros items w2 L2 Hi. apply (refuses_after _ _ (fun _ _ => True)).
  { eapply safe_weaken; [by apply safe_capitalize_items|by intros []]. }
  intros _ w3 L3 _. eapply refuses_after; [by eapply safe_op; [apply (listed_undone id)|]|].
  intros final w4 L4 Hd. simpl in Hd. rewrite Hd; [apply refuses_here|].
  eapply owes_nothing_le; [exact L4|]. eapply owes_nothing_le; [exact L3|]. eapply owes_nothing_le; [exact L2|].
  by eapply owes_nothing_le.
Qed.
Lemma refuses_close id p actor w : owes_nothing w id p -> refuses (ClosePeriod x s p actor) w.
Proof.
  intros Hz. unfold ClosePeriod. case_bool_decide; [apply refuses_here|].
  apply refuses_then; [apply GetPeriod_fine|]. intros c w1 L1. destruct (closed c); [apply refuses_here|].
  apply refuses_then; [apply PreviewPeriodClose_fine|]. intros pv w2 L2. destruct (negb _); [apply refuses_here|].
  apply refuses_then; [apply GetPeriod_fine|]. intros q w3 L3. apply refuses_then; [apply set_period_status_fine|]. intros _ w4 L4.
  apply safe_bind. eapply safe_weaken.
  { apply (refuses_close_body id). eapply owes_nothing_le; [exact L4|]. eapply owes_nothing_le; [exact L3|].
    eapply owes_nothing_le; [exact L2|]. by eapply owes_nothing_le. }
  intros r w5 _ [err ->]. unfold failClose. apply safe_bind. eapply safe_weaken; [apply set_period_status_fine|]. intros. by exists err.
Qed.
Context (Hloc : forall t, 0 <= sv_loc s t < Day).

(** C15: Interest is exact, once a day: in every reachable state each saved calculation
    applies a rate of the enrollment's product in force that day to the part of the
    balance the product remunerates, opening carry plus numerator being the recognised
    amount times 3,650,000 plus the closing carry; an enrollment has one row a day;
    the ledger holds at most one accrual of a day, commanded for that row with such an
    amount; and a day finished as posted names that transaction. *)
Theorem interest_is_exact_and_posted_once w ps : int_reachable x s (w, ps) ->
  (forall id r c, accrual w id = Some r -> da_calc r = Some c -> calc_true w r c) /\
  (forall id r id' r', accrual w id = Some r -> accrual w id' = Some r' ->
     da_EnrollmentID r = da_EnrollmentID r' -> da_AccrualDate r = da_AccrualDate r' -> id = id') /\
  (forall e day tx, under_key (iw_ledger w) (liability_text e day) (uuid_string e) tx ->
     (forall tx', under_key (iw_ledger w) (liability_text e day) (uuid_string e) tx' -> tx' = tx) /\
     exists id r p c date, accrual w id = Some r /\ da_EnrollmentID r = e /\ da_AccrualDate r = day /\
       calc_true w r c /\ ac_RecognizedAmount c <> 0 /\
       liability_command s e (da_AccountID r) p (ac_AnnualRateBps c) (ac_RecognizedAmount c) date ∈ iw_sent w) /\
  (forall id r, accrual w id = Some r -> wk_Status (da_work r) = "completed_posted" -> 0 < recognized r ->
     exists tx, wk_LedgerTransactionID (da_work r) = Some tx /\
       keyed (iw_ledger w) (liability_text (da_EnrollmentID r) (da_AccrualDate r)) (uuid_string (da_EnrollmentID r)) tx).
Proof.
  intros I%int_reachable_inv; [|done]. split_and!.
  - intros id r c Hr. by apply (ax_calc _ _ (ii_accrual _ _ I id r Hr)).
  - apply I.
  - intros e day tx Ht. split; [intros tx' [Ht' _]; destruct Ht; eapply keyed_unique; [apply I|done..]|].
    destruct (origin_liability w e day tx I Ht) as (id & r & p & c & Hr & He & Hd & Hc & Hn & date & _ & Hs).
    by exists id, r, p, c, date.
  - intros id r Hr. apply (ax_posted _ _ (ii_accrual _ _ I id r Hr)).
Qed.

(** C16: What is capitalized is what was recorded, once: in every reachable state an
    enrollment has one capitalization item a month, of an amount that never changes
    once recorded; whatever the ledger has posted under the key of a month and an
    enrollment is the only transaction under it, and was commanded for that item, its
    account and its amount; and an item finished as posted names that transaction. *)
Theorem capitalization_pays_the_recorded_amount_once w ps w' ps' :
  int_reachable x s (w, ps) -> rtc (sys_step int_step (int_entry x s) int_env) (w, ps) (w', ps') ->
  (forall id i, item w id = Some i -> exists i', item w' id = Some i' /\ item_terms i i' /\
     (wk_Status (ci_work i') = "posted" ->
      exists tx, wk_LedgerTransactionID (ci_work i') = Some tx /\
        keyed (iw_ledger w') (capitalize_key (ci_EnrollmentID i) (ci_PeriodID i)) (uuid_string (ci_PeriodID i)) tx)) /\
  (forall e p tx, under_key (iw_ledger w') (capitalize_key e p) (uuid_string p) tx ->
     (forall tx', under_key (iw_ledger w') (capitalize_key e p) (uuid_string p) tx' -> tx' = tx) /\
     exists id i actor, item w' id = Some i /\ ci_EnrollmentID i = e /\ ci_PeriodID i = p /\
       0 < ci_CapitalizationAmount i /\
       capitalize_command e (ci_AccountID i) p (ci_CapitalizationAmount i) actor ∈ iw_sent w' /\
       forall id' i', item w' id' = Some i' -> ci_PeriodID i' = p -> ci_EnrollmentID i' = e -> id' = id).
Proof.
  intros Hr Hs. assert (L := int_steps_le _ _ Hloc _ _ Hr Hs). cbn [fst] in L. assert (Hr' : int_reachable x s (w', ps')).
  { destruct Hr as (c0 & H0 & Hs0). exists c0. split; [done|]. by transitivity (w, ps). }
  apply int_reachable_inv in Hr' as I; [|done]. split.
  - intros id i Hi. destruct (il_item _ _ L _ _ Hi) as (i' & Hi' & T & _). exists i'. split_and!; [done..|].
    rewrite <- (it_enrollment _ _ T), <- (it_period _ _ T). apply (ix_posted _ _ (ii_item _ _ I id i' Hi')).
  - intros e p tx Ht. split; [intros tx' [Ht' _]; destruct Ht; eapply keyed_unique; [apply I|done..]|].
    destruct (origin_capitalize w' e p tx I Ht) as (id & i & actor & Hi & He & Hp & Hn & Hc).
    exists id, i, actor. pose proof (ix_amount _ _ (ii_item _ _ I id i Hi)). split_and!; [done..|lia|done|].
    intros id' i' Hi' Hp' He'. eapply (ii_month _ _ I); [exact Hi'|exact Hi|congruence..].
Qed.

(** C20: A closed month is frozen: from the moment a period is closed, in every later
    state of every interleaving, its row is the same, every daily accrual and every
    capitalization item it had is the same, and no accrual is added to it. *)
Theorem closed_month_is_frozen w ps w' ps' p row :
  int_reachable x s (w, ps) -> rtc (sys_step int_step (int_entry x s) int_env) (w, ps) (w', ps') ->
  period w p = Some row -> ip_Status row = "closed" ->
  period w' p = Some row /\
  (forall id r, da_PeriodID r = p -> accrual w' id = Some r <-> accrual w id = Some r) /\
  (forall id i, ci_PeriodID i = p -> item w id = Some i -> item w' id = Some i).
Proof.
  intros Hr Hs Hp Hc. assert (L := int_steps_le _ _ Hloc _ _ Hr Hs). cbn [fst] in L.
  assert (Hcl : is_closed w p) by (apply is_closed_period; eauto). split_and!.
  - by apply (il_period _ _ L).
  - intros id r <-. split; intros H; [by apply (il_new _ _ L)|].
    destruct (il_accrual _ _ L _ _ H) as (r' & Hr' & _ & E). by rewrite Hr', E.
  - intros id i <- H. destruct (il_item _ _ L _ _ H) as (i' & Hi' & _ & E). by rewrite Hi', E.
Qed.

(** C21: A correction takes two people: in every reachable state whatever the ledger
    has posted under the key of a correction is the only transaction under it, and was
    commanded for a correction of that id, approved by somebody other than whoever
    asked for it, with its amount and direction on the account of its enrollment; a
    correction marked posted names that transaction. *)
Theorem corrections_take_two_people w ps : int_reachable x s (w, ps) ->
  (forall id tx, under_key (iw_ledger w) (correction_key id) (correction_key id) tx ->
     (forall tx', under_key (iw_ledger w) (correction_key id) (correction_key id) tx' -> tx' = tx) /\
     exists r who e, correction w id = Some r /\ cr_ApprovedBy r = Some who /\ who <> cr_CreatedBy r /\
       0 < cr_Amount r /\ enrollment w (cr_EnrollmentID r) = Some e /\ correction_command id r e ∈ iw_sent w) /\
  (forall id r, correction w id = Some r -> cr_Status r = "posted" ->
     exists tx, cr_LedgerTransactionID r = Some tx /\ keyed (iw_ledger w) (correction_key id) (correction_key id) tx).
Proof.
  intros I%int_reachable_inv; [|done]. split.
  - intros id tx Ht. split; [intros tx' [Ht' _]; destruct Ht; eapply keyed_unique; [apply I|done..]|].
    destruct (origin_correction w id tx I Ht) as (r & who & e & Hr & (Ha & Hne & _) & He & Hc).
    exists r, who, e. split_and!; try done. pose proof (kx_row _ _ _ (ii_correction _ _ I id r Hr)) as Hok.
    unfold correction_row_ok in Hok. rewrite !andb_true_iff in Hok.
    destruct Hok as [[[Hok _] _] _]. by apply Z.ltb_lt.
  - intros id r Hr. apply (kx_posted _ _ _ (ii_correction _ _ I id r Hr)).
Qed.

(** C39: A month that owes one enrollment nothing never closes: once a period has a
    capitalization item of amount zero, closing it is refused in every state from
    then on, whatever else runs before and between its steps: the item stays pending,
    since only a claimed item may be completed and a zero item is never claimed. *)
Theorem a_zero_item_blocks_the_close w ps id i actor :
  int_reachable x s (w, ps) -> item w id = Some i -> ci_CapitalizationAmount i = 0 ->
  ci_work i = new_work /\
  safe (int_discipline s) (ClosePeriod x s (ci_PeriodID i) actor) (fun r _ => exists err, r = inl err) w /\
  (forall r w', runs int_step (ClosePeriod x s (ci_PeriodID i) actor) w r w' -> exists err, r = inl err).
Proof.
  intros I%int_reachable_inv Hi Hz; [|done]. assert (Hs : refuses (ClosePeriod x s (ci_PeriodID i) actor) w).
  { apply (refuses_close id). by exists i. }
  split; [by apply (ix_zero _ _ (ii_item _ _ I id i Hi))|]. split; [exact Hs|]. intros r w' Hrun.
  by destruct (safe_runs (int_discipline s) _ _ _ _ _ I Hs Hrun) as (_ & _ & H).
Qed.
End reachable.

(** ** Running on the specification ledger *)
#[local] Existing Instance QDecimal.decimal.
#[local] Existing Instance NumUuid.uuid_text.
#[local] Instance jakarta_only : Zones := fun _ => Some Jakarta.
Notation sworld := (iworld (LED := SpecLedger)).
(** 2 February 2024, once January may be closed. *)
Definition run_time : Z := 19755 * Day.
Section at_time.
Context (now : Z).
Definition int_run_choice : int_choice := IntChoice (DbChoice now 0 ∅ 0 false) (fun e => (e + 500)%N).
Definition int_run_id (w : sworld) : uuid :=
  N.of_nat (50 + size (interest_periods (iw_db w)) + 10 * size (interest_daily_accruals (iw_db w))
            + 100 * size (interest_adjustments (iw_db w)) + 1000 * length (policy_decisions (iw_exec w))).
Definition lost_call : error := Plain "connection lost".
(** A failing statement has no effect; a failing post has, and its answer is lost. *)
Definition int_respond_exec B (fails : bool) (o : exec_call B) : sworld -> B * sworld :=
  match o with
  | ExecSql q => fun w =>
      if fails then (inl lost_call, w)
      else match q (ic_ch int_run_choice) (iw_exec w) with
           | inl e => (inl e, w) | inr (a, d) => (inr a, set_iexec w d) end
  | NewUUID => fun w => (int_run_id w, w)
  | Clock => fun w => (now, w)
  | CheckPolicy _ _ _ _ => fun w => (inr (true, EmptyString, EmptyString), w)
  | RecordUsage _ _ _ _ => fun w => (tt, w)
  | HandleCommand c => fun w =>
      let '(r, l) := spec_post c (iw_ledger w) in
      (if fails then Some lost_call else r, IWorld (LED := SpecLedger) (iw_db w) (iw_exec w) l (c :: iw_sent w))
  end.
Definition int_respond B (fails : bool) (o : int_call B) : sworld -> B * sworld :=
  match o with
  | IntSql q => fun w =>
      if fails then (inl lost_call, w)
      else match q int_run_choice (iw_db w) with
           | inl e => (inl e, w) | inr (a, d) => (inr a, set_db w d) end
  | IntExec o => int_respond_exec _ fails o
  | LookupTransaction key scope => fun w =>
      (match sl_keys (iw_ledger w) !! (key, scope) with Some tx => inr tx | None => inl ErrNoRows end, w)
  end.
Lemma int_respond_step B fails (o : int_call B) w :
  int_step B o w (int_respond B fails o w).1 (int_respond B fails o w).2.
Proof.
  destruct o as [A q|A o|key scope]; simpl.
  - destruct fails; [right; by eauto|].
    destruct (q int_run_choice (iw_db w)) as [e|[a d]] eqn:E; [right; by eauto|].
    left. exists int_run_choice, a, d. simpl. auto.
  - destruct o; simpl; try done.
    + destruct fails; [right; by eauto|].
      destruct (s _ (iw_exec w)) as [e|[a d]] eqn:E; [right; by eauto|]. left. eexists _, a, d. simpl. eauto.
    + destruct (spec_post c (iw_ledger w)) as [r l] eqn:E. exists l. split; [|done]. left. rewrite E.
      split; [done|]. destruct fails; [by right; eexists|by left].
  - split; [done|]. by destruct (sl_keys _ !! _) eqn:E.
Qed.

End at_time.

(** One savings product at 10 % a year, two accounts, one day of January. *)
Definition demo_savings : InterestService := MkService Jakarta true true.
Definition jan31 : Z := 19753.
Definition demo_accounts : gmap uuid account_view :=
  {[7%N := AccountView "active" "IDR" "savings"; 8%N := AccountView "active" "IDR" "savings"]}.
Definition demo_snapshots : gmap (uuid * Z) (uuid * Z) :=
  {[(7%N, jan31) := (90%N, 36500000); (8%N, jan31) := (91%N, 0)]}.
Definition int_start : sworld :=
  IWorld (LED := SpecLedger) (InterestDb ∅ ∅ ∅ ∅ ∅ ∅ ∅ ∅ ∅ demo_snapshots demo_accounts [])
    (ExecDb ∅ []) (SpecState ∅ ∅ 100%N) [].
Definition demo_product : product_row :=
  ProductRow "SAVE" "IDR" ["savings"] "active" "Asia/Jakarta" 0 1 "alice" "alice".
Definition demo_rate : rate_row :=
  RateRow 1%N 1000 "draft" 19700 None "h" "alice" None None None None.
Definition demo_enrollment (account : uuid) : enrollment_row :=
  EnrollmentRow 1%N account 5%N "active" "monthly_liability_capitalization" jan31 None 0 DailyDenominator 1 "alice" "alice" 0.
Definition setup : list (Flow.prog int_call unit * list bool) :=
  [(logged (perform (IntSql (CreateProduct 1%N demo_product))), []);
   (logged (perform (IntSql (CreateRate 2%N demo_rate))), []);
   (logged (perform (IntSql (SubmitRate 2%N "alice"))), []);
   (logged (perform (IntSql (ApproveRate 2%N "bob"))), []);
   (logged (perform (IntSql (CreateEnrollment 3%N (demo_enrollment 7%N)))), [])].
Definition daily (faults : list bool) : Flow.prog int_call unit * list bool :=
  (RunDaily demo_executor demo_savings 2 (jan31 * Day), faults).
Definition close (period : uuid) : Flow.prog int_call unit * list bool :=
  (logged (ClosePeriod demo_executor demo_savings period "bob"), []).
Definition int_run (ps : list (Flow.prog int_call unit * list bool)) : sworld := exec_all (int_respond run_time) ps int_start.
Definition after (w : sworld) (ps : list (Flow.prog int_call unit * list bool)) : sworld := exec_all (int_respond run_time) ps w.
Definition jan_posted : sworld := int_run (setup ++ [daily []]).
Definition jan_closed : sworld := after jan_posted [close 50%N].
(** What a period, its accruals and its items have come to. *)
Definition month_of (w : sworld) : option (string * Z * Z) :=
  (fun p => (ip_Status p, ip_TotalAccruedAmount p, ip_TotalCapitalizedAmount p)) <$> interest_periods (iw_db w) !! 50%N.
Definition day_states (w : sworld) : list (string * option uuid) :=
  (fun r => (wk_Status (da_work r.2), wk_LedgerTransactionID (da_work r.2))) <$> map_to_list (interest_daily_accruals (iw_db w)).
Definition item_states (w : sworld) : list (Z * string * option uuid) :=
  (fun r => (ci_CapitalizationAmount r.2, wk_Status (ci_work r.2), wk_LedgerTransactionID (ci_work r.2))) <$>
    map_to_list (interest_capitalization_items (iw_db w)).
(** Alice asks for a correction of the closed day, Bob approves it. *)
Definition demo_correction : correction_row :=
  CorrectionRow 50%N 3%N (Some 51%N) None 25 "positive" "pending_approval" "late deposit" "alice" None None.
Definition corrected : sworld :=
  after jan_closed [(logged (CreateCorrection demo_correction), []);
                    (logged (ApproveAdjustment demo_executor demo_savings 2061%N "alice"), []);
                    (logged (ApproveAdjustment demo_executor demo_savings 2061%N "bob"), [])].
(** A second enrollment that earns nothing. *)
Definition with_an_empty_account : sworld :=
  int_run (setup ++ [(logged (perform (IntSql (CreateEnrollment 4%N (demo_enrollment 8%N)))), []); daily []; close 50%N]).

Lemma demo_east t : 0 <= sv_loc demo_savings t < Day.
Proof. vm_compute. by split. Qed.
Lemma after_steps w ps : Forall (fun pf => int_entry demo_executor demo_savings pf.1) ps ->
  rtc (sys_step int_step (int_entry demo_executor demo_savings) int_env) (w, []) (after w ps, []).
Proof. apply exec_all_steps. intros. apply int_respond_step. Qed.
Lemma int_start_initial : int_initial (int_start, []).
Proof.
  split; [reflexivity|]. split; [split; intros k tx; intros; simpl in *; simplify_map_eq|].
  split; [|done]. intros k sc tx _ H. simpl in H. by rewrite lookup_empty in H.
Qed.
Lemma int_run_reachable ps : Forall (fun pf => int_entry demo_executor demo_savings pf.1) ps ->
  int_reachable demo_executor demo_savings (int_run ps, []).
Proof. intros He. exists (int_start, []). split; [apply int_start_initial|by apply after_steps]. Qed.
Lemma after_reachable w ps : int_reachable demo_executor demo_savings (w, []) ->
  Forall (fun pf => int_entry demo_executor demo_savings pf.1) ps -> int_reachable demo_executor demo_savings (after w ps, []).
Proof. intros (c0 & H0 & Hs) He. exists c0. split; [done|]. transitivity (w, [] : list (Flow.prog int_call unit)); [done|by apply after_steps]. Qed.
Lemma setup_entries : Forall (fun pf => int_entry demo_executor demo_savings pf.1) setup.
Proof. repeat constructor. Qed.
Lemma jan_posted_reachable : int_reachable demo_executor demo_savings (jan_posted, []).
Proof. apply int_run_reachable, Forall_app. split; [apply setup_entries|repeat constructor]. Qed.
Lemma jan_closed_reachable : int_reachable demo_executor demo_savings (jan_closed, []).
Proof. apply after_reachable; [apply jan_posted_reachable|repeat constructor]. Qed.

Lemma interest_is_exact_and_posted_once_witness :
  day_states jan_posted = [("completed_posted", Some 100%N)] /\
  exists r p c date, accrual jan_posted 51%N = Some r /\ calc_true jan_posted r c /\
    liability_command demo_savings 3%N (da_AccountID r) p (ac_AnnualRateBps c) (ac_RecognizedAmount c) date ∈ iw_sent jan_posted.
Proof.
  split; [vm_compute; reflexivity|].
  assert (Ht : under_key (LED := SpecLedger) (iw_ledger jan_posted) (liability_text 3%N jan31) (uuid_string 3%N) 100%N).
  { split; [vm_compute; reflexivity|]. exists (liability_text 3%N jan31, uuid_string 3%N). vm_compute. reflexivity. }
  destruct (interest_is_exact_and_posted_once demo_executor demo_savings demo_east _ _ jan_posted_reachable)
    as (_ & Hday & Hpost & _).
  destruct (Hpost 3%N jan31 100%N Ht) as (_ & id & r & p & c & date & Hr & He & Hd & Hc & _ & Hs).
  assert (H51 : exists r1, accrual jan_posted 51%N = Some r1 /\ da_EnrollmentID r1 = 3%N /\ da_AccrualDate r1 = jan31).
  { eexists. split; [vm_compute; reflexivity|]. split; reflexivity. }
  destruct H51 as (r1 & Hr1 & He1 & Hd1). assert (E : id = 51%N).
  { apply (Hday id r 51%N r1 Hr Hr1); [by rewrite He, He1|by rewrite Hd, Hd1]. }
  subst id. exists r, p, c, date. split; [exact Hr|]. split; [exact Hc|exact Hs].
Defined.
Lemma capitalization_pays_the_recorded_amount_once_witness :
  item_states jan_closed = [(10000, "posted", Some 101%N)] /\
  exists id i actor, item jan_closed id = Some i /\
    capitalize_command 3%N (ci_AccountID i) 50%N (ci_CapitalizationAmount i) actor ∈ iw_sent jan_closed.
Proof.
  split; [vm_compute; reflexivity|].
  assert (Ht : under_key (LED := SpecLedger) (iw_ledger jan_closed) (capitalize_key 3%N 50%N) (uuid_string 50%N) 101%N).
  { split; [vm_compute; reflexivity|]. exists (capitalize_key 3%N 50%N, uuid_string 50%N). vm_compute. reflexivity. }
  destruct (capitalization_pays_the_recorded_amount_once demo_executor demo_savings demo_east _ _ jan_closed [] jan_posted_reachable
              (after_steps jan_posted [close 50%N] ltac:(repeat constructor))) as [_ H].
  destruct (H 3%N 50%N 101%N Ht) as (_ & id & i & actor & Hi & _ & _ & _ & Hc & _). exists id, i, actor.
  split; [exact Hi|exact Hc].
Defined.
(** Another daily run of January, after the close. *)
Lemma closed_month_is_frozen_witness :
  month_of jan_closed = Some ("closed", 10000, 10000) /\
  exists row, period jan_closed 50%N = Some row /\ period (after jan_closed [daily []; close 50%N]) 50%N = Some row.
Proof.
  split; [vm_compute; reflexivity|].
  assert (Hp : exists row, period jan_closed 50%N = Some row /\ ip_Status row = "closed").
  { eexists. split; [vm_compute; reflexivity|reflexivity]. }
  destruct Hp as (row & Hp & Hc). exists row. split; [exact Hp|].
  exact (proj1 (closed_month_is_frozen demo_executor demo_savings demo_east _ _ _ [] 50%N row jan_closed_reachable
                  (after_steps jan_closed [daily []; close 50%N] ltac:(repeat constructor)) Hp Hc)).
Defined.
(** Alice cannot approve what she asked for; Bob can. *)
Lemma corrected_reachable : int_reachable demo_executor demo_savings (corrected, []).
Proof. apply after_reachable; [apply jan_closed_reachable|repeat constructor]. Qed.
Lemma corrections_take_two_people_witness :
  exists r who, correction corrected 2061%N = Some r /\ cr_ApprovedBy r = Some who /\ who <> cr_CreatedBy r /\ 0 < cr_Amount r.
Proof.
  assert (Ht : under_key (LED := SpecLedger) (iw_ledger corrected) (correction_key 2061%N) (correction_key 2061%N) 102%N).
  { split; [vm_compute; reflexivity|]. exists (correction_key 2061%N, correction_key 2061%N). vm_compute. reflexivity. }
  destruct (corrections_take_two_people demo_executor demo_savings demo_east _ _ corrected_reachable) as [H _].
  destruct (H 2061%N 102%N Ht) as (_ & r & who & e & Hr & Ha & Hne & Hpos & _). exists r, who.
  split; [exact Hr|]. split; [exact Ha|]. split; [exact Hne|exact Hpos].
Defined.
Lemma with_an_empty_account_reachable : int_reachable demo_executor demo_savings (with_an_empty_account, []).
Proof. apply int_run_reachable, Forall_app. split; [apply setup_entries|repeat constructor]. Qed.
(** The other enrollment is paid, and the month fails for good. *)
Lemma a_zero_item_blocks_the_close_witness :
  month_of with_an_empty_account = Some ("failed", 10000, 10000) /\
  item_states with_an_empty_account = [(0, "pending", None); (10000, "posted", Some 101%N)] /\
  exists id i, item with_an_empty_account id = Some i /\ ci_CapitalizationAmount i = 0 /\
    forall r w', runs int_step (ClosePeriod demo_executor demo_savings (ci_PeriodID i) "bob") with_an_empty_account r w' ->
      exists err, r = inl err.
Proof.
  split; [vm_compute; reflexivity|]. split; [vm_compute; reflexivity|].
  assert (Hi : exists i, item with_an_empty_account 504%N = Some i /\ ci_CapitalizationAmount i = 0).
  { eexists. split; [vm_compute; reflexivity|reflexivity]. }
  destruct Hi as (i & Hi & Hz). exists 504%N, i. split; [exact Hi|]. split; [exact Hz|].
  destruct (a_zero_item_blocks_the_close demo_executor demo_savings demo_east _ _ 504%N i "bob" with_an_empty_account_reachable Hi Hz)
    as (_ & _ & H). exact H.
Defined.

(** ** A worker that outlives its lease
    FailDailyAccrual asks neither for the lease nor for the status: a worker whose
    lease expired undoes the day another worker has finished, and the retry adds its
    interest to the month once more, which then never reconciles. *)
Definition lease_over : Z := run_time + 10 * Minute.
Definition slow_worker : Flow.prog int_call unit * sworld :=
  exec_part (int_respond run_time) 11 (daily []).1 [] (int_run setup).
Definition second_worker : sworld := (exec (int_respond lease_over) (daily []).1 [] slow_worker.2).2.
Definition late_failure : sworld := (exec (int_respond lease_over) slow_worker.1 [true] second_worker).2.
Definition retried_day : sworld :=
  after late_failure [(logged (RetryPeriodItem 51%N), []); daily []; close 50%N].
Lemma late_failure_reachable : int_reachable demo_executor demo_savings (late_failure, []).
Proof.
  exists (int_start, []). split; [apply int_start_initial|].
  etransitivity; [apply (after_steps int_start setup), setup_entries|].
  assert (Hd : int_entry demo_executor demo_savings (daily []).1) by constructor.
  eapply rtc_l; [apply ss_start, Hd|]. etransitivity.
  { apply (exec_part_steps _ _ (int_respond_step run_time) _ _ 11 (daily []).1 [] (int_run setup) []). }
  eapply rtc_l; [apply ss_start, Hd|]. etransitivity.
  { apply (exec_steps _ _ (int_respond_step lease_over) _ _ (daily []).1 []). }
  eapply rtc_l; [apply (ss_stop _ _ _ _ [] _ [slow_worker.1])|]. etransitivity.
  { apply (exec_steps _ _ (int_respond_step lease_over) _ _ slow_worker.1 [true] second_worker []). }
  apply rtc_once, (ss_stop _ _ _ _ [] _ []).
Qed.
Lemma a_late_failure_counts_a_day_twice :
  int_reachable demo_executor demo_savings (retried_day, []) /\
  (day_states second_worker, month_of second_worker) = ([("completed_posted", Some 100%N)], Some ("open", 10000, 0)) /\
  day_states late_failure = [("blocked", Some 100%N)] /\
  (day_states retried_day, month_of retried_day, item_states retried_day) =
    ([("completed_posted", Some 100%N)], Some ("failed", 20000, 10000), [(10000, "posted", Some 101%N)]).
Proof.
  split; [apply after_reachable; [apply late_failure_reachable|repeat constructor]|].
  split_and!; vm_compute; reflexivity.
Qed.
