(* ===== verification/Progress.v ===== *)
(** * Progress: what a healthy database cannot refuse

    [settles m w Q]: from the world [w], [m] returns a value and leaves a world
    with [Q]; a total-correctness reading of the monad, with one rule per
    construct.  The repository operations settle whenever their constraints
    hold, so that the theorem about [Handle] is that a command passes, not
    only what follows if it does. *)
From stdpp Require Import prelude gmap strings list sorting.
From S2P Require Import Prelude Decimal Errors Currency Events Store TxRepo Repos AccountRepo.
From S2P Require Import Fee Processors Handle Frames Lawful Postings Invariant Engine.
From Stdlib Require Import QArith Lqa.
Open Scope Z_scope.

(** ** Worlds where no call fails *)
Record healthy (w : world) : Prop := { hl_calls : w_calls w = []; hl_open : w_aborted w = false }.

(** The generator may only have moved forward. *)
Record later (w w' : world) : Prop := {
  lt_healthy : healthy w';
  lt_ids : w_ids w' = w_ids w;
  lt_next : (w_next_id w <= w_next_id w')%nat;
}.

Lemma later_refl w : healthy w -> later w w.
Proof. by split. Qed.
Lemma later_trans w1 w2 w3 : later w1 w2 -> later w2 w3 -> later w1 w3.
Proof. intros [? E1 ?] [? E2 ?]. split; [done|congruence|lia]. Qed.
Lemma later_set_db w d : healthy w -> later w (set_db w d).
Proof. intros [? ?]. by split. Qed.
#[export] Hint Resolve later_refl later_set_db lt_healthy : ledger.

Definition settles {A} (m : M A) (w : world) (Q : A -> world -> Prop) : Prop :=
  exists a w', m w = (Ok a, w') /\ later w w' /\ Q a w'.

(** *** The rules *)
Section rules.
Context {A B : Type}.
Implicit Types (Q : A -> world -> Prop).

Lemma settles_ret (a : A) w Q : healthy w -> Q a w -> settles (ret a) w Q.
Proof. intros. exists a, w. auto with ledger. Qed.

Lemma settles_bind (m : M A) (f : A -> M B) w Q (R : B -> world -> Prop) :
  settles m w Q -> (forall a w1, later w w1 -> Q a w1 -> settles (f a) w1 R) ->
  settles (bind m f) w R.
Proof.
  intros (a & w1 & Hm & Hl & HQ) Hf. destruct (Hf a w1 Hl HQ) as (b & w2 & E & Hl2 & HR).
  exists b, w2. unfold bind. rewrite Hm. split_and!; [done|by eapply later_trans|done].
Qed.

Lemma settles_mono (m : M A) w Q Q' :
  settles m w Q -> (forall a w1, later w w1 -> Q a w1 -> Q' a w1) -> settles m w Q'.
Proof. intros (a & w1 & ? & ? & ?) Himp. exists a, w1. auto. Qed.

Lemma settles_wrap c (m : M A) w Q : settles m w Q -> settles (wrap c m) w Q.
Proof. intros (a & w1 & E & ?). exists a, w1. unfold wrap. by rewrite E. Qed.

Lemma settles_try (m : M A) w Q :
  settles m w Q -> settles (try m) w (fun r w' => exists a, r = inr a /\ Q a w').
Proof.
  intros (a & w1 & E & ? & ?). exists (inr a), w1. unfold try. rewrite E. eauto 6.
Qed.

(** The run itself, for the lemmas that invert it. *)
Lemma settles_run (m : M A) w Q :
  settles m w Q -> settles m w (fun a w' => m w = (Ok a, w') /\ Q a w').
Proof. intros (a & w1 & ? & ? & ?). exists a, w1. auto. Qed.

Lemma settles_lift (r : result A) a w Q : r = Ok a -> healthy w -> Q a w -> settles (lift r) w Q.
Proof. intros -> ? ?. exists a, w. auto with ledger. Qed.

Lemma settles_stmt (f : database -> Z -> error + (A * database)) w a d Q :
  healthy w -> f (w_db w) (w_tx_now w) = inr (a, d) -> Q a (set_db w d) -> settles (stmt f) w Q.
Proof.
  intros Hw Hf HQ. exists a, (set_db w d). split_and!; [|auto with ledger|done].
  destruct Hw as [Hc Ha]. unfold stmt, next_call. by rewrite Hc, Ha, Hf.
Qed.

Lemma settles_query (f : database -> Z -> A) w Q :
  healthy w -> Q (f (w_db w) (w_tx_now w)) w -> settles (query f) w Q.
Proof.
  intros Hw HQ. unfold query. eapply settles_stmt; [done|done|]. by destruct w.
Qed.
End rules.

Lemma settles_scan_row {A} (m : M (option A)) w (Q : A -> world -> Prop) :
  settles m w (fun r w' => exists a, r = Some a /\ Q a w') -> settles (scan_row m) w Q.
Proof.
  intros H. eapply settles_bind; [exact H|]. intros ? w1 Hl (a & -> & HQ).
  apply settles_ret; [by eauto with ledger|done].
Qed.

Lemma settles_ignore (m : M unit) w Q : settles m w Q -> settles (ignore_error m) w Q.
Proof.
  intros H. eapply settles_bind; [by apply settles_try|]. intros ? w1 Hl ([] & -> & HQ).
  apply settles_ret; [by eauto with ledger|done].
Qed.

Lemma settles_NewV7 w (Q : uuid -> world -> Prop) :
  healthy w -> Q (w_ids w (w_next_id w)) (set_ids w (S (w_next_id w))) -> settles NewV7 w Q.
Proof.
  intros [? ?] HQ. eexists _, _. split_and!; [reflexivity| |done]. split; simpl; [done|done|lia].
Qed.

(** ** Fresh identifiers *)

(** The generator repeats nothing and nothing in the database bears an
    identifier it has not given yet. *)
Record fresh_ids (w : world) : Prop := {
  fr_inj i j : w_ids w i = w_ids w j -> i = j;
  fr_header n : (w_next_id w <= n)%nat -> ledger_transactions (w_db w) !! w_ids w n = None;
  fr_entry n e : (w_next_id w <= n)%nat -> e ∈ ledger_entries (w_db w) -> e_id e <> w_ids w n;
  fr_posted n e :
    (w_next_id w <= n)%nat -> e ∈ ledger_entries (w_db w) -> e_transaction_id e <> w_ids w n;
  fr_event n o : (w_next_id w <= n)%nat -> o ∈ outbox_events (w_db w) -> o_id o <> w_ids w n;
}.

(** Given in [w], to be used in any later world. *)
Definition issued (w w' : world) (id : uuid) : Prop :=
  exists n, (w_next_id w <= n < w_next_id w')%nat /\ id = w_ids w n.

(** ** The repositories *)
Section repositories.
Context `{DEC : !Decimal} `{UT : !UuidText} `{HASH : !Hashing}.

(** *** Entries as the ledger will store them, without identifiers *)
Definition draft (tx : uuid) (e : EntryInstruction) : entry_row :=
  EntryRow 0%N tx (ei_AccountID e) (ei_Direction e) (default 0 (dec_bigint (ei_Amount e))) 0 (ei_Note e).
Definition drafts (tx : uuid) (es : list EntryInstruction) : list entry_row := draft tx <$> es.

(** Amounts that a BIGINT column holds, and that are positive. *)
Definition sized (e : EntryInstruction) : Prop :=
  exists z, dec_bigint (ei_Amount e) = Some z /\ 0 < z.

Lemma drafts_match tx es : Forall sized es -> Forall2 (row_matches tx ∅) es (drafts tx es).
Proof.
  induction 1 as [|e es (z & Hz & Hp) _ IH]; [constructor|]. simpl. constructor; [|exact IH].
  split; simpl; rewrite ?Hz; try done. rewrite lookup_empty. simpl. by apply dec_bigint_of_Z.
Qed.

(** Rows of the same entries have the same account, direction and amount. *)
Lemma matches_same tx all all' es rows rows' :
  Forall2 (row_matches tx all) es rows -> Forall2 (row_matches tx all') es rows' ->
  debits rows = debits rows' /\ credits rows = credits rows'
  /\ forall a, computed_balance a rows = computed_balance a rows'.
Proof.
  intros H. revert rows'. induction H as [|e r es rows Hr _ IH]; intros rows' H';
    [by apply Forall2_nil_inv_l in H' as ->|].
  apply Forall2_cons_inv_l in H' as (r' & l' & Hr' & H' & ->).
  destruct (IH l' H') as (E1 & E2 & E3).
  assert (Em : e_amount r = e_amount r').
  { pose proof (rm_amount _ _ _ _ Hr). pose proof (rm_amount _ _ _ _ Hr'). congruence. }
  unfold debits, credits, computed_balance, entry_delta, entry_signed in *. simpl.
  rewrite (rm_direction _ _ _ _ Hr), (rm_direction _ _ _ _ Hr'), (rm_account _ _ _ _ Hr),
    (rm_account _ _ _ _ Hr'), Em, E1, E2.
  split_and!; [done|done|]. intros a. by rewrite E3.
Qed.

(** *** The posting function *)
Lemma posting_payload_settles es bal w :
  healthy w -> fresh_ids w ->
  settles (posting_payload es bal) w (fun pl w' => w_db w' = w_db w
    /\ Forall2 (payload_matches bal) es pl /\ NoDup (pe_ID <$> pl)
    /\ Forall (issued w w') (pe_ID <$> pl)).
Proof.
  intros Hw Hf. pose proof (fr_inj w Hf) as Hinj. clear Hf. revert w Hw Hinj.
  induction es as [|e es IH]; intros w Hw Hinj; simpl.
  - apply settles_ret; [done|]. by split_and!; repeat constructor.
  - eapply settles_bind.
    { by apply (settles_NewV7 w (fun id w1 => id = w_ids w (w_next_id w)
        /\ w1 = set_ids w (S (w_next_id w)))). }
    intros id w1 Hl [-> ->]. eapply settles_bind; [apply IH; [by destruct Hl|exact Hinj]|].
    intros rest w2 Hl2 (E & Hm & Hnd & His). apply settles_ret; [by eauto with ledger|].
    assert (Hn := lt_next _ _ Hl2). simpl in Hn.
    split_and!; [done|constructor; [done|exact Hm]| |]; simpl.
    + constructor; [|exact Hnd]. intros Hin. rewrite Forall_forall in His.
      destruct (His _ Hin) as (n & Hrange & Heq). apply Hinj in Heq. simpl in Hrange. lia.
    + constructor; [exists (w_next_id w); split; [lia|done]|].
      eapply Forall_impl; [exact His|]. intros i (n & Hr & ->). exists n.
      simpl in *. split; [lia|done].
Qed.

Lemma validate_posting_settles tx bal es pl vd vc :
  Forall2 (payload_matches bal) es pl -> Forall sized es ->
  Forall (fun e => is_Some (dec_bigint (default dec_zero (bal !! ei_AccountID e)))) es ->
  0 <= vd -> 0 <= vc ->
  in_int64 (vd + debits (drafts tx es)) = true -> in_int64 (vc + credits (drafts tx es)) = true ->
  exists rows vd' vc', validate_posting tx pl vd vc = inr (rows, vd', vc')
    /\ e_id <$> rows = pe_ID <$> pl.
Proof.
  intros Hp. revert vd vc. induction Hp as [|e p es pl Hp _ IH]; intros vd vc Hs Hb Hd0 Hc0 Hd Hc;
    simpl; [by exists [], vd, vc|].
  apply Forall_cons in Hs as [(z & Hz & Hpos) Hs]. apply Forall_cons in Hb as [[after Ha] Hb].
  rewrite (pm_after _ _ _ Hp), (pm_amount _ _ _ Hp). unfold dec_bigint in Ha, Hz. rewrite Ha, Hz.
  rewrite (proj2 (Z.leb_gt _ _) Hpos). cbv zeta. rewrite (pm_direction _ _ _ Hp).
  assert (Hdr : forall l, Forall sized l ->
    0 <= debits (drafts tx l) /\ 0 <= credits (drafts tx l)).
  { unfold debits, credits. induction 1 as [|x l (y & Hy & ?) _ [? ?]]; simpl; [lia|].
    rewrite Hy. simpl. destruct (ei_Direction x); lia. }
  destruct (Hdr es Hs) as [? ?]. unfold debits, credits in *. simpl in Hd, Hc.
  unfold dec_bigint in Hd, Hc. rewrite Hz in Hd, Hc. simpl in Hd, Hc.
  set (vd1 := match ei_Direction e with Debit => vd + z | Credit => vd end).
  set (vc1 := match ei_Direction e with Debit => vc | Credit => vc + z end).
  assert (Hin : in_int64 vd1 = true /\ in_int64 vc1 = true).
  { rewrite !in_int64_spec in *. unfold vd1, vc1, min_int64, max_int64 in *.
    destruct (ei_Direction e); lia. }
  destruct Hin as [Hi1 Hi2]. rewrite Hi1, Hi2. simpl.
  destruct (IH vd1 vc1 Hs Hb) as (rows & vd' & vc' & -> & Eid).
  { unfold vd1. destruct (ei_Direction e); lia. }
  { unfold vc1. destruct (ei_Direction e); lia. }
  { rewrite in_int64_spec in *. unfold vd1. destruct (ei_Direction e); lia. }
  { rewrite in_int64_spec in *. unfold vc1. destruct (ei_Direction e); lia. }
  eexists _, _, _. split; [reflexivity|]. cbn. f_equal. exact Eid.
Qed.

(** Two entries of one transaction never share account and direction. *)
Definition entry_slot (e : EntryInstruction) : uuid * Direction := (ei_AccountID e, ei_Direction e).

Lemma entry_conflict_false e e' :
  e_id e <> e_id e' ->
  (e_transaction_id e <> e_transaction_id e'
   \/ (e_account_id e, e_direction e) <> (e_account_id e', e_direction e')) ->
  entry_conflict e e' = false.
Proof.
  intros Hid Hne. unfold entry_conflict. rewrite bool_decide_false by done. simpl.
  destruct Hne as [Ht|Hs]; [by rewrite bool_decide_false|].
  destruct (bool_decide (e_transaction_id e = _)); [simpl|done].
  case_bool_decide; [|done]. case_bool_decide; [|done]. simpl. congruence.
Qed.

Lemma insert_entry_rows_settles tx rows d :
  Forall (fun r => e_transaction_id r = tx) rows ->
  NoDup (e_id <$> rows) -> NoDup ((fun r => (e_account_id r, e_direction r)) <$> rows) ->
  (forall r e, r ∈ rows -> e ∈ ledger_entries d -> entry_conflict r e = false) ->
  (forall r, r ∈ rows -> entry_currency_ok d r = true) ->
  insert_entry_rows rows d = inr (with_entries d (ledger_entries d ++ rows)).
Proof.
  revert d. induction rows as [|r rows IH]; intros d Htx Hid Hslot Hc Hcur; simpl.
  - rewrite app_nil_r. by destruct d.
  - rewrite (Hcur r) by left. simpl. apply Forall_cons in Htx as [Er Htx].
    apply NoDup_cons in Hid as [Hni Hid].
    apply NoDup_cons in Hslot as [Hns Hslot].
    assert (Hno : existsb (entry_conflict r) (ledger_entries d) = false).
    { apply not_true_iff_false. intros (e & He%list_elem_of_In & Hx)%existsb_exists.
      rewrite (Hc r e) in Hx; [done|by left|done]. }
    rewrite Hno, IH; simpl; try done; [by rewrite <- app_assoc|..].
    + intros r' e Hr' [He| ->%list_elem_of_singleton]%elem_of_app; [apply Hc; [by right|done]|].
      apply entry_conflict_false.
      * intros E. apply Hni. rewrite <- E. by apply list_elem_of_fmap_2.
      * right. intros E. apply Hns. rewrite <- E.
        by apply (list_elem_of_fmap_2 (fun r => (e_account_id r, e_direction r))).
    + intros r' Hr'. apply Hcur. by right.
Qed.

(** What the posting function asks of the entries of one transaction. *)
Record postable (tx : uuid) (es : list EntryInstruction) (d : database) : Prop := {
  pt_nonempty : es <> [];
  pt_batch : (length es <= maxEntriesBatch)%nat;
  pt_sized : Forall sized es;
  pt_slots : NoDup (entry_slot <$> es);
  pt_balanced : debits (drafts tx es) = credits (drafts tx es);
  pt_range : in_int64 (debits (drafts tx es)) = true;
  pt_currency e : e ∈ es -> exists t a, ledger_transactions d !! tx = Some t /\
    accounts d !! ei_AccountID e = Some a /\ t_currency t = a_currency a;
}.

Lemma InsertEntries_settles tx es bal w :
  healthy w -> fresh_ids w -> postable tx es (w_db w) ->
  (forall e, e ∈ ledger_entries (w_db w) -> e_transaction_id e <> tx) ->
  Forall (fun e => is_Some (dec_bigint (default dec_zero (bal !! ei_AccountID e)))) es ->
  settles (EntryRepo_InsertEntries tx es bal) w (fun _ w' =>
    exists rows, Forall2 (row_matches tx bal) es rows /\
      w_db w' = with_entries (w_db w) (ledger_entries (w_db w) ++ rows)
      /\ Forall (issued w w') (e_id <$> rows)).
Proof.
  intros Hw Hf [Hne Hlen Hs Hslots Hb Hr Hcur] Hfresh Hbal. unfold EntryRepo_InsertEntries.
  rewrite bool_decide_false by done. rewrite (proj2 (Nat.ltb_ge _ _) Hlen).
  eapply settles_bind; [by apply posting_payload_settles|].
  intros pl w1 Hl (E1 & Hpl & Hnd & His).
  destruct (validate_posting_settles tx bal es pl 0 0) as (rows & vd & vc & Hv & Eid);
    try done; [by rewrite <- Hb|].
  destruct (validate_posting_Ok tx bal es pl 0 0 rows vd vc) as (HR & Ed & Ec & _); try done.
  destruct (matches_same _ _ _ _ _ _ HR (drafts_match tx es Hs)) as (Edr & Ecr & _).
  assert (Hins : insert_entry_rows rows (w_db w)
                 = inr (with_entries (w_db w) (ledger_entries (w_db w) ++ rows))).
  { apply (insert_entry_rows_settles tx).
    - apply Forall_forall. intros r (e & _ & Hm)%(matched_entry _ _ _ _ HR). apply (rm_tx _ _ _ _ Hm).
    - by rewrite Eid.
    - replace ((fun r => (e_account_id r, e_direction r)) <$> rows) with (entry_slot <$> es);
        [done|]. clear -HR. induction HR as [|e r es rows Hm _ IH]; [done|]. cbn. f_equal; [|exact IH].
      unfold entry_slot. by rewrite (rm_account _ _ _ _ Hm), (rm_direction _ _ _ _ Hm).
    - intros r e Hin He. apply entry_conflict_false.
      + rewrite Forall_forall in His. destruct (His (e_id r)) as (n & ? & ->).
        { rewrite <- Eid. by apply list_elem_of_fmap_2. }
        intros E. symmetry in E. revert E. apply (fr_entry w Hf); [lia|done].
      + left. destruct (matched_entry _ _ _ _ HR r Hin) as (x & _ & Hm).
        rewrite (rm_tx _ _ _ _ Hm). intros E. by apply (Hfresh e He).
    - intros r (e & He & Hm)%(matched_entry _ _ _ _ HR).
      destruct (Hcur e He) as (t & a & Ht & Ha & Eta). unfold entry_currency_ok.
      rewrite (rm_tx _ _ _ _ Hm), Ht, (rm_account _ _ _ _ Hm), Ha. by apply bool_decide_true. }
  assert (Hnone : entries_of_tx tx (ledger_entries (w_db w)) = []).
  { destruct (entries_of_tx tx _) as [|e l] eqn:E; [done|].
    assert (He : e ∈ entries_of_tx tx (ledger_entries (w_db w))) by (rewrite E; left).
    apply list_elem_of_filter in He as [Ht He]. by destruct (Hfresh e He). }
  assert (Elen : length pl = length es) by (symmetry; by eapply Forall2_length).
  eapply settles_bind.
  { apply settles_wrap, (settles_stmt _ _ (Z.of_nat (length pl))
      (with_entries (w_db w) (ledger_entries (w_db w) ++ rows)) (fun n w2 =>
        n = Z.of_nat (length pl) /\ w_next_id w2 = w_next_id w1 /\
        w_db w2 = with_entries (w_db w) (ledger_entries (w_db w) ++ rows)));
      [by eauto with ledger| |done].
    unfold fn_post_ledger_entries_bulk. rewrite E1, Hnone, bool_decide_false by auto.
    assert (1 <= length es)%nat by (destruct es; simpl; [done|lia]).
    rewrite Elen, (proj2 (Nat.ltb_ge (length es) 1)) by done.
    rewrite (proj2 (Nat.ltb_ge 50 (length es))) by exact Hlen. cbn [orb].
    rewrite Hv, Ed, Ec, Edr, Ecr, Hb, Z.eqb_refl. cbn [negb]. by rewrite Hins. }
  intros n w2 Hl2 (-> & En & E2). rewrite bool_decide_true by (congruence || (simpl; lia)).
  apply settles_ret; [by eauto with ledger|]. exists rows. split_and!; [done|done|].
  rewrite Eid. eapply Forall_impl; [exact His|]. intros i (k & ? & ->). exists k. split; [lia|done].
Qed.

(** *** Balances *)

(** Moving the balance of [a] by [delta] breaks no constraint. *)
Definition room (d : database) (a : uuid) (delta : Z) : Prop :=
  exists b, account_balances d !! a = Some b /\ in_int64 (b_balance b + delta) = true /\
    chk_balance_floor (BalanceRow (b_balance b + delta) (b_allow_negative b)) = true.

Lemma apply_system_delta_settles id delta z w :
  healthy w -> (dec_val delta == inject_Z z)%Q -> in_int64 z = true -> room (w_db w) id z ->
  settles (apply_system_delta id delta) w (fun _ w' => w_next_id w' = w_next_id w /\
    exists b, w_db w' = with_balances (w_db w) (<[id := b]> (account_balances (w_db w)))).
Proof.
  intros Hw Hv Hz (b & Hb & Hi & Hf). unfold apply_system_delta.
  assert (Hint : dec_is_integer delta = true) by (apply dec_is_integer_val; eauto).
  rewrite (proj2 (dec_equal_truncate delta) Hint). cbn [negb].
  eapply settles_bind.
  { apply settles_try, (settles_scan_row _ _ (fun _ w' => w_next_id w' = w_next_id w /\
      exists b, w_db w' = with_balances (w_db w) (<[id := b]> (account_balances (w_db w))))).
    eapply (settles_stmt _ _ (Some (b_balance b + z))); [done| |].
    - unfold sql_add_delta. rewrite (dec_int_part_val delta z Hv Hz), Hb, Hi. cbn [negb].
      by rewrite Hf.
    - exists (b_balance b + z). split_and!; [done|done|by eexists]. }
  intros r w1 Hl (x & -> & HQ). apply settles_ret; [by eauto with ledger|exact HQ].
Qed.

Lemma apply_system_deltas_settles ids (deltas : gmap uuid dec) acc w :
  healthy w -> NoDup ids ->
  (forall id, id ∈ ids -> exists z, (dec_val (default dec_zero (deltas !! id)) == inject_Z z)%Q
     /\ in_int64 z = true /\ room (w_db w) id z) ->
  settles (apply_system_deltas_loop ids deltas acc) w (fun _ w' => w_next_id w' = w_next_id w).
Proof.
  intros Hw Hnd. revert acc w Hw. induction Hnd as [|id ids Hni Hnd IH]; intros acc w Hw Hroom;
    simpl; [by apply settles_ret|].
  destruct (Hroom id) as (z & Hv & Hz & Hr); [by left|].
  eapply settles_bind; [by apply (apply_system_delta_settles id _ z)|].
  intros x w1 Hl (En & b & E). eapply settles_mono; [apply IH|by intros ? ? ? ->];
    [by eauto with ledger|].
  intros i Hi. destruct (Hroom i) as (zi & ? & ? & bi & Hbi & ? & ?); [by right|].
  exists zi. split_and!; [done..|]. exists bi. split; [|done]. rewrite E. simpl.
  rewrite lookup_insert_ne; [done|]. by intros ->.
Qed.

Lemma ApplySystemDeltas_settles deltas w :
  healthy w ->
  (forall id delta, deltas !! id = Some delta -> exists z, (dec_val delta == inject_Z z)%Q
     /\ in_int64 z = true /\ room (w_db w) id z) ->
  settles (BalanceRepo_ApplySystemDeltas deltas) w (fun _ w' => w_next_id w' = w_next_id w).
Proof.
  intros Hw Hr. unfold BalanceRepo_ApplySystemDeltas. case_bool_decide; [by apply settles_ret|].
  destruct (sortedDecimalKeys_spec deltas) as [Hnd Hkeys].
  apply apply_system_deltas_settles; [done|done|]. intros id [delta Hd]%Hkeys.
  rewrite Hd. by apply (Hr id).
Qed.

(** The balances [new] can be stored: rows exist, the floor holds. *)
Lemma sql_set_balances_settles new b :
  NoDup new.*1 ->
  (forall id z, (id, z) ∈ new -> exists row, b !! id = Some row /\
     chk_balance_floor (BalanceRow z (b_allow_negative row)) = true) ->
  exists b', sql_set_balances new b = inr (Z.of_nat (length new), b') /\
    forall id, id ∉ new.*1 -> b' !! id = b !! id.
Proof.
  induction new as [|[id z] new IH]; intros Hnd Hrows; simpl; [by exists b|].
  apply NoDup_cons in Hnd as [Hni Hnd].
  destruct IH as (b' & -> & Hb'); [done|intros i zi Hi; apply Hrows; by right|].
  destruct (Hrows id z) as (row & Hrow & Hf); [by left|].
  rewrite (Hb' id Hni), Hrow, Hf. eexists. split.
  - do 2 f_equal. lia.
  - intros i [Hne Hi]%not_elem_of_cons. rewrite lookup_insert_ne by done. by apply Hb'.
Qed.

Lemma UpdateBalances_settles new w :
  healthy w ->
  (forall id x, new !! id = Some x -> exists z row, (dec_val x == inject_Z z)%Q
     /\ in_int64 z = true /\ account_balances (w_db w) !! id = Some row
     /\ chk_balance_floor (BalanceRow z (b_allow_negative row)) = true) ->
  settles (BalanceRepo_UpdateBalances new) w (fun _ w' => w_next_id w' = w_next_id w /\
    w_db w' = with_balances (w_db w) (account_balances (w_db w'))).
Proof.
  intros Hw Hrows. unfold BalanceRepo_UpdateBalances. case_bool_decide.
  { apply settles_ret; [done|]. split; [done|]. by destruct (w_db w). }
  destruct (sortedDecimalKeys_spec new) as [Hnd Hkeys].
  set (f := fun id => (id, dec_int_part (default dec_zero (new !! id)))).
  assert (Hall : forallb (fun id => dec_equal (default dec_zero (new !! id))
      (dec_truncate (default dec_zero (new !! id)))) (sortedDecimalKeys new) = true).
  { apply forallb_forall. intros id Hid%list_elem_of_In. apply Hkeys in Hid as [x Hx].
    destruct (Hrows id x Hx) as (z & row & Hv & _). rewrite Hx. simpl.
    apply dec_equal_truncate, dec_is_integer_val. eauto. }
  assert (Hfst : (map f (sortedDecimalKeys new)).*1 = sortedDecimalKeys new).
  { generalize (sortedDecimalKeys new). induction l as [|x l IHl]; simpl; [done|].
    f_equal. exact IHl. }
  destruct (sql_set_balances_settles (map f (sortedDecimalKeys new)) (account_balances (w_db w)))
    as (b' & Hset & _); [by rewrite Hfst|..].
  { intros id z (i & [= -> ->] & Hi)%list_elem_of_fmap. apply Hkeys in Hi as [x Hx].
    destruct (Hrows i x Hx) as (z & row & Hv & Hz & Hrow & Hf). exists row. split; [done|].
    rewrite Hx. simpl. by rewrite (dec_int_part_val x z Hv Hz). }
  cbv zeta. rewrite Hall. cbn [negb]. eapply settles_bind.
  { apply settles_wrap. eapply (settles_stmt _ _ (Z.of_nat (length (sortedDecimalKeys new))) _
      (fun n w1 => n = Z.of_nat (length (sortedDecimalKeys new)) /\
        w_next_id w1 = w_next_id w /\
        w_db w1 = with_balances (w_db w) b')); [done| |done].
    fold f. by rewrite Hset, length_map. }
  intros n w1 Hl (-> & En & E). rewrite bool_decide_true by done.
  apply settles_ret; [by eauto with ledger|]. rewrite E. split; [exact En|done].
Qed.

(** *** Status and outbox *)
Lemma UpdateStatus_settles id w :
  healthy w ->
  settles (TransactionRepo_UpdateStatus id "posted" None) w (fun _ w' =>
    w_next_id w' = w_next_id w /\
    w_db w' = with_transactions (w_db w)
                (alter (set_status "posted" None) id (ledger_transactions (w_db w)))).
Proof.
  intros Hw. eapply settles_stmt; [done| |].
  - rewrite bool_decide_true by (right; by left). reflexivity.
  - done.
Qed.

Lemma outbox_rows_settles evs w :
  healthy w -> (forall i j, w_ids w i = w_ids w j -> i = j) ->
  settles (outbox_rows evs) w (fun os w' => w_db w' = w_db w /\ NoDup (o_id <$> os)
    /\ Forall (issued w w') (o_id <$> os)).
Proof.
  revert w. induction evs as [|e evs IH]; intros w Hw Hinj; simpl.
  - apply settles_ret; [done|]. split_and!; [done|by constructor..].
  - eapply settles_bind.
    { by apply (settles_NewV7 w (fun id w1 => id = w_ids w (w_next_id w)
        /\ w1 = set_ids w (S (w_next_id w)))). }
    intros id w1 Hl [-> ->]. eapply settles_bind; [apply IH; [by destruct Hl|exact Hinj]|].
    intros rest w2 Hl2 (E & Hnd & His). apply settles_ret; [by eauto with ledger|].
    assert (Hn := lt_next _ _ Hl2). simpl in Hn. rewrite Forall_forall in His.
    split_and!; [done|apply NoDup_cons; split; [|exact Hnd]|apply Forall_cons; split].
    + intros (n & Hrange & Heq)%His. apply Hinj in Heq. simpl in Hrange. lia.
    + exists (w_next_id w). split; [lia|done].
    + apply Forall_forall. intros i (n & Hr & ->)%His. exists n. simpl in *. split; [lia|done].
Qed.

Lemma insert_outbox_rows_settles os l :
  NoDup (o_id <$> os) -> (forall o o', o ∈ os -> o' ∈ l -> o_id o <> o_id o') ->
  insert_outbox_rows os l = inr (l ++ os).
Proof.
  revert l. induction os as [|o os IH]; intros l Hnd Hl; simpl; [by rewrite app_nil_r|].
  apply NoDup_cons in Hnd as [Hni Hnd].
  assert (Hno : existsb (fun o' => bool_decide (o_id o = o_id o')) l = false).
  { apply not_true_iff_false. intros (o' & Ho%list_elem_of_In & Hx%bool_decide_eq_true)%existsb_exists.
    by apply (Hl o o'); [left|..]. }
  rewrite Hno, IH; [by rewrite <- app_assoc|done|].
  intros x x' Hx [Hx'| ->%list_elem_of_singleton]%elem_of_app; [by apply Hl; [right|]|].
  intros E. apply Hni. rewrite <- E. by apply list_elem_of_fmap_2.
Qed.

Lemma InsertEvents_settles evs w :
  healthy w -> (length evs <= maxOutboxBatch)%nat ->
  (forall i j, w_ids w i = w_ids w j -> i = j) ->
  (forall n o, (w_next_id w <= n)%nat -> o ∈ outbox_events (w_db w) -> o_id o <> w_ids w n) ->
  settles (OutboxRepo_InsertEvents evs) w (fun _ w' =>
    w_db w' = with_outbox (w_db w) (outbox_events (w_db w'))).
Proof.
  intros Hw Hlen Hinj Hnew. unfold OutboxRepo_InsertEvents. destruct evs as [|e evs].
  { apply settles_ret; [done|]. by destruct (w_db w). }
  rewrite (proj2 (Nat.ltb_ge _ _) Hlen). eapply settles_bind; [by apply outbox_rows_settles|].
  intros os w1 Hl (E & Hnd & His). apply settles_wrap. eapply settles_stmt; [by eauto with ledger| |].
  - rewrite E, (insert_outbox_rows_settles os); [reflexivity|done|].
    intros o o' Ho Ho' Heq. rewrite Forall_forall in His.
    destruct (His (o_id o)) as (n & Hn & Hid); [by apply list_elem_of_fmap_2|].
    apply (Hnew n o'); [lia|done|congruence].
  - done.
Qed.
End repositories.
