(* ===== verification/Liveness.v ===== *)
(** * The service posts what it can post

    In a world where no database call fails, a command that validates, whose
    key is free, whose accounts are usable and whose effect fits the balances
    is posted by [Handle]: none of the later statements, constraints and
    triggers refuses it. *)
From stdpp Require Import prelude gmap strings list sorting.
From S2P Require Import Prelude Decimal Errors Currency Events Store TxRepo Repos AccountRepo.
From S2P Require Import Fee Processors Handle Frames Lawful Postings Invariant Engine Progress.
From S2P Require Import Entries Outcome.
From Stdlib Require Import QArith Lqa.
Open Scope Z_scope.

(** The entries of a transaction are stored, and nothing else. *)
Definition appended `{DEC : !Decimal} (tx : uuid) (es : list EntryInstruction) (d d' : database)
    : Prop :=
  exists rows, Forall2 (row_of tx) es rows /\ ledger_entries d' = ledger_entries d ++ rows.

(** ** The write phase *)
Section write_phase.
Context `{DEC : !Decimal} `{UT : !UuidText} `{HASH : !Hashing}.
Context (s : Service) (p : TxProcessor) (rc : ResolvedCommand) (tx : uuid)
  (es : list EntryInstruction) (sys : list uuid) (ub : gmap uuid AccountBalance) (w : world).
Let S : gset uuid := list_to_set sys.
Let rows0 := drafts tx es.
Hypothesis Hcov : forall e, e ∈ es -> ei_AccountID e ∈ S \/ is_Some (ub !! ei_AccountID e).
Hypothesis Hdis : forall a, a ∈ S -> ub !! a = None.
Hypothesis Hsnap : snapshot (w_db w) ub.
Hypothesis Hpost : postable tx es (w_db w).
Hypothesis Hroom : forall a, a ∈ S \/ is_Some (ub !! a) ->
  room (w_db w) a (computed_balance a rows0).

Let HR : Forall2 (row_matches tx ∅) es rows0 := drafts_match tx es (pt_sized _ _ _ Hpost).
Let Htot : debits rows0 = credits rows0 /\ in_int64 (debits rows0) = true :=
  conj (pt_balanced _ _ _ Hpost) (pt_range _ _ _ Hpost).

(** Every system delta is an integer with room for it. *)
Lemma deltas_have_room id delta :
  computeSystemDeltas (splitEntriesByAccount es S).2 !! id = Some delta ->
  exists z, (dec_val delta == inject_Z z)%Q /\ in_int64 z = true /\ room (w_db w) id z.
Proof.
  intros Hd. assert (Hid : id ∈ S) by (by apply (system_deltas_in es S); eexists).
  exists (computed_balance id rows0). split_and!; [|by apply (row_bounds tx ∅ es)|by apply Hroom; left].
  destruct (row_matches_filter _ _ S _ _ HR) as [Hf _].
  pose proof (foldl_apply_entry _ _ _ _ Hf ∅ id) as Hv.
  change (foldl apply_entry ∅ _) with (computeSystemDeltas (splitEntriesByAccount es S).2) in Hv.
  rewrite Hd, lookup_empty in Hv. simpl in Hv. rewrite computed_balance_in in Hv by done.
  rewrite Hv, dec_zero_val. lra.
Qed.

(** Every new user balance is the old one plus the entries, and storable. *)
Lemma user_balances_fit id x :
  applyEntries ub (splitEntriesByAccount es S).1 !! id = Some x ->
  exists z row, (dec_val x == inject_Z z)%Q /\ in_int64 z = true /\
    account_balances (w_db w) !! id = Some row /\
    chk_balance_floor (BalanceRow z (b_allow_negative row)) = true /\ id ∉ S.
Proof.
  intros Hx. assert (is_Some (ub !! id)) as [ab Hab] by (apply (user_new_dom es S ub Hcov); eauto).
  destruct (Hsnap id ab Hab) as (b & Hb & Hz).
  destruct (Hroom id ltac:(right; eauto)) as (b' & Hb' & Hi & Hf).
  rewrite Hb in Hb'. injection Hb' as <-.
  exists (b_balance b + computed_balance id rows0), b. split_and!; try done.
  - by eapply (user_new_val tx ∅ es rows0 S ub HR Hdis).
  - intros Hs%Hdis. congruence.
Qed.

(** The rows appended are those of the entries. *)
Lemma write_postings_settles :
  healthy w -> fresh_ids w -> projectionWriter s = None ->
  (forall e, e ∈ ledger_entries (w_db w) -> e_transaction_id e <> tx) ->
  (forall now, (length (OutboxEvents p rc tx es now) <= maxOutboxBatch)%nat) ->
  settles (write_postings s p rc tx ub sys es) w (fun _ w' => appended tx es (w_db w) (w_db w')).
Proof.
  intros Hw Hf Hpw Htx Hev. unfold write_postings, check_source_write, write_projection.
  rewrite Hpw, (surjective_pairing (splitEntriesByAccount _ _)). fold S.
  eapply settles_bind; [by apply (settles_ret tt _ (fun _ w1 => w1 = w))|]. intros [] ? _ ->.
  eapply settles_bind; [apply settles_run, ApplySystemDeltas_settles; [done|exact deltas_have_room]|].
  intros new w1 Hl1 [(E1 & Hd1 & Hd0)%ApplySystemDeltas_Ok En1]. cbv zeta.
  assert (Hf1 : fresh_ids w1).
  { destruct Hf as [F1 F2 F3 F4 F5]. pose proof (lt_ids _ _ Hl1) as Ei.
    split; rewrite Ei, ?En1; [done|rewrite E1; done..]. }
  eapply settles_bind; [apply (InsertEntries_settles tx es _ w1); [by eauto with ledger|done|..]|].
  { destruct Hpost as [P1 P2 P3 P4 P5 P6 P7]. split; try done. rewrite E1. exact P7. }
  { rewrite E1. exact Htx. }
  { apply Forall_forall. intros e He. rewrite lookup_union.
    set (deltas := computeSystemDeltas _) in *. set (a := ei_AccountID e).
    destruct (deltas !! a) as [delta|] eqn:Ed.
    - destruct (Hd1 a delta Ed) as (_ & b & (b0 & _ & _ & Hi & _) & _ & ->).
      rewrite union_Some_l. simpl. eexists. by apply dec_bigint_of_Z.
    - destruct (Hd0 a Ed) as [_ ->]. rewrite (left_id_L None _).
      destruct (Hcov e He) as [Ha|Hu].
      + assert (is_Some (deltas !! a)) as [? ?]; [|congruence]. apply foldl_apply_dom. right.
        exists e. split; [|done]. by apply list_elem_of_filter.
      + apply (user_new_dom es S ub Hcov) in Hu as [x Hx]. fold a in Hx. rewrite Hx. simpl.
        destruct (user_balances_fit a x Hx) as (z & row & Hv & Hi & _).
        exists z. by apply dec_bigint_spec. }
  intros _ w2 Hl2 (rows & HR2 & E2 & _).
  eapply settles_bind; [apply (UpdateBalances_settles _ w2); [by eauto with ledger|]|].
  { intros id x Hx. destruct (user_balances_fit id x Hx) as (z & row & Hv & Hi & Hrow & Hfl & Hs).
    exists z, row. split_and!; try done. rewrite E2. simpl.
    assert (computeSystemDeltas (splitEntriesByAccount es S).2 !! id = None) as [-> _]%Hd0; [|done].
    apply eq_None_not_Some. intros H. by apply Hs, (system_deltas_in es S). }
  intros _ w3 Hl3 (En3 & E3).
  eapply settles_bind; [apply (settles_ret tt w3 (fun _ w4 => w4 = w3)); [by eauto with ledger|done]|].
  intros [] ? _ ->. eapply settles_bind; [apply settles_wrap, UpdateStatus_settles; by eauto with ledger|].
  intros _ w4 Hl4 (En4 & E4).
  eapply settles_bind.
  { exists (w_now w4), w4. split_and!; [done|by eauto with ledger|].
    exact (conj eq_refl eq_refl : (fun n w5 => n = w_now w4 /\ w5 = w4) _ _). }
  intros now w5 _ [-> ->]. eapply settles_mono; [apply InsertEvents_settles|];
    [by eauto with ledger|apply Hev|..].
  - intros i j. rewrite (lt_ids _ _ Hl4), (lt_ids _ _ Hl3), (lt_ids _ _ Hl2), (lt_ids _ _ Hl1).
    apply (fr_inj w Hf).
  - intros n o Hn. rewrite (lt_ids _ _ Hl4), (lt_ids _ _ Hl3), (lt_ids _ _ Hl2), (lt_ids _ _ Hl1).
    rewrite E4, E3, E2, E1. simpl. apply (fr_event w Hf).
    pose proof (lt_next _ _ Hl2). lia.
  - intros [] w6 _ E6. exists rows. split; [eapply Forall2_impl; [exact HR2|by eexists]|].
    by rewrite E6, E4, E3, E2, E1.
Qed.
End write_phase.

(** ** One execution *)
Section execution.
Context `{DEC : !Decimal} `{UT : !UuidText} `{HASH : !Hashing}.
Context (s : Service) (p : TxProcessor) (rc : ResolvedCommand).

(** The headers once the command's own is inserted, and once its original is closed. *)
Definition gated (d : database) (tx : uuid) (t : tx_row) : gmap uuid tx_row := <[tx := t]> (ledger_transactions d).
Definition closed_headers (d : database) (tx : uuid) (t : tx_row) : gmap uuid tx_row :=
  match lifecycleCloseReason !! Type_ (rc_Command rc) with
  | Some reason => alter (close_row tx reason) (ReferenceID (rc_Command rc)) (gated d tx t)
  | None => gated d tx t
  end.
(** A check that passes with these headers, whatever the new one is, leaving no trace. *)
Definition passes {A} (headers : database -> uuid -> tx_row -> gmap uuid tx_row) (d : database) (m : M A) (a : A) : Prop :=
  forall w tx t, healthy w -> ledger_transactions d !! tx = None -> w_db w = with_transactions d (headers d tx t) ->
    m w = (Ok a, w).

(** The balances the processor is shown. *)
Definition shown (d : database) (bal : gmap uuid AccountBalance) : Prop :=
  forall a, a ∈ AccountIDs rc -> bal !! a = balance_of d a.

(** A command that has resolved and that nothing stands against: what it closes is
    open, and closers exist, as a foreign key demands. *)
Record ready (es : list EntryInstruction) (d : database) : Prop := {
  rd_open reason : lifecycleCloseReason !! Type_ (rc_Command rc) = Some reason ->
    exists t, ledger_transactions d !! ReferenceID (rc_Command rc) = Some t /\ t_closed_by t = None;
  rd_closers id t by_ : ledger_transactions d !! id = Some t -> t_closed_by t = Some by_ ->
    is_Some (ledger_transactions d !! by_);
  rd_unquoted : QuoteID (rc_Command rc) = EmptyString;
  rd_free : ~ key_taken s rc d;
  rd_amount : exists z, dec_bigint (Amount (rc_Command rc)) = Some z /\ 0 < z;
  rd_currency : len (rc_Currency rc) <= 3;
  rd_source : rc_Source rc = uuid_Nil \/ rc_Source rc ∈ AccountIDs rc;
  rd_destination : rc_Destination rc = uuid_Nil \/ rc_Destination rc ∈ AccountIDs rc;
  rd_usable : accounts_usable rc d;
  rd_policy : passes gated d (check_currency_policy s rc) tt;
  rd_payin : passes gated d (check_payin_snapshot s rc) tt;
  rd_pre f : ValidateBeforeBalanceLocks p = Some f -> passes gated d (f rc) tt;
  rd_valid bal : shown d bal -> passes gated d (Validate p rc bal) tt;
  rd_built bal : shown d bal -> passes closed_headers d (BuildEntries p rc bal) es;
  rd_nonempty : es <> [];
  rd_batch : (length es <= maxEntriesBatch)%nat;
  rd_sized : Forall sized es;
  rd_slots : NoDup (entry_slot <$> es);
  rd_within e : e ∈ es -> ei_AccountID e ∈ AccountIDs rc;
  rd_balanced : debits (drafts 0%N es) = credits (drafts 0%N es);
  rd_total : in_int64 (debits (drafts 0%N es)) = true;
  rd_room a : a ∈ AccountIDs rc -> room d a (computed_balance a (drafts 0%N es));
  rd_events tx now : (length (OutboxEvents p rc tx es now) <= maxOutboxBatch)%nat;
}.

Lemma drafts_any tx tx' es :
  debits (drafts tx es) = debits (drafts tx' es) /\ credits (drafts tx es) = credits (drafts tx' es)
  /\ forall a, computed_balance a (drafts tx es) = computed_balance a (drafts tx' es).
Proof.
  unfold debits, credits, computed_balance. induction es as [|e es (E1 & E2 & E3)]; [done|].
  simpl. rewrite E1, E2. split_and!; [done..|]. intros a. by rewrite E3.
Qed.

(** The split loses no account and shows each as the database has it. *)
Section split_complete.
Context (d : database) (ids : list uuid).
Let flags := select_balances d ids.
Let sys := system_ids flags ids.
Let ub := select_balances d (user_ids flags ids).

Lemma split_covers a : a ∈ ids -> is_Some (balance_of d a) -> a ∈ sys \/ is_Some (ub !! a).
Proof.
  intros Ha [ab Hab].
  assert (Hf : flags !! a = Some ab) by (unfold flags; by rewrite select_balances_lookup, decide_True).
  destruct (ab_AllowNegative ab) eqn:En; [left|right].
  - apply list_elem_of_filter. split; [|done]. unfold is_system. by rewrite Hf.
  - unfold ub. rewrite select_balances_lookup, decide_True; [by exists ab|].
    apply list_elem_of_filter. split; [|done]. unfold is_user. by rewrite Hf, En.
Qed.

Lemma merge_balances_lookup l m a :
  (forall x, x ∈ l -> is_Some (flags !! x)) ->
  merge_balances m flags l !! a = if decide (a ∈ l) then flags !! a else m !! a.
Proof.
  revert m. induction l as [|x l IH]; intros m Hl; simpl; [done|].
  rewrite IH by (intros; apply Hl; by right). destruct (Hl x ltac:(left)) as [fx Hfx]. rewrite Hfx.
  destruct (decide (a = x)) as [->|Hne].
  - rewrite (decide_True (P := x ∈ x :: l)) by left. case_decide; [done|].
    by rewrite lookup_insert_eq.
  - rewrite lookup_insert_ne by done. apply decide_ext. rewrite elem_of_cons. naive_solver.
Qed.

Lemma merged_complete a :
  a ∈ ids -> is_Some (balance_of d a) -> merge_balances ub flags sys !! a = balance_of d a.
Proof.
  intros Ha Hb. rewrite merge_balances_lookup.
  2:{ intros x [Hx _]%list_elem_of_filter. unfold is_system in Hx. by destruct (flags !! x). }
  case_decide as Hs; [unfold flags; by rewrite select_balances_lookup, decide_True|].
  destruct (split_covers a Ha Hb) as [?|[x Hx]]; [done|].
  rewrite Hx. unfold ub in Hx. rewrite select_balances_lookup in Hx. by case_decide.
Qed.
End split_complete.

Lemma usable_balance_of es d a :
  ready es d -> a ∈ AccountIDs rc -> exists ab, balance_of d a = Some ab /\
    ab_Status ab = "active" /\ ab_Currency ab = rc_Currency rc.
Proof.
  intros R Ha. destruct (rd_usable _ _ R a Ha) as (x & Hx & Hst & Hcur).
  destruct (rd_room _ _ R a Ha) as (b & Hb & _). unfold balance_of. rewrite Hb, Hx.
  eexists. by split_and!.
Qed.

Lemma validate_account_ids_settles ids c bal :
  (forall a, a ∈ ids -> exists ab, bal !! a = Some ab /\ ab_Status ab = "active" /\
     ab_Currency ab = c) -> validate_account_ids ids c bal = Ok tt.
Proof.
  induction ids as [|a ids IH]; intros H; simpl; [done|].
  destruct (H a) as (ab & -> & Hst & Hc); [by left|]. rewrite Hst, Hc.
  do 2 rewrite (bool_decide_false (_ = _)) by done. do 2 rewrite (bool_decide_true (_ = _)) by done.
  apply IH. intros; apply H; by right.
Qed.

Lemma sized_balanced es :
  Forall sized es -> debits (drafts 0%N es) = credits (drafts 0%N es) ->
  validateBalanced es = Ok tt.
Proof.
  intros Hs Hb. apply validateBalanced_ok.
  - eapply Forall_impl; [exact Hs|]. intros e (z & [Hz _]%dec_bigint_spec & Hp). rewrite Hz.
    change 0%Q with (inject_Z 0). by rewrite <- Zlt_Qlt.
  - assert (Hsum : forall l, Forall sized l ->
      (sumQ ei_debit l == inject_Z (debits (drafts 0%N l)))%Q /\
      (sumQ ei_credit l == inject_Z (credits (drafts 0%N l)))%Q).
    { unfold debits, credits. induction 1 as [|e l (z & Hz & _) _ [E1 E2]]; [by split|].
      cbn. rewrite Hz. apply dec_bigint_spec in Hz as [Hz _]. cbn.
      rewrite !inject_Z_plus, E1, E2. unfold ei_debit, ei_credit.
      destruct (ei_Direction e); rewrite ?Hz; cbn; change (inject_Z 0) with 0%Q; split; reflexivity. }
    destruct (Hsum es Hs) as [-> ->]. by rewrite Hb.
Qed.

Lemma settles_passes {A} headers d tx t (m : M A) a w (Q : A -> world -> Prop) :
  passes headers d m a -> healthy w -> ledger_transactions d !! tx = None -> w_db w = with_transactions d (headers d tx t) ->
  Q a w -> settles m w Q.
Proof. intros Hp Hw Hf E HQ. exists a, w. split_and!; [by eapply Hp|by eauto with ledger|done]. Qed.

Lemma LockBalances_settles ids w :
  healthy w -> settles (BalanceRepo_LockBalances ids) w
    (fun m w' => m = select_balances (w_db w) ids /\ w' = w).
Proof.
  intros Hw. unfold BalanceRepo_LockBalances. destruct ids; [by apply settles_ret|].
  by apply settles_wrap, settles_query.
Qed.
Lemma GetAccountFlags_settles ids w :
  healthy w -> settles (BalanceRepo_GetAccountFlags ids) w
    (fun m w' => m = select_balances (w_db w) ids /\ w' = w).
Proof.
  intros Hw. unfold BalanceRepo_GetAccountFlags. destruct ids; [by apply settles_ret|].
  by apply settles_wrap, settles_query.
Qed.

Lemma close_reasons type reason : lifecycleCloseReason !! type = Some reason -> reason ∈ closed_reasons.
Proof.
  assert (H : map_Forall (fun _ reason => reason ∈ closed_reasons) lifecycleCloseReason)
    by (apply (bool_decide_unpack _); vm_compute; exact I).
  apply H.
Qed.
(** The close guard finds the original open. *)
Lemma close_original_settles es d tx t w :
  ready es d -> healthy w -> ledger_transactions d !! tx = None -> t_closed_by t = None ->
  w_db w = with_transactions d (gated d tx t) ->
  settles (close_original rc tx) w (fun r w' =>
    r = None /\ w_next_id w' = w_next_id w /\ w_db w' = with_transactions d (closed_headers d tx t)).
Proof.
  intros R Hw Hf Ht E. unfold close_original, closed_headers.
  destruct (lifecycleCloseReason !! _) as [reason|] eqn:El; [|by apply settles_ret].
  destruct (rd_open _ _ R _ El) as (t0 & Ht0 & Ho). set (ref := ReferenceID (rc_Command rc)) in *.
  assert (Hne : tx <> ref) by congruence. assert (Hg : gated d tx t !! ref = Some t0) by (unfold gated; by rewrite lookup_insert_ne).
  apply (settles_bind _ _ _ (fun r w' => r = 1 /\ w_next_id w' = w_next_id w /\
    w_db w' = with_transactions d (<[ref := close_row tx reason t0]> (gated d tx t)))).
  { apply settles_wrap, settles_wrap. eapply settles_stmt; [done| |].
    - rewrite E. simpl. rewrite Hg, Ho, bool_decide_true by (by eapply close_reasons). cbn [negb].
      rewrite (proj2 (any_tx_false _ _)), bool_decide_true; [reflexivity|unfold gated; rewrite lookup_insert_eq; by eexists|].
      intros id t' H. unfold gated in H. simpl in H. apply bool_decide_eq_false. apply lookup_insert_Some in H as [[<- <-]|[_ H]]; [by rewrite Ht|].
      intros Hc. destruct (rd_closers _ _ R _ _ _ H Hc) as [? Hx]. congruence.
    - done. }
  intros rows w1 Hl (-> & En & E1). apply settles_ret; [by eauto with ledger|]. split_and!; [done..|].
  rewrite E1. f_equal. apply map_eq. intros i. destruct (decide (ref = i)) as [<-|Hi].
  - by rewrite lookup_insert_eq, lookup_alter_eq, Hg.
  - by rewrite lookup_insert_ne, lookup_alter_ne.
Qed.

Lemma closed_headers_own es d tx t : ready es d -> ledger_transactions d !! tx = None -> closed_headers d tx t !! tx = Some t.
Proof.
  intros R Hf. unfold closed_headers, gated. destruct (lifecycleCloseReason !! _) as [reason|] eqn:El; [|apply lookup_insert_eq].
  destruct (rd_open _ _ R _ El) as (t0 & Ht0 & _). rewrite lookup_alter_ne by congruence. apply lookup_insert_eq.
Qed.
Lemma closed_fresh d tx t w w1 : fresh_ids w -> later w w1 -> w_next_id w1 = w_next_id w ->
  w_db w = with_transactions d (gated d tx t) -> w_db w1 = with_transactions d (closed_headers d tx t) -> fresh_ids w1.
Proof.
  intros [F1 F2 F3 F4 F5] Hl En Ed E1. rewrite Ed in F2, F3, F4, F5. split; rewrite (lt_ids _ _ Hl), ?En, ?E1; try done.
  intros n Hn. specialize (F2 n Hn). simpl in F2 |- *. unfold closed_headers.
  destruct (lifecycleCloseReason !! _); [|done]. by apply lookup_alter_None.
Qed.

(** Phases 2 to 11. *)
Lemma post_settles es d tx t w :
  ready es d -> projectionWriter s = None -> healthy w -> fresh_ids w ->
  ledger_transactions d !! tx = None -> t_closed_by t = None -> t_currency t = rc_Currency rc ->
  w_db w = with_transactions d (gated d tx t) ->
  (forall e, e ∈ ledger_entries d -> e_transaction_id e <> tx) ->
  settles (post s p rc tx) w (fun r w' => r = None /\ appended tx es (w_db w) (w_db w')).
Proof.
  intros R Hpw Hw Hf Hfresh Hopen Hcur Ed Htx. unfold post.
  assert (Hbal : balance_of (w_db w) = balance_of d) by (by rewrite Ed).
  eapply settles_bind; [by apply GetAccountFlags_settles|]. intros flags w1 _ [-> ->]. cbv zeta.
  eapply settles_bind; [by apply LockBalances_settles|]. intros ub w1 _ [-> ->].
  set (flags := select_balances (w_db w) (AccountIDs rc)).
  set (sys := system_ids flags (AccountIDs rc)).
  set (ub := select_balances (w_db w) (user_ids flags (AccountIDs rc))).
  assert (Hshown : shown d (merge_balances ub flags sys)).
  { intros a Ha. destruct (usable_balance_of es d a R Ha) as (ab & Hab & _).
    rewrite <- Hbal. apply merged_complete; [done|]. by rewrite Hbal, Hab. }
  eapply settles_bind.
  { apply (settles_lift _ tt w (fun _ w' => w' = w)); [|done|done].
    apply validate_account_ids_settles. intros a Ha. rewrite (Hshown a Ha).
    by apply (usable_balance_of es d). }
  intros [] w1 _ ->. eapply settles_bind.
  { apply settles_try. by apply (settles_passes _ d tx t _ tt _ (fun _ w' => w' = w) (rd_valid _ _ R _ Hshown)). }
  intros v w1 _ ([] & -> & ->).
  eapply settles_bind; [by apply (close_original_settles es d tx t)|].
  intros ? w1 Hl1 (-> & En & E1). pose proof (lt_healthy _ _ Hl1) as Hw1. eapply settles_bind.
  { apply settles_wrap.
    by apply (settles_passes _ d tx t _ es _ (fun r w' => r = es /\ w' = w1) (rd_built _ _ R _ Hshown)). }
  intros ? w2 _ [-> ->]. eapply settles_bind.
  { apply (settles_lift _ tt w1 (fun _ w' => w' = w1)); [|done|done].
    apply sized_balanced; [apply R|apply R]. }
  intros [] w2 _ ->.
  assert (Hhead : closed_headers d tx t !! tx = Some t) by (by eapply closed_headers_own).
  assert (Hf1 : fresh_ids w1) by (by eapply closed_fresh).
  assert (Hsplit : forall a, a ∈ AccountIDs rc -> a ∈ (list_to_set sys : gset uuid) \/ is_Some (ub !! a)).
  { intros a Ha. rewrite elem_of_list_to_set. apply split_covers; [done|].
    destruct (usable_balance_of es d a R Ha) as (ab & Hab & _). by rewrite Hbal, Hab. }
  destruct (drafts_any tx 0%N es) as (E1' & E2 & E3).
  eapply settles_bind; [apply write_postings_settles; try done|].
  - intros e He. by apply Hsplit, (rd_within _ _ R).
  - intros a Ha%elem_of_list_to_set. by apply split_disjoint.
  - assert (Hs : snapshot (w_db w) ub) by apply locked_snapshot. rewrite E1. rewrite Ed in Hs. exact Hs.
  - split; rewrite ?E1', ?E2; try by apply R.
    intros e He. destruct (rd_usable _ _ R _ (rd_within _ _ R e He)) as (row & Hx & _ & Hc).
    exists t, row. rewrite E1. split_and!; [done|done|congruence].
  - intros a Ha. rewrite E3. assert (Hin : a ∈ AccountIDs rc).
    { destruct Ha as [Ha%elem_of_list_to_set|[ab Ha]]; [by apply list_elem_of_filter in Ha as [_ ?]|].
      by apply user_Some in Ha as [? _]. }
    rewrite E1. exact (rd_room _ _ R a Hin).
  - rewrite E1. exact Htx.
  - intros now. apply (rd_events _ _ R).
  - intros [] w2 Hl Happ. apply settles_ret; [by eauto with ledger|]. split; [done|]. rewrite E1 in Happ. by rewrite Ed.
Qed.

Lemma savepoint_settles w :
  healthy w -> settles savepoint w (fun _ w' => w_db w' = w_db w /\ w_next_id w' = w_next_id w).
Proof.
  intros [Hc Ha]. eexists tt, _. split.
  - unfold savepoint, stmt, next_call. by rewrite Hc, Ha.
  - by repeat split.
Qed.
Lemma release_savepoint_settles w :
  healthy w ->
  settles release_savepoint w (fun _ w' => w_db w' = w_db w /\ w_next_id w' = w_next_id w).
Proof.
  intros [Hc Ha]. eexists tt, _. split.
  - unfold release_savepoint, stmt, next_call. by rewrite Hc, Ha.
  - by repeat split.
Qed.

Lemma currency_matches_usable d a :
  accounts_usable rc d -> a = uuid_Nil \/ a ∈ AccountIDs rc ->
  currency_matches d (uuidPtr a) (rc_Currency rc) = true.
Proof.
  intros Hu Ha. unfold uuidPtr. case_bool_decide as Hn; [done|]. destruct Ha as [?|Ha]; [done|].
  destruct (Hu a Ha) as (x & Hx & _ & Hc). simpl. rewrite Hx. by apply bool_decide_true.
Qed.

(** The idempotency gate lets a new key through. *)
Lemma Insert_settles es tx w :
  ready es (w_db w) -> healthy w -> ledger_transactions (w_db w) !! tx = None ->
  settles (TransactionRepo_Insert (digestRing s) (insert_params rc tx)) w (fun _ w' =>
    w_next_id w' = w_next_id w /\ exists t, t_currency t = rc_Currency rc /\ t_closed_by t = None /\
      w_db w' = with_transactions (w_db w) (<[tx := t]> (ledger_transactions (w_db w)))).
Proof.
  intros R Hw Hfresh. destruct (rd_amount _ _ R) as (z & Hz & Hp).
  assert (Hfree : forall id t, ledger_transactions (w_db w) !! id = Some t ->
    same_digest (key_digest s rc).1 t = false /\
    same_identity (IdempotencyKey (rc_Command rc)) (stringPtr (IdempotencyScope (rc_Command rc))) t
      = false).
  { intros id t Ht. split; apply not_true_iff_false; intros Hx; apply (rd_free _ _ R);
      exists id, t; (split; [done|]); [left|by right]. by apply bool_decide_eq_true in Hx. }
  unfold TransactionRepo_Insert. rewrite (surjective_pairing (Digest _ _)). eapply settles_bind.
  { apply settles_try. eapply (settles_stmt _ _ tt _ (fun _ w' =>
      w_next_id w' = w_next_id w /\ w_db w' = with_transactions (w_db w)
        (<[tx := header_of s rc tx z]> (ledger_transactions (w_db w))))); [done| |by split].
    unfold sql_insert_transaction. cbn [p_Amount p_Currency p_SourceAccountID
      p_DestinationAccountID p_ID p_IdempotencyKey p_IdempotencyScope insert_params].
    rewrite (proj2 (sql_bigint_inr _ _) Hz).
    rewrite (proj2 (Z.ltb_ge 3 _) (rd_currency _ _ R)).
    rewrite !currency_matches_usable; [|apply R..]. cbn [negb].
    rewrite (proj2 (Z.leb_gt z 0) Hp), Hfresh, bool_decide_false by (by intros []).
    rewrite !(proj2 (any_tx_false _ _)); [done|..]; intros id t Ht; by apply (Hfree id). }
  intros r w1 Hl ([] & -> & En & E). apply settles_ret; [by eauto with ledger|].
  split; [done|]. by exists (header_of s rc tx z).
Qed.

Lemma exec_body_settles es w :
  ready es (w_db w) -> projectionWriter s = None -> healthy w -> fresh_ids w ->
  settles (exec_body s p rc) w (fun r w' =>
    r = None /\ exists tx, appended tx es (w_db w) (w_db w')).
Proof.
  intros R Hpw Hw Hf. unfold exec_body. eapply settles_bind.
  { by apply (settles_NewV7 w (fun id w1 => id = w_ids w (w_next_id w)
      /\ w1 = set_ids w (S (w_next_id w)))). }
  intros tx w1 Hl1 [-> ->]. set (tx := w_ids w (w_next_id w)).
  eapply settles_bind; [apply settles_wrap, savepoint_settles; by eauto with ledger|].
  intros _ w2 Hl2 [E2 N2]. simpl in E2, N2.
  eapply settles_bind; [apply settles_try, (Insert_settles es tx w2)|].
  { by rewrite E2. } { by eauto with ledger. } { rewrite E2. by apply (fr_header w Hf). }
  intros r w3 Hl3 ([] & -> & N3 & t & Hcur & Hopen & E3).
  eapply settles_bind; [apply settles_ignore, release_savepoint_settles; by eauto with ledger|].
  intros _ w4 Hl4 [E4 N4]. assert (Hw4 : healthy w4) by eauto with ledger.
  assert (Ed : w_db w4 = with_transactions (w_db w) (gated (w_db w) tx t)) by (by rewrite E4, E3, E2).
  assert (Hfresh : ledger_transactions (w_db w) !! tx = None) by (by apply (fr_header w Hf)).
  assert (Hi : w_ids w4 = w_ids w).
  { by rewrite (lt_ids _ _ Hl4), (lt_ids _ _ Hl3), (lt_ids _ _ Hl2). }
  assert (Hf4 : fresh_ids w4).
  { destruct Hf as [F1 F2 F3 F4 F5]. split; rewrite Hi, ?N4, ?N3, ?N2; [done|..];
      rewrite E4, E3, E2; simpl.
    - intros n Hn. rewrite lookup_insert_ne; [apply F2; lia|]. intros Heq%F1. lia.
    - intros n e Hn. apply F3. lia.
    - intros n e Hn. apply F4. lia.
    - intros n o Hn. apply F5. lia. }
  eapply settles_bind; [apply (settles_passes _ _ tx t _ tt w4 (fun _ w' => w' = w4) (rd_policy _ _ R)); done|].
  intros [] w5 _ ->. unfold consume_fee_quote. rewrite (rd_unquoted _ _ R), bool_decide_true by done.
  eapply settles_bind; [by apply (settles_ret rc w4 (fun r w' => r = rc /\ w' = w4))|].
  intros ? w5 _ [-> ->].
  eapply settles_bind; [apply (settles_passes _ _ tx t _ tt w4 (fun _ w' => w' = w4) (rd_payin _ _ R)); done|].
  intros [] w5 _ ->. apply (settles_bind _ _ _ (fun r w' => r = None /\ w' = w4)).
  { unfold pre_lock_check. destruct (ValidateBeforeBalanceLocks p) as [f|] eqn:Ep;
      [|by apply settles_ret]. eapply settles_bind.
    { apply settles_try. by apply (settles_passes _ _ tx t _ tt w4 (fun _ w' => w' = w4) (rd_pre _ _ R f Ep)). }
    intros ? w5 _ ([] & -> & ->). by apply settles_ret. }
  intros ? w5 _ [-> ->]. eapply settles_mono; [eapply (post_settles es (w_db w) tx t); try done|].
  - intros e He. apply (fr_posted w Hf); [lia|done].
  - intros r w5 _ [-> Happ]. split; [done|]. exists tx. by rewrite Ed in Happ.
Qed.
End execution.

(** ** The transaction commits, and the call succeeds *)
Section handle.
Context `{DEC : !Decimal} `{UT : !UuidText} `{HASH : !Hashing}.
Context (s : Service) `{!LawfulService s}.

(** The deferred trigger accepts the rows of a posting. *)
Lemma posting_commits d d' tx rows :
  posting d d' tx rows -> fn_ledger_entries_check_balanced d d' = true.
Proof.
  intros P. unfold fn_ledger_entries_check_balanced. rewrite (po_entries _ _ _ _ P), drop_app_length.
  apply forallb_forall. intros r Hr%list_elem_of_In.
  destruct (po_rows _ _ _ _ P r Hr) as [-> _]. rewrite <- (po_entries _ _ _ _ P).
  by rewrite (posting_tx_net _ _ _ _ P), decide_True.
Qed.

(** One transaction holding the entries. *)
Definition posts (es : list EntryInstruction) (d d' : database) : Prop :=
  exists tx rows, posting d d' tx rows /\ Forall2 (row_of tx) es rows.

Lemma posting_appended es d d' tx tx' rows :
  posting d d' tx rows -> appended tx' es d d' -> posts es d d'.
Proof.
  intros P (rows' & HR & E). rewrite (po_entries _ _ _ _ P) in E. apply app_inv_head in E as <-.
  exists tx, rows. split; [done|]. destruct HR as [|e r es rows (bal & Hm) HR].
  - by destruct (po_nonempty _ _ _ _ P).
  - destruct (po_rows _ _ _ _ P r ltac:(left)) as [E _]. rewrite (rm_tx _ _ _ _ Hm) in E. subst tx'.
    constructor; [by exists bal|exact HR].
Qed.

Lemma execTransfer_settles p rc es w `{!LawfulProcessor p} :
  ready s p rc es (w_db w) -> projectionWriter s = None -> healthy w -> fresh_ids w ->
  covers p (ReferenceID (rc_Command rc)) (AccountIDs rc) (w_db w) -> balances_in_range (w_db w) ->
  settles (execTransfer s p rc) w (fun _ w' => posts es (w_db w) (w_db w')).
Proof.
  intros R Hpw [Hc Ha] Hf Hcov Hwf. unfold execTransfer.
  destruct (exec_body_settles s p rc es (set_begun w)) as (r & w1 & Hr & Hl & -> & txa & Happ);
    [exact R|exact Hpw|by split|by destruct Hf|].
  assert (Hx : exists tx rows, posting (w_db w) (w_db w1) tx rows).
  { destruct (exec_body_Ok s p rc (set_begun w) None w1) as [tx Hcm]; [exact Hcov|exact Hwf|done|].
    exists tx. by apply committed_posting in Hcm. }
  destruct Hx as (tx & rows & P). destruct (lt_healthy _ _ Hl) as [Hc1 Ha1].
  eapply (settles_bind _ _ _ (fun r w' => r = None /\ w' = w1)).
  - exists None, w1. split_and!; [|by destruct Hl|done|done].
    unfold WithTx, next_call at 1. rewrite Hc. cbv zeta. rewrite Hr. unfold commit, next_call.
    rewrite Hc1, Ha1. simpl. by rewrite (posting_commits _ _ tx rows).
  - intros ? w2 _ [-> ->]. apply settles_ret; [by eauto with ledger|].
    by eapply posting_appended.
Qed.

Lemma transfer_settles p rc es w `{!LawfulProcessor p} :
  ready s p rc es (w_db w) -> projectionWriter s = None -> healthy w -> fresh_ids w ->
  covers p (ReferenceID (rc_Command rc)) (AccountIDs rc) (w_db w) -> balances_in_range (w_db w) ->
  settles (transfer s p rc) w (fun _ w' => posts es (w_db w) (w_db w')).
Proof.
  intros. unfold transfer, maxRetry. cbn [transfer_loop Nat.ltb Nat.leb].
  eapply settles_bind; [by apply (settles_ret tt w (fun _ w' => w' = w))|].
  intros [] w1 _ ->. eapply settles_bind; [by apply settles_try, (execTransfer_settles p rc es)|].
  intros r w1 Hl ([] & -> & HQ). apply settles_ret; [by eauto with ledger|done].
Qed.

(** What [Handle] does before [transfer], when nothing stands against it. *)
Record accepted (cmd : Command) (p : TxProcessor) (rc : ResolvedCommand)
    (es : list EntryInstruction) (w : world) : Prop := {
  ac_precheck : precheck s cmd = Ok tt;
  ac_processor : registry_ s !! Type_ cmd = Some p;
  ac_unquoted : QuoteID cmd = EmptyString;
  ac_command : ValidateCommand p cmd w = (Ok tt, w);
  ac_resolved : settles (ResolveAccounts p cmd) w (fun rac w' =>
    w_db w' = w_db w /\ w_next_id w' = w_next_id w /\ resolve_command cmd rac.1 rac.2 = Ok rc);
  ac_after c w' : healthy w' -> AfterCommit p c w' = (Ok tt, w');
  ac_ready : ready s p rc es (w_db w);
}.

Lemma Handle_settles `{!LawfulRegistry (registry_ s)} cmd p rc es w :
  accepted cmd p rc es w -> projectionWriter s = None -> healthy w -> fresh_ids w ->
  balances_in_range (w_db w) ->
  settles (Handle s cmd) w (fun _ w' => posts es (w_db w) (w_db w')).
Proof.
  intros [Hpre Hp Hq Hv Hres Haft R] Hpw Hw Hf Hwf. unfold Handle.
  pose proof (lr_processor _ _ Hp).
  eapply settles_bind; [by apply (settles_lift _ tt w (fun _ w' => w' = w))|]. intros [] w0 _ ->.
  unfold Registry_Get. rewrite Hp.
  eapply settles_bind; [by apply (settles_ret p w (fun r w' => r = p /\ w' = w))|].
  intros ? w0 _ [-> ->]. unfold peek_quote. rewrite Hq.
  rewrite (bool_decide_false (EmptyString <> EmptyString)) by auto. cbn [andb].
  eapply settles_bind; [by apply (settles_ret cmd w (fun r w' => r = cmd /\ w' = w))|].
  intros ? w0 _ [-> ->].
  eapply (settles_bind _ _ _ (fun _ w' => w' = w)).
  { apply settles_wrap. exists tt, w. by split_and!; auto with ledger. }
  intros ? w0 _ ->. apply settles_run in Hres.
  eapply settles_bind; [by apply settles_wrap, Hres|].
  intros [ra c] w1 Hl (Hrun & E1 & N1 & Hrc). simpl in Hrc.
  assert (Hcov : covers p (ReferenceID (rc_Command rc)) (AccountIDs rc) (w_db w)).
  { intros Ht e. apply resolve_command_Ok in Hrc as (Hrs & -> & _).
    rewrite (rs_reference _ _ Hrs). intros He%(lp_covers _ _ _ _ _ Hrun Ht e).
    by apply elem_of_deduplicate. }
  eapply settles_bind; [apply (settles_lift _ rc w1 (fun r w' => r = rc /\ w' = w1));
    [done|by eauto with ledger|done]|].
  intros ? w2 _ [-> ->]. eapply settles_bind.
  { apply settles_try, (transfer_settles p rc es); rewrite ?E1; try done; [by eauto with ledger|].
    destruct Hf as [F1 F2 F3 F4 F5].
    split; rewrite (lt_ids _ _ Hl), ?N1, ?E1; assumption. }
  intros r w2 Hl2 ([] & -> & P). apply settles_ignore. rewrite E1 in P.
  exists tt, w2. split; [by apply Haft, Hl2|]. split; [by apply later_refl, Hl2|done].
Qed.
End handle.
