(* ===== verification/Theorems.v ===== *)
(** * What the posting service guarantees

    The properties of [Handle] under every schedule of database failures and
    lost acknowledgements. *)
From Stdlib Require Import QArith Lqa.
From stdpp Require Import prelude gmap strings list.
From S2P Require Import Prelude Decimal Errors Currency Events Store TxRepo Repos AccountRepo.
From S2P Require Import Fee Processors ProcMoney ProcFx Handle Frames Lawful Postings Invariant Engine.
From S2P Require Import Entries Outcome Components Scenarios Effects Progress Liveness.
Open Scope Z_scope.

Section theorems.
Context `{DEC : !Decimal} `{UT : !UuidText} `{HASH : !Hashing}.
Context (s : Service) `{!LawfulService s} `{!LawfulRegistry (registry_ s)}.

(** C1: a call of [Handle], whatever its command, its outcome and the failures
    it meets, keeps the ledger invariant: every stored balance is the signed
    sum of the account's entries and the one its newest entry recorded, fits
    64 bits, respects the floor, and every transaction balances in one currency. *)
Theorem handle_preserves_ledger_invariant cmd w r w' :
  wf_ledger (w_db w) -> Handle s cmd w = (r, w') -> wf_ledger (w_db w').
Proof.
  intros W H. eapply ledger_step_wf; [|done]. eapply (Handle_ledger_step s); [by apply wf_range|done].
Qed.

(** C2: money is neither created nor destroyed: the total of the balances in
    every currency is the same before and after a call. *)
Theorem handle_conserves_money cmd w r w' c :
  wf_ledger (w_db w) -> Handle s cmd w = (r, w') -> total (w_db w') c = total (w_db w) c.
Proof.
  intros W H. eapply ledger_step_total. eapply (Handle_ledger_step s); [by apply wf_range|done].
Qed.

(** C3: the service refines the abstract ledger: one call is at most one step,
    either nothing, or one posted transaction (its balanced rows appended, its
    balances moved by them), or one rejected header and no change of money;
    retries after a lost acknowledgement never add a second one. *)
Theorem handle_refines_ledger_step cmd w r w' :
  balances_in_range (w_db w) -> Handle s cmd w = (r, w') -> ledger_step (w_db w) (w_db w').
Proof. by apply Handle_ledger_step. Qed.

(** C7: success means posted: when [Handle] returns nil the database holds a
    posted header of the command's idempotency key whose fingerprint is the
    command's (or which predates fingerprints). *)
Theorem handle_success_means_posted cmd w w' :
  balances_in_range (w_db w) -> Handle s cmd w = (Ok tt, w') ->
  exists rc, resolves cmd rc /\ posted_key s rc (w_db w').
Proof. by apply Handle_success. Qed.

(** C8: a key that is taken is never executed again: with a header of the same
    digest, or the same raw key and scope, in the database, the call changes
    nothing at all, whatever it answers. *)
Theorem handle_replay_changes_nothing cmd w r w' id t :
  ledger_transactions (w_db w) !! id = Some t ->
  (t_key_digest t = Some (Digest (digestRing s)
     (canonicalIdempotencyInput (stringPtr (IdempotencyScope cmd)) (IdempotencyKey cmd))).1
   \/ same_identity (IdempotencyKey cmd) (stringPtr (IdempotencyScope cmd)) t = true) ->
  Handle s cmd w = (r, w') -> w_db w' = w_db w.
Proof.
  intros Ht Hk H.
  destruct (Handle_inv s cmd w r w' H)
    as [[E _]|(p & rc & w1 & r1 & w2 & Hp & Hrc & E1 & _ & Htr & E2 & _)]; [done|].
  pose proof (lr_processor _ _ Hp). rewrite E2, <- E1. eapply transfer_loop_present; [|done].
  exists id, t. rewrite E1. split; [done|].
  unfold key_digest. by rewrite (rs_key _ _ Hrc), (rs_scope _ _ Hrc).
Qed.

(** history is immutable: an existing header survives every call with the
    same type, amount, currency, accounts, key and fingerprint; once closed it
    keeps its closer and reason; its status changes only by being closed as
    reversed. *)
Theorem handle_keeps_headers cmd w r w' id t :
  balances_in_range (w_db w) -> Handle s cmd w = (r, w') ->
  ledger_transactions (w_db w) !! id = Some t ->
  exists t', ledger_transactions (w_db w') !! id = Some t' /\ same_header t t' /\
    closed_once t t' /\
    (t_status t' = t_status t \/
     (t_closed_by t = None /\ is_Some (t_closed_by t') /\ t_status t' = "reversed")).
Proof.
  intros Hwf H Ht.
  destruct (Handle_step s cmd w r w' Hwf H) as [E|(p & rc & tx & res & Hp & _ & Hc & _)].
  { rewrite E. exists t. split_and!; [done|reflexivity|by intros ?|by left]. }
  destruct (te_kept _ _ _ (co_evolves _ _ _ _ _ _ _ Hc) id t Ht) as (t' & Ht' & Hh & Hcl & Ho).
  exists t'. split_and!; try done. destruct Ho as [[? _]|(? & ? & ? & _)]; [|by left|by right].
  intros ->. by rewrite (co_fresh _ _ _ _ _ _ _ Hc) in Ht.
Qed.

(** A command whose original is already closed moves no money. *)
Lemma closed_original_posts_nothing cmd w r w' reason t :
  balances_in_range (w_db w) -> Handle s cmd w = (r, w') ->
  lifecycleCloseReason !! Type_ cmd = Some reason ->
  ledger_transactions (w_db w) !! ReferenceID cmd = Some t -> is_Some (t_closed_by t) ->
  same_ledger (w_db w) (w_db w').
Proof.
  intros Hwf H Hl Ht Hcl.
  destruct (Handle_step s cmd w r w' Hwf H) as [->|(p & rc & tx & res & Hp & Hrc & Hc & _)];
    [reflexivity|].
  pose proof (lr_processor _ _ Hp). destruct res as [err|]; [by eapply committed_rejected|exfalso].
  rewrite <- (rs_reference _ _ Hrc) in Ht. rewrite <- (rs_type _ _ Hrc) in Hl.
  eapply committed_closes in Hl as (t0 & _ & Ht0 & Ho & _); [|done|].
  - rewrite Ht in Ht0. injection Ht0 as <-. rewrite Ho in Hcl. by destruct Hcl.
  - intros E. rewrite E, (co_fresh _ _ _ _ _ _ _ Hc) in Ht. done.
Qed.
(** Who closed an original, and why. *)
Definition closed_as (d : database) (id by_ : uuid) (reason : string) : Prop :=
  exists t, ledger_transactions d !! id = Some t /\ t_closed_by t = Some by_ /\ t_closed_reason t = Some reason.
Lemma committed_closed_as p rc tx d d' reason :
  committed s p rc tx d d' None -> lifecycleCloseReason !! Type_ (rc_Command rc) = Some reason ->
  closed_as d' (ReferenceID (rc_Command rc)) tx reason.
Proof.
  intros [_ _ _ _ (amount & d1 & rc1 & d2 & _ & Hf & bal & es & rows & Hp)] Hl.
  apply fee_applied_command in Hf as (_ & _ & Eref & Ety & _).
  destruct (pb_written _ _ _ _ _ _ _ _ Hp) as (d3 & d4 & _ & Hcl & _ & W).
  unfold closed_original in Hcl. rewrite Ety, Hl, Eref in Hcl. destruct Hcl as (t3 & _ & _ & ->).
  unfold closed_as. rewrite (wr_header _ _ _ _ _ _ W). simpl.
  destruct (decide (ReferenceID (rc_Command rc) = tx)) as [->|Hne];
    [rewrite lookup_alter_eq|rewrite lookup_alter_ne by done]; rewrite lookup_insert_eq; by eexists.
Qed.
Lemma Handle_keeps_closed cmd w r w' id by_ reason :
  balances_in_range (w_db w) -> Handle s cmd w = (r, w') -> closed_as (w_db w) id by_ reason -> closed_as (w_db w') id by_ reason.
Proof.
  intros Hwf H (t & Ht & E1 & E2). destruct (handle_keeps_headers cmd w r w' id t Hwf H Ht) as (t' & Ht' & _ & Hc & _).
  destruct Hc as [Ea Eb]; [by exists by_|]. exists t'. by rewrite Ea, Eb.
Qed.
Lemma run_all_keeps_closed cmds w rs w' id by_ reason :
  wf_ledger (w_db w) -> run_all s cmds w = (rs, w') -> closed_as (w_db w) id by_ reason ->
  wf_ledger (w_db w') /\ closed_as (w_db w') id by_ reason.
Proof.
  revert w rs. induction cmds as [|c cmds IH]; intros w rs W; cbn [run_all]; [by intros [= _ <-]|].
  destruct (Handle s c w) as [r w1] eqn:E1, (run_all s cmds w1) as [rs1 w2] eqn:E2. intros [= _ <-] Hc.
  eapply IH; [|exact E2|by eapply Handle_keeps_closed; [apply wf_range| |]].
  eapply ledger_step_wf; [|exact W]. eapply (Handle_ledger_step s); [by apply wf_range|done].
Qed.

(** C24: an original is closed at most once, and by exactly what closed it.  A call whose
    type is in the closing table (reversal, refund, and the settling, cancelling,
    releasing and refunding of user withdrawals and escrows) either moves no money, or
    finds its original open (the one other case is a reference that is the id drawn
    for the posting itself) and, in the same commit as its one posting, marks it closed
    by that posting for the reason of its type; and whatever commands run after that,
    the mark stays, and no later call of a closing type on the same original, with
    whatever key and under whatever failures, moves any money.  The merchant payout
    types are not in the table: nothing is claimed of them, and
    payout_hold_is_settled_twice shows a run in which such a hold is settled twice. *)
Theorem originals_are_closed_once cmd w r w' reason :
  wf_ledger (w_db w) -> Handle s cmd w = (r, w') -> lifecycleCloseReason !! Type_ cmd = Some reason ->
  same_ledger (w_db w) (w_db w') \/
  exists tx rows, posting (w_db w) (w_db w') tx rows /\
    (ReferenceID cmd = tx \/
     exists t, ledger_transactions (w_db w) !! ReferenceID cmd = Some t /\ t_closed_by t = None) /\
    closed_as (w_db w') (ReferenceID cmd) tx reason /\
    forall cmds rs w1 cmd2 r2 w2 reason2,
      run_all s cmds w' = (rs, w1) -> Handle s cmd2 w1 = (r2, w2) ->
      lifecycleCloseReason !! Type_ cmd2 = Some reason2 -> ReferenceID cmd2 = ReferenceID cmd ->
      same_ledger (w_db w1) (w_db w2) /\ closed_as (w_db w2) (ReferenceID cmd) tx reason.
Proof.
  intros W H Hl. assert (Hwf := wf_range _ W).
  assert (W' : wf_ledger (w_db w')) by (eapply ledger_step_wf; [by eapply (Handle_ledger_step s)|done]).
  destruct (Handle_step s cmd w r w' Hwf H) as [->|(p & rc & tx & res & Hp & Hrc & Hc & _)]; [by left|].
  pose proof (lr_processor _ _ Hp). destruct res as [err|]; [left; by eapply committed_rejected|right].
  destruct (committed_posting s p rc tx _ _ Hc) as [rows P]. assert (Hl' := Hl). rewrite <- (rs_type _ _ Hrc) in Hl'.
  assert (C := committed_closed_as p rc tx _ _ reason Hc Hl').
  exists tx, rows. split; [done|]. split.
  { destruct (decide (ReferenceID (rc_Command rc) = tx)) as [E|E]; [left; by rewrite <- (rs_reference _ _ Hrc)|right].
    eapply committed_closes in Hl' as (t & _ & Ht & Ho & _); [|exact Hc|done].
    rewrite (rs_reference _ _ Hrc) in Ht. by exists t. }
  rewrite (rs_reference _ _ Hrc) in C. split; [done|].
  intros cmds rs w1 cmd2 r2 w2 reason2 Hr H2 Hl2 Eref.
  destruct (run_all_keeps_closed _ _ _ _ _ _ _ W' Hr C) as [W1 (t1 & Ht1 & E1 & E2)].
  split; [|eapply Handle_keeps_closed; [by apply wf_range|exact H2|by exists t1]].
  eapply (closed_original_posts_nothing cmd2 w1 r2 w2 reason2 t1); [by apply wf_range|done..|by rewrite Eref|by exists tx].
Qed.

(** C14: a transaction is atomic: either nothing changed and the call failed, or
    one balanced transaction was posted, or one rejection was recorded without
    touching money; an error other than the recorded rejection is reported
    after a change only when the acknowledgement of the commit was lost. *)
Theorem execTransfer_is_atomic p rc w r w' `{!LawfulProcessor p} :
  covers p (ReferenceID (rc_Command rc)) (AccountIDs rc) (w_db w) ->
  balances_in_range (w_db w) -> execTransfer s p rc w = (r, w') ->
  (w_db w' = w_db w /\ r <> Ok tt)
  \/ (exists tx rows, posting (w_db w) (w_db w') tx rows /\
       (r = Ok tt \/ exists e, r = Err (Wrap "commit tx" e)))
  \/ (exists tx err t, same_ledger (w_db w) (w_db w') /\
       ledger_transactions (w_db w') !! tx = Some t /\ t_error t = Some err /\
       (r = Err err \/ exists e, r = Err (Wrap "commit tx" e))).
Proof.
  intros Hcov Hwf H.
  destruct (execTransfer_db s p rc w r w' Hcov Hwf H) as [?|(tx & [err|] & Hc & Hr)]; [by left|..];
    right; [right|left].
  - destruct (co_header _ _ _ _ _ _ _ Hc) as (_ & t & _ & _ & Ht & _ & _ & He).
    exists tx, err, t. split; [by eapply committed_rejected|]. done.
  - apply committed_posting in Hc as [rows Hp]. eauto.
Qed.

(** C30: no call posts to an account that is suspended or closed, or to one of
    another currency than the transaction's. *)
Theorem handle_posts_to_usable_accounts cmd w r w' e :
  balances_in_range (w_db w) -> Handle s cmd w = (r, w') ->
  e ∈ drop (length (ledger_entries (w_db w))) (ledger_entries (w_db w')) ->
  exists x t, accounts (w_db w) !! e_account_id e = Some x /\
    ledger_transactions (w_db w') !! e_transaction_id e = Some t /\
    a_status x = "active" /\ a_currency x = t_currency t.
Proof.
  intros Hwf H He.
  destruct (Handle_posted s cmd w r w' Hwf H) as [(_ & _ & Ee & _)|(p & rc & tx & Hp & _ & Hc)].
  { rewrite Ee, drop_all in He. by apply not_elem_of_nil in He. }
  pose proof (lr_processor _ _ Hp).
  destruct (co_header _ _ _ _ _ _ _ Hc) as (amount & t & _ & _ & Ht & Hh & _).
  apply committed_run in Hc as (rc1 & es & rows & R).
  rewrite (po_entries _ _ _ _ (pr_posting _ _ _ _ _ _ _ _ R)), drop_app_length in He.
  destruct (po_rows _ _ _ _ (pr_posting _ _ _ _ _ _ _ _ R) e He) as [-> _].
  apply list_elem_of_lookup in He as [i Hi].
  destruct (Forall2_lookup_r _ _ _ _ _ (pr_rows _ _ _ _ _ _ _ _ R) Hi) as (ei & Hei & bal & Hm).
  destruct (pr_within _ _ _ _ _ _ _ _ R) as [_ Hin]. rewrite Forall_lookup in Hin.
  destruct (pr_usable _ _ _ _ _ _ _ _ R _ (Hin i ei Hei)) as (x & Hx & Hst & Hcur).
  exists x, t. rewrite (rm_account _ _ _ _ Hm). split_and!; try done.
  destruct Hh as (_ & _ & _ & _ & -> & _). done.
Qed.

(** C27: a reversal undoes its original exactly: if the call moved money at
    all, every balance changed by minus the original's effect on it. *)
Theorem reversal_undoes_original `{REPO : !AccountRepository} reg cmd w r w' :
  registry_ s !! "reversal" = Some (Reversal reg) -> Type_ cmd = "reversal" ->
  balances_in_range (w_db w) -> Handle s cmd w = (r, w') ->
  same_ledger (w_db w) (w_db w') \/
  forall a, account_balances (w_db w') !! a =
    (fun b => BalanceRow (b_balance b
         - computed_balance a (entries_of_tx (ReferenceID cmd) (ledger_entries (w_db w))))
       (b_allow_negative b)) <$> account_balances (w_db w) !! a.
Proof.
  intros Hreg Hty Hwf H.
  destruct (Handle_posted s cmd w r w' Hwf H) as [?|(p & rc & tx & Hp & Hrc & Hc)]; [by left|right].
  pose proof (lr_processor _ _ Hp). rewrite Hty, Hreg in Hp. injection Hp as <-.
  apply committed_run in Hc as (rc1 & es & rows & R). intros a.
  rewrite (po_balances _ _ _ _ (pr_posting _ _ _ _ _ _ _ _ R)).
  destruct (pr_built _ _ _ _ _ _ _ _ R) as (bal & v & v' & (_ & _ & Ee & _) & Hb).
  apply Reversal_BuildEntries_Ok in Hb as (l & Hl & _ & _ & ->).
  destruct (pr_same _ _ _ _ _ _ _ _ R) as (_ & _ & Eref & _).
  rewrite Eref, (rs_reference _ _ Hrc), Ee in Hl.
  rewrite (reversed_rows tx l rows a (pr_rows _ _ _ _ _ _ _ _ R)).
  replace (computed_balance a l) with
    (computed_balance a (entries_of_tx (ReferenceID cmd) (ledger_entries (w_db w))));
    [done|]. symmetry. by apply sumZ_perm.
Qed.

(** C34: the outbox is transactional: a call that moves no money emits nothing;
    one that posts appends, in the same commit, events whose first announces
    the transaction with exactly the rows stored. *)
Theorem posting_emits_its_event `{REPO : !AccountRepository} reg cmd w r w' :
  NewDefaultRegistry reg = Ok (registry_ s) ->
  balances_in_range (w_db w) -> Handle s cmd w = (r, w') ->
  (ledger_entries (w_db w') = ledger_entries (w_db w) /\
   outbox_events (w_db w') = outbox_events (w_db w))
  \/ exists tx rows ev o os,
    ledger_entries (w_db w') = ledger_entries (w_db w) ++ rows /\
    outbox_events (w_db w') = outbox_events (w_db w) ++ o :: os /\
    o_payload o = PPosted ev /\ o_event_type o = TypeTransactionPosted /\ tp_TxID ev = tx /\
    Forall (fun e => e_transaction_id e = tx) rows /\
    tp_Entries ev = map (fun e => MkEntrySummary (e_account_id e) (direction_text (e_direction e))
                                                 (Z_text (e_amount e))) rows.
Proof.
  intros Hreg Hwf H. pose proof (default_registry_events reg _ Hreg) as Hevents. clear Hreg.
  destruct (Handle_posted s cmd w r w' Hwf H) as [(_ & _ & ? & ? & _)|(p & rc & tx & Hp & Hrc & Hc)];
    [by left|right]. pose proof (lr_processor _ _ Hp).
  apply committed_run in Hc as (rc1 & es & rows & R).
  destruct (pr_outbox _ _ _ _ _ _ _ _ R) as (now & os & Eo & Hev).
  destruct (Hevents _ _ Hp rc1 tx es now) as [rest Erest]. rewrite Erest in Hev.
  apply Forall2_cons_inv_l in Hev as (o & os' & [Et _ _ Ep] & _ & ->).
  unfold newPostedEvent in Et, Ep. cbv zeta in Ep. simpl in Ep.
  set (ev := if bool_decide _ then _ else _) in Ep.
  exists tx, rows, ev, o, os'. split; [apply (pr_posting _ _ _ _ _ _ _ _ R)|].
  assert (Hev : tp_TxID ev = tx /\ tp_Entries ev = buildEntrySummaries es).
  { unfold ev, with_topup_fields. case_bool_decide; [|done]. by destruct (MetaDecimal _ _). }
  destruct Hev as [? ->]. split_and!; try done.
  - apply Forall_forall. intros e He. by apply (po_rows _ _ _ _ (pr_posting _ _ _ _ _ _ _ _ R)).
  - by apply (summaries_of_rows tx), (pr_rows _ _ _ _ _ _ _ _ R).
Qed.

(** C35: the nine fee-collecting types (payment, withdrawal initiation and
    settlement, P2P transfer, merchant pay-in and payout, escrow hold and
    release) move exactly the stated amounts: the first account pays the gross
    amount, the second receives the net, the fee account the fee, which is
    less than the amount, and no other balance changes. *)
Theorem fee_posting_moves_exactly `{REPO : !AccountRepository} reg p cmd w r w' :
  registry_ s !! Type_ cmd = Some p -> p ∈ fee_processors reg ->
  balances_in_range (w_db w) -> Handle s cmd w = (r, w') ->
  same_ledger (w_db w) (w_db w') \/
  exists payer payee feeAccount z k, payer <> payee /\ dec_bigint (Amount cmd) = Some z /\
    0 <= k < z /\
    forall x, account_balances (w_db w') !! x =
      (fun b => BalanceRow (b_balance b + (credit_if x payee (z - k) + credit_if x feeAccount k
                                           - credit_if x payer z))
         (b_allow_negative b)) <$> account_balances (w_db w) !! x.
Proof.
  intros Hreg Hfee Hwf H.
  destruct (Handle_posted s cmd w r w' Hwf H) as [?|(p' & rc & tx & Hp & Hrc & Hc)]; [by left|right].
  pose proof (lr_processor _ _ Hp). rewrite Hreg in Hp. injection Hp as <-.
  destruct (co_header _ _ _ _ _ _ _ Hc) as (z & _ & Hz & Hpos & _).
  apply committed_run in Hc as (rc1 & es & rows & R).
  pose proof (fee_processors_collect reg) as Hall. rewrite Forall_forall in Hall.
  destruct (fee_run _ _ _ _ _ _ _ _ z R (Hall p Hfee) (rs_nodup _ _ Hrc) Hz Hpos)
    as (a & b & fa & k & Hab & Hk & Heff).
  exists a, b, fa, z, k. rewrite <- (rs_amount _ _ Hrc). split_and!; [done|done|lia|lia|].
  intros x. by rewrite (po_balances _ _ _ _ (pr_posting _ _ _ _ _ _ _ _ R)), Heff.
Qed.

(** the twenty-six two-leg types move exactly the amount, from the first
    resolved account to the second, and no other balance. *)
Theorem two_leg_posting_moves_exactly `{REPO : !AccountRepository} reg p cmd w r w' :
  registry_ s !! Type_ cmd = Some p -> p ∈ two_leg_processors reg ->
  balances_in_range (w_db w) -> Handle s cmd w = (r, w') ->
  same_ledger (w_db w) (w_db w') \/
  exists a b z, a <> b /\ dec_bigint (Amount cmd) = Some z /\ 0 < z /\
    forall x, account_balances (w_db w') !! x =
      (fun bal => BalanceRow (b_balance bal + (credit_if x b z - credit_if x a z))
         (b_allow_negative bal)) <$> account_balances (w_db w) !! x.
Proof.
  intros Hreg Htwo Hwf H.
  destruct (Handle_posted s cmd w r w' Hwf H) as [?|(p' & rc & tx & Hp & Hrc & Hc)]; [by left|right].
  pose proof (lr_processor _ _ Hp). rewrite Hreg in Hp. injection Hp as <-.
  destruct (co_header _ _ _ _ _ _ _ Hc) as (z & _ & Hz & Hpos & _).
  apply committed_run in Hc as (rc1 & es & rows & R).
  pose proof (two_leg_processors_move reg) as Hall. rewrite Forall_forall in Hall.
  destruct (two_leg_run _ _ _ _ _ _ _ _ z R (Hall p Htwo) (rs_nodup _ _ Hrc) Hz)
    as (a & b & _ & _ & Hab & Heff).
  exists a, b, z. rewrite <- (rs_amount _ _ Hrc). split_and!; try done.
  intros x. by rewrite (po_balances _ _ _ _ (pr_posting _ _ _ _ _ _ _ _ R)), Heff.
Qed.

(** a top-up credits the user with the whole amount when the fee is added
    on top, and with the amount less the fee otherwise; the settlement account
    pays principal and fee together, the fee account receives the fee. *)
Theorem topup_posting_moves_exactly `{REPO : !AccountRepository} reg cmd w r w' :
  registry_ s !! Type_ cmd = Some (MoneyIn reg) ->
  balances_in_range (w_db w) -> Handle s cmd w = (r, w') ->
  same_ledger (w_db w) (w_db w') \/
  exists settlement user feeAccount z k, settlement <> user /\
    dec_bigint (Amount cmd) = Some z /\ 0 <= k < z /\
    forall x, account_balances (w_db w') !! x =
      (fun bal => BalanceRow (b_balance bal
           + (credit_if x user (if on_top cmd then z else z - k) + credit_if x feeAccount k
              - credit_if x settlement (if on_top cmd then z + k else z)))
         (b_allow_negative bal)) <$> account_balances (w_db w) !! x.
Proof.
  intros Hreg Hwf H.
  destruct (Handle_posted s cmd w r w' Hwf H) as [?|(p & rc & tx & Hp & Hrc & Hc)]; [by left|right].
  pose proof (lr_processor _ _ Hp). rewrite Hreg in Hp. injection Hp as <-.
  destruct (co_header _ _ _ _ _ _ _ Hc) as (z & _ & Hz & Hpos & _).
  apply committed_run in Hc as (rc1 & es & rows & R).
  destruct (pr_built _ _ _ _ _ _ _ _ R) as (bal & v & v' & _ & Hbuild).
  destruct (pr_valid _ _ _ _ _ _ _ _ R) as (bal2 & v2 & v2' & _ & Hval & _).
  destruct (pr_same _ _ _ _ _ _ _ _ R) as (Eids & _ & _ & _ & Eamt & Hm).
  assert (Etop : on_top (rc_Command rc1) = on_top cmd).
  { unfold on_top, MetaString_, MetaString. rewrite (Hm "fee_application") by done.
    by rewrite (rs_meta _ _ Hrc) by done. }
  rewrite <- Eamt in Hz.
  destruct (topup_effect _ _ _ _ _ _ _ _ _ _ _ z Hval Hbuild (pr_rows _ _ _ _ _ _ _ _ R) Hz Hpos)
    as (a & b & fa & k & Ha & Hb & Hk & Heff).
  exists a, b, fa, z, k. rewrite <- (rs_amount _ _ Hrc), <- Eamt, <- Etop. split_and!; try done; try lia.
  - rewrite Eids in Ha, Hb. intros <-. by pose proof (NoDup_lookup _ _ _ _ (rs_nodup _ _ Hrc) Ha Hb).
  - intros x. by rewrite (po_balances _ _ _ _ (pr_posting _ _ _ _ _ _ _ _ R)), Heff.
Qed.

(** an FX rebalance leaves the position account of its pair and currency
    within the configured limits. *)
Theorem rebalance_respects_position_limits `{REPO : !AccountRepository} reg (up : bool) cmd w r w' :
  registry_ s !! Type_ cmd = Some (if up then FXRebalanceCredit reg else FXRebalanceDebit reg) ->
  balances_in_range (w_db w) -> Handle s cmd w = (r, w') ->
  same_ledger (w_db w) (w_db w') \/
  exists pair_ code lo hi a b z,
    MetaString (Metadata cmd) "pair" = inr pair_ /\ MetaString (Metadata cmd) "currency" = inr code /\
    position_limit (ToUpper (TrimSpace pair_)) (ToUpper (TrimSpace code)) (w_db w) = Some (lo, hi) /\
    dec_bigint (Amount cmd) = Some z /\ account_balances (w_db w) !! a = Some b /\
    account_balances (w_db w') !! a
      = Some (BalanceRow (if up then b_balance b + z else b_balance b - z) (b_allow_negative b)) /\
    lo <= (if up then b_balance b + z else b_balance b - z) <= hi.
Proof.
  intros Hreg Hwf H.
  destruct (Handle_posted s cmd w r w' Hwf H) as [?|(p & rc & tx & Hp & Hrc & Hc)]; [by left|right].
  pose proof (lr_processor _ _ Hp). rewrite Hreg in Hp. injection Hp as Ep.
  destruct (co_header _ _ _ _ _ _ _ Hc) as (z & _ & Hz & Hpos & _).
  apply committed_run in Hc as (rc1 & es & rows & R).
  assert (Hmoves : moves_amount p).
  { pose proof (two_leg_processors_move reg) as Hall. rewrite Forall_forall in Hall. apply Hall.
    rewrite <- Ep. unfold two_leg_processors. destruct up; repeat first [by left|right]. }
  destruct (two_leg_run _ _ _ _ _ _ _ _ z R Hmoves (rs_nodup _ _ Hrc) Hz)
    as (a & b & Ha & Hb & Hab & Heff).
  destruct (pr_same _ _ _ _ _ _ _ _ R) as (Eids & _ & _ & _ & Eamt & Hm).
  destruct (pr_valid _ _ _ _ _ _ _ _ R) as (bal & v & v' & Hsame & Hval & Hbal).
  rewrite <- Eamt in Hz.
  destruct (rebalance_checked reg up rc1 bal v v' z a b) as (pm & cm & lo & hi & ab & ? & ? & Hl & Hab' & Hlim);
    [by rewrite Ep|done|by rewrite Eids|by rewrite Eids|].
  apply Hbal, balance_of_Some in Hab' as (row & x & Hrow & _ & Ebal & _).
  exists pm, cm, lo, hi, (if up then b else a), row, z.
  unfold MetaString in *. rewrite <- !(rs_meta _ _ Hrc), <- !Hm by done.
  destruct Hsame as (_ & _ & _ & _ & Efx). unfold position_limit in *. rewrite Efx in Hl.
  rewrite <- (rs_amount _ _ Hrc), <- Eamt. split_and!; try done; [|apply Hlim, Ebal|apply Hlim, Ebal].
  rewrite (po_balances _ _ _ _ (pr_posting _ _ _ _ _ _ _ _ R)), Heff, Hrow. simpl.
  do 2 f_equal. unfold credit_if. destruct up; repeat case_decide; try done; lia.
Qed.

(** an idempotency key is recorded at most once, ever. *)
Theorem handle_keeps_keys_unique cmd w r w' :
  balances_in_range (w_db w) -> Handle s cmd w = (r, w') ->
  keys_unique (w_db w) -> keys_unique (w_db w').
Proof. by apply (Handle_keys_unique s). Qed.

(** a posted settlement, cancellation, release, refund or reversal found its
    original open and closed it, in the same commit, in its own name. *)
Theorem closing_posts_close_their_original cmd w r w' reason :
  balances_in_range (w_db w) -> Handle s cmd w = (r, w') ->
  lifecycleCloseReason !! Type_ cmd = Some reason ->
  is_Some (ledger_transactions (w_db w) !! ReferenceID cmd) ->
  same_ledger (w_db w) (w_db w') \/
  exists tx t t' own, ledger_transactions (w_db w) !! ReferenceID cmd = Some t /\
    t_closed_by t = None /\ ledger_transactions (w_db w') !! ReferenceID cmd = Some t' /\
    t_closed_by t' = Some tx /\ t_closed_reason t' = Some reason /\
    ledger_transactions (w_db w') !! tx = Some own /\ t_status own = "posted" /\
    t_type own = Type_ cmd.
Proof.
  intros Hwf H Hl [t0 Ht0].
  destruct (Handle_posted s cmd w r w' Hwf H) as [?|(p & rc & tx & Hp & Hrc & Hc)]; [by left|right].
  destruct (co_header _ _ _ _ _ _ _ Hc) as (z & own & _ & _ & Hown & Hh & Hst).
  pose proof (co_fresh _ _ _ _ _ _ _ Hc) as Hfresh. rewrite <- (rs_type _ _ Hrc) in Hl |- *.
  rewrite <- (rs_reference _ _ Hrc) in Ht0 |- *.
  apply (committed_closes _ _ _ _ _ _ _ Hc) in Hl as (t & t' & ? & ? & ? & ? & ?);
    [|intros E; rewrite E, Hfresh in Ht0; done].
  exists tx, t, t', own. destruct Hh as (_ & _ & Ety & _). by split_and!.
Qed.

(** a posting is recorded under a header of its own that states the
    command: type, amount, key digest; the entries appended carry its id. *)
Theorem posting_is_recorded cmd w r w' :
  balances_in_range (w_db w) -> Handle s cmd w = (r, w') ->
  ledger_entries (w_db w') = ledger_entries (w_db w) \/
  exists tx t rows, ledger_entries (w_db w') = ledger_entries (w_db w) ++ rows /\
    Forall (fun e => e_transaction_id e = tx) rows /\
    ledger_transactions (w_db w) !! tx = None /\ ledger_transactions (w_db w') !! tx = Some t /\
    t_status t = "posted" /\ t_type t = Type_ cmd /\ dec_bigint (Amount cmd) = Some (t_amount t) /\
    t_idempotency_scope t = stringPtr (IdempotencyScope cmd) /\
    t_key_digest t = Some (Digest (digestRing s)
      (canonicalIdempotencyInput (stringPtr (IdempotencyScope cmd)) (IdempotencyKey cmd))).1.
Proof.
  intros Hwf H.
  destruct (Handle_posted s cmd w r w' Hwf H) as [(_ & _ & ? & _)|(p & rc & tx & Hp & Hrc & Hc)];
    [by left|right]. pose proof (lr_processor _ _ Hp).
  destruct (co_header _ _ _ _ _ _ _ Hc) as (z & t & Hz & _ & Ht & Hh & Hst).
  pose proof (co_fresh _ _ _ _ _ _ _ Hc) as Hf.
  destruct (committed_posting _ _ _ _ _ _ Hc) as [rows P].
  exists tx, t, rows. destruct Hh as (_ & Esc & Ety & Eam & _ & _ & _ & _ & _ & _ & Ed & _).
  rewrite Esc, Ety, Eam, Ed, <- (rs_type _ _ Hrc), <- (rs_amount _ _ Hrc), <- (rs_scope _ _ Hrc),
    <- (rs_key _ _ Hrc).
  split_and!; try done; [apply P|]. apply Forall_forall. intros e He. by apply (po_rows _ _ _ _ P).
Qed.

(** however many commands run, in whatever order and with whatever
    failures, the ledger reconciles, keys stay unique and the money of every
    currency is the money there was at the start. *)
Theorem every_run_reconciles cmds w rs w' :
  run_all s cmds w = (rs, w') -> wf_ledger (w_db w) -> keys_unique (w_db w) ->
  wf_ledger (w_db w') /\ keys_unique (w_db w') /\ forall c, total (w_db w') c = total (w_db w) c.
Proof. by apply (run_all_invariant s). Qed.

(** C11: the service posts what it can post.  In a service without the optional
    projection writer, on a database that fails no call and hands out fresh ids, take a
    command without a fee quote that resolves and passes its checks (its processor's step
    after the commit included), whose key is free, whose
    accounts are usable, whose entries are integral, balanced and leave every balance
    within 64 bits and its floor, and which closes, if it is of a closing type, an
    original that is still open: [Handle] returns nil and appends one transaction with
    exactly these entries; no statement, constraint, trigger, close guard or commit check refuses it. *)
Theorem ready_commands_are_posted cmd p rc es w :
  accepted s cmd p rc es w -> projectionWriter s = None -> healthy w -> fresh_ids w ->
  balances_in_range (w_db w) ->
  exists w', Handle s cmd w = (Ok tt, w') /\
    exists tx rows, posting (w_db w) (w_db w') tx rows /\ Forall2 (row_of tx) es rows.
Proof.
  intros Ha Hpw Hw Hf Hwf.
  destruct (Handle_settles s cmd p rc es w Ha Hpw Hw Hf Hwf) as ([] & w' & H & _ & HQ). eauto.
Qed.

End theorems.
