(* ===== verification/DisputeTheorems.v ===== *)
(** * A case's history is complete

    The cases and their audit trail as a [Workflow] that posts nothing, under every
    interleaving of operators, the expiry worker and the posting engine; and a run
    where the code does not do what its comment says. *)
From Stdlib Require Import String.
From stdpp Require Import prelude gmap strings list sorting relations.
From S2P Require Import Prelude Decimal Errors Currency Events Processors Store TxRepo Frames Handle Lawful Postings Invariant Entries Engine Outcome Theorems Flow LedgerApi.
From S2P Require Import Scenarios Executor Workflow Dispute.
Open Scope Z_scope.

(** ** The state machine *)
Inductive allowed_move : string -> string -> Prop :=
  | al_evidence : allowed_move "open" "evidence_submitted"
  | al_outcome s t : s ∈ open_statuses -> t ∈ terminal_statuses -> allowed_move s t.
(** The moves of a case, from its opening to where it stands. *)
Inductive path : list (string * string) -> string -> Prop :=
  | path_open : path [] "open"
  | path_move l s t : path l s -> allowed_move s t -> path (l ++ [(s, t)]) t.
Definition moves (changes : list status_change) : list (string * string) :=
  (fun c => (cs_from_status c, cs_to_status c)) <$> changes.
Definition announced_moves (events : list DisputeLifecycle) : list (string * string) :=
  (fun e => (dy_FromStatus e, dy_ToStatus e)) <$> events.
Lemma open_not_terminal s : s ∈ open_statuses -> s ∈ terminal_statuses -> False.
Proof.
  unfold open_statuses, terminal_statuses. intros H1 H2.
  repeat (apply elem_of_cons in H1 as [->|H1]; [by repeat (apply elem_of_cons in H2 as [?|H2]; [done|]); apply not_elem_of_nil in H2|]).
  by apply not_elem_of_nil in H1.
Qed.
(** There are four shapes of a history. *)
Lemma path_shapes l s : path l s ->
  l = [] /\ s = "open" \/ l = [("open", "evidence_submitted")] /\ s = "evidence_submitted" \/
  s ∈ terminal_statuses /\ (l = [("open", s)] \/ l = [("open", "evidence_submitted"); ("evidence_submitted", s)]).
Proof.
  induction 1 as [|l s t Hp IH Ha]; [by left|]. destruct Ha as [|s t Hs Ht].
  - destruct IH as [[-> _]|[[_ ?]|[H _]]]; [by right; left|done|]. exfalso. by eapply (open_not_terminal "open"); [left|].
  - right. right. split; [done|]. destruct IH as [[-> ->]|[[-> ->]|[H _]]]; [by left|by right|]. exfalso. by eapply open_not_terminal.
Qed.
Lemma path_nodup l s : path l s -> NoDup ((EmptyString, "open") :: l).
Proof.
  intros H. destruct (path_shapes _ _ H) as [[-> ->]|[[-> ->]|[Ht [-> | ->]]]];
    try (apply (bool_decide_unpack _); vm_compute; exact I).
  all: unfold terminal_statuses in Ht; repeat (apply elem_of_cons in Ht as [->|Ht]; [apply (bool_decide_unpack _); vm_compute; exact I|]);
    by apply not_elem_of_nil in Ht.
Qed.

Section safe.
Context `{DEC : !Decimal} `{UT : !UuidText} `{LED : !PostingLedger}.
Notation case d id := (chargeback_disputes d !! id).
Implicit Types (d : dispute_db) (l : lstate) (r : dispute_row).

(** ** The workflow *)
Definition history d id : list status_change := filter (fun c => cs_dispute_id c = id) (chargeback_dispute_status_changes d).
Definition announced d id : list DisputeLifecycle := filter (fun e => dy_DisputeID e = id) (dispute_events d).
(** What the audit trail says of a case that stands at [r]. *)
Record true_history (h : list status_change) r : Prop := {
  th_path : path (moves h) (cd_status r);
  th_timely c : c ∈ h -> cs_to_status c = "evidence_submitted" -> before_deadline (cs_created_at c) r = true;
  th_decided : is_terminal r = true -> exists c, last h = Some c /\ cd_resolved_by r = Some (cs_changed_by c) /\
    cd_resolved_at r = Some (cs_created_at c);
  th_other : cd_status r ∈ ["won"; "lost"] -> cd_resolved_by r <> Some (cd_created_by r);
}.
Record dispute_ok d : Prop := {
  dk_row id r : case d id = Some r -> dispute_row_ok r = true /\ amount_refused d r = None /\ true_history (history d id) r;
  dk_events id r : case d id = Some r -> announced_moves (announced d id) = (EmptyString, "open") :: moves (history d id);
  dk_change c : c ∈ chargeback_dispute_status_changes d -> is_Some (case d (cs_dispute_id c));
  dk_event e : e ∈ dispute_events d -> is_Some (case d (dy_DisputeID e));
  dk_ref id r id' r' : case d id = Some r -> case d id' = Some r' -> cd_dispute_ref r = cd_dispute_ref r' -> id = id';
}.
(** How a case evolves. *)
Record same_case r r' : Prop := {
  me_tx : cd_original_tx_id r' = cd_original_tx_id r; me_ref : cd_dispute_ref r' = cd_dispute_ref r;
  me_amount : cd_amount r' = cd_amount r; me_currency : cd_currency r' = cd_currency r;
  me_due : cd_evidence_due_at r' = cd_evidence_due_at r; me_creator : cd_created_by r' = cd_created_by r;
  me_final : is_terminal r = true -> linked_to r' None = linked_to r None;
  me_link tx : cd_chargeback_tx_id r = Some tx -> cd_chargeback_tx_id r' = Some tx }.
Definition charges_kept (d d' : database) : Prop := forall id t, ledger_transactions d !! id = Some t ->
  exists t', ledger_transactions d' !! id = Some t' /\ t_amount t' = t_amount t /\ t_currency t' = t_currency t.
Record dispute_le d d' : Prop := {
  dr_row id r : case d id = Some r -> exists r', case d' id = Some r' /\ same_case r r';
  dr_changes : chargeback_dispute_status_changes d `prefix_of` chargeback_dispute_status_changes d';
  dr_charges : charges_kept (ledger_db d) (ledger_db d') }.
#[export] Instance same_case_preorder : PreOrder same_case.
Proof.
  split; [by split|]. intros a b c [A1 A2 A3 A4 A5 A6 A7 A8] [B1 B2 B3 B4 B5 B6 B7 B8]. split; try congruence; [|auto].
  intros H. rewrite <- (A7 H). apply B7. apply A7 in H as E. unfold is_terminal in *.
  by replace (cd_status b) with (cd_status a) by (injection E; congruence).
Qed.
#[export] Instance charges_kept_preorder : PreOrder charges_kept.
Proof.
  split; [intros d id t H; by exists t|]. intros d1 d2 d3 A B id t (t2 & H & E1 & E2)%A.
  apply B in H as (t3 & ? & ? & ?). exists t3. split_and!; [done|congruence..].
Qed.
#[export] Instance dispute_le_preorder : PreOrder dispute_le.
Proof.
  split.
  - intros d. split; [|done|done]. intros id r H. exists r. split; [exact H|reflexivity].
  - intros d1 d2 d3 [A1 B1 C1] [A2 B2 C2]. split; [|by etransitivity|by etransitivity].
    intros id r (r2 & H & ?)%A1. apply A2 in H as (r3 & ? & ?). exists r3. split; [done|by etransitivity].
Qed.
#[export] Program Instance disputes : Workflow dispute_db := {|
  rows_ok d _ := dispute_ok d; rows_le := dispute_le; grounds _ _ := False; mine _ _ := False |}.
Next Obligation. done. Qed.
Next Obligation. done. Qed.
Notation D := (wf_discipline (DB := dispute_db)).
Notation fine := (fine D).
Implicit Types (w : wf_world dispute_db).
Notation inv := (wf_inv (DB := dispute_db)).
Definition knows_case id r w : Prop := exists r', case (ww_db w) id = Some r' /\ same_case r r'.
Lemma knows_case_le id r w w' : wf_le w w' -> knows_case id r w -> knows_case id r w'.
Proof.
  intros L (r1 & H & S1). destruct (dr_row _ _ (wl_rows _ _ L) _ _ H) as (r2 & H2 & S2).
  exists r2. split; [done|by transitivity r1].
Qed.

(** ** Statements *)
Lemma charges_accepted d d' r : charges_kept (ledger_db d) (ledger_db d') -> amount_refused d r = None -> amount_refused d' r = None.
Proof.
  unfold amount_refused. intros K. destruct (ledger_transactions (ledger_db d) !! _) as [t|] eqn:E; [|done].
  destruct (K _ _ E) as (t' & -> & -> & ->). done.
Qed.
Lemma other_cases d i id r : i <> id -> <[i := r]> (chargeback_disputes d) !! id = case d id.
Proof. intros. by apply lookup_insert_ne. Qed.
(** A row replaced, with what the trail and the outbox gain. *)
Lemma replace_case d id old new cs es : dispute_ok d -> case d id = Some old -> same_case old new ->
  dispute_row_ok new = true -> true_history (history d id ++ cs) new ->
  Forall (fun c => cs_dispute_id c = id) cs -> Forall (fun e => dy_DisputeID e = id) es ->
  announced_moves es = moves cs ->
  let d' := DisputeDb (<[id := new]> (chargeback_disputes d)) (chargeback_dispute_status_changes d ++ cs)
              (dispute_events d ++ es) (ledger_db d) in dispute_ok d' /\ dispute_le d d'.
Proof.
  intros [A B C E F] Ho Same Hok Ht Hcs Hes Hm d'.
  assert (Hh : forall i, history d' i = history d i ++ (if decide (id = i) then cs else [])).
  { intros i. unfold history, d'. simpl. rewrite filter_app. f_equal. clear -Hcs. induction Hcs as [|c cs Hc _ IH]; [by case_decide|].
    rewrite filter_cons, IH, Hc. by repeat case_decide. }
  assert (He : forall i, announced d' i = announced d i ++ (if decide (id = i) then es else [])).
  { intros i. unfold announced, d'. simpl. rewrite filter_app. f_equal. clear -Hes. induction Hes as [|c es Hc _ IH]; [by case_decide|].
    rewrite filter_cons, IH, Hc. by repeat case_decide. }
  assert (Hsome : forall i, is_Some (case d i) -> is_Some (case d' i)).
  { intros i Hi. simpl. destruct (decide (id = i)) as [->|Hn]; [rewrite lookup_insert_eq|rewrite lookup_insert_ne]; done. }
  split; split; simpl.
  - intros i r [[<- <-]|[Hn Hr]]%lookup_insert_Some; rewrite Hh; [rewrite decide_True by done|rewrite decide_False, app_nil_r by done; by apply A].
    split_and!; [done| |done]. destruct (A _ _ Ho) as (_ & Hr & _). revert Hr. unfold amount_refused. simpl.
    by rewrite (me_tx _ _ Same), (me_amount _ _ Same), (me_currency _ _ Same).
  - intros i r [[<- <-]|[Hn Hr]]%lookup_insert_Some; rewrite Hh, He.
    + rewrite !decide_True by done. unfold announced_moves, moves in *. rewrite !fmap_app, Hm. by rewrite (B _ _ Ho).
    + rewrite !decide_False, !app_nil_r by done. by eapply B.
  - intros c [Hc|Hc]%elem_of_app; apply Hsome; [by apply C|]. rewrite Forall_forall in Hcs. rewrite (Hcs _ Hc). by exists old.
  - intros c [Hc|Hc]%elem_of_app; apply Hsome; [by apply E|]. rewrite Forall_forall in Hes. rewrite (Hes _ Hc). by exists old.
  - assert (Hr : forall i r, <[id:=new]> (chargeback_disputes d) !! i = Some r ->
      exists r0, case d i = Some r0 /\ cd_dispute_ref r0 = cd_dispute_ref r).
    { intros i r [[<- <-]|[Hn Hr]]%lookup_insert_Some; [exists old; by rewrite (me_ref _ _ Same)|by exists r]. }
    intros i r i' r' (r1 & H1 & E1)%Hr (r2 & H2 & E2)%Hr Eq. apply (F _ _ _ _ H1 H2). congruence.
  - intros i r Hi. destruct (decide (id = i)) as [->|Hn].
    + exists new. rewrite lookup_insert_eq. split; [done|]. by replace r with old by congruence.
    + exists r. rewrite lookup_insert_ne by done. split; [done|reflexivity].
  - by apply prefix_app_r.
  - done.
Qed.
Lemma update_dispute_inr id old new d d' : update_dispute id old new d = inr d' ->
  dispute_row_ok new = true /\ d' = set_disputes d (<[id := new]> (chargeback_disputes d)).
Proof.
  unfold update_dispute. destruct (_ && _); [done|]. destruct (dispute_row_ok new); [|done]. cbn [negb].
  destruct (match cd_chargeback_tx_id new with Some _ => _ | None => _ end); [done|]. by intros [= <-].
Qed.
Lemma moved_history h old new c : true_history h old -> allowed_move (cd_status old) (cd_status new) ->
  cs_from_status c = cd_status old -> cs_to_status c = cd_status new -> cd_evidence_due_at new = cd_evidence_due_at old ->
  (cd_status new = "evidence_submitted" -> before_deadline (cs_created_at c) old = true) ->
  (cd_status new ∈ terminal_statuses -> cd_resolved_by new = Some (cs_changed_by c) /\ cd_resolved_at new = Some (cs_created_at c)) ->
  (cd_status new ∈ ["won"; "lost"] -> cs_changed_by c <> cd_created_by new) -> true_history (h ++ [c]) new.
Proof.
  intros [A B C E] Ha Ef Et Ed Htime Hby Hother. split.
  - unfold moves. rewrite fmap_app. simpl. rewrite Ef, Et. by apply (path_move _ (cd_status old)).
  - intros c' Hc Hs. unfold before_deadline. rewrite Ed. apply elem_of_app in Hc as [Hc|Hc]; [by apply B|].
    apply list_elem_of_singleton in Hc as ->. apply Htime. by rewrite <- Et.
  - intros Ht. exists c. rewrite last_snoc. split; [done|]. apply Hby. unfold is_terminal in Ht. by apply bool_decide_eq_true in Ht.
  - intros H. destruct Hby as [-> _]; [|intros [= Hc]; by apply Hother].
    unfold terminal_statuses. rewrite !elem_of_cons, elem_of_nil in *. naive_solver.
Qed.
Lemma move_dispute_good id old new reason who now at_ d d' : dispute_ok d -> case d id = Some old ->
  is_terminal old = false -> same_case old new -> allowed_move (cd_status old) (cd_status new) ->
  (cd_status new = "evidence_submitted" -> before_deadline now old = true) ->
  (cd_status new ∈ terminal_statuses -> cd_resolved_by new = Some who /\ cd_resolved_at new = Some now) ->
  (cd_status new ∈ ["won"; "lost"] -> who <> cd_created_by old) ->
  move_dispute id old new reason who now at_ d = inr d' -> dispute_ok d' /\ dispute_le d d'.
Proof.
  intros I Ho Hopen Same Ha Ht Hby Hother. unfold move_dispute. destruct (update_dispute id old new d) as [|d1] eqn:E; [done|].
  apply update_dispute_inr in E as [Hok ->]. intros H. injection H as <-. destruct (dk_row _ I _ _ Ho) as (_ & _ & Hh).
  refine (replace_case d id old new [_] [_] I Ho Same Hok _ _ _ _); [|by repeat constructor|by repeat constructor|reflexivity].
  eapply moved_history; [exact Hh|exact Ha|done|done|apply Same|exact Ht|exact Hby|]. simpl. by rewrite (me_creator _ _ Same).
Qed.
Lemma resolved_good id r status who reason why now at_ d d' : dispute_ok d -> case d id = Some r -> is_open r = true ->
  status ∈ terminal_statuses -> (status ∈ ["won"; "lost"] -> who <> cd_created_by r) ->
  move_dispute id r (resolved r status who reason now) why who now at_ d = inr d' -> dispute_ok d' /\ dispute_le d d'.
Proof.
  intros I Hr Hopen Hs Hother. apply bool_decide_eq_true in Hopen.
  assert (Hn : is_terminal r = false) by (apply bool_decide_eq_false; intros Ht; by eapply open_not_terminal).
  apply move_dispute_good; simpl; try done.
  - split; try done. by rewrite Hn.
  - by constructor.
  - intros ->. exfalso. eapply (open_not_terminal "evidence_submitted"); [right; left|done].
Qed.
Lemma past_due_open now r : past_due now r = true -> is_open r = true.
Proof. intros H. by apply andb_true_iff in H as [? _]. Qed.
Lemma expire_good actor reason now at_ rows d d' : dispute_ok d -> NoDup rows.*1 ->
  Forall (fun kr => case d kr.1 = Some kr.2 /\ is_open kr.2 = true) rows ->
  expire_candidates actor reason now at_ rows d = inr d' -> dispute_ok d' /\ dispute_le d d'.
Proof.
  revert d. induction rows as [|[id r] rows IH]; intros d I Hd HF; simpl; [by intros [= <-]|].
  apply NoDup_cons in Hd as [Hn Hd]. apply Forall_cons in HF as [[Hr Ho] HF]. destruct (move_dispute _ _ _ _ _ _ _ _) as [|d1] eqn:E; [done|].
  intros H. simpl in *.
  assert (G : dispute_ok d1 /\ dispute_le d d1).
  { eapply resolved_good; [done|exact Hr|done| | |exact E].
    - unfold terminal_statuses. right. right. left.
    - intros Hw. exfalso. repeat (apply elem_of_cons in Hw as [?|Hw]; [done|]). by apply not_elem_of_nil in Hw. }
  destruct G as [I1 L1].
  destruct (IH d1 I1 Hd) as [I2 L2]; [|exact H|split; [done|by transitivity d1]].
  unfold move_dispute in E. destruct (update_dispute _ _ _ _) as [|d2] eqn:E2; [done|]. apply update_dispute_inr in E2 as [_ ->].
  injection E as <-. rewrite Forall_forall in HF |- *. intros kr Hk. destruct (HF _ Hk) as [H1 H2]. split; [|done]. simpl.
  rewrite lookup_insert_ne; [done|]. intros ->. apply Hn. apply list_elem_of_fmap. by exists kr.
Qed.
Lemma fresh_empty {A} (f : A -> uuid) (rows : list A) d id : case d id = None -> (forall a, a ∈ rows -> is_Some (case d (f a))) ->
  filter (fun a => f a = id) rows = [].
Proof.
  intros Hn Hs. induction rows as [|a rows IH]; [done|]. rewrite filter_cons, decide_False.
  - apply IH. intros a' Ha'. apply Hs. by right.
  - intros <-. destruct (Hs a) as [r Hr]; [by left|]. by rewrite Hn in Hr.
Qed.
Lemma announced_add e d i : announced (add_lifecycle e d) i = announced d i ++ (if decide (dy_DisputeID e = i) then [e] else []).
Proof. unfold announced. simpl. rewrite filter_app. by rewrite filter_cons, filter_nil. Qed.
Lemma announced_rows d t i : announced (set_disputes d t) i = announced d i.
Proof. done. Qed.
Lemma create_good id p at_ ch d d' : dispute_ok d -> CreateDispute id p at_ ch d = inr (tt, d') -> dispute_ok d' /\ dispute_le d d'.
Proof.
  intros I. unfold CreateDispute. destruct (insert_dispute _ _ _) as [err|d1] eqn:E; [by destruct (IsDuplicateKey err)|].
  intros H. apply (inj inr) in H. injection H as <-. unfold insert_dispute in E.
  destruct (amount_refused _ _) eqn:Ea; [done|]. destruct (dispute_row_ok _) eqn:Eok; [|done]. cbn [negb] in E.
  destruct (_ || _) eqn:Eu; [done|]. injection E as <-. apply orb_false_iff in Eu as [Ei Eref].
  apply bool_decide_eq_false, eq_None_not_Some in Ei. destruct I as [A B C F R].
  assert (Eh : history d id = []) by (by eapply (fresh_empty cs_dispute_id)).
  assert (Ee : announced d id = []) by (by eapply (fresh_empty dy_DisputeID)).
  assert (Hk : forall i r, case d i = Some r -> id <> i) by (intros i r Hr ->; by rewrite Ei in Hr).
  assert (Hsome : forall i, is_Some (case d i) -> is_Some (<[id := opened p (ch_now ch)]> (chargeback_disputes d) !! i)).
  { intros i [r Hr]. rewrite lookup_insert_ne by (by eapply Hk). by exists r. }
  split; split.
  - intros i r. simpl. intros [[<- <-]|[_ Hr]]%lookup_insert_Some; [|by apply A]. split_and!; [done|done|].
    change (true_history (history d id) (opened p (ch_now ch))). rewrite Eh. split; simpl; [apply path_open|by intros c Hc%not_elem_of_nil|done|].
    intros Hw. exfalso. repeat (apply elem_of_cons in Hw as [?|Hw]; [done|]). by apply not_elem_of_nil in Hw.
  - intros i r. unfold insertLifecycleEvent. rewrite announced_add, announced_rows. simpl. intros [[<- <-]|[Hn Hr]]%lookup_insert_Some.
    + change (history _ id) with (history d id) at 1. rewrite decide_True, Ee, Eh by done. reflexivity.
    + rewrite decide_False, app_nil_r by done. by eapply B.
  - intros c Hc. apply Hsome. by apply C.
  - intros e He'. simpl in He'. apply elem_of_app in He' as [Hd|Hd]; [by apply Hsome, F|]. apply list_elem_of_singleton in Hd as ->.
    simpl. rewrite lookup_insert_eq. by eexists.
  - assert (Href : forall i r, case d i = Some r -> cd_dispute_ref r <> dp_DisputeRef p).
    { intros i r Hr Er. apply not_true_iff_false in Eref. apply Eref, existsb_exists. exists (i, r).
      split; [by apply list_elem_of_In, elem_of_map_to_list|]. by apply bool_decide_eq_true. }
    simpl. intros i r i' r' [[<- <-]|[_ H1]]%lookup_insert_Some [[<- <-]|[_ H2]]%lookup_insert_Some Eq; [done| | |by eapply R].
    + by destruct (Href _ _ H2).
    + by destruct (Href _ _ H1).
  - simpl. intros i r Hr. exists r. rewrite lookup_insert_ne by (by eapply Hk). split; [done|reflexivity].
  - done.
  - done.
Qed.
Lemma fine_CreateDispute id p at_ : fine (perform (WfSql (CreateDispute id p at_))).
Proof. apply fine_wwrite. intros ch w [] d I H. eapply create_good; [apply I|exact H]. Qed.
Lemma fine_SubmitEvidence id ref who at_ : fine (perform (WfSql (repo_SubmitEvidence id ref who at_))).
Proof.
  apply fine_wwrite. intros ch w n d I. unfold repo_SubmitEvidence. destruct (case (ww_db w) id) as [r|] eqn:Hr; [|intros [= _ <-]; split; [apply I|reflexivity]].
  destruct (_ && _) eqn:Eg; [|intros [= _ <-]; split; [apply I|reflexivity]]. apply andb_true_iff in Eg as [Es Ed]. apply bool_decide_eq_true in Es.
  destruct (move_dispute _ _ _ _ _ _ _ _) as [|d1] eqn:E; [done|]. intros H. simpl in H. injection H as _ <-.
  assert (Hn : is_terminal r = false) by (unfold is_terminal; by rewrite Es).
  eapply move_dispute_good; [apply I|exact Hr|exact Hn| | | | | |exact E]; simpl; try done.
  - split; try done. by rewrite Hn.
  - rewrite Es. constructor.
  - intros Ht. exfalso. eapply (open_not_terminal "evidence_submitted"); [right; left|done].
  - intros Hw. exfalso. repeat (apply elem_of_cons in Hw as [?|Hw]; [done|]). by apply not_elem_of_nil in Hw.
Qed.
Lemma ResolveDispute_ok id r status who reason at_ : status ∈ terminal_statuses -> who <> cd_created_by r ->
  op_ok D (WfSql (repo_ResolveDispute id status who reason at_)) (knows_case id r) (fun res _ => match res with inr _ => True | inl _ => True end).
Proof.
  intros Hs Hw. apply (wsql_ok _ _ (fun _ _ => True)). intros ch w n d I (r' & Hr & Same). unfold repo_ResolveDispute. rewrite Hr.
  destruct (is_open r') eqn:Eo; [|intros [= _ <-]; split_and!; [apply I|reflexivity|done]].
  destruct (move_dispute _ _ _ _ _ _ _ _) as [|d1] eqn:E; [done|]. intros H. simpl in H. injection H as _ <-.
  assert (G : dispute_ok d1 /\ dispute_le (ww_db w) d1).
  { eapply resolved_good; [apply I|exact Hr|exact Eo|exact Hs| |exact E]. intros _. by rewrite (me_creator _ _ Same). }
  destruct G. by split_and!.
Qed.
Lemma fine_ExpireDue now actor reason at_ : fine (perform (WfSql (repo_ExpireDueDisputes now actor reason at_))).
Proof.
  apply fine_wwrite. intros ch w n d I. unfold repo_ExpireDueDisputes. destruct (expire_candidates _ _ _ _ _ _) as [|d1] eqn:E; [done|].
  intros H. simpl in H. injection H as _ <-. eapply expire_good; [apply I| | |exact E].
  - unfold listDueTransitionCandidates. eapply sublist_NoDup; [|apply fmap_sublist, sublist_take].
    eapply sublist_NoDup; [|apply fmap_sublist, sublist_filter]. rewrite merge_sort_Permutation.
    eapply sublist_NoDup; [|apply fmap_sublist, sublist_filter]. apply NoDup_fst_map_to_list.
  - apply Forall_take, Forall_forall. intros [i r] [_ Hk]%list_elem_of_filter. rewrite merge_sort_Permutation in Hk.
    apply elem_of_rows_where in Hk as [Hi Hp]. split; [done|]. by eapply past_due_open.
Qed.
Lemma fine_LinkTx id tx : fine (perform (WfSql (repo_LinkChargebackTx id tx))).
Proof.
  apply fine_wwrite. intros ch w n d I. unfold repo_LinkChargebackTx. destruct (case (ww_db w) id) as [r|] eqn:Hr; [|intros [= _ <-]; split; [apply I|reflexivity]].
  case_bool_decide as El; [|intros [= _ <-]; split; [apply I|reflexivity]]. destruct (update_dispute _ _ _ _) as [|d1] eqn:E; [done|].
  intros H. simpl in H. injection H as _ <-. apply update_dispute_inr in E as [Hok ->].
  destruct (dk_row _ (wi_rows _ I) _ _ Hr) as (_ & _ & [H1 H2 H3 H4]).
  pose proof (replace_case (ww_db w) id r (linked_to r (Some tx)) [] [] (wi_rows _ I) Hr) as G. rewrite !app_nil_r in G.
  apply G; try done. split; try done. by rewrite El.
Qed.
Lemma GetDispute_ok id : op_ok D (WfSql (GetDispute id)) (fun _ => True)
  (fun res w => match res with inr r => knows_case id r w | inl _ => True end).
Proof.
  apply wsql_ok. intros ch w r d I _. unfold GetDispute. destruct (case (ww_db w) id) as [r0|] eqn:Hr; [|done].
  intros [= <- <-]. split_and!; [apply I|reflexivity|]. by exists r0.
Qed.
Lemma fine_GetDispute id : fine (perform (WfSql (GetDispute id))).
Proof. eapply fine_op, GetDispute_ok. Qed.
Lemma fine_charge id : fine (perform (WfSql (transaction_GetByID id))).
Proof.
  apply fine_wwrite. intros ch w a d I. unfold transaction_GetByID. destruct (_ !! id); [|done]. intros [= _ <-].
  split; [apply I|reflexivity].
Qed.

(** ** Handlers *)
#[local] Hint Resolve fine_GetDispute fine_charge fine_CreateDispute fine_SubmitEvidence fine_ExpireDue fine_LinkTx : workflow.
Lemma diagnose_fine id : fine (diagnoseNoRows id).
Proof. unfold diagnoseNoRows. walk. Qed.
#[local] Hint Resolve diagnose_fine : workflow.
Lemma OpenDispute_fine p : fine (OpenDispute p).
Proof.
  unfold OpenDispute. do 4 (match goal with |- context [if ?b then _ else _] => destruct b end; [walk|]).
  apply fine_seq; [walk|]. intros in_time. walk.
Qed.
Lemma SubmitEvidence_fine id ref who : fine (SubmitEvidence id ref who).
Proof. unfold SubmitEvidence. walk. Qed.
Lemma ExpireDueDisputes_fine now actor reason : fine (ExpireDueDisputes now actor reason).
Proof. unfold ExpireDueDisputes. walk. Qed.
Lemma LinkChargebackTx_fine id tx : fine (LinkChargebackTx id tx).
Proof. unfold LinkChargebackTx. walk. Qed.
Lemma ResolveDispute_fine id status who reason : fine (ResolveDispute id status who reason).
Proof.
  intros w. unfold ResolveDispute. destruct (negb _) eqn:Es; [by_fine|]. apply negb_false_iff, bool_decide_eq_true in Es.
  do 2 (destruct (bool_decide _); [by_fine|]). eapply safe_ebind; [eapply safe_op; [apply GetDispute_ok|done]|].
  intros r w1 _ Hr. case_bool_decide as Hw; [by_fine|]. eapply safe_seq; [apply wf_now_fine|]. intros at_ w2 L2 _. eapply safe_ebind.
  { eapply safe_op; [apply (ResolveDispute_ok id r); [exact Es|congruence]|]. intros u L3. exact (knows_case_le _ _ _ _ L3 (knows_case_le _ _ _ _ L2 Hr)). }
  intros n w3 _ _. by_fine.
Qed.

(** ** Every reachable state *)
Inductive dispute_entry : Flow.prog (wf_call dispute_db) unit -> Prop :=
  | de_open p : dispute_entry (logged (OpenDispute p))
  | de_evidence id ref who : dispute_entry (logged (SubmitEvidence id ref who))
  | de_resolve id status who reason : dispute_entry (logged (ResolveDispute id status who reason))
  | de_expire now actor reason : dispute_entry (logged (ExpireDueDisputes now actor reason))
  | de_link id tx : dispute_entry (logged (LinkChargebackTx id tx)).
(** The ledger posts: its transactions keep their amounts and currencies. *)
Definition dispute_outside d d' : Prop :=
  chargeback_disputes d' = chargeback_disputes d /\ chargeback_dispute_status_changes d' = chargeback_dispute_status_changes d /\
  dispute_events d' = dispute_events d /\ charges_kept (ledger_db d) (ledger_db d').
Definition dispute_start d : Prop :=
  chargeback_disputes d = ∅ /\ chargeback_dispute_status_changes d = [] /\ dispute_events d = [].
Definition dispute_reachable := wf_reachable dispute_entry dispute_outside dispute_start.
Lemma dispute_entry_fine p : dispute_entry p -> fine p.
Proof.
  destruct 1; apply fine_logged; auto using OpenDispute_fine, SubmitEvidence_fine, ResolveDispute_fine, ExpireDueDisputes_fine,
    LinkChargebackTx_fine.
Qed.
Lemma dispute_outside_ok d d' l : rows_ok d l -> dispute_outside d d' -> rows_ok d' l /\ rows_le d d'.
Proof.
  intros [A B C E F] (E1 & E2 & E3 & K). split; split; unfold history, announced; rewrite ?E1, ?E2, ?E3; try done.
  - intros id r Hr. destruct (A _ _ Hr) as (? & ? & ?). split_and!; [done|by eapply charges_accepted|done].
  - intros id r Hr. exists r. split; [done|reflexivity].
Qed.
Lemma dispute_start_ok d l : dispute_start d -> rows_ok d l.
Proof.
  intros (E1 & E2 & E3). split; rewrite ?E1, ?E2, ?E3; try done; intros ? H; by apply not_elem_of_nil in H.
Qed.

Lemma within_charge d r : dispute_row_ok r = true -> amount_refused d r = None ->
  exists t, ledger_transactions (ledger_db d) !! cd_original_tx_id r = Some t /\
    0 < cd_amount r <= t_amount t /\ cd_currency r = t_currency t.
Proof.
  unfold dispute_row_ok, amount_refused. intros Hok. repeat (apply andb_true_iff in Hok as [Hok ?]).
  destruct (_ !! _) as [t|]; [|done]. destruct (Z.ltb_spec (t_amount t) (cd_amount r)); [done|].
  destruct (bool_decide (cd_currency r = t_currency t)) eqn:Ec; [|done]. apply bool_decide_eq_true in Ec. intros _.
  exists t. split_and!; [done|lia..|done].
Qed.
(** The posting engine is such an outside. *)
Lemma Handle_keeps_charges `{HASH : !Hashing} s `{!LawfulService s} `{!LawfulRegistry (registry_ s)} cmd v res v' :
  balances_in_range (w_db v) -> Handle s cmd v = (res, v') -> charges_kept (w_db v) (w_db v').
Proof.
  intros Hwf H id t Ht. destruct (handle_keeps_headers s cmd v res v' id t Hwf H Ht) as (t' & Ht' & Hh & _).
  exists t'. split; [done|]. unfold same_header in Hh. destruct_and?. split; congruence.
Qed.

(** C40: A case's history is complete and its end is final.  In every state any
    interleaving of operators, the expiry worker, postings, crashes and lost answers
    can reach: the recorded status changes of a case are a path of the state machine
    from open to where it stands (evidence at most once, an outcome at most once and
    last); its announcements are its opening and these changes, in their order, each
    once; evidence was accepted only before the deadline; a closed case was closed by
    the last change's author at its time, and a won or lost one not by its creator; it
    disputes no more than its charge's amount, in its currency, and no two cases share
    a reference.  From then on the case keeps its charge, reference, amount, deadline
    and creator, a closed one everything but its link, which is set once, and no
    recorded change goes away. *)
Theorem dispute_history_is_complete w ps w' ps' :
  dispute_reachable (w, ps) -> rtc (sys_step wf_step dispute_entry (wf_env dispute_outside)) (w, ps) (w', ps') ->
  (forall id r, case (ww_db w) id = Some r ->
     let h := history (ww_db w) id in
     path (moves h) (cd_status r) /\
     announced_moves (announced (ww_db w) id) = (EmptyString, "open") :: moves h /\
     NoDup (announced_moves (announced (ww_db w) id)) /\
     (forall c, c ∈ h -> cs_to_status c = "evidence_submitted" -> before_deadline (cs_created_at c) r = true) /\
     (cd_status r ∈ terminal_statuses -> exists c, last h = Some c /\
        cd_resolved_by r = Some (cs_changed_by c) /\ cd_resolved_at r = Some (cs_created_at c)) /\
     (cd_status r ∈ ["won"; "lost"] -> cd_resolved_by r <> Some (cd_created_by r)) /\
     (exists t, ledger_transactions (ledger_db (ww_db w)) !! cd_original_tx_id r = Some t /\
        0 < cd_amount r <= t_amount t /\ cd_currency r = t_currency t)) /\
  (forall id r id' r', case (ww_db w) id = Some r -> case (ww_db w) id' = Some r' ->
     cd_dispute_ref r = cd_dispute_ref r' -> id = id') /\
  (forall id r, case (ww_db w) id = Some r -> exists r', case (ww_db w') id = Some r' /\ same_case r r') /\
  (forall id, history (ww_db w) id `prefix_of` history (ww_db w') id).
Proof.
  intros Hr Hs. assert (I := wi_rows _ (wf_reachable_inv _ _ _ dispute_start_ok dispute_entry_fine dispute_outside_ok _ _ Hr)).
  assert (L := wl_rows _ _ (wf_steps_le _ _ _ dispute_start_ok dispute_entry_fine dispute_outside_ok _ _ Hr Hs)). cbn [fst] in L.
  split_and!.
  - intros id r Hc h. destruct (dk_row _ I _ _ Hc) as (Hok & Ha & [H1 H2 H3 H4]). pose proof (dk_events _ I _ _ Hc) as He.
    split_and!; try done.
    + rewrite He. by eapply path_nodup.
    + intros Ht. apply H3. by apply bool_decide_eq_true.
    + by apply within_charge.
  - exact (dk_ref _ I).
  - exact (dr_row _ _ L).
  - intros id. destruct (dr_changes _ _ L) as [more E]. unfold history. rewrite E, filter_app. by apply prefix_app_r.
Qed.
End safe.

(** ** Running on the specification ledger *)
#[local] Existing Instance QDecimal.decimal.
#[local] Existing Instance NumUuid.uuid_text.
Notation cworld := (wf_world (LED := SpecLedger) dispute_db).
Notation cprog := (Flow.prog (wf_call dispute_db) unit).
Definition case_id (w : cworld) : uuid := N.of_nat (1 + size (chargeback_disputes (ww_db w))).
(** A top-up of a thousand is posted under 1000; its owner disputes seven hundred. *)
Definition case_zero : cworld := wf_zero (DisputeDb ∅ [] [] (w_db (after [topup "k1" 1000]))) ∅.
Definition disputed : cprog := logged (OpenDispute (MkDispute 1000%N "CB-1" "visa" "10.4" (dec_of_Z 700) EmptyString (Some 50) "alice")).
Definition evidence : cprog := logged (SubmitEvidence 1%N "s3://receipt" "alice").
Definition won_by (who : string) : cprog := logged (ResolveDispute 1%N "won" who "receipt accepted").
Definition case_on (now : Z) (ps : list cprog) (w : cworld) : cworld := exec_all (wf_respond now case_id) ((fun p => (p, [])) <$> ps) w.
Notation reaches := (dispute_reachable (LED := SpecLedger)).
Definition case_reached (w : cworld) : Prop := reaches (w, []).
Lemma case_zero_reached : case_reached case_zero.
Proof. exists (case_zero, []). split; [apply wf_zero_initial; by split_and!|reflexivity]. Qed.
Lemma reached_on w now ps : case_reached w -> Forall dispute_entry ps -> case_reached (case_on now ps w).
Proof.
  intros (c0 & H0 & Hs) He. exists c0. split; [exact H0|]. etransitivity; [exact Hs|]. apply wf_run_steps. by apply Forall_fmap.
Qed.
Definition case_states (w : cworld) : list (string * option string * list (string * string)) :=
  (fun kr => (cd_status kr.2, cd_resolved_by kr.2, announced_moves (announced (ww_db w) kr.1))) <$> map_to_list (chargeback_disputes (ww_db w)).

(** The creator cannot win the case herself; a colleague can, and the case stays won. *)
Definition won_case : cworld := case_on 20 [disputed; evidence; won_by "alice"; won_by "bob"] case_zero.
Definition later : cworld := case_on 90 [logged (ExpireDueDisputes 90 EmptyString EmptyString)] won_case.
Lemma dispute_history_is_complete_witness :
  case_reached won_case /\
  case_states won_case = [("won", Some "bob", [(EmptyString, "open"); ("open", "evidence_submitted"); ("evidence_submitted", "won")])] /\
  exists r r', chargeback_disputes (ww_db won_case) !! 1%N = Some r /\ path (moves (history (ww_db won_case) 1%N)) (cd_status r) /\
    chargeback_disputes (ww_db later) !! 1%N = Some r' /\ linked_to r' None = linked_to r None.
Proof.
  assert (Hr : case_reached won_case) by (apply reached_on; [apply case_zero_reached|repeat constructor]).
  split; [exact Hr|]. split; [vm_compute; reflexivity|].
  assert (Hs : rtc (sys_step (wf_step (LED := SpecLedger)) dispute_entry (wf_env dispute_outside)) (won_case, []) (later, []))
    by (apply wf_run_steps; repeat constructor).
  destruct (dispute_history_is_complete (LED := SpecLedger) won_case [] later [] Hr Hs) as (H1 & _ & H3 & _).
  destruct (chargeback_disputes (ww_db won_case) !! 1%N) as [r|] eqn:E; [|exfalso; vm_compute in E; discriminate E].
  destruct (H3 _ _ E) as (r' & E' & Same). exists r, r'. split; [reflexivity|]. split; [exact (proj1 (H1 _ _ E))|].
  split; [exact E'|]. apply (me_final _ _ Same).
  assert (Ht : (is_terminal <$> chargeback_disputes (ww_db won_case) !! 1%N) = Some true) by (vm_compute; reflexivity).
  rewrite E in Ht. by injection Ht.
Defined.

(** ** Where the code and its comments part
    Evidence that comes too late is refused because the case is already resolved, and
    it is not: it is still open, and can be won. *)
Lemma late_evidence_is_called_resolved :
  let w := case_on 20 [disputed] case_zero in
  case_states w = [("open", None, [(EmptyString, "open")])] /\
  (exec (wf_respond 60 case_id) (SubmitEvidence 1%N "s3://receipt" "alice") [] w).1
    = inl (wrapf ErrChargebackDisputeAlreadyResolved EmptyString) /\
  case_states (case_on 60 [evidence; won_by "bob"] w) = [("won", Some "bob", [(EmptyString, "open"); ("open", "won")])].
Proof. split_and!; vm_compute; reflexivity. Qed.
