(* ===== verification/Properties.v ===== *)
(** * What the components promise

    Admission checks, the processor registry, entry building, fee pricing,
    quotes, currency policy, the idempotency input, retries, replays, lifecycle
    checks, lock order and events: properties of the parts [Handle] is made of. *)
From Stdlib Require Import QArith Lqa.
From stdpp Require Import prelude gmap strings list sorting.
From S2P Require Import Prelude Decimal Errors Currency Events Store TxRepo Repos AccountRepo.
From S2P Require Import Fee Processors ProcMoney ProcFx Handle Frames Lawful Postings Invariant Engine.
From S2P Require Import Entries Outcome Components Scenarios Effects.
Open Scope Z_scope.

(** ** Helpers *)
Section helpers.
Context `{DEC : !Decimal} `{UT : !UuidText} `{HASH : !Hashing}.

Lemma empty_false x : empty x = false <-> x <> EmptyString.
Proof. unfold empty. apply bool_decide_eq_false. Qed.

Lemma integral_in_range (a : dec) z :
  (dec_val a == inject_Z z)%Q ->
  dec_gt a (dec_of_Z max_int64) || dec_lt a (dec_of_Z min_int64) = negb (in_int64 z).
Proof.
  intros Hz. apply eq_true_iff_eq. rewrite orb_true_iff, negb_true_iff, dec_gt_val, dec_lt_val.
  rewrite !dec_of_Z_val, Hz, <- !Zlt_Qlt.
  rewrite <- not_true_iff_false, in_int64_spec. unfold min_int64, max_int64. lia.
Qed.

Lemma above_cap (a cap : dec) :
  dec_is_positive cap && dec_gt a cap = false <-> ((0 < dec_val cap)%Q -> (dec_val a <= dec_val cap)%Q).
Proof.
  rewrite andb_false_iff, <- !not_true_iff_false, dec_is_positive_val, dec_gt_val. split.
  - intros [?|?] ?; [done|by apply Qnot_lt_le].
  - intros H. destruct (Qlt_le_dec 0 (dec_val cap)) as [Hp|Hn]; [right|left]; [specialize (H Hp)|]; lra.
Qed.

(** Errors an infrastructure failure can surface as. *)
Inductive infra_like : error -> Prop :=
  | infra_base i : infra_like (infra_error i)
  | infra_wrap ctx e : infra_like e -> infra_like (Wrap ctx e).
End helpers.

Section admission.
Context `{DEC : !Decimal} `{UT : !UuidText} `{HASH : !Hashing}.

(** the admission checks accept exactly the well-formed commands: a
    non-blank key, a known currency if one is given, an amount that is a whole
    number of minor units within 64 bits and within the configured ceiling; any
    other command is refused before any database call. *)
Theorem malformed_commands_never_reach_the_database (s : Service) cmd :
  (precheck s cmd = Ok tt <->
    TrimSpace (IdempotencyKey cmd) <> EmptyString /\
    (Currency_ cmd = EmptyString \/ exists c, Normalize (currencies_ s) (Currency_ cmd) = inr c) /\
    (exists z, dec_bigint (Amount cmd) = Some z) /\
    ((0 < dec_val (maxAmountPerTx s))%Q -> (dec_val (Amount cmd) <= dec_val (maxAmountPerTx s))%Q)) /\
  (precheck s cmd <> Ok tt -> forall w, exists e, Handle s cmd w = (Err e, w)).
Proof.
  unfold Handle, precheck. cbv zeta. split.
  - destruct (empty (TrimSpace _)) eqn:Ek.
    { unfold empty in Ek. apply bool_decide_eq_true in Ek. split; [done|]. by intros [? _]. }
    apply empty_false in Ek.
    assert (Hc : (if empty (Currency_ cmd) then None
                  else match Normalize (currencies_ s) (Currency_ cmd) with
                       | inl err => Some err | inr _ => None end) = None
                 <-> (Currency_ cmd = EmptyString
                      \/ exists c, Normalize (currencies_ s) (Currency_ cmd) = inr c)).
    { unfold empty. case_bool_decide as E; [tauto|].
      destruct (Normalize _ _); split; try done; [by intros [?|[? ?]]|eauto]. }
    destruct (if empty (Currency_ cmd) then None else _) as [err|];
      [split; [done|intros (_ & H & _); by apply Hc in H]|].
    assert (Hcur := proj1 Hc eq_refl). clear Hc.
    destruct (dec_is_integer (Amount cmd)) eqn:Ei; simpl.
    2: { split; [done|]. intros (_ & _ & (z & Hz) & _). apply dec_bigint_spec in Hz as [Hz _].
         rewrite (proj2 (dec_is_integer_val _)) in Ei by eauto. done. }
    apply dec_is_integer_val in Ei as [z Hz]. rewrite (integral_in_range _ z Hz).
    destruct (in_int64 z) eqn:Er; simpl.
    2: { split; [done|]. intros (_ & _ & (z' & Hz') & _). apply dec_bigint_spec in Hz' as [Hz' Hr'].
         rewrite Hz in Hz'. apply inject_Z_inj in Hz' as <-. congruence. }
    assert (Hb : exists z, dec_bigint (Amount cmd) = Some z)
      by (exists z; by apply dec_bigint_spec).
    pose proof (above_cap (Amount cmd) (maxAmountPerTx s)) as Hcap.
    destruct (_ && _); [split; [done|]|].
    + intros (_ & _ & _ & H). by apply Hcap in H.
    + split; [|done]. intros _. split_and!; try done. by apply Hcap.
  - intros Hn w. unfold bind at 1, lift.
    destruct (if empty (TrimSpace _) then _ else _) as [[]|e|] eqn:E; [done|by eauto|].
    exfalso. revert E. destruct (empty _); [done|]. destruct (if empty _ then None else _); [done|].
    do 3 (destruct (_ : bool); [done|]). done.
Qed.

(** a transaction type nobody registered is refused, with no database call. *)
Theorem unknown_types_are_refused (s : Service) cmd w :
  precheck s cmd = Ok tt -> registry_ s !! Type_ cmd = None ->
  exists e, Handle s cmd w = (Err e, w) /\ errors_is e ErrUnknownProcessor = true.
Proof.
  intros Hp Hr. unfold Handle, bind at 1, lift. rewrite Hp. unfold bind at 1, Registry_Get. rewrite Hr.
  eexists. split; [done|]. reflexivity.
Qed.
End admission.

Section processors.
Context `{DEC : !Decimal} `{UT : !UuidText} `{HASH : !Hashing} `{REPO : !AccountRepository}.
Context (reg : registry).

(** the default registry builds without panicking, for any account
    repository and currency registry: it holds the thirty-eight processors, each
    under its own type and nothing else. *)
Theorem default_registry_is_complete :
  exists r : ProcessorRegistry, NewDefaultRegistry reg = Ok r /\
    length (default_processors reg) = 38%nat /\ NoDup (Type__ <$> default_processors reg) /\
    forall t p, r !! t = Some p <-> p ∈ default_processors reg /\ Type__ p = t.
Proof.
  destruct (default_registry_spec reg) as (r & Hr & Hspec). exists r.
  split_and!; [done|reflexivity|apply default_types_distinct|done].
Qed.

(** C37: whatever a registered processor validates and then builds passes the
    balance check, so the engine's "unbalanced entries" branch is dead code for
    every one of the thirty-eight types. *)
Theorem registered_processors_build_balanced_entries p rc bal w w1 w2 es w3 :
  p ∈ default_processors reg -> wf_ledger (w_db w2) ->
  Validate p rc bal w = (Ok tt, w1) -> BuildEntries p rc bal w2 = (Ok es, w3) ->
  validateBalanced es = Ok tt.
Proof.
  intros Hp. pose proof (default_processors_sound reg) as Hall. rewrite Forall_forall in Hall.
  by apply (Hall p Hp).
Qed.
End processors.

Section pricing.
Context `{DEC : !Decimal} `{UT : !UuidText}.

(** a priced fee comes from an enabled rule none of the applicable rules
    beats in specificity; it is the flat part plus the basis points of the
    amount rounded toward zero, and lies strictly between zero and the amount. *)
Theorem resolved_fee_is_the_best_rule userID txType gateway currency amount z w fee feeGateway w' :
  dec_bigint amount = Some z ->
  Resolve userID txType gateway currency amount w = (Ok (Some (fee, feeGateway)), w') ->
  exists r k, r ∈ fee_rules (w_db w) /\ rule_applies txType currency userID gateway r = true /\
    (forall r', r' ∈ fee_rules (w_db w) -> rule_applies txType currency userID gateway r' = true ->
                (rule_rank r' <= rule_rank r)%nat) /\
    (dec_val fee == inject_Z k)%Q /\ 0 < k < z /\
    k = r_flat_minor_units r
        + (if 0 <? r_percent_basis_pts r then Z.quot (z * r_percent_basis_pts r) 10000 else 0) /\
    feeGateway = (if bool_decide (r_fee_gateway r = EmptyString) then "platform" else r_fee_gateway r).
Proof.
  intros [Hz _]%dec_bigint_spec H.
  destruct (Resolve_Ok _ _ _ _ _ z _ _ _ _ Hz H) as (r & Hin & Ha & Hmax & Hfee & Hpos & Hlt & Hg).
  rewrite Hfee in Hpos, Hlt. rewrite Hz in Hlt. change 0%Q with (inject_Z 0) in Hpos.
  rewrite <- Zlt_Qlt in Hpos, Hlt. eexists r, _. by split_and!.
Qed.

(** a fee quote pays for one transaction: once consumed under a reference,
    it answers that reference again with the same fee (a retried posting) and
    answers nothing to any other reference, whatever else that request asks. *)
Theorem quote_is_single_use quoteID u t c a ref d now fee d1 :
  sql_consume_quote quoteID u t c a ref d now = inr (Some fee, d1) ->
  (forall now2, exists d2, sql_consume_quote quoteID u t c a ref d1 now2 = inr (Some fee, d2)) /\
  (forall u2 t2 c2 a2 z2 ref2 now2, dec_bigint a2 = Some z2 -> ref2 <> ref ->
     sql_consume_quote quoteID u2 t2 c2 a2 ref2 d1 now2 = inr (None, d1)).
Proof.
  intros H. split.
  - intros now2. destruct (consume_again _ _ _ _ _ _ _ _ _ _ now2 H) as (d2 & ? & _). by exists d2.
  - intros. by eapply consume_twice.
Qed.
End pricing.

(** the currency policy, decided: statements need a non-draft currency that
    publishes them; settling what is in flight needs one that is active, paused or
    disabled; anything else needs an enabled currency, active or (except for new
    accounts and top-ups) paused, that lists the operation. *)
Theorem currency_policy_decision code operation w row ops :
  healthy w -> canonicalCode code = Ok code ->
  currencies (w_db w) !! code = Some row -> c_operations row = Some ops ->
  (fst (validateCurrencyPolicy code operation w) = Ok tt <-> policy_accepts row ops operation = true).
Proof. apply validateCurrencyPolicy_decides. Qed.

(** money in flight always comes home: the types that settle, cancel, release
    or refund are accepted in a disabled currency, whatever operations it lists
    and whatever the command's metadata say. *)
Theorem in_flight_types_survive_a_disabled_currency t meta row ops :
  t ∈ inflight_types -> c_status row = "disabled" ->
  policy_accepts row ops (currencyOperation t meta) = true.
Proof.
  intros Ht Hst.
  assert (Hop : currencyOperation t meta = "payout_inflight" \/ currencyOperation t meta = "transfer_inflight").
  { unfold currencyOperation. rewrite (bool_decide_true _ Ht), orb_true_r.
    unfold inflight_types in Ht. repeat (apply elem_of_cons in Ht as [->|Ht]; [vm_compute; auto|]).
    by apply not_elem_of_nil in Ht. }
  unfold policy_accepts. rewrite Hst. by destruct Hop as [-> | ->].
Qed.

(** two commands share an idempotency input only when they share the key and
    the scope: the length prefixes leave no room for a key that spells another
    scope. *)
Theorem idempotency_input_is_injective scope scope' key key' :
  len (default EmptyString scope) < 4294967296 -> len (default EmptyString scope') < 4294967296 ->
  len key < 4294967296 -> len key' < 4294967296 ->
  canonicalIdempotencyInput scope key = canonicalIdempotencyInput scope' key' ->
  default EmptyString scope = default EmptyString scope' /\ key = key'.
Proof. apply canonical_inj. Qed.

Section engine.
Context `{DEC : !Decimal} `{UT : !UuidText} `{HASH : !Hashing}.

(** the retry policy: a transfer is one to three attempts; only an error of
    SQLSTATE 40001 (a serialization failure) or 40P01 (a deadlock) is tried again,
    after a backoff whose cancellation ends the call, and the last failure is reported. *)
Theorem transfer_follows_the_retry_policy (s : Service) p rc w r w' :
  transfer s p rc w = (r, w') -> attempts s p rc 1 w r w'.
Proof. apply transfer_attempts. Qed.

(** a replayed key is answered from the stored header: a different request
    is a conflict, a posted one is already posted, a failed one stays failed, any
    other status is still processing; nothing is written. *)
Theorem replays_are_answered_from_the_header (s : Service) rc w id t :
  healthy w -> ledger_transactions (w_db w) !! id = Some t -> t_status t <> EmptyString ->
  t_key_digest t = Some (key_digest s rc).1 -> keys_unique (w_db w) ->
  handleDuplicate s rc w = (Err (replay_answer t rc), w).
Proof.
  intros Hw Ht Hst Hd Hu. apply handleDuplicate_answers with id; try done.
  intros id' t' Ht' Hd'. pose proof (Hu _ _ _ _ _ Ht Ht' Hd Hd') as <-. congruence.
Qed.

(** the lifecycle check accepts an original exactly when it exists with the
    expected type, is open, posted, and for the same amount. *)
Theorem original_is_closable_iff reference originalType amount w :
  healthy w ->
  (fst (validateOriginalForClose reference originalType amount w) = Ok tt <->
   exists t, ledger_transactions (w_db w) !! reference = Some t /\ t_type t = originalType /\
     t_closed_by t = None /\ t_status t = "posted" /\
     (dec_val amount == inject_Z (t_amount t))%Q).
Proof.
  intros Hw. unfold validateOriginalForClose, TransactionRepo_GetHeader, scan_row.
  unfold bind at 1, wrap. unfold bind at 1, try. unfold bind at 1. rewrite query_healthy by done.
  destruct (ledger_transactions (w_db w) !! reference) as [t|]; simpl.
  2: { split; [done|]. by intros (? & ? & _). }
  case_bool_decide as E1; simpl; [|split; [done|]; by intros (t' & [= <-] & ? & _)].
  case_bool_decide as E2; simpl.
  { split; [done|]. intros (t' & [= <-] & _ & E & _). rewrite E in E2. by destruct E2. }
  case_bool_decide as E3; simpl; [|split; [done|]; by intros (t' & [= <-] & _ & _ & ? & _)].
  destruct (dec_equal _ amount) eqn:E4; simpl.
  - split; [|done]. intros _. exists t. apply dec_equal_val in E4. rewrite dec_of_Z_val in E4.
    split_and!; try done. by apply eq_None_not_Some.
  - split; [done|]. intros (t' & [= <-] & _ & _ & _ & E). rewrite <- not_true_iff_false in E4.
    exfalso. apply E4. apply dec_equal_val. by rewrite dec_of_Z_val, E.
Qed.

(** balances are written in one fixed order, ascending account id, which
    depends on the set of accounts alone: two postings that share accounts touch
    them in the same order. *)
Theorem write_order_is_fixed (m m' : gmap uuid dec) :
  StronglySorted N.le (sortedDecimalKeys m) /\ NoDup (sortedDecimalKeys m) /\
  (forall id, id ∈ sortedDecimalKeys m <-> is_Some (m !! id)) /\
  (dom m = dom m' -> sortedDecimalKeys m = sortedDecimalKeys m').
Proof.
  pose proof (sortedDecimalKeys_spec m) as [Hnd Hin]. pose proof (sortedDecimalKeys_spec m') as [Hnd' Hin'].
  assert (Hs : forall x : gmap uuid dec, StronglySorted N.le (sortedDecimalKeys x)).
  { intros x. apply Sorted_StronglySorted; [intros ? ? ?; apply N.le_trans|].
    apply Sorted_merge_sort. intros a b. lia. }
  split_and!; [apply Hs|done|done|]. intros Hdom.
  apply (StronglySorted_unique N.le); [apply Hs|apply Hs|].
  apply NoDup_Permutation; [done|done|]. intros id.
  by rewrite Hin, Hin', <- !elem_of_dom, Hdom.
Qed.

(** an infrastructure failure, wrapped any number of times, is never taken
    for a business rejection, so it is never recorded as one by the checks that
    ask. *)
Theorem infrastructure_failures_are_not_rejections e : infra_like e -> IsBusinessRejection e = false.
Proof. induction 1 as [[]|]; [reflexivity..|]. by rewrite IsBusinessRejection_wrap. Qed.

(** deduplication keeps positions: no account twice, none lost, the order
    kept, and a list without repetition is untouched, so source, destination and
    fee account stay where the processor put them. *)
Theorem deduplication_keeps_positions ids :
  NoDup (deduplicate ids) /\ (forall x, x ∈ deduplicate ids <-> x ∈ ids) /\
  deduplicate ids `sublist_of` ids /\ (NoDup ids -> deduplicate ids = ids).
Proof.
  split_and!; [apply deduplicate_NoDup|intros; apply elem_of_deduplicate| |].
  - unfold deduplicate. generalize (∅ : gset uuid).
    induction ids as [|x ids IH]; intros seen; simpl; [done|].
    case_bool_decide; [by apply sublist_cons|by apply sublist_skip].
  - unfold deduplicate.
    assert (H : forall seen : gset uuid, (forall x, x ∈ ids -> x ∉ seen) -> NoDup ids ->
      deduplicate_from seen ids = ids).
    { induction ids as [|x ids IH]; intros seen Hs Hnd; [done|]. apply NoDup_cons in Hnd as [Hx Hnd].
      simpl. rewrite bool_decide_false by (apply Hs; left). f_equal. apply IH; [|done].
      intros y Hy. assert (y <> x) by (by intros ->). assert (y ∉ seen) by (apply Hs; by right).
      set_solver. }
    intros Hnd. apply H; [|done]. set_solver.
Qed.

(** the event of a posted transaction passes its consumers' validation: what
    the ledger emits, the other services accept. *)
Theorem posted_event_is_valid reg rc tx es now z :
  tx <> uuid_Nil -> Type_ (rc_Command rc) <> EmptyString ->
  dec_bigint (Amount (rc_Command rc)) = Some z -> 0 <= z ->
  codePattern (rc_Currency rc) = true -> 0 <= (MinorUnit reg (rc_Currency rc)).1 -> now <> 0 ->
  summary_ok es ->
  (Type_ (rc_Command rc) = "money_in" ->
   exists e, MetaDecimal (Metadata (rc_Command rc)) "total_debit" = inl e) ->
  exists ev, Payload (newPostedEvent reg rc tx es now) = PPosted ev /\
             TransactionPosted_Validate ev = None.
Proof. intros Htx Hty [Hv _]%dec_bigint_spec. by apply newPostedEvent_valid. Qed.

(** the event of a reversal passes its consumers' validation. *)
Theorem reversed_event_is_valid tx original z amount currency now :
  tx <> uuid_Nil -> original <> uuid_Nil -> dec_bigint amount = Some z -> 0 <= z ->
  codePattern currency = true -> now <> 0 ->
  TransactionReversed_Validate
    (NewTransactionReversed tx original (dec_string amount) currency now) = None.
Proof. intros Htx Ho [Hv _]%dec_bigint_spec. by apply (NewTransactionReversed_valid _ _ z). Qed.

(** the shared amount check accepts exactly the amounts the ledger can
    store: positive whole numbers of minor units that fit 64 bits. *)
Theorem minor_amount_is_accepted_iff amount :
  ValidatePositiveMinorAmount amount = None <-> exists z, dec_bigint amount = Some z /\ 0 < z.
Proof. apply ValidatePositiveMinorAmount_spec. Qed.
End engine.
