(* ===== verification/Witnesses.v ===== *)
(** * The theorems at work

    Every theorem with hypotheses applied to the worked world: the hypotheses
    hold there, and what the run does is shown by evaluation.
    Then runs in which the code does what its comments deny. *)
From Stdlib Require Import QArith.
From stdpp Require Import prelude gmap strings list.
From S2P Require Import Prelude Decimal Errors Currency Events Money Store TxRepo Repos AccountRepo Fee.
From S2P Require Import Processors ProcMoney ProcWithdraw ProcFx Handle Frames Lawful Postings Invariant.
From S2P Require Import Entries Engine Outcome Components Scenarios Effects Progress Liveness Theorems.
From S2P Require Import Properties.
Open Scope Z_scope.
(** ** Facts of the worked runs *)
Lemma demo_reaches cmds : wf_ledger (w_db (after cmds)) /\ keys_unique (w_db (after cmds)).
Proof.
  destruct (run_all demo_service cmds w0) as [rs w] eqn:E.
  pose proof (run_all_invariant demo_service cmds w0 rs w E demo_db_wf) as H.
  unfold after. rewrite E. destruct H as (H1 & H2 & _); [|by split].
  intros id id' t t' g Ht _ _ _. by apply demo_keys in Ht.
Qed.
Lemma demo_wf cmds : wf_ledger (w_db (after cmds)).
Proof. apply demo_reaches. Qed.
Lemma demo_unique cmds : keys_unique (w_db (after cmds)).
Proof. apply demo_reaches. Qed.
Lemma demo_range cmds : balances_in_range (w_db (after cmds)).
Proof. apply wf_range, demo_wf. Qed.
Lemma demo_registered t p : registry_ demo_service !! t = Some p -> demo_registry !! t = Some p.
Proof. done. Qed.

(** One call of the worked service, from the state after a run. *)
Definition call (history : list Command) (cmd : Command) : result unit * world :=
  Handle demo_service cmd (after history).
Definition call_db (history : list Command) (cmd : Command) : database := w_db (call history cmd).2.
Lemma call_pair history cmd :
  Handle demo_service cmd (after history) = ((call history cmd).1, (call history cmd).2).
Proof. apply surjective_pairing. Qed.

(** The header a run stored under an id. *)
Definition header_in (history : list Command) (id : uuid) : option tx_row :=
  ledger_transactions (w_db (after history)) !! id.

Definition has_header (history : list Command) (id : uuid) (P : tx_row -> bool) : bool :=
  match header_in history id with Some t => P t | None => false end.
Lemma header_exists history id P :
  has_header history id P = true -> exists t, header_in history id = Some t /\ P t = true.
Proof. unfold has_header. destruct (header_in history id) as [t|]; [by exists t|done]. Qed.

(** ** The posting service *)
Lemma handle_preserves_ledger_invariant_witness :
  (call [] (topup "k1" 1000)).1 = Ok tt /\ wf_ledger (call_db [] (topup "k1" 1000)).
Proof.
  split; [vm_compute; reflexivity|].
  exact (handle_preserves_ledger_invariant demo_service (topup "k1" 1000) w0 _ _ demo_db_wf
           (call_pair [] (topup "k1" 1000))).
Defined.

Lemma handle_conserves_money_witness :
  balance_in (call [topup "k1" 1000] (p2p "k2" 300)).2 21%N = Some 290 /\
  total (call_db [topup "k1" 1000] (p2p "k2" 300)) "IDR" = total (w_db (after [topup "k1" 1000])) "IDR".
Proof.
  split; [vm_compute; reflexivity|].
  exact (handle_conserves_money demo_service (p2p "k2" 300) (after [topup "k1" 1000]) _ _ "IDR"
           (demo_wf [topup "k1" 1000]) (call_pair [topup "k1" 1000] (p2p "k2" 300))).
Defined.

Lemma handle_refines_ledger_step_witness :
  ledger_step (w_db (after [topup "k1" 1000])) (call_db [topup "k1" 1000] (p2p "k2" 300)).
Proof.
  exact (handle_refines_ledger_step demo_service (p2p "k2" 300) (after [topup "k1" 1000]) _ _
           (demo_range [topup "k1" 1000]) (call_pair [topup "k1" 1000] (p2p "k2" 300))).
Defined.

Lemma call_ok history cmd :
  (call history cmd).1 = Ok tt -> Handle demo_service cmd (after history) = (Ok tt, (call history cmd).2).
Proof. intros <-. apply call_pair. Qed.

Lemma handle_success_means_posted_witness :
  exists rc, resolves (topup "k1" 1000) rc /\ posted_key demo_service rc (call_db [] (topup "k1" 1000)).
Proof.
  refine (handle_success_means_posted demo_service (topup "k1" 1000) (after []) _
           (demo_range []) (call_ok [] (topup "k1" 1000) _)).
  vm_compute. reflexivity.
Defined.

Lemma handle_replay_changes_nothing_witness :
  (call [topup "k1" 1000] (topup "k1" 1000)).1 = Ok tt /\
  call_db [topup "k1" 1000] (topup "k1" 1000) = w_db (after [topup "k1" 1000]).
Proof.
  split; [vm_compute; reflexivity|].
  destruct (header_in [topup "k1" 1000] 1000%N) as [t|] eqn:E;
    [|exfalso; revert E; vm_compute; discriminate].
  refine (handle_replay_changes_nothing demo_service (topup "k1" 1000) (after [topup "k1" 1000]) _ _
            1000%N t E (or_introl _) (call_pair [topup "k1" 1000] (topup "k1" 1000))).
  assert (H : t_key_digest <$> header_in [topup "k1" 1000] 1000%N
              = Some (Some (Digest (digestRing demo_service)
                  (canonicalIdempotencyInput (stringPtr "") "k1")).1)) by (vm_compute; reflexivity).
  rewrite E in H. injection H as H. exact H.
Defined.

Lemma handle_keeps_headers_witness :
  exists t t', header_in [topup "k1" 1000] 1000%N = Some t /\
    ledger_transactions (call_db [topup "k1" 1000] (reverse 1000%N "r" 1000)) !! 1000%N = Some t' /\
    same_header t t' /\ closed_once t t' /\
    (t_status t' = t_status t \/
     (t_closed_by t = None /\ is_Some (t_closed_by t') /\ t_status t' = "reversed")).
Proof.
  destruct (header_in [topup "k1" 1000] 1000%N) as [t|] eqn:E;
    [|exfalso; revert E; vm_compute; discriminate].
  destruct (handle_keeps_headers demo_service (reverse 1000%N "r" 1000) (after [topup "k1" 1000]) _ _
              1000%N t (demo_range [topup "k1" 1000])
              (call_pair [topup "k1" 1000] (reverse 1000%N "r" 1000)) E) as (t' & H).
  exists t, t'. split; [reflexivity|exact H].
Defined.

Definition settled_run : list Command := [topup "k1" 1000; hold "h1"; settle 1004%N "s1"].

Definition held_run : list Command := [topup "k1" 1000; hold "h1"].
(** The hold is settled; another top-up runs, and then a cancellation of the same hold. *)
Definition just_settled : world := (call held_run (settle 1004%N "s1")).2.
Definition topped_up : world := (run_all demo_service [topup "k2" 500] just_settled).2.
Lemma originals_are_closed_once_witness :
  (Handle demo_service (cancel 1004%N "c1") topped_up).1
    = Err (LedgerError ErrAlreadyClosed "transaction was already closed") /\
  length (ledger_entries (w_db topped_up)) = 8%nat /\
  exists tx rows, posting (w_db (after held_run)) (w_db just_settled) tx rows /\
    closed_as (w_db just_settled) 1004%N tx "settled" /\
    same_ledger (w_db topped_up) (w_db (Handle demo_service (cancel 1004%N "c1") topped_up).2) /\
    closed_as (w_db (Handle demo_service (cancel 1004%N "c1") topped_up).2) 1004%N tx "settled".
Proof.
  split; [vm_compute; reflexivity|]. split; [vm_compute; reflexivity|].
  destruct (originals_are_closed_once demo_service (settle 1004%N "s1") (after held_run) _ _ "settled"
              (demo_wf held_run) (call_pair held_run (settle 1004%N "s1")))
    as [(_ & _ & E & _)|(tx & rows & P & _ & C & K)]; [vm_compute; reflexivity| |].
  - exfalso. assert (L : length (ledger_entries (w_db just_settled)) = length (ledger_entries (w_db (after held_run))))
      by exact (f_equal length E). vm_compute in L. discriminate L.
  - exists tx, rows. split; [exact P|]. split; [exact C|].
    refine (K [topup "k2" 500] _ topped_up (cancel 1004%N "c1") _ _ "cancelled"
              (surjective_pairing _) (surjective_pairing _) _ eq_refl). vm_compute; reflexivity.
Defined.

Definition topup_resolved : ResolvedCommand :=
  {| rc_Command := with_currency (topup "k1" 1000) "IDR"; AccountIDs := [90%N; 11%N];
     rc_Currency := "IDR"; rc_Source := 90%N; rc_Destination := 11%N |}.
Definition lost_ack : world :=
  demo_world demo_db (replicate 11 (Call 0 NoFault) ++ [Call 0 (LostAck ConnectionLost)]).

(** The acknowledgement of the commit is lost: the call fails, the money moved. *)
Lemma execTransfer_is_atomic_witness :
  let p := MoneyIn init_registry in
  let run := execTransfer demo_service p topup_resolved lost_ack in
  run.1 = Err (Wrap "commit tx" DriverError) /\ balance_in run.2 11%N = Some 1000 /\
  ((w_db run.2 = demo_db /\ run.1 <> Ok tt)
   \/ (exists tx rows, posting demo_db (w_db run.2) tx rows /\
        (run.1 = Ok tt \/ exists e, run.1 = Err (Wrap "commit tx" e)))
   \/ (exists tx err t, same_ledger demo_db (w_db run.2) /\
        ledger_transactions (w_db run.2) !! tx = Some t /\ t_error t = Some err /\
        (run.1 = Err err \/ exists e, run.1 = Err (Wrap "commit tx" e)))).
Proof.
  cbv zeta. split; [vm_compute; reflexivity|]. split; [vm_compute; reflexivity|].
  refine (execTransfer_is_atomic demo_service (MoneyIn init_registry) topup_resolved lost_ack _ _ _
            (wf_range _ demo_db_wf) (surjective_pairing _)).
  intros E. discriminate E.
Defined.

Definition posted_entries (history : list Command) (cmd : Command) : list entry_row :=
  drop (length (ledger_entries (w_db (after history)))) (ledger_entries (call_db history cmd)).

Lemma handle_posts_to_usable_accounts_witness :
  exists e, e ∈ posted_entries [] (topup "k1" 1000) /\
    exists x t, accounts demo_db !! e_account_id e = Some x /\
      ledger_transactions (call_db [] (topup "k1" 1000)) !! e_transaction_id e = Some t /\
      a_status x = "active" /\ a_currency x = t_currency t.
Proof.
  destruct (posted_entries [] (topup "k1" 1000)) as [|e l] eqn:E;
    [exfalso; revert E; vm_compute; discriminate|].
  assert (He : e ∈ posted_entries [] (topup "k1" 1000)) by (rewrite E; left).
  exists e. split; [left|].
  exact (handle_posts_to_usable_accounts demo_service (topup "k1" 1000) (after []) _ _ e
           (demo_range []) (call_pair [] (topup "k1" 1000)) He).
Defined.

Definition transferred : list Command := [topup "k1" 1000; p2p "p1" 100].

Lemma reversal_undoes_original_witness :
  (call transferred (reverse 1004%N "r1" 100)).1 = Ok tt /\
  balance_in (call transferred (reverse 1004%N "r1" 100)).2 <$> [11%N; 21%N; 91%N]
    = [Some 1000; Some 0; Some 0] /\
  (same_ledger (w_db (after transferred)) (call_db transferred (reverse 1004%N "r1" 100)) \/
   forall a, account_balances (call_db transferred (reverse 1004%N "r1" 100)) !! a =
     (fun b => BalanceRow (b_balance b
          - computed_balance a (entries_of_tx 1004%N (ledger_entries (w_db (after transferred)))))
        (b_allow_negative b)) <$> account_balances (w_db (after transferred)) !! a).
Proof.
  split; [vm_compute; reflexivity|]. split; [vm_compute; reflexivity|].
  refine (reversal_undoes_original demo_service init_registry (reverse 1004%N "r1" 100)
            (after transferred) _ _ _ eq_refl (demo_range transferred)
            (call_pair transferred (reverse 1004%N "r1" 100))).
  apply demo_lookup; [|reflexivity]. by apply (list_elem_of_lookup_2 _ 37).
Defined.

(** The event announces exactly the two rows stored. *)
Lemma posting_emits_its_event_witness :
  length (outbox_events (call_db [] (topup "k1" 1000))) = 1%nat /\
  ((ledger_entries (call_db [] (topup "k1" 1000)) = ledger_entries (w_db (after [])) /\
    outbox_events (call_db [] (topup "k1" 1000)) = outbox_events (w_db (after [])))
   \/ exists tx rows ev o os,
     ledger_entries (call_db [] (topup "k1" 1000)) = ledger_entries (w_db (after [])) ++ rows /\
     outbox_events (call_db [] (topup "k1" 1000)) = outbox_events (w_db (after [])) ++ o :: os /\
     o_payload o = PPosted ev /\ o_event_type o = TypeTransactionPosted /\ tp_TxID ev = tx /\
     Forall (fun e => e_transaction_id e = tx) rows /\
     tp_Entries ev = map (fun e => MkEntrySummary (e_account_id e) (direction_text (e_direction e))
                                                  (Z_text (e_amount e))) rows).
Proof.
  split; [vm_compute; reflexivity|].
  exact (posting_emits_its_event demo_service init_registry (topup "k1" 1000) (after []) _ _
           demo_registry_built (demo_range []) (call_pair [] (topup "k1" 1000))).
Defined.

Lemma fee_posting_moves_exactly_witness :
  balance_in (call [topup "k1" 1000] (p2p "k2" 300)).2 <$> [11%N; 21%N; 91%N]
    = [Some 700; Some 290; Some 10] /\
  (same_ledger (w_db (after [topup "k1" 1000])) (call_db [topup "k1" 1000] (p2p "k2" 300)) \/
   exists payer payee feeAccount z k, payer <> payee /\ dec_bigint (dec_of_Z 300) = Some z /\
     0 <= k < z /\
     forall x, account_balances (call_db [topup "k1" 1000] (p2p "k2" 300)) !! x =
       (fun b => BalanceRow (b_balance b + (credit_if x payee (z - k) + credit_if x feeAccount k
                                            - credit_if x payer z))
          (b_allow_negative b)) <$> account_balances (w_db (after [topup "k1" 1000])) !! x).
Proof.
  split; [vm_compute; reflexivity|].
  refine (fee_posting_moves_exactly demo_service init_registry (TransferP2P init_registry) (p2p "k2" 300)
            (after [topup "k1" 1000]) _ _ _ _ (demo_range [topup "k1" 1000])
            (call_pair [topup "k1" 1000] (p2p "k2" 300))).
  - apply demo_lookup; [|reflexivity]. by apply (list_elem_of_lookup_2 _ 8).
  - by apply (list_elem_of_lookup_2 _ 3).
Defined.

Lemma two_leg_posting_moves_exactly_witness :
  let history := [topup "k1" 1000; hold "h1"] in
  (call history (cancel 1004%N "c1")).1 = Ok tt /\
  (same_ledger (w_db (after history)) (call_db history (cancel 1004%N "c1")) \/
   exists a b z, a <> b /\ dec_bigint (dec_of_Z 400) = Some z /\ 0 < z /\
     forall x, account_balances (call_db history (cancel 1004%N "c1")) !! x =
       (fun bal => BalanceRow (b_balance bal + (credit_if x b z - credit_if x a z))
          (b_allow_negative bal)) <$> account_balances (w_db (after history)) !! x).
Proof.
  cbv zeta. split; [vm_compute; reflexivity|].
  refine (two_leg_posting_moves_exactly demo_service init_registry (WithdrawCancel init_registry)
            (cancel 1004%N "c1") (after [topup "k1" 1000; hold "h1"]) _ _ _ _
            (demo_range [topup "k1" 1000; hold "h1"])
            (call_pair [topup "k1" 1000; hold "h1"] (cancel 1004%N "c1"))).
  - apply demo_lookup; [|reflexivity]. by apply (list_elem_of_lookup_2 _ 5).
  - by apply (list_elem_of_lookup_2 _ 1).
Defined.

(** A top-up of 500 with a fee of 20 on top: the bank pays 520. *)
Definition topup_on_top : Command :=
  demo_command "money_in" "t1" 500 1%N 0%N
    [("gateway", MString "bca"); ("fee_amount", MString "20"); ("fee_gateway", MString "platform");
     ("fee_application", MString "added_on_top"); ("total_debit", MString "520")].

Lemma topup_posting_moves_exactly_witness :
  balance_in (call [] topup_on_top).2 <$> [11%N; 90%N; 91%N] = [Some 500; Some (-520); Some 20] /\
  (same_ledger (w_db (after [])) (call_db [] topup_on_top) \/
   exists settlement user feeAccount z k, settlement <> user /\
     dec_bigint (dec_of_Z 500) = Some z /\ 0 <= k < z /\
     forall x, account_balances (call_db [] topup_on_top) !! x =
       (fun bal => BalanceRow (b_balance bal
            + (credit_if x user (if on_top topup_on_top then z else z - k) + credit_if x feeAccount k
               - credit_if x settlement (if on_top topup_on_top then z + k else z)))
          (b_allow_negative bal)) <$> account_balances (w_db (after [])) !! x).
Proof.
  split; [vm_compute; reflexivity|].
  refine (topup_posting_moves_exactly demo_service init_registry topup_on_top (after []) _ _ _
            (demo_range []) (call_pair [] topup_on_top)).
  apply demo_lookup; [|reflexivity]. by apply (list_elem_of_lookup_2 _ 0).
Defined.

(** The second rebalance of 400 would leave the position above its maximum of 500. *)
Lemma rebalance_respects_position_limits_witness :
  (call [rebalance "f1" 400] (rebalance "f2" 400)).1
    = Err (Wrap "projected balance outside" (Sentinel ErrFXPositionLimitExceeded)) /\
  (call [] (rebalance "f1" 400)).1 = Ok tt /\
  (same_ledger (w_db (after [])) (call_db [] (rebalance "f1" 400)) \/
   exists pair_ code lo hi a b z,
     MetaString (Metadata (rebalance "f1" 400)) "pair" = inr pair_ /\
     MetaString (Metadata (rebalance "f1" 400)) "currency" = inr code /\
     position_limit (ToUpper (TrimSpace pair_)) (ToUpper (TrimSpace code)) (w_db (after []))
       = Some (lo, hi) /\
     dec_bigint (dec_of_Z 400) = Some z /\ account_balances (w_db (after [])) !! a = Some b /\
     account_balances (call_db [] (rebalance "f1" 400)) !! a
       = Some (BalanceRow (b_balance b + z) (b_allow_negative b)) /\
     lo <= b_balance b + z <= hi).
Proof.
  split; [vm_compute; reflexivity|]. split; [vm_compute; reflexivity|].
  refine (rebalance_respects_position_limits demo_service init_registry true (rebalance "f1" 400)
            (after []) _ _ _ (demo_range []) (call_pair [] (rebalance "f1" 400))).
  apply demo_lookup; [|reflexivity]. by apply (list_elem_of_lookup_2 _ 28).
Defined.

Lemma handle_keeps_keys_unique_witness : keys_unique (call_db [topup "k1" 1000] (p2p "k2" 300)).
Proof.
  exact (handle_keeps_keys_unique demo_service (p2p "k2" 300) (after [topup "k1" 1000]) _ _
           (demo_range [topup "k1" 1000]) (call_pair [topup "k1" 1000] (p2p "k2" 300))
           (demo_unique [topup "k1" 1000])).
Defined.

Lemma closing_posts_close_their_original_witness :
  let history := [topup "k1" 1000; hold "h1"] in
  (call history (settle 1004%N "s1")).1 = Ok tt /\
  (same_ledger (w_db (after history)) (call_db history (settle 1004%N "s1")) \/
   exists tx t t' own, ledger_transactions (w_db (after history)) !! 1004%N = Some t /\
     t_closed_by t = None /\
     ledger_transactions (call_db history (settle 1004%N "s1")) !! 1004%N = Some t' /\
     t_closed_by t' = Some tx /\ t_closed_reason t' = Some "settled" /\
     ledger_transactions (call_db history (settle 1004%N "s1")) !! tx = Some own /\
     t_status own = "posted" /\ t_type own = "withdraw_settle").
Proof.
  cbv zeta. split; [vm_compute; reflexivity|].
  destruct (header_exists [topup "k1" 1000; hold "h1"] 1004%N (fun _ => true)) as (t & Ht & _);
    [vm_compute; reflexivity|].
  refine (closing_posts_close_their_original demo_service (settle 1004%N "s1")
            (after [topup "k1" 1000; hold "h1"]) _ _ "settled"
            (demo_range [topup "k1" 1000; hold "h1"])
            (call_pair [topup "k1" 1000; hold "h1"] (settle 1004%N "s1")) _ (ex_intro _ t Ht)).
  vm_compute. reflexivity.
Defined.

Lemma posting_is_recorded_witness :
  length (ledger_entries (call_db [] (topup "k1" 1000))) = 2%nat /\
  (ledger_entries (call_db [] (topup "k1" 1000)) = ledger_entries (w_db (after [])) \/
   exists tx t rows, ledger_entries (call_db [] (topup "k1" 1000)) = ledger_entries (w_db (after [])) ++ rows /\
     Forall (fun e => e_transaction_id e = tx) rows /\
     ledger_transactions (w_db (after [])) !! tx = None /\
     ledger_transactions (call_db [] (topup "k1" 1000)) !! tx = Some t /\
     t_status t = "posted" /\ t_type t = "money_in" /\ dec_bigint (dec_of_Z 1000) = Some (t_amount t) /\
     t_idempotency_scope t = stringPtr "" /\
     t_key_digest t = Some (Digest (digestRing demo_service)
       (canonicalIdempotencyInput (stringPtr "") "k1")).1).
Proof.
  split; [vm_compute; reflexivity|].
  exact (posting_is_recorded demo_service (topup "k1" 1000) (after []) _ _ (demo_range [])
           (call_pair [] (topup "k1" 1000))).
Defined.

Lemma every_run_reconciles_witness :
  (run_all demo_service settled_run w0).1 = [Ok tt; Ok tt; Ok tt] /\
  wf_ledger (w_db (after settled_run)) /\ keys_unique (w_db (after settled_run)) /\
  forall c, total (w_db (after settled_run)) c = total demo_db c.
Proof.
  split; [vm_compute; reflexivity|].
  refine (every_run_reconciles demo_service settled_run w0 _ _ (surjective_pairing _) demo_db_wf _).
  intros id id' t t' g Ht _ _ _. destruct (demo_keys id t Ht).
Defined.

(** ** The components *)
Definition teleport : Command := demo_command "teleport" "k" 5 1%N 0%N [].
Lemma unknown_types_are_refused_witness :
  exists e, Handle demo_service teleport w0 = (Err e, w0) /\ errors_is e ErrUnknownProcessor = true.
Proof.
  assert (Hp : precheck demo_service teleport = Ok tt) by (vm_compute; reflexivity).
  assert (Hr : registry_ demo_service !! Type_ teleport = None)
    by (apply demo_unregistered; vm_compute; reflexivity).
  exact (unknown_types_are_refused demo_service teleport w0 Hp Hr).
Defined.

Lemma registered_processors_build_balanced_entries_witness :
  let p := TransferP2P init_registry in
  let rc := {| rc_Command := p2p "k2" 300; AccountIDs := [11%N; 21%N; 91%N]; rc_Currency := "IDR";
               rc_Source := 11%N; rc_Destination := 21%N |} in
  let bal := select_balances (w_db (after [topup "k1" 1000])) [11%N; 21%N; 91%N] in
  exists es, BuildEntries p rc bal (after [topup "k1" 1000]) = (Ok es, after [topup "k1" 1000]) /\
    length es = 3%nat /\ validateBalanced es = Ok tt.
Proof.
  cbv zeta. eexists. split; [reflexivity|]. split; [reflexivity|].
  refine (registered_processors_build_balanced_entries init_registry (TransferP2P init_registry)
            {| rc_Command := p2p "k2" 300; AccountIDs := [11%N; 21%N; 91%N]; rc_Currency := "IDR";
               rc_Source := 11%N; rc_Destination := 21%N |}
            (select_balances (w_db (after [topup "k1" 1000])) [11%N; 21%N; 91%N])
            w0 w0 (after [topup "k1" 1000]) _ (after [topup "k1" 1000]) _ (demo_wf [topup "k1" 1000]) _ eq_refl).
  - by apply (list_elem_of_lookup_2 _ 8).
  - vm_compute. reflexivity.
Defined.

(** Of the two rules, the one for user 1 is the more specific: 2 + 1% of 300. *)
Lemma resolved_fee_is_the_best_rule_witness :
  let run := Resolve 1%N "transfer_p2p" "" "IDR" (dec_of_Z 300) w0 in
  exists fee gateway, run = (Ok (Some (fee, gateway)), run.2) /\
    exists r k, r ∈ demo_fee_rules /\ rule_applies "transfer_p2p" "IDR" 1%N "" r = true /\
      (forall r', r' ∈ demo_fee_rules -> rule_applies "transfer_p2p" "IDR" 1%N "" r' = true ->
                  (rule_rank r' <= rule_rank r)%nat) /\
      (dec_val fee == inject_Z k)%Q /\ 0 < k < 300 /\
      k = r_flat_minor_units r
          + (if 0 <? r_percent_basis_pts r then Z.quot (300 * r_percent_basis_pts r) 10000 else 0) /\
      gateway = (if bool_decide (r_fee_gateway r = EmptyString) then "platform" else r_fee_gateway r).
Proof.
  cbv zeta.
  destruct (Resolve 1%N "transfer_p2p" "" "IDR" (dec_of_Z 300) w0) as [[[[fee gateway]|]|e|] w] eqn:E;
    [|exfalso; revert E; vm_compute; discriminate..].
  exists fee, gateway. split; [reflexivity|].
  exact (resolved_fee_is_the_best_rule 1%N "transfer_p2p" "" "IDR" (dec_of_Z 300) 300 w0 fee gateway w
           eq_refl E).
Defined.

Lemma quote_is_single_use_witness :
  exists d1, sql_consume_quote 7%N 1%N "transfer_p2p" "IDR" (dec_of_Z 300) "tx:a" demo_db 100
             = inr (Some (12, "platform"), d1) /\
    (forall now2, exists d2, sql_consume_quote 7%N 1%N "transfer_p2p" "IDR" (dec_of_Z 300) "tx:a" d1 now2
                            = inr (Some (12, "platform"), d2)) /\
    sql_consume_quote 7%N 1%N "transfer_p2p" "IDR" (dec_of_Z 300) "tx:b" d1 101 = inr (None, d1).
Proof.
  destruct (sql_consume_quote 7%N 1%N "transfer_p2p" "IDR" (dec_of_Z 300) "tx:a" demo_db 100)
    as [e|[[fee|] d1]] eqn:E; [exfalso; revert E; vm_compute; discriminate| |
                               exfalso; revert E; vm_compute; discriminate].
  assert (Hfee : fee = (12, "platform")) by (revert E; vm_compute; congruence).
  destruct (quote_is_single_use _ _ _ _ _ _ _ _ _ _ E) as [H1 H2]. rewrite Hfee in *.
  exists d1. split; [reflexivity|]. split; [exact H1|].
  refine (H2 1%N "transfer_p2p" "IDR" (dec_of_Z 300) 300 "tx:b" 101 eq_refl _). discriminate.
Defined.

Lemma currency_policy_decision_witness :
  fst (validateCurrencyPolicy "IDR" "payout" w0) = Ok tt <-> policy_accepts demo_currency
    {["topup" := true; "transfer" := true; "payout" := true]} "payout" = true.
Proof.
  refine (currency_policy_decision "IDR" "payout" w0 demo_currency _ (conj eq_refl eq_refl) _ _ eq_refl);
    vm_compute; reflexivity.
Defined.

Lemma in_flight_types_survive_a_disabled_currency_witness :
  policy_accepts (CurrencyRow 0 "disabled" false (Some ∅)) ∅ (currencyOperation "withdraw_settle" ∅) = true.
Proof.
  refine (in_flight_types_survive_a_disabled_currency "withdraw_settle" ∅
            (CurrencyRow 0 "disabled" false (Some ∅)) ∅ _ eq_refl).
  unfold inflight_types. by apply (list_elem_of_lookup_2 _ 3).
Defined.

Lemma idempotency_input_is_injective_witness :
  default EmptyString (Some "user:1") = default EmptyString (Some "user:1") /\ "k1" = "k1".
Proof.
  exact (idempotency_input_is_injective (Some "user:1") (Some "user:1") "k1" "k1"
           eq_refl eq_refl eq_refl eq_refl eq_refl).
Defined.

Lemma transfer_follows_the_retry_policy_witness :
  attempts demo_service (MoneyIn init_registry) topup_resolved 1 w0
    (transfer demo_service (MoneyIn init_registry) topup_resolved w0).1
    (transfer demo_service (MoneyIn init_registry) topup_resolved w0).2.
Proof.
  exact (transfer_follows_the_retry_policy demo_service (MoneyIn init_registry) topup_resolved w0 _ _
           (surjective_pairing _)).
Defined.

(** Replaying a posted top-up: already posted. *)
Lemma replays_are_answered_from_the_header_witness :
  exists t, header_in [topup "k1" 1000] 1000%N = Some t /\
    errors_is (replay_answer t topup_resolved) ErrAlreadyPosted = true /\
    handleDuplicate demo_service topup_resolved (after [topup "k1" 1000])
    = (Err (replay_answer t topup_resolved), after [topup "k1" 1000]).
Proof.
  pose (P := fun t : tx_row => bool_decide (t_status t <> EmptyString)
    && bool_decide (t_key_digest t = Some (key_digest demo_service topup_resolved).1)
    && errors_is (replay_answer t topup_resolved) ErrAlreadyPosted).
  destruct (header_exists [topup "k1" 1000] 1000%N P) as (t & Ht & HP); [vm_compute; reflexivity|].
  apply andb_true_iff in HP as [HP H3]. apply andb_true_iff in HP as [H1 H2].
  apply bool_decide_eq_true_1 in H1, H2.
  exists t. split; [exact Ht|]. split; [exact H3|].
  refine (replays_are_answered_from_the_header demo_service topup_resolved (after [topup "k1" 1000])
            1000%N t _ Ht H1 H2 (demo_unique [topup "k1" 1000])).
  split; vm_compute; reflexivity.
Defined.

Lemma original_is_closable_iff_witness :
  fst (validateOriginalForClose 1004%N "withdraw_initiate" (dec_of_Z 400)
         (after [topup "k1" 1000; hold "h1"])) = Ok tt /\
  (fst (validateOriginalForClose 1004%N "withdraw_initiate" (dec_of_Z 400)
         (after [topup "k1" 1000; hold "h1"])) = Ok tt <->
   exists t, header_in [topup "k1" 1000; hold "h1"] 1004%N = Some t /\
     t_type t = "withdraw_initiate" /\ t_closed_by t = None /\ t_status t = "posted" /\
     (dec_val (dec_of_Z 400) == inject_Z (t_amount t))%Q).
Proof.
  split; [vm_compute; reflexivity|].
  refine (original_is_closable_iff 1004%N "withdraw_initiate" (dec_of_Z 400)
            (after [topup "k1" 1000; hold "h1"]) _).
  split; vm_compute; reflexivity.
Defined.

Lemma infrastructure_failures_are_not_rejections_witness :
  IsBusinessRejection (Wrap "lock balances" DriverError) = false.
Proof.
  exact (infrastructure_failures_are_not_rejections (Wrap "lock balances" DriverError)
           (infra_wrap "lock balances" _ (infra_base ConnectionLost))).
Defined.

Lemma posted_event_is_valid_witness :
  let rc := {| rc_Command := p2p "k2" 300; AccountIDs := [11%N; 21%N; 91%N]; rc_Currency := "IDR";
               rc_Source := 11%N; rc_Destination := 21%N |} in
  exists ev, Payload (newPostedEvent init_registry rc 1004%N
                        (two_entries 11%N 21%N (dec_of_Z 300) "" "") 100) = PPosted ev /\
             TransactionPosted_Validate ev = None.
Proof.
  cbv zeta.
  refine (posted_event_is_valid init_registry
            {| rc_Command := p2p "k2" 300; AccountIDs := [11%N; 21%N; 91%N]; rc_Currency := "IDR";
               rc_Source := 11%N; rc_Destination := 21%N |} 1004%N
            (two_entries 11%N 21%N (dec_of_Z 300) "" "") 100 300 _ _ eq_refl _ eq_refl _ _ _ _);
    try discriminate.
  repeat constructor; try discriminate; exists 300; split; [discriminate|reflexivity|discriminate|reflexivity].
Defined.

Lemma reversed_event_is_valid_witness :
  TransactionReversed_Validate
    (NewTransactionReversed 1008%N 1004%N (dec_string (dec_of_Z 300)) "IDR" 100) = None.
Proof.
  refine (reversed_event_is_valid 1008%N 1004%N 300 (dec_of_Z 300) "IDR" 100 _ _ eq_refl _ eq_refl _);
    discriminate.
Defined.

(** *** A ready command: the transfer of [p2p], after a top-up *)
Definition ready_world : world := after [topup "k1" 1000].
Definition ready_rc : ResolvedCommand :=
  {| rc_Command := with_currency (p2p "k2" 300) "IDR"; AccountIDs := [11%N; 21%N; 91%N];
     rc_Currency := "IDR"; rc_Source := 11%N; rc_Destination := 21%N |}.
Definition ready_entries : list EntryInstruction :=
  fee_entries ready_rc 11%N 21%N EmptyString EmptyString "p2p transfer fee".

(** No id at or above the bound is in use. *)
Definition ids_below (b : uuid) (d : database) : bool :=
  bool_decide (map_Forall (fun id _ => id < b)%N (ledger_transactions d))
  && bool_decide (Forall (fun e => e_id e < b /\ e_transaction_id e < b)%N (ledger_entries d))
  && bool_decide (Forall (fun o => o_id o < b)%N (outbox_events d)).
Lemma fresh_when w k : (forall n, w_ids w n = (N.of_nat n + 1000)%N) -> w_next_id w = k ->
  ids_below (N.of_nat k + 1000)%N (w_db w) = true -> fresh_ids w.
Proof.
  intros Hids Hn [[Hh%bool_decide_eq_true He%bool_decide_eq_true]%andb_true_iff Ho%bool_decide_eq_true]%andb_true_iff.
  rewrite Forall_forall in He. rewrite Forall_forall in Ho.
  split; rewrite ?Hn; intros n; [intros j| |intros e|intros e|intros o]; rewrite ?Hids; intros H.
  - lia.
  - apply eq_None_not_Some. intros [t Ht]. apply Hh in Ht. lia.
  - intros Hin%He. lia.
  - intros Hin%He. lia.
  - intros Hin%Ho. lia.
Qed.
Lemma ready_world_healthy : healthy ready_world.
Proof. split; vm_compute; reflexivity. Qed.
Lemma ready_world_fresh : fresh_ids ready_world.
Proof. apply (fresh_when _ 4); [intros; vm_compute; reflexivity|vm_compute; reflexivity..]. Qed.

Lemma passes_ready {A} headers (m : M A) a (d : database) :
  (forall w, m w = (Ok a, w)) -> passes headers d m a.
Proof. intros H w tx t _ _ _. apply H. Qed.

(** What a computation can settle of [ready]. *)
Definition usable_in (rc : ResolvedCommand) (d : database) (a : uuid) : bool :=
  match accounts d !! a with
  | Some x => bool_decide (a_status x = "active") && bool_decide (a_currency x = rc_Currency rc)
  | None => false
  end.
Definition room_in (d : database) (a : uuid) (delta : Z) : bool :=
  match account_balances d !! a with
  | Some b => in_int64 (b_balance b + delta)
              && chk_balance_floor (BalanceRow (b_balance b + delta) (b_allow_negative b))
  | None => false
  end.
Definition integral_in (a : dec) : bool := match dec_bigint a with Some z => 0 <? z | None => false end.
Definition free_in (rc : ResolvedCommand) (d : database) : bool :=
  negb (any_tx (fun t => same_digest (key_digest demo_service rc).1 t
    || same_identity (IdempotencyKey (rc_Command rc)) (stringPtr (IdempotencyScope (rc_Command rc))) t) d).
Definition closers_in (d : database) : bool :=
  forallb (fun kt => match t_closed_by kt.2 with
    | Some by_ => bool_decide (is_Some (ledger_transactions d !! by_)) | None => true end) (map_to_list (ledger_transactions d)).
Definition entries_ok (rc : ResolvedCommand) (es : list EntryInstruction) (d : database) : bool :=
  bool_decide (es <> []) && (length es <=? maxEntriesBatch)%nat && forallb (fun e => integral_in (ei_Amount e)) es
  && bool_decide (NoDup (entry_slot <$> es)) && forallb (fun e => bool_decide (ei_AccountID e ∈ AccountIDs rc)) es
  && (debits (drafts 0%N es) =? credits (drafts 0%N es)) && in_int64 (debits (drafts 0%N es))
  && forallb (fun a => room_in d a (computed_balance a (drafts 0%N es))) (AccountIDs rc).
Definition command_ok (rc : ResolvedCommand) (d : database) : bool :=
  closers_in d && bool_decide (QuoteID (rc_Command rc) = EmptyString) && free_in rc d
  && integral_in (Amount (rc_Command rc)) && (len (rc_Currency rc) <=? 3)
  && bool_decide (rc_Source rc ∈ AccountIDs rc) && bool_decide (rc_Destination rc ∈ AccountIDs rc)
  && forallb (usable_in rc d) (AccountIDs rc).
Lemma integral_in_spec a : integral_in a = true -> exists z, dec_bigint a = Some z /\ 0 < z.
Proof. unfold integral_in. destruct (dec_bigint a) as [z|]; [|done]. intros H. exists z. split; [done|lia]. Qed.
Lemma free_in_spec rc d : free_in rc d = true -> ~ key_taken demo_service rc d.
Proof.
  unfold free_in. rewrite negb_true_iff, any_tx_false. intros H (id & t & Ht & Hk). apply (H id t), orb_false_iff in Ht as [H1 H2].
  destruct Hk as [Hd|Hi]; [by apply bool_decide_eq_false in H1|congruence].
Qed.
Lemma closers_in_spec d id t by_ : closers_in d = true -> ledger_transactions d !! id = Some t ->
  t_closed_by t = Some by_ -> is_Some (ledger_transactions d !! by_).
Proof.
  unfold closers_in. rewrite forallb_forall. intros H Ht Hc. specialize (H (id, t)). cbn [snd] in H.
  rewrite Hc, bool_decide_eq_true in H. apply H. by apply list_elem_of_In, elem_of_map_to_list.
Qed.
Lemma usable_in_spec rc d : forallb (usable_in rc d) (AccountIDs rc) = true -> accounts_usable rc d.
Proof.
  rewrite forallb_forall. intros H a Ha%list_elem_of_In%H. unfold usable_in in Ha.
  destruct (accounts _ !! a) as [x|]; [|discriminate Ha]. exists x.
  apply andb_true_iff in Ha as [H1%bool_decide_eq_true H2%bool_decide_eq_true]. by split_and!.
Qed.
Lemma room_in_spec d a delta : room_in d a delta = true -> room d a delta.
Proof.
  unfold room_in, room. destruct (account_balances _ !! a) as [b|]; [|done]. intros [H1 H2]%andb_true_iff. by exists b.
Qed.
Lemma ready_when p rc es d : command_ok rc d = true -> entries_ok rc es d = true ->
  (forall reason, lifecycleCloseReason !! Type_ (rc_Command rc) = Some reason ->
     exists t, ledger_transactions d !! ReferenceID (rc_Command rc) = Some t /\ t_closed_by t = None) ->
  passes gated d (check_currency_policy demo_service rc) tt -> passes gated d (check_payin_snapshot demo_service rc) tt ->
  ValidateBeforeBalanceLocks p = None -> (forall bal, shown rc d bal -> passes gated d (Validate p rc bal) tt) ->
  (forall bal, shown rc d bal -> passes (closed_headers rc) d (BuildEntries p rc bal) es) ->
  (forall tx now, (length (OutboxEvents p rc tx es now) <= maxOutboxBatch)%nat) -> ready demo_service p rc es d.
Proof.
  intros Hc He Hopen Hpol Hpay Hpre Hval Hbuild Hev.
  unfold command_ok, entries_ok in Hc, He. repeat (apply andb_true_iff in Hc as [Hc ?]). repeat (apply andb_true_iff in He as [He ?]).
  repeat match goal with H : bool_decide _ = true |- _ => apply bool_decide_eq_true in H end.
  split; try done.
  - intros id t by_. by apply closers_in_spec.
  - by apply free_in_spec.
  - by apply integral_in_spec.
  - lia.
  - by right.
  - by right.
  - by apply usable_in_spec.
  - intros f Hf. rewrite Hpre in Hf. discriminate Hf.
  - by apply Nat.leb_le.
  - apply Forall_forall. intros e Hin%list_elem_of_In. rewrite (forallb_forall (fun e => integral_in (ei_Amount e))) in *.
    by apply integral_in_spec; auto.
  - intros e Hin%list_elem_of_In. rewrite (forallb_forall (fun e => bool_decide (ei_AccountID e ∈ AccountIDs rc))) in *.
    match goal with H : forall x, _ -> bool_decide (ei_AccountID x ∈ _) = true |- _ => by apply H, bool_decide_eq_true in Hin end.
  - lia.
  - intros a Hin%list_elem_of_In. rewrite (forallb_forall (fun a => room_in d a _)) in *. apply room_in_spec; auto.
Qed.

Lemma ready_validates bal w :
  shown ready_rc (w_db ready_world) bal ->
  Validate (TransferP2P init_registry) ready_rc bal w = (Ok tt, w).
Proof.
  intros Hs. pose proof (Hs 11%N (list_elem_of_here _ _)) as Hb.
  assert (H : match balance_of (w_db ready_world) 11%N with
              | Some ab => negb (dec_lt (ab_Balance ab) (dec_of_Z 300)) | None => false end = true)
    by (vm_compute; reflexivity).
  destruct (balance_of (w_db ready_world) 11%N) as [ab|]; [|discriminate H].
  apply negb_true_iff in H as Hlt. clear Hs H.
  assert (Hp : PositiveAmountValidator ready_rc bal = Ok tt) by (vm_compute; reflexivity).
  assert (Hi : IntegralAmountValidator ready_rc bal = Ok tt) by (vm_compute; reflexivity).
  assert (Hf : MultiValidator (NotSelfTransferValidator 11%N 21%N :: fee_validators ready_rc)
    ready_rc bal = Ok tt) by (vm_compute; reflexivity).
  change (lift (MultiValidator ([PositiveAmountValidator; IntegralAmountValidator;
    SufficientFundsValidator 11%N]
    ++ (NotSelfTransferValidator 11%N 21%N :: fee_validators ready_rc)) ready_rc bal) w = (Ok tt, w)).
  cbn [MultiValidator app] in Hf |- *. rewrite Hp, Hi. unfold SufficientFundsValidator. rewrite Hb.
  change (Amount (rc_Command ready_rc)) with (dec_of_Z 300). rewrite Hlt. by rewrite Hf.
Qed.

Lemma ready_demo :
  ready demo_service (TransferP2P init_registry) ready_rc ready_entries (w_db ready_world).
Proof.
  apply ready_when; [vm_compute; reflexivity|vm_compute; reflexivity|discriminate|..].
  - apply passes_ready. intros w. reflexivity.
  - apply passes_ready. intros w. unfold check_payin_snapshot.
    rewrite (bool_decide_false (Type_ (rc_Command ready_rc) = "money_in")) by discriminate. reflexivity.
  - reflexivity.
  - intros bal Hs'. apply passes_ready. intros w. exact (ready_validates bal w Hs').
  - intros bal _. apply passes_ready. intros w. reflexivity.
  - intros tx now. apply (Nat.leb_le 1 50). reflexivity.
Qed.

(** ... and of [accepted]. *)
Lemma accepted_when cmd p rc es w ra currency `{!LawfulProcessor p} :
  precheck demo_service cmd = Ok tt -> registry_ demo_service !! Type_ cmd = Some p -> QuoteID cmd = EmptyString ->
  ValidateCommand p cmd w = (Ok tt, w) -> (forall c w', healthy w' -> AfterCommit p c w' = (Ok tt, w')) ->
  (ResolveAccounts p cmd w).1 = Ok (ra, currency) -> w_calls (ResolveAccounts p cmd w).2 = [] ->
  w_aborted (ResolveAccounts p cmd w).2 = false ->
  w_ids (ResolveAccounts p cmd w).2 = w_ids w ->
  w_next_id (ResolveAccounts p cmd w).2 = w_next_id w ->
  resolve_command cmd ra currency = Ok rc -> ready demo_service p rc es (w_db w) -> accepted demo_service cmd p rc es w.
Proof.
  intros H1 H2 H3 H4 H5 Hra Hc Ha Hi Hn Hrc Hr. split; try done.
  exists (ra, currency), (ResolveAccounts p cmd w).2. split; [by rewrite <- Hra, <- surjective_pairing|].
  split; [split; [by split|done|lia]|]. split; [|done]. symmetry. exact (lp_ResolveAccounts cmd w _ _ (surjective_pairing _)).
Qed.
Lemma ready_accepted :
  accepted demo_service (p2p "k2" 300) (TransferP2P init_registry) ready_rc ready_entries ready_world.
Proof.
  apply (accepted_when _ _ _ _ _ (twoLeg 11%N 21%N [91%N]) "IDR"); [vm_compute; reflexivity| |reflexivity..|exact ready_demo].
  apply demo_lookup; [|reflexivity]. by apply (list_elem_of_lookup_2 _ 8).
Qed.


(** *** A ready settlement: of the hold, which it closes *)
Definition settle_world : world := after held_run.
Definition settle_rc : ResolvedCommand :=
  {| rc_Command := with_currency (settle 1004%N "s1") "IDR"; AccountIDs := [12%N; 90%N];
     rc_Currency := "IDR"; rc_Source := 12%N; rc_Destination := 90%N |}.
Definition settle_entries : list EntryInstruction :=
  fee_entries settle_rc 12%N 90%N "withdraw settled" EmptyString "withdraw fee".

Lemma closable_passes id type z w t :
  healthy w -> ledger_transactions (w_db w) !! id = Some t ->
  t_type t = type -> t_closed_by t = None -> t_status t = "posted" -> t_amount t = z ->
  validateOriginalForClose id type (dec_of_Z z) w = (Ok tt, w).
Proof.
  intros [Hc Ho] Ht Ety Ecl Est Ez.
  unfold validateOriginalForClose, TransactionRepo_GetHeader, scan_row, bind, wrap, try.
  rewrite (Components.query_healthy _ w (conj Hc Ho)), Ht. simpl. rewrite Ety, Ecl, Est, Ez.
  rewrite !bool_decide_true by done. rewrite bool_decide_false by (by intros []).
  simpl. by rewrite (proj2 (dec_equal_val _ _)).
Qed.
Lemma settle_validates bal : shown settle_rc (w_db settle_world) bal ->
  passes gated (w_db settle_world) (Validate (WithdrawSettle init_registry) settle_rc bal) tt.
Proof.
  intros Hs w tx t Hw Hf Ed.
  pose proof (Hs 12%N (list_elem_of_here _ _)) as Hb.
  assert (Hq : match ledger_transactions (w_db settle_world) !! 1004%N with
    | Some o => bool_decide (t_type o = "withdraw_initiate") && bool_decide (t_closed_by o = None)
                && bool_decide (t_status o = "posted") && (t_amount o =? 400)
    | None => false end = true) by (vm_compute; reflexivity).
  destruct (ledger_transactions (w_db settle_world) !! 1004%N) as [o|] eqn:Eo; [|discriminate Hq].
  repeat (apply andb_true_iff in Hq as [Hq ?]). apply bool_decide_eq_true in Hq.
  repeat match goal with H : bool_decide _ = true |- _ => apply bool_decide_eq_true in H end.
  assert (Ho : ledger_transactions (w_db w) !! 1004%N = Some o).
  { rewrite Ed. unfold gated. simpl. rewrite lookup_insert_ne; [exact Eo|]. intros ->. discriminate (eq_trans (eq_sym Eo) Hf). }
  change (bind (validateOriginalForClose 1004%N "withdraw_initiate" (dec_of_Z 400))
    (fun _ => lift (MultiValidator [PositiveAmountValidator; IntegralAmountValidator; SufficientFundsValidator 12%N] settle_rc bal)) w = (Ok tt, w)).
  unfold bind. rewrite (closable_passes 1004%N "withdraw_initiate" 400 w o Hw Ho) by (assumption || lia).
  assert (Hm : match balance_of (w_db settle_world) 12%N with
    | Some ab => negb (dec_lt (ab_Balance ab) (dec_of_Z 400)) | None => false end = true) by (vm_compute; reflexivity).
  assert (Hp : PositiveAmountValidator settle_rc bal = Ok tt) by (vm_compute; reflexivity).
  assert (Hi : IntegralAmountValidator settle_rc bal = Ok tt) by (vm_compute; reflexivity).
  cbn [MultiValidator]. rewrite Hp, Hi. unfold SufficientFundsValidator. rewrite Hb.
  destruct (balance_of (w_db settle_world) 12%N) as [ab|]; [|discriminate Hm]. apply negb_true_iff in Hm.
  change (Amount (rc_Command settle_rc)) with (dec_of_Z 400). by rewrite Hm.
Qed.
Lemma settle_open reason : lifecycleCloseReason !! Type_ (rc_Command settle_rc) = Some reason ->
  exists t, ledger_transactions (w_db settle_world) !! ReferenceID (rc_Command settle_rc) = Some t /\ t_closed_by t = None.
Proof.
  intros _. destruct (header_exists held_run 1004%N (fun t => bool_decide (t_closed_by t = None))) as (t & Ht & Hc);
    [vm_compute; reflexivity|]. exists t. split; [exact Ht|]. by apply bool_decide_eq_true in Hc.
Qed.
Lemma settle_ready :
  ready demo_service (WithdrawSettle init_registry) settle_rc settle_entries (w_db settle_world).
Proof.
  apply ready_when; [vm_compute; reflexivity|vm_compute; reflexivity|exact settle_open|..].
  - apply passes_ready. intros w. reflexivity.
  - apply passes_ready. intros w. unfold check_payin_snapshot.
    rewrite (bool_decide_false (Type_ (rc_Command settle_rc) = "money_in")) by discriminate. reflexivity.
  - reflexivity.
  - exact settle_validates.
  - intros bal _. apply passes_ready. intros w. reflexivity.
  - intros tx now. apply (Nat.leb_le 1 50). reflexivity.
Qed.
Lemma settle_accepted :
  accepted demo_service (settle 1004%N "s1") (WithdrawSettle init_registry) settle_rc settle_entries settle_world.
Proof.
  apply (accepted_when _ _ _ _ _ (twoLeg 12%N 90%N []) "IDR"); [vm_compute; reflexivity| |reflexivity..|exact settle_ready].
  apply demo_lookup; [|reflexivity]. by apply (list_elem_of_lookup_2 _ 4).
Qed.
Lemma settle_world_healthy : healthy settle_world.
Proof. split; vm_compute; reflexivity. Qed.
Lemma settle_world_fresh : fresh_ids settle_world.
Proof. apply (fresh_when _ 8); [intros; vm_compute; reflexivity|vm_compute; reflexivity..]. Qed.

Lemma ready_commands_are_posted_witness :
  (call [topup "k1" 1000] (p2p "k2" 300)).1 = Ok tt /\
  (exists w', Handle demo_service (p2p "k2" 300) ready_world = (Ok tt, w') /\
    exists tx rows, posting (w_db ready_world) (w_db w') tx rows
      /\ Forall2 (row_of tx) ready_entries rows) /\
  exists w', Handle demo_service (settle 1004%N "s1") settle_world = (Ok tt, w') /\
    exists tx rows, posting (w_db settle_world) (w_db w') tx rows
      /\ Forall2 (row_of tx) settle_entries rows.
Proof.
  split; [vm_compute; reflexivity|]. split.
  - exact (ready_commands_are_posted demo_service (p2p "k2" 300) (TransferP2P init_registry) ready_rc
      ready_entries ready_world ready_accepted eq_refl ready_world_healthy ready_world_fresh
      (demo_range [topup "k1" 1000])).
  - exact (ready_commands_are_posted demo_service (settle 1004%N "s1") (WithdrawSettle init_registry) settle_rc
      settle_entries settle_world settle_accepted eq_refl settle_world_healthy settle_world_fresh
      (demo_range held_run)).
Defined.

Definition outcomes (cmds : list Command) : list (result unit) := (run_all demo_service cmds w0).1.

Definition payin : Command :=
  referring_to 0%N 3%N (demo_command "merchant_payin_credit" "p" 200 0%N 0%N [("gateway", MString "bca")]).
Definition payout_hold (key : string) : Command :=
  referring_to 0%N 3%N (demo_command "merchant_payout_hold" key 100 0%N 0%N []).
Definition payout_settle (ref : uuid) (key : string) : Command :=
  referring_to ref 3%N (demo_command "merchant_payout_settle" key 100 0%N 0%N [("gateway", MString "bca")]).

(** One payout hold settled twice: [merchant_payout_settle] checks that its
    original is open but, missing from [lifecycleCloseReason], never closes it. *)
Lemma payout_hold_is_settled_twice :
  outcomes [payin; payout_hold "h1"; payout_hold "h2"; payout_settle 1004%N "s1"; payout_settle 1004%N "s2"]
    = [Ok tt; Ok tt; Ok tt; Ok tt; Ok tt] /\
  balance_in (after [payin; payout_hold "h1"; payout_hold "h2"; payout_settle 1004%N "s1";
                     payout_settle 1004%N "s2"]) <$> [31%N; 32%N] = [Some 0; Some 0].
Proof. split; vm_compute; reflexivity. Qed.

(** A refund whose merchant account is the payer's own: the two legs collapse to
    one account after deduplication, and indexing the second one panics. *)
Lemma self_refund_panics :
  outcomes [topup "k1" 1000;
            referring_to 1000%N 0%N
              (demo_command "refund" "r" 100 0%N 1%N [("merchant_account_id", MString "11")])]
  = [Ok tt; Panic].
Proof. vm_compute. reflexivity. Qed.

(** Replaying the key of a posting that was reversed since: "still processing". *)
Lemma replay_of_a_reversed_posting_is_still_processing :
  outcomes [topup "k1" 1000; reverse 1000%N "r" 1000; topup "k1" 1000]
  = [Ok tt; Ok tt; Err (Sentinel ErrStillProcessing)].
Proof. vm_compute. reflexivity. Qed.

(** A zero amount is not a business rejection: it fails on the check constraint of
    the header, before the processor's own check can answer. *)
Lemma zero_amount_is_an_infrastructure_error :
  match outcomes [topup "k1" 0] with
  | [Err e] => IsBusinessRejection e = false /\ as_pg_error e <> None
  | _ => False
  end.
Proof. vm_compute. split; [reflexivity|discriminate]. Qed.

(** The peek at a quote fails on a lost connection (database call 15): the fee
    account is not resolved, the quote is consumed, and the transfer posts without
    its fee. *)
Lemma lost_peek_loses_the_quoted_fee :
  let w calls := (run_all demo_service [topup "k1" 1000; quoted "q1"] (demo_world demo_db calls)) in
  let healthy := w [] in
  let failing := w (replicate 15 (Call 0 NoFault) ++ [Call 0 (Fails ConnectionLost)]) in
  healthy.1 = [Ok tt; Ok tt] /\ failing.1 = [Ok tt; Ok tt] /\
  balance_in healthy.2 <$> [21%N; 91%N] = [Some 288; Some 12] /\
  balance_in failing.2 <$> [21%N; 91%N] = [Some 300; Some 0] /\
  (q_consumed_at <$> fee_quotes (w_db failing.2) !! 7%N) = Some (Some 100).
Proof. vm_compute. repeat split. Qed.

(** A command with a quote id, on a service without a fee policy: the nil policy
    is dereferenced. *)
Definition service_without_policy : Service :=
  {| digestRing := digestRing demo_service; registry_ := demo_registry;
     maxAmountPerTx := dec_zero; feePolicy := false; currencyValidator := None;
     projectionWriter := None; currencies_ := init_registry |}.
Lemma quote_without_policy_panics :
  (run_all service_without_policy [topup "k1" 1000; quoted "q1"] w0).1 = [Ok tt; Panic].
Proof. vm_compute. reflexivity. Qed.

(** ParseRate refuses the letters of a decimal exponent, but math/big also reads a
    binary exponent, base prefixes and digit separators: these texts, none of them a
    decimal or a fraction of decimals, are accepted as rates. *)
Lemma binary_exponent_rates_are_accepted :
  ParseRate "1p3" = inr (MkRate (Some 8%Q)) /\ ParseRate "0x1F" = inr (MkRate (Some 31%Q)) /\
  ParseRate "1_000.5" = inr (MkRate (Some (2001 # 2)%Q)).
Proof. vm_compute. repeat split. Qed.
